(* ===== verification/_CoqProject ===== *)
-Q . S2P
Prelude.v
GoStrings.v
Xdb.v
Roles.v
Scopes.v
Tenancy.v
Grants.v
Authorizer.v
Methods.v
Access.v
Model.v
PathLength.v
Base64.v
Query.v
Sql.v
CaQuery.v
CaDb.v
CaDbFacts.v
CaDbSteps.v
CaDbClaims.v
CertStatus.v
Keys.v
Pbconv.v
Lru.v
Registry.v
RegistryFacts.v
RegistryDb.v
Crl.v
CrlFacts.v
CrlRun.v
CrlExamples.v
RowPb.v
IssuerBuild.v
TenantScope.v
BackendIssuers.v
BackendCerts.v
IssuerBuildFacts.v
TenantScopeFacts.v
BackendSteps.v
CrlSteps.v
BackendFacts.v
BackendClaims.v
BackendAnswers.v
BackendExamples.v
Bootstrap.v
BootstrapFacts.v
BootstrapClaims.v
OrgQuery.v
OrgDb.v
OrgsService.v
OrgInv.v
OrgInvites.v
SignIn.v
OrgLogin.v
ApiKeys.v
OrgChanges.v
OrgHistory.v
OrgGrants.v
OrgSignIn.v
ApiKeyFacts.v
OrgClaims.v
OrgExamples.v
OrgEvents.v
Admin.v
Cis.v
CisFacts.v
OcspText.v
UrlText.v
Aia.v
AiaFacts.v
Locator.v
CaForward.v
CaForwardFacts.v
ServiceExamples.v
OAuth.v
OAuthCallback.v
OAuthSession.v
OAuthTrace.v
OAuthClaims.v
OAuthExamples.v
