(* ===== verification/Prelude.v ===== *)
(** * TrustyCA

    A model of the certificate authority [trustyca] and the theorems that
    make it correct.  Paths are relative to the repository.

    ** The program

    TrustyCA is a multi-tenant CA behind gRPC.  An org has projects; users
    hold roles in the org or in projects, API keys hold scopes.  A request
    passes the access check of [internal/authctx], reaches a service, which
    resolves the org and the project of the request, and works on the rows of
    the CA tables ([internal/db]) and on issuers loaded by the registry
    ([internal/ca]).  Background tasks ([server/tasks]) expire certificates
    and renew CRLs.

    ** How it is modelled

    Go code that cannot fail is a function; code that returns an error
    returns a [result]; code with state is a computation of the monad [M] of
    [Prelude], over the state of its component.  Errors are values that keep
    their cause, so that [errors.Is] and the gRPC code are those of the code;
    a message is modelled up to the quotes of the [%q] verb.  Identifiers and
    times are [Z]; times count milliseconds from Go's zero time, so zero is
    the zero time and NULL.  Libraries outside of the repository are classes:
    one for what the code calls, one for the laws the theorems rely on; an
    instance of each is part of the development, and every theorem with a
    hypothesis is applied at one.

    Calls run one at a time: a lock of the code is not modelled, and neither
    are a lost connection, logs, metrics and audit log lines.

    ** The files

    - [Prelude], [GoStrings], [Xdb], [Base64], [Sql]: errors and the monad,
      the functions of [strings], the database library, base64 and tables
      with unique constraints ([internal/db/pgsql/errors.go]).
    - [Roles], [Scopes], [Tenancy], [Grants]: roles, scopes and the grants of
      a user ([internal/authctx/roles.go], [scopes.go], [grants.go],
      [internal/db/model/member.go]).
    - [Authorizer], [Methods], [Access]: the cached grants, the method table
      and the access check with its interceptors
      ([internal/authctx/authorizer.go], [authz.go], [ctx.go],
      [allowed.go]).
    - [Model], [RowPb]: the rows of the CA tables, their
      validation, messages and events ([internal/db/model],
      [internal/events]).
    - [Query], [CaQuery], [CaDb], [CaDbFacts], [CaDbSteps], [CaDbClaims]:
      query scopes, cursors, the requests and the methods of the CA database
      ([internal/db/pgsql] and its [query]).
    - [PathLength], [Keys], [Pbconv], [IssuerBuild]: path lengths, issuer
      keys, settings and the constructors of issuers ([internal/ca]).
    - [Lru], [Registry], [RegistryFacts], [RegistryDb]: the issuer registry
      ([internal/ca/registry.go]).
    - [Crl], [CrlFacts], [CrlRun], [CrlExamples]: the CRL publisher
      ([internal/ca/crl.go]).
    - [CertStatus]: the certificate status task
      ([server/tasks/certstatus]).
    - [TenantScope], [BackendIssuers], [BackendCerts]: the backend service
      ([server/service/backend]) and the CRL renewal task
      ([server/tasks/crlrenewal]).

    - [IssuerBuildFacts], [TenantScopeFacts], [BackendSteps], [CrlSteps],
      [BackendFacts], [BackendClaims], [BackendAnswers],
      [BackendExamples]: the rules to follow a method through its steps, one
      lemma per method, the theorems on histories of calls and on answers,
      and concrete services.

    The state of the backend, [TenantScope.BkState], is the state of the
    registry ([Registry.RgState]: the database, the key providers, the heap of
    loaded issuers and the three caches), of an authorizer and of the orgs,
    with the events emitted.  The backend sees the authorizer through the class
    [Authorizer], whose contract [AuthorizerContract] is what the theorems of
    the backend use and what [Authorizer] discharges for the cached one.
    - [Bootstrap], [BootstrapFacts], [BootstrapClaims]: the platform bootstrap
      ([internal/ca/bootstrap.go]), the invariants its steps keep and what it
      settles, the theorems and a concrete start.
    - [OrgQuery], [OrgDb]: the rows of orgs, projects, users,
      logins, memberships, invites and API keys, their queries and the
      methods of the provider ([internal/db/model], [internal/db/pgsql]).
    - [OrgsService], [ApiKeys], [SignIn]: the orgs service
      ([server/service/orgs]), the authentication with an API key and the
      database part of a sign-in ([server/service/auth/apikey.go],
      [callback.go], [tenant.go]).
    - [OrgInv], [OrgInvites], [OrgLogin], [OrgChanges], [OrgHistory],
      [OrgGrants], [OrgSignIn]: the invariant of the orgs
      database, the statements that keep it, the one change each handler
      makes, and histories of calls; [ApiKeyFacts], [OrgClaims],
      [OrgExamples]: the theorems and a concrete history.
    - [OrgEvents]: the list of the audit events ([server/service/orgs/events.go])
      and the deletion of an org, over the orgs database and the event table;
      [Admin]: the lists for support staff ([server/service/admin]).
    - [UrlText], [OAuth], [OAuthCallback], [OAuthSession]: the query of a URL,
      the start and the end of an OAuth flow, the one-time codes, the cookies
      and the sessions ([server/service/auth/authorize.go], [callback.go],
      [auth_service.go], [cookies.go], [userinfo.go], [tenant.go]);
      [OAuthTrace], [OAuthClaims], [OAuthExamples]: histories of
      flows, the theorems and a concrete flow.
    - [Cis], [CisFacts]: the Certificate Information Service
      ([server/service/cis]).
    - [OcspText], [Aia], [AiaFacts]: the Authority
      Information Access service with its OCSP cache
      ([server/service/aia]), over any backend and over the one of the process.
    - [Locator], [CaForward], [CaForwardFacts]: the lookup
      of the backend ([server/service/shared/backend.go]) and the CA service of
      the tenants ([server/service/ca]).
    - [ServiceExamples]: the theorems of the public services at concrete
      histories.
    ** What the theorems show

    - Access: the grants built from the rows decide the declarative relation
      [acts_as]; the access check decides [permitted], which opens the status
      methods to every caller as the code does, also for a call a peer
      forwards; project grants stay in their project; a cached decision is at
      most three minutes old.
    - Database: whatever operations run, the tables stay sound, and every CRL
      is the current one of its issuer when no issuer is activated after its
      first CRL, as the backend keeps to; statuses and numbers only move
      forward, a revocation is atomic and final, a list
      returns every row of its scope once, and the status task expires and
      deletes exactly what is due.
    - CA: resolutions are scoped and fresh, the caches answer as the database
      does, a published CRL lists exactly the valid revocations, a run of the
      publisher accounts for every issuer, subordinate CAs keep the path
      lengths of RFC 5280, and imported keys load.
    - Backend: in every history of calls of its 22 methods the registry stays
      coherent with the database and the database well formed
      ([BackendClaims.backend_stays_coherent]), a call changes certificates,
      issuers, anchors and profiles of the org it is for only
      ([backend_stays_in_org]), and issuers move forward in
      their lifecycle and are never lost ([issuers_live_on]).  Access to a row
      is the declared relation and hidden rows answer as missing ones
      ([TenantScopeFacts], [BackendAnswers]), new issuers are what was asked
      for and hold the key of their certificate ([IssuerBuildFacts]), OCSP responses state what the database holds,
      and the counts of the summary saturate ([BackendAnswers]).
    - Bootstrap ([BootstrapClaims]): a start that succeeds has mirrored its
      configuration into the platform rows whatever other instances of the
      same configuration commit meanwhile, a second start writes no issuer, a
      lost race ends with the row of the winner, and the rows of the orgs
      are never touched.
    - Orgs: in every history of calls, sign-ins and time, every org keeps an
      Owner ([OrgClaims.orgs_keep_an_owner]), a membership changes and an
      invite is written only by a caller who may grant its role there, and an
      invite goes only from the caller's org ([member_changes_authorized]), a
      sign-in accepts exactly the pending invites of its email
      ([sign_in_accepts_invites]), and a session enters only an org where its
      user has a grant ([selected_role_earned]).  A token for an API key
      follows from a timely signature with its secret, and a created key logs
      in ([ApiKeyFacts]).
    - Lists: reading the audit events of an org page by page yields exactly
      those the caller sees, once, and no cursor reads another
      ([OrgEvents.audit_trail_read_once], [audit_page_visible]); the deletion
      of an org takes its rows and no other
      ([OrgEvents.org_deletion_exact]); the admin service lists exactly the
      certificates of an issuer in its org, of a deleted one in every org
      ([Admin.issuer_certificates_listed]), and every org and project once
      ([admin_reads_every_row]).
    - OAuth ([OAuthClaims]): a one-time code gives the token of its sign-in
      once, in time, to who started the flow; a callback is always answered, on
      a redirect URI its flow was allowed to name, and the client reads back
      exactly what is answered; who signs in is the user of the address the
      provider names, whether or not the provider verified it
      ([OAuthClaims.sign_in_email_from_provider],
      [unverified_address_accepted]); a cookie session never sees a token.
    - Public services: the answers of the CIS hide what belongs to the orgs
      and agree with OCSP ([CisFacts]); every OCSP answer is a response the CA
      signed for a request of the same hash, valid when it is sent, is signed
      by an issuer the request names by its hashes and states what the
      database holds ([AiaFacts]); the locator keeps the backend it found and
      closes every connection it opens, once ([Locator]); a call of the CA
      service stays in the org of its token ([CaForwardFacts]).

    Idealisations of these parts: the generator of row IDs never repeats
    itself, random text is drawn from a stream the state holds, and a page of
    the memberships of an org holds them all where [OrgHistory] says so (the
    code reads one page).  A remote backend is any [CaForward.BackendServer];
    the connections a locator dials are numbered, and closing a client closes
    its connection whatever it returns.
    Random texts never repeat where a theorem needs it ([OAuthTrace.RandomLaws]),
    and nobody forges the protected state of a flow ([OAuthTrace.unforged]).  A
    one-time code is read and removed in one step, as calls run one at a time:
    two exchanges that race in two processes are not modelled.


    ** Fuel and bounds

    Loops of the code that are not structural take their bound from the code
    where it has one ([publishAttempts], [MaxBatches], [BatchSize]); where a
    loop reads pages until none is left, the bound is the number of rows
    plus one, and [Query.cursor_pagination_complete], [OrgQuery.readAll_spec],
    [CrlRun.publish_run_accounts] and [CertStatus.cert_status_run_complete]
    show that it is enough.  The walk over the ancestors of a certificate is
    bounded by the length of its chain.  Counters of the summary saturate at
    [2^32 - 1], as the code does.

    ** Not modelled

    The HTTP requests to OAuth providers, whose answers are an argument, the
    status and UI pages, the factories and routes of the services, the
    application and its configuration, the command line tools and clients, and
    the generated code other than the enums, messages and rows the components
    read.
*)
From Stdlib Require Import ZArith Lia.
From stdpp Require Import base list gmap strings.

(** * Errors

    Go errors are values.  A gRPC status carries its code and message; a
    sentinel is one of the package level [errors.New] variables, compared
    with [errors.Is]; a wrapped error keeps its cause. *)

Inductive code :=
| Canceled | Unknown | InvalidArgument | DeadlineExceeded | NotFound
| AlreadyExists | PermissionDenied | ResourceExhausted | FailedPrecondition
| Aborted | OutOfRange | Unimplemented | Internal | Unavailable | DataLoss
| Unauthenticated.

#[global] Instance code_eq_dec : EqDecision code.
Proof. solve_decision. Defined.

Inductive error :=
| Grpc (c : code) (msg : string)
| GrpcCause (c : code) (msg : string) (cause : error)
| Sentinel (name : string)
| WithMessage (cause : error) (msg : string)
| NoRows
| UniqueViolation (constraint : string)
| OtherError (msg : string).

#[global] Instance error_eq_dec : EqDecision error.
Proof. solve_decision. Defined.

(** [err.Error()]: a wrapped error prints its message before its cause. *)
Fixpoint Error (e : error) : string :=
  match e with
  | Grpc _ msg => msg
  | GrpcCause _ msg _ => msg
  | Sentinel name => name
  | WithMessage e msg => msg ++ ": " ++ Error e
  | NoRows => "sql: no rows in result set"
  | UniqueViolation c =>
      "duplicate key value violates unique constraint " ++ c
  | OtherError msg => msg
  end.

(** [errors.Is]: the error or one of its causes is the target. *)
Fixpoint errors_Is (e target : error) : bool :=
  bool_decide (e = target) ||
  match e with
  | WithMessage e' _ | GrpcCause _ _ e' => errors_Is e' target
  | _ => false
  end.

(** [xdb.IsNotFoundError]: the error chain ends in [sql.ErrNoRows]. *)
Definition IsNotFoundError (e : error) : bool := errors_Is e NoRows.

(** * Results and the state-and-error monad *)

Inductive result (A : Type) :=
| Ok (a : A)
| Err (e : error).
Arguments Ok {A} a.
Arguments Err {A} e.

#[global] Instance result_eq_dec `{EqDecision A} : EqDecision (result A).
Proof. solve_decision. Defined.

Definition result_bind {A B} (r : result A) (k : A -> result B) : result B :=
  match r with Ok a => k a | Err e => Err e end.

Definition is_ok {A} (r : result A) : bool :=
  match r with Ok _ => true | Err _ => false end.

Lemma Ok_inj {A} (a b : A) : Ok a = Ok b -> a = b.
Proof. by intros [=]. Qed.

(** A computation of component state [S]: Go code that may fail and that
    mutates its receiver returns the result and the state it leaves. *)
Definition M (S A : Type) : Type := S -> result A * S.

Definition ret {S A} (a : A) : M S A := fun s => (Ok a, s).
Definition fail {S A} (e : error) : M S A := fun s => (Err e, s).
Definition bind {S A B} (m : M S A) (k : A -> M S B) : M S B :=
  fun s => match m s with
           | (Ok a, s') => k a s'
           | (Err e, s') => (Err e, s')
           end.
(** [catch m h] continues with the result of [m], error or not: the Go code
    that inspects [err] instead of returning it. *)
Definition catch {S A B} (m : M S A) (k : result A -> M S B) : M S B :=
  fun s => let '(r, s') := m s in k r s'.
Definition get {S} : M S S := fun s => (Ok s, s).
Definition put {S} (s : S) : M S unit := fun _ => (Ok tt, s).
Definition modify {S} (f : S -> S) : M S unit := fun s => (Ok tt, f s).
Definition lift_result {S A} (r : result A) : M S A := fun s => (r, s).
Definition guard {S} (b : bool) (e : error) : M S unit :=
  if b then ret tt else fail e.

Declare Scope go_scope.
Delimit Scope go_scope with go.
Notation "'let!' x ':=' m 'in' k" := (bind m (fun x => k))
  (at level 10, x pattern, m at level 100, k at level 200,
   format "'[v' 'let!'  x  ':='  m  'in' '/' k ']'") : go_scope.
Notation "'let?' x ':=' r 'in' k" := (result_bind r (fun x => k))
  (at level 10, x pattern, r at level 100, k at level 200,
   format "'[v' 'let?'  x  ':='  r  'in' '/' k ']'") : go_scope.
Notation "m ';;;' k" := (bind m (fun _ => k))
  (at level 199, right associativity) : go_scope.
#[global] Open Scope go_scope.

(** * Automation *)

Create HintDb go.

(** Splits every [match], [if] and monadic step of the hypotheses and the
    goal, and clears the contradictory cases. *)
Ltac go_unfold :=
  unfold guard, bind, catch, ret, fail, get, put, modify, lift_result,
    result_bind in *.
Ltac go_case :=
  go_unfold; repeat (case_match || simplify_eq/=); try done.

Lemma bool_decide_iff_eq (P Q : Prop) `{Decision P, Decision Q} :
  (P <-> Q) -> bool_decide P = bool_decide Q.
Proof. apply bool_decide_ext. Qed.

(** * Invariants of computations *)

(** The computation keeps the invariant, whether it fails or not. *)
Definition preserves {S A} (I : S -> Prop) (m : M S A) : Prop :=
  forall s, I s -> I (m s).2.

Section preserves.
Context {S : Type} (I : S -> Prop).

Lemma preserves_ret {A} (a : A) : preserves I (ret a).
Proof. by intros s. Qed.
Lemma preserves_fail {A} e : preserves I (@fail S A e).
Proof. by intros s. Qed.
Lemma preserves_lift {A} (r : result A) : preserves I (lift_result r).
Proof. by intros s. Qed.
Lemma preserves_get : preserves I get.
Proof. by intros s. Qed.
Lemma preserves_guard b e : preserves I (guard b e).
Proof. intros s. by destruct b. Qed.
Lemma preserves_bind {A B} (m : M S A) (k : A -> M S B) :
  preserves I m -> (forall a, preserves I (k a)) -> preserves I (bind m k).
Proof.
  intros Hm Hk s Hs. unfold bind. specialize (Hm s Hs).
  destruct (m s) as [[a|e] s']; [by apply Hk|done].
Qed.
Lemma preserves_bind_lift {A B} (r : result A) (k : A -> M S B) :
  (forall a, r = Ok a -> preserves I (k a)) ->
  preserves I (bind (lift_result r) k).
Proof. intros Hk s Hs. unfold bind, lift_result. destruct r; [by apply Hk|done]. Qed.
Lemma preserves_bind_guard {B} b e (k : unit -> M S B) :
  (b = true -> preserves I (k tt)) -> preserves I (bind (guard b e) k).
Proof. intros Hk s Hs. unfold bind, guard. destruct b; [by apply Hk|done]. Qed.
Lemma preserves_catch {A B} (m : M S A) (k : result A -> M S B) :
  preserves I m -> (forall r, preserves I (k r)) -> preserves I (catch m k).
Proof.
  intros Hm Hk s Hs. unfold catch. specialize (Hm s Hs).
  destruct (m s) as [r s']. by apply Hk.
Qed.
End preserves.

#[export] Hint Resolve preserves_ret preserves_fail preserves_lift
  preserves_get preserves_guard preserves_bind preserves_catch : go.

(** From a state of [I] the computation leaves a state of [Q], whether it
    fails or not. *)
Definition hoare {S A} (I : S -> Prop) (m : M S A) (Q : S -> Prop) : Prop :=
  forall s, I s -> Q (m s).2.

Section hoare.
Context {S : Type}.
Implicit Types (I J Q : S -> Prop).

Lemma hoare_preserves {A} I Q (m : M S A) :
  preserves I m -> (forall s, I s -> Q s) -> hoare I m Q.
Proof. intros Hm HQ s Hs. by apply HQ, Hm. Qed.
(** The steps before keep [I], or reach [Q], which the steps after keep. *)
Lemma hoare_bind_before {A B} I Q (m : M S A) (k : A -> M S B) :
  preserves I m -> (forall s, I s -> Q s) -> (forall a, hoare I (k a) Q) ->
  hoare I (bind m k) Q.
Proof.
  intros Hm HQ Hk s Hs. unfold bind. specialize (Hm s Hs).
  destruct (m s) as [[a|e] s']; [by apply Hk|by apply HQ].
Qed.
Lemma hoare_bind_lift {A B} I Q (r : result A) (k : A -> M S B) :
  (forall s, I s -> Q s) -> (forall a, r = Ok a -> hoare I (k a) Q) ->
  hoare I (bind (lift_result r) k) Q.
Proof.
  intros HQ Hk s Hs. unfold bind, lift_result. destruct r; [by apply Hk|].
  by apply HQ.
Qed.
Lemma hoare_bind_after {A B} I Q (m : M S A) (k : A -> M S B) :
  hoare I m Q -> (forall a, preserves Q (k a)) -> hoare I (bind m k) Q.
Proof.
  intros Hm Hk s Hs. unfold bind. specialize (Hm s Hs).
  destruct (m s) as [[a|e] s']; [by apply Hk|done].
Qed.
Lemma hoare_catch_after {A B} I Q (m : M S A) (k : result A -> M S B) :
  hoare I m Q -> (forall r, preserves Q (k r)) -> hoare I (catch m k) Q.
Proof.
  intros Hm Hk s Hs. unfold catch. specialize (Hm s Hs).
  destruct (m s) as [r s']. by apply Hk.
Qed.
End hoare.

(** Splits a computation into its steps. *)
Ltac preserves_step :=
  lazymatch goal with
  | |- preserves _ (ret _) => apply preserves_ret
  | |- preserves _ (fail _) => apply preserves_fail
  | |- preserves _ (lift_result _) => apply preserves_lift
  | |- preserves _ get => apply preserves_get
  | |- preserves _ (guard _ _) => apply preserves_guard
  | |- preserves _ (bind (lift_result _) _) =>
      let a := fresh "a" in apply preserves_bind_lift; intros a ?;
      try (lazymatch type of a with unit => destruct a end)
  | |- preserves _ (bind (guard _ _) _) =>
      apply preserves_bind_guard; intros ?
  | |- preserves _ (bind _ _) => apply preserves_bind; [|intros ?]
  | |- preserves _ (catch _ _) => apply preserves_catch; [|intros ?]
  | |- preserves _ (match ?x with _ => _ end) => destruct x eqn:?
  end.
Ltac preserves_steps := repeat preserves_step.

(** * Successful computations *)

Section ok.
Context {S : Type}.

Lemma bind_ok {A B} (m : M S A) (k : A -> M S B) s b s' :
  bind m k s = (Ok b, s') <->
  exists a s1, m s = (Ok a, s1) /\ k a s1 = (Ok b, s').
Proof.
  unfold bind. destruct (m s) as [[a|e] s1].
  - split; [by exists a, s1|]. by intros (? & ? & [= -> ->] & ?).
  - split; [done|]. by intros (? & ? & ? & ?).
Qed.
Lemma bind_guard_err {B} b e (k : unit -> M S B) s e' s' :
  bind (guard b e) k s = (Err e', s') ->
  s' = s \/ k tt s = (Err e', s').
Proof.
  unfold bind, guard, ret, fail. destruct b; [by right|]. intros [= _ <-].
  by left.
Qed.
Lemma bind_run {A B} (m : M S A) (k : A -> M S B) s a s' :
  m s = (Ok a, s') -> bind m k s = k a s'.
Proof. unfold bind. by intros ->. Qed.
Lemma bind_run_err {A B} (m : M S A) (k : A -> M S B) s e s' :
  m s = (Err e, s') -> bind m k s = (Err e, s').
Proof. unfold bind. by intros ->. Qed.
Lemma guard_true b e (s : S) : b = true -> guard b e s = (Ok tt, s).
Proof. by intros ->. Qed.
Lemma guard_false b e (s : S) : b = false -> guard b e s = (Err e, s).
Proof. by intros ->. Qed.
Lemma guard_ok b e (s : S) u s' :
  guard b e s = (Ok u, s') <-> b = true /\ s' = s.
Proof. destruct u, b; unfold guard, ret, fail; naive_solver. Qed.
Lemma lift_ok {A} (r : result A) (s : S) a s' :
  lift_result r s = (Ok a, s') <-> r = Ok a /\ s' = s.
Proof. unfold lift_result. naive_solver. Qed.
Lemma ret_ok {A} (x : A) (s : S) a s' :
  ret x s = (Ok a, s') <-> x = a /\ s' = s.
Proof. unfold ret. naive_solver. Qed.
Lemma get_ok (s : S) a s' : get s = (Ok a, s') <-> a = s /\ s' = s.
Proof. unfold get. naive_solver. Qed.
End ok.

(** Takes a successful computation apart. *)
Ltac ok_step H :=
  lazymatch type of H with
  | bind _ _ _ = (Ok _, _) =>
      let a := fresh "a" in let s := fresh "s" in let H' := fresh "H" in
      apply bind_ok in H as (a & s & H' & H); ok_step H'; ok_step H
  | guard _ _ _ = (Ok _, _) => apply guard_ok in H as [H ->]
  | lift_result _ _ = (Ok _, _) => apply lift_ok in H as [H ->]
  | ret _ _ = (Ok _, _) =>
      first [apply ret_ok in H as [<- ->]
            |apply ret_ok in H as [H ->]; simplify_eq/=]
  | get _ = (Ok _, _) => apply get_ok in H as [-> ->]
  | _ => idtac
  end.

(** * Invariants and results *)

(** The computation keeps the invariant, and what it returns satisfies the
    postcondition. *)
Definition yields {S A} (I : S -> Prop) (m : M S A) (Q : A -> Prop) : Prop :=
  forall s, I s -> I (m s).2 /\ forall a, (m s).1 = Ok a -> Q a.

Section yields.
Context {S : Type} (I : S -> Prop).

Lemma yields_ret {A} (a : A) (Q : A -> Prop) : Q a -> yields I (ret a) Q.
Proof. intros Ha s Hs. split; [done|]. by intros ? [= <-]. Qed.
Lemma yields_fail {A} e (Q : A -> Prop) : yields I (fail e) Q.
Proof. by intros s Hs. Qed.
Lemma yields_lift {A} (r : result A) : yields I (lift_result r) (fun a => r = Ok a).
Proof. by intros s Hs. Qed.
Lemma yields_guard b e : yields I (guard b e) (fun _ => b = true).
Proof. intros s Hs. destruct b; by split. Qed.
Lemma yields_get : yields I get I.
Proof. intros s Hs. split; [done|]. by intros a [= <-]. Qed.
Lemma yields_bind {A B} (m : M S A) (k : A -> M S B) P Q :
  yields I m P -> (forall a, P a -> yields I (k a) Q) -> yields I (bind m k) Q.
Proof.
  intros Hm Hk s Hs. destruct (Hm s Hs) as [H1 H2]. unfold bind.
  destruct (m s) as [[a|e] s']; [|done]. by apply Hk; [apply H2|].
Qed.
Lemma yields_catch {A B} (m : M S A) (k : result A -> M S B) P Q :
  yields I m P -> (forall e, yields I (k (Err e)) Q) ->
  (forall a, P a -> yields I (k (Ok a)) Q) -> yields I (catch m k) Q.
Proof.
  intros Hm He Ha s Hs. destruct (Hm s Hs) as [H1 H2]. unfold catch.
  destruct (m s) as [[a|e] s']; [by apply Ha; [apply H2|]|by apply He].
Qed.
Lemma yields_mono {A} (m : M S A) (P Q : A -> Prop) :
  yields I m P -> (forall a, P a -> Q a) -> yields I m Q.
Proof. intros Hm HPQ s Hs. destruct (Hm s Hs) as [H1 H2]. eauto. Qed.
Lemma yields_preserves {A} (m : M S A) Q : yields I m Q -> preserves I m.
Proof. intros Hm s Hs. apply (Hm s Hs). Qed.
(** Steps that keep [I] and return what satisfies [P], then a step to [Q]. *)
Lemma hoare_bind_yields {A B} (m : M S A) (k : A -> M S B) (P : A -> Prop) Q :
  yields I m P -> (forall s, I s -> Q s) -> (forall a, P a -> hoare I (k a) Q) ->
  hoare I (bind m k) Q.
Proof.
  intros Hm HQ Hk s Hs. destruct (Hm s Hs) as [Ha Hb]. unfold bind.
  destruct (m s) as [[a|e] s']; [by apply Hk; [apply Hb|]|by apply HQ].
Qed.
Lemma preserves_yields {A} (m : M S A) :
  preserves I m -> yields I m (fun _ => True).
Proof. intros Hm s Hs. split; [by apply Hm|done]. Qed.
End yields.

(** * Generic lemmas *)

Section lists.
Context {A : Type}.
Implicit Types (f : A -> bool) (l : list A).

Lemma existsb_elem_of f l :
  existsb f l = true <-> exists x, x ∈ l /\ f x = true.
Proof.
  rewrite existsb_exists.
  by setoid_rewrite list_elem_of_In.
Qed.

Lemma forallb_elem_of f l :
  forallb f l = true <-> forall x, x ∈ l -> f x = true.
Proof.
  rewrite forallb_forall.
  by setoid_rewrite list_elem_of_In.
Qed.

Lemma filter_elem f l x : x ∈ List.filter f l <-> x ∈ l /\ f x = true.
Proof. rewrite !list_elem_of_In. apply filter_In. Qed.

Lemma filter_filter (f g : A -> bool) rows :
  List.filter g (List.filter f rows) = List.filter (fun r => f r && g r) rows.
Proof.
  induction rows as [|r rows IH]; [done|]. simpl. destruct (f r); simpl; [|done].
  by rewrite IH.
Qed.

Lemma existsb_false_elem_of f l :
  existsb f l = false <-> forall x, x ∈ l -> f x = false.
Proof.
  rewrite <-not_true_iff_false, existsb_elem_of. split.
  - intros H x Hx. destruct (f x) eqn:E; [|done]. exfalso. eauto.
  - intros H (x & Hx & E). rewrite (H x Hx) in E. done.
Qed.
End lists.

(** Searches and filters under a projection. *)
Lemma find_fmap {A B} (f : A -> B) (p : B -> bool) l :
  List.find p (f <$> l) = f <$> List.find (fun a => p (f a)) l.
Proof.
  induction l as [|a l IH]; [done|].
  rewrite fmap_cons. cbn [List.find]. by destruct (p (f a)).
Qed.
Lemma filter_fmap {A B} (f : A -> B) (p : B -> bool) l :
  List.filter p (f <$> l) = f <$> List.filter (fun a => p (f a)) l.
Proof.
  induction l as [|a l IH]; [done|]. rewrite fmap_cons. cbn [List.filter].
  rewrite IH. by destruct (p (f a)).
Qed.

(** Membership in a singleton, and in a list with an element appended. *)
Ltac elem_one H := apply list_elem_of_singleton in H; subst.
Ltac elem_snoc H := apply elem_of_app in H as [H|H]; [|elem_one H].
