(* ===== verification/GoStrings.v ===== *)
(** The functions of Go's [strings] package the program uses, on byte
    strings: prefix and suffix tests, [Split], [TrimSpace], [CutPrefix] and
    [EqualFold]. *)
From Stdlib Require Import Ascii.
From Stdlib Require String.
From S2P Require Import Prelude.
From stdpp Require Import base list strings.

(** ** Prefixes, suffixes and separators *)

Fixpoint HasPrefix (s p : string) : bool :=
  match p, s with
  | EmptyString, _ => true
  | String a p', String b s' => bool_decide (a = b) && HasPrefix s' p'
  | String _ _, EmptyString => false
  end.

(** [s[n:]] and [s[:n]] for [n <= len(s)]. *)
Fixpoint skip (n : nat) (s : string) : string :=
  match n, s with
  | O, _ => s
  | S n', String _ s' => skip n' s'
  | S _, EmptyString => EmptyString
  end.
Fixpoint take_str (n : nat) (s : string) : string :=
  match n, s with
  | O, _ => EmptyString
  | S n', String a s' => String a (take_str n' s')
  | S _, EmptyString => EmptyString
  end.

Definition HasSuffix (s suf : string) : bool :=
  (String.length suf <=? String.length s)%nat &&
  bool_decide (skip (String.length s - String.length suf) s = suf).

(** [s[:len(s)-1]], used after [HasSuffix(s, "*")]. *)
Definition drop_last (s : string) : string :=
  take_str (String.length s - 1) s.

Definition CutPrefix (s p : string) : option string :=
  if HasPrefix s p then Some (skip (String.length p) s) else None.

Definition TrimPrefix (s p : string) : string :=
  if HasPrefix s p then skip (String.length p) s else s.

(** [strings.Split] with a separator of one byte. *)
Fixpoint Split (sep : ascii) (s : string) : list string :=
  match s with
  | EmptyString => [EmptyString]
  | String a s' =>
      if bool_decide (a = sep) then EmptyString :: Split sep s'
      else match Split sep s' with
           | [] => [String a EmptyString]
           | w :: ws => String a w :: ws
           end
  end.

(** Every byte of the text satisfies the test. *)
Fixpoint all_chars (p : ascii -> bool) (s : string) : bool :=
  match s with
  | EmptyString => true
  | String a s' => p a && all_chars p s'
  end.

(** ** [TrimSpace]: the UTF-8 encodings of [unicode.IsSpace] *)

Definition byte_in (c : ascii) (lo hi : nat) : bool :=
  (lo <=? nat_of_ascii c)%nat && (nat_of_ascii c <=? hi)%nat.
Definition byte_is (c : ascii) (n : nat) : bool :=
  (nat_of_ascii c =? n)%nat.

(** An ASCII letter or digit. *)
Definition alnum (c : ascii) : bool :=
  byte_in c 48 57 || byte_in c 65 90 || byte_in c 97 122.

(** [\t \n \v \f \r] and the space. *)
Definition space1 (a : ascii) : bool := byte_in a 9 13 || byte_is a 32.
(** U+0085 and U+00A0. *)
Definition space2 (a b : ascii) : bool :=
  byte_is a 194 && (byte_is b 133 || byte_is b 160).
(** U+1680, U+2000-U+200A, U+2028, U+2029, U+202F, U+205F and U+3000. *)
Definition space3 (a b c : ascii) : bool :=
  (byte_is a 225 && byte_is b 154 && byte_is c 128) ||
  (byte_is a 226 && byte_is b 128 &&
     (byte_in c 128 138 || byte_in c 168 169 || byte_is c 175)) ||
  (byte_is a 226 && byte_is b 129 && byte_is c 159) ||
  (byte_is a 227 && byte_is b 128 && byte_is c 128).

Fixpoint trim_left (s : string) : string :=
  match s with
  | EmptyString => EmptyString
  | String a s1 =>
      if space1 a then trim_left s1 else
      match s1 with
      | EmptyString => s
      | String b s2 =>
          if space2 a b then trim_left s2 else
          match s2 with
          | EmptyString => s
          | String c s3 => if space3 a b c then trim_left s3 else s
          end
      end
  end.

(** The same on a reversed string, so the bytes of a rune come last first. *)
Fixpoint trim_left_rev (s : string) : string :=
  match s with
  | EmptyString => EmptyString
  | String a s1 =>
      if space1 a then trim_left_rev s1 else
      match s1 with
      | EmptyString => s
      | String b s2 =>
          if space2 b a then trim_left_rev s2 else
          match s2 with
          | EmptyString => s
          | String c s3 => if space3 c b a then trim_left_rev s3 else s
          end
      end
  end.

Fixpoint rev_onto (s acc : string) : string :=
  match s with
  | EmptyString => acc
  | String a s' => rev_onto s' (String a acc)
  end.
Definition rev_string (s : string) : string := rev_onto s EmptyString.

Definition trim_right (s : string) : string :=
  rev_string (trim_left_rev (rev_string s)).
Definition TrimSpace (s : string) : string := trim_right (trim_left s).

(** ** [EqualFold] against an ASCII name

    Simple folding maps the ASCII letters to one case, U+017F (bytes C5 BF)
    to [s] and U+212A (bytes E2 84 AA) to [k]; no other rune folds into
    ASCII.  Every call site compares with an ASCII constant, where comparing
    the folded strings is what [strings.EqualFold] decides. *)

Definition to_lower (c : ascii) : ascii :=
  if byte_in c 65 90 then ascii_of_nat (nat_of_ascii c + 32) else c.

Fixpoint fold_case (s : string) : string :=
  match s with
  | EmptyString => EmptyString
  | String a s1 =>
      match s1 with
      | String b s2 =>
          if byte_is a 197 && byte_is b 191
          then String "s" (fold_case s2)
          else match s2 with
               | String c s3 =>
                   if byte_is a 226 && byte_is b 132 && byte_is c 170
                   then String "k" (fold_case s3)
                   else String (to_lower a) (fold_case s1)
               | EmptyString => String (to_lower a) (fold_case s1)
               end
      | EmptyString => String (to_lower a) EmptyString
      end
  end.

Definition EqualFold (s t : string) : bool :=
  bool_decide (fold_case s = fold_case t).

(** ** Lemmas *)

Lemma app_String a s t : (String a s ++ t)%string = String a (s ++ t)%string.
Proof. done. Qed.

Lemma HasPrefix_spec s p :
  HasPrefix s p = true <-> exists t, s = (p ++ t)%string.
Proof.
  revert s. induction p as [|a p IH]; intros s; simpl.
  - split; [intros _; by exists s | by destruct s].
  - destruct s as [|b s]; simpl.
    + split; [done|]. intros [t Ht]; discriminate.
    + rewrite andb_true_iff, bool_decide_eq_true, IH. split.
      * intros [-> [t ->]]. by exists t.
      * intros [t [= -> ->]]. eauto.
Qed.

Lemma HasPrefix_app p s : HasPrefix (p ++ s)%string p = true.
Proof. apply HasPrefix_spec; eauto. Qed.

Lemma skip_app p s : skip (String.length p) (p ++ s)%string = s.
Proof. induction p as [|a p IH]; simpl; [by destruct s | done]. Qed.

Lemma CutPrefix_spec s p t :
  CutPrefix s p = Some t <-> s = (p ++ t)%string.
Proof.
  unfold CutPrefix. split.
  - destruct (HasPrefix s p) eqn:E; [|done]. intros [= <-].
    apply HasPrefix_spec in E as [u ->]. by rewrite skip_app.
  - intros ->. by rewrite HasPrefix_app, skip_app.
Qed.

Lemma take_str_app p s : take_str (String.length p) (p ++ s)%string = p.
Proof. induction p as [|a p IH]; simpl; [by destruct s | by rewrite IH]. Qed.

Lemma length_app_str s t :
  String.length (s ++ t)%string = (String.length s + String.length t)%nat.
Proof.
  induction s as [|a s IH]; [done|].
  rewrite app_String. simpl. by rewrite IH.
Qed.

Lemma skip_decompose n s : (take_str n s ++ skip n s)%string = s.
Proof.
  revert s. induction n as [|n IH]; intros [|a s]; try done.
  simpl. by rewrite app_String, IH.
Qed.

Lemma HasSuffix_spec s suf :
  HasSuffix s suf = true <-> exists p, s = (p ++ suf)%string.
Proof.
  unfold HasSuffix. rewrite andb_true_iff, bool_decide_eq_true, Nat.leb_le.
  split.
  - intros [_ H]. exists (take_str (String.length s - String.length suf) s).
    by rewrite <-H at 2; rewrite skip_decompose.
  - intros [p ->]. rewrite length_app_str. split; [lia|].
    rewrite Nat.add_sub. apply skip_app.
Qed.

Lemma drop_last_app p (c : ascii) :
  drop_last (p ++ String c EmptyString)%string = p.
Proof.
  unfold drop_last. rewrite length_app_str. simpl.
  rewrite Nat.add_sub. apply take_str_app.
Qed.

Lemma EqualFold_refl s : EqualFold s s = true.
Proof. by apply bool_decide_eq_true. Qed.

Lemma EqualFold_sym s t : EqualFold s t = EqualFold t s.
Proof. apply bool_decide_iff_eq. done. Qed.

Lemma HasPrefix_trans s p q :
  HasPrefix s p = true -> HasPrefix p q = true -> HasPrefix s q = true.
Proof.
  rewrite !HasPrefix_spec. intros [t ->] [u ->]. exists (u ++ t)%string.
  clear. induction q as [|a q IH]; [done|]. by rewrite !app_String, IH.
Qed.

(** Two prefixes of a string are prefixes of each other. *)
Lemma HasPrefix_disjoint s p q :
  HasPrefix s p = true -> HasPrefix p q = false -> HasPrefix q p = false ->
  HasPrefix s q = false.
Proof.
  revert p q. induction s as [|a s IH]; intros [|b p] [|c q]; simpl; try done.
  rewrite andb_true_iff, bool_decide_eq_true. intros [-> H1] H2 H3.
  destruct (decide (c = a)) as [->|Hne]; [|by rewrite bool_decide_false].
  rewrite bool_decide_true in H2, H3 by done. simpl in H2, H3.
  rewrite bool_decide_true by done. simpl. by eapply IH.
Qed.

(** ** [ToUpper] and [Cut]

    Upper-casing maps the ASCII letters, U+017F (bytes C5 BF) to [S] and
    U+0131 (bytes C4 B1) to [I]; no other rune becomes ASCII, and the call
    sites look the result up among ASCII names. *)

Definition to_upper (c : ascii) : ascii :=
  if byte_in c 97 122 then ascii_of_nat (nat_of_ascii c - 32) else c.

Fixpoint ToUpper (s : string) : string :=
  match s with
  | EmptyString => EmptyString
  | String a s1 =>
      match s1 with
      | String b s2 =>
          if byte_is a 197 && byte_is b 191 then String "S" (ToUpper s2)
          else if byte_is a 196 && byte_is b 177 then String "I" (ToUpper s2)
          else String (to_upper a) (ToUpper s1)
      | EmptyString => String (to_upper a) EmptyString
      end
  end.

(** [strings.Cut] at a separator of one byte: before and after it, or the
    whole string and nothing. *)
Fixpoint Cut (sep : ascii) (s : string) : string * string :=
  match s with
  | EmptyString => (EmptyString, EmptyString)
  | String a r =>
      if bool_decide (a = sep) then (EmptyString, r)
      else let '(before, after) := Cut sep r in (String a before, after)
  end.
