(* ===== verification/Xdb.v ===== *)
(** The interface of the [xdb] library the program is built on: identifiers,
    page sizes and cursor tokens.  [xdb] is not part of the repository, so its
    functions are the fields of a class and what the program relies on are
    its laws; [xdb_binary] is an instance that satisfies them. *)
From S2P Require Import Prelude GoStrings.
From stdpp Require Import base list strings countable.
From Stdlib Require Import Ascii.

(** [xdb.ID] is an unsigned 64-bit number; zero is the absent ID, NULL in a
    nullable column. *)
Definition max_uint64 : Z := 18446744073709551616.
Definition is_id (n : Z) : Prop := (0 < n < max_uint64)%Z.
(** The range of the Go type [uint64]. *)
Definition is_uint64 (n : Z) : Prop := (0 <= n < max_uint64)%Z.
Definition IsZero (n : Z) : bool := (n =? 0)%Z.

(** A 64-bit two's complement value, as the conversion [int64(x)] yields. *)
Definition int64 (n : Z) : Z :=
  ((n + 9223372036854775808) mod max_uint64 - 9223372036854775808)%Z.

(** A typed sort key value of a cursor: an ID, a time or a name. *)
Inductive key_value := KID (n : Z) | KTime (t : Z) | KName (s : string).

Class Xdb := {
  (** [ID.String] *)
  id_string : Z -> string;
  (** [xdb.ParseID]; [None] is an error *)
  parse_id : string -> option Z;
  (** [xdb.DefaultPageSize] *)
  DefaultPageSize : Z;
  (** [NewCursor(key...).String()] *)
  cursor_token : list key_value -> string;
  (** [ParseCursor] and [Scan]; [None] is an error of either *)
  cursor_scan : string -> option (list key_value);
  (** whether a page of [count] rows of a query limited to [limit] has a
      next page *)
  has_next : Z -> Z -> bool;
  (** the offset after a page: the offset of the page, its rows, its limit *)
  next_offset : Z -> Z -> Z -> Z;
  (** [xdb.CheckNotFoundError]: the error of a query on the table, by the
      key it looked up *)
  CheckNotFoundError : error -> string -> string -> error;
}.

Class XdbLaws `{Xdb} := {
  parse_id_string n : is_id n -> parse_id (id_string n) = Some n;
  parse_id_range s n : parse_id s = Some n -> is_uint64 n;
  id_string_inj n m : is_uint64 n -> is_uint64 m ->
    id_string n = id_string m -> n = m;
  id_string_nonempty n : is_id n -> id_string n <> EmptyString;
  (** the zero ID prints as nothing, the others as digits *)
  id_string_zero : id_string 0 = EmptyString;
  id_string_alnum n : all_chars alnum (id_string n) = true;
  DefaultPageSize_pos : (0 < DefaultPageSize)%Z;
  cursor_scan_token k : k <> [] -> cursor_scan (cursor_token k) = Some k;
  cursor_token_reserved k : k <> [] ->
    cursor_token k <> EmptyString /\ cursor_token k <> "initial"%string;
  (** a short page is the last one, and a page with a successor has rows *)
  has_next_full count limit :
    (0 < limit)%Z -> (limit <= count)%Z -> has_next count limit = true;
  has_next_progress count limit : has_next count limit = true -> (0 < count)%Z;
  (** the error is wrapped: what it is, and that it is not found, is kept *)
  CheckNotFoundError_is e table key target :
    errors_Is e target = true ->
    errors_Is (CheckNotFoundError e table key) target = true;
  CheckNotFoundError_not_found e table key :
    IsNotFoundError (CheckNotFoundError e table key) = IsNotFoundError e;
}.

(** ** An instance: binary numerals *)

Fixpoint pos_str (p : positive) : string :=
  match p with
  | xH => EmptyString
  | xO p => String "0" (pos_str p)
  | xI p => String "1" (pos_str p)
  end.

Fixpoint str_pos (s : string) : option positive :=
  match s with
  | EmptyString => Some xH
  | String c s' =>
      match str_pos s' with
      | Some p => if bool_decide (c = "0"%char) then Some (xO p)
                  else if bool_decide (c = "1"%char) then Some (xI p)
                  else None
      | None => None
      end
  end.

Lemma str_pos_str p : str_pos (pos_str p) = Some p.
Proof. induction p as [p IH|p IH|]; simpl; [by rewrite IH..|done]. Qed.

Lemma pos_str_alnum p : all_chars alnum (pos_str p) = true.
Proof. by induction p as [p IH|p IH|]; simpl; rewrite ?IH. Qed.

#[global] Instance key_value_eq_dec : EqDecision key_value.
Proof. solve_decision. Defined.
#[global] Program Instance key_value_countable : Countable key_value := {
  encode k := encode (match k with
    | KID n => inl (inl n) | KTime t => inl (inr t) | KName s => inr s
    end : (Z + Z) + string);
  decode p := match decode p : option ((Z + Z) + string) with
    | Some (inl (inl n)) => Some (KID n)
    | Some (inl (inr t)) => Some (KTime t)
    | Some (inr s) => Some (KName s)
    | None => None
    end }.
Next Obligation. intros [n|t|s]; by rewrite decode_encode. Qed.

#[export] Instance xdb_binary : Xdb := {|
  id_string n := if (n =? 0)%Z then EmptyString
                 else String "b" (pos_str (Z.to_pos n));
  parse_id s := match s with
    | String "b" s' =>
        match str_pos s' with
        | Some p => if (Z.pos p <? max_uint64)%Z then Some (Z.pos p) else None
        | None => None
        end
    | _ => None
    end;
  DefaultPageSize := 100%Z;
  cursor_token k := String "c" (pos_str (encode k));
  cursor_scan s := match s with
    | String "c" s' =>
        match str_pos s' with Some p => decode p | None => None end
    | _ => None
    end;
  has_next count limit := (0 <? count)%Z && (limit <=? count)%Z;
  next_offset offset count limit := (offset + count)%Z;
  CheckNotFoundError e table key :=
    WithMessage e (table ++ ": " ++ key) |}.

#[export] Instance xdb_binary_laws : @XdbLaws xdb_binary.
Proof.
  constructor; unfold is_id, is_uint64 in *; simpl.
  - intros n Hn. rewrite (proj2 (Z.eqb_neq n 0)) by lia.
    rewrite str_pos_str, Z2Pos.id by lia.
    destruct (Z.ltb_spec n max_uint64); [done|lia].
  - intros s n H. go_case. unfold max_uint64 in *. lia.
  - intros n m Hn Hm. destruct (Z.eqb_spec n 0), (Z.eqb_spec m 0);
      simplify_eq/=; [done..|]. intros [= H].
    assert (Some (Z.to_pos n) = Some (Z.to_pos m)) as E
      by (by rewrite <-!str_pos_str, H).
    injection E as E. lia.
  - intros n Hn. destruct (Z.eqb_spec n 0); [lia|done].
  - done.
  - intros n. destruct (n =? 0)%Z; [done|]. simpl. by rewrite pos_str_alnum.
  - lia.
  - intros k _. by rewrite str_pos_str, decode_encode.
  - intros k _. by split.
  - intros count limit ? ?. rewrite andb_true_iff. lia.
  - intros count limit. rewrite andb_true_iff. lia.
  - intros e table key target H. by rewrite H, orb_true_r.
  - intros e table key. done.
Qed.
