(* ===== verification/Roles.v ===== *)
(** Roles and the role hierarchy: [internal/authctx/roles.go] and the
    [Role_Enum] and [RoleSource_Enum] types of [api/pb/orgs.pb.go].

    [Role_Enum] is an open protobuf enum (an [int32]); a number without a
    name is [Role_Unrecognized].  The hierarchy theorem compares the
    [CanAssumeRoles] table with the closure of its covering pairs. *)
From S2P Require Import Prelude GoStrings.
From stdpp Require Import base list strings relations pretty.

Inductive Role_Enum :=
| Role_None | Role_APIKey | Role_Viewer | Role_User | Role_Support
| Role_Billing | Role_Security | Role_Admin | Role_Owner
| Role_Unrecognized (n : Z).

#[global] Instance Role_Enum_eq_dec : EqDecision Role_Enum.
Proof. solve_decision. Defined.

Inductive RoleSource_Enum :=
| RoleSource_Unknown | RoleSource_Direct | RoleSource_Project.

#[global] Instance RoleSource_eq_dec : EqDecision RoleSource_Enum.
Proof. solve_decision. Defined.

(** The generated name table, as an association list; Go iterates over it in
    an unspecified order. *)
Definition Role_Enum_name : list (Role_Enum * string) :=
  [ (Role_None, "None"); (Role_APIKey, "APIKey"); (Role_Viewer, "Viewer");
    (Role_User, "User"); (Role_Support, "Support");
    (Role_Billing, "Billing"); (Role_Security, "Security");
    (Role_Admin, "Admin"); (Role_Owner, "Owner") ]%string.

(** [Role_Enum.String]: the name, or the number of an unnamed value. *)
Definition Role_String (r : Role_Enum) : string :=
  match r with
  | Role_None => "None" | Role_APIKey => "APIKey" | Role_Viewer => "Viewer"
  | Role_User => "User" | Role_Support => "Support"
  | Role_Billing => "Billing" | Role_Security => "Security"
  | Role_Admin => "Admin" | Role_Owner => "Owner"
  | Role_Unrecognized n => pretty n
  end.

Definition CanAssumeRoles (r : Role_Enum) : list Role_Enum :=
  match r with
  | Role_APIKey => [Role_APIKey]
  | Role_Viewer => [Role_Viewer]
  | Role_User => [Role_User; Role_Viewer]
  | Role_Billing => [Role_Billing; Role_Viewer]
  | Role_Support => [Role_Support; Role_User; Role_Viewer]
  | Role_Security => [Role_Security; Role_User; Role_Viewer]
  | Role_Admin =>
      [Role_Admin; Role_Security; Role_Support; Role_User; Role_Billing;
       Role_Viewer]
  | Role_Owner =>
      [Role_Owner; Role_Admin; Role_Security; Role_Support; Role_User;
       Role_Billing; Role_Viewer]
  | Role_None | Role_Unrecognized _ => []
  end.

Definition RoleEnumValue : list (string * Role_Enum) :=
  [ ("apikey", Role_APIKey); ("APIKey", Role_APIKey);
    ("viewer", Role_Viewer); ("Viewer", Role_Viewer);
    ("user", Role_User); ("User", Role_User);
    ("billing", Role_Billing); ("Billing", Role_Billing);
    ("security", Role_Security); ("Security", Role_Security);
    ("support", Role_Support); ("Support", Role_Support);
    ("admin", Role_Admin); ("Admin", Role_Admin);
    ("owner", Role_Owner); ("Owner", Role_Owner) ]%string.

(** Map lookup in an association list with distinct keys. *)
Fixpoint map_get {V} (m : list (string * V)) (k : string) : option V :=
  match m with
  | [] => None
  | (k', v) :: m' => if bool_decide (k' = k) then Some v else map_get m' k
  end.

(** The loop of [ParseRole] over the name table in a given order. *)
Fixpoint ParseRole_loop (names : list (Role_Enum * string)) (name : string)
  : Role_Enum :=
  match names with
  | [] => Role_None
  | (v, n) :: rest => if EqualFold n name then v else ParseRole_loop rest name
  end.

(** [ParseRole] when the runtime iterates the name table as [order]. *)
Definition ParseRole_ordered (order : list (Role_Enum * string))
    (name : string) : Role_Enum :=
  match map_get RoleEnumValue name with
  | Some r => r
  | None => ParseRole_loop order name
  end.

Definition ParseRole (name : string) : Role_Enum :=
  ParseRole_ordered Role_Enum_name name.

Definition CanAssumeRole (callerRole : Role_Enum) (allowedRoles : list string)
  : bool :=
  let callerCan := CanAssumeRoles callerRole in
  existsb (fun allowedRole =>
    let role := ParseRole (TrimSpace allowedRole) in
    existsb (fun can => bool_decide (can = role)) callerCan) allowedRoles.

Definition AllowsRole (allowedRoles : list string) (role : Role_Enum) : bool :=
  existsb (fun allowedRole =>
    bool_decide (ParseRole (TrimSpace allowedRole) = role)) allowedRoles.

Definition OrgRoles : list Role_Enum :=
  [Role_Viewer; Role_User; Role_Support; Role_Billing; Role_Security;
   Role_Admin; Role_Owner].

Definition ProjectRoles : list Role_Enum :=
  [Role_Viewer; Role_User; Role_Support; Role_Security; Role_Admin].

Definition IsProjectRole (role : Role_Enum) : bool :=
  existsb (fun r => bool_decide (r = role)) ProjectRoles.

Definition IsOrgRole (role : Role_Enum) : bool :=
  existsb (fun r => bool_decide (r = role)) OrgRoles.

Definition RoleSourceDirect : string := "direct".
Definition RoleSourceProject : string := "project".

Definition RoleSourceClaim (source : RoleSource_Enum) : string :=
  match source with
  | RoleSource_Direct => RoleSourceDirect
  | RoleSource_Project => RoleSourceProject
  | RoleSource_Unknown => ""
  end.

(** ** Parsing *)

(** The names fold to distinct strings, so at most one entry of the table
    matches and the iteration order does not matter. *)
Lemma Role_Enum_name_fold_inj :
  NoDup (fold_case ∘ snd <$> Role_Enum_name).
Proof. apply (bool_decide_unpack (NoDup _)). vm_compute. exact I. Qed.

Lemma ParseRole_loop_elem names name r n :
  NoDup (fold_case ∘ snd <$> names) ->
  (r, n) ∈ names -> EqualFold n name = true ->
  ParseRole_loop names name = r.
Proof.
  induction names as [|[v m] names IH]; intros Hnd Hin Hf;
    [by apply not_elem_of_nil in Hin|].
  inversion Hnd as [|? ? Hni Hnd']; subst. simpl.
  apply elem_of_cons in Hin as [[= -> ->]|Hin]; [by rewrite Hf|].
  destruct (EqualFold m name) eqn:Em; [|by auto].
  exfalso. apply Hni. apply bool_decide_eq_true in Hf, Em.
  apply list_elem_of_fmap. exists (r, n). split; [|done].
  simpl. congruence.
Qed.

Lemma ParseRole_loop_none names name :
  (forall r n, (r, n) ∈ names -> EqualFold n name = false) ->
  ParseRole_loop names name = Role_None.
Proof.
  induction names as [|[v m] names IH]; intros H; [done|]. simpl.
  rewrite (H v m) by set_solver. apply IH. intros r n Hin. apply (H r). set_solver.
Qed.

Lemma ParseRole_loop_cases (names : list (Role_Enum * string)) name :
  (exists r n, (r, n) ∈ names /\ EqualFold n name = true) \/
  (forall r n, (r, n) ∈ names -> EqualFold n name = false).
Proof.
  destruct (existsb (fun p => EqualFold p.2 name) names) eqn:E.
  - apply existsb_elem_of in E as ([r n] & ? & ?). left; eauto.
  - right. intros r n Hin. by apply (proj1 (existsb_false_elem_of _ _) E (r, n)).
Qed.

(** The exact-match fast path agrees with the case-insensitive loop. *)
Lemma RoleEnumValue_folds k r :
  map_get RoleEnumValue k = Some r -> ParseRole_loop Role_Enum_name k = r.
Proof.
  intros H.
  assert (forallb (fun p => bool_decide
    (ParseRole_loop Role_Enum_name p.1 = p.2)) RoleEnumValue = true) as Hall
    by (vm_compute; reflexivity).
  assert (forall m, map_get m k = Some r -> (k, r) ∈ m) as Hassoc.
  { induction m as [|[k' v] m IH]; [done|]. simpl. case_bool_decide; subst.
    - intros [= ->]. set_solver.
    - intros; set_solver. }
  apply Hassoc in H. rewrite forallb_elem_of in Hall.
  by apply Hall, bool_decide_eq_true in H.
Qed.

Lemma ParseRole_loop_perm order name :
  order ≡ₚ Role_Enum_name ->
  ParseRole_loop order name = ParseRole_loop Role_Enum_name name.
Proof.
  intros Hp.
  destruct (ParseRole_loop_cases order name) as [(r & n & Hin & Hf)|Hno].
  - rewrite (ParseRole_loop_elem order name r n); [|by rewrite Hp;
      apply Role_Enum_name_fold_inj | done | done].
    symmetry. eapply ParseRole_loop_elem; [apply Role_Enum_name_fold_inj| |done].
    by rewrite <-Hp.
  - rewrite (ParseRole_loop_none order) by done.
    symmetry. apply ParseRole_loop_none. intros r n Hin.
    eapply Hno. by rewrite Hp.
Qed.

Lemma ParseRole_eq_loop name :
  ParseRole name = ParseRole_loop Role_Enum_name name.
Proof.
  unfold ParseRole, ParseRole_ordered.
  destruct (map_get RoleEnumValue name) eqn:E; [|done].
  symmetry. by apply RoleEnumValue_folds.
Qed.

(** [ParseRole] does not depend on the order in which Go iterates the
    name table, and it returns a role other than None exactly for the
    spellings of that role's name that differ in case only. *)
Theorem ParseRole_spec (order : list (Role_Enum * string)) (name : string)
    (r : Role_Enum) (Hperm : order ≡ₚ Role_Enum_name)
    (Hr : r <> Role_None) :
  ParseRole_ordered order name = r <->
  exists n, (r, n) ∈ Role_Enum_name /\ EqualFold n name = true.
Proof.
  assert (ParseRole_ordered order name = ParseRole_loop Role_Enum_name name)
    as ->.
  { rewrite <-ParseRole_eq_loop. unfold ParseRole, ParseRole_ordered.
    by rewrite ParseRole_loop_perm. }
  split.
  - intros <-. destruct (ParseRole_loop_cases Role_Enum_name name)
      as [(r' & n & Hin & Hf)|Hno].
    + exists n. split; [|done]. erewrite ParseRole_loop_elem; eauto.
      apply Role_Enum_name_fold_inj.
    + by rewrite ParseRole_loop_none in Hr.
  - intros (n & Hin & Hf). eapply ParseRole_loop_elem; eauto.
    apply Role_Enum_name_fold_inj.
Qed.

(** The reversed table and an odd spelling of Security. *)
Lemma ParseRole_spec_witness :
  ParseRole_ordered (reverse Role_Enum_name) "seCURITY" = Role_Security.
Proof.
  apply (ParseRole_spec (reverse Role_Enum_name) "seCURITY" Role_Security).
  - apply reverse_Permutation.
  - discriminate.
  - exists "Security"%string. split; [|vm_compute; reflexivity].
    apply list_elem_of_In. vm_compute. tauto.
Defined.

(** ** The hierarchy *)

(** [role_covers r s]: [s] is directly below [r]. *)
Inductive role_covers : Role_Enum -> Role_Enum -> Prop :=
| owner_admin : role_covers Role_Owner Role_Admin
| admin_security : role_covers Role_Admin Role_Security
| admin_support : role_covers Role_Admin Role_Support
| admin_billing : role_covers Role_Admin Role_Billing
| security_user : role_covers Role_Security Role_User
| support_user : role_covers Role_Support Role_User
| billing_viewer : role_covers Role_Billing Role_Viewer
| user_viewer : role_covers Role_User Role_Viewer.
#[export] Hint Constructors role_covers : go.

(** A role that can be held: neither None nor an unnamed number. *)
Definition held (r : Role_Enum) : Prop :=
  match r with Role_None | Role_Unrecognized _ => False | _ => True end.

Definition can_assume (c r : Role_Enum) : Prop := held c /\ rtc role_covers c r.

Lemma CanAssumeRoles_step c d r :
  role_covers c d -> r ∈ CanAssumeRoles d -> r ∈ CanAssumeRoles c.
Proof. intros [] H; simpl in *; set_solver. Qed.

Lemma CanAssumeRoles_refl c : held c -> c ∈ CanAssumeRoles c.
Proof. destruct c; simpl; try done; set_solver. Qed.

Lemma role_covers_held c d : role_covers c d -> held d.
Proof. by intros []. Qed.

Lemma CanAssumeRoles_rtc (c r : Role_Enum) :
  r ∈ CanAssumeRoles c <-> can_assume c r.
Proof.
  split.
  - intros H. split; [by destruct c; simpl in *; set_solver|].
    destruct c; simpl in H;
      repeat (apply elem_of_cons in H as [->|H]);
      try (by apply not_elem_of_nil in H);
      eauto 6 using rtc_l, rtc_refl with go.
  - intros [Hc Hr]. induction Hr as [c|c d r Hs _ IH].
    + by apply CanAssumeRoles_refl.
    + eapply CanAssumeRoles_step; eauto using role_covers_held.
Qed.

Lemma can_assume_trans a b c : can_assume a b -> can_assume b c -> can_assume a c.
Proof. intros [? ?] [? ?]. split; [done|]. by etrans. Qed.

(** A strict rank: covering decreases it, so the hierarchy has no cycle. *)
Definition role_rank (r : Role_Enum) : nat :=
  match r with
  | Role_Owner => 4 | Role_Admin => 3
  | Role_Security | Role_Support | Role_Billing => 2
  | Role_User => 1 | _ => 0
  end.

Lemma rtc_covers_rank a b :
  rtc role_covers a b -> a = b \/ (role_rank b < role_rank a)%nat.
Proof.
  induction 1 as [|a b c Hs _ IH]; [by left|right].
  destruct IH as [<-|IH]; destruct Hs; simpl in *; lia.
Qed.

Lemma can_assume_antisym a b : can_assume a b -> can_assume b a -> a = b.
Proof.
  intros [_ Hab%rtc_covers_rank] [_ Hba%rtc_covers_rank].
  destruct Hab as [|?], Hba as [|?]; try done. lia.
Qed.

(** The [CanAssumeRoles] table is exactly the hierarchy generated by its
    covering pairs: Owner over Admin, Admin over Security, Support and
    Billing, Security and Support over User, User and Billing over Viewer,
    and APIKey apart. It is a partial order on the roles that can be held:
    reflexive, transitive, and two roles that assume each other are equal. *)
Theorem CanAssumeRoles_hierarchy (a b c : Role_Enum) :
  (b ∈ CanAssumeRoles a <-> can_assume a b) /\
  (held a <-> a ∈ CanAssumeRoles a) /\
  (b ∈ CanAssumeRoles a -> c ∈ CanAssumeRoles b -> c ∈ CanAssumeRoles a) /\
  (b ∈ CanAssumeRoles a -> a ∈ CanAssumeRoles b -> a = b).
Proof.
  rewrite !CanAssumeRoles_rtc.
  split_and!; [done| |apply can_assume_trans|apply can_assume_antisym].
  split; [by split|by intros []].
Qed.

Lemma CanAssumeRole_spec c allowed :
  CanAssumeRole c allowed = true <->
  exists a, a ∈ allowed /\ can_assume c (ParseRole (TrimSpace a)).
Proof.
  unfold CanAssumeRole. rewrite existsb_elem_of.
  setoid_rewrite existsb_elem_of. setoid_rewrite bool_decide_eq_true.
  setoid_rewrite <-CanAssumeRoles_rtc. naive_solver.
Qed.

Lemma AllowsRole_spec allowed r :
  AllowsRole allowed r = true <->
  exists a, a ∈ allowed /\ ParseRole (TrimSpace a) = r.
Proof.
  unfold AllowsRole. rewrite existsb_elem_of.
  by setoid_rewrite bool_decide_eq_true.
Qed.

(** A caller that can assume another role passes every role check the
    other passes; a caller with no role, or with an unnamed role, passes
    none; and an API key passes exactly where APIKey itself is listed, so no
    membership role stands in for a key nor a key for a membership role. *)
Theorem CanAssumeRole_monotone (c d : Role_Enum) (allowed : list string) :
  (can_assume c d -> CanAssumeRole d allowed = true ->
   CanAssumeRole c allowed = true) /\
  (~ held c -> CanAssumeRole c allowed = false) /\
  CanAssumeRole Role_APIKey allowed = AllowsRole allowed Role_APIKey /\
  (c <> Role_APIKey ->
   (forall a, a ∈ allowed -> ParseRole (TrimSpace a) = Role_APIKey) ->
   CanAssumeRole c allowed = false).
Proof.
  split_and!.
  - rewrite !CanAssumeRole_spec. intros Hcd (a & Ha & Hda).
    eauto using can_assume_trans.
  - intros Hc. apply not_true_iff_false. rewrite CanAssumeRole_spec.
    by intros (a & _ & [? _]).
  - apply eq_true_iff_eq. rewrite CanAssumeRole_spec, AllowsRole_spec.
    apply exist_proper. intros a. apply and_iff_compat_l.
    rewrite <-CanAssumeRoles_rtc. simpl. set_solver.
  - intros Hc Hall. apply not_true_iff_false. rewrite CanAssumeRole_spec.
    intros (a & Ha & Hca). rewrite (Hall a Ha) in Hca.
    apply CanAssumeRoles_rtc in Hca. destruct c; simpl in Hca; set_solver.
Qed.

(** Owner passes where Admin passes, on the rule of a CA write method. *)
Lemma CanAssumeRole_monotone_witness :
  CanAssumeRole Role_Owner ["Admin"]%string = true.
Proof.
  apply (CanAssumeRole_monotone Role_Owner Role_Admin ["Admin"]%string).
  - apply CanAssumeRoles_rtc. vm_compute. right. left.
  - vm_compute. reflexivity.
Defined.
