(* ===== verification/Scopes.v ===== *)
(** API scopes: [internal/authctx/scopes.go].  A method lists the scopes it
    requires, an API key or a scoped token the scopes it holds; a held scope
    covers itself, ["*"] covers everything and ["certs:*"] its family. *)
From Stdlib Require Import Ascii.
From S2P Require Import Prelude GoStrings.
From stdpp Require Import base list strings.

Definition ScopeOrgRead : string := "org:read".
Definition ScopeProjectRead : string := "project:read".
Definition ScopeCARead : string := "ca:read".
Definition ScopeCAWrite : string := "ca:write".
Definition ScopeCertsRead : string := "certs:read".
Definition ScopeCertsIssue : string := "certs:issue".
Definition ScopeCertsRevoke : string := "certs:revoke".
Definition ScopeAll : string := "*".
Definition scopeWildcardMark : string := "*".

Definition DefaultAPIKeyScopes : list string :=
  [ScopeOrgRead; ScopeProjectRead; ScopeCARead].

Definition KnownScopes : list string :=
  [ScopeOrgRead; ScopeProjectRead; ScopeCARead; ScopeCAWrite;
   ScopeCertsRead; ScopeCertsIssue; ScopeCertsRevoke].

Definition ParseScopes (values : list string) : list string :=
  values ≫= fun v =>
    filter (fun s => s <> EmptyString) (TrimSpace <$> Split "," v).

(** One iteration of the loop of [HasScope]. *)
Definition covers (g scope : string) : bool :=
  let g := TrimSpace g in
  if bool_decide (g = scope) || bool_decide (g = ScopeAll) then true
  else HasSuffix g scopeWildcardMark && HasPrefix scope (drop_last g).

Definition HasScope (granted : list string) (scope : string) : bool :=
  existsb (fun g => covers g scope) granted.

Definition HasScopes (granted required : list string) : bool :=
  forallb (HasScope granted) required.

Definition IsKnownScope (scope : string) : bool :=
  if bool_decide (scope = ScopeAll) then true
  else existsb (fun k =>
         bool_decide (k = scope) ||
         (HasSuffix scope scopeWildcardMark && HasPrefix k (drop_last scope)))
         KnownScopes.

(** ** What a grant covers *)

(** The meaning of a held scope [t]: the scope itself, or every scope that
    continues the text before a final star. *)
Definition scope_matches (t scope : string) : Prop :=
  t = scope \/ exists p rest, t = (p ++ "*")%string /\ scope = (p ++ rest)%string.

Lemma wildcard_matches g scope :
  HasSuffix g scopeWildcardMark && HasPrefix scope (drop_last g) = true <->
  exists p rest, g = (p ++ "*")%string /\ scope = (p ++ rest)%string.
Proof.
  rewrite andb_true_iff, HasSuffix_spec, HasPrefix_spec. split.
  - intros [[p ->] [rest Hr]].
    unfold scopeWildcardMark in Hr. rewrite drop_last_app in Hr. eauto.
  - intros (p & rest & -> & ->). split; [by exists p|].
    rewrite drop_last_app. by exists rest.
Qed.

Lemma covers_spec g scope :
  covers g scope = true <-> scope_matches (TrimSpace g) scope.
Proof.
  unfold covers, scope_matches.
  destruct (bool_decide (TrimSpace g = scope)) eqn:E1; simpl.
  { apply bool_decide_eq_true in E1. tauto. }
  apply bool_decide_eq_false in E1.
  destruct (bool_decide (TrimSpace g = ScopeAll)) eqn:E2.
  - apply bool_decide_eq_true in E2. split; [|done]. intros _. right.
    by exists EmptyString, scope.
  - rewrite wildcard_matches. tauto.
Qed.

Lemma HasScope_spec granted scope :
  HasScope granted scope = true <->
  exists g, g ∈ granted /\ scope_matches (TrimSpace g) scope.
Proof.
  unfold HasScope. rewrite existsb_elem_of. by setoid_rewrite covers_spec.
Qed.

Lemma HasScopes_spec granted required :
  HasScopes granted required = true <->
  forall r, r ∈ required -> exists g, g ∈ granted /\ scope_matches (TrimSpace g) r.
Proof.
  unfold HasScopes. rewrite forallb_elem_of. by setoid_rewrite HasScope_spec.
Qed.

Lemma ParseScopes_spec values s :
  s ∈ ParseScopes values <->
  s <> EmptyString /\
  exists v piece, v ∈ values /\ piece ∈ Split "," v /\ s = TrimSpace piece.
Proof.
  unfold ParseScopes. rewrite list_elem_of_bind.
  setoid_rewrite list_elem_of_filter. setoid_rewrite list_elem_of_fmap.
  naive_solver.
Qed.

(** The text a key may place before a final star. *)
Definition prefixes (k : string) : list string :=
  (fun n => take_str n k) <$> seq 0 (S (String.length k)).

Lemma prefix_in_prefixes p rest : p ∈ prefixes (p ++ rest)%string.
Proof.
  unfold prefixes. apply list_elem_of_fmap. exists (String.length p).
  rewrite take_str_app. split; [done|]. apply elem_of_seq.
  rewrite length_app_str. lia.
Qed.

Lemma known_wildcard_trimmed k p :
  k ∈ KnownScopes -> p ∈ prefixes k ->
  TrimSpace (p ++ "*")%string = (p ++ "*")%string.
Proof.
  assert (forallb (fun k => forallb (fun p =>
    bool_decide (TrimSpace (p ++ "*")%string = (p ++ "*")%string))
    (prefixes k)) KnownScopes = true) as H by (vm_compute; reflexivity).
  setoid_rewrite forallb_elem_of in H. setoid_rewrite forallb_elem_of in H.
  intros Hk Hp. by apply (H k Hk p), bool_decide_eq_true in Hp.
Qed.

Lemma known_trimmed k : k ∈ KnownScopes -> TrimSpace k = k.
Proof.
  assert (forallb (fun k => bool_decide (TrimSpace k = k)) KnownScopes = true)
    as H by (vm_compute; reflexivity).
  rewrite forallb_elem_of in H. intros Hk. by apply H, bool_decide_eq_true in Hk.
Qed.

Lemma IsKnownScope_spec s :
  IsKnownScope s = true <-> exists k, k ∈ KnownScopes /\ scope_matches s k.
Proof.
  unfold IsKnownScope, scope_matches.
  destruct (bool_decide (s = ScopeAll)) eqn:E.
  - apply bool_decide_eq_true in E as ->. split; [|done]. intros _.
    exists ScopeOrgRead. split; [by left|]. right.
    by exists EmptyString, ScopeOrgRead.
  - rewrite existsb_elem_of. setoid_rewrite orb_true_iff.
    setoid_rewrite bool_decide_eq_true. setoid_rewrite wildcard_matches.
    naive_solver.
Qed.

(** The scope check is the documented matching. The held scopes cover the
    required ones exactly when each required scope equals a held scope, or
    continues the text a held scope has before its final star; so a method
    without required scopes is covered by any grant, more held scopes never
    cover less, and more required scopes never make a grant pass. *)
Theorem HasScopes_matches (granted required : list string) :
  (HasScopes granted required = true <->
   forall r, r ∈ required ->
     exists g, g ∈ granted /\ scope_matches (TrimSpace g) r) /\
  (forall granted' required', granted ⊆ granted' -> required' ⊆ required ->
     HasScopes granted required = true ->
     HasScopes granted' required' = true).
Proof.
  split; [apply HasScopes_spec|].
  intros granted' required' Hg Hr. rewrite !HasScopes_spec.
  intros H r Hin. destruct (H r (Hr r Hin)) as (g & ? & ?).
  exists g. split; [by apply Hg|done].
Qed.

(** Every scope a key may be created with covers at least one scope the
    methods use, through the check itself; and a scope without surrounding
    white space that covers such a scope is one a key may be created with. *)
Theorem IsKnownScope_useful (s : string) :
  (IsKnownScope s = true ->
   exists k, k ∈ KnownScopes /\ HasScope [s] k = true) /\
  (TrimSpace s = s ->
   (exists k, k ∈ KnownScopes /\ HasScope [s] k = true) ->
   IsKnownScope s = true).
Proof.
  rewrite IsKnownScope_spec. setoid_rewrite HasScope_spec. split.
  - intros (k & Hk & Hm). exists k. split; [done|]. exists s.
    split; [by left|].
    destruct Hm as [->|(p & rest & -> & ->)].
    + left. by apply known_trimmed.
    + right. exists p, rest. split; [|done].
      eapply known_wildcard_trimmed; [done|apply prefix_in_prefixes].
  - intros Ht (k & Hk & g & Hg & Hm). exists k. split; [done|].
    apply list_elem_of_singleton in Hg as ->. by rewrite Ht in Hm.
Qed.

(** The certificate family is known, and covers a scope in use. *)
Lemma IsKnownScope_useful_witness :
  exists k, k ∈ KnownScopes /\ HasScope ["certs:*"]%string k = true.
Proof. apply IsKnownScope_useful. vm_compute. reflexivity. Defined.
