(* ===== verification/Tenancy.v ===== *)
(** Tenancy rows: memberships and projects, with the slice helpers of
    [internal/db/model/member.go].  A zero [ProjectID] is the org scope. *)
From S2P Require Import Prelude Xdb Roles.
From stdpp Require Import base list strings.

Inductive ItemStatus_Enum :=
| ItemStatus_Unknown | ItemStatus_Inactive | ItemStatus_Active
| ItemStatus_Invalid.
Inductive Scope_Enum := Scope_Undefined | Scope_Org | Scope_Project.

#[global] Instance ItemStatus_eq_dec : EqDecision ItemStatus_Enum.
Proof. solve_decision. Defined.
#[global] Instance Scope_eq_dec : EqDecision Scope_Enum.
Proof. solve_decision. Defined.

Record Membership := mkMembership {
  m_ID : Z; m_OrgID : Z; m_ProjectID : Z; m_UserID : Z;
  m_Role : Role_Enum; m_CreatedAt : Z }.

(** A row of the [vw_membership_info] view: the membership with the columns
    of its org, project and user. *)
Record MembershipInfo := mkMembershipInfo {
  mi_ID : Z; mi_OrgID : Z; mi_ProjectID : Z;
  mi_OrgAlias : string; mi_OrgName : string; mi_OrgStatus : ItemStatus_Enum;
  mi_ProjectAlias : string; mi_ProjectName : string;
  mi_UserID : Z; mi_Email : string; mi_Name : string;
  mi_Role : Role_Enum; mi_CreatedAt : Z }.

Record Project := mkProject {
  p_ID : Z; p_OrgID : Z; p_Alias : string; p_Name : string;
  p_Description : string; p_Status : ItemStatus_Enum;
  p_CreatedAt : Z; p_UpdatedAt : Z }.

Record Org := mkOrg {
  o_ID : Z; o_Alias : string; o_Name : string; o_Description : string;
  o_Status : ItemStatus_Enum; o_CreatedAt : Z }.

#[global] Instance Org_eq_dec : EqDecision Org.
Proof. solve_decision. Defined.
#[global] Instance Membership_eq_dec : EqDecision Membership.
Proof. solve_decision. Defined.
#[global] Instance MembershipInfo_eq_dec : EqDecision MembershipInfo.
Proof. solve_decision. Defined.
#[global] Instance Project_eq_dec : EqDecision Project.
Proof. solve_decision. Defined.

Definition ScopeOf (projectID : Z) : Scope_Enum :=
  if (projectID =? 0)%Z then Scope_Org else Scope_Project.

Definition Membership_Validate (m : Membership) : result unit :=
  if (m_OrgID m =? 0)%Z then Err (OtherError "invalid org_id")
  else if (m_UserID m =? 0)%Z then Err (OtherError "invalid user_id")
  else if bool_decide (m_Role m = Role_None)
       then Err (OtherError "invalid role")
  else Ok tt.

Definition FindMemberByUserID (m : list MembershipInfo) (userID projectID : Z)
  : option MembershipInfo :=
  List.find (fun v => (mi_UserID v =? userID)%Z &&
                      (mi_ProjectID v =? projectID)%Z) m.

Definition FindMemberByEmail (m : list MembershipInfo) (email : string)
    (projectID : Z) : option MembershipInfo :=
  List.find (fun v => bool_decide (mi_Email v = email) &&
                      (mi_ProjectID v =? projectID)%Z) m.

Definition FilterByOrg (m : list MembershipInfo) (orgID : Z)
  : list MembershipInfo :=
  List.filter (fun v => mi_OrgID v =? orgID)%Z m.

(** [OrgIDs] keeps the orgs seen so far, in first-seen order. *)
Definition OrgIDs (m : list MembershipInfo) : list Z :=
  foldl (fun seen v =>
    if bool_decide (mi_OrgID v ∈ seen) then seen else seen ++ [mi_OrgID v])
    [] m.

Definition CountOrgRole (m : list MembershipInfo) (orgID : Z)
    (role : Role_Enum) : nat :=
  length (List.filter (fun v =>
    (mi_OrgID v =? orgID)%Z && (mi_ProjectID v =? 0)%Z &&
    bool_decide (mi_Role v = role)) m).

(** The unique constraint [unique_membership_org_project_user]: a user has at
    most one grant per org and scope. *)
Definition grant_key (m : MembershipInfo) : Z * Z * Z :=
  (mi_OrgID m, mi_ProjectID m, mi_UserID m).
Definition unique_grants (rows : list MembershipInfo) : Prop :=
  NoDup (grant_key <$> rows).

Lemma unique_grants_eq rows m n :
  unique_grants rows -> m ∈ rows -> n ∈ rows ->
  grant_key m = grant_key n -> m = n.
Proof.
  unfold unique_grants. intros Hnd. revert m n.
  induction rows as [|a rows IH]; intros m n Hm Hn Hk;
    [by apply not_elem_of_nil in Hm|].
  rewrite fmap_cons, NoDup_cons in Hnd. destruct Hnd as [Hni Hnd].
  assert (forall x, x ∈ rows -> grant_key a <> grant_key x) as Hne.
  { intros x Hx Heq. apply Hni. rewrite Heq. by apply list_elem_of_fmap_2. }
  apply elem_of_cons in Hm as [->|Hm], Hn as [->|Hn]; try done.
  - by destruct (Hne n).
  - by destruct (Hne m).
  - by apply IH.
Qed.

Lemma unique_grants_snoc rows m :
  unique_grants (rows ++ [m]) ->
  unique_grants rows /\ forall n, n ∈ rows -> grant_key n <> grant_key m.
Proof.
  unfold unique_grants. rewrite fmap_app, NoDup_app. simpl.
  intros (Hnd & Hdis & _). split; [done|]. intros n Hn Heq.
  apply (Hdis (grant_key n)); [by apply list_elem_of_fmap_2|].
  rewrite Heq. by left.
Qed.
