(* ===== verification/Grants.v ===== *)
(** Grants: [internal/authctx/grants.go].

    [GrantsFromMemberships] folds the membership rows of a user into an
    org-wide role and a role per project; [HighestRole] answers the role
    checks.  [acts_as] is the declarative meaning of the rows, and the main
    theorem is that the code decides it. *)
From S2P Require Import Prelude Xdb GoStrings Roles Tenancy.
From stdpp Require Import base list gmap strings sorting.

Record Grants := mkGrants {
  g_OrgID : Z; g_UserID : Z; g_OrgRole : Role_Enum;
  g_ProjectRoles : gmap Z Role_Enum }.

(** One iteration of the loop of [GrantsFromMemberships]. *)
Definition addMembership (orgID userID : Z) (g : Grants) (m : MembershipInfo)
  : Grants :=
  if negb (mi_OrgID m =? orgID)%Z || negb (mi_UserID m =? userID)%Z then g
  else if negb (mi_ProjectID m =? 0)%Z then
    mkGrants (g_OrgID g) (g_UserID g) (g_OrgRole g)
      (<[mi_ProjectID m := mi_Role m]> (g_ProjectRoles g))
  else mkGrants (g_OrgID g) (g_UserID g) (mi_Role m) (g_ProjectRoles g).

Definition GrantsFromMemberships (rows : list MembershipInfo)
    (orgID userID : Z) : Grants :=
  foldl (addMembership orgID userID) (mkGrants orgID userID Role_None ∅) rows.

(** The receivers below are nilable pointers: [None] is [nil]. *)
Definition IsMember (g : option Grants) : bool :=
  match g with
  | None => false
  | Some g => bool_decide (g_OrgRole g <> Role_None) ||
              (0 <? size (g_ProjectRoles g))%nat
  end.

Definition ResolvedOrgRole (g : option Grants) : Role_Enum * RoleSource_Enum :=
  match g with
  | None => (Role_None, RoleSource_Unknown)
  | Some g =>
      if bool_decide (g_OrgRole g <> Role_None)
      then (g_OrgRole g, RoleSource_Direct)
      else if (0 <? size (g_ProjectRoles g))%nat
      then (Role_Viewer, RoleSource_Project)
      else (Role_None, RoleSource_Unknown)
  end.

Record OrgAccess_msg := mkOrgAccess {
  oa_OrgID : string; oa_Role : Role_Enum; oa_RoleSource : RoleSource_Enum;
  oa_ExplicitRole : Role_Enum }.

Definition OrgAccess `{Xdb} (g : Grants) : OrgAccess_msg :=
  let '(role, source) := ResolvedOrgRole (Some g) in
  mkOrgAccess (id_string (g_OrgID g)) role source (g_OrgRole g).

Definition Grants_Roles (g : option Grants) (projectID : Z) : list Role_Enum :=
  match g with
  | None => []
  | Some gr =>
      if (projectID =? 0)%Z then
        let '(role, _) := ResolvedOrgRole g in
        if bool_decide (role <> Role_None) then [role] else []
      else
        (if bool_decide (g_OrgRole gr <> Role_None) then [g_OrgRole gr] else [])
        ++ match g_ProjectRoles gr !! projectID with
           | Some role => [role]
           | None => []
           end
  end.

Definition HighestRole (g : option Grants) (projectID : Z)
    (allowedRoles : list string) : Role_Enum :=
  match List.find (fun role =>
          bool_decide (allowedRoles = []) || CanAssumeRole role allowedRoles)
          (Grants_Roles g projectID) with
  | Some role => role
  | None => Role_None
  end.

Definition HasProjectAccess (g : option Grants) (projectID : Z) : bool :=
  (0 <? length (Grants_Roles g projectID))%nat.

Definition CanListAllProjects (g : option Grants) : bool :=
  match g with
  | None => false
  | Some g => bool_decide (g_OrgRole g <> Role_None)
  end.

Definition GrantedProjectIDs (g : option Grants) : list Z :=
  match g with
  | None => []
  | Some g => merge_sort Z.le (map_to_list (g_ProjectRoles g)).*1
  end.

Definition CanGrantOrgRole (g : option Grants) (role : Role_Enum) : bool :=
  match g with
  | None => false
  | Some g =>
      if negb (IsOrgRole role) || bool_decide (g_OrgRole g = Role_None)
      then false
      else if bool_decide (g_OrgRole g = Role_Owner) then true
      else bool_decide (role <> Role_Owner) &&
           CanAssumeRole (g_OrgRole g) [Role_String Role_Admin]
  end.

Definition CanGrantProjectRole (g : option Grants) (projectID : Z)
    (role : Role_Enum) : bool :=
  match g with
  | None => false
  | Some _ =>
      if negb (IsProjectRole role) then false
      else bool_decide
             (HighestRole g projectID [Role_String Role_Admin] <> Role_None)
  end.

(** ** What the rows mean *)

(** The row is a grant of the user in the org at the scope [pid]. *)
Definition grant_at (orgID userID pid : Z) (m : MembershipInfo) : Prop :=
  mi_OrgID m = orgID /\ mi_UserID m = userID /\ mi_ProjectID m = pid.

(** [acts_as rows org user pid r]: the rows make the user act with the role
    at the scope. The org-wide role acts at the org and in every project, a
    project role in its project, and a user with project grants only is a
    Viewer of the org. *)
Inductive acts_as (rows : list MembershipInfo) (orgID userID pid : Z)
  : Role_Enum -> Prop :=
| acts_direct m :
    m ∈ rows -> grant_at orgID userID 0 m -> mi_Role m <> Role_None ->
    acts_as rows orgID userID pid (mi_Role m)
| acts_project m :
    pid <> 0%Z -> m ∈ rows -> grant_at orgID userID pid m ->
    mi_Role m <> Role_None ->
    acts_as rows orgID userID pid (mi_Role m)
| acts_derived m q :
    pid = 0%Z -> q <> 0%Z -> m ∈ rows -> grant_at orgID userID q m ->
    (forall n, n ∈ rows -> grant_at orgID userID 0 n -> mi_Role n = Role_None) ->
    acts_as rows orgID userID pid Role_Viewer.
#[export] Hint Constructors acts_as : go.

Section refinement.
Context (orgID userID : Z).
Let G rows := GrantsFromMemberships rows orgID userID.

Lemma GrantsFromMemberships_snoc rows m :
  GrantsFromMemberships (rows ++ [m]) orgID userID =
  addMembership orgID userID (G rows) m.
Proof. unfold GrantsFromMemberships. by rewrite foldl_app. Qed.

Lemma Grants_ids rows :
  g_OrgID (G rows) = orgID /\ g_UserID (G rows) = userID.
Proof.
  induction rows as [|m rows IH] using rev_ind; [done|].
  unfold G. rewrite GrantsFromMemberships_snoc. unfold addMembership.
  destruct (_ || _); [done|]. by destruct (negb _).
Qed.

Lemma addMembership_other g m :
  mi_OrgID m <> orgID \/ mi_UserID m <> userID ->
  addMembership orgID userID g m = g.
Proof.
  intros H. unfold addMembership.
  destruct (Z.eqb_spec (mi_OrgID m) orgID), (Z.eqb_spec (mi_UserID m) userID);
    simpl; tauto.
Qed.

Lemma addMembership_org g m :
  grant_at orgID userID 0 m ->
  addMembership orgID userID g m =
  mkGrants (g_OrgID g) (g_UserID g) (mi_Role m) (g_ProjectRoles g).
Proof.
  intros (<- & <- & H). unfold addMembership. by rewrite H, !Z.eqb_refl.
Qed.

Lemma addMembership_project g m pid :
  pid <> 0%Z -> grant_at orgID userID pid m ->
  addMembership orgID userID g m =
  mkGrants (g_OrgID g) (g_UserID g) (g_OrgRole g)
    (<[pid := mi_Role m]> (g_ProjectRoles g)).
Proof.
  intros Hp (<- & <- & <-). unfold addMembership. rewrite !Z.eqb_refl. simpl.
  by rewrite (proj2 (Z.eqb_neq _ _) Hp).
Qed.

(** Every row is of another user or org, org-wide, or of one project. *)
Lemma grant_cases m :
  (mi_OrgID m <> orgID \/ mi_UserID m <> userID) \/
  grant_at orgID userID 0 m \/
  exists pid, pid <> 0%Z /\ grant_at orgID userID pid m.
Proof.
  unfold grant_at.
  destruct (decide (mi_OrgID m = orgID)), (decide (mi_UserID m = userID)),
    (decide (mi_ProjectID m = 0%Z)); eauto 8.
Qed.

Lemma grant_at_key pid m n :
  grant_at orgID userID pid m -> grant_at orgID userID pid n ->
  grant_key m = grant_key n.
Proof. unfold grant_at, grant_key. naive_solver congruence. Qed.

Lemma grant_at_inj p q m :
  grant_at orgID userID p m -> grant_at orgID userID q m -> p = q.
Proof. unfold grant_at. naive_solver congruence. Qed.

(** The org-wide role is that of the user's org row. *)
Lemma G_org_role rows :
  unique_grants rows ->
  (forall m, m ∈ rows -> grant_at orgID userID 0 m ->
     g_OrgRole (G rows) = mi_Role m) /\
  ((forall m, m ∈ rows -> ~ grant_at orgID userID 0 m) ->
     g_OrgRole (G rows) = Role_None).
Proof.
  induction rows as [|m rows IH] using rev_ind.
  { split; [|done]. intros m Hm. by apply not_elem_of_nil in Hm. }
  intros [Hu Hne]%unique_grants_snoc. destruct (IH Hu) as [IH1 IH2].
  unfold G. rewrite GrantsFromMemberships_snoc.
  destruct (grant_cases m) as [Ho|[Hm|(pid & Hp & Hm)]].
  - rewrite addMembership_other by done. split.
    + intros n Hn Hat; elem_snoc Hn; [by apply IH1|].
      destruct Hat as (? & ? & ?). by destruct Ho.
    + intros H. apply IH2. intros n Hn. apply H. set_solver.
  - rewrite addMembership_org by done. simpl. split.
    + intros n Hn Hat; elem_snoc Hn; [|done].
      destruct (Hne n Hn). eauto using grant_at_key.
    + intros H. exfalso. eapply H; [|done]. set_solver.
  - rewrite (addMembership_project _ _ pid) by done. simpl. split.
    + intros n Hn Hat; elem_snoc Hn; [by apply IH1|].
      destruct Hp. eauto using grant_at_inj.
    + intros H. apply IH2. intros n Hn. apply H. set_solver.
Qed.

(** The role of a project is that of the user's row in the project. *)
Lemma G_project_role rows pid :
  unique_grants rows ->
  (forall m, pid <> 0%Z -> m ∈ rows -> grant_at orgID userID pid m ->
     g_ProjectRoles (G rows) !! pid = Some (mi_Role m)) /\
  (forall r, g_ProjectRoles (G rows) !! pid = Some r ->
     pid <> 0%Z /\
     exists m, m ∈ rows /\ grant_at orgID userID pid m /\ mi_Role m = r).
Proof.
  induction rows as [|m rows IH] using rev_ind.
  { split; [|intros r Hr; simpl in Hr; by rewrite lookup_empty in Hr].
    intros m _ Hm. by apply not_elem_of_nil in Hm. }
  intros [Hu Hne]%unique_grants_snoc. destruct (IH Hu) as [IH1 IH2].
  unfold G. rewrite GrantsFromMemberships_snoc.
  destruct (grant_cases m) as [Ho|[Hm|(q & Hq & Hm)]].
  - rewrite addMembership_other by done. split.
    + intros n Hp Hn Hat; elem_snoc Hn;
        [by apply IH1|]. destruct Hat as (? & ? & ?). by destruct Ho.
    + intros r (? & n & ? & ?)%IH2. split; [done|]. exists n. set_solver.
  - rewrite addMembership_org by done. simpl. split.
    + intros n Hp Hn Hat; elem_snoc Hn;
        [by apply IH1|]. destruct Hp. eauto using grant_at_inj.
    + intros r (? & n & ? & ?)%IH2. split; [done|]. exists n. set_solver.
  - rewrite (addMembership_project _ _ q) by done. simpl. split.
    + intros n Hp Hn Hat; elem_snoc Hn.
      * rewrite lookup_insert_ne; [by apply IH1|]. intros ->.
        destruct (Hne n Hn). eauto using grant_at_key.
      * rewrite (grant_at_inj _ _ _ Hm Hat). apply lookup_insert_eq.
    + intros r. destruct (decide (q = pid)) as [->|Hqp].
      * rewrite lookup_insert_eq. intros [= <-]. split; [done|].
        exists m. set_solver.
      * rewrite lookup_insert_ne by done.
        intros (? & n & ? & ?)%IH2. split; [done|]. exists n. set_solver.
Qed.

Lemma G_size rows :
  unique_grants rows ->
  (0 <? size (g_ProjectRoles (G rows)))%nat = true <->
  exists m q, q <> 0%Z /\ m ∈ rows /\ grant_at orgID userID q m.
Proof.
  intros Hu. rewrite Nat.ltb_lt. split.
  - intros Hs.
    assert (g_ProjectRoles (G rows) <> ∅) as Hne
      by (intros H; rewrite H, map_size_empty in Hs; lia).
    apply map_choose in Hne as (q & r & Hq).
    apply (proj2 (G_project_role rows q Hu)) in Hq as (? & m & ? & ? & ?).
    eauto.
  - intros (m & q & Hq & Hm & Hat).
    destruct (size _) eqn:E; [|lia]. apply map_size_empty_inv in E.
    pose proof (proj1 (G_project_role rows q Hu) m Hq Hm Hat) as Hl.
    by rewrite E, lookup_empty in Hl.
Qed.

Lemma G_org_role_some rows r :
  unique_grants rows -> r <> Role_None ->
  g_OrgRole (G rows) = r <->
  exists m, m ∈ rows /\ grant_at orgID userID 0 m /\ mi_Role m = r.
Proof.
  intros Hu Hr. destruct (G_org_role rows Hu) as [H1 H2]. split.
  - intros <-.
    destruct (decide (Exists (grant_at orgID userID 0) rows)) as [He|Hn].
    + apply Exists_exists in He as (m & Hm & Hat).
      exists m. split_and!; [done..|]. symmetry. by apply H1.
    + exfalso. apply Hr, H2. intros m Hm Hat. apply Hn, Exists_exists.
      by exists m.
  - intros (m & Hm & Hat & <-). by apply H1.
Qed.

(** The roles the code lists at a scope are those the rows mean. *)
Lemma Grants_Roles_spec rows pid r :
  unique_grants rows -> r <> Role_None ->
  r ∈ Grants_Roles (Some (G rows)) pid <-> acts_as rows orgID userID pid r.
Proof.
  intros Hu Hr. unfold Grants_Roles, ResolvedOrgRole. split.
  - destruct (Z.eqb_spec pid 0) as [->|Hp].
    + case_bool_decide as Ho.
      * rewrite bool_decide_true by done. intros Hin; elem_one Hin.
        apply (G_org_role_some rows) in Ho as Hm; [|done].
        destruct (proj1 Hm eq_refl) as (m & ? & ? & E).
        rewrite <-E in *. by eapply acts_direct.
      * destruct (0 <? _)%nat eqn:Es; [|rewrite bool_decide_false by tauto;
          intros H; by apply not_elem_of_nil in H].
        rewrite bool_decide_true by done.
        intros Hin; elem_one Hin.
        apply G_size in Es as (m & q & ? & ? & ?); [|done].
        econstructor; eauto. intros n Hn Hat.
        rewrite <-(proj1 (G_org_role rows Hu) n) by done.
        by destruct (decide (g_OrgRole (G rows) = Role_None)).
    + intros [H|H]%elem_of_app.
      * case_bool_decide as Ho; [|by apply not_elem_of_nil in H].
        elem_one H.
        apply (G_org_role_some rows) in Ho as Hm; [|done].
        destruct (proj1 Hm eq_refl) as (m & ? & ? & E).
        rewrite <-E in *. by eapply acts_direct.
      * destruct (_ !! pid) eqn:El; [|by apply not_elem_of_nil in H].
        elem_one H.
        apply (proj2 (G_project_role rows pid Hu)) in El
          as (_ & m & ? & ? & <-). by eapply acts_project.
  - intros H. destruct H as [m Hm Hat Hn|m Hp Hm Hat Hn|m q -> Hq Hm Hat Hno].
    + assert (g_OrgRole (G rows) = mi_Role m) as E
        by (by apply G_org_role). rewrite E, bool_decide_true by done.
      destruct (pid =? 0)%Z; [rewrite bool_decide_true by done|]; by left.
    + rewrite (proj2 (Z.eqb_neq _ _) Hp).
      rewrite (proj1 (G_project_role rows pid Hu) m) by done.
      apply elem_of_app. right. by left.
    + rewrite bool_decide_false; cycle 1.
      { intros Ho. apply (G_org_role_some rows) in Ho as Hx; [|done].
        destruct (proj1 Hx eq_refl) as (n & ? & ? & E).
        apply Ho. rewrite <-E. by apply Hno. }
      rewrite (proj2 (G_size rows Hu)) by eauto.
      rewrite bool_decide_true by done. by left.
Qed.
End refinement.

(** ** Consequences of the listing *)

Lemma acts_as_not_none rows orgID userID pid r :
  acts_as rows orgID userID pid r -> r <> Role_None.
Proof. by intros []. Qed.

(** An unset role is listed last, and only for a project row without one. *)
Lemma Grants_Roles_none_last g pid l :
  Grants_Roles g pid = Role_None :: l -> l = [].
Proof.
  destruct g as [g|]; [|done]. unfold Grants_Roles.
  destruct (pid =? 0)%Z; [destruct (ResolvedOrgRole _) as [r ?]|].
  - case_bool_decide; [|done]. by intros [= -> ->].
  - case_bool_decide; simpl; [by intros [= ? ?]|].
    destruct (_ !! pid); [|done]. by intros [= -> ->].
Qed.

Lemma HighestRole_in g pid allowed r :
  HighestRole g pid allowed = r -> r <> Role_None ->
  r ∈ Grants_Roles g pid /\ (allowed = [] \/ CanAssumeRole r allowed = true).
Proof.
  unfold HighestRole. destruct (List.find _ _) eqn:E; [|congruence].
  intros <- _. apply List.find_some in E as [Hin Hb].
  apply list_elem_of_In in Hin. split; [done|].
  apply orb_true_iff in Hb as [Hb|Hb]; [|by right].
  apply bool_decide_eq_true in Hb. by left.
Qed.

Lemma HighestRole_none g pid allowed r :
  HighestRole g pid allowed = Role_None -> r <> Role_None ->
  r ∈ Grants_Roles g pid -> allowed <> [] /\ CanAssumeRole r allowed = false.
Proof.
  unfold HighestRole. intros H Hr Hin.
  destruct (List.find _ _) eqn:E.
  - subst. destruct (decide (allowed = [])) as [->|Ha].
    + destruct (Grants_Roles g pid) as [|x l] eqn:Er; [done|].
      simpl in E. injection E as ->.
      rewrite (Grants_Roles_none_last _ _ _ Er) in Hin. elem_one Hin. done.
    + apply List.find_some in E as [_ Hb].
      rewrite bool_decide_false in Hb by done. simpl in Hb.
      by apply CanAssumeRole_spec in Hb as (? & _ & [[] _]).
  - assert (Hn := List.find_none _ _ E r (proj1 (list_elem_of_In _ _) Hin)).
    apply orb_false_iff in Hn as [Hn ?]. by apply bool_decide_eq_false in Hn.
Qed.

(** A rule with roles passes exactly when an acting role can assume one. *)
Lemma HighestRole_acts rows orgID userID pid allowed :
  unique_grants rows -> allowed <> [] ->
  HighestRole (Some (GrantsFromMemberships rows orgID userID)) pid allowed
    <> Role_None <->
  exists r a, acts_as rows orgID userID pid r /\ a ∈ allowed /\
    can_assume r (ParseRole (TrimSpace a)).
Proof.
  intros Hu Ha. split.
  - intros Hn. destruct (HighestRole_in _ _ _ _ eq_refl Hn) as [Hin [?|Hca]];
      [done|]. apply CanAssumeRole_spec in Hca as (a & ? & ?).
    apply Grants_Roles_spec in Hin; [|done..]. eauto.
  - intros (r & a & Hr & Hin & Hca) Hn.
    pose proof (acts_as_not_none _ _ _ _ _ Hr) as Hrn.
    apply Grants_Roles_spec in Hr; [|done..].
    destruct (HighestRole_none _ _ _ r Hn Hrn Hr) as [_ Hf].
    apply not_true_iff_false in Hf. apply Hf, CanAssumeRole_spec. eauto.
Qed.

(** C1: the role check of the code is the declared one. Built from membership
    rows with one row per scope, the grants return a role at a scope exactly
    when the rows make the user act there with a role that can assume an
    allowed one (any role when the list is empty), and the role returned is
    such a role. *)
Theorem HighestRole_refines (rows : list MembershipInfo)
    (orgID userID pid : Z) (allowed : list string)
    (Hu : unique_grants rows) :
  let r := HighestRole (Some (GrantsFromMemberships rows orgID userID))
             pid allowed in
  (r <> Role_None ->
     acts_as rows orgID userID pid r /\
     (allowed = [] \/ CanAssumeRole r allowed = true)) /\
  (r = Role_None ->
     forall s, acts_as rows orgID userID pid s ->
     allowed <> [] /\ CanAssumeRole s allowed = false).
Proof.
  intros r. split.
  - intros Hr. destruct (HighestRole_in _ _ _ r eq_refl Hr) as [Hin ?].
    split; [|done]. by apply Grants_Roles_spec in Hin.
  - intros Hr s Hs. pose proof (acts_as_not_none _ _ _ _ _ Hs).
    eapply HighestRole_none; [exact Hr|done|]. by apply Grants_Roles_spec.
Qed.

(** A user of org 7 with an org-wide User role and Admin in project 5. *)
Definition example_rows : list MembershipInfo :=
  [ mkMembershipInfo 1 7 0 "acme" "Acme" ItemStatus_Active "" "" 3
      "a@acme.com" "A" Role_User 10;
    mkMembershipInfo 2 7 5 "acme" "Acme" ItemStatus_Active "pki" "PKI" 3
      "a@acme.com" "A" Role_Admin 11 ].

Lemma example_rows_unique : unique_grants example_rows.
Proof. apply (bool_decide_unpack (NoDup _)). vm_compute. exact I. Qed.

(** Admin is required: granted by the project row in project 5 only. *)
Lemma HighestRole_refines_witness :
  acts_as example_rows 7 3 5 Role_Admin /\
  (forall s, acts_as example_rows 7 3 6 s -> CanAssumeRole s ["Admin"]%string = false).
Proof.
  split.
  - apply (HighestRole_refines example_rows 7 3 5 ["Admin"]%string
             example_rows_unique). vm_compute. discriminate.
  - intros s Hs.
    apply (HighestRole_refines example_rows 7 3 6 ["Admin"]%string
             example_rows_unique); [vm_compute; reflexivity|exact Hs].
Defined.

(** Project grants stay in their project. A user without an org-wide role
    has no role, for any rule, in a project where it has no row of its own;
    at org scope it acts at most as the derived Viewer. *)
Theorem project_grants_isolated (rows : list MembershipInfo)
    (orgID userID : Z) (allowed : list string) (Hu : unique_grants rows)
    (Hno : forall m, m ∈ rows -> grant_at orgID userID 0 m ->
           mi_Role m = Role_None) :
  let g := Some (GrantsFromMemberships rows orgID userID) in
  (forall q, q <> 0%Z ->
     (forall m, m ∈ rows -> ~ grant_at orgID userID q m) ->
     HighestRole g q allowed = Role_None) /\
  (HighestRole g 0 allowed = Role_None \/
   HighestRole g 0 allowed = Role_Viewer).
Proof.
  intros g. split.
  - intros q Hq Hrows. apply dec_stable. intros Hr.
    destruct (HighestRole_in _ _ _ _ eq_refl Hr) as [Hin _].
    apply Grants_Roles_spec in Hin; [|done..].
    inversion Hin as [m Hm Hat|m ? Hm Hat|]; [|by destruct (Hrows m)|done].
    rewrite (Hno m) in *; congruence.
  - destruct (decide (HighestRole g 0 allowed = Role_None)) as [|Hr];
      [by left|right].
    destruct (HighestRole_in _ _ _ _ eq_refl Hr) as [Hin _].
    apply Grants_Roles_spec in Hin; [|done..].
    inversion Hin as [m Hm Hat|m ? Hm Hat|]; [|done..].
    rewrite (Hno m) in *; congruence.
Qed.

(** The project row of the example alone: no role in project 6. *)
Lemma project_grants_isolated_witness :
  HighestRole (Some (GrantsFromMemberships [List.nth 1 example_rows
    (List.hd (mkMembershipInfo 0 0 0 "" "" ItemStatus_Unknown "" "" 0 "" ""
       Role_None 0) example_rows)] 7 3)) 6 [] = Role_None.
Proof.
  apply (project_grants_isolated _ 7 3 []); simpl.
  - apply NoDup_singleton.
  - intros m Hm (_ & _ & H). apply list_elem_of_singleton in Hm. subst m.
    discriminate H.
  - discriminate.
  - intros m Hm (_ & _ & H). apply list_elem_of_singleton in Hm. subst m.
    discriminate H.
Defined.

Lemma CanAssumeRole_admin r :
  CanAssumeRole r [Role_String Role_Admin] = true <->
  r = Role_Admin \/ r = Role_Owner.
Proof.
  split.
  - destruct r as [| | | | | | | | |n]; try (vm_compute; discriminate); auto.
  - intros [->| ->]; vm_compute; reflexivity.
Qed.

Lemma org_role_below_admin r :
  IsOrgRole r = true -> r <> Role_Owner -> can_assume Role_Admin r.
Proof.
  intros H Hr. apply CanAssumeRoles_rtc.
  destruct r as [| | | | | | | | |n]; try discriminate H; try done;
    apply (bool_decide_unpack (_ ∈ _)); vm_compute; exact I.
Qed.

Lemma org_role_below_owner r : IsOrgRole r = true -> can_assume Role_Owner r.
Proof.
  intros H. destruct (decide (r = Role_Owner)) as [->|Hr].
  - apply CanAssumeRoles_rtc. by left.
  - eapply can_assume_trans; [|by apply org_role_below_admin].
    apply CanAssumeRoles_rtc. right. by left.
Qed.

Lemma project_role_is_org_role r : IsProjectRole r = true -> IsOrgRole r = true.
Proof. destruct r as [| | | | | | | | |n]; vm_compute; done. Qed.

Lemma project_role_not_owner r : IsProjectRole r = true -> r <> Role_Owner.
Proof. by intros H ->. Qed.

Lemma admin_covers_project_role a r :
  a = Role_Admin \/ a = Role_Owner -> IsProjectRole r = true -> can_assume a r.
Proof.
  intros [->| ->] Hr; [apply org_role_below_admin|apply org_role_below_owner];
    eauto using project_role_is_org_role, project_role_not_owner.
Qed.

(** No caller grants more than it holds. Whoever may grant a role
    org-wide holds an explicit org-wide role that can assume it, and only an
    Owner may grant Owner; whoever may grant a role in a project acts there
    as Admin or Owner, which can assume it, and the role is neither Owner nor
    Billing; and project grants alone never allow an org-wide grant. *)
Theorem CanGrant_no_escalation (g : Grants) (r : Role_Enum) (pid : Z) :
  (CanGrantOrgRole (Some g) r = true ->
     can_assume (g_OrgRole g) r /\
     (g_OrgRole g = Role_Admin \/ g_OrgRole g = Role_Owner) /\
     (r = Role_Owner -> g_OrgRole g = Role_Owner)) /\
  (CanGrantProjectRole (Some g) pid r = true ->
     (exists a, a ∈ Grants_Roles (Some g) pid /\ can_assume a r /\
        (a = Role_Admin \/ a = Role_Owner)) /\
     r <> Role_Owner /\ r <> Role_Billing) /\
  (g_OrgRole g = Role_None -> CanGrantOrgRole (Some g) r = false).
Proof.
  split_and!.
  - unfold CanGrantOrgRole. intros H.
    destruct (IsOrgRole r) eqn:Er; [|done]. simpl in H.
    destruct (bool_decide (g_OrgRole g = Role_None)); [done|].
    destruct (decide (g_OrgRole g = Role_Owner)) as [Ho|Ho].
    + rewrite Ho. eauto using org_role_below_owner.
    + rewrite bool_decide_false in H by done.
      apply andb_true_iff in H as [Hr Ha].
      apply bool_decide_eq_true in Hr. apply CanAssumeRole_admin in Ha.
      destruct Ha as [->|]; [|done]. split; [by apply org_role_below_admin|].
      split; [by left|done].
  - unfold CanGrantProjectRole. intros H.
    destruct (IsProjectRole r) eqn:Er; [|done]. simpl in H.
    apply bool_decide_eq_true in H.
    destruct (HighestRole_in _ _ _ _ eq_refl H) as [Hin [?|Ha]]; [done|].
    apply CanAssumeRole_admin in Ha. split; [|by split; intros ->].
    eexists. split; [exact Hin|]. split; [|done].
    by apply admin_covers_project_role.
  - unfold CanGrantOrgRole. intros ->.
    by rewrite bool_decide_true, orb_true_r.
Qed.
