(* ===== verification/Authorizer.v ===== *)
(** The authorizer: [internal/authctx/authorizer.go].

    Grants and projects are read through a cache.  [CacheLaws] is what the
    cache library promises, [GrantsProvider] the database interface, and
    [AuthorizerContract] what the authorizer promises to its clients: every
    call answers from one view of the memberships and projects.  The
    staleness theorem bounds how old that view may be. *)
From S2P Require Import Prelude Xdb GoStrings Roles Tenancy Grants.
From stdpp Require Import base list gmap strings.

Definition ErrInsufficientRole : error := Sentinel "insufficient role".
Definition ErrAccessDenied : error := Sentinel "access denied".
Definition ErrOrgNotSelected : error := Sentinel "org not selected".

(** ** The database interface *)

Record ListMembershipsRequest := mkListMemberships {
  lm_OrgID : Z; lm_UserID : Z; lm_ProjectID : Z; lm_Scope : Scope_Enum;
  lm_OrgStatus : ItemStatus_Enum; lm_Role : Role_Enum;
  lm_Limit : Z; lm_Offset : Z }.

(** The provider at one moment: the answers of the database to the two
    queries of the authorizer. *)
Record GrantsProvider := mkProvider {
  ListMemberships : ListMembershipsRequest -> result (list MembershipInfo);
  GetProject : Z -> result Project }.

(** ** The cache interface *)

Inductive cached :=
| CMemberships (rows : list MembershipInfo)
| CProject (p : Project).

(** The memory provider of the [cache] package; times and TTLs are in
    milliseconds. *)
Class Cache := {
  cache : Type;
  NewMemoryProvider : cache;
  cache_Get : Z -> cache -> string -> option cached;
  cache_Set : Z -> cache -> string -> cached -> Z -> cache;
  cache_Delete : cache -> string -> cache }.

(** A value read back was set under the key and not deleted since, and is not
    past its TTL; a value may disappear earlier. *)
Class CacheLaws `{Cache} := {
  get_new now k : cache_Get now NewMemoryProvider k = None;
  get_set_same now t c k v ttl w :
    cache_Get t (cache_Set now c k v ttl) k = Some w ->
    w = v /\ (t <= now + ttl)%Z;
  get_set_other now t c k k' v ttl w : k <> k' ->
    cache_Get t (cache_Set now c k v ttl) k' = Some w ->
    cache_Get t c k' = Some w;
  get_delete_same now c k : cache_Get now (cache_Delete c k) k = None;
  get_delete_other now c k k' w : k <> k' ->
    cache_Get now (cache_Delete c k) k' = Some w -> cache_Get now c k' = Some w;
  get_expiry now t c k w : (now <= t)%Z ->
    cache_Get t c k = Some w -> cache_Get now c k = Some w }.

(** The memory provider evicts nothing: setting a key leaves the others. *)
Class CacheNoEviction `{Cache} :=
  get_set_other_eq now t c k k' v ttl : k <> k' ->
    cache_Get t (cache_Set now c k v ttl) k' = cache_Get t c k'.

(** ** The operations *)

Section authorizer.
Context `{Xdb, Cache}.

(** Three minutes, in milliseconds. *)
Definition grantsCacheTTL : Z := 180000.

(** The state a call runs in: the clock, the database and the cache. *)
Record AzState := mkAz {
  az_now : Z; az_provider : GrantsProvider; az_cache : cache }.

Definition set_cache (s : AzState) (c : cache) : AzState :=
  mkAz (az_now s) (az_provider s) c.

Definition NewAuthorizer (now : Z) (p : GrantsProvider) : AzState :=
  mkAz now p NewMemoryProvider.

Definition membershipsCacheKey (userID : string) : string :=
  "/memberships/" ++ userID.
Definition projectCacheKey (projectID : string) : string :=
  "/projects/" ++ projectID.

Definition userRequest (userID : Z) : ListMembershipsRequest :=
  mkListMemberships 0 userID 0 Scope_Undefined ItemStatus_Active Role_None
    0 0.

Definition getMemberships (userID : Z) : M AzState (list MembershipInfo) :=
  fun s =>
  let key := membershipsCacheKey (id_string userID) in
  match cache_Get (az_now s) (az_cache s) key with
  | Some (CMemberships rows) => (Ok rows, s)
  | _ =>
      match ListMemberships (az_provider s) (userRequest userID) with
      | Err e => (Err (WithMessage e "unable to get user memberships"), s)
      | Ok rows =>
          (Ok rows,
           set_cache s (cache_Set (az_now s) (az_cache s) key
                          (CMemberships rows) grantsCacheTTL))
      end
  end.

Definition getProject (projectID : Z) : M AzState Project :=
  fun s =>
  let key := projectCacheKey (id_string projectID) in
  match cache_Get (az_now s) (az_cache s) key with
  | Some (CProject p) => (Ok p, s)
  | _ =>
      match GetProject (az_provider s) projectID with
      | Err e => (Err e, s)
      | Ok p =>
          (Ok p,
           set_cache s (cache_Set (az_now s) (az_cache s) key
                          (CProject p) grantsCacheTTL))
      end
  end.

Definition authorizer_Grants (orgID userID : Z) : M AzState Grants :=
  if (orgID =? 0)%Z then fail ErrOrgNotSelected
  else let! memberships := getMemberships userID in
       ret (GrantsFromMemberships memberships orgID userID).

Definition authorizer_Project (orgID projectID : Z) : M AzState Project :=
  if (orgID =? 0)%Z then fail ErrOrgNotSelected
  else catch (getProject projectID) (fun r =>
    match r with
    | Err e =>
        if IsNotFoundError e then fail ErrAccessDenied
        else fail (WithMessage e "unable to get project")
    | Ok project =>
        if negb (p_OrgID project =? orgID)%Z ||
           bool_decide (p_Status project <> ItemStatus_Active)
        then fail ErrAccessDenied
        else ret project
    end).

Definition authorizer_CheckRole (orgID projectID userID : Z)
    (allowedRoles : list string) : M AzState (Role_Enum * Grants) :=
  let! _ := (if negb (projectID =? 0)%Z
             then let! _ := authorizer_Project orgID projectID in ret tt
             else ret tt) in
  let! grants := authorizer_Grants orgID userID in
  let role := HighestRole (Some grants) projectID allowedRoles in
  if bool_decide (role = Role_None) then fail ErrInsufficientRole
  else ret (role, grants).

Definition InvalidateUser (userID : string) : M AzState unit :=
  modify (fun s =>
    set_cache s (cache_Delete (az_cache s) (membershipsCacheKey userID))).

Definition InvalidateProject (projectID : string) : M AzState unit :=
  modify (fun s =>
    set_cache s (cache_Delete (az_cache s) (projectCacheKey projectID))).
End authorizer.

(** ** The promise to the clients

    A view is what the authorizer knows: the membership rows of a user and
    the project rows, each possibly an error. *)

Record AzView := mkView {
  view_rows : Z -> result (list MembershipInfo);
  view_project : Z -> result Project }.

Definition view_Grants (v : AzView) (orgID userID : Z) : result Grants :=
  if (orgID =? 0)%Z then Err ErrOrgNotSelected
  else let? rows := view_rows v userID in
       Ok (GrantsFromMemberships rows orgID userID).

Definition view_Project (v : AzView) (orgID projectID : Z) : result Project :=
  if (orgID =? 0)%Z then Err ErrOrgNotSelected
  else match view_project v projectID with
       | Err e => Err (if IsNotFoundError e then ErrAccessDenied
                       else WithMessage e "unable to get project")
       | Ok p =>
           if (p_OrgID p =? orgID)%Z && bool_decide (p_Status p = ItemStatus_Active)
           then Ok p else Err ErrAccessDenied
       end.

Definition view_CheckRole (v : AzView) (orgID projectID userID : Z)
    (allowed : list string) : result (Role_Enum * Grants) :=
  let? _ := (if (projectID =? 0)%Z then Ok tt
             else let? _ := view_Project v orgID projectID in Ok tt) in
  let? g := view_Grants v orgID userID in
  let role := HighestRole (Some g) projectID allowed in
  if bool_decide (role = Role_None) then Err ErrInsufficientRole
  else Ok (role, g).

(** The operations of [authctx.Authorizer]. *)
Class Authorizer (S : Type) := {
  az_Grants : Z -> Z -> M S Grants;
  az_Project : Z -> Z -> M S Project;
  az_CheckRole : Z -> Z -> Z -> list string -> M S (Role_Enum * Grants);
  az_InvalidateUser : string -> M S unit;
  az_InvalidateProject : string -> M S unit }.

(** Two states with the same view answer alike. *)
Definition same_view (v w : AzView) : Prop :=
  (forall u, is_uint64 u -> view_rows v u = view_rows w u) /\
  (forall p, is_uint64 p -> view_project v p = view_project w p).

#[global] Instance same_view_equiv : Equivalence same_view.
Proof.
  split.
  - by intros v.
  - intros v w [H1 H2]. split; intros x Hx; symmetry; auto.
  - intros u v w [H1 H2] [H3 H4].
    split; intros x Hx; [rewrite H1|rewrite H2]; auto.
Qed.

Lemma view_Grants_same v w o u :
  is_uint64 u -> same_view v w -> view_Grants v o u = view_Grants w o u.
Proof. intros Hu [Hr _]. unfold view_Grants. by rewrite Hr. Qed.

Lemma view_Project_same v w o p :
  is_uint64 p -> same_view v w -> view_Project v o p = view_Project w o p.
Proof. intros Hp [_ Hq]. unfold view_Project. by rewrite Hq. Qed.

(** [answers view v m r]: in every state with the view [v], the operation
    answers [r] and keeps the view. *)
Definition answers {S A} (view : S -> AzView) (v : AzView) (m : M S A)
    (r : result A) : Prop :=
  forall s, same_view (view s) v ->
    (m s).1 = r /\ same_view (view (m s).2) v.

Section answers.
Context {S : Type} (view : S -> AzView) (v : AzView).

Lemma answers_ret {A} (a : A) : answers view v (ret a) (Ok a).
Proof. by intros s Hs. Qed.
Lemma answers_fail {A} e : answers view v (@fail S A e) (Err e).
Proof. by intros s Hs. Qed.
Lemma answers_bind {A B} (m : M S A) (k : A -> M S B) r f :
  answers view v m r -> (forall a, answers view v (k a) (f a)) ->
  answers view v (bind m k) (result_bind r f).
Proof.
  intros Hm Hk s Hs. destruct (Hm s Hs) as [E1 E2]. unfold bind.
  destruct (m s) as [[a|e] s']; simpl in *; subst; simpl; [|done].
  by apply Hk.
Qed.
Lemma answers_catch {A B} (m : M S A) (k : result A -> M S B) r q :
  answers view v m r -> answers view v (k r) q ->
  answers view v (catch m k) q.
Proof.
  intros Hm Hk s Hs. destruct (Hm s Hs) as [E1 E2]. unfold catch.
  destruct (m s) as [r' s']; simpl in *; subst. by apply Hk.
Qed.
Lemma answers_if {A} (b : bool) (m n : M S A) r q :
  answers view v m r -> answers view v n q ->
  answers view v (if b then m else n) (if b then r else q).
Proof. by destruct b. Qed.
End answers.
#[export] Hint Resolve answers_ret answers_fail answers_bind answers_if : go.

(** What an authorizer promises: an operation answers from the view of the
    state it is called in, and reading does not change the view. *)
Class AuthorizerContract (S : Type) `{Authorizer S} := {
  az_view : S -> AzView;
  az_Grants_view v o u : is_uint64 u ->
    answers az_view v (az_Grants o u) (view_Grants v o u);
  az_Project_view v o p : is_uint64 p ->
    answers az_view v (az_Project o p) (view_Project v o p);
  az_CheckRole_view v o p u allowed : is_uint64 p -> is_uint64 u ->
    answers az_view v (az_CheckRole o p u allowed)
      (view_CheckRole v o p u allowed) }.

(** ** The authorizer keeps its promise *)

Section contract.
Context `{XdbLaws, CacheLaws, !CacheNoEviction}.

#[export] Instance authorizer_ops : Authorizer AzState := {|
  az_Grants := authorizer_Grants;
  az_Project := authorizer_Project;
  az_CheckRole := authorizer_CheckRole;
  az_InvalidateUser := InvalidateUser;
  az_InvalidateProject := InvalidateProject |}.

(** The view: the cached row set or project, otherwise the database's. *)
Definition state_view (s : AzState) : AzView :=
  mkView (fun u => (getMemberships u s).1) (fun p => (getProject p s).1).

Lemma membership_project_keys u p :
  membershipsCacheKey u <> projectCacheKey p.
Proof. discriminate. Qed.

Lemma membershipsCacheKey_inj u v :
  is_uint64 u -> is_uint64 v ->
  membershipsCacheKey (id_string u) = membershipsCacheKey (id_string v) ->
  u = v.
Proof. intros ? ? [= E]. by apply id_string_inj. Qed.

Lemma projectCacheKey_inj u v :
  is_uint64 u -> is_uint64 v ->
  projectCacheKey (id_string u) = projectCacheKey (id_string v) -> u = v.
Proof. intros ? ? [= E]. by apply id_string_inj. Qed.

(** A read leaves the state, or stores what the database answered. *)
Lemma getMemberships_state u s :
  (getMemberships u s).2 = s \/
  exists rows, (getMemberships u s).1 = Ok rows /\
    ListMemberships (az_provider s) (userRequest u) = Ok rows /\
    (getMemberships u s).2 = set_cache s (cache_Set (az_now s) (az_cache s)
      (membershipsCacheKey (id_string u)) (CMemberships rows) grantsCacheTTL).
Proof. unfold getMemberships. repeat case_match; simpl; eauto. Qed.

Lemma getProject_state p s :
  (getProject p s).2 = s \/
  exists q, (getProject p s).1 = Ok q /\
    GetProject (az_provider s) p = Ok q /\
    (getProject p s).2 = set_cache s (cache_Set (az_now s) (az_cache s)
      (projectCacheKey (id_string p)) (CProject q) grantsCacheTTL).
Proof. unfold getProject. repeat case_match; simpl; eauto. Qed.

(** After a miss is stored, the key answers as before: the stored value,
    or a miss again and the same database. *)
Lemma getMemberships_stable u s :
  is_uint64 u -> same_view (state_view (getMemberships u s).2) (state_view s).
Proof.
  intros Hu. destruct (getMemberships_state u s) as [->|(rows & E1 & E2 & ->)];
    [done|]. split; intros x Hx; simpl.
  - destruct (decide (x = u)) as [->|Hne].
    + rewrite E1. unfold getMemberships. simpl.
      destruct (cache_Get _ _ _) as [w|] eqn:E3; [|by rewrite E2].
      by apply get_set_same in E3 as [-> _].
    + unfold getMemberships. simpl. rewrite get_set_other_eq.
      * by repeat case_match.
      * intros E. by apply membershipsCacheKey_inj in E.
  - unfold getProject. simpl.
    rewrite get_set_other_eq by apply membership_project_keys.
    by repeat case_match.
Qed.

Lemma getProject_stable p s :
  is_uint64 p -> same_view (state_view (getProject p s).2) (state_view s).
Proof.
  intros Hp. destruct (getProject_state p s) as [->|(q & E1 & E2 & ->)];
    [done|]. split; intros x Hx; simpl.
  - unfold getMemberships. simpl.
    rewrite get_set_other_eq by (apply not_eq_sym, membership_project_keys).
    by repeat case_match.
  - destruct (decide (x = p)) as [->|Hne].
    + rewrite E1. unfold getProject. simpl.
      destruct (cache_Get _ _ _) as [w|] eqn:E3; [|by rewrite E2].
      by apply get_set_same in E3 as [-> _].
    + unfold getProject. simpl. rewrite get_set_other_eq.
      * by repeat case_match.
      * intros E. by apply projectCacheKey_inj in E.
Qed.

Lemma getMemberships_view v u :
  is_uint64 u -> answers state_view v (getMemberships u) (view_rows v u).
Proof.
  intros Hu s Hs. split; [by apply Hs|].
  by rewrite getMemberships_stable.
Qed.

Lemma getProject_view v p :
  is_uint64 p -> answers state_view v (getProject p) (view_project v p).
Proof.
  intros Hp s Hs. split; [by apply Hs|]. by rewrite getProject_stable.
Qed.

Lemma authorizer_Grants_view v o u :
  is_uint64 u ->
  answers state_view v (authorizer_Grants o u) (view_Grants v o u).
Proof.
  intros Hu. unfold authorizer_Grants, view_Grants.
  eauto using getMemberships_view with go.
Qed.

Lemma authorizer_Project_view v o p :
  is_uint64 p ->
  answers state_view v (authorizer_Project o p) (view_Project v o p).
Proof.
  intros Hp. unfold authorizer_Project, view_Project.
  apply answers_if; [auto with go|].
  eapply answers_catch; [by apply getProject_view|].
  destruct (view_project v p) as [q|e].
  - destruct (p_OrgID q =? o)%Z; simpl; [|auto with go].
    destruct (decide (p_Status q = ItemStatus_Active)) as [Ha|Ha].
    + rewrite bool_decide_false by tauto. rewrite bool_decide_true by done.
      auto with go.
    + rewrite bool_decide_true by done. rewrite bool_decide_false by done.
      auto with go.
  - destruct (IsNotFoundError e); auto with go.
Qed.

Lemma authorizer_CheckRole_view v o p u allowed :
  is_uint64 p -> is_uint64 u ->
  answers state_view v (authorizer_CheckRole o p u allowed)
    (view_CheckRole v o p u allowed).
Proof.
  intros Hp Hu. unfold authorizer_CheckRole, view_CheckRole.
  apply answers_bind.
  - destruct (p =? 0)%Z; simpl; [auto with go|].
    apply answers_bind; [by apply authorizer_Project_view|auto with go].
  - intros _. apply answers_bind; [by apply authorizer_Grants_view|].
    intros g. auto with go.
Qed.

#[export] Instance authorizer_contract : AuthorizerContract AzState := {|
  az_view := state_view;
  az_Grants_view := authorizer_Grants_view;
  az_Project_view := authorizer_Project_view;
  az_CheckRole_view := authorizer_CheckRole_view |}.
End contract.

(** ** Staleness

    A history of the authorizer: the database and the clock change at will,
    the public operations run one at a time, and the membership and project
    mutations call the invalidations. The log records, newest first, every
    database the authorizer lived with and every key it dropped. *)

Inductive az_event :=
| Snap (t : Z) (p : GrantsProvider)
| Dropped (key : string).

Section staleness.
Context `{XL : XdbLaws, CL : CacheLaws}.

Inductive history : list az_event -> AzState -> Prop :=
| hist_new now p : history [Snap now p] (NewAuthorizer now p)
| hist_world log s now p :
    history log s -> (az_now s <= now)%Z ->
    history (Snap now p :: log) (mkAz now p (az_cache s))
| hist_grants log s o u :
    history log s -> is_uint64 u -> history log (authorizer_Grants o u s).2
| hist_project log s o p :
    history log s -> is_uint64 p -> history log (authorizer_Project o p s).2
| hist_check log s o p u allowed :
    history log s -> is_uint64 p -> is_uint64 u ->
    history log (authorizer_CheckRole o p u allowed s).2
| hist_user log s u :
    history log s ->
    history (Snap (az_now s) (az_provider s) ::
             Dropped (membershipsCacheKey u) :: log) (InvalidateUser u s).2
| hist_proj log s p :
    history log s ->
    history (Snap (az_now s) (az_provider s) ::
             Dropped (projectCacheKey p) :: log) (InvalidateProject p s).2.

(** The database [p] yields the value under the key. *)
Inductive sourced (p : GrantsProvider) : string -> cached -> Prop :=
| src_rows u rows :
    is_uint64 u -> ListMemberships p (userRequest u) = Ok rows ->
    sourced p (membershipsCacheKey (id_string u)) (CMemberships rows)
| src_project q r :
    is_uint64 q -> GetProject p q = Ok r ->
    sourced p (projectCacheKey (id_string q)) (CProject r).

(** The value was in the database at a moment of the log at most one TTL
    before [t] and not before the key was last dropped. *)
Definition fresh (log : list az_event) (t : Z) (key : string) (v : cached)
  : Prop :=
  exists l1 t0 p0 l2, log = l1 ++ Snap t0 p0 :: l2 /\
    (Dropped key ∉ l1) /\ sourced p0 key v /\
    (t <= t0 + grantsCacheTTL)%Z /\ (t0 <= t)%Z.

Record az_inv (log : list az_event) (s : AzState) : Prop := {
  inv_head : exists l, log = Snap (az_now s) (az_provider s) :: l;
  inv_fresh key v t : (az_now s <= t)%Z ->
    cache_Get t (az_cache s) key = Some v -> fresh log t key v }.

Lemma fresh_here log t0 t p key v l :
  log = Snap t0 p :: l -> sourced p key v ->
  (t0 <= t)%Z -> (t <= t0 + grantsCacheTTL)%Z -> fresh log t key v.
Proof.
  intros -> Hsrc ? ?. exists [], t0, p, l. split_and!; try done. set_solver.
Qed.

Lemma fresh_cons e log t key v :
  fresh log t key v -> e <> Dropped key -> fresh (e :: log) t key v.
Proof.
  intros (l1 & t0 & p0 & l2 & -> & Hd & ? & ? & ?) He.
  exists (e :: l1), t0, p0, l2. split_and!; try done. set_solver.
Qed.

Definition keeps {A} (m : M AzState A) : Prop :=
  forall log s, az_inv log s -> az_inv log (m s).2.

Lemma keeps_ret {A} (a : A) : keeps (ret a).
Proof. by intros log s. Qed.
Lemma keeps_fail {A} e : keeps (@fail AzState A e).
Proof. by intros log s. Qed.
Lemma keeps_catch {A B} (m : M AzState A) (k : result A -> M AzState B) :
  keeps m -> (forall r, keeps (k r)) -> keeps (catch m k).
Proof.
  intros Hm Hk log s Hs. unfold catch. specialize (Hm log s Hs).
  destruct (m s). by apply Hk.
Qed.
Lemma keeps_bind {A B} (m : M AzState A) (k : A -> M AzState B) :
  keeps m -> (forall a, keeps (k a)) -> keeps (bind m k).
Proof.
  intros Hm Hk log s Hs. unfold bind. specialize (Hm log s Hs).
  destruct (m s) as [[a|e] s']; [by apply Hk|done].
Qed.

(** Storing what the database holds keeps the invariant. *)
Lemma inv_set log s key v :
  az_inv log s -> sourced (az_provider s) key v ->
  az_inv log (set_cache s
    (cache_Set (az_now s) (az_cache s) key v grantsCacheTTL)).
Proof.
  intros [[l Hl] Hf] Hsrc. split; [by exists l|]. simpl.
  intros k w t Ht Hget. destruct (decide (key = k)) as [<-|Hne].
  - apply get_set_same in Hget as [-> Hle]. by eapply fresh_here.
  - apply get_set_other in Hget; [|done]. by apply Hf.
Qed.

Lemma keeps_getMemberships u : is_uint64 u -> keeps (getMemberships u).
Proof.
  intros Hid log s Hs. unfold getMemberships.
  repeat case_match; simpl; try done; apply inv_set; try done;
    by constructor.
Qed.

Lemma keeps_getProject p : is_uint64 p -> keeps (getProject p).
Proof.
  intros Hid log s Hs. unfold getProject.
  repeat case_match; simpl; try done; apply inv_set; try done;
    by constructor.
Qed.
Hint Resolve keeps_ret keeps_fail keeps_bind keeps_getMemberships : go.

Lemma keeps_Grants o u : is_uint64 u -> keeps (authorizer_Grants o u).
Proof. intros Hu. unfold authorizer_Grants. destruct (_ =? _)%Z; auto with go. Qed.

Lemma keeps_Project o p : is_uint64 p -> keeps (authorizer_Project o p).
Proof.
  intros Hp. unfold authorizer_Project. destruct (_ =? _)%Z; [auto with go|].
  apply keeps_catch; [by apply keeps_getProject|].
  intros [q|e]; case_match; auto with go.
Qed.

Lemma keeps_CheckRole o p u allowed :
  is_uint64 p -> is_uint64 u -> keeps (authorizer_CheckRole o p u allowed).
Proof.
  intros Hp Hu. unfold authorizer_CheckRole. apply keeps_bind.
  - case_match; [apply keeps_bind; [by apply keeps_Project|]|]; auto with go.
  - intros _. apply keeps_bind; [by apply keeps_Grants|]. intros g.
    case_match; auto with go.
Qed.

(** Dropping a key leaves no value under it and the others as fresh. *)
Lemma inv_drop log s key :
  az_inv log s ->
  az_inv (Snap (az_now s) (az_provider s) :: Dropped key :: log)
    (set_cache s (cache_Delete (az_cache s) key)).
Proof.
  intros [_ Hf]. split; [by eexists|]. simpl. intros k w t Ht Hget.
  destruct (decide (key = k)) as [<-|Hne].
  - by rewrite get_delete_same in Hget.
  - apply get_delete_other in Hget; [|done].
    apply fresh_cons; [apply fresh_cons; [by apply Hf|congruence]|done].
Qed.

Lemma history_inv log s : history log s -> az_inv log s.
Proof.
  induction 1 as [now p|log s now p _ [_ IH] Hle|log s o u _ IH Hu|log s o p _ IH Hp
    |log s o p u allowed _ IH Hp Hu|log s u _ IH|log s p _ IH].
  - split; [by eexists|]. simpl. intros key v t _ Hget.
    by rewrite get_new in Hget.
  - split; [by eexists|]. simpl. intros key v t Ht Hget.
    apply fresh_cons; [|done]. apply IH; [lia|done].
  - by apply keeps_Grants.
  - by apply keeps_Project.
  - by apply keeps_CheckRole.
  - by apply inv_drop.
  - by apply inv_drop.
Qed.

Lemma getMemberships_fresh log s u rows s' :
  az_inv log s -> is_uint64 u ->
  getMemberships u s = (Ok rows, s') ->
  fresh log (az_now s) (membershipsCacheKey (id_string u)) (CMemberships rows).
Proof.
  intros [[l Hl] Hf] Hu. unfold getMemberships.
  destruct (cache_Get _ _ _) as [[rows'|p]|] eqn:Eg.
  - intros [= <- <-]. by apply Hf.
  - destruct (ListMemberships _ _) eqn:El; [|done]. intros [= <- <-].
    eapply fresh_here; [done|by constructor|lia|unfold grantsCacheTTL; lia].
  - destruct (ListMemberships _ _) eqn:El; [|done]. intros [= <- <-].
    eapply fresh_here; [done|by constructor|lia|unfold grantsCacheTTL; lia].
Qed.

Lemma getProject_fresh log s p q s' :
  az_inv log s -> is_uint64 p ->
  getProject p s = (Ok q, s') ->
  fresh log (az_now s) (projectCacheKey (id_string p)) (CProject q).
Proof.
  intros [[l Hl] Hf] Hu. unfold getProject.
  destruct (cache_Get _ _ _) as [[rows'|q']|] eqn:Eg.
  - destruct (GetProject _ _) eqn:El; [|done]. intros [= <- <-].
    eapply fresh_here; [done|by constructor|lia|unfold grantsCacheTTL; lia].
  - intros [= <- <-]. by apply Hf.
  - destruct (GetProject _ _) eqn:El; [|done]. intros [= <- <-].
    eapply fresh_here; [done|by constructor|lia|unfold grantsCacheTTL; lia].
Qed.

(** What a successful check was judged by. *)
Definition judged (log : list az_event) (now orgID projectID userID : Z)
    (allowed : list string) (role : Role_Enum) : Prop :=
  exists rows,
    fresh log now (membershipsCacheKey (id_string userID))
      (CMemberships rows) /\
    role = HighestRole (Some (GrantsFromMemberships rows orgID userID))
             projectID allowed /\
    (projectID <> 0%Z -> exists q,
       fresh log now (projectCacheKey (id_string projectID)) (CProject q) /\
       p_OrgID q = orgID /\ p_Status q = ItemStatus_Active).

Lemma authorizer_Project_ok o p s q s' :
  authorizer_Project o p s = (Ok q, s') ->
  getProject p s = (Ok q, s') /\
  p_OrgID q = o /\ p_Status q = ItemStatus_Active.
Proof.
  unfold authorizer_Project, catch. destruct (o =? 0)%Z; [done|].
  destruct (getProject p s) as [[q'|e] s1].
  - destruct (Z.eqb_spec (p_OrgID q') o) as [Ho|]; simpl; [|done].
    case_bool_decide as Ha; [done|]. intros [= -> ->].
    split_and!; [done..|]. by destruct (decide (p_Status q = ItemStatus_Active)).
  - by destruct (IsNotFoundError e).
Qed.

Lemma keeps_now_Project o p s q s' :
  authorizer_Project o p s = (q, s') -> az_now s' = az_now s.
Proof.
  unfold authorizer_Project, catch, getProject, fail, ret. intros E.
  repeat case_match; simplify_eq/=; done.
Qed.

Lemma authorizer_Grants_ok o u s g s' :
  authorizer_Grants o u s = (Ok g, s') ->
  exists rows, getMemberships u s = (Ok rows, s') /\
    g = GrantsFromMemberships rows o u.
Proof.
  unfold authorizer_Grants, bind. destruct (o =? 0)%Z; [done|].
  destruct (getMemberships u s) as [[rows|e] s1]; [|done].
  intros [= <- <-]. eauto.
Qed.

(** C2: a successful role check is never older than the cache period nor
    than the last invalidation. In any history of database changes, calls
    and invalidations, the role was judged by the membership rows the
    database held at a moment at most three minutes earlier and not before
    the user was last invalidated; at project scope the project was active
    in the org at such a moment too. *)
Theorem CheckRole_staleness_bounded (log : list az_event) (s s' : AzState)
    (orgID projectID userID : Z) (allowed : list string)
    (role : Role_Enum) (g : Grants)
    (Hist : history log s) (Hp : is_uint64 projectID)
    (Hu : is_uint64 userID)
    (Hok : authorizer_CheckRole orgID projectID userID allowed s =
           (Ok (role, g), s')) :
  judged log (az_now s) orgID projectID userID allowed role.
Proof.
  apply history_inv in Hist. unfold authorizer_CheckRole in Hok.
  unfold bind at 1 in Hok.
  assert (forall s1, az_inv log s1 -> az_now s1 = az_now s ->
    (let! grants := authorizer_Grants orgID userID in
     let role := HighestRole (Some grants) projectID allowed in
     if bool_decide (role = Role_None) then fail ErrInsufficientRole
     else ret (role, grants)) s1 = (Ok (role, g), s') ->
    exists rows, fresh log (az_now s)
      (membershipsCacheKey (id_string userID)) (CMemberships rows) /\
    role = HighestRole (Some (GrantsFromMemberships rows orgID userID))
             projectID allowed) as Hrest.
  { intros s1 H1 Hn E. unfold bind in E.
    destruct (authorizer_Grants _ _ s1) as [[g1|e] s2] eqn:Eg; [|done].
    destruct (bool_decide _) in E; [done|]. injection E as <- <- <-.
    apply authorizer_Grants_ok in Eg as (rows & Em & ->).
    rewrite <-Hn. exists rows. split; [|done].
    by eapply getMemberships_fresh. }
  destruct (Z.eqb_spec projectID 0) as [->|Hne]; simpl in Hok.
  - destruct (Hrest s Hist eq_refl Hok) as (rows & ? & ?).
    exists rows. by split_and!.
  - unfold bind at 1 in Hok.
    destruct (authorizer_Project _ _ s) as [[q|e] s1] eqn:Ep; [|done].
    pose proof (keeps_now_Project _ _ _ _ _ Ep) as Hn.
    pose proof (keeps_Project orgID projectID Hp log s Hist) as Hi.
    rewrite Ep in Hi. destruct (Hrest s1 Hi Hn Hok) as (rows & ? & ?).
    apply authorizer_Project_ok in Ep as (Eq & ? & ?).
    exists rows. split_and!; [done..|]. intros _. exists q.
    split; [by eapply getProject_fresh|done].
Qed.
End staleness.

(** ** An instance of the cache: a map of values and expiry times *)

#[export] Instance memory_cache : Cache := {|
  cache := gmap string (cached * Z);
  NewMemoryProvider := ∅;
  cache_Get now c k :=
    match c !! k with
    | Some (v, e) => if (now <=? e)%Z then Some v else None
    | None => None
    end;
  cache_Set now c k v ttl := <[k := (v, (now + ttl)%Z)]> c;
  cache_Delete c k := delete k c |}.

#[export] Instance memory_cache_laws : @CacheLaws memory_cache.
Proof.
  constructor; simpl.
  - intros now k. by rewrite lookup_empty.
  - intros now t c k v ttl w. rewrite lookup_insert_eq.
    destruct (Z.leb_spec t (now + ttl)); [|done]. by intros [= ->].
  - intros now t c k k' v ttl w Hne. by rewrite lookup_insert_ne.
  - intros now c k. by rewrite lookup_delete_eq.
  - intros now c k k' w Hne. by rewrite lookup_delete_ne.
  - intros now t c k w Hle. destruct (c !! k) as [[v e]|]; [|done].
    destruct (Z.leb_spec t e), (Z.leb_spec now e); try done; lia.
Qed.

#[export] Instance memory_cache_no_eviction : @CacheNoEviction memory_cache.
Proof. intros now t c k k' v ttl Hne. simpl. by rewrite lookup_insert_ne. Qed.

(** A database with the example rows and an active project 5 of org 7. *)
Definition example_provider : GrantsProvider := {|
  ListMemberships req :=
    Ok (List.filter (fun m => mi_UserID m =? lm_UserID req)%Z example_rows);
  GetProject id :=
    if (id =? 5)%Z
    then Ok (mkProject 5 7 "pki" "PKI" "" ItemStatus_Active 1 1)
    else Err NoRows |}.

(** The Admin role of the example, judged one minute after the first read. *)
Lemma CheckRole_staleness_bounded_witness :
  judged [Snap 60000 example_provider; Snap 0 example_provider]
    60000 7 5 3 ["Admin"]%string Role_Admin.
Proof.
  set (s0 := NewAuthorizer 0 example_provider).
  set (s1 := (authorizer_Grants 7 3 s0).2).
  set (s2 := mkAz 60000 example_provider (az_cache s1)).
  apply (CheckRole_staleness_bounded
    [Snap 60000 example_provider; Snap 0 example_provider] s2
    (authorizer_CheckRole 7 5 3 ["Admin"]%string s2).2 7 5 3 ["Admin"]%string
    Role_Admin (GrantsFromMemberships example_rows 7 3)).
  - apply (hist_world _ s1); [|vm_compute; discriminate].
    apply hist_grants; [apply hist_new|by split].
  - by split.
  - by split.
  - vm_compute. reflexivity.
Defined.
