(* ===== verification/Methods.v ===== *)
(** The method table of the public API: [api/pb/allocator.pb.go], with the
    roles and scopes each method declares ([es.api.allowed_roles] and
    [es.api.scopes]), and the names of the admin methods of [privpb]. *)
From S2P Require Import Prelude GoStrings Roles Scopes.
From stdpp Require Import base list strings.

Record MethodInfo := mkMethod {
  AllowedRoles : list string; MethodScopes : list string }.

Definition methods : list (string * MethodInfo) :=
  [ ("/pb.Auth/GetProviders", mkMethod [] []);
    ("/pb.Auth/GetUserToken", mkMethod [] []);
    ("/pb.Auth/RevokeToken", mkMethod [] []);
    ("/pb.Auth/Caller", mkMethod [] []);
    ("/pb.Auth/ExchangeCode", mkMethod [] []);
    ("/pb.Auth/SelectOrg", mkMethod [] []);
    ("/pb.Auth/AuthenticateAPIKey", mkMethod [] []);
    ("/pb.Auth/GetAllowedMethods", mkMethod [] []);
    ("/pb.Auth/GetCallerScope", mkMethod [] []);
    ("/pb.CA/RegisterIssuer", mkMethod ["Admin"] ["ca:write"]);
    ("/pb.CA/UpdateIssuer", mkMethod ["Admin"] ["ca:write"]);
    ("/pb.CA/ImportIssuer", mkMethod ["Admin"] ["ca:write"]);
    ("/pb.CA/ActivateIssuer", mkMethod ["Admin"] ["ca:write"]);
    ("/pb.CA/GetIssuer", mkMethod ["Viewer"; "APIKey"] ["ca:read"]);
    ("/pb.CA/ListIssuers", mkMethod ["Viewer"; "APIKey"] ["ca:read"]);
    ("/pb.CA/RegisterRoot", mkMethod ["Admin"] ["ca:write"]);
    ("/pb.CA/ListRoots", mkMethod ["Viewer"; "APIKey"] ["ca:read"]);
    ("/pb.CA/RegisterProfile", mkMethod ["Admin"] ["ca:write"]);
    ("/pb.CA/GetProfile", mkMethod ["Viewer"; "APIKey"] ["ca:read"]);
    ("/pb.CA/ListProfiles", mkMethod ["Viewer"; "APIKey"] ["ca:read"]);
    ("/pb.CA/DeleteProfile", mkMethod ["Admin"] ["ca:write"]);
    ("/pb.CA/SignCertificate", mkMethod ["User"; "APIKey"] ["certs:issue"]);
    ("/pb.CA/GetCertificate", mkMethod ["Viewer"; "APIKey"] ["certs:read"]);
    ("/pb.CA/ListCertificates", mkMethod ["Viewer"; "APIKey"] ["certs:read"]);
    ("/pb.CA/UpdateCertificateLabel", mkMethod ["User"; "APIKey"] ["certs:issue"]);
    ("/pb.CA/RevokeCertificate", mkMethod ["User"; "APIKey"; "Security"] ["certs:revoke"]);
    ("/pb.CA/ListRevokedCertificates", mkMethod ["Viewer"; "APIKey"] ["certs:read"]);
    ("/pb.CA/GetCRL", mkMethod ["Viewer"; "APIKey"] ["certs:read"]);
    ("/pb.CA/PublishCrls", mkMethod ["Admin"; "Security"; "APIKey"] ["ca:write"]);
    ("/pb.CA/SignOCSP", mkMethod ["Admin"; "Security"] ["ca:write"]);
    ("/pb.CA/GetSummary", mkMethod ["Viewer"; "APIKey"] ["ca:read"]);
    ("/pb.CIS/GetRoots", mkMethod [] []);
    ("/pb.CIS/GetIssuer", mkMethod [] []);
    ("/pb.CIS/GetCertificate", mkMethod [] []);
    ("/pb.CIS/GetCertificateStatus", mkMethod [] []);
    ("/pb.CIS/GetCRL", mkMethod [] []);
    ("/pb.Orgs/RegisterOrg", mkMethod [] []);
    ("/pb.Orgs/GetOrg", mkMethod ["Viewer"; "APIKey"] ["org:read"]);
    ("/pb.Orgs/UpdateOrg", mkMethod ["Admin"] []);
    ("/pb.Orgs/DeleteOrg", mkMethod ["Owner"] []);
    ("/pb.Orgs/GetUserOrgs", mkMethod [] []);
    ("/pb.Orgs/GetUserMemberships", mkMethod ["Viewer"] []);
    ("/pb.Orgs/GetMembers", mkMethod ["Support"; "Security"] []);
    ("/pb.Orgs/AddMember", mkMethod ["Admin"] []);
    ("/pb.Orgs/ChangeMemberRole", mkMethod ["Admin"] []);
    ("/pb.Orgs/DeleteMember", mkMethod ["Admin"] []);
    ("/pb.Orgs/DeleteInvite", mkMethod ["Admin"] []);
    ("/pb.Orgs/RegisterProject", mkMethod ["Admin"] []);
    ("/pb.Orgs/UpdateProject", mkMethod ["Admin"] []);
    ("/pb.Orgs/GetProject", mkMethod ["Viewer"; "APIKey"] ["project:read"]);
    ("/pb.Orgs/ListProjects", mkMethod ["Viewer"; "APIKey"] ["org:read"]);
    ("/pb.Orgs/DeleteProject", mkMethod ["Admin"] []);
    ("/pb.Orgs/ListEvents", mkMethod ["Viewer"; "APIKey"] ["org:read"]);
    ("/pb.Orgs/CreateAPIKey", mkMethod ["Admin"] []);
    ("/pb.Orgs/ListAPIKeys", mkMethod ["Admin"] []);
    ("/pb.Orgs/DeleteAPIKey", mkMethod ["Admin"] []);
    ("/pb.Status/Version", mkMethod [] []);
    ("/pb.Status/Server", mkMethod [] []) ]%string.

Definition GetMethodInfo (method : string) : option MethodInfo :=
  map_get methods method.

Definition GetMethodsInfo : list (string * MethodInfo) := methods.

Definition adminServicePrefix : string := "/privpb.Admin/".

(** The method names of [privpb]'s table. *)
Definition privpb_methods : list string :=
  [ "/privpb.Admin/ListOrgs";
    "/privpb.Admin/ListProjects";
    "/privpb.Admin/ListIssuers";
    "/privpb.Admin/ListCertificates";
    "/privpb.Backend/RegisterIssuer";
    "/privpb.Backend/ImportIssuer";
    "/privpb.Backend/ActivateIssuer";
    "/privpb.Backend/UpdateIssuer";
    "/privpb.Backend/GetIssuer";
    "/privpb.Backend/ListIssuers";
    "/privpb.Backend/RegisterRoot";
    "/privpb.Backend/ListRoots";
    "/privpb.Backend/RegisterProfile";
    "/privpb.Backend/GetProfile";
    "/privpb.Backend/ListProfiles";
    "/privpb.Backend/DeleteProfile";
    "/privpb.Backend/SignCertificate";
    "/privpb.Backend/GetCertificate";
    "/privpb.Backend/ListCertificates";
    "/privpb.Backend/UpdateCertificateLabel";
    "/privpb.Backend/RevokeCertificate";
    "/privpb.Backend/ListRevokedCertificates";
    "/privpb.Backend/GetCRL";
    "/privpb.Backend/PublishCrls";
    "/privpb.Backend/SignOCSP";
    "/privpb.Backend/GetSummary" ]%string.

Definition GetAdminMethodsInfo : list string :=
  List.filter (fun name => HasPrefix name adminServicePrefix) privpb_methods.

Lemma methods_unique : NoDup (methods.*1).
Proof. apply (bool_decide_unpack (NoDup _)). vm_compute. exact I. Qed.

Lemma GetMethodInfo_elem name info :
  (name, info) ∈ methods -> GetMethodInfo name = Some info.
Proof.
  unfold GetMethodInfo. generalize methods_unique. generalize methods.
  induction l as [|[k v] l IH]; intros Hnd Hin;
    [by apply not_elem_of_nil in Hin|].
  rewrite fmap_cons, NoDup_cons in Hnd. destruct Hnd as [Hni Hnd]. simpl.
  apply elem_of_cons in Hin as [[= -> ->]|Hin]; [by rewrite bool_decide_true|].
  rewrite bool_decide_false; [by apply IH|]. intros ->. apply Hni.
  by apply (list_elem_of_fmap_2 fst) in Hin.
Qed.
