(* ===== verification/Access.v ===== *)
(** Access control: [internal/authctx/ctx.go], [authz.go] and [allowed.go].

    A call carries an authenticated identity; [NewTrustyCtx] turns it into the
    caller's context, [CheckAccess] authorizes an action for it, and the two
    interceptors run the handler.  [permitted] is the declarative
    authorization; the code is proved to decide it against the contract of the
    authorizer. *)
From S2P Require Import Prelude Xdb GoStrings Roles Scopes Tenancy Grants.
From S2P Require Import Authorizer Methods.
From stdpp Require Import base list gmap strings sorting.
From Stdlib Require Import Ascii.

(** ** The caller's context *)

Record TrustyCtx := mkTrusty {
  tc_userID : Z; tc_userName : string; tc_userEmail : string;
  tc_orgID : Z; tc_orgRole : Role_Enum; tc_projectID : Z;
  tc_scopes : list string; tc_appRole : string; tc_userAgent : string;
  tc_target : string; tc_authMethod : string }.

Definition emptyTrusty : TrustyCtx :=
  mkTrusty 0 "" "" 0 Role_None 0 [] "" "" "" "".

Definition IsAPIKey (t : TrustyCtx) : bool :=
  bool_decide (tc_orgRole t = Role_APIKey).

(** The serialized state of the context, forwarded between services. *)
Record trustycaCtxState := mkCtxState {
  cs_UserID : Z; cs_Name : string; cs_Email : string; cs_OrgID : Z;
  cs_OrgRole : Role_Enum; cs_ProjectID : Z; cs_Scopes : list string;
  cs_AppRole : string; cs_Target : string; cs_UserAgent : string;
  cs_AuthMethod : string }.

(** The identity the listener authenticated ([porto/xhttp/identity]): the
    role, tenant and subject, and the token claims the program reads;
    [id_jwt] is the name and email when the claims decode. *)
Record Identity := mkIdentity {
  id_Role : string; id_Tenant : string; id_Subject : string;
  id_AuthMethod : string; id_jwt : option (string * string);
  id_claimOrgRole : string; id_claimScope : list string;
  id_claimProject : string; id_Target : string; id_UserAgent : string }.

(** The Go context of a call: the identity, the stored caller's context, and
    the incoming and outgoing gRPC metadata. *)
Record Context := mkContext {
  ctx_identity : Identity; ctx_trusty : option TrustyCtx;
  ctx_incoming : list (string * string);
  ctx_outgoing : list (string * string) }.

(** A request, by the two getters the checks use: [None] when the message
    has no such field. *)
Record Request := mkRequest {
  GetOrgID : option string; GetProjectID : option string }.

Definition FromContext (ctx : Context) : TrustyCtx :=
  match ctx_trusty ctx with Some t => t | None => emptyTrusty end.

Definition trustycaContextGRPCHeaderName : string := "x-trustyca-context".
Definition ServiceRolePrefix : string := "trustyca-".
Definition PeerRoleName : string := "trustyca-peer".
Definition identityServicePrefix : string := "/pb.Auth/".
Definition backendMethodPrefix : string := "/privpb.Backend/".
Definition caMethodPrefix : string := "/pb.CA/".

(** JSON encoding of the forwarded state: [xdb.ID] and the identity types
    bring their own encodings, so the codec is a parameter. *)
Class CtxCodec := {
  ctx_marshal : trustycaCtxState -> option string;
  ctx_unmarshal : string -> option trustycaCtxState }.
Class CtxCodecLaws `{CtxCodec} :=
  ctx_roundtrip st js : ctx_marshal st = Some js -> ctx_unmarshal js = Some st.

Definition ctxState (t : TrustyCtx) : trustycaCtxState :=
  mkCtxState (tc_userID t) (tc_userName t) (tc_userEmail t) (tc_orgID t)
    (tc_orgRole t) (tc_projectID t) (tc_scopes t) (tc_appRole t) (tc_target t)
    (tc_userAgent t) (tc_authMethod t).

Definition ctxOfState (ss : trustycaCtxState) : TrustyCtx :=
  mkTrusty (cs_UserID ss) (cs_Name ss) (cs_Email ss) (cs_OrgID ss)
    (cs_OrgRole ss) (cs_ProjectID ss) (cs_Scopes ss) (cs_AppRole ss)
    (cs_UserAgent ss) (cs_Target ss) (cs_AuthMethod ss).

Section ctx.
Context `{Xdb, CtxCodec}.

(** [ID.Set] on a zero ID: the parsed value, or zero when it does not parse. *)
Definition id_set (s : string) : Z :=
  match parse_id s with Some n => n | None => 0%Z end.

(** The context [NewTrustyCtx] builds for the identity. *)
Definition trustyOf (idn : Identity) : TrustyCtx :=
  if EqualFold (id_Role idn) "guest" then
    mkTrusty 0 "" "" 0 Role_None 0 [] (id_Role idn) (id_UserAgent idn)
      (id_Target idn) (id_AuthMethod idn)
  else
    let '(name, email) :=
      match id_jwt idn with Some ne => ne | None => (""%string, ""%string) end in
    mkTrusty (id_set (id_Subject idn)) name email (id_set (id_Tenant idn))
      (ParseRole (id_claimOrgRole idn)) (id_set (id_claimProject idn))
      (id_claimScope idn) (id_Role idn) (id_UserAgent idn) (id_Target idn)
      (id_AuthMethod idn).

Definition NewTrustyCtx (ctx : Context) (idn : Identity) : Context :=
  let rctx := trustyOf idn in
  let ctx' := mkContext (ctx_identity ctx) (Some rctx) (ctx_incoming ctx)
                (ctx_outgoing ctx) in
  match ctx_marshal (ctxState rctx) with
  | None => ctx'
  | Some js =>
      mkContext (ctx_identity ctx') (ctx_trusty ctx') (ctx_incoming ctx')
        (ctx_outgoing ctx' ++ [(trustycaContextGRPCHeaderName, js)])
  end.

(** [Handler] keeps a context that is already set. *)
Definition Handler (ctx : Context) : Context :=
  match ctx_trusty ctx with
  | None => NewTrustyCtx ctx (ctx_identity ctx)
  | Some _ => ctx
  end.
End ctx.

(** ** Authorization *)

Definition denied (msg : string) : error := Grpc PermissionDenied msg.

Section access.
Context `{Xdb, CtxCodec} {S : Type} `{Authorizer S}.

(** [", action: " ++ action] *)
Definition withAction (msg action : string) : string :=
  (msg ++ ", action: " ++ action)%string.

(** The project of the request: zero when it names none, [None] when its ID
    does not parse. *)
Definition requestProject (req : Request) : option Z :=
  match GetProjectID req with
  | None => Some 0%Z
  | Some pid => if bool_decide (pid = EmptyString) then Some 0%Z
                else parse_id pid
  end.

Definition orgMismatch (req : Request) (orgID : Z) : bool :=
  match GetOrgID req with
  | None => false
  | Some reqOrg => bool_decide (reqOrg <> EmptyString) &&
                   bool_decide (reqOrg <> id_string orgID)
  end.

Definition checkAPIKeyAccess (tctx : TrustyCtx) (rule : MethodInfo)
    (action : string) (orgID projectID : Z) : M S unit :=
  if negb (AllowsRole (AllowedRoles rule) Role_APIKey)
  then fail (denied (withAction "API key not allowed" action))
  else
  let keyProject := tc_projectID tctx in
  let! projectID :=
    (if negb (keyProject =? 0)%Z then
       if (projectID =? 0)%Z then ret keyProject
       else if negb (projectID =? keyProject)%Z
       then fail (denied (withAction "project mismatch" action))
       else ret projectID
     else ret projectID) in
  let! _ :=
    (if negb (projectID =? 0)%Z then
       catch (az_Project orgID projectID) (fun r =>
         match r with
         | Err _ => fail (denied (withAction (Error ErrAccessDenied) action))
         | Ok _ => ret tt
         end)
     else ret tt) in
  if negb (HasScopes (tc_scopes tctx) (ParseScopes (MethodScopes rule)))
  then fail (denied (withAction "insufficient scope" action))
  else ret tt.

Definition CheckAccess (ctx : Context) (req : Request) (action : string)
  : M S unit :=
  let tctx := FromContext ctx in
  let appRole := tc_appRole tctx in
  let isStatusService := HasPrefix action "/pb.Status" in
  let isPrivpbService := HasPrefix action "/privpb." in
  let afterRoles :=
    if isPrivpbService then fail (denied "access denied") else ret tt in
  if isPrivpbService || isStatusService then
    if HasPrefix appRole "trustyca-viewer" then
      if bool_decide (action = "/privpb.Admin/SupportTenant"%string) ||
         HasPrefix action "/privpb.Admin/Get" ||
         HasPrefix action "/privpb.Admin/List"
      then ret tt else afterRoles
    else if HasPrefix appRole "trustyca-admin" then ret tt
    else if HasPrefix appRole ServiceRolePrefix then ret tt
    else afterRoles
  else if HasPrefix action identityServicePrefix then ret tt
  else match GetMethodInfo action with
  | None => ret tt
  | Some rule =>
  if bool_decide (AllowedRoles rule = []) then ret tt
  else if bool_decide (appRole = EmptyString) || EqualFold appRole "guest"
  then fail (Grpc Unauthenticated "access denied")
  else if HasPrefix appRole ServiceRolePrefix then ret tt
  else
  let orgID := tc_orgID tctx in
  if (orgID =? 0)%Z
  then fail (denied (withAction "org not selected" action))
  else if orgMismatch req orgID
  then fail (denied (withAction "org mismatch" action))
  else match requestProject req with
  | None => fail (Grpc InvalidArgument "invalid project ID")
  | Some projectID =>
  if IsAPIKey tctx
  then checkAPIKeyAccess tctx rule action orgID projectID
  else catch (az_CheckRole orgID projectID (tc_userID tctx)
                (AllowedRoles rule)) (fun r =>
    match r with
    | Err err =>
        if errors_Is err ErrInsufficientRole || errors_Is err ErrAccessDenied
           || errors_Is err ErrOrgNotSelected
        then fail (denied (withAction (Error err) action))
        else fail (GrpcCause PermissionDenied
                     (withAction "access denied" action) err)
    | Ok _ =>
        let scopes := tc_scopes tctx in
        if bool_decide (scopes <> []) &&
           negb (HasScopes scopes (ParseScopes (MethodScopes rule)))
        then fail (denied (withAction "insufficient scope" action))
        else ret tt
    end)
  end end.

(** ** The interceptors *)

Definition UnaryHandler (A : Type) := Context -> Request -> M S A.

Definition NewAuthUnaryInterceptor {A} (handler : UnaryHandler A)
    (ctx : Context) (req : Request) (fullMethod : string) : M S A :=
  let ctx' := NewTrustyCtx ctx (ctx_identity ctx) in
  let! _ := CheckAccess ctx' req fullMethod in
  handler ctx' req.

(** [md.Get(key)]: the values of the key, in order. *)
Definition mdGet (md : list (string * string)) (key : string) : list string :=
  snd <$> List.filter (fun kv => bool_decide (kv.1 = key)) md.

(** The pb.CA method of the same name as a backend method. *)
Definition caAction (fullMethod : string) : string :=
  match CutPrefix fullMethod backendMethodPrefix with
  | Some name => caMethodPrefix ++ name
  | None => fullMethod
  end.

Definition NewAuthUnaryBackendInterceptor {A} (handler : UnaryHandler A)
    (ctx : Context) (req : Request) (fullMethod : string) : M S A :=
  let idn := ctx_identity ctx in
  match mdGet (ctx_incoming ctx) trustycaContextGRPCHeaderName with
  | [] => handler (NewTrustyCtx ctx idn) req
  | js :: _ =>
      if bool_decide (id_Role idn <> PeerRoleName)
      then handler (NewTrustyCtx ctx idn) req
      else match ctx_unmarshal js with
      | None => fail (Grpc Unauthenticated "invalid forwarded context")
      | Some ss =>
          let ctx' := mkContext (ctx_identity ctx) (Some (ctxOfState ss))
                        (ctx_incoming ctx) (ctx_outgoing ctx) in
          let! _ := CheckAccess ctx' req (caAction fullMethod) in
          handler ctx' req
      end
  end.

(** ** The methods a caller may call *)

Definition methodAllowed (tctx : TrustyCtx) (grants : option Grants)
    (rule : option MethodInfo) : bool :=
  match rule with
  | None => true
  | Some rule =>
      if bool_decide (AllowedRoles rule = []) then true
      else if IsAPIKey tctx then
        AllowsRole (AllowedRoles rule) Role_APIKey &&
        HasScopes (tc_scopes tctx) (ParseScopes (MethodScopes rule))
      else match grants with
      | None => false
      | Some _ =>
          if bool_decide (HighestRole grants 0 (AllowedRoles rule) = Role_None)
          then false
          else negb (bool_decide (tc_scopes tctx <> []) &&
                 negb (HasScopes (tc_scopes tctx)
                         (ParseScopes (MethodScopes rule))))
      end
  end.

(** The grants [GetAllowedMethods] and [GetCallerScope] judge by. *)
Definition callerGrants (tctx : TrustyCtx) : M S (option Grants) :=
  if negb (IsAPIKey tctx) && negb (tc_orgID tctx =? 0)%Z
  then let! g := az_Grants (tc_orgID tctx) (tc_userID tctx) in ret (Some g)
  else ret None.

Definition allowedHere (tctx : TrustyCtx) (grants : option Grants)
    (name : string) (info : MethodInfo) : bool :=
  HasPrefix name identityServicePrefix || methodAllowed tctx grants (Some info).

(** [addMethod]: the service and the method of ["/pkg.Service/Method"]. *)
Definition splitMethod (name prefix : string) : option (string * string) :=
  match Split "/"%char name with
  | _ :: svc :: m :: _ => Some (TrimPrefix svc prefix, m)
  | _ => None
  end.

Definition str_le (a b : string) : Prop := String.leb a b = true.

(** The result lists, by service, the method keys and full names. *)
Definition AllowedMethods_msg : Type := string * list (string * string).

Fixpoint addMethod (acc : list AllowedMethods_msg)
    (service key name : string) : list AllowedMethods_msg :=
  match acc with
  | [] => [(service, [(key, name)])]
  | (svc, ms) :: rest =>
      if bool_decide (svc = service) then (svc, ms ++ [(key, name)]) :: rest
      else (svc, ms) :: addMethod rest service key name
  end.

Definition addNames (prefix : string) (names : list string)
    (acc : list AllowedMethods_msg) : list AllowedMethods_msg :=
  foldl (fun acc name =>
    match splitMethod name prefix with
    | Some (svc, m) => addMethod acc svc m name
    | None => acc
    end) acc names.

#[global] Instance str_le_dec : RelDecision (fun a b => str_le a b).
Proof. intros a b. unfold str_le. apply _. Defined.
#[global] Instance str_le_fst_dec {A} :
  RelDecision (fun a b : string * A => str_le a.1 b.1).
Proof. intros a b. unfold str_le. apply _. Defined.

Definition GetAllowedMethods (ctx : Context) : M S (list AllowedMethods_msg) :=
  let tctx := FromContext ctx in
  let! grants := callerGrants tctx in
  let names := fst <$> List.filter (fun ni => allowedHere tctx grants ni.1 ni.2)
                 GetMethodsInfo in
  let byService := addNames "pb." names [] in
  let byService :=
    if HasPrefix (tc_appRole tctx) ServiceRolePrefix
    then addNames "privpb." GetAdminMethodsInfo byService else byService in
  ret (merge_sort (fun a b => str_le a.1 b.1)
         ((fun si => (si.1, merge_sort (fun a b => str_le a.1 b.1) si.2))
            <$> byService)).

Definition ProjectFromRequest (req : Request) : result Z :=
  match requestProject req with
  | Some p => Ok p
  | None => Err (OtherError "invalid ID")
  end.

Record MethodAccess := mkAccess {
  ma_Method : string; ma_AllowedRoles : list string;
  ma_Scopes : list string; ma_Allowed : bool }.

Record CallerScope := mkCallerScope {
  cl_OrgID : string; cl_ProjectID : string; cl_Role : Role_Enum;
  cl_RoleSource : RoleSource_Enum; cl_ProjectRoles : gmap string string;
  cl_Scopes : list string; cl_IsAPIKey : bool;
  cl_Methods : list MethodAccess }.

#[global] Instance ma_le_dec :
  RelDecision (fun a b : MethodAccess => str_le (ma_Method a) (ma_Method b)).
Proof. intros a b. unfold str_le. apply _. Defined.

Definition GetCallerScope (ctx : Context) : M S CallerScope :=
  let tctx := FromContext ctx in
  let! grants := callerGrants tctx in
  let '(role, source) :=
    if IsAPIKey tctx then (Role_APIKey, RoleSource_Direct)
    else match grants with
         | Some _ => ResolvedOrgRole grants
         | None => (Role_None, RoleSource_Unknown)
         end in
  let projectRoles :=
    match grants with
    | Some g => list_to_map ((fun pr => (id_string pr.1, Role_String pr.2))
                  <$> map_to_list (g_ProjectRoles g))
    | None => ∅
    end in
  ret (mkCallerScope
    (if (tc_orgID tctx =? 0)%Z then "" else id_string (tc_orgID tctx))
    (if (tc_projectID tctx =? 0)%Z then "" else id_string (tc_projectID tctx))
    role source projectRoles (tc_scopes tctx) (IsAPIKey tctx)
    (merge_sort (fun a b => str_le (ma_Method a) (ma_Method b))
      ((fun ni => mkAccess ni.1 (AllowedRoles ni.2)
          (ParseScopes (MethodScopes ni.2)) (allowedHere tctx grants ni.1 ni.2))
        <$> GetMethodsInfo))).
End access.

(** ** What the code decides *)

(** The read-only actions of a viewer role of the admin service. *)
Definition viewer_action (action : string) : bool :=
  bool_decide (action = "/privpb.Admin/SupportTenant"%string) ||
  HasPrefix action "/privpb.Admin/Get" || HasPrefix action "/privpb.Admin/List".

Definition guest (role : string) : bool :=
  bool_decide (role = EmptyString) || EqualFold role "guest".

Section permitted.
Context `{Xdb} (v : AzView).

(** The project is zero, or an active project of the org. *)
Definition project_ok (orgID pid : Z) : Prop :=
  pid = 0%Z \/
  exists p, view_project v pid = Ok p /\ p_OrgID p = orgID /\
    p_Status p = ItemStatus_Active.

(** A user may call the method: one of its roles at the scope of the request
    can assume an allowed role, and a scoped token covers its scopes. *)
Definition user_permitted (t : TrustyCtx) (rule : MethodInfo) (pid : Z)
  : Prop :=
  project_ok (tc_orgID t) pid /\
  (exists rows r a, view_rows v (tc_userID t) = Ok rows /\
     acts_as rows (tc_orgID t) (tc_userID t) pid r /\
     a ∈ AllowedRoles rule /\ can_assume r (ParseRole (TrimSpace a))) /\
  (tc_scopes t = [] \/
   HasScopes (tc_scopes t) (ParseScopes (MethodScopes rule)) = true).

(** An API key may call the method: APIKey is listed, the request stays in
    the project of the key, and the key covers the scopes. *)
Definition key_permitted (t : TrustyCtx) (rule : MethodInfo) (pid : Z)
  : Prop :=
  (exists a, a ∈ AllowedRoles rule /\ ParseRole (TrimSpace a) = Role_APIKey) /\
  (pid = 0%Z \/ tc_projectID t = 0%Z \/ pid = tc_projectID t) /\
  project_ok (tc_orgID t) (if (pid =? 0)%Z then tc_projectID t else pid) /\
  HasScopes (tc_scopes t) (ParseScopes (MethodScopes rule)) = true.

(** The authorization of an action for a caller, as the code decides it.  The
    status methods are open to every caller ([perm_status]), an anonymous one
    included: the doc comment of [CheckAccess] and section 3.5 of the design
    restrict them to the service roles, the code does so for the internal
    services ([perm_viewer], [perm_internal]) only. *)
Inductive permitted (t : TrustyCtx) (req : Request) (action : string) : Prop :=
| perm_status : HasPrefix action "/pb.Status" = true -> permitted t req action
| perm_viewer :
    HasPrefix action "/privpb." = true -> viewer_action action = true ->
    HasPrefix (tc_appRole t) "trustyca-viewer" = true ->
    permitted t req action
| perm_internal :
    HasPrefix action "/privpb." = true ->
    HasPrefix (tc_appRole t) "trustyca-viewer" = false ->
    HasPrefix (tc_appRole t) ServiceRolePrefix = true ->
    permitted t req action
| perm_identity :
    HasPrefix action identityServicePrefix = true -> permitted t req action
| perm_open :
    HasPrefix action "/privpb." = false ->
    (forall rule, GetMethodInfo action = Some rule -> AllowedRoles rule = []) ->
    permitted t req action
| perm_service rule :
    GetMethodInfo action = Some rule ->
    HasPrefix action "/privpb." = false ->
    HasPrefix (tc_appRole t) ServiceRolePrefix = true ->
    permitted t req action
| perm_tenant rule pid :
    GetMethodInfo action = Some rule ->
    HasPrefix action "/privpb." = false ->
    guest (tc_appRole t) = false ->
    tc_orgID t <> 0%Z -> orgMismatch req (tc_orgID t) = false ->
    requestProject req = Some pid ->
    (if IsAPIKey t then key_permitted t rule pid
     else user_permitted t rule pid) ->
    permitted t req action.
End permitted.

Lemma view_Project_spec v orgID pid :
  orgID <> 0%Z -> pid <> 0%Z ->
  (exists p, view_Project v orgID pid = Ok p) <-> project_ok v orgID pid.
Proof.
  intros Ho Hp. unfold view_Project, project_ok.
  rewrite (proj2 (Z.eqb_neq _ _) Ho). split.
  - intros [p E]. right. destruct (view_project v pid) as [q|e]; [|done].
    destruct (Z.eqb_spec (p_OrgID q) orgID); simpl in E; [|done].
    case_bool_decide; [|done]. injection E as ->. eauto.
  - intros [?|(p & -> & <- & Ha)]; [done|]. exists p.
    by rewrite Z.eqb_refl, bool_decide_true.
Qed.

Lemma view_CheckRole_spec v orgID pid userID allowed :
  orgID <> 0%Z ->
  (forall rows, view_rows v userID = Ok rows -> unique_grants rows) ->
  allowed <> [] ->
  (exists rg, view_CheckRole v orgID pid userID allowed = Ok rg) <->
  project_ok v orgID pid /\
  exists rows r a, view_rows v userID = Ok rows /\
    acts_as rows orgID userID pid r /\
    a ∈ allowed /\ can_assume r (ParseRole (TrimSpace a)).
Proof.
  intros Ho Hu Ha. unfold view_CheckRole, result_bind.
  assert ((exists u, (if (pid =? 0)%Z then Ok tt else
            match view_Project v orgID pid with
            | Ok _ => Ok tt | Err e => Err e end) = Ok u) <->
          project_ok v orgID pid) as Hproj.
  { destruct (Z.eqb_spec pid 0) as [->|Hp].
    - split; [by left|by eauto].
    - rewrite <-view_Project_spec by done.
      destruct (view_Project v orgID pid); naive_solver. }
  destruct (if (pid =? 0)%Z then Ok tt else _) as [u|e]; cycle 1.
  { split; [by intros []|]. intros [Hp _]. apply Hproj in Hp as [? ?]. done. }
  assert (project_ok v orgID pid) as Hpok by (apply Hproj; eauto).
  unfold view_Grants, result_bind. rewrite (proj2 (Z.eqb_neq _ _) Ho).
  destruct (view_rows v userID) as [rows|e]; cycle 1.
  { split; [by intros []|]. by intros [_ (rows & ? & ? & ? & _)]. }
  specialize (Hu rows eq_refl).
  pose proof (HighestRole_acts rows orgID userID pid allowed Hu Ha) as Hx.
  case_bool_decide as Hn.
  - split; [by intros []|]. intros [_ (rows' & r & a & [= <-] & ?)].
    by destruct (proj2 Hx); [eauto|].
  - split; [|by eauto]. intros _. split; [done|].
    apply Hx in Hn as (r & a & ?). eauto.
Qed.

Section decision.
Context `{XL : XdbLaws, CtxCodec} {S : Type} `{AC : AuthorizerContract S}.

Lemma requestProject_range req pid :
  requestProject req = Some pid -> is_uint64 pid.
Proof.
  assert (is_uint64 0) as Hz by (unfold is_uint64, max_uint64; lia).
  unfold requestProject. destruct (GetProjectID req) as [p|].
  - case_bool_decide; [by intros [= <-]|]. apply parse_id_range.
  - by intros [= <-].
Qed.

(** The project an API key acts in: [None] when the request leaves the
    project of the key. *)
Definition keyProject (t : TrustyCtx) (pid : Z) : option Z :=
  if (tc_projectID t =? 0)%Z then Some pid
  else if (pid =? 0)%Z then Some (tc_projectID t)
  else if (pid =? tc_projectID t)%Z then Some pid else None.

Lemma keyProject_spec t pid q :
  keyProject t pid = Some q <->
  (pid = 0%Z \/ tc_projectID t = 0%Z \/ pid = tc_projectID t) /\
  q = (if (pid =? 0)%Z then tc_projectID t else pid).
Proof.
  unfold keyProject. destruct (Z.eqb_spec (tc_projectID t) 0),
    (Z.eqb_spec pid 0), (Z.eqb_spec pid (tc_projectID t));
    naive_solver congruence.
Qed.

(** The scope part of the key check, once the project is known. *)
Lemma az_Project_ok o p s :
  o <> 0%Z -> p <> 0%Z -> is_uint64 p ->
  (exists q, (az_Project o p s).1 = Ok q) <-> project_ok (az_view s) o p.
Proof.
  intros Ho Hp Hr. rewrite <-view_Project_spec by done.
  destruct (az_Project_view (az_view s) o p Hr s) as [-> _]; done.
Qed.

Lemma checkAPIKeyAccess_spec t rule action o pid s :
  o <> 0%Z -> is_uint64 pid -> is_uint64 (tc_projectID t) ->
  tc_orgID t = o ->
  (checkAPIKeyAccess t rule action o pid s).1 = Ok tt <->
  key_permitted (az_view s) t rule pid.
Proof.
  intros Ho Hp Hk <-. unfold checkAPIKeyAccess, key_permitted.
  rewrite <-AllowsRole_spec.
  destruct (AllowsRole _ _); simpl; [|split; [done|by intros [? _]]].
  assert ((if negb (tc_projectID t =? 0)%Z then
       if (pid =? 0)%Z then ret (tc_projectID t)
       else if negb (pid =? tc_projectID t)%Z
       then fail (denied (withAction "project mismatch" action))
       else ret pid else @ret S Z pid) =
     match keyProject t pid with
     | Some q => ret q
     | None => fail (denied (withAction "project mismatch" action)) end) as ->.
  { unfold keyProject. destruct (tc_projectID t =? 0)%Z; [done|].
    destruct (pid =? 0)%Z; [done|]. by destruct (pid =? tc_projectID t)%Z. }
  destruct (keyProject t pid) as [q|] eqn:Eq; cycle 1.
  { split; [done|]. intros (_ & Hin & _).
    assert (keyProject t pid = Some (if (pid =? 0)%Z then tc_projectID t else pid))
      as E by by apply keyProject_spec.
    by rewrite Eq in E. }
  apply keyProject_spec in Eq as [Hin ->].
  set (q := if (pid =? 0)%Z then tc_projectID t else pid).
  assert (is_uint64 q) as Hq by (unfold q; by destruct (pid =? 0)%Z).
  unfold bind at 1. simpl. unfold bind, catch.
  destruct (Z.eqb_spec q 0) as [Eq0|Hq0]; simpl.
  - destruct (HasScopes _ _); simpl; [|naive_solver].
    split; [|done]. intros _. split_and!; try done. by left.
  - pose proof (az_Project_ok (tc_orgID t) q s Ho Hq0 Hq) as Hpr.
    destruct (az_Project (tc_orgID t) q s) as [[p|e] s']; simpl in *.
    + destruct (HasScopes _ _); simpl; [|naive_solver]. split; [|done].
      intros _. split_and!; try done. apply Hpr. by eexists.
    + split; [done|]. intros (_ & _ & Hok & _).
      apply Hpr in Hok as [? ?]. done.
Qed.

Lemma user_check_spec t rule action pid s :
  tc_orgID t <> 0%Z -> is_uint64 pid -> is_uint64 (tc_userID t) ->
  AllowedRoles rule <> [] ->
  (forall rows, view_rows (az_view s) (tc_userID t) = Ok rows ->
     unique_grants rows) ->
  (catch (az_CheckRole (tc_orgID t) pid (tc_userID t) (AllowedRoles rule))
    (fun r => match r with
    | Err err =>
        if errors_Is err ErrInsufficientRole || errors_Is err ErrAccessDenied
           || errors_Is err ErrOrgNotSelected
        then fail (denied (withAction (Error err) action))
        else fail (GrpcCause PermissionDenied
                     (withAction "access denied" action) err)
    | Ok _ =>
        if bool_decide (tc_scopes t <> []) &&
           negb (HasScopes (tc_scopes t) (ParseScopes (MethodScopes rule)))
        then fail (denied (withAction "insufficient scope" action))
        else ret tt
    end) s).1 = Ok tt <-> user_permitted (az_view s) t rule pid.
Proof.
  intros Ho Hp Hu Ha Hrows. unfold user_permitted, catch.
  pose proof (view_CheckRole_spec (az_view s) (tc_orgID t) pid (tc_userID t)
    (AllowedRoles rule) Ho Hrows Ha) as Hspec.
  destruct (az_CheckRole_view (az_view s) (tc_orgID t) pid (tc_userID t)
    (AllowedRoles rule) Hp Hu s) as [E _]; [done|].
  destruct (az_CheckRole _ _ _ _ s) as [[rg|e] s']; simpl in E;
    rewrite <-E in Hspec.
  - destruct (proj1 Hspec) as [Hp1 Hp2]; [by eexists|].
    destruct (decide (tc_scopes t = [])) as [Es|Es].
    + rewrite bool_decide_false by tauto. simpl. naive_solver.
    + rewrite bool_decide_true by done. simpl.
      destruct (HasScopes _ _); simpl; naive_solver.
  - split; [by repeat case_match|]. intros (Hp1 & Hp2 & _).
    by destruct (proj2 Hspec) as [? ?].
Qed.

Lemma service_role_prefix role p :
  HasPrefix role p = true -> HasPrefix p ServiceRolePrefix = true ->
  HasPrefix role ServiceRolePrefix = true.
Proof. apply HasPrefix_trans. Qed.

Lemma privpb_not_status action :
  HasPrefix action "/privpb." = true -> HasPrefix action "/pb.Status" = false.
Proof. intros E. by eapply HasPrefix_disjoint. Qed.

Lemma privpb_not_identity action :
  HasPrefix action "/privpb." = true ->
  HasPrefix action identityServicePrefix = false.
Proof. intros E. by eapply HasPrefix_disjoint. Qed.

(** The internal services: only service roles pass, viewers read-only. *)
Lemma CheckAccess_privpb ctx req action s :
  HasPrefix action "/privpb." = true ->
  let t := FromContext ctx in
  (CheckAccess ctx req action s).1 =
    if (HasPrefix (tc_appRole t) "trustyca-viewer" && viewer_action action) ||
       (negb (HasPrefix (tc_appRole t) "trustyca-viewer") &&
        HasPrefix (tc_appRole t) ServiceRolePrefix)
    then Ok tt else Err (denied "access denied").
Proof.
  intros E t. unfold CheckAccess. fold t. rewrite E. simpl.
  destruct (HasPrefix (tc_appRole t) "trustyca-viewer") eqn:Ev; simpl.
  - unfold viewer_action. destruct (_ || _ || _); done.
  - destruct (HasPrefix (tc_appRole t) "trustyca-admin") eqn:Ea.
    + by rewrite (service_role_prefix _ _ Ea).
    + by destruct (HasPrefix (tc_appRole t) ServiceRolePrefix).
Qed.

(** The status methods are open to every caller, against the doc comment of
    [CheckAccess], which restricts them to the service roles. *)
Lemma CheckAccess_status ctx req action s :
  HasPrefix action "/pb.Status" = true ->
  (CheckAccess ctx req action s).1 = Ok tt.
Proof.
  intros E. unfold CheckAccess. rewrite E.
  rewrite (HasPrefix_disjoint _ _ "/privpb." E) by done. simpl.
  by repeat case_match.
Qed.

Lemma service_not_guest role :
  HasPrefix role ServiceRolePrefix = true -> guest role = false.
Proof.
  intros [u ->]%HasPrefix_spec. unfold guest.
  rewrite bool_decide_false by done. simpl.
  apply bool_decide_eq_false. discriminate.
Qed.

(** Once the earlier cases are excluded, a rule leaves two ways to pass. *)
Lemma permitted_tenant t req action rule v :
  HasPrefix action "/privpb." = false ->
  HasPrefix action "/pb.Status" = false ->
  HasPrefix action identityServicePrefix = false ->
  GetMethodInfo action = Some rule -> AllowedRoles rule <> [] ->
  permitted v t req action <->
  HasPrefix (tc_appRole t) ServiceRolePrefix = true \/
  (guest (tc_appRole t) = false /\ tc_orgID t <> 0%Z /\
   orgMismatch req (tc_orgID t) = false /\
   exists pid, requestProject req = Some pid /\
     if IsAPIKey t then key_permitted v t rule pid
     else user_permitted v t rule pid).
Proof.
  intros Ep Es Ei Em Ea. split.
  - intros [| | | |_ Hn|rule' Hm _ Hs|rule' pid Hm _ Hg Ho Hmm Hrp Hx];
      try congruence.
    + by destruct (Ea (Hn rule Em)).
    + by left.
    + right. rewrite Em in Hm. injection Hm as <-. eauto 10.
  - intros [Hs|(Hg & Ho & Hmm & pid & Hrp & Hx)].
    + by eapply perm_service.
    + by eapply perm_tenant.
Qed.

Lemma tenant_check_spec t req action rule s :
  is_uint64 (tc_userID t) -> is_uint64 (tc_projectID t) ->
  (forall rows, view_rows (az_view s) (tc_userID t) = Ok rows ->
     unique_grants rows) ->
  AllowedRoles rule <> [] ->
  ((if guest (tc_appRole t) then fail (Grpc Unauthenticated "access denied")
    else if HasPrefix (tc_appRole t) ServiceRolePrefix then ret tt
    else if (tc_orgID t =? 0)%Z
    then fail (denied (withAction "org not selected" action))
    else if orgMismatch req (tc_orgID t)
    then fail (denied (withAction "org mismatch" action))
    else match requestProject req with
    | None => fail (Grpc InvalidArgument "invalid project ID")
    | Some projectID =>
      if IsAPIKey t
      then checkAPIKeyAccess t rule action (tc_orgID t) projectID
      else catch (az_CheckRole (tc_orgID t) projectID (tc_userID t)
                    (AllowedRoles rule)) (fun r =>
        match r with
        | Err err =>
            if errors_Is err ErrInsufficientRole || errors_Is err ErrAccessDenied
               || errors_Is err ErrOrgNotSelected
            then fail (denied (withAction (Error err) action))
            else fail (GrpcCause PermissionDenied
                         (withAction "access denied" action) err)
        | Ok _ =>
            if bool_decide (tc_scopes t <> []) &&
               negb (HasScopes (tc_scopes t) (ParseScopes (MethodScopes rule)))
            then fail (denied (withAction "insufficient scope" action))
            else ret tt
        end)
    end) s).1 = Ok tt <->
  HasPrefix (tc_appRole t) ServiceRolePrefix = true \/
  (guest (tc_appRole t) = false /\ tc_orgID t <> 0%Z /\
   orgMismatch req (tc_orgID t) = false /\
   exists pid, requestProject req = Some pid /\
     if IsAPIKey t then key_permitted (az_view s) t rule pid
     else user_permitted (az_view s) t rule pid).
Proof.
  intros Hu Hp Hrows Ha.
  destruct (HasPrefix (tc_appRole t) ServiceRolePrefix) eqn:Es.
  { rewrite (service_not_guest _ Es). by split; [left|]. }
  destruct (guest (tc_appRole t)) eqn:Eg; [split; [done|naive_solver]|].
  destruct (Z.eqb_spec (tc_orgID t) 0) as [Eo|Eo]; [split; [done|naive_solver]|].
  destruct (orgMismatch req (tc_orgID t)) eqn:Em; [split; [done|naive_solver]|].
  destruct (requestProject req) as [pid|] eqn:Er; [|split; [done|naive_solver]].
  pose proof (requestProject_range _ _ Er) as Hpid.
  transitivity (if IsAPIKey t then key_permitted (az_view s) t rule pid
                else user_permitted (az_view s) t rule pid).
  - destruct (IsAPIKey t); [by apply checkAPIKeyAccess_spec|].
    by apply user_check_spec.
  - split; [|naive_solver]. intros Hx. right. eauto 10.
Qed.

Lemma CheckAccess_permitted (ctx : Context) (req : Request) (action : string)
    (s : S)
    (Hu : is_uint64 (tc_userID (FromContext ctx)))
    (Hp : is_uint64 (tc_projectID (FromContext ctx)))
    (Hrows : forall rows,
       view_rows (az_view s) (tc_userID (FromContext ctx)) = Ok rows ->
       unique_grants rows) :
  (CheckAccess ctx req action s).1 = Ok tt <->
  permitted (az_view s) (FromContext ctx) req action.
Proof.
  set (t := FromContext ctx) in *.
  destruct (HasPrefix action "/privpb.") eqn:Epriv.
  { rewrite CheckAccess_privpb by done. fold t.
    pose proof (privpb_not_status _ Epriv). pose proof (privpb_not_identity _ Epriv).
    split.
    - destruct (HasPrefix (tc_appRole t) "trustyca-viewer") eqn:Ev; simpl.
      + destruct (viewer_action action) eqn:Ea; [|done]. intros _. by apply perm_viewer.
      + destruct (HasPrefix _ ServiceRolePrefix) eqn:Es; [|done].
        intros _. by apply perm_internal.
    - intros [|_ Hv Hr|_ Hv Hr| | | |]; try congruence.
      + by rewrite Hr, Hv.
      + by rewrite Hv, Hr. }
  destruct (HasPrefix action "/pb.Status") eqn:Est.
  { rewrite CheckAccess_status by done. split; [|done]. intros _. by apply perm_status. }
  unfold CheckAccess. fold t. rewrite Epriv, Est. simpl.
  destruct (HasPrefix action identityServicePrefix) eqn:Eid.
  { split; [|done]. intros _. by apply perm_identity. }
  destruct (GetMethodInfo action) as [rule|] eqn:Em; cycle 1.
  { split; [|done]. intros _. apply perm_open; [done|]. congruence. }
  destruct (decide (AllowedRoles rule = [])) as [Ea|Ea].
  { rewrite bool_decide_true by done. split; [|done]. intros _.
    apply perm_open; [done|]. congruence. }
  rewrite bool_decide_false by done. fold (guest (tc_appRole t)).
  rewrite (permitted_tenant t req action rule) by done.
  apply tenant_check_spec; done.
Qed.

(** C3: [CheckAccess] decides the declared authorization. For every caller,
    request and action, it accepts exactly what [permitted] describes over
    the memberships and projects the authorizer sees: identity methods and
    methods without a rule, for every caller; the status methods, for every
    caller too (the doc comment of [CheckAccess] and the design document say
    service roles only, see [CheckAccess_status]); service roles (read-only
    for viewers on the internal services); users with a role at the scope
    that can assume an allowed one; and API keys that are listed, stay in
    their project and hold the scopes; within the org of the token in the
    last two cases. *)
Theorem CheckAccess_decides (ctx : Context) (req : Request) (action : string)
    (s : S)
    (Hu : is_uint64 (tc_userID (FromContext ctx)))
    (Hp : is_uint64 (tc_projectID (FromContext ctx)))
    (Hrows : forall rows,
       view_rows (az_view s) (tc_userID (FromContext ctx)) = Ok rows ->
       unique_grants rows) :
  (CheckAccess ctx req action s).1 = Ok tt <->
  permitted (az_view s) (FromContext ctx) req action.
Proof. by apply CheckAccess_permitted. Qed.
End decision.

(** A caller of org 7: user 3 of the example rows, with a plain user token. *)
Definition example_ctx : Context :=
  mkContext (mkIdentity "user" "" "" "jwt" None "" [] "" "" "")
    (Some (mkTrusty 3 "A" "a@acme.com" 7 Role_User 0 [] "user" "" "" "jwt"))
    [] [].

Definition no_request : Request := mkRequest None None.

(** A codec that stores the state through a countable encoding of its
    columns. *)
#[export] Instance role_countable : Countable Role_Enum.
Proof.
  refine (inj_countable'
    (fun r => match r with
      | Role_None => inl 0%N | Role_APIKey => inl 1%N | Role_Viewer => inl 2%N
      | Role_User => inl 3%N | Role_Support => inl 4%N
      | Role_Billing => inl 5%N | Role_Security => inl 6%N
      | Role_Admin => inl 7%N | Role_Owner => inl 8%N
      | Role_Unrecognized n => inr n
      end : N + Z)
    (fun x => match x with
      | inl 0%N => Role_None | inl 1%N => Role_APIKey | inl 2%N => Role_Viewer
      | inl 3%N => Role_User | inl 4%N => Role_Support
      | inl 5%N => Role_Billing | inl 6%N => Role_Security
      | inl 7%N => Role_Admin | inl 8%N => Role_Owner | inl _ => Role_None
      | inr n => Role_Unrecognized n
      end) _).
  by intros [].
Defined.

Definition ctx_columns (s : trustycaCtxState) :=
  (cs_UserID s, cs_Name s, cs_Email s, cs_OrgID s,
   (cs_OrgRole s, cs_ProjectID s, cs_Scopes s),
   (cs_AppRole s, cs_Target s, cs_UserAgent s, cs_AuthMethod s)).

#[export] Instance ctx_codec : CtxCodec := {|
  ctx_marshal st := Some (pos_str (encode (ctx_columns st)));
  ctx_unmarshal js :=
    match str_pos js with
    | Some p =>
        match decode p with
        | Some (u, n, e, o, (r, pr, sc), (ar, tg, ua, am)) =>
            Some (mkCtxState u n e o r pr sc ar tg ua am)
        | None => None
        end
    | None => None
    end |}.

#[export] Instance ctx_codec_laws : @CtxCodecLaws ctx_codec.
Proof.
  intros [] js [= <-]. simpl. rewrite str_pos_str.
  unfold ctx_columns. simpl. by rewrite decode_encode.
Qed.

(** The User role of the example may sign but not register issuers. *)
Lemma CheckAccess_decides_witness :
  let s := NewAuthorizer 0 example_provider in
  permitted (az_view s) (FromContext example_ctx) no_request
    "/pb.CA/SignCertificate" /\
  ~ permitted (az_view s) (FromContext example_ctx) no_request
    "/pb.CA/RegisterIssuer".
Proof.
  intros s.
  assert (forall rows, view_rows (az_view s) 3 = Ok rows -> unique_grants rows)
    as Hrows.
  { intros rows Hr. assert (rows = example_rows) as ->
      by (vm_compute in Hr; vm_compute; congruence).
    apply example_rows_unique. }
  split.
  - apply (CheckAccess_decides example_ctx no_request _ s);
      [by split|by split|exact Hrows|vm_compute; reflexivity].
  - intros Hper.
    apply (CheckAccess_decides example_ctx no_request _ s) in Hper;
      [|by split|by split|exact Hrows].
    vm_compute in Hper. discriminate Hper.
Defined.

Section interceptors.
Context `{XL : XdbLaws, CC : CtxCodecLaws} {S : Type} `{AC : AuthorizerContract S}.

(** The internal services fail closed. A caller whose role is not a
    service role is refused every [/privpb.] action with PermissionDenied, a
    viewer role every action but SupportTenant, Get and List of the admin
    service, and the refusal leaves the authorizer as it was. *)
Theorem privpb_fails_closed (ctx : Context) (req : Request)
    (action : string) (s : S)
    (Ha : HasPrefix action "/privpb." = true)
    (Hr : HasPrefix (tc_appRole (FromContext ctx)) ServiceRolePrefix = false \/
          (HasPrefix (tc_appRole (FromContext ctx)) "trustyca-viewer" = true /\
           viewer_action action = false)) :
  CheckAccess ctx req action s = (Err (denied "access denied"), s).
Proof.
  pose proof (CheckAccess_privpb ctx req action s Ha) as E.
  assert ((CheckAccess ctx req action s).2 = s) as Es.
  { unfold CheckAccess. rewrite Ha. simpl. by repeat case_match. }
  destruct (CheckAccess ctx req action s) as [r s']. simpl in *. subst s'.
  f_equal. rewrite E. destruct Hr as [Hr|[-> ->]]; [|done]. rewrite Hr.
  destruct (HasPrefix _ "trustyca-viewer") eqn:Ev; [|done].
  by rewrite (service_role_prefix _ _ Ev) in Hr.
Qed.

(** The forwarded state is the caller's context. *)
Lemma ctxOfState_ctxState t : ctxOfState (ctxState t) = t.
Proof. by destruct t. Qed.

(** The listener of the backend received the outgoing metadata of [wfe]. *)
Definition forwarded_by (wfe backend : Context) (peer : Identity) : Prop :=
  ctx_identity backend = peer /\ ctx_incoming backend = ctx_outgoing wfe.

(** A forwarded call runs as its caller, and only when authorized. The
    front end that authenticated an identity forwards its context; received
    from the peer role, the backend runs the handler with exactly that
    context, after [CheckAccess] accepted the pb.CA method of the same name
    for it, and otherwise returns its error. *)
Theorem forwarded_call_authorized {A} (handler : UnaryHandler A)
    (wfe backend : Context) (idn peer : Identity) (req : Request)
    (name js : string) (s : S)
    (Hjs : ctx_marshal (ctxState (trustyOf idn)) = Some js)
    (Hout : ctx_outgoing wfe = [])
    (Hfwd : forwarded_by (NewTrustyCtx wfe idn) backend peer)
    (Hpeer : id_Role peer = PeerRoleName) :
  let ctx' := mkContext peer (Some (trustyOf idn)) (ctx_incoming backend)
                (ctx_outgoing backend) in
  NewAuthUnaryBackendInterceptor handler backend req
    (backendMethodPrefix ++ name) s =
  (let! _ := CheckAccess ctx' req (caMethodPrefix ++ name) in
   handler ctx' req) s.
Proof.
  destruct Hfwd as [Hid Hin]. intros ctx'.
  unfold NewAuthUnaryBackendInterceptor.
  assert (mdGet (ctx_incoming backend) trustycaContextGRPCHeaderName = [js])
    as ->.
  { rewrite Hin. unfold NewTrustyCtx. rewrite Hjs. simpl. by rewrite Hout. }
  rewrite Hid, Hpeer, bool_decide_false by tauto.
  rewrite (ctx_roundtrip _ _ Hjs), ctxOfState_ctxState.
  unfold caAction. by rewrite (proj2 (CutPrefix_spec _ _ _) eq_refl).
Qed.

(** Nobody else speaks for a caller. Without a forwarded context, or
    from any other role than the peer, the backend runs the handler as the
    identity the listener authenticated, whatever the metadata says; from the
    peer, a context that does not decode fails the call before the handler
    and leaves the state as it was. *)
Theorem forwarded_context_only_from_peer {A} (handler : UnaryHandler A)
    (ctx : Context) (req : Request) (fullMethod : string) (s : S) :
  let idn := ctx_identity ctx in
  (id_Role idn <> PeerRoleName \/
   mdGet (ctx_incoming ctx) trustycaContextGRPCHeaderName = [] ->
   NewAuthUnaryBackendInterceptor handler ctx req fullMethod s =
     handler (NewTrustyCtx ctx idn) req s /\
   FromContext (NewTrustyCtx ctx idn) = trustyOf idn) /\
  (forall js rest, id_Role idn = PeerRoleName ->
   mdGet (ctx_incoming ctx) trustycaContextGRPCHeaderName = js :: rest ->
   ctx_unmarshal js = None ->
   NewAuthUnaryBackendInterceptor handler ctx req fullMethod s =
     (Err (Grpc Unauthenticated "invalid forwarded context"), s)).
Proof.
  intros idn. unfold NewAuthUnaryBackendInterceptor. fold idn. split.
  - intros Hx. split; [|unfold NewTrustyCtx; by case_match].
    destruct (mdGet _ _) as [|js rest]; [done|].
    destruct Hx as [Hx|?]; [|done]. by rewrite bool_decide_true.
  - intros js rest Hr -> Hun. rewrite bool_decide_false by tauto.
    by rewrite Hun.
Qed.
End interceptors.

(** A user token is refused on the admin service. *)
Lemma privpb_fails_closed_witness :
  let s := NewAuthorizer 0 example_provider in
  CheckAccess example_ctx no_request "/privpb.Admin/ListOrgs" s =
    (Err (denied "access denied"), s).
Proof.
  intros s. apply (privpb_fails_closed example_ctx no_request
    "/privpb.Admin/ListOrgs" s); [vm_compute; reflexivity|].
  left. vm_compute. reflexivity.
Defined.

(** The token of the user 3 of the example, as the front end received it. *)
Definition example_identity : Identity :=
  mkIdentity "user" (id_string 7) (id_string 3) "jwt" None "User" [] "" "" "".
Definition peer_identity : Identity :=
  mkIdentity PeerRoleName "" "" "mtls" None "" [] "" "" "".

(** Forwarded by the peer, the handler sees user 3 and may sign. *)
Lemma forwarded_call_authorized_witness :
  let s := NewAuthorizer 0 example_provider in
  let wfe := mkContext example_identity None [] [] in
  let fwd := NewTrustyCtx wfe example_identity in
  let backend := mkContext peer_identity None (ctx_outgoing fwd) [] in
  (NewAuthUnaryBackendInterceptor (fun ctx _ => ret (tc_userID (FromContext ctx)))
     backend no_request "/privpb.Backend/SignCertificate" s).1 = Ok 3%Z.
Proof.
  intros s wfe fwd backend.
  change "/privpb.Backend/SignCertificate"%string
    with (backendMethodPrefix ++ "SignCertificate")%string.
  rewrite (forwarded_call_authorized _ wfe backend example_identity
    peer_identity no_request "SignCertificate"
    (pos_str (encode (ctx_columns (ctxState (trustyOf example_identity))))) s);
    [vm_compute; reflexivity|reflexivity|reflexivity|by split|reflexivity].
Defined.

(** ** Listing the allowed methods *)

Lemma merge_sort_elem {A} (R : A -> A -> Prop) `{RelDecision A A R} l x :
  x ∈ merge_sort R l <-> x ∈ l.
Proof. by rewrite (merge_sort_Permutation R l). Qed.

(** The full names listed in a result, with their service. *)
Definition listed (res : list AllowedMethods_msg) (name : string) : Prop :=
  exists svc ms key, (svc, ms) ∈ res /\ (key, name) ∈ ms.

Lemma addMethod_listed acc svc key name n :
  listed (addMethod acc svc key name) n <-> n = name \/ listed acc n.
Proof.
  unfold listed. induction acc as [|[sv ms] acc IH]; simpl.
  - split.
    + intros (? & ? & ? & Hin & Hk). elem_one Hin. simplify_eq.
      elem_one Hk. simplify_eq. by left.
    + intros [->|(? & ? & ? & Hin & _)]; [|by apply not_elem_of_nil in Hin].
      exists svc, [(key, name)], key. set_solver.
  - case_bool_decide as Hs; [subst sv|].
    + split.
      * intros (s1 & m1 & k1 & [[= -> ->]|Hin]%elem_of_cons & Hk); [|set_solver].
        apply elem_of_app in Hk as [Hk|Hk]; [set_solver|].
        elem_one Hk. simplify_eq. by left.
      * intros [->|(s1 & m1 & k1 & [[= -> ->]|Hin]%elem_of_cons & Hk)].
        -- exists svc, (ms ++ [(key, name)]), key. set_solver.
        -- exists svc, (ms ++ [(key, name)]), k1. set_solver.
        -- exists s1, m1, k1. set_solver.
    + split.
      * intros (s1 & m1 & k1 & [[= -> ->]|Hin]%elem_of_cons & Hk); [set_solver|].
        assert (n = name \/ exists s2 m2 k2, (s2, m2) ∈ acc /\ (k2, n) ∈ m2)
          as [->|(s2 & m2 & k2 & ? & ?)] by (apply IH; eauto); [by left|].
        right. exists s2, m2, k2. set_solver.
      * intros Hx.
        assert ((n = name \/ exists s2 m2 k2, (s2, m2) ∈ acc /\ (k2, n) ∈ m2) \/
          (n ∈ ms.*2)) as [Hy|Hy].
        { destruct Hx as [->|(s1 & m1 & k1 & [[= -> ->]|Hin]%elem_of_cons & Hk)];
            [by left; left| |left; right; eauto].
          right. apply list_elem_of_fmap. by exists (k1, n). }
        -- apply IH in Hy as (s2 & m2 & k2 & ? & ?).
           exists s2, m2, k2. set_solver.
        -- apply list_elem_of_fmap in Hy as ([k1 n1] & -> & Hk).
           exists sv, ms, k1. set_solver.
Qed.

Lemma addNames_listed prefix names acc n :
  listed (addNames prefix names acc) n <->
  listed acc n \/ (n ∈ names /\ splitMethod n prefix <> None).
Proof.
  unfold addNames. revert acc.
  induction names as [|x names IH]; intros acc; simpl; [set_solver|].
  rewrite IH. destruct (splitMethod x prefix) as [[svc m]|] eqn:E.
  - rewrite addMethod_listed, elem_of_cons. split.
    + intros [[->|?]|[? ?]]; [right|by left|right]; [|by auto].
      rewrite E. by auto.
    + intros [?|[[->|?] ?]]; auto.
  - rewrite elem_of_cons. split; [naive_solver|].
    intros [?|[[->|?] ?]]; auto. by destruct (H E).
Qed.

Lemma sorted_listed (res : list AllowedMethods_msg) n :
  listed (merge_sort (fun a b => str_le a.1 b.1)
    ((fun si => (si.1, merge_sort (fun a b => str_le a.1 b.1) si.2)) <$> res)) n
  <-> listed res n.
Proof.
  unfold listed. setoid_rewrite merge_sort_elem.
  setoid_rewrite list_elem_of_fmap. split.
  - intros (svc & ms & key & ([s1 m1] & [= -> ->] & Hin) & Hk).
    rewrite merge_sort_elem in Hk. simpl in Hk. eauto.
  - intros (svc & ms & key & Hin & Hk).
    exists svc, (merge_sort (fun a b => str_le a.1 b.1) ms), key.
    split; [by exists (svc, ms)|]. by rewrite merge_sort_elem.
Qed.

Lemma methods_checked :
  forallb (fun ni =>
    negb (HasPrefix ni.1 "/privpb.") &&
    bool_decide (splitMethod ni.1 "pb." <> None) &&
    (negb (HasPrefix ni.1 "/pb.Status") || bool_decide (AllowedRoles ni.2 = [])))
    methods = true.
Proof. vm_compute. reflexivity. Qed.

Lemma methods_facts name info :
  (name, info) ∈ methods ->
  HasPrefix name "/privpb." = false /\ splitMethod name "pb." <> None /\
  (HasPrefix name "/pb.Status" = true -> AllowedRoles info = []).
Proof.
  intros Hin. pose proof (proj1 (forallb_elem_of _ _) methods_checked _ Hin) as Hb.
  simpl in Hb. rewrite !andb_true_iff, negb_true_iff, bool_decide_eq_true in Hb.
  destruct Hb as [[H1 H2] H3]. split_and!; [done..|]. intros E.
  rewrite E in H3. by apply bool_decide_eq_true in H3.
Qed.

#[local] Opaque methods.

Section allowed.
Context `{XL : XdbLaws, CtxCodec} {S : Type} `{AC : AuthorizerContract S}.

(** At org scope, the verdict on a rule is the authorization. *)
Lemma methodAllowed_permitted v t rule name grants :
  GetMethodInfo name = Some rule -> (name, rule) ∈ methods ->
  guest (tc_appRole t) = false ->
  HasPrefix (tc_appRole t) ServiceRolePrefix = false ->
  tc_orgID t <> 0%Z ->
  (if IsAPIKey t then grants = None /\ project_ok v (tc_orgID t) (tc_projectID t)
   else exists rows, unique_grants rows /\ view_rows v (tc_userID t) = Ok rows /\
     grants = Some (GrantsFromMemberships rows (tc_orgID t) (tc_userID t))) ->
  allowedHere t grants name rule = true <-> permitted v t no_request name.
Proof.
  intros Em Hin Hg Hs Ho Hgr. destruct (methods_facts _ _ Hin) as (Hpv & _ & Hst).
  unfold allowedHere, methodAllowed.
  destruct (HasPrefix name identityServicePrefix) eqn:Eid; simpl.
  { split; [|done]. intros _. by apply perm_identity. }
  destruct (decide (AllowedRoles rule = [])) as [Ea|Ea].
  { rewrite bool_decide_true by done. split; [|done]. intros _.
    apply perm_open; [done|]. congruence. }
  rewrite bool_decide_false by done.
  assert (HasPrefix name "/pb.Status" = false) as Est
    by (destruct (HasPrefix name "/pb.Status"); [by destruct Ea; apply Hst|done]).
  rewrite (permitted_tenant t no_request name rule) by done.
  rewrite Hs. destruct (IsAPIKey t).
  - destruct Hgr as [_ Hok]. rewrite andb_true_iff. unfold key_permitted.
    rewrite AllowsRole_spec. simpl. naive_solver.
  - destruct Hgr as (rows & Hu & Hrows & ->). unfold user_permitted.
    pose proof (HighestRole_acts rows (tc_orgID t) (tc_userID t) 0
      (AllowedRoles rule) Hu Ea) as Hx.
    set (g := Some (GrantsFromMemberships _ _ _)) in *.
    assert (negb (bool_decide (tc_scopes t <> []) &&
       negb (HasScopes (tc_scopes t) (ParseScopes (MethodScopes rule)))) = true <->
       (tc_scopes t = [] \/
        HasScopes (tc_scopes t) (ParseScopes (MethodScopes rule)) = true)) as Hsc.
    { destruct (decide (tc_scopes t = [])) as [Es|Es].
      - rewrite bool_decide_false by tauto. naive_solver.
      - rewrite bool_decide_true by done. destruct (HasScopes _ _); naive_solver. }
    destruct (bool_decide (HighestRole g 0 (AllowedRoles rule) = Role_None))
      eqn:Hn; [apply bool_decide_eq_true in Hn; split; [done|]
              |apply bool_decide_eq_false in Hn; rewrite Hsc]; clear Hsc.
    + intros [?|(_ & _ & _ & pid & [= <-] & _ & Hy & _)]; [done|].
      destruct Hy as (rows' & r & a & E & ?). rewrite Hrows in E.
      injection E as <-. destruct (proj2 Hx); [by eauto|done].
    + apply Hx in Hn as (r & a & ? & ? & ?). split.
      * intros Hsc. right. split_and!; try done. exists 0%Z.
        split; [done|]. split_and!; [by left| |done].
        exists rows, r, a. by split_and!.
      * by intros [?|(_ & _ & _ & pid & _ & _ & _ & ?)].
Qed.

Lemma callerGrants_view t s grants s1 :
  tc_orgID t <> 0%Z -> is_uint64 (tc_userID t) ->
  (IsAPIKey t = true ->
   project_ok (az_view s) (tc_orgID t) (tc_projectID t)) ->
  (forall rows, view_rows (az_view s) (tc_userID t) = Ok rows ->
     unique_grants rows) ->
  callerGrants t s = (Ok grants, s1) ->
  if IsAPIKey t then grants = None /\
    project_ok (az_view s) (tc_orgID t) (tc_projectID t)
  else exists rows, unique_grants rows /\
    view_rows (az_view s) (tc_userID t) = Ok rows /\
    grants = Some (GrantsFromMemberships rows (tc_orgID t) (tc_userID t)).
Proof.
  intros Ho Hu Hkey Hrows. unfold callerGrants.
  rewrite (proj2 (Z.eqb_neq _ _) Ho).
  destruct (IsAPIKey t); simpl; [intros [= <- <-]; auto|]. unfold bind.
  destruct (az_Grants_view (az_view s) (tc_orgID t) (tc_userID t) Hu s)
    as [E _]; [done|].
  destruct (az_Grants _ _ s) as [[g|e] s2]; [|done]. intros [= <- <-].
  simpl in E. unfold view_Grants, result_bind in E.
  rewrite (proj2 (Z.eqb_neq _ _) Ho) in E.
  destruct (view_rows (az_view s) (tc_userID t)) as [rows|e] eqn:Er; [|done].
  injection E as ->. eauto.
Qed.

(** The methods a caller is told it may call are the ones it may call.
    For a tenant user or API key with a selected org (and an active project,
    for a project key), a public method is listed by [GetAllowedMethods]
    exactly when [CheckAccess] accepts a call of it without a project. *)
Theorem GetAllowedMethods_agrees (ctx : Context) (s s' : S)
    (res : list AllowedMethods_msg) (name : string)
    (Hok : GetAllowedMethods ctx s = (Ok res, s'))
    (Hname : name ∈ methods.*1)
    (Hg : guest (tc_appRole (FromContext ctx)) = false)
    (Hs : HasPrefix (tc_appRole (FromContext ctx)) ServiceRolePrefix = false)
    (Ho : tc_orgID (FromContext ctx) <> 0%Z)
    (Hu : is_uint64 (tc_userID (FromContext ctx)))
    (Hp : is_uint64 (tc_projectID (FromContext ctx)))
    (Hkey : IsAPIKey (FromContext ctx) = true ->
       project_ok (az_view s) (tc_orgID (FromContext ctx))
         (tc_projectID (FromContext ctx)))
    (Hrows : forall rows,
       view_rows (az_view s) (tc_userID (FromContext ctx)) = Ok rows ->
       unique_grants rows) :
  listed res name <-> (CheckAccess ctx no_request name s).1 = Ok tt.
Proof.
  rewrite CheckAccess_permitted by done. set (t := FromContext ctx) in *.
  apply list_elem_of_fmap in Hname as ([n rule] & -> & Hin).
  pose proof (GetMethodInfo_elem _ _ Hin) as Em.
  unfold GetAllowedMethods, bind in Hok. fold t in Hok.
  destruct (callerGrants t s) as [[grants|e] s1] eqn:Ec; [|done].
  rewrite Hs in Hok. apply pair_equal_spec in Hok as [Hok _].
  apply Ok_inj in Hok. subst res.
  rewrite sorted_listed, addNames_listed. change GetMethodsInfo with methods.
  rewrite <-(methodAllowed_permitted (az_view s) t rule n grants) by
    (try done; by apply (callerGrants_view t s grants s1)).
  rewrite list_elem_of_fmap. split.
  - intros [(? & ? & ? & Hx & _)|[([n' r'] & Hn & Hf) _]];
      [by apply not_elem_of_nil in Hx|]. simpl in Hn. subst n'.
    apply list_elem_of_In, List.filter_In in Hf as [Hf1 Hf2].
    apply list_elem_of_In, GetMethodInfo_elem in Hf1. simpl in Hf1, Hf2.
    rewrite Em in Hf1. by injection Hf1 as <-.
  - intros Ha. right. split; [|by apply (methods_facts _ _ Hin)].
    exists (n, rule). split; [done|]. apply list_elem_of_In, List.filter_In.
    split; [by apply list_elem_of_In|done].
Qed.
End allowed.
#[local] Transparent methods.

(** The example user is told it may sign certificates. *)
Lemma GetAllowedMethods_agrees_witness :
  let s := NewAuthorizer 0 example_provider in
  match GetAllowedMethods example_ctx s with
  | (Ok res, _) => listed res "/pb.CA/SignCertificate"
  | (Err _, _) => False
  end.
Proof.
  intros s.
  assert (is_ok (GetAllowedMethods example_ctx s).1 = true) as Hok
    by (vm_compute; reflexivity).
  destruct (GetAllowedMethods example_ctx s) as [[res|e] s'] eqn:E;
    [|discriminate Hok].
  apply (GetAllowedMethods_agrees example_ctx s s' res _ E).
  - apply (bool_decide_unpack (_ ∈ _)). vm_compute. exact I.
  - vm_compute. reflexivity.
  - vm_compute. reflexivity.
  - discriminate.
  - by split.
  - by split.
  - intros Hk. vm_compute in Hk. discriminate Hk.
  - intros rows Hr. assert (rows = example_rows) as ->
      by (vm_compute in Hr; vm_compute; congruence).
    apply example_rows_unique.
  - vm_compute. reflexivity.
Defined.
