(* ===== verification/Model.v ===== *)
(** The rows of the CA tables and their validation:
    [internal/db/model] ([model.gen.go], [issuer.go], [certificate.go],
    [revoked.go], [crl.go], [root.go], [tenancy.go], [event.go]).

    A time is a [Z] of milliseconds, the resolution of the timestamp columns,
    counted from Go's zero time; zero is the zero time and
    NULL.  A nullable text column is a string whose empty value is NULL. *)
From S2P Require Import Prelude GoStrings Xdb Tenancy.
From stdpp Require Import base list strings pretty.
From Stdlib Require String.

(** ** Enumerations *)

Inductive Trust_Enum := Trust_Any | Trust_Public | Trust_Private.
Inductive CertificateStatus_Enum :=
| CertificateStatus_Unknown | CertificateStatus_Active
| CertificateStatus_Expired | CertificateStatus_Revoked.
Inductive IssuerStatus_Enum :=
| IssuerStatus_Unknown | IssuerStatus_Pending | IssuerStatus_Active
| IssuerStatus_Archived | IssuerStatus_Destroyed.
Inductive AuthorityType_Enum :=
| AuthorityType_Unknown | AuthorityType_Root | AuthorityType_Intermediate
| AuthorityType_Issuing | AuthorityType_Shaken | AuthorityType_ShakenDelegated.

#[global] Instance Trust_eq_dec : EqDecision Trust_Enum.
Proof. solve_decision. Defined.
#[global] Instance CertificateStatus_eq_dec : EqDecision CertificateStatus_Enum.
Proof. solve_decision. Defined.
#[global] Instance IssuerStatus_eq_dec : EqDecision IssuerStatus_Enum.
Proof. solve_decision. Defined.
#[global] Instance AuthorityType_eq_dec : EqDecision AuthorityType_Enum.
Proof. solve_decision. Defined.

(** ** Rows *)

Definition Metadata : Type := list (string * string).

Record Certificate := mkCertificate {
  c_ID : Z; c_OrgID : Z; c_ProjectID : Z; c_Skid : string; c_Ikid : string;
  c_SerialNumber : string; c_NotBefore : Z; c_NotAfter : Z;
  c_Subject : string; c_Issuer : string; c_Sha256 : string;
  c_Profile : string; c_Label : string; c_Locations : list string;
  c_Metadata : Metadata; c_Pem : string; c_IssuersPem : string;
  c_Status : CertificateStatus_Enum; c_CreatedAt : Z }.

Record Revoked := mkRevoked {
  r_ID : Z; r_OrgID : Z; r_ProjectID : Z; r_CertificateID : Z;
  r_Ikid : string; r_SerialNumber : string; r_NotAfter : Z;
  r_RevokedAt : Z; r_Reason : Z; r_ReasonText : string }.

Record RevokedCertificate := mkRevokedCertificate {
  rc_revoked : Revoked; rc_certificate : Certificate }.

Record Issuer := mkIssuer {
  i_ID : Z; i_OrgID : Z; i_ProjectID : Z; i_Label : string;
  i_Type : AuthorityType_Enum; i_Status : IssuerStatus_Enum; i_ParentID : Z;
  i_Skid : string; i_Ikid : string; i_SerialNumber : string;
  i_Subject : string; i_Issuer : string; i_Sha256 : string;
  i_NotBefore : Z; i_NotAfter : Z; i_Pem : string; i_ChainPem : string;
  i_RootPem : string; i_CsrPem : string; i_KeyProvider : string;
  i_KeyID : string; i_KeyProtected : string; i_Config : string;
  i_CrlNumber : Z; i_CreatedAt : Z; i_UpdatedAt : Z }.

Record Crl := mkCrl {
  l_ID : Z; l_OrgID : Z; l_ProjectID : Z; l_IssuerID : Z; l_Ikid : string;
  l_CrlNumber : Z; l_ThisUpdate : Z; l_NextUpdate : Z; l_Issuer : string;
  l_Pem : string; l_Locations : list string; l_CreatedAt : Z }.

Record RootCertificate := mkRoot {
  t_ID : Z; t_OrgID : Z; t_Skid : string; t_NotBefore : Z; t_NotAfter : Z;
  t_Subject : string; t_Sha256 : string; t_Trust : Trust_Enum;
  t_Pem : string; t_CreatedAt : Z }.

(** An audit event; its type is the number of the protobuf enum. *)
Record Event := mkEvent {
  e_ID : Z; e_OrgID : Z; e_ProjectID : Z; e_Type : Z; e_Title : string;
  e_Description : string; e_Metadata : Metadata; e_ReferenceID : Z;
  e_Email : string; e_Source : string; e_CreatedAt : Z }.

Record CertificateProfile := mkProfile {
  p_ID : Z; p_OrgID : Z; p_ProjectID : Z; p_Label : string;
  p_IssuerLabel : string; p_Status : ItemStatus_Enum; p_Config : string;
  p_CreatedAt : Z; p_UpdatedAt : Z }.

#[global] Instance CertificateProfile_eq_dec : EqDecision CertificateProfile.
Proof. solve_decision. Defined.
#[global] Instance Certificate_eq_dec : EqDecision Certificate.
Proof. solve_decision. Defined.
#[global] Instance Revoked_eq_dec : EqDecision Revoked.
Proof. solve_decision. Defined.
#[global] Instance Issuer_eq_dec : EqDecision Issuer.
Proof. solve_decision. Defined.
#[global] Instance Crl_eq_dec : EqDecision Crl.
Proof. solve_decision. Defined.
#[global] Instance RootCertificate_eq_dec : EqDecision RootCertificate.
Proof. solve_decision. Defined.
#[global] Instance Event_eq_dec : EqDecision Event.
Proof. solve_decision. Defined.

(** ** Certificates and settings

    X.509 parsing and the JSON encoding of protobuf messages are libraries:
    their results are what the program reads of them. *)

(** The fields of a parsed certificate the program reads: the key
    identifiers are those of [certutil], the thumbprint that of its DER. *)
Record x509_Certificate := mkX509 {
  x_SubjectKeyID : string; x_AuthorityKeyID : string;
  x_SerialNumber : string; x_Subject : string; x_Issuer : string;
  x_Sha256 : string; x_NotBefore : Z; x_NotAfter : Z;
  x_BasicConstraintsValid : bool; x_IsCA : bool; x_MaxPathLen : Z;
  x_MaxPathLenZero : bool; x_RawIssuer : string; x_RawSubject : string }.

#[global] Instance x509_Certificate_eq_dec : EqDecision x509_Certificate.
Proof. solve_decision. Defined.

(** The runtime settings of an issuer, [pb.IssuerConfig]. *)
Record IssuerConfig := mkIssuerConfig {
  ic_AiaURL : string; ic_OcspURL : string; ic_CrlURL : string;
  ic_CrlExpiry : string; ic_CrlRenewal : string; ic_OcspExpiry : string;
  ic_DelegatedOcspProfile : string; ic_AllowedProfiles : list string;
  ic_OmitDisabledExtensions : bool }.

Definition emptyIssuerConfig : IssuerConfig :=
  mkIssuerConfig "" "" "" "" "" "" "" [] false.

Class Codec := {
  (** [certutil.ParseFromPEM]; [None] is an error *)
  ParseFromPEM : string -> option x509_Certificate;
  (** decoding the JSON of a [pb.IssuerConfig]; [None] is an error *)
  unmarshal_IssuerConfig : string -> option IssuerConfig }.

Definition NewRootCertificate (crt : x509_Certificate) (orgID : Z)
    (trust : Trust_Enum) (pem : string) : RootCertificate :=
  mkRoot 0 orgID (x_SubjectKeyID crt) (x_NotBefore crt) (x_NotAfter crt)
    (x_Subject crt) (x_Sha256 crt) trust pem 0.

Definition NewCertificate (crt : x509_Certificate) (orgID projectID : Z)
    (profile pem issuersPem label : string) (locations : list string)
    (metadata : Metadata) (now : Z) : Certificate :=
  mkCertificate 0 orgID projectID (x_SubjectKeyID crt) (x_AuthorityKeyID crt)
    (x_SerialNumber crt) (x_NotBefore crt) (x_NotAfter crt) (x_Subject crt)
    (x_Issuer crt) (x_Sha256 crt) profile label locations metadata pem
    issuersPem CertificateStatus_Active now.

Definition emptyJSON : string := "{}".
Definition JSON_IsEmpty (j : string) : bool :=
  bool_decide (j = EmptyString) || bool_decide (j = emptyJSON).

(** [GetConfig] of an issuer and of a CRL state. *)
Definition GetConfig `{Codec} (id : string) (config : string)
  : result IssuerConfig :=
  if JSON_IsEmpty config then Ok emptyIssuerConfig
  else match unmarshal_IssuerConfig config with
  | Some cfg => Ok cfg
  | None => Err (WithMessage (OtherError "unable to unmarshal JSON value")
                   ("invalid config of issuer " ++ id))
  end.

(** ** Validation *)

Definition MaxLenForLabel : nat := 64.
Definition MaxLenForName : nat := 260.
Definition MaxLenForSha256 : nat := 64.

Definition invalid {A} (msg : string) : result A := Err (OtherError msg).

Definition validateTenancy (orgID projectID : Z) : result unit :=
  if negb (IsZero projectID) && IsZero orgID
  then invalid "invalid org ID: a project scope requires an org"
  else Ok tt.

Definition validateLength (name val : string) (maxLen : nat) (required : bool)
  : result unit :=
  if required && bool_decide (val = EmptyString)
  then invalid ("invalid " ++ name ++ ": required")
  else if (maxLen <? String.length val)%nat
  then invalid ("invalid " ++ name ++ " length: " ++
                pretty (Z.of_nat (String.length val)))
  else Ok tt.

(** The loop over the published locations. *)
Fixpoint validateLocations (locs : list string) : result unit :=
  match locs with
  | [] => Ok tt
  | loc :: rest =>
      let? _ := validateLength "location" loc MaxLenForName true in
      validateLocations rest
  end.

(** Both times are set and the end is after the start. *)
Definition validPeriod (notBefore notAfter : Z) : bool :=
  negb (IsZero notBefore) && negb (IsZero notAfter) &&
  (notBefore <? notAfter)%Z.

Definition Issuer_validateCertificate (m : Issuer) : result unit :=
  let? _ := validateLength "ikid" (i_Ikid m) MaxLenForLabel false in
  let? _ := validateLength "serial number" (i_SerialNumber m) MaxLenForLabel true in
  let? _ := validateLength "subject" (i_Subject m) MaxLenForName true in
  let? _ := validateLength "issuer" (i_Issuer m) MaxLenForName true in
  if negb (String.length (i_Sha256 m) =? MaxLenForSha256)%nat
  then invalid "invalid sha256 length"
  else if negb (validPeriod (i_NotBefore m) (i_NotAfter m))
  then invalid "invalid validity period"
  else if bool_decide (i_Pem m = EmptyString)
  then invalid "invalid pem: required"
  else Ok tt.

Definition Issuer_Validate (m : Issuer) : result unit :=
  let? _ := validateTenancy (i_OrgID m) (i_ProjectID m) in
  let? _ := validateLength "label" (i_Label m) MaxLenForLabel true in
  if bool_decide (i_Type m = AuthorityType_Unknown)
  then invalid "invalid issuer type"
  else if bool_decide (i_Status m = IssuerStatus_Unknown)
  then invalid "invalid issuer status"
  else
  let? _ := validateLength "skid" (i_Skid m) MaxLenForLabel true in
  let? _ := validateLength "key provider" (i_KeyProvider m) MaxLenForLabel true in
  let? _ := validateLength "key ID" (i_KeyID m) MaxLenForName true in
  if bool_decide (i_Status m = IssuerStatus_Pending) then
    if bool_decide (i_CsrPem m = EmptyString)
    then invalid "invalid csr: required for a pending issuer"
    else validateLength "subject" (i_Subject m) MaxLenForName true
  else Issuer_validateCertificate m.

Definition Certificate_Validate (m : Certificate) : result unit :=
  let? _ := validateTenancy (c_OrgID m) (c_ProjectID m) in
  let? _ := validateLength "skid" (c_Skid m) MaxLenForLabel true in
  let? _ := validateLength "ikid" (c_Ikid m) MaxLenForLabel true in
  let? _ := validateLength "serial number" (c_SerialNumber m) MaxLenForLabel true in
  let? _ := validateLength "subject" (c_Subject m) MaxLenForName true in
  let? _ := validateLength "issuer" (c_Issuer m) MaxLenForName true in
  if negb (String.length (c_Sha256 m) =? MaxLenForSha256)%nat
  then invalid "invalid sha256 length"
  else
  let? _ := validateLength "profile" (c_Profile m) MaxLenForLabel true in
  let? _ := validateLength "label" (c_Label m) MaxLenForName false in
  let? _ := validateLocations (c_Locations m) in
  if negb (validPeriod (c_NotBefore m) (c_NotAfter m))
  then invalid "invalid validity period"
  else if bool_decide (c_Pem m = EmptyString)
  then invalid "invalid pem: required"
  else if bool_decide (c_Status m = CertificateStatus_Unknown)
  then invalid "invalid certificate status"
  else Ok tt.

Definition Certificate_IsExpired (m : Certificate) (now : Z) : bool :=
  (c_NotAfter m <? now)%Z.

Definition Revoked_Validate (m : Revoked) : result unit :=
  let? _ := validateTenancy (r_OrgID m) (r_ProjectID m) in
  if IsZero (r_CertificateID m) then invalid "invalid certificate ID"
  else
  let? _ := validateLength "ikid" (r_Ikid m) MaxLenForLabel true in
  let? _ := validateLength "serial number" (r_SerialNumber m) MaxLenForLabel true in
  let? _ := validateLength "reason text" (r_ReasonText m) MaxLenForName false in
  if IsZero (r_NotAfter m) then invalid "invalid not after time"
  else if IsZero (r_RevokedAt m) then invalid "invalid revocation time"
  else Ok tt.

Definition Crl_Validate (m : Crl) : result unit :=
  let? _ := validateTenancy (l_OrgID m) (l_ProjectID m) in
  if IsZero (l_IssuerID m) then invalid "invalid issuer ID"
  else
  let? _ := validateLength "ikid" (l_Ikid m) MaxLenForLabel true in
  if (l_CrlNumber m <=? 0)%Z then invalid "invalid crl number: must be positive"
  else if negb (validPeriod (l_ThisUpdate m) (l_NextUpdate m))
  then invalid "invalid update period"
  else
  let? _ := validateLength "issuer" (l_Issuer m) MaxLenForName true in
  let? _ := validateLocations (l_Locations m) in
  if bool_decide (l_Pem m = EmptyString) then invalid "invalid pem: required"
  else Ok tt.

Definition RootCertificate_Validate (m : RootCertificate) : result unit :=
  let? _ := validateLength "skid" (t_Skid m) MaxLenForLabel true in
  let? _ := validateLength "subject" (t_Subject m) MaxLenForName true in
  if negb (String.length (t_Sha256 m) =? MaxLenForSha256)%nat
  then invalid "invalid sha256 length"
  else if negb (validPeriod (t_NotBefore m) (t_NotAfter m))
  then invalid "invalid validity period"
  else if bool_decide (t_Pem m = EmptyString)
  then invalid "invalid pem: required"
  else Ok tt.

Definition CertificateProfile_Validate (m : CertificateProfile)
  : result unit :=
  let? _ := validateTenancy (p_OrgID m) (p_ProjectID m) in
  let? _ := validateLength "label" (p_Label m) MaxLenForLabel true in
  let? _ := validateLength "issuer label" (p_IssuerLabel m) MaxLenForLabel true in
  if bool_decide (p_Status m = ItemStatus_Unknown)
  then invalid "invalid profile status"
  else Ok tt.

Definition Event_Validate (m : Event) : result unit :=
  if bool_decide (e_Title m = EmptyString) then invalid "invalid title"
  else if (e_Type m =? 0)%Z then invalid "invalid type"
  else Ok tt.

(** [NewRevokedCertificate] joins the rows as the view does. *)
Definition NewRevokedCertificate (c : Certificate) (r : Revoked)
  : RevokedCertificate := mkRevokedCertificate r c.

(** ** Column updates *)

Definition set_c_Status (st : CertificateStatus_Enum) (c : Certificate)
  : Certificate :=
  mkCertificate (c_ID c) (c_OrgID c) (c_ProjectID c) (c_Skid c) (c_Ikid c)
    (c_SerialNumber c) (c_NotBefore c) (c_NotAfter c) (c_Subject c)
    (c_Issuer c) (c_Sha256 c) (c_Profile c) (c_Label c) (c_Locations c)
    (c_Metadata c) (c_Pem c) (c_IssuersPem c) st (c_CreatedAt c).

Definition set_c_ID (id : Z) (c : Certificate) : Certificate :=
  mkCertificate id (c_OrgID c) (c_ProjectID c) (c_Skid c) (c_Ikid c)
    (c_SerialNumber c) (c_NotBefore c) (c_NotAfter c) (c_Subject c)
    (c_Issuer c) (c_Sha256 c) (c_Profile c) (c_Label c) (c_Locations c)
    (c_Metadata c) (c_Pem c) (c_IssuersPem c) (c_Status c) (c_CreatedAt c).

Definition set_c_CreatedAt (t : Z) (c : Certificate) : Certificate :=
  mkCertificate (c_ID c) (c_OrgID c) (c_ProjectID c) (c_Skid c) (c_Ikid c)
    (c_SerialNumber c) (c_NotBefore c) (c_NotAfter c) (c_Subject c)
    (c_Issuer c) (c_Sha256 c) (c_Profile c) (c_Label c) (c_Locations c)
    (c_Metadata c) (c_Pem c) (c_IssuersPem c) (c_Status c) t.

(** The client columns a certificate update replaces. *)
Definition set_c_client (label : option string) (metadata : option Metadata)
    (locations : option (list string)) (c : Certificate) : Certificate :=
  mkCertificate (c_ID c) (c_OrgID c) (c_ProjectID c) (c_Skid c) (c_Ikid c)
    (c_SerialNumber c) (c_NotBefore c) (c_NotAfter c) (c_Subject c)
    (c_Issuer c) (c_Sha256 c) (c_Profile c)
    (default (c_Label c) label) (default (c_Locations c) locations)
    (default (c_Metadata c) metadata) (c_Pem c) (c_IssuersPem c) (c_Status c)
    (c_CreatedAt c).

(** The columns an issuer update changes: status, key material, settings. *)
Definition set_i_update (st : IssuerStatus_Enum) (key config : string)
    (now : Z) (m : Issuer) : Issuer :=
  mkIssuer (i_ID m) (i_OrgID m) (i_ProjectID m) (i_Label m) (i_Type m) st
    (i_ParentID m) (i_Skid m) (i_Ikid m) (i_SerialNumber m) (i_Subject m)
    (i_Issuer m) (i_Sha256 m) (i_NotBefore m) (i_NotAfter m) (i_Pem m)
    (i_ChainPem m) (i_RootPem m) (i_CsrPem m) (i_KeyProvider m) (i_KeyID m)
    key config (i_CrlNumber m) (i_CreatedAt m) now.

(** The certificate columns an activation sets, from the model [c]. *)
Definition set_i_certificate (c : Issuer) (now : Z) (m : Issuer) : Issuer :=
  mkIssuer (i_ID m) (i_OrgID m) (i_ProjectID m) (i_Label m) (i_Type m)
    IssuerStatus_Active (i_ParentID m) (i_Skid c) (i_Ikid c)
    (i_SerialNumber c) (i_Subject c) (i_Issuer c) (i_Sha256 c)
    (i_NotBefore c) (i_NotAfter c) (i_Pem c) (i_ChainPem c) (i_RootPem c) ""
    (i_KeyProvider m) (i_KeyID m) (i_KeyProtected m) (i_Config m)
    (i_CrlNumber m) (i_CreatedAt m) now.

Definition set_i_CrlNumber (n : Z) (m : Issuer) : Issuer :=
  mkIssuer (i_ID m) (i_OrgID m) (i_ProjectID m) (i_Label m) (i_Type m)
    (i_Status m) (i_ParentID m) (i_Skid m) (i_Ikid m) (i_SerialNumber m)
    (i_Subject m) (i_Issuer m) (i_Sha256 m) (i_NotBefore m) (i_NotAfter m)
    (i_Pem m) (i_ChainPem m) (i_RootPem m) (i_CsrPem m) (i_KeyProvider m)
    (i_KeyID m) (i_KeyProtected m) (i_Config m) n (i_CreatedAt m)
    (i_UpdatedAt m).

(** The certificate columns of a parsed certificate and its PEMs. *)
Definition SetCertificate (crt : x509_Certificate)
    (pem chainPem rootPem : string) (m : Issuer) : Issuer :=
  mkIssuer (i_ID m) (i_OrgID m) (i_ProjectID m) (i_Label m) (i_Type m)
    (i_Status m) (i_ParentID m) (x_SubjectKeyID crt) (x_AuthorityKeyID crt)
    (x_SerialNumber crt) (x_Subject crt) (x_Issuer crt) (x_Sha256 crt)
    (x_NotBefore crt) (x_NotAfter crt) pem chainPem rootPem (i_CsrPem m)
    (i_KeyProvider m) (i_KeyID m) (i_KeyProtected m) (i_Config m)
    (i_CrlNumber m) (i_CreatedAt m) (i_UpdatedAt m).

Definition set_i_ID (id : Z) (m : Issuer) : Issuer :=
  mkIssuer id (i_OrgID m) (i_ProjectID m) (i_Label m) (i_Type m)
    (i_Status m) (i_ParentID m) (i_Skid m) (i_Ikid m) (i_SerialNumber m)
    (i_Subject m) (i_Issuer m) (i_Sha256 m) (i_NotBefore m) (i_NotAfter m)
    (i_Pem m) (i_ChainPem m) (i_RootPem m) (i_CsrPem m) (i_KeyProvider m)
    (i_KeyID m) (i_KeyProtected m) (i_Config m) (i_CrlNumber m)
    (i_CreatedAt m) (i_UpdatedAt m).

(** The row inserted for an issuer: its ID and the two timestamps. *)
Definition set_i_insert (id now : Z) (m : Issuer) : Issuer :=
  mkIssuer id (i_OrgID m) (i_ProjectID m) (i_Label m) (i_Type m)
    (i_Status m) (i_ParentID m) (i_Skid m) (i_Ikid m) (i_SerialNumber m)
    (i_Subject m) (i_Issuer m) (i_Sha256 m) (i_NotBefore m) (i_NotAfter m)
    (i_Pem m) (i_ChainPem m) (i_RootPem m) (i_CsrPem m) (i_KeyProvider m)
    (i_KeyID m) (i_KeyProtected m) (i_Config m) (i_CrlNumber m) now now.

(** The model of an activation: Active and without a CSR. *)
Definition set_i_activated (m : Issuer) : Issuer :=
  mkIssuer (i_ID m) (i_OrgID m) (i_ProjectID m) (i_Label m) (i_Type m)
    IssuerStatus_Active (i_ParentID m) (i_Skid m) (i_Ikid m)
    (i_SerialNumber m) (i_Subject m) (i_Issuer m) (i_Sha256 m)
    (i_NotBefore m) (i_NotAfter m) (i_Pem m) (i_ChainPem m) (i_RootPem m) ""
    (i_KeyProvider m) (i_KeyID m) (i_KeyProtected m) (i_Config m)
    (i_CrlNumber m) (i_CreatedAt m) (i_UpdatedAt m).

(** The row inserted for a profile, and the columns a replacement sets. *)
Definition set_p_insert (id : Z) (st : ItemStatus_Enum) (now : Z)
    (m : CertificateProfile) : CertificateProfile :=
  mkProfile id (p_OrgID m) (p_ProjectID m) (p_Label m) (p_IssuerLabel m) st
    (p_Config m) now now.
Definition set_p_replace (x : CertificateProfile) (now : Z)
    (m : CertificateProfile) : CertificateProfile :=
  mkProfile (p_ID m) (p_OrgID m) (p_ProjectID m) (p_Label m)
    (p_IssuerLabel x) (p_Status x) (p_Config x) (p_CreatedAt m) now.

(** The row inserted for a CRL, with the tenancy and name of its issuer. *)
Definition set_l_insert (id now : Z) (i : Issuer) (m : Crl) : Crl :=
  mkCrl id (i_OrgID i) (i_ProjectID i) (l_IssuerID m) (l_Ikid m)
    (l_CrlNumber m) (l_ThisUpdate m) (l_NextUpdate m) (i_Subject i)
    (l_Pem m) (l_Locations m) now.
(** The columns a newer CRL [x] of the same issuer replaces. *)
Definition set_l_replace (x m : Crl) : Crl :=
  mkCrl (l_ID m) (l_OrgID m) (l_ProjectID m) (l_IssuerID m) (l_Ikid m)
    (l_CrlNumber x) (l_ThisUpdate x) (l_NextUpdate x) (l_Issuer x) (l_Pem x)
    (l_Locations x) (l_CreatedAt m).

Definition set_t_insert (id now : Z) (m : RootCertificate) : RootCertificate :=
  mkRoot id (t_OrgID m) (t_Skid m) (t_NotBefore m) (t_NotAfter m)
    (t_Subject m) (t_Sha256 m) (t_Trust m) (t_Pem m) now.
Definition set_t_Trust (tr : Trust_Enum) (m : RootCertificate)
  : RootCertificate :=
  mkRoot (t_ID m) (t_OrgID m) (t_Skid m) (t_NotBefore m) (t_NotAfter m)
    (t_Subject m) (t_Sha256 m) tr (t_Pem m) (t_CreatedAt m).

(** The row inserted for an event, with its title cut. *)
Definition set_e_insert (id now : Z) (m : Event) : Event :=
  mkEvent id (e_OrgID m) (e_ProjectID m) (e_Type m) (take_str 254 (e_Title m))
    (e_Description m) (e_Metadata m) (e_ReferenceID m) (e_Email m)
    (e_Source m) now.
Definition set_e_ReferenceID (ref : Z) (m : Event) : Event :=
  mkEvent (e_ID m) (e_OrgID m) (e_ProjectID m) (e_Type m) (e_Title m)
    (e_Description m) (e_Metadata m) ref (e_Email m) (e_Source m)
    (e_CreatedAt m).

(** ** Lemmas *)

Lemma validateLength_ok name val n required :
  validateLength name val n required = Ok tt <->
  (required = true -> val <> EmptyString) /\ (String.length val <= n)%nat.
Proof.
  unfold validateLength, invalid.
  destruct (required && bool_decide (val = EmptyString)) eqn:E.
  - apply andb_true_iff in E as [-> Hv%bool_decide_eq_true].
    split; [done|]. intros [Hn _]. by destruct Hn.
  - assert (required = true -> val <> EmptyString) as Hr.
    { intros ->. by apply bool_decide_eq_false in E. }
    destruct (Nat.ltb_spec n (String.length val)); split; try done; lia.
Qed.

Lemma validPeriod_spec a b :
  validPeriod a b = true <-> a <> 0%Z /\ b <> 0%Z /\ (a < b)%Z.
Proof.
  unfold validPeriod, IsZero. rewrite !andb_true_iff, !negb_true_iff. lia.
Qed.
