(* ===== verification/PathLength.v ===== *)
(** Path lengths of subordinate CAs: [checkPathLength], [pathLenConstraint]
    and [IsSelfSigned] of [internal/ca/issuer.go].

    A subordinate CA is signed only under a parent chain whose
    pathLenConstraints leave room for it and for the CAs its profile lets it
    sign.  [path_lengths_ok] is the rule of RFC 5280 section 4.2.1.9 on a
    whole path; the theorem is that the walk over the ancestors decides it. *)
From Stdlib Require Import ZArith Lia.
From stdpp Require Import base list strings pretty.
From S2P Require Import Prelude Model.
Local Open Scope Z_scope.

(** [certutil.Bundle]; a nil pointer is [None]. *)
Record Bundle := mkBundle {
  b_Cert : option x509_Certificate; b_Chain : list x509_Certificate; b_RootCert : option x509_Certificate }.

(** Signature verification and the search of an issuer are libraries. *)
Class ChainLib := {
  CheckSignatureFrom : x509_Certificate -> x509_Certificate -> bool;
  FindIssuerCert : x509_Certificate -> list x509_Certificate -> option x509_Certificate -> option x509_Certificate }.

(** The issuer found is one of the certificates searched. *)
Class ChainLaws `{ChainLib} :=
  FindIssuerCert_in c chain root i :
    FindIssuerCert c chain root = Some i -> i ∈ chain \/ root = Some i.

Definition pathLenConstraint (crt : x509_Certificate) : option Z :=
  if negb (x_BasicConstraintsValid crt) || negb (x_IsCA crt) then None
  else if (0 <? x_MaxPathLen crt) ||
          ((x_MaxPathLen crt =? 0) && x_MaxPathLenZero crt)
  then Some (x_MaxPathLen crt)
  else None.

Section walk.
Context `{ChainLib}.

Definition IsSelfSigned (crt : x509_Certificate) : bool :=
  x_IsCA crt && bool_decide (x_RawIssuer crt = x_RawSubject crt) &&
  CheckSignatureFrom crt crt.

(** The constraint of one ancestor at its distance from the subordinate. *)
Definition pathStep (distance : Z) (c : x509_Certificate) (remaining : Z) : result Z :=
  match pathLenConstraint c with
  | Some n =>
      let allowed := n - distance in
      if allowed <? 0
      then Err (OtherError ("the path length of " ++ x_Subject c ++
                  " disallows a subordinate CA"))
      else if (remaining <? 0) || (allowed <? remaining)
      then Ok allowed else Ok remaining
  | None => Ok remaining
  end.

(** The loop of [checkPathLength]: [fuel] counts the distances left up to
    the bound of the loop. *)
Fixpoint pathLoop (chain : list x509_Certificate) (root : option x509_Certificate) (fuel : nat)
    (distance : Z) (crt : option x509_Certificate) (remaining : Z) : result Z :=
  match fuel, crt with
  | O, _ | _, None => Ok remaining
  | S fuel, Some c =>
      let? remaining := pathStep distance c remaining in
      if IsSelfSigned c then Ok remaining
      else pathLoop chain root fuel (distance + 1)
             (FindIssuerCert c chain root) remaining
  end.

(** [maxPathLen] is the path length of the profile; negative is none. *)
Definition checkPathLength (bundle : option Bundle) (maxPathLen : Z)
  : result unit :=
  match bundle with
  | Some (mkBundle (Some cert) chain root) =>
      let? remaining :=
        pathLoop chain root (length chain + 2) 1 (Some cert) (-1) in
      if (0 <=? maxPathLen) && (0 <=? remaining) && (remaining <? maxPathLen)
      then Err (OtherError ("the path length " ++ pretty maxPathLen ++
                  " of the profile exceeds the " ++ pretty remaining ++
                  " the parent chain allows"))
      else Ok tt
  | _ => Err (OtherError "parent certificate is required")
  end.

(** ** The ancestors and the rule of the path *)

(** The certificates from the parent up: each is followed by its issuer,
    until a self-signed one or one whose issuer is not found. *)
Inductive ancestors (chain : list x509_Certificate) (root : option x509_Certificate)
  : option x509_Certificate -> list x509_Certificate -> Prop :=
| ancestors_end : ancestors chain root None []
| ancestors_root c :
    IsSelfSigned c = true -> ancestors chain root (Some c) [c]
| ancestors_next c l :
    IsSelfSigned c = false ->
    ancestors chain root (FindIssuerCert c chain root) l ->
    ancestors chain root (Some c) (c :: l).
End walk.

(** A path of CA certificates by their constraints, the one that issues the
    leaf first: a constraint bounds the CA certificates between it and the
    leaf. *)
Definition path_lengths_ok (path : list (option Z)) : Prop :=
  forall d n, path !! d = Some (Some n) -> Z.of_nat d <= n.

(** The path through a new subordinate with the path length of its profile
    and [k] further CAs below it. *)
Definition subordinate_path (maxPathLen : Z) (k : nat) (l : list x509_Certificate)
  : list (option Z) :=
  replicate k None ++
  (if 0 <=? maxPathLen then Some maxPathLen else None) ::
  (pathLenConstraint <$> l).

(** The further CAs the profile lets the subordinate sign below it.  A profile
    without a path length (negative) bounds nothing, and the code demands room
    for no further CA of it: it compares the path length of the profile only
    when it is not negative ([internal/ca/issuer.go], [checkPathLength]). *)
Definition demanded (maxPathLen : Z) (k : nat) : Prop :=
  (0 <= maxPathLen /\ Z.of_nat k <= maxPathLen) \/ (maxPathLen < 0 /\ k = 0%nat).

(** The bound of one ancestor list, from a distance. *)
Definition leaves_room (l : list x509_Certificate) (distance room : Z) : Prop :=
  forall i c n, l !! i = Some c -> pathLenConstraint c = Some n ->
    distance + Z.of_nat i + room <= n.

Lemma leaves_room_cons c l d r :
  leaves_room (c :: l) d r <->
  (forall n, pathLenConstraint c = Some n -> d + r <= n) /\
  leaves_room l (d + 1) r.
Proof.
  split.
  - intros Hc. split.
    + intros n Hn. specialize (Hc 0%nat c n eq_refl Hn). lia.
    + intros i c' n Hi Hn. specialize (Hc (S i) c' n Hi Hn). lia.
  - intros [H1 H2] [|i] c' n Hi Hn.
    + injection Hi as <-. specialize (H1 n Hn). lia.
    + specialize (H2 i c' n Hi Hn). lia.
Qed.

Lemma leaves_room_nil d r : leaves_room [] d r.
Proof. by intros i c n Hi. Qed.

Lemma subordinate_path_ok p k l :
  demanded p k ->
  path_lengths_ok (subordinate_path p k l) <-> leaves_room l 1 (Z.of_nat k).
Proof.
  intros Hk. unfold subordinate_path. split.
  - intros Hp i c n Hi Hn.
    specialize (Hp (k + S i)%nat n).
    rewrite lookup_app_r, length_replicate in Hp by (rewrite length_replicate; lia).
    replace (k + S i - k)%nat with (S i) in Hp by lia. simpl in Hp.
    rewrite list_lookup_fmap, Hi in Hp. simpl in Hp. rewrite Hn in Hp.
    specialize (Hp eq_refl). lia.
  - intros Hr d n Hd.
    destruct (decide (d < k)%nat) as [Hlt|Hge].
    + rewrite lookup_app_l in Hd by (rewrite length_replicate; lia).
      apply lookup_replicate in Hd. naive_solver.
    + rewrite lookup_app_r, length_replicate in Hd
        by (rewrite length_replicate; lia).
      destruct (d - k)%nat as [|i] eqn:E; simpl in Hd.
      * destruct (0 <=? p) eqn:Ep; simplify_eq. destruct Hk; lia.
      * rewrite list_lookup_fmap in Hd.
        destruct (l !! i) as [c|] eqn:Ec; simpl in Hd; simplify_eq.
        specialize (Hr i c n Ec ltac:(congruence)). lia.
Qed.

Section correct.
Context `{ChainLaws}.

Lemma walk_in chain root crt l c :
  ancestors chain root crt l -> c ∈ l ->
  crt = Some c \/ c ∈ chain \/ root = Some c.
Proof.
  intros Ha. induction Ha as [|c0 Hs|c0 l Hs Ha IH]; intros Hc.
  - by apply elem_of_nil in Hc.
  - apply list_elem_of_singleton in Hc as ->. by left.
  - apply elem_of_cons in Hc as [->|Hc]; [by left|]. right.
    destruct (IH Hc) as [Hf|Hr]; [|done].
    by apply FindIssuerCert_in in Hf.
Qed.

(** Distinct ancestors fit in the bound of the loop. *)
Lemma walk_length chain root cert l :
  ancestors chain root (Some cert) l -> NoDup l ->
  (length l <= length chain + 2)%nat.
Proof.
  intros Ha Hd.
  assert (Hsub : l ⊆ cert :: chain ++ option_list root).
  { intros c Hc. destruct (walk_in _ _ _ _ _ Ha Hc) as [Hq|[Hq|Hq]];
      rewrite elem_of_cons, elem_of_app.
    - injection Hq as ->. by left.
    - by right; left.
    - right; right. rewrite Hq. simpl. by apply list_elem_of_singleton. }
  apply NoDup_submseteq, submseteq_length in Hsub; [|done].
  rewrite length_cons, length_app in Hsub.
  destruct root; simpl in Hsub; lia.
Qed.

(** A remaining path length admits [p] further CAs. *)
Definition admits (remaining p : Z) : Prop := remaining < 0 \/ p <= remaining.

Lemma pathStep_ok d c rem :
  match pathStep d c rem with
  | Err _ => exists n, pathLenConstraint c = Some n /\ n < d
  | Ok r => (forall n, pathLenConstraint c = Some n -> d <= n) /\
      forall p, 0 <= p -> admits r p <->
        admits rem p /\ forall n, pathLenConstraint c = Some n -> d + p <= n
  end.
Proof.
  unfold pathStep, admits. destruct (pathLenConstraint c) as [n|].
  - destruct (n - d <? 0) eqn:E1; [exists n; split; [done|lia]|].
    destruct (_ || _) eqn:E2; (split; [intros ? [= ->]; lia|]);
      intros p Hp; (split; [intros Hr; split; [lia|intros ? [= ->]; lia]|]);
      intros [Hr Hn]; specialize (Hn n eq_refl); lia.
  - split; [done|]. intros p Hp. split; [by split|by intros [? _]].
Qed.

Lemma pathLoop_ok chain root crt l :
  ancestors chain root crt l -> forall fuel d rem, (length l <= fuel)%nat ->
  match pathLoop chain root fuel d crt rem with
  | Err _ => ~ leaves_room l d 0
  | Ok r => leaves_room l d 0 /\
      forall p, 0 <= p -> admits r p <-> admits rem p /\ leaves_room l d p
  end.
Proof.
  pose proof leaves_room_nil as Hnil.
  intros Ha. induction Ha as [|c Hs|c l Hs Ha IH]; intros fuel d rem Hl;
    [destruct fuel; (split; [done|]); intros; by split; [split|intros []]|..];
    (destruct fuel as [|fuel]; [simpl in Hl; lia|]); simpl in *;
    pose proof (pathStep_ok d c rem) as Hst;
    destruct (pathStep d c rem) as [r|e]; simpl; rewrite ?Hs;
    try (intros Hr; apply leaves_room_cons in Hr as [Hr _];
         destruct Hst as (n & Hn & Hlt); specialize (Hr n Hn); lia).
  - destruct Hst as [H1 H2]. rewrite leaves_room_cons.
    split; [split; [intros n Hn; specialize (H1 n Hn); lia|done]|].
    intros p Hp. rewrite leaves_room_cons, (H2 p Hp). naive_solver.
  - destruct Hst as [H1 H2]. specialize (IH fuel (d + 1) r ltac:(lia)).
    destruct (pathLoop _ _ _ _ _ r) as [r'|e].
    + destruct IH as [IH1 IH2]. rewrite leaves_room_cons.
      split; [split; [intros n Hn; specialize (H1 n Hn); lia|done]|].
      intros p Hp. rewrite leaves_room_cons, (IH2 p Hp), (H2 p Hp). tauto.
    + by rewrite leaves_room_cons; intros [_ Hr].
Qed.

Lemma leaves_room_mono l d r r' :
  r <= r' -> leaves_room l d r' -> leaves_room l d r.
Proof. intros Hle Hr i c n Hi Hn. specialize (Hr i c n Hi Hn). lia. Qed.

(** C31: A subordinate CA is accepted exactly when every path through it
    keeps to the pathLenConstraints of RFC 5280: for the ancestors of the
    parent, the subordinate with the path length of its profile, and every
    number of further CAs the profile lets it sign.  The bound of the walk
    covers every chain without repetitions, in any order of the bundle. *)
Theorem checkPathLength_rfc5280 (cert : x509_Certificate) (chain : list x509_Certificate)
    (root : option x509_Certificate) (maxPathLen : Z) (l : list x509_Certificate) :
  ancestors chain root (Some cert) l -> NoDup l ->
  checkPathLength (Some (mkBundle (Some cert) chain root)) maxPathLen = Ok tt
  <-> forall k, demanded maxPathLen k ->
        path_lengths_ok (subordinate_path maxPathLen k l).
Proof.
  intros Ha Hd.
  pose proof (pathLoop_ok _ _ _ _ Ha _ 1 (-1) (walk_length _ _ _ _ Ha Hd)) as Hp.
  assert (Hroom : (forall k, demanded maxPathLen k ->
                     path_lengths_ok (subordinate_path maxPathLen k l)) <->
                  leaves_room l 1 (Z.max 0 maxPathLen)).
  { split.
    - intros Hk. specialize (Hk (Z.to_nat (Z.max 0 maxPathLen))
        ltac:(unfold demanded; lia)).
      rewrite subordinate_path_ok in Hk by (unfold demanded; lia).
      by rewrite Z2Nat.id in Hk by lia.
    - intros Hr k Hk. apply subordinate_path_ok; [done|].
      eapply leaves_room_mono, Hr. unfold demanded in Hk. lia. }
  rewrite Hroom. unfold checkPathLength.
  destruct (pathLoop _ _ _ _ _ _) as [r|e]; simpl.
  - destruct Hp as [Hz Hr]. specialize (Hr (Z.max 0 maxPathLen) ltac:(lia)).
    unfold admits in Hr. destruct (_ && _) eqn:E.
    + split; [done|]. intros Hl.
      destruct (proj2 Hr (conj (or_introl eq_refl) Hl)); lia.
    + split; [|done]. intros _.
      destruct (decide (0 <= maxPathLen)); [apply Hr; lia|].
      by replace (Z.max 0 maxPathLen) with 0 by lia.
  - split; [done|]. intros Hl. destruct Hp. eapply leaves_room_mono, Hl. lia.
Qed.
End correct.

(** ** A concrete chain *)

(** An issuer is found by its subject; the root signs itself. *)
Definition example_chain_lib : ChainLib := {|
  CheckSignatureFrom c i := bool_decide (x_RawIssuer c = x_RawSubject i);
  FindIssuerCert c chain root :=
    List.find (fun i => bool_decide (x_RawSubject i = x_RawIssuer c))
      (chain ++ option_list root) |}.

#[local] Instance example_chain_laws : @ChainLaws example_chain_lib.
Proof.
  intros c chain root i Hf. apply List.find_some in Hf as [Hf _].
  apply List.in_app_or in Hf as [Hf|Hf].
  - left. by apply list_elem_of_In.
  - right. destruct root; simpl in Hf; [by destruct Hf as [->|]|done].
Qed.

Definition example_ca (subject issuer : string) (len : Z)
  : x509_Certificate :=
  mkX509 subject issuer "1" subject issuer "" 0 0 true true len (len =? 0)
    issuer subject.

Lemma checkPathLength_rfc5280_witness :
  path_lengths_ok (subordinate_path 0 0
    [example_ca "parent" "root" 1; example_ca "root" "root" (-1)]) /\
  @checkPathLength example_chain_lib
    (Some (mkBundle (Some (example_ca "parent" "root" 1)) []
             (Some (example_ca "root" "root" (-1))))) 1 <> Ok tt.
Proof.
  split; [|vm_compute; discriminate].
  apply (@checkPathLength_rfc5280 example_chain_lib example_chain_laws
           (example_ca "parent" "root" 1) []
           (Some (example_ca "root" "root" (-1))) 0
           [example_ca "parent" "root" 1; example_ca "root" "root" (-1)]).
  - apply ancestors_next; [done|]. by apply ancestors_root.
  - by apply (bool_decide_unpack _).
  - reflexivity.
  - left. lia.
Defined.
