(* ===== verification/Base64.v ===== *)
(** [base64.RawURLEncoding] of the Go standard library: the URL alphabet
    without padding.  Decoding skips line ends, refuses a character outside
    the alphabet and a single trailing character, and does not look at the
    unused bits of the last character, as the default decoder does. *)
From Stdlib Require Import NArith Lia Ascii.
From stdpp Require Import base list strings.
From S2P Require Import Prelude.
Local Open Scope N_scope.

Fixpoint chars (s : string) : list ascii :=
  match s with EmptyString => [] | String a r => a :: chars r end.

Definition alphabet : list ascii := Eval compute in
  chars "ABCDEFGHIJKLMNOPQRSTUVWXYZabcdefghijklmnopqrstuvwxyz0123456789-_".

(** The character of a sextet and the sextet of a character. *)
Definition enc6 (n : N) : ascii := nth (N.to_nat n) alphabet "A"%char.

Fixpoint index (c : ascii) (l : list ascii) : option N :=
  match l with
  | [] => None
  | a :: r => if Ascii.eqb a c then Some 0 else N.succ <$> index c r
  end.
Definition dec6 (c : ascii) : option N := index c alphabet.

Fixpoint EncodeToString (s : string) : string :=
  match s with
  | EmptyString => EmptyString
  | String a EmptyString =>
      let a := N_of_ascii a in
      String (enc6 (a / 4)) (String (enc6 (a mod 4 * 16)) EmptyString)
  | String a (String b EmptyString) =>
      let a := N_of_ascii a in
      let b := N_of_ascii b in
      String (enc6 (a / 4)) (String (enc6 (a mod 4 * 16 + b / 16))
        (String (enc6 (b mod 16 * 4)) EmptyString))
  | String a (String b (String c r)) =>
      let a := N_of_ascii a in
      let b := N_of_ascii b in
      let c := N_of_ascii c in
      String (enc6 (a / 4)) (String (enc6 (a mod 4 * 16 + b / 16))
        (String (enc6 (b mod 16 * 4 + c / 64)) (String (enc6 (c mod 64))
          (EncodeToString r))))
  end.

Definition is_newline (c : ascii) : bool :=
  Ascii.eqb c (ascii_of_N 10) || Ascii.eqb c (ascii_of_N 13).

Fixpoint skipNewlines (s : string) : string :=
  match s with
  | EmptyString => EmptyString
  | String a r => if is_newline a then skipNewlines r
                  else String a (skipNewlines r)
  end.

(** The bytes of a group of sextets. *)
Definition byte1 (a b : N) : ascii := ascii_of_N ((a * 4 + b / 16) mod 256).
Definition byte2 (b c : N) : ascii := ascii_of_N ((b * 16 + c / 4) mod 256).
Definition byte3 (c d : N) : ascii := ascii_of_N ((c * 64 + d) mod 256).

Fixpoint decodeGroups (s : string) : option string :=
  match s with
  | EmptyString => Some EmptyString
  | String _ EmptyString => None
  | String a (String b EmptyString) =>
      a ← dec6 a; b ← dec6 b; Some (String (byte1 a b) EmptyString)
  | String a (String b (String c EmptyString)) =>
      a ← dec6 a; b ← dec6 b; c ← dec6 c;
      Some (String (byte1 a b) (String (byte2 b c) EmptyString))
  | String a (String b (String c (String d r))) =>
      a ← dec6 a; b ← dec6 b; c ← dec6 c; d ← dec6 d; r ← decodeGroups r;
      Some (String (byte1 a b) (String (byte2 b c) (String (byte3 c d) r)))
  end.

Definition DecodeString (s : string) : option string :=
  decodeGroups (skipNewlines s).

(** ** Decoding inverts encoding *)

Lemma sextets n (f : N -> bool) :
  forallb f (N.of_nat <$> seq 0 64) = true -> n < 64 -> f n = true.
Proof.
  intros Hf Hn. rewrite forallb_elem_of in Hf. apply Hf.
  apply list_elem_of_fmap. exists (N.to_nat n). rewrite N2Nat.id.
  split; [done|]. apply elem_of_seq. lia.
Qed.

Lemma dec6_enc6 n : n < 64 -> dec6 (enc6 n) = Some n.
Proof.
  intros Hn. apply (bool_decide_eq_true_1 _).
  by apply (sextets n (fun n => bool_decide (dec6 (enc6 n) = Some n))).
Qed.

Lemma enc6_newline n : n < 64 -> is_newline (enc6 n) = false.
Proof.
  intros Hn. apply negb_true_iff.
  by apply (sextets n (fun n => negb (is_newline (enc6 n)))).
Qed.

(** Three bytes at a time. *)
Lemma string_triples (P : string -> Prop) :
  P EmptyString -> (forall a, P (String a EmptyString)) ->
  (forall a b, P (String a (String b EmptyString))) ->
  (forall a b c r, P r -> P (String a (String b (String c r)))) ->
  forall s, P s.
Proof.
  intros H0 H1 H2 H3. fix IH 1. intros [|a [|b [|c r]]];
    [done|apply H1|apply H2|apply H3, IH].
Qed.

Ltac sextet :=
  match goal with
  | |- context [dec6 (enc6 ?n)] =>
      rewrite (dec6_enc6 n) by (zify; Z.to_euclidean_division_equations; lia)
  | |- context [is_newline (enc6 ?n)] =>
      rewrite (enc6_newline n) by (zify; Z.to_euclidean_division_equations; lia)
  end.

(** The bytes read back. *)
Lemma byte_eq a n : n mod 256 = N_of_ascii a -> ascii_of_N (n mod 256) = a.
Proof. intros ->. apply ascii_N_embedding. Qed.

Lemma DecodeString_EncodeToString s : DecodeString (EncodeToString s) = Some s.
Proof.
  unfold DecodeString.
  induction s as [|a|a b|a b c r IH] using string_triples; [done|..];
    pose proof (N_ascii_bounded a); try pose proof (N_ascii_bounded b);
    try pose proof (N_ascii_bounded c);
    cbn [EncodeToString skipNewlines]; repeat sextet;
    cbn [decodeGroups]; repeat sextet; simpl; rewrite ?IH; simpl;
    repeat f_equal; apply byte_eq; zify; Z.to_euclidean_division_equations; lia.
Qed.
