(* ===== verification/Query.v ===== *)
(** Query scopes and pagination: [internal/db/pgsql/query/scope.go] and
    [cursor.go], and [listRows] of [internal/db/pgsql/provider.go].

    A query is a predicate on rows.  The tenancy part of the query params is
    a record; [whereTenancy] is the predicate the SQL expresses.  A list is
    ordered by id, newest first, and paged by offset or by keyset. *)
From S2P Require Import Prelude Xdb GoStrings Tenancy.
From stdpp Require Import base list sets strings sorting.

Definition ErrOrgScopeRequired : error :=
  Sentinel "org scope is required: set OrgID, Platform or AllOrgs".
Definition ErrOrgRequired : error := Sentinel "org ID is required".

(** ** Tenancy of a query *)

(** What [Set] and [SetEnum] record at the project position. *)
Inductive project_param :=
| PValue (id : Z)
| PArray (ids : list Z)
| PEnum (scope : Scope_Enum).

(** The tenancy part of [xdb.QueryParamsBuilder]: the two positions, the
    IS NULL columns and the flags. *)
Record QueryParams := mkParams {
  qp_org : option Z; qp_project : option project_param;
  qp_nulls : list string; qp_flags : list Z }.

Definition NewQueryParams : QueryParams := mkParams None None [] [].

Definition orgIDColumn : string := "org_id".
Definition projectIDColumn : string := "project_id".
Definition visibleProjectsFlag : Z := 1.

Definition addNullColumn (b : QueryParams) (col : string) : QueryParams :=
  mkParams (qp_org b) (qp_project b) (qp_nulls b ++ [col]) (qp_flags b).
Definition isNullColumn (p : QueryParams) (col : string) : bool :=
  bool_decide (col ∈ qp_nulls p).

Definition checkCountScope (orgID : Z) : result unit :=
  if (orgID =? 0)%Z then Err ErrOrgRequired else Ok tt.

Definition checkListScope (orgID : Z) (platform allOrgs : bool) : result unit :=
  if (orgID =? 0)%Z && negb platform && negb allOrgs
  then Err ErrOrgScopeRequired else Ok tt.

Definition setProjectScope (b : QueryParams) (projectID : Z)
    (scope : Scope_Enum) : QueryParams :=
  if negb (projectID =? 0)%Z then
    mkParams (qp_org b) (Some (PValue projectID)) (qp_nulls b) (qp_flags b)
  else match scope with
  | Scope_Org => addNullColumn b projectIDColumn
  | Scope_Project =>
      mkParams (qp_org b) (Some (PEnum Scope_Project)) (qp_nulls b) (qp_flags b)
  | Scope_Undefined => b
  end.

Definition idArray (ids : list Z) : list Z := int64 <$> ids.

(** [None] is a nil slice. *)
Definition setVisibleProjects (b : QueryParams) (projectIDs : option (list Z))
  : QueryParams :=
  match projectIDs with
  | None => b
  | Some ids =>
      if bool_decide (qp_project b <> None) || isNullColumn b projectIDColumn
      then b
      else mkParams (qp_org b) (Some (PArray (idArray ids))) (qp_nulls b)
             (qp_flags b ++ [visibleProjectsFlag])
  end.

(** The predicate on [project_id]; a zero ID is NULL, which satisfies no
    comparison. *)
Definition whereProjectScope (p : QueryParams) (projectID : Z) : bool :=
  if isNullColumn p projectIDColumn then IsZero projectID
  else match qp_project p with
  | None => true
  | Some v =>
      if bool_decide (visibleProjectsFlag ∈ qp_flags p) then
        IsZero projectID ||
        match v with PArray ids => bool_decide (projectID ∈ ids) | _ => false end
      else match v with
      | PEnum _ => negb (IsZero projectID)
      | PValue id => negb (IsZero projectID) && (projectID =? id)%Z
      | PArray _ => false
      end
  end.

Definition setOrgScope (b : QueryParams) (orgID : Z) (platform : bool)
  : QueryParams :=
  if negb (orgID =? 0)%Z then
    mkParams (Some orgID) (qp_project b) (qp_nulls b) (qp_flags b)
  else if platform then addNullColumn b orgIDColumn
  else b.

Definition whereOrgScope (p : QueryParams) (orgID : Z) : bool :=
  if isNullColumn p orgIDColumn then IsZero orgID
  else match qp_org p with
  | Some id => negb (IsZero orgID) && (orgID =? id)%Z
  | None => true
  end.

Definition setTenancy (b : QueryParams) (orgID projectID : Z) : QueryParams :=
  setProjectScope (setOrgScope b orgID true) projectID Scope_Org.

Definition whereTenancy (p : QueryParams) (orgID projectID : Z) : bool :=
  whereOrgScope p orgID && whereProjectScope p projectID.

(** [org_id IS NOT DISTINCT FROM ?]: the exact org, or the platform for
    zero. *)
Definition whereOrgIs (arg orgID : Z) : bool := (orgID =? arg)%Z.

(** ** What the scopes select *)

(** The rows a list with a project, a scope kind and visible projects is
    limited to. *)
Definition project_selected (reqProject : Z) (scope : Scope_Enum)
    (visible : option (list Z)) (rowProject : Z) : Prop :=
  if decide (reqProject = 0%Z) then
    match scope with
    | Scope_Org => rowProject = 0%Z
    | Scope_Project => rowProject <> 0%Z
    | Scope_Undefined =>
        match visible with
        | None => True
        | Some ids => rowProject = 0%Z \/ rowProject ∈ ids
        end
    end
  else rowProject = reqProject.

Definition org_selected (reqOrg : Z) (platform : bool) (rowOrg : Z) : Prop :=
  if decide (reqOrg = 0%Z) then platform = true -> rowOrg = 0%Z
  else rowOrg = reqOrg.

(** IDs of rows are positive 64-bit signed numbers. *)
Definition is_row_id (n : Z) : Prop := (0 <= n < 9223372036854775808)%Z.

Lemma int64_row_id n : is_row_id n -> int64 n = n.
Proof.
  unfold is_row_id, int64, max_uint64. intros Hn.
  rewrite Z.mod_small by lia. lia.
Qed.

Lemma idArray_row_ids ids : Forall is_row_id ids -> idArray ids = ids.
Proof.
  unfold idArray. induction 1 as [|x l Hx _ IH]; [done|].
  rewrite fmap_cons, IH, int64_row_id; done.
Qed.

(** The tenancy of the list requests, as their [QueryParams] build it. *)
Definition listParams (orgID : Z) (platform : bool) (projectID : Z)
    (scope : Scope_Enum) (visible : option (list Z)) : QueryParams :=
  setVisibleProjects
    (setProjectScope (setOrgScope NewQueryParams orgID platform) projectID scope)
    visible.

Lemma whereOrgScope_visible b visible rowOrg :
  whereOrgScope (setVisibleProjects b visible) rowOrg = whereOrgScope b rowOrg.
Proof.
  unfold setVisibleProjects. destruct visible; [|done]. by case_match.
Qed.

Lemma whereOrgScope_project b projectID scope rowOrg :
  whereOrgScope (setProjectScope b projectID scope) rowOrg =
  whereOrgScope b rowOrg.
Proof.
  unfold setProjectScope. destruct (negb _); [done|]. destruct scope; try done.
  unfold whereOrgScope, isNullColumn. simpl.
  rewrite (bool_decide_ext _ (orgIDColumn ∈ qp_nulls b)); [done|].
  rewrite elem_of_app, list_elem_of_singleton.
  split; [intros [?|E]; [done|discriminate E]|by left].
Qed.

Lemma whereOrgScope_list orgID platform projectID scope visible rowOrg :
  whereOrgScope (listParams orgID platform projectID scope visible) rowOrg = true
  <-> org_selected orgID platform rowOrg.
Proof.
  unfold listParams. rewrite whereOrgScope_visible, whereOrgScope_project.
  unfold whereOrgScope, setOrgScope, org_selected, isNullColumn, IsZero.
  destruct (Z.eqb_spec orgID 0) as [->|Ho]; simpl.
  - destruct platform; simpl; rewrite ?Z.eqb_eq; naive_solver.
  - rewrite decide_False by done. lia.
Qed.

Lemma whereProjectScope_list orgID platform projectID scope visible rowProject :
  (forall ids, visible = Some ids -> Forall is_row_id ids) ->
  whereProjectScope (listParams orgID platform projectID scope visible)
    rowProject = true
  <-> project_selected projectID scope visible rowProject.
Proof.
  intros Hv. unfold listParams.
  set (b := setOrgScope NewQueryParams orgID platform).
  assert (qp_project b = None /\ qp_flags b = [] /\
    isNullColumn b projectIDColumn = false) as (Hb1 & Hb2 & Hb3).
  { unfold b, setOrgScope. destruct (orgID =? 0)%Z, platform; done. }
  unfold setProjectScope, project_selected, IsZero.
  destruct (Z.eqb_spec projectID 0) as [->|Hp]; simpl.
  - destruct scope; simpl.
    + destruct visible as [ids|]; simpl.
      * rewrite Hb1, Hb3. simpl. unfold whereProjectScope, isNullColumn. simpl.
        fold (isNullColumn b projectIDColumn). rewrite Hb3, Hb2. simpl.
        rewrite idArray_row_ids by (by apply Hv).
        rewrite orb_true_iff, bool_decide_eq_true. unfold IsZero. by rewrite Z.eqb_eq.
      * unfold whereProjectScope. rewrite Hb3, Hb1. done.
    + assert (isNullColumn (addNullColumn b projectIDColumn) projectIDColumn = true)
        as Hn by (apply bool_decide_eq_true; simpl; set_solver).
      unfold setVisibleProjects. destruct visible as [ids|].
      * rewrite Hn, orb_true_r. unfold whereProjectScope. rewrite Hn.
        unfold IsZero. lia.
      * unfold whereProjectScope. rewrite Hn. unfold IsZero. lia.
    + destruct visible as [ids|]; simpl; unfold whereProjectScope, isNullColumn;
        simpl; fold (isNullColumn b projectIDColumn); rewrite Hb3, Hb2; simpl;
        unfold IsZero; lia.
  - rewrite decide_False by done.
    destruct visible as [ids|]; simpl; unfold whereProjectScope, isNullColumn;
      simpl; fold (isNullColumn b projectIDColumn); rewrite Hb3, Hb2; simpl;
      unfold IsZero; lia.
Qed.

(** ** Cursors *)

Definition InitialCursor : string := "initial".

Inductive cursorKind := keyNone | keyID | keyTime | keyName.
#[global] Instance cursorKind_eq_dec : EqDecision cursorKind.
Proof. solve_decision. Defined.

(** The position of a list request; a key of [None] is a nil slice. *)
Record Cursor := mkCursor {
  cur_set : bool; cur_kind : cursorKind; cur_key : option (list key_value) }.

Definition zeroCursor : Cursor := mkCursor false keyNone None.

Definition NewCursor (lastID : Z) : Cursor :=
  if (lastID =? 0)%Z then mkCursor true keyNone None
  else mkCursor true keyID (Some [KID lastID]).

Definition Cursor_checkKey (c : Cursor) (kind : cursorKind) : result unit :=
  if bool_decide (cur_kind c <> keyNone) && bool_decide (cur_kind c <> kind)
  then Err (OtherError "invalid cursor: the cursor of another list")
  else Ok tt.

Definition keyCursor (kind : cursorKind) (id : Z) (key : list key_value)
  : result Cursor :=
  if (id =? 0)%Z then Err (OtherError "invalid cursor: missing id")
  else Ok (mkCursor true kind (Some key)).

Section cursors.
Context `{Xdb}.

(** The first two cases of [decodeCursor], and the scanned key otherwise. *)
Definition decodeCursor (cursor : string) : Cursor + result (list key_value) :=
  if bool_decide (cursor = EmptyString) then inl zeroCursor
  else if bool_decide (cursor = InitialCursor) then inl (NewCursor 0)
  else inr match cursor_scan cursor with
           | Some k => Ok k
           | None => Err (OtherError "invalid cursor")
           end.

(** [Scan] into an ID, into a time and an ID, and into a name and an ID. *)
Definition ParseCursor (cursor : string) : result Cursor :=
  match decodeCursor cursor with
  | inl c => Ok c
  | inr (Ok [KID id]) => keyCursor keyID id [KID id]
  | inr (Ok _) => Err (OtherError "invalid cursor")
  | inr (Err e) => Err e
  end.

Definition ParseTimeCursor (cursor : string) : result Cursor :=
  match decodeCursor cursor with
  | inl c => Ok c
  | inr (Ok [KTime t; KID id]) => keyCursor keyTime id [KTime t; KID id]
  | inr (Ok _) => Err (OtherError "invalid cursor")
  | inr (Err e) => Err e
  end.

Definition ParseNameCursor (cursor : string) : result Cursor :=
  match decodeCursor cursor with
  | inl c => Ok c
  | inr (Ok [KName n; KID id]) => keyCursor keyName id [KName n; KID id]
  | inr (Ok _) => Err (OtherError "invalid cursor")
  | inr (Err e) => Err e
  end.

Definition EncodeCursor (lastID : Z) : string := cursor_token [KID lastID].
Definition EncodeTimeCursor (lastAt lastID : Z) : string :=
  cursor_token [KTime lastAt; KID lastID].
Definition EncodeNameCursor (lastName : string) (lastID : Z) : string :=
  cursor_token [KName lastName; KID lastID].

(** [ListCursor]: a cursor that does not parse is an invalid argument. *)
Definition ListCursor (cursor : string) (parse : string -> result Cursor)
  : result Cursor :=
  match parse cursor with
  | Ok c => Ok c
  | Err _ => Err (Grpc InvalidArgument "invalid cursor")
  end.

Definition Limit (limit : Z) : Z :=
  if (limit =? 0)%Z then DefaultPageSize else limit.
End cursors.

(** ** Lists by id, newest first *)

Record PageResult (R : Type) := mkPage {
  pr_rows : list R; pr_hasNext : bool; pr_nextOffset : Z; pr_cursor : string }.
Arguments mkPage {R}.
Arguments pr_rows {R}.
Arguments pr_hasNext {R}.
Arguments pr_nextOffset {R}.
Arguments pr_cursor {R}.

Section paging.
Context `{Xdb} {R : Type} (rid : R -> Z).

Definition newer_first (a b : R) : Prop := (rid b <= rid a)%Z.
#[global] Instance newer_first_dec : RelDecision newer_first.
Proof. intros a b. unfold newer_first. apply _. Defined.

Definition pageByIDDesc (rows : list R) : list R := merge_sort newer_first rows.

(** The rows of the page [setPage] and [pageBy] select: past the key of a
    cursor, from the start of cursor pagination, or at the offset. *)
Definition pageRows (rows : list R) (limit offset : Z) (c : Cursor) : list R :=
  let ordered := pageByIDDesc rows in
  match cur_key c with
  | Some key =>
      take (Z.to_nat limit)
        (List.filter (fun r => match key with
           | [KID last] => (rid r <? last)%Z
           | _ => false
           end) ordered)
  | None =>
      if cur_set c then take (Z.to_nat limit) ordered
      else take (Z.to_nat limit) (drop (Z.to_nat offset) ordered)
  end.

(** [listRows]: with cursor pagination the page carries the cursor after its
    last row, otherwise the next offset; a zero limit is the default. *)
Definition listRows (rows : list R) (limit offset : Z) (c : Cursor)
  : PageResult R :=
  let limit := Limit limit in
  let page := pageRows rows limit offset c in
  let count := Z.of_nat (length page) in
  let more := has_next count limit in
  if cur_set c then
    mkPage page more 0
      (if more then match last page with
                    | Some r => EncodeCursor (rid r) | None => "" end else "")
  else mkPage page more (next_offset offset count limit) "".

(** The loop of a reader of a whole list: [step] folds a page into the
    result; [None] is out of fuel. *)
Fixpoint readPages {A} (list_page : Cursor -> result (PageResult R))
    (step : A -> list R -> result A) (fuel : nat) (c : Cursor) (acc : A)
  : option (result A) :=
  match fuel with
  | O => None
  | S fuel =>
      match list_page c with
      | Err e => Some (Err e)
      | Ok page =>
          match step acc (pr_rows page) with
          | Err e => Some (Err e)
          | Ok acc =>
              if pr_hasNext page then
                match ParseCursor (pr_cursor page) with
                | Err e => Some (Err e)
                | Ok c' => readPages list_page step fuel c' acc
                end
              else Some (Ok acc)
          end
      end
  end.
End paging.

(** ** Pagination is complete *)

(** The result of folding the pages in order. *)
Fixpoint foldPages {A R} (step : A -> list R -> result A) (acc : A)
    (pages : list (list R)) : result A :=
  match pages with
  | [] => Ok acc
  | p :: rest => let? acc := step acc p in foldPages step acc rest
  end.

Lemma filter_none {A} (f : A -> bool) l :
  (forall x, x ∈ l -> f x = false) -> List.filter f l = [].
Proof.
  induction l as [|a l IH]; intros Hf; [done|]. simpl.
  rewrite (Hf a) by set_solver. apply IH. set_solver.
Qed.

Lemma filter_all {A} (f : A -> bool) l :
  (forall x, x ∈ l -> f x = true) -> List.filter f l = l.
Proof.
  induction l as [|a l IH]; intros Hf; [done|]. simpl.
  rewrite (Hf a) by set_solver. f_equal. apply IH. set_solver.
Qed.

Section complete.
Context `{XL : XdbLaws} {R : Type} (rid : R -> Z).

(** Ids strictly decrease along the list. *)
Definition descending (l : list R) : Prop :=
  StronglySorted (fun a b => (rid b < rid a)%Z) l.

Lemma pageByIDDesc_perm rows : pageByIDDesc rid rows ≡ₚ rows.
Proof. apply merge_sort_Permutation. Qed.

Lemma pageByIDDesc_descending rows :
  NoDup (rid <$> rows) -> descending (pageByIDDesc rid rows).
Proof.
  intros Hnd. assert (NoDup (rid <$> pageByIDDesc rid rows)) as Hnd'
    by (by rewrite pageByIDDesc_perm).
  assert (StronglySorted (newer_first rid) (pageByIDDesc rid rows)) as Hs.
  { apply StronglySorted_merge_sort.
    - intros a b c. unfold newer_first. lia.
    - intros a b. unfold newer_first. lia. }
  unfold descending. induction Hs as [|a l Hs IH Ha]; [constructor|].
  rewrite fmap_cons, NoDup_cons in Hnd'. destruct Hnd' as [Hni Hnd'].
  constructor; [by apply IH|]. apply Forall_forall. intros x Hx.
  rewrite Forall_forall in Ha. specialize (Ha x Hx). unfold newer_first in Ha.
  assert (rid a <> rid x); [|lia]. intros E. apply Hni. rewrite E.
  by apply list_elem_of_fmap_2.
Qed.

Lemma descending_app l1 l2 x y :
  descending (l1 ++ l2) -> x ∈ l1 -> y ∈ l2 -> (rid y < rid x)%Z.
Proof.
  induction l1 as [|a l1 IH]; intros Hd Hx Hy; [by apply not_elem_of_nil in Hx|].
  inversion Hd as [|? ? Hd' Ha]; subst. rewrite Forall_forall in Ha.
  apply elem_of_cons in Hx as [->|Hx]; [|by apply IH].
  apply Ha. set_solver.
Qed.

(** The cursor after the rows already read. *)
Definition cursor_after (read : list R) : Cursor :=
  match last read with
  | None => NewCursor 0
  | Some r => NewCursor (rid r)
  end.

Lemma pageRows_after rows read rest limit :
  NoDup (rid <$> rows) -> Forall (fun r => rid r <> 0%Z) rows ->
  pageByIDDesc rid rows = read ++ rest ->
  pageRows rid rows limit 0 (cursor_after read) = take (Z.to_nat limit) rest.
Proof.
  intros Hnd Hz Heq. pose proof (pageByIDDesc_descending rows Hnd) as Hd.
  rewrite Heq in Hd. unfold cursor_after, pageRows. rewrite Heq.
  destruct (last read) as [r|] eqn:El.
  - assert (r ∈ read) as Hr by (by apply last_Some_elem_of).
    assert (rid r <> 0%Z) as Hrz.
    { rewrite Forall_forall in Hz. apply Hz.
      rewrite <-(pageByIDDesc_perm rows), Heq. set_solver. }
    unfold NewCursor. rewrite (proj2 (Z.eqb_neq _ _) Hrz). simpl. f_equal.
    apply last_Some in El as [l' ->]. rewrite List.filter_app.
    rewrite filter_none, filter_all; [done| |].
    + intros x Hx. apply Z.ltb_lt. eapply descending_app; eauto.
    + intros x Hx. apply Z.ltb_ge. elem_snoc Hx; [|lia].
      rewrite <-app_assoc in Hd.
      pose proof (descending_app l' ([r] ++ rest) x r Hd Hx ltac:(set_solver)).
      lia.
  - apply last_None in El as ->. done.
Qed.

Lemma ParseCursor_EncodeCursor id :
  id <> 0%Z -> ParseCursor (EncodeCursor id) = Ok (NewCursor id).
Proof.
  intros Hid. unfold ParseCursor, EncodeCursor, decodeCursor.
  destruct (cursor_token_reserved [KID id]) as [He Hi]; [done|].
  rewrite !bool_decide_false by done.
  rewrite cursor_scan_token by done. unfold keyCursor, NewCursor.
  by rewrite (proj2 (Z.eqb_neq _ _) Hid).
Qed.

Lemma Limit_pos limit : (0 <= limit)%Z -> (0 < Limit limit)%Z.
Proof.
  unfold Limit. pose proof DefaultPageSize_pos.
  destruct (Z.eqb_spec limit 0); lia.
Qed.

(** The page after the rows already read: another page follows and its
    cursor is after this one, or this one has all the rows that are left. *)
Lemma listRows_after rows limit read rest :
  NoDup (rid <$> rows) -> Forall (fun r => rid r <> 0%Z) rows ->
  (0 <= limit)%Z -> pageByIDDesc rid rows = read ++ rest ->
  let pg := listRows rid rows limit 0 (cursor_after read) in
  (pr_hasNext pg = false /\ pr_rows pg = rest) \/
  exists rest', pr_hasNext pg = true /\ rest = pr_rows pg ++ rest' /\
    (length rest' < length rest)%nat /\
    ParseCursor (pr_cursor pg) = Ok (cursor_after (read ++ pr_rows pg)).
Proof.
  intros Hnd Hz Hl Heq. pose proof (Limit_pos limit Hl) as Hlp.
  assert (cur_set (cursor_after read) = true) as Hset.
  { unfold cursor_after, NewCursor. destruct (last read); by case_match. }
  set (page := take (Z.to_nat (Limit limit)) rest).
  assert (listRows rid rows limit 0 (cursor_after read) =
    mkPage page (has_next (Z.of_nat (length page)) (Limit limit)) 0
      (if has_next (Z.of_nat (length page)) (Limit limit)
       then match last page with
            | Some r => EncodeCursor (rid r) | None => "" end else "")) as ->.
  { unfold listRows. rewrite (pageRows_after rows read rest) by done.
    by rewrite Hset. }
  simpl. destruct (has_next _ _) eqn:En.
  - right. pose proof (has_next_progress _ _ En) as Hpos.
    exists (drop (Z.to_nat (Limit limit)) rest).
    destruct (last page) as [r|] eqn:El; cycle 1.
    { apply last_None in El. rewrite El in Hpos. simpl in Hpos. lia. }
    assert (rid r <> 0%Z) as Hr.
    { rewrite Forall_forall in Hz. apply Hz.
      rewrite <-(pageByIDDesc_perm rows), Heq. apply elem_of_app. right.
      apply last_Some_elem_of in El.
      rewrite <-(take_drop (Z.to_nat (Limit limit)) rest).
      apply elem_of_app. by left. }
    rewrite ParseCursor_EncodeCursor by done. unfold cursor_after.
    rewrite last_app, El. unfold page at 1. rewrite take_drop, length_drop.
    split_and!; try done. assert (length rest <> 0)%nat; [|lia].
    intros E. apply length_zero_iff_nil in E. subst rest.
    unfold page in Hpos. rewrite take_nil in Hpos. simpl in Hpos. lia.
  - left. split; [done|].
    assert (length page < Z.to_nat (Limit limit))%nat as Hlt.
    { destruct (decide (length page < Z.to_nat (Limit limit))%nat); [done|].
      rewrite has_next_full in En; [done|done|lia]. }
    unfold page in *. rewrite length_take in Hlt. apply take_ge. lia.
Qed.

(** A reader sees the whole list in order, page by page, and ends. *)
Lemma readPages_spec {A} rows limit (step : A -> list R -> result A) :
  NoDup (rid <$> rows) -> Forall (fun r => rid r <> 0%Z) rows ->
  (0 <= limit)%Z ->
  forall fuel rest read acc,
    pageByIDDesc rid rows = read ++ rest -> (length rest < fuel)%nat ->
    exists pages, concat pages = rest /\
      readPages (fun c => Ok (listRows rid rows limit 0 c)) step fuel
        (cursor_after read) acc = Some (foldPages step acc pages).
Proof.
  intros Hnd Hz Hl.
  induction fuel as [|fuel IH]; intros rest read acc Heq Hf; [lia|]. simpl.
  set (pg := listRows rid rows limit 0 (cursor_after read)).
  destruct (listRows_after rows limit read rest Hnd Hz Hl Heq)
    as [[En Hp]|(rest' & En & Hp & Hlt & Hc)]; fold pg in En, Hp.
  - exists [rest]. simpl. rewrite app_nil_r, Hp. split; [done|].
    destruct (step acc rest); [|done]. by rewrite En.
  - fold pg in Hc. rewrite Hp, app_assoc in Heq.
    destruct (IH rest' (read ++ pr_rows pg)
      (match step acc (pr_rows pg) with Ok a => a | Err _ => acc end) Heq)
      as (pages & Hpages & Hr); [lia|].
    exists (pr_rows pg :: pages). simpl. rewrite Hpages. split; [done|].
    destruct (step acc (pr_rows pg)); [|done]. by rewrite En, Hc, Hr.
Qed.
End complete.

(** A cursor of the lists by id. *)
Definition id_cursor (c : Cursor) : Prop :=
  cur_kind c = keyNone \/ cur_kind c = keyID.

Lemma NewCursor_id n : id_cursor (NewCursor n).
Proof. unfold NewCursor, id_cursor. case_match; eauto. Qed.

Lemma ParseCursor_id `{Xdb} s c : ParseCursor s = Ok c -> id_cursor c.
Proof.
  unfold ParseCursor, decodeCursor, keyCursor, id_cursor. intros E.
  repeat case_match; simplify_eq/=; auto.
Qed.

Lemma id_cursor_key c : id_cursor c -> Cursor_checkKey c keyID = Ok tt.
Proof.
  unfold Cursor_checkKey. intros Hc.
  do 2 case_bool_decide; simpl; try done. by destruct Hc.
Qed.

(** A reader by id asks for the pages of id cursors only. *)
Lemma readPages_ext `{Xdb} {R A} (page page' : Cursor -> result (PageResult R))
    (step : A -> list R -> result A) :
  (forall c, id_cursor c -> page c = page' c) ->
  forall fuel c acc, id_cursor c ->
    readPages page step fuel c acc = readPages page' step fuel c acc.
Proof.
  intros Hp. induction fuel as [|fuel IH]; intros c acc Hc; [done|]. simpl.
  rewrite Hp by done. destruct (page' c) as [pg|]; [|done].
  destruct (step acc _); [|done]. destruct (pr_hasNext pg); [|done].
  destruct (ParseCursor _) eqn:E; [|done]. by eapply IH, ParseCursor_id.
Qed.

Lemma foldPages_concat {R} (acc : list R) pages :
  foldPages (fun a p => Ok (a ++ p)) acc pages = Ok (acc ++ concat pages).
Proof.
  revert acc. induction pages as [|p pages IH]; intros acc; simpl.
  - by rewrite app_nil_r.
  - by rewrite IH, <-app_assoc.
Qed.

(** Reading a list page by page with the returned cursors ends and
    returns every row of the list exactly once, newest first, whatever the
    page size. *)
Theorem cursor_pagination_complete `{XdbLaws} {R : Type} (rid : R -> Z)
    (rows : list R) (limit : Z)
    (Hnd : NoDup (rid <$> rows)) (Hz : Forall (fun r => rid r <> 0%Z) rows)
    (Hl : (0 <= limit)%Z) :
  exists all,
    readPages (fun c => Ok (listRows rid rows limit 0 c))
      (fun acc page => Ok (acc ++ page)) (S (length rows)) (NewCursor 0) []
    = Some (Ok all) /\
    all ≡ₚ rows /\ descending rid all.
Proof.
  exists (pageByIDDesc rid rows).
  destruct (readPages_spec rid rows limit (fun acc page => Ok (acc ++ page))
    Hnd Hz Hl (S (length rows)) (pageByIDDesc rid rows) [] [])
    as (pages & Hc & Hr); [done| |].
  { rewrite (Permutation_length (pageByIDDesc_perm rid rows)). lia. }
  simpl in Hr. split_and!.
  - etrans; [exact Hr|]. by rewrite foldPages_concat, Hc.
  - apply pageByIDDesc_perm.
  - by apply pageByIDDesc_descending.
Qed.

(** Five rows in pages of two. *)
Lemma cursor_pagination_complete_witness :
  exists all : list Z,
    readPages (fun c => Ok (listRows (fun n => n) [3; 1; 5; 2; 4]%Z 2 0 c))
      (fun acc page => Ok (acc ++ page)) 6 (NewCursor 0) []
    = Some (Ok all) /\
    all ≡ₚ [3; 1; 5; 2; 4]%Z /\ descending (fun n => n) all.
Proof.
  apply (cursor_pagination_complete (fun n => n) [3; 1; 5; 2; 4]%Z 2).
  - apply (bool_decide_unpack (NoDup _)). vm_compute. exact I.
  - apply (bool_decide_unpack (Forall _ _)). vm_compute. exact I.
  - lia.
Defined.

(** A list sees exactly the rows of its scope, and a list without a
    scope sees none. A request that names no org, the platform or all orgs
    fails with ErrOrgScopeRequired; an accepted one selects the rows of its
    org (or of the platform, or all), and of these the project, the org-wide
    or project rows, or the org-wide rows and those of the visible projects. *)
Theorem list_scope_exact (orgID : Z) (platform allOrgs : bool)
    (projectID : Z) (scope : Scope_Enum) (visible : option (list Z))
    (rowOrg rowProject : Z)
    (Hv : forall ids, visible = Some ids -> Forall is_row_id ids) :
  (checkListScope orgID platform allOrgs = Err ErrOrgScopeRequired <->
     orgID = 0%Z /\ platform = false /\ allOrgs = false) /\
  (whereTenancy (listParams orgID platform projectID scope visible)
     rowOrg rowProject = true <->
   org_selected orgID platform rowOrg /\
   project_selected projectID scope visible rowProject).
Proof.
  split.
  - unfold checkListScope. destruct (Z.eqb_spec orgID 0), platform, allOrgs;
      naive_solver.
  - unfold whereTenancy.
    rewrite andb_true_iff, whereOrgScope_list, whereProjectScope_list; done.
Qed.

(** A member of project 5 only sees the org-wide rows and those of 5. *)
Lemma list_scope_exact_witness :
  whereTenancy (listParams 7 false 0 Scope_Undefined (Some [5]%Z)) 7 5 = true /\
  ~ whereTenancy (listParams 7 false 0 Scope_Undefined (Some [5]%Z)) 7 6 = true.
Proof.
  assert (forall ids, Some [5]%Z = Some ids -> Forall is_row_id ids) as Hv.
  { intros ids E. injection E as <-. constructor; [|constructor].
    unfold is_row_id. lia. }
  split.
  - apply (list_scope_exact 7 false false 0 Scope_Undefined (Some [5]%Z) 7 5 Hv).
    split; [reflexivity|right; left].
  - intros Hx.
    apply (list_scope_exact 7 false false 0 Scope_Undefined (Some [5]%Z) 7 6 Hv)
      in Hx as [_ [Hx|Hx]]; [discriminate Hx|].
    apply list_elem_of_singleton in Hx. discriminate Hx.
Defined.
