(* ===== verification/Sql.v ===== *)
(** Tables as PostgreSQL keeps them: a list of rows with named unique
    constraints, and the statements the queries of
    [internal/db/pgsql/query] run on them.  A statement that would leave two
    rows with equal keys fails with the name of the constraint and changes
    nothing; [RETURNING] yields the written row, and no row is
    [sql.ErrNoRows].

    The end of the file tells a violation of a unique constraint from its
    error: [internal/db/pgsql/errors.go]. *)
From stdpp Require Import base list strings.
From S2P Require Import Prelude GoStrings Xdb.

Section table.
Context {R : Type}.

(** A unique constraint: its name and the key it compares. *)
Record unique := Unique {
  u_name : string;
  u_key_type : Type;
  u_key_eq_dec :: EqDecision u_key_type;
  u_key : R -> u_key_type }.

Implicit Types (cs : list unique) (rows : list R).

Definition unique_in (rows : list R) (u : unique) : Prop :=
  NoDup (u_key u <$> rows).
Definition uniques_hold (cs : list unique) (rows : list R) : Prop :=
  Forall (unique_in rows) cs.

#[global] Instance unique_in_dec rows u : Decision (unique_in rows u).
Proof. unfold unique_in. apply _. Defined.

(** The first constraint, in the order of their indexes, the rows violate. *)
Definition violated (cs : list unique) (rows : list R) : option string :=
  u_name <$> List.find (fun u => negb (bool_decide (unique_in rows u))) cs.

(** The rows a statement leaves, when they satisfy the constraints. *)
Definition checked (cs : list unique) (rows : list R) : result (list R) :=
  match violated cs rows with
  | Some name => Err (UniqueViolation name)
  | None => Ok rows
  end.

(** INSERT ... RETURNING *)
Definition insert_row (cs : list unique) (r : R) (rows : list R)
  : result (R * list R) :=
  let? rows' := checked cs (rows ++ [r]) in Ok (r, rows').

(** SELECT ... scanned into one row *)
Definition select_row (where_ : R -> bool) (rows : list R) : result R :=
  match List.find where_ rows with Some r => Ok r | None => Err NoRows end.

Definition update_all (where_ : R -> bool) (set_ : R -> R) (rows : list R)
  : list R := (fun r => if where_ r then set_ r else r) <$> rows.

(** UPDATE ... RETURNING scanned into one row *)
Definition update_row (cs : list unique) (where_ : R -> bool) (set_ : R -> R)
    (rows : list R) : result (R * list R) :=
  let? r := select_row where_ rows in
  let? rows' := checked cs (update_all where_ set_ rows) in
  Ok (set_ r, rows').

(** INSERT ... ON CONFLICT ON CONSTRAINT [u] DO UPDATE SET ... WHERE ...
    RETURNING: [set_] updates the conflicting row, when [when_] holds of it;
    otherwise no row is returned. *)
Definition upsert_row (cs : list unique) (u : unique) (r : R) (when_ : R -> bool)
    (set_ : R -> R) (rows : list R) : result (R * list R) :=
  match List.find (fun x => bool_decide (u_key u x = u_key u r)) rows with
  | Some old =>
      if when_ old
      then update_row cs (fun x => bool_decide (u_key u x = u_key u r)) set_ rows
      else Err NoRows
  | None => insert_row cs r rows
  end.

(** DELETE: the number of deleted rows and the rows kept. *)
Definition delete_rows (where_ : R -> bool) (rows : list R) : Z * list R :=
  (Z.of_nat (length (List.filter where_ rows)),
   List.filter (fun r => negb (where_ r)) rows).

(** ** Lemmas *)

Lemma violated_none cs rows :
  violated cs rows = None <-> uniques_hold cs rows.
Proof.
  unfold violated, uniques_hold. rewrite fmap_None.
  induction cs as [|u cs IH]; simpl; [by split; [constructor|]|].
  rewrite Forall_cons. case_bool_decide; simpl; naive_solver.
Qed.

Lemma checked_ok cs rows rows' :
  checked cs rows = Ok rows' <-> rows' = rows /\ uniques_hold cs rows.
Proof.
  unfold checked. rewrite <-violated_none.
  destruct (violated cs rows); naive_solver.
Qed.

Lemma checked_hold cs rows :
  uniques_hold cs rows -> checked cs rows = Ok rows.
Proof. intros H. by apply checked_ok. Qed.

Lemma insert_row_ok cs r rows x rows' :
  insert_row cs r rows = Ok (x, rows') ->
  x = r /\ rows' = rows ++ [r] /\ uniques_hold cs rows'.
Proof.
  unfold insert_row. destruct (checked cs (rows ++ [r])) eqn:E; [|done].
  apply checked_ok in E as [-> Hu]. intros [= <- <-]. by split_and!.
Qed.

Lemma select_row_ok where_ rows r :
  select_row where_ rows = Ok r -> r ∈ rows /\ where_ r = true.
Proof.
  unfold select_row. destruct (List.find where_ rows) eqn:E; [|done].
  intros [= ->]. apply find_some in E as [? ?].
  by rewrite list_elem_of_In.
Qed.

Lemma select_row_none where_ rows :
  select_row where_ rows = Err NoRows <-> forall r, r ∈ rows -> where_ r = false.
Proof.
  unfold select_row. destruct (List.find where_ rows) eqn:E.
  - apply find_some in E as [Hin Hw]. split; [done|]. intros H.
    rewrite (H r) in Hw; [done|by apply list_elem_of_In].
  - split; [|done]. intros _ r Hr%list_elem_of_In. by eapply find_none in E.
Qed.

Lemma select_row_err where_ rows e :
  select_row where_ rows = Err e -> e = NoRows.
Proof. unfold select_row. destruct (List.find _ _); naive_solver. Qed.

(** A row that is the only one of its predicate is the one selected. *)
Lemma select_row_unique where_ rows r :
  r ∈ rows -> where_ r = true ->
  (forall x, x ∈ rows -> where_ x = true -> x = r) ->
  select_row where_ rows = Ok r.
Proof.
  intros Hin Hw Hu. destruct (select_row where_ rows) as [x|e] eqn:E.
  - apply select_row_ok in E as [Hx Hwx]. by rewrite (Hu x Hx Hwx).
  - pose proof (select_row_err _ _ _ E) as ->.
    rewrite select_row_none in E. rewrite E in Hw by done. done.
Qed.

Lemma update_row_ok cs where_ set_ rows x rows' :
  update_row cs where_ set_ rows = Ok (x, rows') ->
  exists r, r ∈ rows /\ where_ r = true /\ x = set_ r /\
    rows' = update_all where_ set_ rows /\ uniques_hold cs rows'.
Proof.
  unfold update_row. destruct (select_row where_ rows) as [r|] eqn:E; [|done].
  simpl. destruct (checked cs _) eqn:Ec; [|done].
  apply checked_ok in Ec as [-> Hu]. intros [= <- <-].
  apply select_row_ok in E as [? ?]. by exists r.
Qed.

Lemma upsert_row_ok cs u r when_ set_ rows x rows' :
  upsert_row cs u r when_ set_ rows = Ok (x, rows') ->
  ((forall y, y ∈ rows -> u_key u y <> u_key u r) /\
   x = r /\ rows' = rows ++ [r] /\ uniques_hold cs rows') \/
  (exists old, old ∈ rows /\ u_key u old = u_key u r /\ when_ old = true /\
    x = set_ old /\ uniques_hold cs rows' /\
    rows' = update_all (fun y => bool_decide (u_key u y = u_key u r)) set_ rows).
Proof.
  unfold upsert_row. destruct (List.find _ rows) as [old|] eqn:E.
  - destruct (when_ old) eqn:Ew; [|done]. intros H. right.
    assert (select_row (fun y => bool_decide (u_key u y = u_key u r)) rows =
      Ok old) as Es by (unfold select_row; by rewrite E).
    unfold update_row in H. rewrite Es in H. simpl in H.
    destruct (checked cs _) eqn:Ec; [|done].
    apply checked_ok in Ec as [-> Hu]. injection H as <- <-.
    apply select_row_ok in Es as [? Hk%bool_decide_eq_true]. by exists old.
  - intros H%insert_row_ok. left. split; [|done]. intros y Hy Hk.
    apply list_elem_of_In, (find_none _ _ E) in Hy.
    by apply bool_decide_eq_false in Hy.
Qed.

Lemma update_all_elem where_ set_ rows x :
  x ∈ update_all where_ set_ rows <->
  exists r, r ∈ rows /\ x = if where_ r then set_ r else r.
Proof. unfold update_all. rewrite list_elem_of_fmap. naive_solver. Qed.

(** A key an update keeps is kept in every row. *)
Lemma update_all_key {K} (key : R -> K) where_ set_ rows :
  (forall r, r ∈ rows -> where_ r = true -> key (set_ r) = key r) ->
  key <$> update_all where_ set_ rows = key <$> rows.
Proof.
  intros H. unfold update_all. rewrite <-list_fmap_compose.
  apply list_fmap_ext. intros i r Hi%list_elem_of_lookup_2. simpl.
  destruct (where_ r) eqn:E; auto.
Qed.

Lemma update_all_hold cs where_ set_ rows :
  uniques_hold cs rows ->
  Forall (fun u => forall r, r ∈ rows -> where_ r = true ->
    u_key u (set_ r) = u_key u r) cs ->
  uniques_hold cs (update_all where_ set_ rows).
Proof.
  unfold uniques_hold, unique_in. rewrite !Forall_forall.
  intros Hu Hk u Hin. rewrite (update_all_key (u_key u)); auto.
Qed.

Lemma delete_rows_elem where_ rows r :
  r ∈ (delete_rows where_ rows).2 <-> r ∈ rows /\ where_ r = false.
Proof. simpl. by rewrite filter_elem, negb_true_iff. Qed.

Lemma NoDup_fmap_filter {K} (key : R -> K) f rows :
  NoDup (key <$> rows) -> NoDup (key <$> List.filter f rows).
Proof.
  induction rows as [|r rows IH]; simpl; [done|].
  rewrite NoDup_cons. intros [Hn Hd]. destruct (f r); simpl; [|auto].
  rewrite NoDup_cons. split; [|auto].
  rewrite list_elem_of_fmap. intros (x & E & Hx). apply Hn.
  rewrite list_elem_of_fmap. exists x. split; [done|].
  by apply filter_elem in Hx as [? _].
Qed.

Lemma filter_hold cs f rows :
  uniques_hold cs rows -> uniques_hold cs (List.filter f rows).
Proof.
  unfold uniques_hold. rewrite !Forall_forall.
  intros H u Hu. by apply NoDup_fmap_filter, H.
Qed.

Lemma uniques_elem cs rows u :
  uniques_hold cs rows -> u ∈ cs -> NoDup (u_key u <$> rows).
Proof. unfold uniques_hold. rewrite Forall_forall. intros H. apply H. Qed.

(** A row whose keys are new may be inserted. *)
Lemma insert_hold cs rows r :
  uniques_hold cs rows ->
  Forall (fun u => u_key u r ∉ (u_key u <$> rows)) cs ->
  uniques_hold cs (rows ++ [r]).
Proof.
  unfold uniques_hold, unique_in. rewrite !Forall_forall. intros Hu Hn u Hin.
  rewrite fmap_app, NoDup_app. split_and!.
  - by apply Hu.
  - simpl. intros k Hk ->%list_elem_of_singleton. by apply (Hn u).
  - apply NoDup_singleton.
Qed.

Lemma insert_row_hold cs rows r :
  uniques_hold cs (rows ++ [r]) -> insert_row cs r rows = Ok (r, rows ++ [r]).
Proof. intros Hu. unfold insert_row. by rewrite checked_hold. Qed.

Lemma update_row_hold cs where_ set_ rows r :
  select_row where_ rows = Ok r ->
  uniques_hold cs (update_all where_ set_ rows) ->
  update_row cs where_ set_ rows = Ok (set_ r, update_all where_ set_ rows).
Proof.
  intros Hs Hu. unfold update_row. rewrite Hs. simpl. by rewrite checked_hold.
Qed.

(** Rows with equal keys are equal. *)
Lemma NoDup_key_inj {K} (key : R -> K) rows x y :
  NoDup (key <$> rows) -> x ∈ rows -> y ∈ rows -> key x = key y -> x = y.
Proof.
  intros Hd Hx Hy E. apply list_elem_of_lookup in Hx as [i Hi].
  apply list_elem_of_lookup in Hy as [j Hj].
  assert (i = j) as ->; [|congruence].
  apply (NoDup_lookup (key <$> rows) i j (key x) Hd).
  - by rewrite list_lookup_fmap, Hi.
  - by rewrite list_lookup_fmap, Hj, E.
Qed.
End table.
Arguments unique R : clear implicits.

#[export] Hint Resolve filter_hold checked_hold : go.

(** [strings.Contains] *)
Fixpoint Contains (s sub : string) : bool :=
  HasPrefix s sub ||
  match s with
  | EmptyString => false
  | String _ r => Contains r sub
  end.

Definition UniqueIssuerLabel : string := "unique_issuer_org_project_label".
Definition UniqueIssuerSkid : string := "unique_issuer_skid".
Definition UniqueCertificatePrefix : string := "unique_certificate".
Definition uniqueViolationMessage : string := "violates unique constraint".

(** [errors.As] for the error of the driver: the constraint it names. *)
Fixpoint violatedConstraint (e : error) : option string :=
  match e with
  | UniqueViolation c => Some c
  | WithMessage e _ | GrpcCause _ _ e => violatedConstraint e
  | _ => None
  end.

(** The message is matched only when no error of the driver is found. *)
Definition IsUniqueViolation (e : error) (prefix : string) : bool :=
  match violatedConstraint e with
  | Some c => HasPrefix c prefix
  | None => Contains (Error e) uniqueViolationMessage && Contains (Error e) prefix
  end.
