(* ===== verification/CaQuery.v ===== *)
(** The requests of the CA tables: [internal/db/pgsql/query] ([certificate.go],
    [revoked.go], [crl.go], [issuer.go], [profile.go], [root.go],
    [summary.go]).

    A request is a record; its [Validate] is the check that runs before the
    query; its [_where] is the predicate that [QueryParams] and the SQL
    builder express together, on the rows of the table. *)
From S2P Require Import Prelude Xdb Tenancy Query Model.
From stdpp Require Import base list strings.

(** ** Parts the requests share *)

(** The org and project scope of a list; [ls_ProjectIDs] of [None] is nil. *)
Record ListScope := mkScope {
  ls_OrgID : Z; ls_Platform : bool; ls_AllOrgs : bool; ls_ProjectID : Z;
  ls_Scope : Scope_Enum; ls_ProjectIDs : option (list Z) }.

Record PageRequest := mkPageRequest {
  pq_Limit : Z; pq_Offset : Z; pq_Cursor : Cursor }.

Definition scopeParams (s : ListScope) : QueryParams :=
  listParams (ls_OrgID s) (ls_Platform s) (ls_ProjectID s) (ls_Scope s)
    (ls_ProjectIDs s).

Definition listValidate (s : ListScope) (p : PageRequest) : result unit :=
  let? _ := checkListScope (ls_OrgID s) (ls_Platform s) (ls_AllOrgs s) in
  Cursor_checkKey (pq_Cursor p) keyID.

(** A text filter that is not set, or the column is the value. *)
Definition textIs (filter column : string) : bool :=
  bool_decide (filter = EmptyString) || bool_decide (column = filter).
(** [column = ANY(?)], without elements no filter. *)
Definition textIn (filter : list string) (column : string) : bool :=
  bool_decide (filter = []) || bool_decide (column ∈ filter).
Definition idIn (filter : list Z) (column : Z) : bool :=
  bool_decide (filter = []) || bool_decide (column ∈ idArray filter).

(** ** Certificates *)

Record UpdateCertificateRequest := mkUpdateCertificate {
  uc_ID : Z; uc_OrgID : Z; uc_Label : option string;
  uc_Metadata : option Metadata; uc_Locations : option (list string) }.

Record ListCertificatesRequest := mkListCertificates {
  lc_Scope : ListScope; lc_IKID : string; lc_SKID : string;
  lc_Profile : string; lc_Status : CertificateStatus_Enum;
  lc_ExpiringBefore : option Z; lc_Page : PageRequest }.

Definition ListCertificatesRequest_Validate (r : ListCertificatesRequest)
  : result unit := listValidate (lc_Scope r) (lc_Page r).

Definition ListCertificates_where (r : ListCertificatesRequest)
    (c : Certificate) : bool :=
  whereTenancy (scopeParams (lc_Scope r)) (c_OrgID c) (c_ProjectID c) &&
  textIs (lc_IKID r) (c_Ikid c) && textIs (lc_SKID r) (c_Skid c) &&
  textIs (lc_Profile r) (c_Profile c) &&
  (bool_decide (lc_Status r = CertificateStatus_Unknown) ||
   bool_decide (c_Status c = lc_Status r)) &&
  match lc_ExpiringBefore r with
  | Some t => (c_NotAfter c <? t)%Z
  | None => true
  end.

Record CountCertificatesRequest := mkCountCertificates {
  cc_OrgID : Z; cc_ProjectID : Z; cc_ProjectIDs : option (list Z);
  cc_Now : Z; cc_Expiring : list Z }.

(** The loop over the periods: positive and ascending. *)
Fixpoint ascendingPeriods (prev : Z) (periods : list Z) : bool :=
  match periods with
  | [] => true
  | within :: rest => (prev <? within)%Z && ascendingPeriods within rest
  end.

Definition CountCertificatesRequest_Validate (r : CountCertificatesRequest)
  : result unit :=
  let? _ := checkCountScope (cc_OrgID r) in
  if negb (bool_decide (cc_Expiring r = [])) && IsZero (cc_Now r)
  then Err (OtherError "expiry time is required")
  else if negb (ascendingPeriods 0 (cc_Expiring r))
  then Err (OtherError "expiry periods must be positive and ascending")
  else Ok tt.

Definition countParams (orgID projectID : Z) (projectIDs : option (list Z))
  : QueryParams :=
  listParams orgID false projectID Scope_Undefined projectIDs.

Definition CountCertificates_where (r : CountCertificatesRequest)
    (c : Certificate) : bool :=
  whereTenancy (countParams (cc_OrgID r) (cc_ProjectID r) (cc_ProjectIDs r))
    (c_OrgID c) (c_ProjectID c).

(** Active, ending at or after the start and before the end of the period. *)
Definition CountExpiringCertificates_where (r : CountCertificatesRequest)
    (within : Z) (c : Certificate) : bool :=
  CountCertificates_where r c &&
  bool_decide (c_Status c = CertificateStatus_Active) &&
  (cc_Now r <=? c_NotAfter c)%Z && (c_NotAfter c <? cc_Now r + within)%Z.

(** [ExpireCertificatesRequest] and [DeleteExpiredCertificatesRequest]. *)
Record ExpireCertificatesRequest := mkExpire { xc_Before : Z; xc_Limit : Z }.

Definition ExpireCertificatesRequest_Validate (r : ExpireCertificatesRequest)
  : result unit :=
  if IsZero (xc_Before r) then Err (OtherError "expiry time is required")
  else if (xc_Limit r =? 0)%Z then Err (OtherError "limit is required")
  else Ok tt.

(** ** Revocations *)

Record RevokeCertificateRequest := mkRevoke {
  rq_CertificateID : Z; rq_OrgID : Z; rq_RevokedAt : Z; rq_Reason : Z;
  rq_ReasonText : string }.

Record GetRevokedRequest := mkGetRevoked {
  gr_CertificateID : Z; gr_IKID : string; gr_SerialNumber : string }.

Definition GetRevokedRequest_Validate (r : GetRevokedRequest) : result unit :=
  if IsZero (gr_CertificateID r) &&
     (bool_decide (gr_IKID r = EmptyString) ||
      bool_decide (gr_SerialNumber r = EmptyString))
  then Err (OtherError "certificate ID, or IKID and serial number, are required")
  else Ok tt.

Definition GetRevoked_where (q : GetRevokedRequest) (r : Revoked) : bool :=
  (IsZero (gr_CertificateID q) ||
   (r_CertificateID r =? gr_CertificateID q)%Z) &&
  (bool_decide (gr_IKID q = EmptyString) ||
   (bool_decide (r_Ikid r = gr_IKID q) &&
    bool_decide (r_SerialNumber r = gr_SerialNumber q))).

(** The list has no visible projects: [ls_ProjectIDs] is nil. *)
Record ListRevokedRequest := mkListRevoked {
  lv_Scope : ListScope; lv_IKID : string; lv_ValidAfter : option Z;
  lv_Page : PageRequest }.

Definition ListRevokedRequest_Validate (r : ListRevokedRequest) : result unit :=
  listValidate (lv_Scope r) (lv_Page r).

Definition ListRevoked_where (q : ListRevokedRequest) (r : Revoked) : bool :=
  whereTenancy (scopeParams (lv_Scope q)) (r_OrgID r) (r_ProjectID r) &&
  textIs (lv_IKID q) (r_Ikid r) &&
  match lv_ValidAfter q with
  | Some t => (t <? r_NotAfter r)%Z
  | None => true
  end.

Record ListRevokedCertificatesRequest := mkListRevokedCertificates {
  lrc_Scope : ListScope; lrc_IKID : string; lrc_Page : PageRequest }.

Definition ListRevokedCertificatesRequest_Validate
    (r : ListRevokedCertificatesRequest) : result unit :=
  listValidate (lrc_Scope r) (lrc_Page r).

(** The columns of the view: the tenancy of the revocation, the issuer of
    the certificate. *)
Definition ListRevokedCertificates_where
    (q : ListRevokedCertificatesRequest) (r : RevokedCertificate) : bool :=
  whereTenancy (scopeParams (lrc_Scope q)) (r_OrgID (rc_revoked r))
    (r_ProjectID (rc_revoked r)) &&
  textIs (lrc_IKID q) (c_Ikid (rc_certificate r)).

(** ** CRLs *)

Record ListCrlsRequest := mkListCrls {
  ll_Scope : ListScope; ll_ExpiringBefore : option Z; ll_Page : PageRequest }.

Definition ListCrlsRequest_Validate (r : ListCrlsRequest) : result unit :=
  listValidate (ll_Scope r) (ll_Page r).

Definition ListCrls_where (q : ListCrlsRequest) (l : Crl) : bool :=
  whereTenancy (scopeParams (ll_Scope q)) (l_OrgID l) (l_ProjectID l) &&
  match ll_ExpiringBefore q with
  | Some t => (l_NextUpdate l <? t)%Z
  | None => true
  end.

Record ListCrlStatesRequest := mkListCrlStates {
  lx_OrgID : Z; lx_ProjectID : Z; lx_ProjectIDs : option (list Z);
  lx_Statuses : list IssuerStatus_Enum; lx_Limit : Z; lx_Cursor : Cursor }.

Definition ListCrlStatesRequest_Validate (r : ListCrlStatesRequest)
  : result unit :=
  let? _ := checkCountScope (lx_OrgID r) in
  if bool_decide (lx_Statuses r = [])
  then Err (OtherError "issuer statuses are required")
  else Cursor_checkKey (lx_Cursor r) keyID.

Definition ListCrlStates_where (q : ListCrlStatesRequest) (i : Issuer) : bool :=
  whereTenancy (countParams (lx_OrgID q) (lx_ProjectID q) (lx_ProjectIDs q))
    (i_OrgID i) (i_ProjectID i) &&
  bool_decide (i_Status i ∈ lx_Statuses q).

(** ** Issuers *)

Record UpdateIssuerRequest := mkUpdateIssuer {
  ui_ID : Z; ui_OrgID : Z; ui_Status : IssuerStatus_Enum; ui_Config : string }.

(** The columns of the update: an unset status or config keeps its column,
    and the Destroyed status writes NULL to the key material. *)
Definition UpdateIssuer_set (r : UpdateIssuerRequest) (now : Z) (m : Issuer)
  : Issuer :=
  set_i_update
    (if bool_decide (ui_Status r = IssuerStatus_Unknown)
     then i_Status m else ui_Status r)
    (if bool_decide (ui_Status r = IssuerStatus_Destroyed)
     then "" else i_KeyProtected m)
    (if bool_decide (ui_Config r = EmptyString)
     then i_Config m else ui_Config r)
    now m.

Definition FindIssuer_where (orgID projectID : Z) (label : string) (i : Issuer)
  : bool :=
  whereTenancy (setTenancy NewQueryParams orgID projectID) (i_OrgID i)
    (i_ProjectID i) &&
  bool_decide (i_Label i = label).

Record CountIssuersRequest := mkCountIssuers {
  ci_OrgID : Z; ci_ProjectID : Z; ci_ProjectIDs : option (list Z) }.

Definition CountIssuersRequest_Validate (r : CountIssuersRequest)
  : result unit := checkCountScope (ci_OrgID r).

Definition CountIssuers_where (r : CountIssuersRequest) (i : Issuer) : bool :=
  whereTenancy (countParams (ci_OrgID r) (ci_ProjectID r) (ci_ProjectIDs r))
    (i_OrgID i) (i_ProjectID i).

Record ListIssuersRequest := mkListIssuers {
  li_Scope : ListScope; li_ParentID : Z; li_Label : string;
  li_Status : IssuerStatus_Enum; li_Type : AuthorityType_Enum;
  li_IDs : list Z; li_IKIDs : list string; li_Page : PageRequest }.

Definition ListIssuersRequest_Validate (r : ListIssuersRequest) : result unit :=
  listValidate (li_Scope r) (li_Page r).

Definition ListIssuers_where (q : ListIssuersRequest) (i : Issuer) : bool :=
  whereTenancy (scopeParams (li_Scope q)) (i_OrgID i) (i_ProjectID i) &&
  (IsZero (li_ParentID q) || (i_ParentID i =? li_ParentID q)%Z) &&
  textIs (li_Label q) (i_Label i) &&
  (bool_decide (li_Status q = IssuerStatus_Unknown) ||
   bool_decide (i_Status i = li_Status q)) &&
  (bool_decide (li_Type q = AuthorityType_Unknown) ||
   bool_decide (i_Type i = li_Type q)) &&
  idIn (li_IDs q) (i_ID i) && textIn (li_IKIDs q) (i_Skid i).

(** ** Profiles *)

Definition FindProfile_where (orgID projectID : Z) (label : string)
    (p : CertificateProfile) : bool :=
  whereTenancy (setTenancy NewQueryParams orgID projectID) (p_OrgID p)
    (p_ProjectID p) &&
  bool_decide (p_Label p = label).

Record ListProfilesRequest := mkListProfiles {
  lp_Scope : ListScope; lp_IssuerLabel : string; lp_Status : ItemStatus_Enum;
  lp_IDs : list Z; lp_Labels : list string; lp_Page : PageRequest }.

Definition ListProfilesRequest_Validate (r : ListProfilesRequest)
  : result unit := listValidate (lp_Scope r) (lp_Page r).

Definition ListProfiles_where (q : ListProfilesRequest)
    (p : CertificateProfile) : bool :=
  whereTenancy (scopeParams (lp_Scope q)) (p_OrgID p) (p_ProjectID p) &&
  textIs (lp_IssuerLabel q) (p_IssuerLabel p) &&
  (bool_decide (lp_Status q = ItemStatus_Unknown) ||
   bool_decide (p_Status p = lp_Status q)) &&
  idIn (lp_IDs q) (p_ID p) && textIn (lp_Labels q) (p_Label p).

(** ** Roots *)

(** The scope names no project: only its org part is used. *)
Record ListRootsRequest := mkListRoots {
  lt_Scope : ListScope; lt_Page : PageRequest }.

Definition ListRootsRequest_Validate (r : ListRootsRequest) : result unit :=
  listValidate (lt_Scope r) (lt_Page r).

Definition ListRoots_where (q : ListRootsRequest) (t : RootCertificate) : bool :=
  whereOrgScope (setOrgScope NewQueryParams (ls_OrgID (lt_Scope q))
    (ls_Platform (lt_Scope q))) (t_OrgID t).

(** ** The tenant summary *)

Record SummaryRequest := mkSummary {
  sr_OrgID : Z; sr_ProjectID : Z; sr_ProjectIDs : option (list Z);
  sr_Now : Z; sr_Expiring : list Z; sr_CrlStatuses : list IssuerStatus_Enum }.

Definition SummaryRequest_Issuers (r : SummaryRequest) : CountIssuersRequest :=
  mkCountIssuers (sr_OrgID r) (sr_ProjectID r) (sr_ProjectIDs r).
Definition SummaryRequest_Certificates (r : SummaryRequest)
  : CountCertificatesRequest :=
  mkCountCertificates (sr_OrgID r) (sr_ProjectID r) (sr_ProjectIDs r)
    (sr_Now r) (sr_Expiring r).
Definition SummaryRequest_CrlStates `{Xdb} (r : SummaryRequest) (cursor : Cursor)
  : ListCrlStatesRequest :=
  mkListCrlStates (sr_OrgID r) (sr_ProjectID r) (sr_ProjectIDs r)
    (sr_CrlStatuses r) (Limit 0) cursor.

Definition SummaryRequest_Validate `{Xdb} (r : SummaryRequest) : result unit :=
  let? _ := CountIssuersRequest_Validate (SummaryRequest_Issuers r) in
  let? _ := CountCertificatesRequest_Validate (SummaryRequest_Certificates r) in
  ListCrlStatesRequest_Validate (SummaryRequest_CrlStates r (NewCursor 0)).
