(* ===== verification/CaDb.v ===== *)
(** The CA database: [internal/db/pgsql] ([certificate.go], [revoked.go],
    [crl.go], [issuer.go], [profile.go], [root.go], [event.go],
    [summary.go]) over the tables of
    [sql/trustycadb/migrations/1_tables.up.sql].

    The state is the rows of every table, the clock and the generator of
    row IDs.  A [Provider] method is a computation on the state; a method
    that begins a transaction leaves the tables as they were when it fails.
    Methods run one at a time: a connection failure and the interleaving of
    two transactions are not modelled. *)
From stdpp Require Import base list strings pretty sorting.
From S2P Require Import Prelude GoStrings Xdb Tenancy Query Model Sql CaQuery.

(** ** State *)

Record Db := mkDb {
  db_now : Z; db_seq : nat; db_orgs : list Z; db_projects : list Z;
  db_roots : list RootCertificate; db_issuers : list Issuer;
  db_profiles : list CertificateProfile; db_certificates : list Certificate;
  db_revoked : list Revoked; db_crls : list Crl; db_events : list Event }.

Record Table (R : Type) := mkTable {
  tab_rows : Db -> list R; tab_set : list R -> Db -> Db }.
Arguments mkTable {R}.
Arguments tab_rows {R}.
Arguments tab_set {R}.

Definition set_seq (n : nat) (s : Db) : Db :=
  mkDb (db_now s) n (db_orgs s) (db_projects s) (db_roots s) (db_issuers s)
    (db_profiles s) (db_certificates s) (db_revoked s) (db_crls s)
    (db_events s).

Definition roots : Table RootCertificate := mkTable db_roots (fun l s =>
  mkDb (db_now s) (db_seq s) (db_orgs s) (db_projects s) l (db_issuers s)
    (db_profiles s) (db_certificates s) (db_revoked s) (db_crls s)
    (db_events s)).
Definition issuers : Table Issuer := mkTable db_issuers (fun l s =>
  mkDb (db_now s) (db_seq s) (db_orgs s) (db_projects s) (db_roots s) l
    (db_profiles s) (db_certificates s) (db_revoked s) (db_crls s)
    (db_events s)).
Definition profiles : Table CertificateProfile := mkTable db_profiles (fun l s =>
  mkDb (db_now s) (db_seq s) (db_orgs s) (db_projects s) (db_roots s)
    (db_issuers s) l (db_certificates s) (db_revoked s) (db_crls s)
    (db_events s)).
Definition certificates : Table Certificate := mkTable db_certificates (fun l s =>
  mkDb (db_now s) (db_seq s) (db_orgs s) (db_projects s) (db_roots s)
    (db_issuers s) (db_profiles s) l (db_revoked s) (db_crls s)
    (db_events s)).
Definition revoked : Table Revoked := mkTable db_revoked (fun l s =>
  mkDb (db_now s) (db_seq s) (db_orgs s) (db_projects s) (db_roots s)
    (db_issuers s) (db_profiles s) (db_certificates s) l (db_crls s)
    (db_events s)).
Definition crls : Table Crl := mkTable db_crls (fun l s =>
  mkDb (db_now s) (db_seq s) (db_orgs s) (db_projects s) (db_roots s)
    (db_issuers s) (db_profiles s) (db_certificates s) (db_revoked s) l
    (db_events s)).
Definition events : Table Event := mkTable db_events (fun l s =>
  mkDb (db_now s) (db_seq s) (db_orgs s) (db_projects s) (db_roots s)
    (db_issuers s) (db_profiles s) (db_certificates s) (db_revoked s)
    (db_crls s) l).

(** The constraints of the tables. *)
Definition root_sha256 : unique RootCertificate :=
  Unique "unique_root_certificate_sha256" _ _ t_Sha256.
Definition root_uniques : list (unique RootCertificate) :=
  [Unique "root_certificate_pkey" _ _ t_ID; root_sha256].
Definition issuer_uniques : list (unique Issuer) :=
  [Unique "issuer_pkey" _ _ i_ID;
   Unique "unique_issuer_org_project_label" _ _
     (fun i => (i_OrgID i, i_ProjectID i, i_Label i));
   Unique "unique_issuer_skid" _ _ i_Skid].
Definition profile_label : unique CertificateProfile :=
  Unique "unique_certificate_profile_org_project_label" _ _
    (fun p => (p_OrgID p, p_ProjectID p, p_Label p)).
Definition profile_uniques : list (unique CertificateProfile) :=
  [Unique "certificate_profile_pkey" _ _ p_ID; profile_label].
Definition certificate_uniques : list (unique Certificate) :=
  [Unique "certificate_pkey" _ _ c_ID;
   Unique "unique_certificate_sha256" _ _ c_Sha256;
   Unique "unique_certificate_ikid_serial" _ _
     (fun c => (c_Ikid c, c_SerialNumber c))].
Definition revoked_uniques : list (unique Revoked) :=
  [Unique "revoked_pkey" _ _ r_ID;
   Unique "unique_revoked_certificate" _ _ r_CertificateID;
   Unique "idx_revoked_ikid_serial" _ _
     (fun r => (r_Ikid r, r_SerialNumber r))].
Definition crl_ikid : unique Crl := Unique "unique_crl_ikid" _ _ l_Ikid.
Definition crl_uniques : list (unique Crl) :=
  [Unique "crl_pkey" _ _ l_ID; crl_ikid].
Definition event_uniques : list (unique Event) :=
  [Unique "event_pkey" _ _ e_ID].

(** ** Statements and transactions *)

(** The generator of row IDs ([xdb.IDGenerator], a flake): the n-th ID. *)
Class IdGen := { flake : nat -> Z }.

Definition exec {R A} (t : Table R) (f : list R -> result (A * list R))
  : M Db A := fun s =>
  match f (tab_rows t s) with
  | Ok (a, rows) => (Ok a, tab_set t rows s)
  | Err e => (Err e, s)
  end.

Definition select {R A} (t : Table R) (f : list R -> result A) : M Db A :=
  fun s => (f (tab_rows t s), s).

Definition Now : M Db Z := fun s => (Ok (db_now s), s).

(** The tables are restored when the transaction fails; the IDs the
    generator handed out stay used. *)
Definition transaction {A} (m : M Db A) : M Db A := fun s =>
  match m s with
  | (Ok a, s') => (Ok a, s')
  | (Err e, s') => (Err e, set_seq (db_seq s') s)
  end.

(** [errors.WithMessage] of a failed call. *)
Definition with_message {S A} (msg : string) (m : M S A) : M S A :=
  catch m (fun r => match r with
                    | Ok a => ret a
                    | Err e => fail (WithMessage e msg)
                    end).

Definition foreign_key (ok : bool) (name : string) : M Db unit :=
  guard ok (OtherError ("violates foreign key constraint " ++ name)).

Section provider.
Context `{Xdb, Codec, IdGen}.

Definition NextID : M Db Z := fun s =>
  (Ok (flake (db_seq s)), set_seq (S (db_seq s)) s).

(** The ID of a model to insert: its own, or the next one. *)
Definition ensureID (id : Z) : M Db Z := if IsZero id then NextID else ret id.

Definition check_not_found {A} (table key : string) (m : M Db A) : M Db A :=
  catch m (fun r => match r with
                    | Ok a => ret a
                    | Err e => fail (CheckNotFoundError e table key)
                    end).

Definition GetRowByID {R} (t : Table R) (name : string) (rid : R -> Z) (id : Z)
  : M Db R :=
  check_not_found name (pretty id)
    (select t (select_row (fun r => (rid r =? id)%Z))).

(** DELETE by the exact org scope and ID: the number of rows. *)
Definition DeleteRowByOrgAndID {R} (t : Table R) (org rid : R -> Z)
    (orgID id : Z) : M Db Z :=
  exec t (fun rows =>
    Ok (delete_rows (fun r => whereOrgIs orgID (org r) && (rid r =? id)%Z) rows)).

(** A list method: the page of the rows the request selects. *)
Definition listTable {R} (t : Table R) (rid : R -> Z) (where_ : R -> bool)
    (p : PageRequest) : M Db (PageResult R) :=
  select t (fun rows =>
    Ok (listRows rid (List.filter where_ rows) (pq_Limit p) (pq_Offset p)
          (pq_Cursor p))).

(** SELECT status, COUNT... GROUP BY status, read into a map: the number of
    rows of a status, none for a status without rows. *)
Definition countByStatus {R S} `{EqDecision S} (status : R -> S)
    (rows : list R) (st : S) : option Z :=
  match length (List.filter (fun r => bool_decide (status r = st)) rows) with
  | O => None
  | n => Some (Z.of_nat n)
  end.

(** *** Events *)

Definition CreateEvent (m : Event) : M Db Event :=
  lift_result (Event_Validate m) ;;;
  let! id := NextID in
  let! now := Now in
  let! s := get in
  foreign_key (IsZero (e_OrgID m) || bool_decide (e_OrgID m ∈ db_orgs s))
    "event_org_id_fkey" ;;;
  foreign_key (IsZero (e_ProjectID m) ||
               bool_decide (e_ProjectID m ∈ db_projects s))
    "event_project_id_fkey" ;;;
  exec events (insert_row event_uniques (set_e_insert id now m)).

Definition GetEvent (id : Z) : M Db Event := GetRowByID events "event" e_ID id.

(** *** Certificates *)

Definition registerCertificate (im : Certificate) : M Db Certificate :=
  let! now := Now in
  exec certificates (insert_row certificate_uniques (set_c_CreatedAt now im)).

Definition RegisterCertificate (m : Certificate) (evt : option Event)
  : M Db Certificate :=
  let! id := ensureID (c_ID m) in
  let im := set_c_ID id m in
  let! im := lift_result
    match c_Status im with
    | CertificateStatus_Unknown =>
        Ok (set_c_Status CertificateStatus_Active im)
    | CertificateStatus_Revoked =>
        Err (OtherError "invalid status: cannot register a revoked certificate")
    | _ => Ok im
    end in
  lift_result (Certificate_Validate im) ;;;
  match evt with
  | None => registerCertificate im
  | Some evt =>
      lift_result (Event_Validate evt) ;;;
      transaction (
        let! res := registerCertificate im in
        let e := if IsZero (e_ReferenceID evt)
                 then set_e_ReferenceID (c_ID res) evt else evt in
        with_message "unable to record event" (CreateEvent e) ;;;
        ret res)
  end.

Definition validLocation (loc : string) : bool :=
  negb (bool_decide (loc = EmptyString)) &&
  (String.length loc <=? MaxLenForName)%nat.

Definition UpdateCertificate (req : UpdateCertificateRequest)
  : M Db Certificate :=
  guard (negb (uc_ID req =? 0)%Z)
    (OtherError "certificate ID is required") ;;;
  guard (bool_decide (uc_Label req <> None) ||
         bool_decide (uc_Metadata req <> None) ||
         bool_decide (uc_Locations req <> None))
    (OtherError "no changes to update") ;;;
  guard (String.length (default "" (uc_Label req)) <=? MaxLenForName)%nat
    (OtherError "invalid label length") ;;;
  guard (forallb validLocation (default [] (uc_Locations req)))
    (OtherError "invalid location length") ;;;
  check_not_found "certificate" (pretty (uc_ID req))
    (exec certificates (update_row certificate_uniques
      (fun c => (c_ID c =? uc_ID req)%Z && whereOrgIs (uc_OrgID req) (c_OrgID c))
      (set_c_client (uc_Label req) (uc_Metadata req) (uc_Locations req)))).

Definition updateCertificateStatus (id : Z) (status : CertificateStatus_Enum)
  : M Db Certificate :=
  check_not_found "certificate" (pretty id)
    (exec certificates (update_row certificate_uniques
      (fun c => (c_ID c =? id)%Z) (set_c_Status status))).

Definition getCertificateForUpdate (id orgID : Z) : M Db Certificate :=
  check_not_found "certificate" (pretty id)
    (select certificates (select_row
      (fun c => (c_ID c =? id)%Z && whereOrgIs orgID (c_OrgID c)))).

Definition GetCertificate (id : Z) : M Db Certificate :=
  GetRowByID certificates "certificate" c_ID id.

Definition GetCertificateBySha256 (sha256 : string) : M Db Certificate :=
  check_not_found "certificate" sha256
    (select certificates (select_row (fun c => bool_decide (c_Sha256 c = sha256)))).

Definition GetCertificateByIssuerSerial (ikid serial : string)
  : M Db Certificate :=
  check_not_found "certificate" (ikid ++ "/" ++ serial)
    (select certificates (select_row (fun c =>
      bool_decide (c_Ikid c = ikid) && bool_decide (c_SerialNumber c = serial)))).

Record CertificateCounts := mkCertificateCounts {
  cn_ByStatus : CertificateStatus_Enum -> option Z; cn_Expiring : list Z }.

Definition countCertificates (req : CountCertificatesRequest)
  : M Db (CertificateStatus_Enum -> option Z) :=
  select certificates (fun rows =>
    Ok (countByStatus c_Status (List.filter (CountCertificates_where req) rows))).

Definition countExpiringCertificates (req : CountCertificatesRequest)
    (within : Z) : M Db Z :=
  select certificates (fun rows => Ok (Z.of_nat (length
    (List.filter (CountExpiringCertificates_where req within) rows)))).

Fixpoint countPeriods (req : CountCertificatesRequest) (periods : list Z)
    (acc : list Z) : M Db (list Z) :=
  match periods with
  | [] => ret acc
  | within :: rest =>
      let! n := countExpiringCertificates req within in
      countPeriods req rest (acc ++ [n])
  end.

Definition CountCertificates (req : CountCertificatesRequest)
  : M Db CertificateCounts :=
  lift_result (CountCertificatesRequest_Validate req) ;;;
  let! byStatus := countCertificates req in
  let! expiring := countPeriods req (cc_Expiring req) [] in
  ret (mkCertificateCounts byStatus expiring).

Definition ListCertificates (req : ListCertificatesRequest)
  : M Db (PageResult Certificate) :=
  lift_result (ListCertificatesRequest_Validate req) ;;;
  listTable certificates c_ID (ListCertificates_where req) (lc_Page req).

(** ON DELETE CASCADE of revoked.certificate_id. *)
Definition cascadeRevoked (s : Db) : Db :=
  tab_set revoked (List.filter (fun r =>
    bool_decide (r_CertificateID r ∈ (c_ID <$> db_certificates s)))
    (db_revoked s)) s.

Definition DeleteCertificate (orgID id : Z) : M Db Z :=
  let! n := DeleteRowByOrgAndID certificates c_OrgID c_ID orgID id in
  modify cascadeRevoked ;;;
  ret n.

(** SELECT id ... ORDER BY id LIMIT: the lowest IDs of the selected rows. *)
Definition lowestIDs (where_ : Certificate -> bool) (limit : Z)
    (rows : list Certificate) : list Z :=
  take (Z.to_nat limit) (merge_sort Z.le (c_ID <$> List.filter where_ rows)).

Definition expirable (before : Z) (c : Certificate) : bool :=
  bool_decide (c_Status c = CertificateStatus_Active) &&
  (c_NotAfter c <? before)%Z.

Definition ExpireCertificates (req : ExpireCertificatesRequest) : M Db Z :=
  lift_result (ExpireCertificatesRequest_Validate req) ;;;
  with_message "unable to expire certificates"
    (exec certificates (fun rows =>
      let batch := lowestIDs (expirable (xc_Before req)) (xc_Limit req) rows in
      let where_ c := bool_decide (c_Status c = CertificateStatus_Active) &&
                      bool_decide (c_ID c ∈ batch) in
      let? rows' := checked certificate_uniques
        (update_all where_ (set_c_Status CertificateStatus_Expired) rows) in
      Ok (Z.of_nat (length (List.filter where_ rows)), rows'))).

Definition DeleteExpiredCertificates (req : ExpireCertificatesRequest)
  : M Db Z :=
  lift_result (ExpireCertificatesRequest_Validate req) ;;;
  let! n := exec certificates (fun rows =>
    let batch := lowestIDs (fun c => (c_NotAfter c <? xc_Before req)%Z)
                   (xc_Limit req) rows in
    Ok (delete_rows (fun c => bool_decide (c_ID c ∈ batch)) rows)) in
  modify cascadeRevoked ;;;
  ret n.

(** *** Revocations *)

Definition ErrAlreadyRevoked : error := Sentinel "certificate is already revoked".

Definition registerRevoked (m : Revoked) : M Db Revoked :=
  let! id := ensureID (r_ID m) in
  let im := mkRevoked id (r_OrgID m) (r_ProjectID m) (r_CertificateID m)
    (r_Ikid m) (r_SerialNumber m) (r_NotAfter m) (r_RevokedAt m) (r_Reason m)
    (r_ReasonText m) in
  lift_result (Revoked_Validate im) ;;;
  let! s := get in
  foreign_key (bool_decide (r_CertificateID im ∈ (c_ID <$> db_certificates s)))
    "revoked_certificate_id_fkey" ;;;
  exec revoked (insert_row revoked_uniques im).

Definition RevokeCertificate (req : RevokeCertificateRequest)
  : M Db RevokedCertificate :=
  guard (negb (rq_CertificateID req =? 0)%Z)
    (OtherError "certificate ID is required") ;;;
  guard (String.length (rq_ReasonText req) <=? MaxLenForName)%nat
    (OtherError "invalid reason text length") ;;;
  let! now := Now in
  let revokedAt := if IsZero (rq_RevokedAt req) then now else rq_RevokedAt req in
  transaction (
    let! crt := getCertificateForUpdate (rq_CertificateID req) (rq_OrgID req) in
    guard (negb (bool_decide (c_Status crt = CertificateStatus_Revoked)))
      ErrAlreadyRevoked ;;;
    let! rev := with_message "unable to register revocation" (registerRevoked
      (mkRevoked 0 (c_OrgID crt) (c_ProjectID crt) (c_ID crt) (c_Ikid crt)
         (c_SerialNumber crt) (c_NotAfter crt) revokedAt (rq_Reason req)
         (rq_ReasonText req))) in
    let! crt := with_message "unable to update certificate status"
      (updateCertificateStatus (c_ID crt) CertificateStatus_Revoked) in
    ret (NewRevokedCertificate crt rev)).

Definition GetRevoked (req : GetRevokedRequest) : M Db Revoked :=
  lift_result (GetRevokedRequest_Validate req) ;;;
  check_not_found "revoked"
    (if negb (IsZero (gr_CertificateID req)) then pretty (gr_CertificateID req)
     else gr_IKID req ++ "/" ++ gr_SerialNumber req)
    (select revoked (select_row (GetRevoked_where req))).

Definition ListRevoked (req : ListRevokedRequest) : M Db (PageResult Revoked) :=
  lift_result (ListRevokedRequest_Validate req) ;;;
  listTable revoked r_ID (ListRevoked_where req) (lv_Page req).

(** The view that joins a revocation with its certificate. *)
Definition vw_revoked_certificate (s : Db) : list RevokedCertificate :=
  r ← db_revoked s;
  c ← List.filter (fun c => (c_ID c =? r_CertificateID r)%Z) (db_certificates s);
  [mkRevokedCertificate r c].

Definition ListRevokedCertificates (req : ListRevokedCertificatesRequest)
  : M Db (PageResult RevokedCertificate) :=
  lift_result (ListRevokedCertificatesRequest_Validate req) ;;;
  fun s => (Ok (listRows (fun r => r_ID (rc_revoked r))
    (List.filter (ListRevokedCertificates_where req) (vw_revoked_certificate s))
    (pq_Limit (lrc_Page req)) (pq_Offset (lrc_Page req))
    (pq_Cursor (lrc_Page req))), s).

(** *** Issuers *)

Definition GetIssuer (id : Z) : M Db Issuer :=
  GetRowByID issuers "issuer" i_ID id.

Definition FindIssuer (orgID projectID : Z) (label : string) : M Db Issuer :=
  check_not_found "issuer" (pretty orgID ++ "/" ++ pretty projectID ++ "/" ++ label)
    (select issuers (select_row (FindIssuer_where orgID projectID label))).

Definition GetIssuerBySKID (skid : string) : M Db Issuer :=
  check_not_found "issuer" skid
    (select issuers (select_row (fun i => bool_decide (i_Skid i = skid)))).

Definition CountIssuers (req : CountIssuersRequest)
  : M Db (IssuerStatus_Enum -> option Z) :=
  lift_result (CountIssuersRequest_Validate req) ;;;
  select issuers (fun rows =>
    Ok (countByStatus i_Status (List.filter (CountIssuers_where req) rows))).

Definition ListIssuers (req : ListIssuersRequest) : M Db (PageResult Issuer) :=
  lift_result (ListIssuersRequest_Validate req) ;;;
  listTable issuers i_ID (ListIssuers_where req) (li_Page req).

Definition ErrRootConflict : error :=
  Sentinel "root certificate is registered in another scope".

Definition RegisterRoot (m : RootCertificate) : M Db RootCertificate :=
  let! id := ensureID (t_ID m) in
  let! now := Now in
  let im := set_t_insert id now m in
  lift_result (RootCertificate_Validate im) ;;;
  catch (exec roots (upsert_row root_uniques root_sha256 im
           (fun old => whereOrgIs (t_OrgID im) (t_OrgID old))
           (set_t_Trust (t_Trust im))))
    (fun r => match r with
              | Ok res => ret res
              | Err e => if IsNotFoundError e then fail ErrRootConflict else fail e
              end).

Definition GetRoot (id : Z) : M Db RootCertificate :=
  GetRowByID roots "root_certificate" t_ID id.

Definition ListRoots (req : ListRootsRequest) : M Db (PageResult RootCertificate) :=
  lift_result (ListRootsRequest_Validate req) ;;;
  listTable roots t_ID (ListRoots_where req) (lt_Page req).

Definition DeleteRoot (orgID id : Z) : M Db Z :=
  DeleteRowByOrgAndID roots t_OrgID t_ID orgID id.

(** The identity columns of the anchor are those of its PEM, and the
    certificate is the issuer's, in its org. *)
Definition checkAnchor (im : Issuer) (anchor : RootCertificate) : result unit :=
  match ParseFromPEM (t_Pem anchor) with
  | None => Err (WithMessage (OtherError "unable to parse")
                   "invalid anchor certificate")
  | Some crt =>
      let want := NewRootCertificate crt (i_OrgID im) (t_Trust anchor)
                    (t_Pem anchor) in
      if bool_decide (t_Sha256 want = i_Sha256 im) &&
         bool_decide (t_Skid want = i_Skid im) &&
         (t_OrgID anchor =? t_OrgID want)%Z &&
         bool_decide (t_Sha256 anchor = t_Sha256 want) &&
         bool_decide (t_Skid anchor = t_Skid want) &&
         bool_decide (t_Subject anchor = t_Subject want) &&
         (t_NotBefore anchor =? t_NotBefore want)%Z &&
         (t_NotAfter anchor =? t_NotAfter want)%Z
      then Ok tt
      else Err (OtherError
        "the anchor must be the certificate of the issuer in its org")
  end.

Definition registerIssuer (im : Issuer) : M Db Issuer :=
  let! now := Now in
  exec issuers (insert_row issuer_uniques (set_i_insert (i_ID im) now im)).

Definition RegisterIssuer (m : Issuer) (anchor : option RootCertificate)
  : M Db Issuer :=
  let! id := ensureID (i_ID m) in
  let im := set_i_ID id m in
  lift_result (Issuer_Validate im) ;;;
  match bool_decide (i_Type im = AuthorityType_Root), anchor with
  | false, None => registerIssuer im
  | false, Some _ => fail (OtherError "only a root issuer has an anchor")
  | true, None => fail (OtherError "a root issuer requires its anchor")
  | true, Some anchor =>
      lift_result (checkAnchor im anchor) ;;;
      transaction (
        let! res := registerIssuer im in
        with_message "unable to register root" (RegisterRoot anchor) ;;;
        ret res)
  end.

Definition UpdateIssuer (req : UpdateIssuerRequest) : M Db Issuer :=
  guard (negb (ui_ID req =? 0)%Z) (OtherError "issuer ID is required") ;;;
  guard (negb (bool_decide (ui_Status req = IssuerStatus_Unknown) &&
               bool_decide (ui_Config req = EmptyString)))
    (OtherError "no changes to update") ;;;
  guard (bool_decide (ui_Config req = EmptyString) ||
         bool_decide (unmarshal_IssuerConfig (ui_Config req) <> None))
    (WithMessage (OtherError "unable to unmarshal") "invalid config") ;;;
  let! now := Now in
  check_not_found "issuer" (pretty (ui_ID req))
    (exec issuers (update_row issuer_uniques
      (fun i => (i_ID i =? ui_ID req)%Z && whereOrgIs (ui_OrgID req) (i_OrgID i))
      (UpdateIssuer_set req now))).

Definition ActivateIssuer (m : Issuer) : M Db Issuer :=
  guard (negb (IsZero (i_ID m))) (OtherError "issuer ID is required") ;;;
  let im := set_i_activated m in
  lift_result (Issuer_Validate im) ;;;
  let! now := Now in
  check_not_found "issuer" (pretty (i_ID im))
    (exec issuers (update_row issuer_uniques
      (fun i => (i_ID i =? i_ID im)%Z &&
                bool_decide (i_Status i = IssuerStatus_Pending) &&
                whereOrgIs (i_OrgID im) (i_OrgID i))
      (set_i_certificate im now))).

(** ON DELETE CASCADE of crl.issuer_id. *)
Definition cascadeCrls (s : Db) : Db :=
  tab_set crls (List.filter (fun l =>
    bool_decide (l_IssuerID l ∈ (i_ID <$> db_issuers s))) (db_crls s)) s.

Definition DeleteIssuer (orgID id : Z) : M Db Z :=
  let! n := DeleteRowByOrgAndID issuers i_OrgID i_ID orgID id in
  modify cascadeCrls ;;;
  ret n.

(** *** Profiles *)

Definition RegisterProfile (m : CertificateProfile) : M Db CertificateProfile :=
  let! id := ensureID (p_ID m) in
  let! now := Now in
  let st := if bool_decide (p_Status m = ItemStatus_Unknown)
            then ItemStatus_Active else p_Status m in
  let im := set_p_insert id st now m in
  lift_result (CertificateProfile_Validate im) ;;;
  exec profiles (upsert_row profile_uniques profile_label im (fun _ => true)
    (set_p_replace im now)).

Definition GetProfile (id : Z) : M Db CertificateProfile :=
  GetRowByID profiles "certificate_profile" p_ID id.

Definition FindProfile (orgID projectID : Z) (label : string)
  : M Db CertificateProfile :=
  check_not_found "certificate_profile"
    (pretty orgID ++ "/" ++ pretty projectID ++ "/" ++ label)
    (select profiles (select_row (FindProfile_where orgID projectID label))).

Definition ListProfiles (req : ListProfilesRequest)
  : M Db (PageResult CertificateProfile) :=
  lift_result (ListProfilesRequest_Validate req) ;;;
  listTable profiles p_ID (ListProfiles_where req) (lp_Page req).

Definition DeleteProfile (orgID id : Z) : M Db Z :=
  DeleteRowByOrgAndID profiles p_OrgID p_ID orgID id.

(** *** CRLs *)

Definition ErrStaleCrlNumber : error :=
  Sentinel "crl number is not greater than the issuer's crl number".

(** No row is updated when the issuer does not exist, the IKID is another
    issuer's, or the number is not greater. *)
Definition setIssuerCrlNumber (issuerID : Z) (ikid : string) (number : Z)
  : M Db Issuer :=
  catch (exec issuers (update_row issuer_uniques
           (fun i => (i_ID i =? issuerID)%Z && bool_decide (i_Skid i = ikid) &&
                     (i_CrlNumber i <? number)%Z)
           (set_i_CrlNumber number)))
    (fun r => match r with
      | Ok res => ret res
      | Err e =>
          if negb (IsNotFoundError e)
          then fail (WithMessage e "unable to update issuer crl number")
          else
            let! issuer := GetIssuer issuerID in
            if negb (bool_decide (i_Skid issuer = ikid))
            then fail (OtherError ("crl ikid " ++ ikid ++
                   " does not match issuer " ++ id_string issuerID))
            else fail ErrStaleCrlNumber
      end).

Definition PublishCrl (m : Crl) : M Db Crl :=
  let! id := ensureID (l_ID m) in
  guard (negb (IsZero (l_IssuerID m))) (OtherError "invalid issuer ID") ;;;
  guard (negb (bool_decide (l_Ikid m = EmptyString)))
    (OtherError "invalid ikid: required") ;;;
  transaction (
    let! issuer := setIssuerCrlNumber (l_IssuerID m) (l_Ikid m) (l_CrlNumber m) in
    let! now := Now in
    let im := set_l_insert id now issuer m in
    lift_result (Crl_Validate im) ;;;
    with_message "unable to store crl"
      (let! s := get in
       foreign_key (bool_decide (l_IssuerID im ∈ (i_ID <$> db_issuers s)))
         "crl_issuer_id_fkey" ;;;
       exec crls (upsert_row crl_uniques crl_ikid im (fun _ => true)
         (set_l_replace im)))).

Definition GetCrl (ikid : string) : M Db Crl :=
  check_not_found "crl" ikid
    (select crls (select_row (fun l => bool_decide (l_Ikid l = ikid)))).

Definition GetCrls (ikids : list string) : M Db (list Crl) :=
  match ikids with
  | [] => ret []
  | _ => select crls (fun rows =>
           Ok (List.filter (fun l => bool_decide (l_Ikid l ∈ ikids)) rows))
  end.

Definition ListCrls (req : ListCrlsRequest) : M Db (PageResult Crl) :=
  lift_result (ListCrlsRequest_Validate req) ;;;
  listTable crls l_ID (ListCrls_where req) (ll_Page req).

(** The state of the CRL of an issuer; a zero next update is NULL. *)
Record CrlState := mkCrlState {
  cs_ID : Z; cs_Label : string; cs_Skid : string; cs_NotAfter : Z;
  cs_Config : string; cs_NextUpdate : Z }.

Definition crlStateOf (ls : list Crl) (i : Issuer) : CrlState :=
  mkCrlState (i_ID i) (i_Label i) (i_Skid i) (i_NotAfter i) (i_Config i)
    match List.find (fun l => bool_decide (l_Ikid l = i_Skid i)) ls with
    | Some l => l_NextUpdate l
    | None => 0
    end.

Definition ListCrlStates (req : ListCrlStatesRequest)
  : M Db (PageResult CrlState) :=
  lift_result (ListCrlStatesRequest_Validate req) ;;;
  fun s => (Ok (listRows cs_ID
    (crlStateOf (db_crls s) <$>
      List.filter (ListCrlStates_where req) (db_issuers s))
    (lx_Limit req) 0 (lx_Cursor req)), s).

Definition DeleteCrl (orgID : Z) (ikid : string) : M Db Z :=
  exec crls (fun rows => Ok (delete_rows (fun l =>
    whereOrgIs orgID (l_OrgID l) && bool_decide (l_Ikid l = ikid)) rows)).

(** *** The tenant summary *)

Record SummaryCounts := mkSummaryCounts {
  sm_Issuers : IssuerStatus_Enum -> option Z;
  sm_Certificates : CertificateCounts; sm_CrlStates : list CrlState }.

(** The page loop over the CRL states of the snapshot [s]; every page has a
    row, so a fuel of one more than the issuers is never exhausted. *)
Definition readCrlStates (req : SummaryRequest) (s : Db)
  : option (result (list CrlState)) :=
  readPages (fun c => (ListCrlStates (SummaryRequest_CrlStates req c) s).1)
    (fun acc page => Ok (acc ++ page)) (S (length (db_issuers s)))
    (NewCursor 0) [].

(** The reads are one read-only snapshot. *)
Definition GetSummaryCounts (req : SummaryRequest) : M Db SummaryCounts :=
  lift_result (SummaryRequest_Validate req) ;;;
  let! issuers := CountIssuers (SummaryRequest_Issuers req) in
  let! certs := CountCertificates (SummaryRequest_Certificates req) in
  let! s := get in
  match readCrlStates req s with
  | Some r => let! states := lift_result r in
              ret (mkSummaryCounts issuers certs states)
  | None => fail (OtherError "out of fuel")
  end.
End provider.
