(* ===== verification/CaDbFacts.v ===== *)
(** The CA database is well formed after every operation, and what the
    operations do: the invariant [db_wf], the operations as steps, and the
    functional theorems on registration, revocation, expiry, CRL numbers and
    the issuer lifecycle. *)
From stdpp Require Import base list sets strings pretty sorting.
From S2P Require Import Prelude GoStrings Xdb Tenancy Query Model Sql CaQuery CaDb.

(** ** The invariant *)

(** The columns a revocation copies from its certificate. *)
Definition revocation_of (c : Certificate) (r : Revoked) : Prop :=
  r_CertificateID r = c_ID c /\ r_OrgID r = c_OrgID c /\
  r_ProjectID r = c_ProjectID c /\ r_Ikid r = c_Ikid c /\
  r_SerialNumber r = c_SerialNumber c /\ r_NotAfter r = c_NotAfter c.

(** The CRL is the current one of the issuer. *)
Definition crl_of (i : Issuer) (l : Crl) : Prop :=
  l_IssuerID l = i_ID i /\ l_OrgID l = i_OrgID i /\
  l_ProjectID l = i_ProjectID i /\ l_Ikid l = i_Skid i /\
  l_CrlNumber l = i_CrlNumber i.

Record certificates_wf (cs : list Certificate) (rs : list Revoked) : Prop := {
  wf_certificate_unique : uniques_hold certificate_uniques cs;
  wf_revoked_unique : uniques_hold revoked_uniques rs;
  wf_certificate_valid c : c ∈ cs -> Certificate_Validate c = Ok tt;
  wf_revoked_valid r : r ∈ rs -> Revoked_Validate r = Ok tt;
  wf_revocation r : r ∈ rs ->
    exists c, c ∈ cs /\ revocation_of c r /\
      c_Status c = CertificateStatus_Revoked;
  wf_status c : c ∈ cs -> c_Status c = CertificateStatus_Revoked ->
    exists r, r ∈ rs /\ revocation_of c r }.

(** The CRL is of the issuer and of its tenancy. *)
Definition crl_owner (i : Issuer) (l : Crl) : Prop :=
  l_IssuerID l = i_ID i /\ l_OrgID l = i_OrgID i /\ l_ProjectID l = i_ProjectID i.

Record issuers_wf (P : Issuer -> Crl -> Prop) (iss : list Issuer) (ls : list Crl)
  : Prop := {
  wf_issuer_unique : uniques_hold issuer_uniques iss;
  wf_crl_unique : uniques_hold crl_uniques ls;
  wf_crl_valid l : l ∈ ls -> Crl_Validate l = Ok tt;
  wf_crl_issuer l : l ∈ ls -> exists i, i ∈ iss /\ P i l }.
Arguments wf_issuer_unique {P}.
Arguments wf_crl_unique {P}.
Arguments wf_crl_valid {P}.
Arguments wf_crl_issuer {P}.

(** The tables are well formed, and every CRL is related to its issuer. *)
Record db_wf_of (P : Issuer -> Crl -> Prop) (s : Db) : Prop := {
  wf_certificates : certificates_wf (db_certificates s) (db_revoked s);
  wf_issuers : issuers_wf P (db_issuers s) (db_crls s);
  wf_roots : uniques_hold root_uniques (db_roots s) /\
    forall t, t ∈ db_roots s -> RootCertificate_Validate t = Ok tt;
  wf_profiles : uniques_hold profile_uniques (db_profiles s) /\
    forall p, p ∈ db_profiles s -> CertificateProfile_Validate p = Ok tt;
  wf_events : uniques_hold event_uniques (db_events s) }.
Arguments wf_certificates {P}.
Arguments wf_issuers {P}.
Arguments wf_roots {P}.
Arguments wf_profiles {P}.
Arguments wf_events {P}.

(** Every CRL is the current one of its issuer, or at least of an issuer and
    its tenancy. *)
Notation db_wf := (db_wf_of crl_of).
Notation db_sound := (db_wf_of crl_owner).

(** ** Keys *)

Lemma certificate_id_inj cs c d :
  uniques_hold certificate_uniques cs -> c ∈ cs -> d ∈ cs ->
  c_ID c = c_ID d -> c = d.
Proof. intros H%Forall_inv. by apply NoDup_key_inj. Qed.

Lemma issuer_id_inj iss i j :
  uniques_hold issuer_uniques iss -> i ∈ iss -> j ∈ iss ->
  i_ID i = i_ID j -> i = j.
Proof. intros H%Forall_inv. by apply NoDup_key_inj. Qed.

Lemma issuer_skid_inj iss i j :
  uniques_hold issuer_uniques iss -> i ∈ iss -> j ∈ iss ->
  i_Skid i = i_Skid j -> i = j.
Proof.
  intros H. apply NoDup_key_inj, (uniques_elem _ _
    (Unique "unique_issuer_skid" _ _ i_Skid) H). set_solver.
Qed.

Lemma revoked_certificate_inj rs r q :
  uniques_hold revoked_uniques rs -> r ∈ rs -> q ∈ rs ->
  r_CertificateID r = r_CertificateID q -> r = q.
Proof.
  intros H. apply NoDup_key_inj, (uniques_elem _ _
    (Unique "unique_revoked_certificate" _ _ r_CertificateID) H). set_solver.
Qed.

Lemma crl_ikid_inj ls l k :
  uniques_hold crl_uniques ls -> l ∈ ls -> k ∈ ls ->
  l_Ikid l = l_Ikid k -> l = k.
Proof.
  intros H. apply NoDup_key_inj, (uniques_elem _ _ crl_ikid H). set_solver.
Qed.

(** ** Validation of changed rows *)

Lemma Certificate_Validate_status st c :
  st <> CertificateStatus_Unknown ->
  Certificate_Validate c = Ok tt ->
  Certificate_Validate (set_c_Status st c) = Ok tt.
Proof.
  intros Hst. unfold Certificate_Validate. simpl. go_unfold.
  repeat case_match; try done; simplify_eq/=; case_bool_decide; done.
Qed.

Lemma validateLocations_valid locs :
  forallb validLocation locs = true -> validateLocations locs = Ok tt.
Proof.
  induction locs as [|l locs IH]; simpl; [done|].
  rewrite andb_true_iff. intros [Hl Hr].
  unfold validLocation in Hl. apply andb_true_iff in Hl as [Hn Hlen].
  apply negb_true_iff, bool_decide_eq_false in Hn. apply Nat.leb_le in Hlen.
  rewrite (proj2 (validateLength_ok _ _ _ _)) by done. simpl. auto.
Qed.

Lemma Certificate_Validate_client label metadata locations c :
  (String.length (default "" label) <= MaxLenForName)%nat ->
  forallb validLocation (default [] locations) = true ->
  Certificate_Validate c = Ok tt ->
  Certificate_Validate (set_c_client label metadata locations c) = Ok tt.
Proof.
  intros Hl Hloc%validateLocations_valid. unfold Certificate_Validate. simpl.
  assert (validateLength "label" (c_Label c) MaxLenForName false = Ok tt ->
    validateLength "label" (default (c_Label c) label) MaxLenForName false
      = Ok tt) as Hlab.
  { rewrite !validateLength_ok. destruct label; simpl in *; naive_solver. }
  assert (validateLocations (c_Locations c) = Ok tt ->
    validateLocations (default (c_Locations c) locations) = Ok tt) as Hlocs.
  { by destruct locations. }
  destruct (validateLength "label" (c_Label c) MaxLenForName false) as [[]|];
    [rewrite Hlab by done|]; [|go_unfold; by repeat case_match].
  destruct (validateLocations (c_Locations c)) as [[]|];
    [by rewrite Hlocs by done|]. go_unfold; by repeat case_match.
Qed.

(** ** The certificate tables *)

Lemma certificates_insert cs rs c :
  certificates_wf cs rs -> Certificate_Validate c = Ok tt ->
  c_Status c <> CertificateStatus_Revoked ->
  uniques_hold certificate_uniques (cs ++ [c]) ->
  certificates_wf (cs ++ [c]) rs.
Proof.
  intros [Hu Hr Hv Hrv Hrev Hst] Hc Hn Hu'. constructor; auto.
  - intros d [Hd| ->%list_elem_of_singleton]%elem_of_app; auto.
  - intros r (d & Hd & Hrest)%Hrev. exists d. set_solver.
  - intros d [Hd| ->%list_elem_of_singleton]%elem_of_app; [auto|done].
Qed.

(** The columns a revocation copies are kept. *)
Definition same_identity (c d : Certificate) : Prop :=
  c_ID d = c_ID c /\ c_OrgID d = c_OrgID c /\ c_ProjectID d = c_ProjectID c /\
  c_Ikid d = c_Ikid c /\ c_SerialNumber d = c_SerialNumber c /\
  c_NotAfter d = c_NotAfter c.

Lemma revocation_of_same c d r :
  same_identity c d -> revocation_of c r <-> revocation_of d r.
Proof. unfold same_identity, revocation_of. naive_solver congruence. Qed.

(** An update that keeps the identity of the rows and revokes none. *)
Lemma certificates_update cs rs where_ set_ :
  certificates_wf cs rs ->
  (forall c, c ∈ cs -> where_ c = true ->
    same_identity c (set_ c) /\ Certificate_Validate (set_ c) = Ok tt /\
    (c_Status (set_ c) = CertificateStatus_Revoked <->
     c_Status c = CertificateStatus_Revoked)) ->
  uniques_hold certificate_uniques (update_all where_ set_ cs) ->
  certificates_wf (update_all where_ set_ cs) rs.
Proof.
  intros [Hu Hr Hv Hrv Hrev Hst] Hset Hu'. constructor; auto.
  - intros d (c & Hc & ->)%update_all_elem.
    destruct (where_ c) eqn:E; [by apply Hset|auto].
  - intros r Hin. destruct (Hrev r Hin) as (c & Hc & Hof & Hs).
    exists (if where_ c then set_ c else c).
    rewrite update_all_elem. split; [by exists c|].
    destruct (where_ c) eqn:E; [|done].
    destruct (Hset c Hc E) as (Hid & _ & Hiff).
    by rewrite <-(revocation_of_same c (set_ c)), Hiff.
  - intros d (c & Hc & ->)%update_all_elem Hs.
    destruct (where_ c) eqn:E; [|auto].
    destruct (Hset c Hc E) as (Hid & _ & Hiff).
    destruct (Hst c Hc) as (r & Hin & Hof); [by apply Hiff|].
    exists r. by rewrite <-(revocation_of_same c (set_ c)).
Qed.

Lemma certificates_delete cs rs f :
  certificates_wf cs rs ->
  certificates_wf (List.filter f cs)
    (List.filter (fun r =>
       bool_decide (r_CertificateID r ∈ (c_ID <$> List.filter f cs))) rs).
Proof.
  intros [Hu Hr Hv Hrv Hrev Hst].
  assert (forall c, c ∈ List.filter f cs <-> c ∈ cs /\ f c = true) as Hf.
  { intros c. apply filter_elem. }
  assert (forall r, r ∈ List.filter (fun r => bool_decide (r_CertificateID r ∈
    (c_ID <$> List.filter f cs))) rs <->
    r ∈ rs /\ r_CertificateID r ∈ (c_ID <$> List.filter f cs)) as Hg.
  { intros r. by rewrite filter_elem, bool_decide_eq_true. }
  constructor; eauto with go.
  - intros c [Hc _]%Hf. auto.
  - intros r [Hin _]%Hg. auto.
  - intros r [Hin Hid]%Hg. destruct (Hrev r Hin) as (c & Hc & Hof & Hs).
    apply list_elem_of_fmap in Hid as (d & Hd & Hdin).
    assert (d = c) as ->; [|by exists c].
    apply (certificate_id_inj cs); [done|by apply Hf in Hdin as [? _]|done|].
    destruct Hof as [Hof _]. congruence.
  - intros c [Hc Hfc]%Hf Hs. destruct (Hst c Hc Hs) as (r & Hin & Hof).
    exists r. split; [|done]. apply Hg. split; [done|].
    destruct Hof as [-> _]. apply list_elem_of_fmap_2, Hf. done.
Qed.

(** The two statements of a revocation together. *)
Lemma certificates_revoke cs rs c r :
  certificates_wf cs rs -> c ∈ cs -> revocation_of c r ->
  Revoked_Validate r = Ok tt ->
  uniques_hold revoked_uniques (rs ++ [r]) ->
  let cs' := update_all (fun d => (c_ID d =? c_ID c)%Z)
               (set_c_Status CertificateStatus_Revoked) cs in
  uniques_hold certificate_uniques cs' ->
  certificates_wf cs' (rs ++ [r]).
Proof.
  intros [Hu Hr Hv Hrv Hrev Hst] Hc Hof Hval Hur cs' Hu'.
  assert (forall d, same_identity d (set_c_Status CertificateStatus_Revoked d))
    as Hsame by done.
  constructor; auto.
  - intros d (e & He & ->)%update_all_elem.
    destruct (_ =? _)%Z; [|auto]. by apply Certificate_Validate_status; auto.
  - intros q [Hq| ->%list_elem_of_singleton]%elem_of_app; auto.
  - intros q [Hq| ->%list_elem_of_singleton]%elem_of_app.
    + destruct (Hrev q Hq) as (d & Hd & Hdof & Hs).
      exists (if (c_ID d =? c_ID c)%Z
              then set_c_Status CertificateStatus_Revoked d else d).
      split; [apply update_all_elem; eauto|]. by destruct (_ =? _)%Z.
    + exists (set_c_Status CertificateStatus_Revoked c).
      split; [|done]. apply update_all_elem. exists c.
      by rewrite Z.eqb_refl.
  - intros d (e & He & ->)%update_all_elem Hs.
    destruct (Z.eqb_spec (c_ID e) (c_ID c)) as [Heq|Hne].
    + pose proof (certificate_id_inj cs e c Hu He Hc Heq) as ->.
      exists r. split; [set_solver|done].
    + destruct (Hst e He Hs) as (q & Hq & Hqof). exists q. set_solver.
Qed.

(** ** The issuer tables *)

(** What a publication makes of the issuers. *)
Definition published (i : Issuer) (im : Crl) (iss : list Issuer) : list Issuer :=
  update_all (fun j => (i_ID j =? i_ID i)%Z &&
    bool_decide (i_Skid j = i_Skid i) && (i_CrlNumber j <? l_CrlNumber im)%Z)
    (set_i_CrlNumber (l_CrlNumber im)) iss.

(** A relation of a CRL to its issuer, through the columns that identify,
    place and number them, that a publication keeps. *)
Class CrlRel (P : Issuer -> Crl -> Prop) : Prop := {
  crl_rel_of i l : crl_of i l -> P i l;
  crl_rel_owner i l : P i l -> crl_owner i l;
  crl_rel_columns i j l :
    (i_ID j, i_OrgID j, i_ProjectID j, i_Skid j, i_CrlNumber j) =
    (i_ID i, i_OrgID i, i_ProjectID i, i_Skid i, i_CrlNumber i) -> P i l -> P j l;
  crl_rel_publish iss i im j l :
    uniques_hold issuer_uniques iss -> i ∈ iss ->
    crl_of (set_i_CrlNumber (l_CrlNumber im) i) im -> (i_CrlNumber i < l_CrlNumber im)%Z ->
    j ∈ iss -> P j l ->
    exists j', j' ∈ published i im iss /\
      P j' (if bool_decide (l_Ikid l = l_Ikid im) then set_l_replace im l else l) }.

Lemma published_self iss i im : i ∈ iss -> (i_CrlNumber i < l_CrlNumber im)%Z ->
  set_i_CrlNumber (l_CrlNumber im) i ∈ published i im iss.
Proof.
  intros Hi Hlt. apply update_all_elem. exists i. split; [done|].
  by rewrite Z.eqb_refl, bool_decide_true, (proj2 (Z.ltb_lt _ _)).
Qed.

#[export] Instance crl_owner_rel : CrlRel crl_owner.
Proof.
  split; unfold crl_owner; [by unfold crl_of; naive_solver|done| |].
  { by intros i j l [= -> -> -> _ _]. }
  intros iss i im j l _ _ _ _ Hj Ho. eexists. split; [apply update_all_elem; by exists j|].
  case_bool_decide; by case_match.
Qed.

#[export] Instance crl_of_rel : CrlRel crl_of.
Proof.
  split; unfold crl_of; [done|by unfold crl_owner; naive_solver| |].
  { intros i j l [= -> -> -> -> ->]. done. }
  intros iss i im j l Hu Hi Hof Hlt Hj Hjof. simpl in Hof.
  case_bool_decide as Hik.
  - assert (j = i) as -> by (apply (issuer_skid_inj iss); auto; naive_solver congruence).
    eexists. split; [by apply published_self|]. simpl. naive_solver congruence.
  - exists j. split; [|done]. apply update_all_elem. exists j. split; [done|].
    destruct (Z.eqb_spec (i_ID j) (i_ID i)) as [E|E]; [|done].
    pose proof (issuer_id_inj iss j i Hu Hj Hi E) as ->. destruct Hik. naive_solver congruence.
Qed.

Section issuer_tables.
Context {P : Issuer -> Crl -> Prop} {PR : CrlRel P}.

Lemma issuers_insert iss ls i :
  issuers_wf P iss ls -> uniques_hold issuer_uniques (iss ++ [i]) ->
  issuers_wf P (iss ++ [i]) ls.
Proof.
  intros [Hu Hl Hv Hi] Hu'. constructor; auto.
  intros l (j & Hj & Hof)%Hi. exists j. set_solver.
Qed.

(** An update that keeps the columns the CRL of an issuer refers to. *)
Lemma issuers_update iss ls where_ set_ :
  issuers_wf P iss ls ->
  (forall i, i ∈ iss -> where_ i = true ->
     forall l, l ∈ ls -> P i l -> P (set_ i) l) ->
  uniques_hold issuer_uniques (update_all where_ set_ iss) ->
  issuers_wf P (update_all where_ set_ iss) ls.
Proof.
  intros [Hu Hl Hv Hi] Hset Hu'. constructor; auto.
  intros l Hin. destruct (Hi l Hin) as (j & Hj & Hof).
  exists (if where_ j then set_ j else j).
  rewrite update_all_elem. split; [by exists j|].
  destruct (where_ j) eqn:E; auto.
Qed.

Lemma issuers_delete iss ls f :
  issuers_wf P iss ls ->
  issuers_wf P (List.filter f iss)
    (List.filter (fun l =>
       bool_decide (l_IssuerID l ∈ (i_ID <$> List.filter f iss))) ls).
Proof.
  intros [Hu Hl Hv Hi]. constructor; eauto with go.
  - intros l [Hin _]%filter_elem. auto.
  - intros l [Hin Hid%bool_decide_eq_true]%filter_elem.
    destruct (Hi l Hin) as (i & Hii & Hof).
    apply list_elem_of_fmap in Hid as (j & Hj & [Hjin Hjf]%filter_elem).
    assert (j = i) as ->.
    { apply (issuer_id_inj iss); auto. apply crl_rel_owner in Hof as [Hof _]. congruence. }
    exists i. by rewrite filter_elem.
Qed.

Lemma issuers_delete_crls iss ls f :
  issuers_wf P iss ls -> issuers_wf P iss (List.filter f ls).
Proof.
  intros [Hu Hl Hv Hi]. constructor; eauto with go;
    intros l [Hin _]%filter_elem; auto.
Qed.

Lemma set_l_replace_valid im l :
  l_Ikid l = l_Ikid im -> Crl_Validate l = Ok tt -> Crl_Validate im = Ok tt ->
  Crl_Validate (set_l_replace im l) = Ok tt.
Proof.
  intros Hik. unfold Crl_Validate. simpl. rewrite Hik.
  go_unfold. repeat case_match; by try done.
Qed.

(** A publication updates the number of the issuer and stores its CRL, over
    the one with the same key identifier. *)
Lemma issuers_publish iss ls i im ls' :
  issuers_wf P iss ls -> i ∈ iss ->
  crl_of (set_i_CrlNumber (l_CrlNumber im) i) im -> Crl_Validate im = Ok tt ->
  (i_CrlNumber i < l_CrlNumber im)%Z ->
  uniques_hold issuer_uniques (published i im iss) -> uniques_hold crl_uniques ls' ->
  (ls' = ls ++ [im] /\ (forall l, l ∈ ls -> l_Ikid l <> l_Ikid im)) \/
  ls' = update_all (fun l => bool_decide (l_Ikid l = l_Ikid im))
          (set_l_replace im) ls ->
  issuers_wf P (published i im iss) ls'.
Proof.
  intros [Hu Hl Hv Hi] Hin Hof Hval Hlt Hu' Hul' Hls.
  assert (forall l, l ∈ ls -> exists j, j ∈ published i im iss /\
    P j (if bool_decide (l_Ikid l = l_Ikid im) then set_l_replace im l else l)) as Hp.
  { intros l (j & Hj & Hjl)%Hi. by eapply crl_rel_publish. }
  constructor; auto; intros l Hlin; destruct Hls as [[-> Hnew]| ->].
  - apply elem_of_app in Hlin as [Hlin| ->%list_elem_of_singleton]; auto.
  - apply update_all_elem in Hlin as (k & Hk & ->).
    case_bool_decide; [apply set_l_replace_valid|]; auto.
  - apply elem_of_app in Hlin as [Hlin| ->%list_elem_of_singleton].
    + specialize (Hp l Hlin). by rewrite bool_decide_false in Hp by auto.
    + exists (set_i_CrlNumber (l_CrlNumber im) i).
      split; [by apply published_self|by apply crl_rel_of].
  - apply update_all_elem in Hlin as (k & Hk & ->). auto.
Qed.
End issuer_tables.

(** ** Operations as steps *)

(** The methods that write the CA tables, the clock, and the orgs and
    projects other parts of the program create and delete. *)
Inductive db_op :=
| OpCreateEvent (m : Event)
| OpRegisterCertificate (m : Certificate) (evt : option Event)
| OpUpdateCertificate (req : UpdateCertificateRequest)
| OpDeleteCertificate (orgID id : Z)
| OpExpireCertificates (req : ExpireCertificatesRequest)
| OpDeleteExpiredCertificates (req : ExpireCertificatesRequest)
| OpRevokeCertificate (req : RevokeCertificateRequest)
| OpRegisterRoot (m : RootCertificate)
| OpDeleteRoot (orgID id : Z)
| OpRegisterIssuer (m : Issuer) (anchor : option RootCertificate)
| OpUpdateIssuer (req : UpdateIssuerRequest)
| OpActivateIssuer (m : Issuer)
| OpDeleteIssuer (orgID id : Z)
| OpRegisterProfile (m : CertificateProfile)
| OpDeleteProfile (orgID id : Z)
| OpPublishCrl (m : Crl)
| OpDeleteCrl (orgID : Z) (ikid : string)
| OpTick (now : Z)
| OpTenants (orgs projects : list Z).

Section steps.
Context `{Xdb, Codec, IdGen}.

Definition run_op (op : db_op) (s : Db) : Db :=
  match op with
  | OpCreateEvent m => (CreateEvent m s).2
  | OpRegisterCertificate m evt => (RegisterCertificate m evt s).2
  | OpUpdateCertificate req => (UpdateCertificate req s).2
  | OpDeleteCertificate orgID id => (DeleteCertificate orgID id s).2
  | OpExpireCertificates req => (ExpireCertificates req s).2
  | OpDeleteExpiredCertificates req => (DeleteExpiredCertificates req s).2
  | OpRevokeCertificate req => (RevokeCertificate req s).2
  | OpRegisterRoot m => (RegisterRoot m s).2
  | OpDeleteRoot orgID id => (DeleteRoot orgID id s).2
  | OpRegisterIssuer m anchor => (RegisterIssuer m anchor s).2
  | OpUpdateIssuer req => (UpdateIssuer req s).2
  | OpActivateIssuer m => (ActivateIssuer m s).2
  | OpDeleteIssuer orgID id => (DeleteIssuer orgID id s).2
  | OpRegisterProfile m => (RegisterProfile m s).2
  | OpDeleteProfile orgID id => (DeleteProfile orgID id s).2
  | OpPublishCrl m => (PublishCrl m s).2
  | OpDeleteCrl orgID ikid => (DeleteCrl orgID ikid s).2
  | OpTick now =>
      mkDb now (db_seq s) (db_orgs s) (db_projects s) (db_roots s)
        (db_issuers s) (db_profiles s) (db_certificates s) (db_revoked s)
        (db_crls s) (db_events s)
  | OpTenants orgs projects =>
      mkDb (db_now s) (db_seq s) orgs projects (db_roots s) (db_issuers s)
        (db_profiles s) (db_certificates s) (db_revoked s) (db_crls s)
        (db_events s)
  end.

(** What a caller of the database owes: an issuer is activated before its
    first CRL, or with the key identifier its CRL was published under. *)
Definition op_allowed (s : Db) (op : db_op) : Prop :=
  match op with
  | OpActivateIssuer m =>
      forall l, l ∈ db_crls s -> l_IssuerID l = i_ID m -> l_Ikid l = i_Skid m
  | _ => True
  end.

Definition emptyDb (now : Z) : Db := mkDb now 0 [] [] [] [] [] [] [] [] [].

Inductive reachable : Db -> Prop :=
| reachable_empty now : reachable (emptyDb now)
| reachable_step s op : reachable s -> op_allowed s op -> reachable (run_op op s).

(** ** Preservation *)

(** The predicates on the tables: the generator of IDs does not matter. *)
Class SeqStable (I : Db -> Prop) :=
  seq_stable n s : I s -> I (set_seq n s).

#[global] Instance db_wf_seq P : SeqStable (db_wf_of P).
Proof. by intros n s []. Qed.
#[global] Instance tab_seq {R} (t : Table R) (P : list R -> Prop)
    (Ht : forall n s, tab_rows t (set_seq n s) = tab_rows t s) :
  SeqStable (fun s => P (tab_rows t s)).
Proof. intros n s. by rewrite Ht. Qed.

Section stable.
Context (I : Db -> Prop) `{!SeqStable I}.

Lemma preserves_exec {R A} (t : Table R) (f : list R -> result (A * list R)) :
  (forall s a rows, I s -> f (tab_rows t s) = Ok (a, rows) ->
     I (tab_set t rows s)) ->
  preserves I (exec t f).
Proof.
  intros Hf s Hs. unfold exec. destruct (f (tab_rows t s)) as [[a rows]|e] eqn:E;
    [|done]. by apply (Hf s a).
Qed.

Lemma hoare_exec {R A} (Q : Db -> Prop) (t : Table R)
    (f : list R -> result (A * list R)) :
  (forall s, I s -> Q s) ->
  (forall s a rows, I s -> f (tab_rows t s) = Ok (a, rows) ->
     Q (tab_set t rows s)) ->
  hoare I (exec t f) Q.
Proof.
  intros HQ Hf s Hs. unfold exec.
  destruct (f (tab_rows t s)) as [[a rows]|e] eqn:E; [by apply (Hf s a)|].
  by apply HQ.
Qed.

Lemma preserves_transaction {A} (m : M Db A) :
  (forall s a s', I s -> m s = (Ok a, s') -> I s') ->
  preserves I (transaction m).
Proof.
  intros Hm s Hs. unfold transaction. destruct (m s) as [[a|e] s'] eqn:E; simpl.
  - by apply (Hm s a).
  - by apply seq_stable.
Qed.

Lemma hoare_transaction {A} (Q : Db -> Prop) (m : M Db A) :
  (forall s, I s -> Q s) -> hoare I m Q -> hoare I (transaction m) Q.
Proof.
  intros HQ Hm s Hs. unfold transaction. specialize (Hm s Hs).
  destruct (m s) as [[a|e] s']; simpl in *; [done|]. by apply HQ, seq_stable.
Qed.

Lemma preserves_ok {A} (m : M Db A) :
  preserves I m -> forall s a s', I s -> m s = (Ok a, s') -> I s'.
Proof. intros Hm s a s' Hs E. specialize (Hm s Hs). by rewrite E in Hm. Qed.

Lemma preserves_select {R A} (t : Table R) (f : list R -> result A) :
  preserves I (select t f).
Proof. by intros s. Qed.
Lemma preserves_Now : preserves I Now.
Proof. by intros s. Qed.
Lemma preserves_ensureID id : preserves I (ensureID id).
Proof.
  intros s Hs. unfold ensureID, NextID. case_match; [by apply seq_stable|done].
Qed.
Lemma preserves_NextID : preserves I NextID.
Proof. intros s Hs. by apply seq_stable. Qed.
Lemma preserves_check {A} table key (m : M Db A) :
  preserves I m -> preserves I (check_not_found table key m).
Proof. intros Hm. unfold check_not_found. preserves_steps; auto. Qed.
Lemma preserves_message {A} msg (m : M Db A) :
  preserves I m -> preserves I (with_message msg m).
Proof. intros Hm. unfold with_message. preserves_steps; auto. Qed.
Lemma preserves_fk b name : preserves I (foreign_key b name).
Proof. apply preserves_guard. Qed.
End stable.

(** Successful statements. *)
Lemma exec_ok {R A} (t : Table R) (f : list R -> result (A * list R)) s a s' :
  exec t f s = (Ok a, s') <->
  exists rows, f (tab_rows t s) = Ok (a, rows) /\ s' = tab_set t rows s.
Proof.
  unfold exec. destruct (f (tab_rows t s)) as [[b rows]|e];
    [|split; [done|by intros (? & ? & ?)]].
  split; [intros [= -> <-]; by exists rows|]. by intros (? & [= -> ->] & ->).
Qed.
Lemma select_ok {R A} (t : Table R) (f : list R -> result A) s a s' :
  select t f s = (Ok a, s') <-> f (tab_rows t s) = Ok a /\ s' = s.
Proof. unfold select. split; [by intros [= -> ->]|by intros [-> ->]]. Qed.
Lemma check_ok {A} table key (m : M Db A) s a s' :
  check_not_found table key m s = (Ok a, s') -> m s = (Ok a, s').
Proof.
  unfold check_not_found, catch. destruct (m s) as [[b|e] s1]; done.
Qed.
Lemma message_ok {S A} msg (m : M S A) s a s' :
  with_message msg m s = (Ok a, s') -> m s = (Ok a, s').
Proof.
  unfold with_message, catch. destruct (m s) as [[b|e] s1]; done.
Qed.
Lemma transaction_ok {A} (m : M Db A) s a s' :
  transaction m s = (Ok a, s') -> m s = (Ok a, s').
Proof. unfold transaction. by destruct (m s) as [[b|e] s1]. Qed.
Lemma transaction_err {A} (m : M Db A) s e s' :
  transaction m s = (Err e, s') -> exists n, s' = set_seq n s.
Proof.
  unfold transaction. destruct (m s) as [[b|e'] s1]; [done|].
  intros [= _ <-]. by exists (db_seq s1).
Qed.
Lemma Now_ok s a s' : Now s = (Ok a, s') <-> a = db_now s /\ s' = s.
Proof. unfold Now. split; [by intros [= -> ->]|by intros [-> ->]]. Qed.
Lemma ensureID_ok id s a s' :
  ensureID id s = (Ok a, s') ->
  (id <> 0%Z -> a = id /\ s' = s) /\
  (id = 0%Z -> a = flake (db_seq s) /\ s' = set_seq (S (db_seq s)) s).
Proof.
  unfold ensureID, IsZero, ret. destruct (Z.eqb_spec id 0); intros [= <- <-];
    by split.
Qed.
End steps.

Ltac db_ok_step H :=
  lazymatch type of H with
  | bind _ _ _ = (Ok _, _) =>
      let a := fresh "a" in let s := fresh "s" in let H' := fresh "H" in
      apply bind_ok in H as (a & s & H' & H); db_ok_step H'; db_ok_step H
  | exec _ _ _ = (Ok _, _) => apply exec_ok in H as (? & H & ->)
  | select _ _ _ = (Ok _, _) => apply select_ok in H as [H ->]
  | check_not_found _ _ _ _ = (Ok _, _) => apply check_ok in H; db_ok_step H
  | with_message _ _ _ = (Ok _, _) => apply message_ok in H; db_ok_step H
  | transaction _ _ = (Ok _, _) => apply transaction_ok in H; db_ok_step H
  | foreign_key _ _ _ = (Ok _, _) => apply guard_ok in H as [H ->]
  | Now _ = (Ok _, _) => apply Now_ok in H as [-> ->]
  | _ => ok_step H
  end.

Ltac db_step :=
  lazymatch goal with
  | |- preserves _ Now => apply preserves_Now
  | |- preserves _ NextID => apply preserves_NextID, _
  | |- preserves _ (ensureID _) => apply preserves_ensureID, _
  | |- preserves _ (select _ _) => apply preserves_select
  | |- preserves _ (check_not_found _ _ _) => apply preserves_check
  | |- preserves _ (with_message _ _) => apply preserves_message
  | |- preserves _ (foreign_key _ _) => apply preserves_fk
  | |- _ => preserves_step
  end.
Ltac db_steps := repeat db_step.

Section preservation.
Context `{Xdb, Codec, IdGen}.

Section related.
Context {P : Issuer -> Crl -> Prop} {PR : CrlRel P}.
Local Notation wf := (db_wf_of P).

Lemma CreateEvent_wf m : preserves wf (CreateEvent m).
Proof.
  unfold CreateEvent. db_steps. apply preserves_exec.
  intros s e rows [] (-> & -> & Hu)%insert_row_ok. by constructor.
Qed.

Lemma registerCertificate_wf im :
  Certificate_Validate im = Ok tt -> c_Status im <> CertificateStatus_Revoked ->
  preserves wf (registerCertificate im).
Proof.
  intros Hv Hn. unfold registerCertificate. db_steps. apply preserves_exec.
  intros s c rows [] (-> & -> & Hu)%insert_row_ok. constructor; try done.
  by apply certificates_insert.
Qed.

Lemma RegisterCertificate_wf m evt : preserves wf (RegisterCertificate m evt).
Proof.
  unfold RegisterCertificate. apply preserves_bind; [db_steps|intros id].
  apply preserves_bind_lift. intros im Him.
  assert (c_Status im <> CertificateStatus_Revoked) as Hn.
  { simpl in Him. destruct (c_Status m) eqn:E; simplify_eq/=; by rewrite ?E. }
  apply preserves_bind_lift. intros [] Hv.
  destruct evt as [evt|]; [|by apply registerCertificate_wf].
  db_steps. apply preserves_transaction; [apply _|]. apply preserves_ok. db_steps.
  - by apply registerCertificate_wf.
  - apply CreateEvent_wf.
Qed.

Lemma UpdateCertificate_wf req : preserves wf (UpdateCertificate req).
Proof.
  unfold UpdateCertificate. do 4 (apply preserves_bind_guard; intros ?).
  db_steps. apply preserves_exec.
  intros s x rows [] (c & Hc & Hw & -> & -> & Hu)%update_row_ok.
  constructor; try done. apply certificates_update; try done.
  intros d Hd _. split_and!; try done.
  apply Certificate_Validate_client; [by apply Nat.leb_le|done|].
  by eapply wf_certificate_valid.
Qed.

Lemma ExpireCertificates_wf req : preserves wf (ExpireCertificates req).
Proof.
  unfold ExpireCertificates. db_steps. apply preserves_exec.
  intros s x rows [] E. unfold result_bind in E.
  destruct (checked _ _) eqn:Ec; [|done].
  apply checked_ok in Ec as [-> Hu]. injection E as <- <-.
  constructor; try done. apply certificates_update; try done.
  intros c Hc [Ha _]%andb_true_iff. apply bool_decide_eq_true in Ha.
  split_and!; [done| |by rewrite Ha].
  apply Certificate_Validate_status; [done|]. by eapply wf_certificate_valid.
Qed.

(** Deleting certificates deletes their revocations. *)
Lemma delete_cascade_wf f s :
  wf s ->
  wf (cascadeRevoked (tab_set certificates
    (List.filter f (db_certificates s)) s)).
Proof. intros []. constructor; try done. by apply certificates_delete. Qed.

Lemma DeleteCertificate_wf orgID id : preserves wf (DeleteCertificate orgID id).
Proof. intros s Hs. by apply delete_cascade_wf. Qed.

Lemma DeleteExpiredCertificates_wf req :
  preserves wf (DeleteExpiredCertificates req).
Proof.
  unfold DeleteExpiredCertificates. apply preserves_bind_lift. intros _ _ s Hs.
  by apply delete_cascade_wf.
Qed.

Lemma RegisterRoot_wf m : preserves wf (RegisterRoot m).
Proof.
  unfold RegisterRoot. db_steps. apply preserves_exec.
  intros s x rows [? ? [Hru Hrv] ? ?] Hrow%upsert_row_ok. constructor; try done. simpl.
  destruct Hrow as [(_ & -> & -> & Hu)|(old & Hold & Hk & _ & -> & Hu & ->)].
  - split; [done|]. intros t [Ht| ->%list_elem_of_singleton]%elem_of_app; auto.
  - split; [done|]. intros t (t0 & Ht & ->)%update_all_elem.
    destruct (bool_decide _); auto.
    specialize (Hrv t0 Ht). by destruct t0.
Qed.

Lemma registerIssuer_wf im : preserves wf (registerIssuer im).
Proof.
  unfold registerIssuer. db_steps. apply preserves_exec.
  intros s x rows [] (-> & -> & Hu)%insert_row_ok. constructor; try done.
  by apply issuers_insert.
Qed.

Lemma RegisterIssuer_wf m anchor : preserves wf (RegisterIssuer m anchor).
Proof.
  unfold RegisterIssuer. db_steps; try apply registerIssuer_wf.
  apply preserves_transaction; [apply _|]. apply preserves_ok. db_steps;
    [apply registerIssuer_wf|apply RegisterRoot_wf].
Qed.

Lemma UpdateIssuer_wf req : preserves wf (UpdateIssuer req).
Proof.
  unfold UpdateIssuer. db_steps. apply preserves_exec.
  intros s x rows [] (i & Hi & Hw & -> & -> & Hu)%update_row_ok.
  constructor; try done. apply issuers_update; try done.
  intros j Hj Hjw l Hl. by apply crl_rel_columns.
Qed.

(** The activation of an issuer keeps the relation of its CRLs to it. *)
Definition activation_fits (s : Db) (op : db_op) : Prop :=
  match op with
  | OpActivateIssuer m => forall i l now, l ∈ db_crls s -> i_ID i = i_ID m ->
      P i l -> P (set_i_certificate (set_i_activated m) now i) l
  | _ => True
  end.

Lemma ActivateIssuer_wf m s :
  activation_fits s (OpActivateIssuer m) -> wf s -> wf (ActivateIssuer m s).2.
Proof.
  intros Hk Hs. destruct (ActivateIssuer m s) as [[x|e] s'] eqn:E; simpl.
  - unfold ActivateIssuer in E. db_ok_step E.
    apply update_row_ok in E as (i & Hi & Hw & -> & -> & Hu).
    destruct Hs. constructor; try done. apply issuers_update; try done.
    intros j Hj Hjw l Hl Hjl. rewrite !andb_true_iff, Z.eqb_eq in Hjw.
    destruct Hjw as [[Hid _] _]. by apply Hk.
  - assert (s' = s) as ->; [|done].
    unfold ActivateIssuer, check_not_found, Now, exec in E. go_case.
Qed.

Lemma DeleteIssuer_wf orgID id : preserves wf (DeleteIssuer orgID id).
Proof. intros s []. constructor; try done. by apply issuers_delete. Qed.

Lemma DeleteRoot_wf orgID id : preserves wf (DeleteRoot orgID id).
Proof.
  intros s [? ? [Hu Hv] ? ?]. constructor; try done. simpl.
  split; [by apply filter_hold|]. intros t [Ht _]%filter_elem. auto.
Qed.

Lemma DeleteProfile_wf orgID id : preserves wf (DeleteProfile orgID id).
Proof.
  intros s [? ? ? [Hu Hv] ?]. constructor; try done. simpl.
  split; [by apply filter_hold|]. intros p [Hp _]%filter_elem. auto.
Qed.

Lemma DeleteCrl_wf orgID ikid : preserves wf (DeleteCrl orgID ikid).
Proof.
  intros s []. constructor; try done. by apply issuers_delete_crls.
Qed.

Lemma RegisterProfile_wf m : preserves wf (RegisterProfile m).
Proof.
  unfold RegisterProfile. db_steps. apply preserves_exec.
  intros s x rows [? ? ? [Hpu Hpv] ?] Hrow%upsert_row_ok. constructor; try done.
  simpl. destruct Hrow as [(_ & -> & -> & Hu)|(old & Hold & Hk & _ & -> & Hu & ->)].
  - split; [done|]. intros p [Hp| ->%list_elem_of_singleton]%elem_of_app; auto.
  - split; [done|]. intros p (q & Hq & ->)%update_all_elem.
    destruct (bool_decide (u_key profile_label q = _)) eqn:E; [|auto].
    apply bool_decide_eq_true in E. unfold profile_label in E. simpl in E.
    apply pair_equal_spec in E as [[E1 E2]%pair_equal_spec E3].
    match goal with Hv : CertificateProfile_Validate _ = Ok tt |- _ =>
      revert Hv end.
    unfold CertificateProfile_Validate. simpl. by rewrite E1, E2, E3.
Qed.

(** What a successful publication does. *)
Lemma setIssuerCrlNumber_ok issuerID ikid number s x s' :
  setIssuerCrlNumber issuerID ikid number s = (Ok x, s') ->
  exists i, i ∈ db_issuers s /\ i_ID i = issuerID /\ i_Skid i = ikid /\
    (i_CrlNumber i < number)%Z /\ x = set_i_CrlNumber number i /\
    let iss := update_all (fun j => (i_ID j =? issuerID)%Z &&
      bool_decide (i_Skid j = ikid) && (i_CrlNumber j <? number)%Z)
      (set_i_CrlNumber number) (db_issuers s) in
    uniques_hold issuer_uniques iss /\ s' = tab_set issuers iss s.
Proof.
  unfold setIssuerCrlNumber, catch. intros E.
  destruct (exec issuers _ s) as [[y|e] s1] eqn:Ex.
  - apply ret_ok in E as [<- ->]. apply exec_ok in Ex as (rows & Ex & ->).
    apply update_row_ok in Ex as (i & Hi & Hw & -> & -> & Hu).
    rewrite !andb_true_iff, Z.eqb_eq, Z.ltb_lt, bool_decide_eq_true in Hw.
    exists i. naive_solver.
  - destruct (negb _); [done|]. apply bind_ok in E as (a & s2 & _ & E).
    by destruct (negb _).
Qed.

Lemma PublishCrl_wf m : preserves wf (PublishCrl m).
Proof.
  unfold PublishCrl. db_steps. apply preserves_transaction; [apply _|].
  intros s x s' Hs E. db_ok_step E.
  match goal with Hn : setIssuerCrlNumber _ _ _ _ = _ |- _ =>
    apply setIssuerCrlNumber_ok in Hn as (i & Hi & Hid & Hsk & Hlt & -> & Hu & ->)
  end.
  destruct Hs as [? Hiss ? ? ?]. constructor; try done. simpl in *.
  apply upsert_row_ok in E. rewrite <-Hid, <-Hsk in *.
  set (im := set_l_insert _ _ _ _) in *.
  assert (crl_of (set_i_CrlNumber (l_CrlNumber im) i) im) as Hof by done.
  assert (Crl_Validate im = Ok tt) as Hv by (by destruct a1).
  destruct E as [(Hnew & _ & -> & Hul)|(old & _ & _ & _ & _ & Hul & ->)].
  - by apply (issuers_publish _ _ i im _ Hiss Hi Hof Hv Hlt Hu Hul); left.
  - by apply (issuers_publish _ _ i im _ Hiss Hi Hof Hv Hlt Hu Hul); right.
Qed.

(** *** Revocation *)

(** The revocation row of a certificate. *)
Definition revocationRow (id now : Z) (req : RevokeCertificateRequest)
    (c : Certificate) : Revoked :=
  mkRevoked id (c_OrgID c) (c_ProjectID c) (c_ID c) (c_Ikid c)
    (c_SerialNumber c) (c_NotAfter c)
    (if IsZero (rq_RevokedAt req) then now else rq_RevokedAt req)
    (rq_Reason req) (rq_ReasonText req).

(** The certificate rows after the revocation of one. *)
Definition revokedRows (c : Certificate) (cs : list Certificate)
  : list Certificate :=
  update_all (fun d => (c_ID d =? c_ID c)%Z)
    (set_c_Status CertificateStatus_Revoked) cs.

Lemma RevokeCertificate_ok req s rc s' :
  RevokeCertificate req s = (Ok rc, s') ->
  exists c, c ∈ db_certificates s /\ c_ID c = rq_CertificateID req /\
    c_OrgID c = rq_OrgID req /\ c_Status c <> CertificateStatus_Revoked /\
    let r := revocationRow (flake (db_seq s)) (db_now s) req c in
    let cs := revokedRows c (db_certificates s) in
    Revoked_Validate r = Ok tt /\
    uniques_hold revoked_uniques (db_revoked s ++ [r]) /\
    uniques_hold certificate_uniques cs /\
    s' = tab_set certificates cs (tab_set revoked (db_revoked s ++ [r])
           (set_seq (S (db_seq s)) s)).
Proof.
  unfold RevokeCertificate. intros E. db_ok_step E.
  unfold getCertificateForUpdate in *. unfold registerRevoked in *.
  unfold updateCertificateStatus in *.
  repeat match goal with
  | Hx : check_not_found _ _ _ _ = (Ok _, _) |- _ => db_ok_step Hx
  | Hx : bind _ _ _ = (Ok _, _) |- _ => db_ok_step Hx
  end.
  match goal with Hx : select_row _ _ = Ok ?c |- _ =>
    apply select_row_ok in Hx as [Hc Hw]; exists c end.
  apply andb_true_iff in Hw as [Hid%Z.eqb_eq Horg%Z.eqb_eq].
  match goal with Hx : ensureID _ _ = _ |- _ =>
    apply ensureID_ok in Hx as [_ Hx]; destruct (Hx eq_refl) as [-> ->] end.
  match goal with Hx : insert_row _ _ _ = Ok _ |- _ =>
    apply insert_row_ok in Hx as (-> & -> & Hur) end.
  match goal with Hx : update_row _ _ _ _ = Ok _ |- _ =>
    apply update_row_ok in Hx as (d & Hd & Hdw & -> & -> & Huc) end.
  match goal with Hx : Revoked_Validate _ = Ok ?u |- _ => destruct u end.
  match goal with Hx : negb (bool_decide (c_Status _ = _)) = true |- _ =>
    apply negb_true_iff, bool_decide_eq_false in Hx end.
  by split_and!.
Qed.

Lemma RevokeCertificate_err req s e s' :
  RevokeCertificate req s = (Err e, s') -> exists n, s' = set_seq n s.
Proof.
  unfold RevokeCertificate. intros E.
  apply bind_guard_err in E as [->|E]; [by exists (db_seq s); destruct s|].
  apply bind_guard_err in E as [->|E]; [by exists (db_seq s); destruct s|].
  by apply transaction_err in E.
Qed.

Lemma RevokeCertificate_wf req : preserves wf (RevokeCertificate req).
Proof.
  intros s Hs. destruct (RevokeCertificate req s) as [[rc|e] s'] eqn:E; simpl.
  - apply RevokeCertificate_ok in E
      as (c & Hc & _ & _ & _ & Hv & Hur & Huc & ->).
    destruct Hs. constructor; try done. by apply certificates_revoke.
  - apply RevokeCertificate_err in E as [n ->]. by apply seq_stable.
Qed.

Lemma run_op_related op s : activation_fits s op -> wf s -> wf (run_op op s).
Proof.
  intros Ho Hs. destruct op; simpl;
    [ by apply CreateEvent_wf | by apply RegisterCertificate_wf
    | by apply UpdateCertificate_wf | by apply DeleteCertificate_wf
    | by apply ExpireCertificates_wf | by apply DeleteExpiredCertificates_wf
    | by apply RevokeCertificate_wf | by apply RegisterRoot_wf
    | by apply DeleteRoot_wf | by apply RegisterIssuer_wf
    | by apply UpdateIssuer_wf | by apply ActivateIssuer_wf
    | by apply DeleteIssuer_wf | by apply RegisterProfile_wf
    | by apply DeleteProfile_wf | by apply PublishCrl_wf
    | by apply DeleteCrl_wf | by destruct Hs | by destruct Hs ].
Qed.

Lemma emptyDb_related now : wf (emptyDb now).
Proof.
  assert (forall R (cs : list (unique R)), uniques_hold cs []) as Hu.
  { intros R cs. apply Forall_forall. intros u _. apply NoDup_nil_2. }
  split; [split|split|..]; simpl; try done; try (split; [done|]);
    intros ? ?%not_elem_of_nil; done.
Qed.
End related.

(** An activation keeps the key identifier of the CRLs, when it is allowed,
    and their tenancy in any case. *)
Lemma run_op_wf op s : op_allowed s op -> db_wf s -> db_wf (run_op op s).
Proof.
  intros Ho. apply run_op_related. destruct op; try done. simpl in *.
  intros i l now Hl Hid (Hil & ? & ? & ? & ?). repeat split; try done.
  apply Ho; [done|congruence].
Qed.

Lemma run_op_sound op s : db_sound s -> db_sound (run_op op s).
Proof. apply run_op_related. destruct op; try done. by intros i l now _ _ Hi. Qed.

Lemma emptyDb_wf now : db_wf (emptyDb now).
Proof. apply emptyDb_related. Qed.

Lemma reachable_wf s : reachable s -> db_wf s.
Proof.
  induction 1; [apply emptyDb_wf|by apply run_op_wf].
Qed.

Definition run_ops (ops : list db_op) (s : Db) : Db :=
  foldl (fun s op => run_op op s) s ops.

(** No issuer is activated that has a CRL already. *)
Fixpoint activated_before_crls (ops : list db_op) (s : Db) : Prop :=
  match ops with
  | [] => True
  | op :: ops =>
      match op with
      | OpActivateIssuer m => forall l, l ∈ db_crls s -> l_IssuerID l <> i_ID m
      | _ => True
      end /\ activated_before_crls ops (run_op op s)
  end.

Lemma run_ops_sound ops s : db_sound s -> db_sound (run_ops ops s).
Proof.
  revert s. induction ops as [|op ops IH]; intros s Hs; [done|]. by apply IH, run_op_sound.
Qed.

Lemma run_ops_wf ops s : activated_before_crls ops s -> db_wf s -> db_wf (run_ops ops s).
Proof.
  revert s. induction ops as [|op ops IH]; intros s; [done|]. intros [Ho Hops] Hs.
  apply IH; [done|]. apply run_op_wf; [|done]. destruct op; try done. simpl.
  intros l Hl E. by destruct (Ho l Hl).
Qed.

End preservation.
