(* ===== verification/CaDbSteps.v ===== *)
(** What each operation of the CA database may change: the change of every
    table is none, an insert, an update or a delete, of rows of the org the
    operation names, and the rows move forward in their lifecycle. *)
From stdpp Require Import base list sets strings pretty sorting.
From S2P Require Import Prelude GoStrings Xdb Tenancy Query Model Sql CaQuery CaDb CaDbFacts.

(** ** Changes of a table *)

Inductive table_change {R} (upd : R -> R -> Prop) (del ins : R -> Prop)
    (rows : list R) : list R -> Prop :=
| change_none : table_change upd del ins rows rows
| change_insert r : ins r -> table_change upd del ins rows (rows ++ [r])
| change_update where_ set_ :
    (forall r, r ∈ rows -> where_ r = true -> upd r (set_ r)) ->
    table_change upd del ins rows (update_all where_ set_ rows)
| change_delete f :
    (forall r, r ∈ rows -> f r = false -> del r) ->
    table_change upd del ins rows (List.filter f rows).

(** The rows of an org no change touches are the same. *)
Lemma change_other_org {R} (org : R -> Z) o o' upd del ins rows rows' :
  table_change upd del ins rows rows' -> o' <> o ->
  (forall r r', upd r r' -> org r = o /\ org r' = o) ->
  (forall r, del r -> org r = o) -> (forall r, ins r -> org r = o) ->
  List.filter (fun r => (org r =? o')%Z) rows' =
  List.filter (fun r => (org r =? o')%Z) rows.
Proof.
  intros Hch Hne Hu Hd Hi. destruct Hch as [|r Hr|where_ set_ Hset|f Hf].
  - done.
  - rewrite List.filter_app. simpl. rewrite (Hi r Hr), (proj2 (Z.eqb_neq o o')),
      app_nil_r by done. done.
  - revert Hset. induction rows as [|r rows IH]; [done|]. intros Hset.
    change (update_all where_ set_ (r :: rows)) with
      ((if where_ r then set_ r else r) :: update_all where_ set_ rows).
    cbn [List.filter]. rewrite IH by set_solver.
    destruct (where_ r) eqn:Ew; [|done].
    destruct (Hu r (set_ r)) as [-> ->]; [apply Hset; [set_solver|done]|].
    by rewrite (proj2 (Z.eqb_neq o o')).
  - induction rows as [|r rows IH]; [done|]. cbn [List.filter].
    destruct (f r) eqn:Ef; cbn [List.filter]; rewrite IH by set_solver; [done|].
    rewrite (Hd r), (proj2 (Z.eqb_neq o o')) by set_solver. done.
Qed.

(** A row before and a row after with the same ID are related. *)
Lemma change_same_id {R} (rid : R -> Z) upd del ins rows rows' r r' :
  table_change upd del ins rows rows' ->
  NoDup (rid <$> rows) -> NoDup (rid <$> rows') ->
  (forall x y, upd x y -> rid y = rid x) ->
  r ∈ rows -> r' ∈ rows' -> rid r' = rid r -> r' = r \/ upd r r'.
Proof.
  intros Hch Hn Hn' Hk Hr Hr' Hid. destruct Hch as [|x Hx|where_ set_ Hset|f Hf].
  - left. by apply (NoDup_key_inj rid rows).
  - left. apply (NoDup_key_inj rid (rows ++ [x])); [done..| |done]. set_solver.
  - apply update_all_elem in Hr' as (x & Hx & ->).
    destruct (where_ x) eqn:Ew.
    + assert (x = r) as ->; [|right; auto].
      apply (NoDup_key_inj rid rows); [done..|].
      by rewrite <-Hid, (Hk x (set_ x)) by auto.
    + left. by apply (NoDup_key_inj rid rows).
  - left. apply filter_elem in Hr' as [Hr' _].
    by apply (NoDup_key_inj rid rows).
Qed.

(** ** Lifecycles *)

(** An Active certificate expires, and any certificate is revoked once;
    nothing leaves Revoked, and Expired only for Revoked. *)
Definition status_next (st st' : CertificateStatus_Enum) : Prop :=
  st' = st \/
  (st = CertificateStatus_Active /\ st' = CertificateStatus_Expired) \/
  (st <> CertificateStatus_Revoked /\ st' = CertificateStatus_Revoked).

(** Only the client columns and the status of a certificate change. *)
Definition certificate_evolves (c c' : Certificate) : Prop :=
  c' = set_c_client (Some (c_Label c')) (Some (c_Metadata c'))
         (Some (c_Locations c')) (set_c_Status (c_Status c') c) /\
  status_next (c_Status c) (c_Status c').

(** The certificate columns of an issuer. *)
Definition issuer_certificate (i : Issuer) :=
  (i_Skid i, i_Ikid i, i_SerialNumber i, i_Subject i, i_Issuer i, i_Sha256 i,
   (i_NotBefore i, i_NotAfter i, i_Pem i, i_ChainPem i, i_RootPem i)).

(** The identity and the key of an issuer never change, its key material is
    at most erased, its CRL number only grows, and its certificate is set
    once, when a Pending issuer becomes Active. *)
Definition issuer_evolves (i i' : Issuer) : Prop :=
  i_ID i' = i_ID i /\ i_OrgID i' = i_OrgID i /\
  i_ProjectID i' = i_ProjectID i /\ i_Label i' = i_Label i /\
  i_Type i' = i_Type i /\ i_ParentID i' = i_ParentID i /\
  i_KeyProvider i' = i_KeyProvider i /\ i_KeyID i' = i_KeyID i /\
  i_CreatedAt i' = i_CreatedAt i /\
  (i_KeyProtected i' = i_KeyProtected i \/
   (i_Status i' = IssuerStatus_Destroyed /\ i_KeyProtected i' = "")) /\
  (i_CrlNumber i <= i_CrlNumber i')%Z /\
  (issuer_certificate i' = issuer_certificate i \/
   (i_Status i = IssuerStatus_Pending /\ i_Status i' = IssuerStatus_Active)).

(** The org an operation names; the tasks name none. *)
Definition op_org (op : db_op) : option Z :=
  match op with
  | OpRegisterCertificate m _ => Some (c_OrgID m)
  | OpUpdateCertificate req => Some (uc_OrgID req)
  | OpDeleteCertificate orgID _ | OpDeleteRoot orgID _
  | OpDeleteIssuer orgID _ | OpDeleteProfile orgID _ | OpDeleteCrl orgID _ =>
      Some orgID
  | OpRevokeCertificate req => Some (rq_OrgID req)
  | OpRegisterRoot m => Some (t_OrgID m)
  | OpRegisterIssuer m _ => Some (i_OrgID m)
  | OpUpdateIssuer req => Some (ui_OrgID req)
  | OpActivateIssuer m => Some (i_OrgID m)
  | OpRegisterProfile m => Some (p_OrgID m)
  | OpCreateEvent _ | OpExpireCertificates _ | OpDeleteExpiredCertificates _
  | OpPublishCrl _ | OpTick _ | OpTenants _ _ => None
  end.

Definition touches (op : db_op) (orgID : Z) : Prop :=
  match op_org op with Some o => orgID = o | None => True end.

Definition certificate_change (op : db_op) : list Certificate -> list Certificate -> Prop :=
  table_change
    (fun c c' => certificate_evolves c c' /\ touches op (c_OrgID c))
    (fun c => touches op (c_OrgID c)) (fun c => touches op (c_OrgID c)).
Definition issuer_change (op : db_op) : list Issuer -> list Issuer -> Prop :=
  table_change
    (fun i i' => issuer_evolves i i' /\ touches op (i_OrgID i))
    (fun i => touches op (i_OrgID i)) (fun i => touches op (i_OrgID i)).
Definition root_change (op : db_op) : list RootCertificate -> list RootCertificate -> Prop :=
  table_change
    (fun t t' => t' = set_t_Trust (t_Trust t') t /\ touches op (t_OrgID t))
    (fun t => touches op (t_OrgID t)) (fun t => touches op (t_OrgID t)).
Definition profile_change (op : db_op)
  : list CertificateProfile -> list CertificateProfile -> Prop :=
  table_change
    (fun p p' => (p_ID p' = p_ID p /\ p_OrgID p' = p_OrgID p) /\
                 touches op (p_OrgID p))
    (fun p => touches op (p_OrgID p)) (fun p => touches op (p_OrgID p)).


(** The four tables of tenant rows before and after an operation. *)
Record changes (op : db_op) (s s' : Db) : Prop := mkChanges {
  ch_roots : root_change op (db_roots s) (db_roots s');
  ch_issuers : issuer_change op (db_issuers s) (db_issuers s');
  ch_profiles : profile_change op (db_profiles s) (db_profiles s');
  ch_certificates :
    certificate_change op (db_certificates s) (db_certificates s') }.

Definition same_rows (s s' : Db) : Prop :=
  db_roots s' = db_roots s /\ db_issuers s' = db_issuers s /\
  db_profiles s' = db_profiles s /\ db_certificates s' = db_certificates s.

#[global] Instance same_rows_seq s : SeqStable (same_rows s).
Proof. by intros n s'. Qed.
#[global] Instance changes_seq op s : SeqStable (changes op s).
Proof. by intros n s' []. Qed.

Lemma same_changes op s s' : same_rows s s' -> changes op s s'.
Proof. intros (E1 & E2 & E3 & E4). constructor; rewrite ?E1, ?E2, ?E3, ?E4; constructor. Qed.

Section after.
Context `{Xdb, Codec, IdGen}.

Lemma hoare_check {A} (I Q : Db -> Prop) table key (m : M Db A) :
  hoare I m Q -> hoare I (check_not_found table key m) Q.
Proof. intros Hm. apply hoare_catch_after; [done|]. intros r. preserves_steps. Qed.
Lemma hoare_message {A} (I Q : Db -> Prop) msg (m : M Db A) :
  hoare I m Q -> hoare I (with_message msg m) Q.
Proof. intros Hm. apply hoare_catch_after; [done|]. intros r. preserves_steps. Qed.

(** A statement on a table that is not one of the four. *)
Lemma CreateEvent_same s m : preserves (same_rows s) (CreateEvent m).
Proof.
  unfold CreateEvent. db_steps. apply preserves_exec. by intros s' e rows ? _.
Qed.
Lemma CreateEvent_changes op s m : preserves (changes op s) (CreateEvent m).
Proof.
  unfold CreateEvent. db_steps. apply preserves_exec. by intros s' e rows [] _.
Qed.
End after.

(** Reaches the statement that changes a table. *)
Ltac before := apply hoare_bind_before;
  [db_steps|by intros; apply same_changes|intros ?].
Ltac change_step :=
  lazymatch goal with
  | |- hoare _ (bind _ _) _ => before
  | |- hoare _ (check_not_found _ _ _) _ => apply hoare_check
  | |- hoare _ (with_message _ _) _ => apply hoare_message
  | |- hoare _ (transaction _) _ =>
      apply hoare_transaction; [apply _|by intros; apply same_changes|]
  | |- hoare _ (fail _) _ => by intros ? ?; apply same_changes
  | |- hoare _ (match ?x with _ => _ end) _ => destruct x
  end.
(** The statement itself: its table changes, the others are the same. *)
Ltac change_exec s' Hs E :=
  apply hoare_exec; [by intros; apply same_changes|];
  intros s' ? ? Hs E; destruct Hs as (Er & Ei & Ep & Ec);
  constructor; simpl in *;
  repeat match goal with
  | Hx : ?x = ?y |- root_change _ ?y ?x => rewrite Hx; apply change_none
  | Hx : ?x = ?y |- issuer_change _ ?y ?x => rewrite Hx; apply change_none
  | Hx : ?x = ?y |- profile_change _ ?y ?x => rewrite Hx; apply change_none
  | Hx : ?x = ?y |- certificate_change _ ?y ?x => rewrite Hx; apply change_none
  end.

Section ops.
Context `{Xdb, Codec, IdGen}.

Lemma status_next_refl st : status_next st st.
Proof. by left. Qed.

Lemma registerCertificate_changes evt m s im :
  c_OrgID im = c_OrgID m ->
  hoare (same_rows s) (registerCertificate im)
    (changes (OpRegisterCertificate m evt) s).
Proof.
  intros Horg. unfold registerCertificate. before. change_exec s' Hs E.
  apply insert_row_ok in E as (-> & -> & _). rewrite Ec. by apply change_insert.
Qed.

Lemma RegisterCertificate_changes m evt s :
  hoare (same_rows s) (RegisterCertificate m evt)
    (changes (OpRegisterCertificate m evt) s).
Proof.
  unfold RegisterCertificate. before. apply hoare_bind_lift; [by intros; apply same_changes|].
  intros im Him.
  assert (c_OrgID im = c_OrgID m) as Horg.
  { simpl in Him. destruct (c_Status m); by simplify_eq/=. }
  before. destruct evt as [evt|]; [|by apply registerCertificate_changes].
  before. change_step. apply hoare_bind_after.
  - by apply registerCertificate_changes.
  - intros res. db_steps. apply CreateEvent_changes.
Qed.

Lemma UpdateCertificate_changes req s :
  hoare (same_rows s) (UpdateCertificate req) (changes (OpUpdateCertificate req) s).
Proof.
  unfold UpdateCertificate. repeat change_step. change_exec s' Hs E.
  apply update_row_ok in E as (c & _ & _ & _ & -> & _). rewrite Ec.
  apply change_update. intros d _ [_ Ho%Z.eqb_eq]%andb_true_iff.
  split; [|done]. split; [by destruct d|apply status_next_refl].
Qed.

Lemma DeleteCertificate_changes orgID id s :
  hoare (same_rows s) (DeleteCertificate orgID id)
    (changes (OpDeleteCertificate orgID id) s).
Proof.
  intros s' (Er & Ei & Ep & Ec). constructor; simpl;
    rewrite ?Er, ?Ei, ?Ep, ?Ec; try apply change_none.
  apply change_delete. intros c _ Hf%negb_false_iff.
  by apply andb_true_iff in Hf as [Ho%Z.eqb_eq _].
Qed.

Lemma ExpireCertificates_changes req s :
  hoare (same_rows s) (ExpireCertificates req) (changes (OpExpireCertificates req) s).
Proof.
  unfold ExpireCertificates. repeat change_step. change_exec s' Hs E.
  unfold result_bind in E. destruct (checked _ _) eqn:Ek; [|done].
  apply checked_ok in Ek as [-> _]. injection E as <- <-. rewrite Ec.
  apply change_update. intros c _ [Ha%bool_decide_eq_true _]%andb_true_iff.
  split; [|done]. split; [by destruct c|]. rewrite Ha. by right; left.
Qed.

Lemma DeleteExpiredCertificates_changes req s :
  hoare (same_rows s) (DeleteExpiredCertificates req)
    (changes (OpDeleteExpiredCertificates req) s).
Proof.
  unfold DeleteExpiredCertificates. before. intros s' (Er & Ei & Ep & Ec).
  constructor; simpl; rewrite ?Er, ?Ei, ?Ep, ?Ec; try apply change_none.
  by apply change_delete.
Qed.

Lemma RevokeCertificate_changes req s :
  changes (OpRevokeCertificate req) s (RevokeCertificate req s).2.
Proof.
  destruct (RevokeCertificate req s) as [[rc|e] s'] eqn:E; simpl.
  - apply RevokeCertificate_ok in E as (c & Hc & Hid & Ho & Hst & _ & _ & Hu & ->).
    constructor; try apply change_none. apply change_update.
    intros d Hd Hw%Z.eqb_eq.
    assert (d = c) as ->.
    { apply (NoDup_key_inj c_ID (db_certificates s)); try done.
      rewrite <-(update_all_key c_ID (fun d => (c_ID d =? c_ID c)%Z)
        (set_c_Status CertificateStatus_Revoked)) by done.
      by apply Forall_inv in Hu. }
    split; [|done]. split; [by destruct c|]. by right; right.
  - apply RevokeCertificate_err in E as [n ->]. by apply seq_stable, same_changes.
Qed.

(** The row a conflicting insert updates is the only one of its key. *)
Lemma upsert_old {R K} (key : R -> K) where_ set_ (rows : list R) old r :
  NoDup (key <$> update_all where_ set_ rows) ->
  (forall x, key (set_ x) = key x) -> old ∈ rows -> r ∈ rows ->
  key r = key old -> r = old.
Proof.
  intros Hn Hk Ho Hr E. rewrite (update_all_key key) in Hn by auto.
  by apply (NoDup_key_inj key rows).
Qed.

Definition roots_same (op : db_op) (s s' : Db) : Prop :=
  db_roots s' = db_roots s /\ changes op s s'.
#[local] Instance roots_same_seq op s : SeqStable (roots_same op s).
Proof. intros n s' [? ?]. split; [done|by apply seq_stable]. Qed.

Lemma RegisterRoot_changes op m s :
  touches op (t_OrgID m) ->
  hoare (roots_same op s) (RegisterRoot m) (changes op s).
Proof.
  intros Hop. assert (forall s', roots_same op s s' -> changes op s s') as HQ.
  { by intros s' [_ ?]. }
  unfold RegisterRoot. do 3 (apply hoare_bind_before; [db_steps|done|intros ?]).
  apply hoare_catch_after; [|intros r; preserves_steps].
  apply hoare_exec; [done|]. intros s' x rows [Er [? ? ? ?]] E.
  constructor; try done. simpl in *. apply upsert_row_ok in E. rewrite Er in *.
  destruct E as [(_ & -> & -> & _)|(old & Hin & Hko & Hold & -> & Hu & ->)].
  - by apply change_insert.
  - apply change_update. intros t Ht Hk%bool_decide_eq_true.
    assert (t = old) as ->.
    { assert (root_sha256 ∈ root_uniques) as Hroot by set_solver.
      apply (upsert_old t_Sha256 _ _ _ old t (uniques_elem _ _ root_sha256 Hu Hroot));
        try done. etrans; [exact Hk|symmetry; exact Hko]. }
    apply Z.eqb_eq in Hold. split; [by destruct old|]. by rewrite Hold.
Qed.

Lemma RegisterRoot_op_changes m s :
  changes (OpRegisterRoot m) s (RegisterRoot m s).2.
Proof.
  apply RegisterRoot_changes; [done|]. split; [done|]. by apply same_changes.
Qed.

Lemma registerIssuer_changes op im s :
  touches op (i_OrgID im) ->
  hoare (same_rows s) (registerIssuer im) (roots_same op s).
Proof.
  intros Hop. assert (forall s', same_rows s s' -> roots_same op s s') as HQ.
  { intros s' Hs. split; [by destruct Hs|by apply same_changes]. }
  unfold registerIssuer. apply hoare_bind_before; [db_steps|done|intros ?].
  apply hoare_exec; [done|]. intros s' x rows (Er & Ei & Ep & Ec) E.
  split; [done|]. apply insert_row_ok in E as (-> & -> & _). simpl.
  constructor; simpl; rewrite ?Er, ?Ei, ?Ep, ?Ec; try apply change_none.
  by apply change_insert.
Qed.

Lemma RegisterIssuer_changes m anchor s :
  hoare (same_rows s) (RegisterIssuer m anchor) (changes (OpRegisterIssuer m anchor) s).
Proof.
  unfold RegisterIssuer. do 2 before.
  assert (forall s', roots_same (OpRegisterIssuer m anchor) s s' ->
    changes (OpRegisterIssuer m anchor) s s') as HQ by (by intros s' [_ ?]).
  case_match; destruct anchor as [t|].
  - apply hoare_bind_lift; [by intros; apply same_changes|]. intros [] Ha.
    change_step.
    assert (t_OrgID t = i_OrgID m) as Ht.
    { unfold checkAnchor in Ha. case_match; [|done]. case_match eqn:Eb; [|done].
      rewrite !andb_true_iff, !Z.eqb_eq in Eb. simpl in Eb. tauto. }
    intros s' Hs. unfold bind at 1.
    pose proof (registerIssuer_changes (OpRegisterIssuer m (Some t))
      (set_i_ID a m) s eq_refl s' Hs) as Hr.
    destruct (registerIssuer _ s') as [[i|e] s1]; [|by apply HQ].
    revert s1 Hr. change (hoare (roots_same (OpRegisterIssuer m (Some t)) s)
      (with_message "unable to register root" (RegisterRoot t) ;;; ret i)
      (changes (OpRegisterIssuer m (Some t)) s)).
    apply hoare_bind_after; [|intros ?; preserves_steps].
    by apply hoare_message, RegisterRoot_changes.
  - change_step.
  - change_step.
  - intros s' Hs. apply HQ. by apply registerIssuer_changes.
Qed.

Lemma UpdateIssuer_changes req s :
  hoare (same_rows s) (UpdateIssuer req) (changes (OpUpdateIssuer req) s).
Proof.
  unfold UpdateIssuer. repeat change_step. change_exec s' Hs E.
  apply update_row_ok in E as (i & _ & _ & _ & -> & _). rewrite Ei.
  apply change_update. intros j _ [_ Ho%Z.eqb_eq]%andb_true_iff.
  split; [|done]. unfold UpdateIssuer_set. repeat split; simpl; try done; [|by left].
  destruct (bool_decide_reflect (ui_Status req = IssuerStatus_Destroyed)) as [->|];
    [right; by split|by left].
Qed.

Lemma ActivateIssuer_changes m s :
  hoare (same_rows s) (ActivateIssuer m) (changes (OpActivateIssuer m) s).
Proof.
  unfold ActivateIssuer. repeat change_step. change_exec s' Hs E.
  apply update_row_ok in E as (i & _ & _ & _ & -> & _). rewrite Ei.
  apply change_update. intros j _ [[_ Hp%bool_decide_eq_true]%andb_true_iff
    Ho%Z.eqb_eq]%andb_true_iff.
  split; [|done]. repeat split; simpl; try done; [by left|by right].
Qed.

Lemma DeleteIssuer_changes orgID id s :
  hoare (same_rows s) (DeleteIssuer orgID id) (changes (OpDeleteIssuer orgID id) s).
Proof.
  intros s' (Er & Ei & Ep & Ec). constructor; simpl;
    rewrite ?Er, ?Ei, ?Ep, ?Ec; try apply change_none.
  apply change_delete. intros c _ Hf%negb_false_iff.
  by apply andb_true_iff in Hf as [Ho%Z.eqb_eq _].
Qed.

Lemma DeleteRoot_changes orgID id s :
  hoare (same_rows s) (DeleteRoot orgID id) (changes (OpDeleteRoot orgID id) s).
Proof.
  intros s' (Er & Ei & Ep & Ec). constructor; simpl;
    rewrite ?Er, ?Ei, ?Ep, ?Ec; try apply change_none.
  apply change_delete. intros c _ Hf%negb_false_iff.
  by apply andb_true_iff in Hf as [Ho%Z.eqb_eq _].
Qed.

Lemma DeleteProfile_changes orgID id s :
  hoare (same_rows s) (DeleteProfile orgID id) (changes (OpDeleteProfile orgID id) s).
Proof.
  intros s' (Er & Ei & Ep & Ec). constructor; simpl;
    rewrite ?Er, ?Ei, ?Ep, ?Ec; try apply change_none.
  apply change_delete. intros c _ Hf%negb_false_iff.
  by apply andb_true_iff in Hf as [Ho%Z.eqb_eq _].
Qed.

Lemma RegisterProfile_changes m s :
  hoare (same_rows s) (RegisterProfile m) (changes (OpRegisterProfile m) s).
Proof.
  unfold RegisterProfile. repeat change_step. change_exec s' Hs E.
  apply upsert_row_ok in E. rewrite Ep in *.
  destruct E as [(_ & -> & -> & _)|(old & Hin & Hko & _ & -> & Hu & ->)].
  - by apply change_insert.
  - apply change_update. intros p Hp Hk%bool_decide_eq_true.
    unfold profile_label in Hk. simpl in Hk.
    apply pair_equal_spec in Hk as [[Ho _]%pair_equal_spec _]. by split.
Qed.

Lemma DeleteCrl_changes orgID ikid s :
  changes (OpDeleteCrl orgID ikid) s (DeleteCrl orgID ikid s).2.
Proof. by apply same_changes. Qed.

Lemma PublishCrl_changes m s :
  hoare (same_rows s) (PublishCrl m) (changes (OpPublishCrl m) s).
Proof.
  unfold PublishCrl. do 3 before. change_step. apply hoare_bind_after.
  - intros s' Hs. destruct (setIssuerCrlNumber _ _ _ s') as [[i|e] s1] eqn:E; simpl.
    + apply setIssuerCrlNumber_ok in E as (i0 & Hi & _ & _ & _ & _ & Hu & ->).
      destruct Hs as (Er & Ei & Ep & Ec). constructor; simpl;
        rewrite ?Er, ?Ei, ?Ep, ?Ec; try apply change_none.
      apply change_update. intros j _ [_ Hlt%Z.ltb_lt]%andb_true_iff.
      split; [|done]. repeat split; simpl; try done; [by left|lia|by left].
    + assert (s1 = s') as ->; [|by apply same_changes].
      unfold setIssuerCrlNumber, GetIssuer, GetRowByID, check_not_found, select,
        exec in E. go_case.
  - intros i. db_steps. apply preserves_exec. by intros ? ? ? [] _.
Qed.

Lemma run_op_changes op s : changes op s (run_op op s).
Proof.
  assert (same_rows s s) as Hs by done. destruct op; simpl;
    first [ by apply RegisterCertificate_changes | by apply UpdateCertificate_changes
    | by apply DeleteCertificate_changes | by apply ExpireCertificates_changes
    | by apply DeleteExpiredCertificates_changes
    | by apply RevokeCertificate_changes | by apply RegisterRoot_op_changes
    | by apply DeleteRoot_changes | by apply RegisterIssuer_changes
    | by apply UpdateIssuer_changes | by apply ActivateIssuer_changes
    | by apply DeleteIssuer_changes | by apply RegisterProfile_changes
    | by apply DeleteProfile_changes | by apply PublishCrl_changes
    | by apply DeleteCrl_changes | by apply CreateEvent_changes, same_changes
    | by apply same_changes ].
Qed.

(** C20: rows only move forward. Whatever operation runs, a certificate that
    is still there has the same certificate data and tenancy, only its client
    columns change, and its status changes only from Active to Expired or to
    Revoked, never back; an issuer keeps its identity and key, its key
    material is at most erased on Destroyed, its CRL number never decreases,
    and its certificate is set only when a Pending issuer is activated. *)
Theorem rows_move_forward (s : Db) (op : db_op) (Hr : reachable s)
    (Ho : op_allowed s op) :
  (forall c c', c ∈ db_certificates s -> c' ∈ db_certificates (run_op op s) ->
     c_ID c' = c_ID c -> certificate_evolves c c') /\
  (forall i i', i ∈ db_issuers s -> i' ∈ db_issuers (run_op op s) ->
     i_ID i' = i_ID i -> issuer_evolves i i').
Proof.
  destruct (reachable_wf s Hr) as [Hc Hi _ _ _].
  destruct (run_op_wf op s Ho (reachable_wf s Hr)) as [Hc' Hi' _ _ _].
  destruct (run_op_changes op s) as [_ Chi _ Chc]. split.
  - intros c c' Hin Hin' Hid.
    destruct (change_same_id c_ID _ _ _ _ _ c c' Chc) as [->|[? _]]; try done.
    + by destruct Hc as [?%Forall_inv _ _ _ _ _].
    + by destruct Hc' as [?%Forall_inv _ _ _ _ _].
    + intros x y [[-> _] _]. by destruct x.
    + split; [by destruct c|by left].
  - intros i i' Hin Hin' Hid.
    destruct (change_same_id i_ID _ _ _ _ _ i i' Chi) as [->|[? _]]; try done.
    + by destruct Hi as [?%Forall_inv _ _ _].
    + by destruct Hi' as [?%Forall_inv _ _ _].
    + by intros x y [(-> & _) _].
    + repeat split; try done; [by left|by left].
Qed.

(** The rows of the other orgs are the same. *)
Definition others_same (o' : Z) (s s' : Db) : Prop :=
  let same {R} (org : R -> Z) (rows : Db -> list R) :=
    List.filter (fun r => (org r =? o')%Z) (rows s') =
    List.filter (fun r => (org r =? o')%Z) (rows s) in
  same c_OrgID db_certificates /\ same i_OrgID db_issuers /\
  same t_OrgID db_roots /\ same p_OrgID db_profiles.

Lemma mutation_other_org s op o o' :
  op_org op = Some o -> o' <> o -> others_same o' s (run_op op s).
Proof.
  intros Hop Hne.
  assert (forall x, touches op x -> x = o) as Ht.
  { unfold touches. by rewrite Hop. }
  destruct (run_op_changes op s) as [Cr Ci Cp Cc]. split_and!;
    (eapply change_other_org; [eassumption|exact Hne|..]; simpl; auto).
  - intros c c' [[-> _] ?%Ht]. by destruct c.
  - intros i i' [(_ & -> & _) ?%Ht]. done.
  - intros r r' [-> ?%Ht]. by destruct r.
  - intros p p' [[_ ->] ?%Ht]. done.
Qed.

(** A mutation changes rows of the org it names only: the certificates,
    issuers, trust anchors and profiles of every other org, and of the
    platform when it names an org, are exactly the same afterwards. *)
Theorem mutations_stay_in_org (s : Db) (op : db_op) (o o' : Z)
    (Hop : op_org op = Some o) (Hne : o' <> o) :
  let same {R} (org : R -> Z) (rows : Db -> list R) :=
    List.filter (fun r => (org r =? o')%Z) (rows (run_op op s)) =
    List.filter (fun r => (org r =? o')%Z) (rows s) in
  same c_OrgID db_certificates /\ same i_OrgID db_issuers /\
  same t_OrgID db_roots /\ same p_OrgID db_profiles.
Proof. by apply (mutation_other_org s op o). Qed.
End ops.
