(* ===== verification/CaDbClaims.v ===== *)
(** What the operations of the CA database guarantee: the database stays
    well formed, revocation is atomic and permanent, rows only move forward
    in their lifecycle, a mutation changes rows of the named org only, and
    CRL numbers only grow. *)
From stdpp Require Import base list sets strings pretty sorting.
From S2P Require Import Prelude GoStrings Xdb Tenancy Query Model Sql CaQuery CaDb CaDbFacts CaDbSteps.

Section claims.
Context `{XL : XdbLaws, CO : Codec, IG : IdGen}.

(** ** Revocation *)

(** The keys of the revocation of a certificate that has none are new. *)
Lemma revocation_keys_new cs rs c id now req :
  certificates_wf cs rs -> c ∈ cs ->
  c_Status c <> CertificateStatus_Revoked ->
  id ∉ (r_ID <$> rs) ->
  uniques_hold revoked_uniques (rs ++ [revocationRow id now req c]).
Proof.
  intros [Hu Hr Hv Hrv Hrev Hst] Hc Hn Hid. apply insert_hold; [done|].
  repeat constructor; simpl; [done|..].
  - rewrite list_elem_of_fmap. intros (r & Hk & Hin).
    destruct (Hrev r Hin) as (d & Hd & [Hof _] & Hs).
    rewrite (certificate_id_inj cs c d) in Hn by congruence. done.
  - rewrite list_elem_of_fmap. intros (r & [= Hk1 Hk2] & Hin).
    destruct (Hrev r Hin) as (d & Hd & (_ & _ & _ & Hi & Hser & _) & Hs).
    assert (c = d) as ->; [|done].
    apply (NoDup_key_inj (fun c => (c_Ikid c, c_SerialNumber c)) cs); try done.
    + apply (uniques_elem _ _ (Unique "unique_certificate_ikid_serial" _ _
        (fun c => (c_Ikid c, c_SerialNumber c))) Hu). set_solver.
    + simpl. congruence.
Qed.

Lemma revokedRows_unique cs c :
  uniques_hold certificate_uniques cs ->
  uniques_hold certificate_uniques (revokedRows c cs).
Proof. intros Hu. apply update_all_hold; [done|]. by repeat constructor. Qed.

Lemma getCertificateForUpdate_run s c :
  uniques_hold certificate_uniques (db_certificates s) ->
  c ∈ db_certificates s ->
  getCertificateForUpdate (c_ID c) (c_OrgID c) s = (Ok c, s).
Proof.
  intros Hu Hc. unfold getCertificateForUpdate, check_not_found, catch, select.
  simpl. rewrite (select_row_unique _ _ c); [done|done| |].
  - unfold whereOrgIs. by rewrite !Z.eqb_refl.
  - intros d Hd [Hid%Z.eqb_eq _]%andb_true_iff.
    by apply (certificate_id_inj (db_certificates s)).
Qed.

Lemma registerRevoked_run s c req revokedAt :
  let r := mkRevoked (flake (db_seq s)) (c_OrgID c) (c_ProjectID c) (c_ID c)
    (c_Ikid c) (c_SerialNumber c) (c_NotAfter c) revokedAt (rq_Reason req)
    (rq_ReasonText req) in
  c ∈ db_certificates s -> Revoked_Validate r = Ok tt ->
  uniques_hold revoked_uniques (db_revoked s ++ [r]) ->
  registerRevoked (mkRevoked 0 (c_OrgID c) (c_ProjectID c) (c_ID c) (c_Ikid c)
      (c_SerialNumber c) (c_NotAfter c) revokedAt (rq_Reason req)
      (rq_ReasonText req)) s =
  (Ok r, tab_set revoked (db_revoked s ++ [r]) (set_seq (S (db_seq s)) s)).
Proof.
  intros r Hc Hv Hu. unfold registerRevoked. simpl.
  unfold bind at 1, ensureID, NextID. simpl.
  unfold bind, lift_result. fold r. rewrite Hv. unfold get, foreign_key.
  rewrite guard_true.
  - unfold exec. simpl. by rewrite insert_row_hold.
  - apply bool_decide_eq_true. simpl. by apply list_elem_of_fmap_2.
Qed.

Lemma updateCertificateStatus_run s c st :
  uniques_hold certificate_uniques (db_certificates s) ->
  c ∈ db_certificates s ->
  let cs := update_all (fun d => (c_ID d =? c_ID c)%Z) (set_c_Status st)
              (db_certificates s) in
  updateCertificateStatus (c_ID c) st s =
  (Ok (set_c_Status st c), tab_set certificates cs s).
Proof.
  intros Hu Hc cs. unfold updateCertificateStatus, check_not_found, catch, exec.
  simpl. rewrite (update_row_hold _ _ _ _ c); [done| |].
  - apply select_row_unique; [done|by apply Z.eqb_refl|].
    intros d Hd Hid%Z.eqb_eq. by apply (certificate_id_inj (db_certificates s)).
  - apply update_all_hold; [done|]. by repeat constructor.
Qed.

Lemma revocationRow_valid id now req c :
  Certificate_Validate c = Ok tt -> c_ID c <> 0%Z -> now <> 0%Z ->
  (String.length (rq_ReasonText req) <= MaxLenForName)%nat ->
  Revoked_Validate (revocationRow id now req c) = Ok tt.
Proof.
  intros Hv Hid Hnow Hlen. unfold Certificate_Validate in Hv.
  unfold Revoked_Validate, revocationRow. simpl. go_unfold.
  rewrite (proj2 (validateLength_ok "reason text" _ _ _)) by (by split).
  unfold IsZero in *. rewrite (proj2 (Z.eqb_neq (c_ID c) 0)) by done.
  destruct (validateTenancy _ _); [|done].
  destruct (validateLength "skid" _ _ _); [|done].
  destruct (validateLength "ikid" _ _ _); [|done].
  destruct (validateLength "serial number" _ _ _); [|done].
  assert (c_NotAfter c <> 0%Z) as Hna.
  { repeat case_match; try done. simplify_eq.
    match goal with Hp : negb (validPeriod _ _) = false |- _ =>
      apply negb_false_iff, validPeriod_spec in Hp; tauto end. }
  rewrite (proj2 (Z.eqb_neq (c_NotAfter c) 0)) by done.
  destruct (Z.eqb_spec (rq_RevokedAt req) 0);
    by rewrite (proj2 (Z.eqb_neq _ 0)).
Qed.

(** The database after the revocation [r] of the certificate [c]. *)
Definition afterRevocation (c : Certificate) (r : Revoked) (s : Db) : Db :=
  tab_set certificates (revokedRows c (db_certificates s))
    (tab_set revoked (db_revoked s ++ [r]) (set_seq (S (db_seq s)) s)).

Lemma set_seq_id s : set_seq (db_seq s) s = s.
Proof. by destruct s. Qed.

(** C19: revocation is atomic and final. On a well-formed database a request
    for a certificate of the exact org that is not revoked stores one
    revocation with the copied columns and sets the status, in one step; a
    second request fails with ErrAlreadyRevoked, and a request for another
    org's or an unknown certificate is not found; both change nothing. *)
Theorem revoke_atomic_and_final (req : RevokeCertificateRequest) (s : Db)
    (Hwf : db_wf s) (Hid : flake (db_seq s) ∉ (r_ID <$> db_revoked s))
    (Hnow : db_now s <> 0%Z) (Hreq : rq_CertificateID req <> 0%Z)
    (Hlen : (String.length (rq_ReasonText req) <= MaxLenForName)%nat) :
  (forall c, c ∈ db_certificates s -> c_ID c = rq_CertificateID req ->
     c_OrgID c = rq_OrgID req ->
     if bool_decide (c_Status c = CertificateStatus_Revoked)
     then RevokeCertificate req s = (Err ErrAlreadyRevoked, s)
     else
       let r := revocationRow (flake (db_seq s)) (db_now s) req c in
       RevokeCertificate req s =
         (Ok (mkRevokedCertificate r (set_c_Status CertificateStatus_Revoked c)),
          afterRevocation c r s)) /\
  ((forall c, c ∈ db_certificates s ->
      ~ (c_ID c = rq_CertificateID req /\ c_OrgID c = rq_OrgID req)) ->
   exists e, RevokeCertificate req s = (Err e, s) /\ IsNotFoundError e = true).
Proof.
  destruct Hwf as [Hcw _ _ _ _]. pose proof (wf_certificate_unique _ _ Hcw) as Hu.
  unfold RevokeCertificate.
  erewrite bind_run by (apply guard_true, negb_true_iff; by apply Z.eqb_neq).
  erewrite bind_run by (apply guard_true; by apply Nat.leb_le).
  erewrite bind_run by reflexivity. cbv zeta. unfold transaction.
  set (at_ := if IsZero (rq_RevokedAt req) then db_now s else rq_RevokedAt req).
  split.
  - intros c Hc Hcid Horg. rewrite <-Hcid, <-Horg.
    erewrite bind_run by (by apply getCertificateForUpdate_run).
    case_bool_decide as Hst.
    + erewrite bind_run_err by (by apply guard_false).
      by rewrite set_seq_id.
    + erewrite bind_run by (by apply guard_true).
      unfold with_message. unfold bind at 1, catch at 1.
      rewrite registerRevoked_run; [|done| |].
      2: { apply (revocationRow_valid _ (db_now s) req); try done; [|congruence].
           by eapply wf_certificate_valid. }
      2: { by eapply (revocation_keys_new _ _ c _ (db_now s) req). }
      cbv iota beta. unfold ret at 1. unfold bind at 1, catch at 1.
      rewrite updateCertificateStatus_run by done. done.
  - intros Hno. eexists. split.
    + erewrite bind_run_err; [by rewrite set_seq_id|].
      unfold getCertificateForUpdate, check_not_found, catch, select. simpl.
      rewrite (proj2 (select_row_none _ _)); [done|].
      intros c Hc. destruct (_ && _) eqn:E; [|done].
      apply andb_true_iff in E as [?%Z.eqb_eq ?%Z.eqb_eq]. by destruct (Hno c Hc).
    + by rewrite CheckNotFoundError_not_found.
Qed.




(** ** CRL numbers *)

(** The row a publication stores, and the issuer rows it leaves. *)
Definition publishedCrl (id now : Z) (i : Issuer) (m : Crl) : Crl :=
  set_l_insert id now (set_i_CrlNumber (l_CrlNumber m) i) m.
Definition numberedIssuers (m : Crl) (iss : list Issuer) : list Issuer :=
  update_all (fun j => (i_ID j =? l_IssuerID m)%Z &&
    bool_decide (i_Skid j = l_Ikid m) && (i_CrlNumber j <? l_CrlNumber m)%Z)
    (set_i_CrlNumber (l_CrlNumber m)) iss.

Lemma setIssuerCrlNumber_run s i m :
  db_wf s -> i ∈ db_issuers s -> l_IssuerID m = i_ID i -> l_Ikid m = i_Skid i ->
  setIssuerCrlNumber (l_IssuerID m) (l_Ikid m) (l_CrlNumber m) s =
  if (i_CrlNumber i <? l_CrlNumber m)%Z
  then (Ok (set_i_CrlNumber (l_CrlNumber m) i),
        tab_set issuers (numberedIssuers m (db_issuers s)) s)
  else (Err ErrStaleCrlNumber, s).
Proof.
  intros [_ [Hu _ _ _] _ _ _] Hi Hid Hk.
  assert (forall j, j ∈ db_issuers s -> i_ID j = i_ID i -> j = i) as Hinj.
  { intros j Hj E. by apply (issuer_id_inj (db_issuers s)). }
  unfold setIssuerCrlNumber, catch, exec. simpl.
  destruct (Z.ltb_spec (i_CrlNumber i) (l_CrlNumber m)) as [Hlt|Hge].
  - rewrite (update_row_hold _ _ _ _ i); [done| |].
    + apply select_row_unique; [done| |].
      * rewrite Hid, Hk, Z.eqb_refl, bool_decide_eq_true_2,
          (proj2 (Z.ltb_lt _ _)) by done. done.
      * intros j Hj Hw. rewrite !andb_true_iff, Z.eqb_eq in Hw.
        apply Hinj; [done|]. rewrite <-Hid. tauto.
    + apply update_all_hold; [done|]. by repeat constructor.
  - unfold update_row. rewrite (proj2 (select_row_none _ _)).
    2: { intros j Hj. destruct (_ && _) eqn:E; [|done].
         rewrite !andb_true_iff, Z.eqb_eq, Z.ltb_lt in E. destruct E as [[E _] E'].
         rewrite (Hinj j Hj) in E' by congruence. lia. }
    simpl. unfold bind, GetIssuer, GetRowByID, check_not_found, catch, select.
    simpl. rewrite (select_row_unique _ _ i); [|done|by apply Z.eqb_eq|].
    + simpl. by rewrite Hk, bool_decide_eq_true_2.
    + intros j Hj E%Z.eqb_eq. apply Hinj; congruence.
Qed.

(** Storing the CRL under its key identifier does not conflict. *)
Lemma upsert_crl_run rows im :
  uniques_hold crl_uniques rows -> l_ID im ∉ (l_ID <$> rows) ->
  exists l ls, upsert_row crl_uniques crl_ikid im (fun _ => true)
      (set_l_replace im) rows = Ok (l, ls) /\
    uniques_hold crl_uniques ls /\ l ∈ ls /\ l_Ikid l = l_Ikid im /\
    l_CrlNumber l = l_CrlNumber im /\ l_Pem l = l_Pem im /\
    l_ThisUpdate l = l_ThisUpdate im /\ l_NextUpdate l = l_NextUpdate im /\
    (forall k, k ∈ ls -> l_Ikid k <> l_Ikid im -> k ∈ rows).
Proof.
  intros Hu Hnew. unfold upsert_row.
  set (w := fun x : Crl => bool_decide (u_key crl_ikid x = u_key crl_ikid im)).
  destruct (List.find w rows) as [old|] eqn:Ef.
  - assert (select_row w rows = Ok old) as Hsel by (unfold select_row; by rewrite Ef).
    apply find_some in Ef as [Hold%list_elem_of_In Hk].
    assert (uniques_hold crl_uniques (update_all w (set_l_replace im) rows))
      as Hu' by (apply update_all_hold; [done|by repeat constructor]).
    eexists _, _. split; [by apply update_row_hold|]. split_and!; try done.
    + apply update_all_elem. exists old. by rewrite Hk.
    + by apply bool_decide_eq_true in Hk.
    + intros k (x & Hx & ->)%update_all_elem Hne. destruct (w x) eqn:Ew; [|done].
      by apply bool_decide_eq_true in Ew.
  - assert (uniques_hold crl_uniques (rows ++ [im])) as Hu'.
    { apply insert_hold; [done|]. repeat constructor; [done|].
      rewrite list_elem_of_fmap. intros (x & Hx & Hin).
      apply list_elem_of_In, (find_none _ _ Ef), bool_decide_eq_false in Hin.
      by apply Hin. }
    eexists _, _. split; [by apply insert_row_hold|].
    split_and!; try done; set_solver.
Qed.

(** The transaction of a publication that was given a new ID. *)
Lemma PublishCrl_run s i m :
  l_IssuerID m = i_ID i -> i_ID i <> 0%Z -> l_Ikid m = i_Skid i ->
  i_Skid i <> "" -> l_ID m = 0%Z ->
  db_wf s -> i ∈ db_issuers s ->
  Crl_Validate (publishedCrl (flake (db_seq s)) (db_now s) i m) = Ok tt ->
  let s1 := set_seq (S (db_seq s)) s in
  PublishCrl m s =
  if (i_CrlNumber i <? l_CrlNumber m)%Z then
    transaction (fun _ =>
      with_message "unable to store crl"
        (exec crls (upsert_row crl_uniques crl_ikid
          (publishedCrl (flake (db_seq s)) (db_now s) i m) (fun _ => true)
          (set_l_replace (publishedCrl (flake (db_seq s)) (db_now s) i m))))
        (tab_set issuers (numberedIssuers m (db_issuers s)) s1)) s1
  else (Err ErrStaleCrlNumber, s1).
Proof.
  intros Hid Hnz Hk Hke Hz Hwf Hi Hv s1.
  assert (db_wf s1) as Hwf1 by (by apply seq_stable).
  unfold PublishCrl, ensureID. rewrite Hz. unfold IsZero.
  erewrite bind_run by reflexivity.
  erewrite bind_run by (apply guard_true, negb_true_iff; rewrite Hid; by apply Z.eqb_neq).
  erewrite bind_run
    by (apply guard_true, negb_true_iff, bool_decide_eq_false; by rewrite Hk).
  unfold transaction, bind at 1. fold s1.
  rewrite (setIssuerCrlNumber_run s1 i m) by done.
  destruct (i_CrlNumber i <? l_CrlNumber m)%Z eqn:Elt; [|done].
  erewrite (bind_run Now) by reflexivity. cbv zeta.
  erewrite (bind_run (lift_result _)) by exact (f_equal (fun r => (r, _)) Hv).
  assert (set_i_CrlNumber (l_CrlNumber m) i ∈ numberedIssuers m (db_issuers s))
    as Hin.
  { apply update_all_elem. exists i. split; [done|].
    by rewrite Hid, Hk, Z.eqb_refl, bool_decide_eq_true_2, Elt. }
  unfold with_message, catch, bind, get, foreign_key.
  rewrite guard_true; [done|]. apply bool_decide_eq_true. simpl. rewrite Hid.
  by apply (list_elem_of_fmap_2 i_ID) in Hin.
Qed.

(** The CRL number of an issuer only grows. A publication for an
    existing issuer and its key identifier succeeds exactly when its number
    is greater than the issuer's: then it becomes the CRL that is served for
    the key identifier, the issuer records the number, and no other CRL
    changes; otherwise it fails with ErrStaleCrlNumber and no table changes. *)
Theorem publish_crl_number_grows (m : Crl) (i : Issuer) (s : Db)
    (Hwf : db_wf s) (Hi : i ∈ db_issuers s) (Hid : l_IssuerID m = i_ID i)
    (Hnz : i_ID i <> 0%Z) (Hk : l_Ikid m = i_Skid i) (Hke : i_Skid i <> "")
    (Hz : l_ID m = 0%Z) (Hnew : flake (db_seq s) ∉ (l_ID <$> db_crls s))
    (Hv : Crl_Validate (publishedCrl (flake (db_seq s)) (db_now s) i m) = Ok tt) :
  if (i_CrlNumber i <? l_CrlNumber m)%Z then
    exists l s', PublishCrl m s = (Ok l, s') /\
      GetCrl (i_Skid i) s' = (Ok l, s') /\
      l_CrlNumber l = l_CrlNumber m /\ l_Pem l = l_Pem m /\
      l_ThisUpdate l = l_ThisUpdate m /\ l_NextUpdate l = l_NextUpdate m /\
      set_i_CrlNumber (l_CrlNumber m) i ∈ db_issuers s' /\
      (forall k, k ∈ db_crls s' -> l_Ikid k <> i_Skid i -> k ∈ db_crls s)
  else PublishCrl m s = (Err ErrStaleCrlNumber, set_seq (S (db_seq s)) s).
Proof.
  rewrite (PublishCrl_run s i m) by done.
  destruct (i_CrlNumber i <? l_CrlNumber m)%Z eqn:Elt; [|done].
  destruct (upsert_crl_run (db_crls s) (publishedCrl (flake (db_seq s))
    (db_now s) i m)) as (l & ls & Hup & Hu & Hl & Hlk & Hln & Hlp & Hlt & Hlu & Hoth);
    [by destruct Hwf as [_ [] _ _ _]|done|].
  eexists l, _. split.
  { unfold transaction, with_message, catch, exec. simpl. by rewrite Hup. }
  split_and!; try done.
  - unfold GetCrl, check_not_found, catch, select. simpl.
    rewrite (select_row_unique _ _ l); try done.
    + apply bool_decide_eq_true. rewrite Hlk. by simpl.
    + intros x Hx Hw%bool_decide_eq_true. apply (crl_ikid_inj ls); [done..|].
      rewrite Hlk, Hw. by simpl.
  - simpl. apply update_all_elem. exists i. split; [done|].
    by rewrite Hid, Hk, Z.eqb_refl, bool_decide_eq_true_2, Elt.
  - intros k Hkin Hne. apply Hoth; [done|]. simpl. by rewrite Hk.
Qed.
End claims.

(** ** An example database *)

#[export] Instance example_ids : IdGen := {| flake n := Z.of_nat n + 1000 |}%Z.

Definition example_sha : string :=
  "0123456789abcdef0123456789abcdef0123456789abcdef0123456789abcdef".
Definition example_root_sha : string :=
  "fedcba9876543210fedcba9876543210fedcba9876543210fedcba9876543210".

Definition example_x509 : x509_Certificate :=
  mkX509 "skid-ca" "" "1" "CN=ca" "CN=ca" example_root_sha 100 900000
    true true (-1) false "CN=ca" "CN=ca".

(** One certificate and the empty settings. *)
#[export] Instance example_codec : Codec := {|
  ParseFromPEM pem :=
    if bool_decide (pem = "pem-ca") then Some example_x509 else None;
  unmarshal_IssuerConfig j :=
    if bool_decide (j = "{}") then Some emptyIssuerConfig else None |}.

Definition example_issuer : Issuer :=
  mkIssuer 11 7 0 "ca" AuthorityType_Issuing IssuerStatus_Active 0 "skid-ca"
    "skid-root" "1" "CN=ca" "CN=root" example_root_sha 100 900000 "pem-ca" ""
    "" "" "inmem" "key-1" "sealed" "{}" 0 0 0.
Definition example_certificate : Certificate :=
  mkCertificate 21 7 0 "skid-1" "skid-ca" "42" 100 900000 "CN=leaf" "CN=ca"
    example_sha "server" "" [] [] "pem-leaf" "pem-ca"
    CertificateStatus_Unknown 0.
Definition example_crl : Crl :=
  mkCrl 0 0 0 11 "skid-ca" 1 5000 9000 "" "pem-crl" [] 0.
Definition example_revoke : RevokeCertificateRequest :=
  mkRevoke 21 7 0 1 "key compromise".

Definition example_db : Db :=
  run_op (OpRegisterIssuer example_issuer None)
    (run_op (OpRegisterCertificate example_certificate None) (emptyDb 5000)).

Lemma example_db_reachable : reachable example_db.
Proof. by repeat constructor. Qed.

Definition example_ops : list db_op :=
  [OpRegisterCertificate example_certificate None; OpRegisterIssuer example_issuer None;
   OpPublishCrl example_crl; OpRevokeCertificate example_revoke].


(** An activation after the first CRL leaves a CRL that is not the current one
    of its issuer: the operations do not refuse it. *)
Definition example_pending : Issuer :=
  mkIssuer (i_ID example_issuer) (i_OrgID example_issuer) (i_ProjectID example_issuer)
    (i_Label example_issuer) (i_Type example_issuer) IssuerStatus_Pending
    (i_ParentID example_issuer) "skid-old" (i_Ikid example_issuer)
    (i_SerialNumber example_issuer) (i_Subject example_issuer) (i_Issuer example_issuer)
    (i_Sha256 example_issuer) (i_NotBefore example_issuer) (i_NotAfter example_issuer)
    (i_Pem example_issuer) (i_ChainPem example_issuer) (i_RootPem example_issuer) "csr"
    (i_KeyProvider example_issuer) (i_KeyID example_issuer) (i_KeyProtected example_issuer)
    (i_Config example_issuer) (i_CrlNumber example_issuer) (i_CreatedAt example_issuer)
    (i_UpdatedAt example_issuer).
Definition example_late_ops : list db_op :=
  [OpRegisterIssuer example_pending None;
   OpPublishCrl (mkCrl 0 0 0 11 "skid-old" 1 5000 9000 "" "pem-crl" [] 0);
   OpActivateIssuer example_issuer].

Lemma late_activation_orphans_crl : ~ db_wf (run_ops example_late_ops (emptyDb 5000)).
Proof.
  intros Hwf. pose proof (wf_crl_issuer _ _ (wf_issuers _ Hwf)) as Hc.
  assert ((i_Skid <$> db_issuers (run_ops example_late_ops (emptyDb 5000)),
    l_Ikid <$> db_crls (run_ops example_late_ops (emptyDb 5000))) =
    (["skid-ca"], ["skid-old"])%string) as E by by vm_compute.
  destruct (db_crls (run_ops example_late_ops (emptyDb 5000))) as [|l [|]]; [done| |done].
  destruct (db_issuers (run_ops example_late_ops (emptyDb 5000))) as [|i [|]]; [done| |done].
  injection E as Ei El.
  destruct (Hc l) as (j & ->%list_elem_of_singleton & _ & _ & _ & E & _); [by left|].
  congruence.
Qed.

Definition example_stored : Certificate :=
  set_c_CreatedAt 5000 (set_c_Status CertificateStatus_Active example_certificate).

Lemma revoke_atomic_and_final_witness :
  exists rc s', RevokeCertificate example_revoke example_db = (Ok rc, s') /\
    c_Status (rc_certificate rc) = CertificateStatus_Revoked /\
    r_SerialNumber (rc_revoked rc) = "42" /\ r_RevokedAt (rc_revoked rc) = 5000%Z.
Proof.
  destruct (revoke_atomic_and_final example_revoke example_db) as [Hok _].
  - apply reachable_wf, example_db_reachable.
  - vm_compute. inversion 1.
  - vm_compute. discriminate.
  - vm_compute. discriminate.
  - vm_compute. lia.
  - specialize (Hok example_stored).
    rewrite bool_decide_eq_false_2 in Hok by discriminate.
    eexists _, _. split.
    + apply Hok; [vm_compute; left|reflexivity|reflexivity].
    + repeat split.
Defined.

Lemma rows_move_forward_witness :
  certificate_evolves example_stored
    (set_c_Status CertificateStatus_Revoked example_stored).
Proof.
  destruct (rows_move_forward example_db (OpRevokeCertificate example_revoke)
    example_db_reachable I) as [Hc _].
  apply Hc; [vm_compute; left|vm_compute; left|reflexivity].
Defined.

Lemma mutations_stay_in_org_witness :
  List.filter (fun c => (c_OrgID c =? 7)%Z)
    (db_certificates (run_op (OpDeleteCertificate 8 21) example_db)) =
  List.filter (fun c => (c_OrgID c =? 7)%Z) (db_certificates example_db).
Proof.
  apply (mutations_stay_in_org example_db (OpDeleteCertificate 8 21) 8 7);
    [reflexivity|discriminate].
Defined.

Lemma publish_crl_number_grows_witness :
  exists l s', PublishCrl example_crl example_db = (Ok l, s') /\
    GetCrl "skid-ca" s' = (Ok l, s') /\ l_CrlNumber l = 1%Z.
Proof.
  destruct (publish_crl_number_grows example_crl
    (set_i_insert 11 5000 example_issuer) example_db) as (l & s' & H1 & H2 & H3 & _).
  - apply reachable_wf, example_db_reachable.
  - vm_compute. left.
  - vm_compute. reflexivity.
  - vm_compute. discriminate.
  - vm_compute. reflexivity.
  - vm_compute. discriminate.
  - vm_compute. reflexivity.
  - vm_compute. inversion 1.
  - vm_compute. reflexivity.
  - exists l, s'. split; [exact H1|]. split; [exact H2|exact H3].
Defined.
