(* ===== verification/CertStatus.v ===== *)
(** The certificate status task: [server/tasks/certstatus/certstatus.go].
    It marks expired certificates in batches and deletes those past the
    retention, in batches too. *)
From stdpp Require Import base list sets strings sorting.
From S2P Require Import Prelude Xdb Model Sql CaQuery CaDb CaDbFacts CaDbClaims.

Definition BatchSize : Z := 1000.
Definition MaxBatches : nat := 1000.

(** The counts of a run; an error is returned with the counts so far. *)
Record Result := mkResult { rs_Expired : Z; rs_Deleted : Z }.

(** Repeats the statement until a batch is smaller than [BatchSize], at most
    [n] times. *)
Fixpoint batches (n : nat) (stmt : M Db Z) (total : Z)
  : M Db (Z * option error) :=
  match n with
  | O => ret (total, None)
  | S n =>
      catch stmt (fun r => match r with
        | Err e => ret (total, Some e)
        | Ok k => if (k <? BatchSize)%Z then ret ((total + k)%Z, None)
                  else batches n stmt (total + k)
        end)
  end.

Section task.
Context `{Xdb, Codec, IdGen}.

Definition Run (retention : Z) : M Db (Result * option error) :=
  let! now := Now in
  let! expired := batches MaxBatches
    (ExpireCertificates (mkExpire now BatchSize)) 0 in
  match expired with
  | (n, Some e) => ret (mkResult n 0, Some e)
  | (n, None) =>
      if (0 <? retention)%Z then
        let! deleted := batches MaxBatches
          (DeleteExpiredCertificates (mkExpire (now - retention) BatchSize)) 0 in
        ret (mkResult n (fst deleted), snd deleted)
      else ret (mkResult n 0, None)
  end.
End task.

(** ** What a run does *)

Definition expireAll (before : Z) (s : Db) : Db :=
  tab_set certificates (update_all (expirable before)
    (set_c_Status CertificateStatus_Expired) (db_certificates s)) s.
Definition deleteAll (before : Z) (s : Db) : Db :=
  cascadeRevoked (tab_set certificates
    (List.filter (fun c => negb (c_NotAfter c <? before)%Z)
       (db_certificates s)) s).

(** ** Batches *)

Definition unique_ids (rows : list Certificate) : Prop := NoDup (c_ID <$> rows).

Section batch.
Context (where_ : Certificate -> bool) (limit : Z) (rows : list Certificate).
Hypothesis (Hn : unique_ids rows) (Hl : (0 <= limit)%Z).

Abbreviation selected := (List.filter where_ rows).
Abbreviation batch := (lowestIDs where_ limit rows).

Lemma sorted_perm : merge_sort Z.le (c_ID <$> selected) ≡ₚ (c_ID <$> selected).
Proof. apply merge_sort_Permutation. Qed.

Lemma batch_elem id : id ∈ batch -> exists c, c ∈ selected /\ c_ID c = id.
Proof.
  unfold lowestIDs. intros Hin%elem_of_take.
  destruct Hin as (i & Hin%list_elem_of_lookup_2 & _).
  rewrite sorted_perm in Hin. apply list_elem_of_fmap in Hin as (c & -> & Hc).
  by exists c.
Qed.

Lemma batch_NoDup : NoDup batch.
Proof.
  assert (NoDup (merge_sort Z.le (c_ID <$> selected))) as Hs
    by (rewrite sorted_perm; by apply NoDup_fmap_filter).
  rewrite <-(take_drop (Z.to_nat limit)) in Hs. by apply NoDup_app in Hs as [? _].
Qed.

Lemma batch_length :
  Z.of_nat (length batch) = Z.min limit (Z.of_nat (length selected)).
Proof.
  unfold lowestIDs. rewrite length_take, (Permutation_length sorted_perm),
    length_fmap. lia.
Qed.

(** A row whose ID is in the batch is one of the selected rows. *)
Lemma batch_selected c : c ∈ rows -> c_ID c ∈ batch -> where_ c = true.
Proof.
  intros Hc (d & [Hd Hw]%filter_elem & Hid)%batch_elem.
  by rewrite <-(NoDup_key_inj c_ID rows d c Hn Hd Hc Hid).
Qed.

(** Every selected row is in the batch when they fit in it. *)
Lemma batch_all c :
  (Z.of_nat (length selected) <= limit)%Z -> c ∈ selected -> c_ID c ∈ batch.
Proof.
  intros Hle Hc. unfold lowestIDs. rewrite take_ge.
  - rewrite sorted_perm. by apply list_elem_of_fmap_2.
  - rewrite (Permutation_length sorted_perm), length_fmap. lia.
Qed.

Lemma batch_rows p :
  (forall c, c ∈ rows -> p c = true <-> c_ID c ∈ batch) ->
  length (List.filter p rows) = length batch.
Proof.
  intros Hp. rewrite <-(length_fmap c_ID (List.filter p rows)).
  apply Permutation_length, NoDup_Permutation.
  - by apply NoDup_fmap_filter.
  - apply batch_NoDup.
  - intros id. rewrite list_elem_of_fmap. split.
    + intros (c & -> & [Hc Hpc]%filter_elem). by apply Hp.
    + intros Hid. destruct (batch_elem id Hid) as (c & [Hc _]%filter_elem & <-).
      exists c. rewrite filter_elem. split; [done|]. by rewrite Hp.
Qed.
End batch.

(** ** Loops of batches *)

(** A statement that handles at most a batch of what is left, and everything
    when it fits. *)
Record batched (stmt : M Db Z) (I : Db -> Prop) (size : Db -> Z)
    (final : Db -> Db) : Prop := {
  bt_size s : (0 <= size s)%Z;
  bt_step s : I s -> exists s',
    stmt s = (Ok (Z.min BatchSize (size s)), s') /\ I s' /\
    size s' = (size s - Z.min BatchSize (size s))%Z /\ final s' = final s /\
    ((size s < BatchSize)%Z -> s' = final s) }.

Lemma batches_complete stmt I size final n total s :
  batched stmt I size final -> I s ->
  (size s < BatchSize * Z.of_nat n)%Z ->
  batches n stmt total s = (Ok ((total + size s)%Z, None), final s).
Proof.
  intros [Hsize Hstep]. revert total s.
  induction n as [|n IH]; intros total s HI Hn; [pose proof (Hsize s); lia|].
  destruct (Hstep s HI) as (s' & Hrun & HI' & Hs' & Hf & Hlast).
  simpl. unfold catch. rewrite Hrun.
  destruct (Z.ltb_spec (Z.min BatchSize (size s)) BatchSize) as [Hlt|Hge].
  - unfold ret. rewrite Hlast by lia. by rewrite Z.min_r by lia.
  - rewrite IH by (done || lia). rewrite Hf, Hs'. do 3 f_equal. lia.
Qed.

Section statements.
Context `{Xdb, Codec, IdGen} (before : Z) (Hb : before <> 0%Z).

Definition ids_unique (s : Db) : Prop :=
  uniques_hold certificate_uniques (db_certificates s).

Lemma ids_unique_ids s : ids_unique s -> unique_ids (db_certificates s).
Proof. by intros Hu%Forall_inv. Qed.

Lemma validate_ok : ExpireCertificatesRequest_Validate (mkExpire before BatchSize)
  = Ok tt.
Proof.
  unfold ExpireCertificatesRequest_Validate, IsZero. simpl.
  by rewrite (proj2 (Z.eqb_neq before 0)).
Qed.

Definition left_to (where_ : Certificate -> bool) (s : Db) : Z :=
  Z.of_nat (length (List.filter where_ (db_certificates s))).

(** What an update of some of the selected rows leaves to do. *)
Lemma update_left (p where_ : Certificate -> bool) set_ rows :
  (forall c, c ∈ rows -> p c = true -> where_ c = true /\ where_ (set_ c) = false) ->
  (length (List.filter where_ (update_all p set_ rows)) +
   length (List.filter p rows) = length (List.filter where_ rows))%nat.
Proof.
  induction rows as [|c rows IH]; intros Hp; [done|].
  change (update_all p set_ (c :: rows)) with
    ((if p c then set_ c else c) :: update_all p set_ rows).
  cbn [List.filter]. specialize (IH ltac:(set_solver)).
  destruct (p c) eqn:Ep.
  - destruct (Hp c) as [-> ->]; [set_solver|done|]. simpl. lia.
  - destruct (where_ c); simpl; lia.
Qed.

Lemma update_twice (p where_ : Certificate -> bool) set_ rows :
  (forall c, c ∈ rows -> p c = true -> where_ c = true /\ where_ (set_ c) = false) ->
  update_all where_ set_ (update_all p set_ rows) = update_all where_ set_ rows.
Proof.
  intros Hp. unfold update_all. rewrite <-list_fmap_compose.
  apply list_fmap_ext. intros i c Hi%list_elem_of_lookup_2. simpl.
  destruct (p c) eqn:Ep; [|done]. by destruct (Hp c Hi Ep) as [-> ->].
Qed.

Lemma expirable_expired c :
  expirable before (set_c_Status CertificateStatus_Expired c) = false.
Proof. unfold expirable. by rewrite bool_decide_eq_false_2. Qed.

Lemma expire_batched :
  batched (ExpireCertificates (mkExpire before BatchSize)) ids_unique
    (left_to (expirable before)) (expireAll before).
Proof.
  split; [intros s; unfold left_to; lia|]. intros s Hu.
  pose proof (ids_unique_ids s Hu) as Hn.
  set (rows := db_certificates s) in *. set (w := expirable before).
  set (batch := lowestIDs w BatchSize rows).
  set (p := fun c => bool_decide (c_Status c = CertificateStatus_Active) &&
                     bool_decide (c_ID c ∈ batch)).
  assert (forall c, c ∈ rows -> p c = true <-> c_ID c ∈ batch) as Hp.
  { intros c Hc. unfold p. rewrite andb_true_iff, !bool_decide_eq_true.
    split; [tauto|]. intros Hin. split; [|done].
    apply (batch_selected w BatchSize rows Hn c Hc) in Hin.
    by apply andb_true_iff in Hin as [?%bool_decide_eq_true _]. }
  assert (forall c, c ∈ rows -> p c = true -> w c = true /\
    w (set_c_Status CertificateStatus_Expired c) = false) as Hpw.
  { intros c Hc Hin%Hp; [|done]. split; [by eapply batch_selected|].
    apply expirable_expired. }
  assert (uniques_hold certificate_uniques (update_all p
    (set_c_Status CertificateStatus_Expired) rows)) as Hu'.
  { apply update_all_hold; [done|]. by repeat constructor. }
  assert (Z.of_nat (length (List.filter p rows)) =
    Z.min BatchSize (left_to w s)) as Hlen.
  { rewrite (batch_rows w BatchSize rows Hn p Hp). by apply batch_length. }
  exists (tab_set certificates (update_all p
    (set_c_Status CertificateStatus_Expired) rows) s). split_and!.
  - unfold ExpireCertificates, with_message, catch, exec. unfold bind at 1, lift_result.
    rewrite validate_ok. simpl. fold rows w batch p. rewrite checked_hold by done.
    simpl. by rewrite Hlen.
  - done.
  - rewrite <-Hlen. unfold left_to. simpl. fold rows.
    pose proof (update_left p w (set_c_Status CertificateStatus_Expired) rows Hpw).
    lia.
  - unfold expireAll. simpl. fold rows w. by rewrite update_twice.
  - intros Hlt. unfold expireAll. fold rows w. f_equal. unfold update_all.
    apply list_fmap_ext. intros i c Hi%list_elem_of_lookup_2.
    destruct (p c) eqn:Ep; [by destruct (Hpw c Hi Ep) as [-> _]|].
    destruct (w c) eqn:Ew; [|done].
    assert (p c = true) as Ep'; [|congruence]. apply Hp; [done|].
    apply batch_all; [apply Z.lt_le_incl; exact Hlt|]. by apply filter_elem.
Qed.

(** Deleting some of the selected rows. *)
Lemma delete_left (p where_ : Certificate -> bool) rows :
  (forall c, c ∈ rows -> p c = true -> where_ c = true) ->
  (length (List.filter where_ (List.filter (fun c => negb (p c)) rows)) +
   length (List.filter p rows) = length (List.filter where_ rows))%nat.
Proof.
  induction rows as [|c rows IH]; intros Hp; [done|]. cbn [List.filter].
  specialize (IH ltac:(set_solver)). destruct (p c) eqn:Ep; simpl.
  - rewrite (Hp c) by (set_solver || done). simpl. lia.
  - destruct (where_ c); simpl; lia.
Qed.

Lemma delete_twice (p where_ : Certificate -> bool) rows :
  (forall c, c ∈ rows -> p c = true -> where_ c = true) ->
  List.filter (fun c => negb (where_ c)) (List.filter (fun c => negb (p c)) rows)
  = List.filter (fun c => negb (where_ c)) rows.
Proof.
  induction rows as [|c rows IH]; intros Hp; [done|]. cbn [List.filter].
  specialize (IH ltac:(set_solver)). destruct (p c) eqn:Ep; cbn [negb List.filter].
  - rewrite (Hp c) by (set_solver || done). done.
  - by rewrite IH.
Qed.

(** Cascading once more for fewer certificates is cascading for those. *)
Lemma cascade_twice s cs cs' :
  (forall c, c ∈ cs' -> c ∈ cs) ->
  cascadeRevoked (tab_set certificates cs'
    (cascadeRevoked (tab_set certificates cs s))) =
  cascadeRevoked (tab_set certificates cs' s).
Proof.
  intros Hsub. unfold cascadeRevoked. simpl. f_equal.
  induction (db_revoked s) as [|r rs IH]; [done|]. cbn [List.filter].
  destruct (bool_decide (r_CertificateID r ∈ (c_ID <$> cs))) eqn:E;
    cbn [List.filter]; rewrite IH; [done|].
  apply bool_decide_eq_false in E. rewrite bool_decide_eq_false_2; [done|].
  intros (c & Hid & Hc)%list_elem_of_fmap. apply E. rewrite Hid.
  by apply list_elem_of_fmap_2, Hsub.
Qed.

Definition past (c : Certificate) : bool := (c_NotAfter c <? before)%Z.

Lemma delete_batched :
  batched (DeleteExpiredCertificates (mkExpire before BatchSize)) ids_unique
    (left_to past) (deleteAll before).
Proof.
  split; [intros s; unfold left_to; lia|]. intros s Hu.
  pose proof (ids_unique_ids s Hu) as Hn.
  set (rows := db_certificates s) in *.
  set (batch := lowestIDs past BatchSize rows).
  set (p := fun c => bool_decide (c_ID c ∈ batch)).
  assert (forall c, c ∈ rows -> p c = true <-> c_ID c ∈ batch) as Hp.
  { intros c Hc. apply bool_decide_eq_true. }
  assert (forall c, c ∈ rows -> p c = true -> past c = true) as Hpw.
  { intros c Hc Hin%Hp; [|done]. by eapply batch_selected. }
  assert (Z.of_nat (length (List.filter p rows)) =
    Z.min BatchSize (left_to past s)) as Hlen.
  { rewrite (batch_rows past BatchSize rows Hn p Hp). by apply batch_length. }
  exists (cascadeRevoked (tab_set certificates
    (List.filter (fun c => negb (p c)) rows) s)). split_and!.
  - unfold DeleteExpiredCertificates. unfold bind at 1, lift_result.
    rewrite validate_ok. unfold bind, exec, modify, ret. simpl.
    fold past rows. fold batch. fold p. by rewrite Hlen.
  - unfold ids_unique. simpl. by apply filter_hold.
  - rewrite <-Hlen. unfold left_to. simpl.
    pose proof (delete_left p past rows Hpw). fold rows. lia.
  - unfold deleteAll. simpl. fold rows. fold past. rewrite delete_twice by done.
    apply cascade_twice. intros c [Hc Hn']%filter_elem. apply filter_elem.
    split; [done|]. destruct (p c) eqn:Ep; [|done].
    fold (past c) in Hn'. by rewrite (Hpw c Hc Ep) in Hn'.
  - intros Hlt. unfold deleteAll. fold rows. do 2 f_equal.
    apply List.filter_ext_in. intros c Hc%list_elem_of_In. f_equal.
    fold (past c). destruct (past c) eqn:Ew.
    + apply Hp; [done|]. apply batch_all; [apply Z.lt_le_incl; exact Hlt|].
      by apply filter_elem.
    + destruct (p c) eqn:Ep; [|done]. by rewrite (Hpw c Hc Ep) in Ew.
Qed.
End statements.

Section run.
Context `{Xdb, Codec, IdGen}.

Lemma expireAll_unique now s : ids_unique s -> ids_unique (expireAll now s).
Proof.
  intros Hu. unfold ids_unique, expireAll. simpl.
  apply update_all_hold; [done|]. by repeat constructor.
Qed.

(** C23: a run of the certificate status task handles everything that is
    due. When fewer certificates are due than the batches of a run, it ends
    without an error, marks exactly the Active certificates whose validity
    ended before now as Expired, leaves Revoked ones alone, and with a
    retention deletes exactly the certificates whose validity ended before
    now minus the retention, with their revocations; the counts are exact. *)
Theorem cert_status_run_complete (retention : Z) (s : Db) (Hwf : db_wf s)
    (Hnow : (0 < db_now s)%Z)
    (Hret : (0 <= retention < db_now s)%Z)
    (Hexp : (left_to (expirable (db_now s)) s <
             BatchSize * Z.of_nat MaxBatches)%Z)
    (Hdel : (left_to (past (db_now s - retention)) (expireAll (db_now s) s) <
             BatchSize * Z.of_nat MaxBatches)%Z) :
  let expired := expireAll (db_now s) s in
  Run retention s =
    if (0 <? retention)%Z then
      (Ok (mkResult (left_to (expirable (db_now s)) s)
             (left_to (past (db_now s - retention)) expired), None),
       deleteAll (db_now s - retention) expired)
    else (Ok (mkResult (left_to (expirable (db_now s)) s) 0, None), expired).
Proof.
  cbv zeta. assert (ids_unique s) as Hu by (by destruct Hwf as [[] _ _ _ _]).
  unfold Run. erewrite bind_run by reflexivity.
  erewrite bind_run.
  2: { apply (batches_complete _ ids_unique _ _ MaxBatches 0 s
         (expire_batched (db_now s) ltac:(lia))); done. }
  rewrite Z.add_0_l. destruct (Z.ltb_spec 0 retention); [|done].
  erewrite bind_run.
  2: { apply (batches_complete _ ids_unique _ _ MaxBatches 0 _
         (delete_batched (db_now s - retention) ltac:(lia)));
         [by apply expireAll_unique|done]. }
  by rewrite Z.add_0_l.
Qed.
End run.

(** The example certificate expires, and with a retention is deleted. *)
Lemma cert_status_run_complete_witness :
  let s := run_op (OpTick 950000) example_db in
  exists s', Run 10000 s = (Ok (mkResult 1 1, None), s').
Proof.
  cbv zeta. eexists.
  apply (cert_status_run_complete 10000 (run_op (OpTick 950000) example_db)).
  - apply reachable_wf, reachable_step; [apply example_db_reachable|exact I].
  - vm_compute. reflexivity.
  - vm_compute. split; [discriminate|reflexivity].
  - vm_compute. reflexivity.
  - vm_compute. reflexivity.
Defined.
