(* ===== verification/Keys.v ===== *)
(** Issuer keys: [internal/ca/keys.go].

    A key lives in a crypto provider and is referenced by its URI, or it is
    a software key, kept wrapped by the data protection provider.  The
    providers are libraries: [KeyLib] is what the code calls, over a [world]
    of keys the providers hold, and [KeyLaws] that wrapping is undone by
    unwrapping. *)
From Stdlib Require Import ZArith Lia Ascii.
From stdpp Require Import base list strings pretty.
From S2P Require Import Prelude GoStrings Xdb Model Base64.

(** A parsed [pkcs11:] URI. *)
Record KeyURI := mkKeyURI {
  ku_Manufacturer : string; ku_Model : string; ku_ID : string }.

(** The crypto providers, the data protection and the key parsing. A signer
    of [None] is a private key that does not sign. *)
Class KeyLib := {
  world : Type; crypto_t : Type; provider_t : Type; dp_t : Type;
  signer_t : Type; public_t : Type; csr_t : Type;
  Default : crypto_t -> option provider_t;
  ByManufacturer : crypto_t -> string -> string -> result provider_t;
  Manufacturer : provider_t -> string;
  ProviderModel : provider_t -> string;
  NewSignerFromPEM : crypto_t -> string -> M world signer_t;
  ParsePrivateKeyPEM : string -> result (option signer_t);
  ParsePrivateKeyURI : string -> result KeyURI;
  Protect : dp_t -> string -> M world string;
  Unprotect : dp_t -> string -> result string;
  Public : signer_t -> public_t;
  Public_Equal : public_t -> public_t -> bool;
  GenerateKeyAndRequest :
    provider_t -> string -> string -> Z -> csr_t ->
    M world (string * option signer_t * string);
  ExportKey : provider_t -> string -> M world (string * string);
  IsKeyManager : provider_t -> bool;
  DestroyKeyPairOnSlot : provider_t -> string -> M world unit }.

(** Wrapped data is not empty and unwraps to what was wrapped. *)
Class KeyLaws `{KeyLib} := {
  Protect_nonempty dp k w p w' :
    Protect dp k w = (Ok p, w') -> p <> EmptyString;
  Unprotect_Protect dp k w p w' :
    Protect dp k w = (Ok p, w') -> Unprotect dp p = Ok k }.

Definition SoftwareKeyProvider : string := "inmem".
Definition DefaultKeyAlgo : string := "ECDSA".
Definition DefaultKeySize : Z := 256.
Definition keyURIPrefix : string := "pkcs11:".

Definition ErrSoftwareKeysDisabled : error :=
  Sentinel "software keys are not allowed: use a key of a crypto provider".

Definition allowedKeySizes : list (string * list Z) :=
  [("RSA"%string, [2048; 3072; 4096]%Z); ("ECDSA"%string, [256; 384]%Z)].

(** [pb.KeySpec]: the algorithm and the size. *)
Definition KeySpec (spec : option (string * Z)) : result (string * Z) :=
  let algo := match spec with
    | Some (a, _) =>
        if bool_decide (a = EmptyString) then DefaultKeyAlgo else ToUpper a
    | None => DefaultKeyAlgo
    end in
  let size := match spec with
    | Some (_, s) => if (s =? 0)%Z then DefaultKeySize else s
    | None => DefaultKeySize
    end in
  match List.find (fun e => bool_decide (e.1 = algo)) allowedKeySizes with
  | None => Err (OtherError ("unsupported key algorithm: " ++ algo))
  | Some (_, sizes) =>
      if bool_decide (size ∈ sizes) then Ok (algo, size)
      else Err (OtherError ("unsupported " ++ algo ++ " key size: " ++
                            pretty size))
  end.

Definition KeyLabel (orgID projectID : Z) (label : string) : string :=
  "trustyca/" ++ pretty orgID ++ "/" ++ pretty projectID ++ "/" ++ label.

Definition IsKeyURI (key : string) : bool :=
  HasPrefix (TrimSpace key) keyURIPrefix.

Record KeyRef := mkKeyRef {
  kr_Provider : string; kr_KeyID : string; kr_Protected : string }.

Definition KeyRef_Apply (r : KeyRef) (m : Issuer) : Issuer :=
  mkIssuer (i_ID m) (i_OrgID m) (i_ProjectID m) (i_Label m) (i_Type m)
    (i_Status m) (i_ParentID m) (i_Skid m) (i_Ikid m) (i_SerialNumber m)
    (i_Subject m) (i_Issuer m) (i_Sha256 m) (i_NotBefore m) (i_NotAfter m)
    (i_Pem m) (i_ChainPem m) (i_RootPem m) (i_CsrPem m) (kr_Provider r)
    (kr_KeyID r) (kr_Protected r) (i_Config m) (i_CrlNumber m)
    (i_CreatedAt m) (i_UpdatedAt m).

Definition with_message_r {A} (msg : string) (r : result A) : result A :=
  match r with Ok a => Ok a | Err e => Err (WithMessage e msg) end.

Definition with_message_m {S A} (msg : string) (m : M S A) : M S A :=
  catch m (fun r => lift_result (with_message_r msg r)).

Section keys.
Context `{Xdb, KeyLib}.

Record Keys := mkKeys {
  k_crypto : option crypto_t; k_dp : option dp_t; k_softwareKeys : bool }.

Definition NewKeys (crypto : option crypto_t) (dp : option dp_t) : Keys :=
  mkKeys crypto dp true.

Definition DisableSoftwareKeys (k : Keys) : Keys :=
  mkKeys (k_crypto k) (k_dp k) false.

Definition Keys_Provider (k : Keys) (name : string) : result provider_t :=
  match k_crypto k with
  | None => Err (OtherError "crypto providers are not configured")
  | Some crypto =>
      let def := Default crypto in
      if bool_decide (name = EmptyString) then
        match def with
        | None => Err (OtherError "default crypto provider is not configured")
        | Some p => Ok p
        end
      else
        let '(manufacturer, model) := Cut "/"%char name in
        let other := with_message_r ("key provider not found: " ++ name)
                       (ByManufacturer crypto manufacturer model) in
        match def with
        | Some p =>
            if bool_decide (Manufacturer p = manufacturer) &&
               (bool_decide (model = EmptyString) ||
                bool_decide (ProviderModel p = model))
            then Ok p else other
        | None => other
        end
  end.

Definition ProtectKey (k : Keys) (keyPEM : string) : M world string :=
  match k_dp k with
  | None => fail (OtherError "data protection provider is not configured")
  | Some dp =>
      let! protected := with_message_m "unable to protect key"
                          (Protect dp keyPEM) in
      ret (EncodeToString protected)
  end.

Definition KeyRefFromExport (k : Keys) (prov : provider_t)
    (keyLabel exported : string) : M world KeyRef :=
  let key := TrimSpace exported in
  guard (negb (bool_decide (key = EmptyString)))
    (OtherError "exported key is empty") ;;;
  if IsKeyURI key then ret (mkKeyRef (Manufacturer prov) key EmptyString)
  else
  guard (k_softwareKeys k) ErrSoftwareKeysDisabled ;;;
  let! protected := ProtectKey k key in
  ret (mkKeyRef SoftwareKeyProvider keyLabel protected).

(** The CSR, the signer and the reference of a generated key. *)
Definition Generate (k : Keys) (prov : provider_t) (keyLabel : string)
    (spec : option (string * Z)) (req : csr_t)
  : M world (string * signer_t * KeyRef) :=
  let! algo_size := lift_result (KeySpec spec) in
  let! gen := with_message_m "unable to generate key"
    (GenerateKeyAndRequest prov keyLabel algo_size.1 algo_size.2 req) in
  match gen with
  | (_, None, _) => fail (OtherError "generated key does not sign")
  | (csrPEM, Some signer, keyID) =>
      let! exp := with_message_m "unable to export key"
                    (ExportKey prov keyID) in
      let exported := if bool_decide (exp.2 = EmptyString) then exp.1
                      else exp.2 in
      let! ref := KeyRefFromExport k prov keyLabel exported in
      ret (csrPEM, signer, ref)
  end.

Definition signerFromPEM (keyPEM : string) : result signer_t :=
  match ParsePrivateKeyPEM keyPEM with
  | Err e => Err (WithMessage e "invalid key")
  | Ok None => Err (OtherError "key does not sign")
  | Ok (Some signer) => Ok signer
  end.

Definition Signer (k : Keys) (m : Issuer) : M world signer_t :=
  let id := id_string (i_ID m) in
  if negb (bool_decide (i_KeyProtected m = EmptyString)) then
    match k_dp k with
    | None => fail (OtherError "data protection provider is not configured")
    | Some dp =>
        match DecodeString (i_KeyProtected m) with
        | None => fail (WithMessage (OtherError "illegal base64 data")
                          ("invalid protected key of issuer " ++ id))
        | Some raw =>
            let! keyPEM := lift_result (with_message_r
              ("unable to unprotect key of issuer " ++ id ++
               ": check that the data protection seed (TRUSTYCA_DP_SEED)" ++
               " is the one the key was wrapped under")
              (Unprotect dp raw)) in
            lift_result (signerFromPEM keyPEM)
        end
    end
  else if IsKeyURI (i_KeyID m) then
    match k_crypto k with
    | None => fail (OtherError "crypto providers are not configured")
    | Some crypto => with_message_m ("unable to load key of issuer " ++ id)
                       (NewSignerFromPEM crypto (i_KeyID m))
    end
  else fail (OtherError ("issuer " ++ id ++ " has no key")).

(** An exported key, a URI or key material, is one with the public key: what
    is loaded from it, whenever it is, has it. *)
Definition key_is (exported : string) (pub : public_t) : Prop :=
  let key := TrimSpace exported in
  if IsKeyURI key
  then forall crypto w sg w', NewSignerFromPEM crypto key w = (Ok sg, w') -> Public sg = pub
  else forall sg, signerFromPEM key = Ok sg -> Public sg = pub.

(** The second key may be nil. *)
Definition PublicKeysEqual (a : public_t) (b : option public_t) : bool :=
  match b with Some b => Public_Equal a b | None => false end.

(** The signer and the reference of the key the request names. *)
Definition importedKey (k : Keys) (keyURI keyPEM keyLabel : string)
  : M world (signer_t * KeyRef) :=
  if negb (bool_decide (keyURI = EmptyString)) then
    let keyURI := TrimSpace keyURI in
    guard (IsKeyURI keyURI) (OtherError "invalid key URI") ;;;
    let! puri := lift_result (with_message_r "invalid key URI"
                                (ParsePrivateKeyURI keyURI)) in
    match k_crypto k with
    | None => fail (OtherError "crypto providers are not configured")
    | Some crypto =>
        let! signer := with_message_m "unable to load key"
                         (NewSignerFromPEM crypto keyURI) in
        ret (signer, mkKeyRef (ku_Manufacturer puri) keyURI EmptyString)
    end
  else if negb (bool_decide (keyPEM = EmptyString)) then
    guard (k_softwareKeys k) ErrSoftwareKeysDisabled ;;;
    let! signer := lift_result (signerFromPEM keyPEM) in
    let! protected := ProtectKey k keyPEM in
    ret (signer, mkKeyRef SoftwareKeyProvider keyLabel protected)
  else fail (OtherError "key is required").

Definition ImportKey (k : Keys) (keyURI keyPEM keyLabel : string)
    (pub : option public_t) : M world (signer_t * KeyRef) :=
  let! res := importedKey k keyURI keyPEM keyLabel in
  guard (PublicKeysEqual (Public res.1) pub)
    (OtherError "key does not match the certificate") ;;;
  ret res.

Definition Destroy (k : Keys) (m : Issuer) : M world unit :=
  let id := id_string (i_ID m) in
  if negb (IsKeyURI (i_KeyID m)) then ret tt
  else
  let! puri := lift_result (with_message_r
    ("invalid key URI of issuer " ++ id) (ParsePrivateKeyURI (i_KeyID m))) in
  match k_crypto k with
  | None => fail (OtherError "crypto providers are not configured")
  | Some crypto =>
      let! prov := lift_result (with_message_r
        ("key provider of issuer " ++ id)
        (ByManufacturer crypto (ku_Manufacturer puri) (ku_Model puri))) in
      guard (IsKeyManager prov) (OtherError
        ("key provider " ++ Manufacturer prov ++ " does not manage keys")) ;;;
      with_message_m ("unable to destroy key of issuer " ++ id)
        (DestroyKeyPairOnSlot prov (ku_ID puri))
  end.
End keys.

(** ** What is stored *)

Section facts.
Context `{Xdb, KeyLaws}.

Lemma with_message_ok {S A} msg (m : M S A) s a s' :
  with_message_m msg m s = (Ok a, s') <-> m s = (Ok a, s').
Proof.
  unfold with_message_m, catch, lift_result, with_message_r.
  destruct (m s) as [[x|e] s1]; naive_solver.
Qed.

Lemma with_message_r_ok {A} msg (r : result A) a :
  with_message_r msg r = Ok a <-> r = Ok a.
Proof. destruct r; simpl; naive_solver. Qed.

(** The reference of the key with the material [pem]: a URI in a provider
    and nothing else, or the label and the wrapped material. *)
Definition refers_to (k : Keys) (keyLabel pem : string) (ref : KeyRef) : Prop :=
  (IsKeyURI (kr_KeyID ref) = true /\ kr_Protected ref = EmptyString) \/
  (k_softwareKeys k = true /\ kr_Provider ref = SoftwareKeyProvider /\
   kr_KeyID ref = keyLabel /\ kr_Protected ref <> EmptyString /\
   exists dp raw, k_dp k = Some dp /\
     DecodeString (kr_Protected ref) = Some raw /\ Unprotect dp raw = Ok pem).

Lemma EncodeToString_nonempty s : s <> EmptyString -> EncodeToString s <> EmptyString.
Proof. by destruct s as [|a [|b [|c r]]]. Qed.

Lemma ProtectKey_ok k pem w p w' :
  ProtectKey k pem w = (Ok p, w') ->
  p <> EmptyString /\ exists dp raw, k_dp k = Some dp /\
    DecodeString p = Some raw /\ Unprotect dp raw = Ok pem.
Proof.
  unfold ProtectKey. destruct (k_dp k) as [dp|]; [|done]. intros Hr.
  ok_step Hr. rename select (with_message_m _ _ _ = _) into Hp.
  apply with_message_ok in Hp. split.
  - apply EncodeToString_nonempty. by eapply Protect_nonempty.
  - exists dp, a. rewrite DecodeString_EncodeToString.
    split_and!; [done..|]. by eapply Unprotect_Protect.
Qed.

Lemma KeyRefFromExport_refers k prov label exported w ref w' :
  KeyRefFromExport k prov label exported w = (Ok ref, w') ->
  refers_to k label (TrimSpace exported) ref.
Proof.
  unfold KeyRefFromExport. intros Hr. ok_step Hr.
  destruct (IsKeyURI (TrimSpace exported)) eqn:Eu; ok_step Hr; [by left|].
  right. rename select (ProtectKey _ _ _ = _) into Hp.
  by apply ProtectKey_ok in Hp as [? ?].
Qed.

(** The key columns of the row hold the exported key: its URI as it is, or
    its material wrapped. *)
Definition holds_key (k : Keys) (prov : provider_t) (keyLabel exported : string)
    (m : Issuer) : Prop :=
  let key := TrimSpace exported in
  if IsKeyURI key
  then i_KeyProvider m = Manufacturer prov /\ i_KeyID m = key /\
       i_KeyProtected m = EmptyString
  else k_softwareKeys k = true /\ i_KeyProvider m = SoftwareKeyProvider /\
       i_KeyID m = keyLabel /\ i_KeyProtected m <> EmptyString /\
       exists dp raw, k_dp k = Some dp /\ DecodeString (i_KeyProtected m) = Some raw /\
         Unprotect dp raw = Ok key.

Lemma KeyRefFromExport_holds k prov label exported w ref w' m :
  KeyRefFromExport k prov label exported w = (Ok ref, w') ->
  holds_key k prov label exported (KeyRef_Apply ref m).
Proof.
  unfold KeyRefFromExport, holds_key. intros Hr. ok_step Hr.
  destruct (IsKeyURI (TrimSpace exported)) eqn:Eu; ok_step Hr; [done|].
  rename select (ProtectKey _ _ _ = _) into Hp. by apply ProtectKey_ok in Hp as [? ?].
Qed.

(** The row of an exported key loads that key. *)
Lemma Signer_of_held k prov label exported m pub w sg w' :
  holds_key k prov label exported m -> key_is exported pub ->
  Signer k m w = (Ok sg, w') -> Public sg = pub.
Proof.
  unfold holds_key, key_is, Signer. destruct (IsKeyURI (TrimSpace exported)) eqn:Eu.
  - intros (_ & -> & ->) Hk E. simpl in E. rewrite Eu in E.
    destruct (k_crypto k) as [crypto|]; [|done]. apply with_message_ok in E. by eapply Hk.
  - intros (_ & _ & _ & Hne & dp & raw & -> & -> & Hu) Hk E.
    rewrite bool_decide_false, Hu in E by done. simpl in E.
    unfold bind, lift_result in E. simpl in E. injection E as E _. by apply Hk.
Qed.

Lemma importedKey_refers k uri pem label w signer ref w' :
  importedKey k uri pem label w = (Ok (signer, ref), w') ->
  refers_to k label pem ref /\
  (kr_Protected ref <> EmptyString -> signerFromPEM pem = Ok signer) /\
  (kr_Protected ref = EmptyString -> exists crypto w1,
     k_crypto k = Some crypto /\
     NewSignerFromPEM crypto (kr_KeyID ref) w = (Ok signer, w1)).
Proof.
  unfold importedKey. intros Hr. destruct (negb _) eqn:E1.
  - ok_step Hr. destruct (k_crypto k) as [crypto|] eqn:Ec; [|done].
    ok_step Hr. rename select (with_message_m _ _ _ = _) into Hs.
    apply with_message_ok in Hs. simpl.
    split_and!; [by left|done|]. intros _. eauto.
  - destruct (negb (bool_decide (pem = _))) eqn:E2; [|done]. ok_step Hr.
    rename select (ProtectKey _ _ _ = _) into Hp.
    apply ProtectKey_ok in Hp as [Hp1 Hp2]. simpl.
    split_and!; [by right; split_and!|done|done].
Qed.

(** The key columns never hold plain key material.  The reference of a
    generated or imported key is the URI of a key a provider holds, with
    nothing wrapped, or the label of the key and its material wrapped by the
    data protection provider; when software keys are disabled it is always a
    provider URI, and an import of key material fails. *)
Theorem stored_keys_protected (k : Keys) (prov : provider_t)
    (keyLabel uri pem : string) (spec : option (string * Z)) (req : csr_t)
    (pub : option public_t) (w : world) :
  (forall csrPEM signer ref w',
     Generate k prov keyLabel spec req w = (Ok (csrPEM, signer, ref), w') ->
     (exists material, refers_to k keyLabel material ref) /\
     (k_softwareKeys k = false ->
        IsKeyURI (kr_KeyID ref) = true /\ kr_Protected ref = EmptyString)) /\
  (forall signer ref w',
     ImportKey k uri pem keyLabel pub w = (Ok (signer, ref), w') ->
     refers_to k keyLabel pem ref /\
     (k_softwareKeys k = false ->
        uri <> EmptyString /\
        IsKeyURI (kr_KeyID ref) = true /\ kr_Protected ref = EmptyString)).
Proof.
  split.
  - intros csrPEM signer ref w' Hr. unfold Generate in Hr. ok_step Hr.
    destruct a0 as [[c [sg|]] kid]; [|done]. ok_step Hr.
    rename select (KeyRefFromExport _ _ _ _ _ = _) into Hk.
    apply KeyRefFromExport_refers in Hk. split; [by eexists|].
    intros Hoff. destruct Hk as [Hk|(Hon & _)]; [done|congruence].
  - intros signer ref w' Hr. unfold ImportKey in Hr. ok_step Hr.
    subst. rename select (importedKey _ _ _ _ _ = _) into Hi.
    pose proof (importedKey_refers _ _ _ _ _ _ _ _ Hi) as (Hk & _).
    split; [done|]. intros Hoff.
    destruct Hk as [Hk|(Hon & _)]; [|congruence]. split; [|done].
    intros ->. unfold importedKey in Hi. simpl in Hi.
    destruct (negb _); [|done]. ok_step Hi. congruence.
Qed.

(** A stored key is the key that was imported.  After an import the row
    with the key columns loads the same signer again, in every later state
    of the providers for a wrapped key and through the same provider URI
    otherwise, and its public key is the one of the certificate. *)
Theorem imported_key_loads (k : Keys) (uri pem keyLabel : string)
    (pub : option public_t) (w w' : world) (signer : signer_t) (ref : KeyRef)
    (Himport : ImportKey k uri pem keyLabel pub w = (Ok (signer, ref), w')) :
  PublicKeysEqual (Public signer) pub = true /\
  forall m,
    (kr_Protected ref <> EmptyString /\
     forall w1, Signer k (KeyRef_Apply ref m) w1 = (Ok signer, w1)) \/
    (exists crypto w1, k_crypto k = Some crypto /\
     NewSignerFromPEM crypto (kr_KeyID ref) w = (Ok signer, w1) /\
     Signer k (KeyRef_Apply ref m) w = (Ok signer, w1)).
Proof.
  unfold ImportKey in Himport. ok_step Himport. subst.
  rename select (importedKey _ _ _ _ _ = _) into Hi.
  split; [done|]. intros m.
  apply importedKey_refers in Hi as (Hk & Hpem & Huri).
  destruct (decide (kr_Protected ref = EmptyString)) as [Hn|Hn].
  - right. destruct (Huri Hn) as (crypto & w1 & Hc & Hs).
    exists crypto, w1. split_and!; [done..|].
    destruct Hk as [[Hu _]|(_ & _ & _ & Hne & _)]; [|done].
    unfold Signer. simpl. rewrite bool_decide_true by done. simpl.
    rewrite Hu, Hc. by apply with_message_ok.
  - left. split; [done|]. intros w1.
    destruct Hk as [[_ He]|(_ & _ & _ & _ & dp & raw & Hdp & Hd & Hun)]; [done|].
    unfold Signer. simpl. rewrite bool_decide_false by done. simpl.
    rewrite Hdp, Hd, Hun. simpl. unfold bind, lift_result. simpl.
    by rewrite Hpem.
Qed.
End facts.

(** ** Concrete providers *)

(** A signer is its PEM, and a generated key is always the same; wrapping
    prepends a byte. *)
Definition example_keylib : KeyLib := {|
  world := list string; crypto_t := unit; provider_t := string; dp_t := unit;
  signer_t := string; public_t := string; csr_t := string;
  Default _ := Some "hsm"%string;
  ByManufacturer _ m _ := Ok m;
  Manufacturer p := p; ProviderModel _ := EmptyString;
  NewSignerFromPEM _ uri := fun w =>
    (if bool_decide (uri ∈ w) then Ok uri
     else Err (OtherError "key not found"), w);
  ParsePrivateKeyPEM pem := Ok (Some pem);
  ParsePrivateKeyURI uri := Ok (mkKeyURI "hsm" "" uri);
  Protect _ k := ret ("w" ++ k)%string;
  Unprotect _ p := match CutPrefix p "w" with
                   | Some k => Ok k
                   | None => Err (OtherError "malformed")
                   end;
  Public s := s; Public_Equal a b := bool_decide (a = b);
  GenerateKeyAndRequest p label algo size req := fun w =>
    (Ok ("pkcs11:k", Some "pkcs11:k", "pkcs11:k"), "pkcs11:k" :: w)%string;
  ExportKey _ id := ret (id, EmptyString);
  IsKeyManager _ := true;
  DestroyKeyPairOnSlot _ id := fun w =>
    (Ok tt, List.filter (fun x => negb (bool_decide (x = id))) w) |}.

Definition example_keylib_laws : @KeyLaws example_keylib.
Proof.
  split; intros dp k w p w'; simpl; intros [= <- <-]; [done|].
  by destruct k.
Defined.

Definition example_keys (software : bool) : @Keys example_keylib :=
  @mkKeys example_keylib (Some tt) (Some tt) software.

(** A key generated in a provider is stored as its URI. *)
Lemma stored_keys_protected_witness :
  IsKeyURI "pkcs11:k" = true /\ EmptyString = EmptyString.
Proof.
  apply (proj1 (@stored_keys_protected example_keylib
    example_keylib_laws (example_keys false) "hsm"%string "k" "" ""
    None "csr"%string None []) "pkcs11:k"%string "pkcs11:k"%string
    (mkKeyRef "hsm" "pkcs11:k" "") ["pkcs11:k"%string]); reflexivity.
Defined.

(** A PEM key is wrapped and loads again. *)
Lemma imported_key_loads_witness :
  @PublicKeysEqual example_keylib "pem"%string (Some "pem"%string) = true.
Proof.
  apply (@imported_key_loads xdb_binary example_keylib example_keylib_laws
    (example_keys true) "" "pem" "label" (Some "pem"%string) [] []
    "pem"%string (mkKeyRef "inmem" "label" (EncodeToString "wpem"))).
  vm_compute. reflexivity.
Defined.
