(* ===== verification/Pbconv.v ===== *)
(** Conversions of the issuer settings and profiles: [internal/ca/pbconv]
    ([config.go], [profile.go]) and the profile row of
    [internal/db/model/profile.go].

    A message of the API, as a row stores it, is converted to the structure
    the authority library signs with and back.  Durations and object
    identifiers are parsed and printed by libraries: [PbLib] is what the
    code calls, [PbLaws] that what they print they parse. *)
From Stdlib Require Import ZArith Lia Ascii.
From stdpp Require Import base list gmap strings.
From S2P Require Import Prelude GoStrings Xdb Tenancy Model.

(** ** Messages of the API; a nil pointer is [None] *)

Record CAConstraint := mkCAConstraint { cc_IsCA : bool; cc_MaxPathLen : Z }.
Record CSRAllowedFields := mkAllowedFields {
  af_Subject : bool; af_Dns : bool; af_Ip : bool; af_Email : bool;
  af_Uri : bool }.
Record PolicyQualifier := mkQualifier { pq_Type : string; pq_Value : string }.
Record CertificatePolicy_pb := mkPolicyPb {
  po_ID : string; po_Qualifiers : list (option PolicyQualifier) }.
Record X509Extension_pb := mkExtensionPb {
  ex_ID : string; ex_Critical : bool; ex_Value : string }.

#[global] Instance CAConstraint_eq_dec : EqDecision CAConstraint.
Proof. solve_decision. Defined.
#[global] Instance CSRAllowedFields_eq_dec : EqDecision CSRAllowedFields.
Proof. solve_decision. Defined.
#[global] Instance PolicyQualifier_eq_dec : EqDecision PolicyQualifier.
Proof. solve_decision. Defined.
#[global] Instance CertificatePolicy_pb_eq_dec : EqDecision CertificatePolicy_pb.
Proof. solve_decision. Defined.
#[global] Instance X509Extension_pb_eq_dec : EqDecision X509Extension_pb.
Proof. solve_decision. Defined.

Record CertProfile_pb := mkCertProfilePb {
  cp_ID : string; cp_OrgID : string; cp_ProjectID : string;
  cp_Label : string; cp_IssuerLabel : string; cp_Description : string;
  cp_Usages : list string; cp_CAConstraint : option CAConstraint;
  cp_OcspNoCheck : bool; cp_Expiry : string; cp_Backdate : string;
  cp_Extensions : list (option X509Extension_pb);
  cp_AllowedExtensions : list string; cp_AllowedNames : string;
  cp_AllowedDns : string; cp_AllowedEmail : string; cp_AllowedUri : string;
  cp_AllowedFields : option CSRAllowedFields;
  cp_Policies : list (option CertificatePolicy_pb);
  cp_PoliciesCritical : bool; cp_AllowedRoles : list string;
  cp_DeniedRoles : list string; cp_Status : ItemStatus_Enum;
  cp_CreatedAt : string; cp_UpdatedAt : string }.

(** ** Structures of the authority library *)

(** Durations are nanoseconds; an object identifier is an abstract value. *)
Class PbLib := {
  oid_t : Type;
  ParseObjectIdentifier : string -> option oid_t;
  OID_String : oid_t -> string;
  (** [time.ParseDuration]; [None] is an error *)
  ParseDuration : string -> option Z;
  Duration_String : Z -> string }.

(** What is printed is parsed back, and is not empty. *)
Class PbLaws `{PbLib} := {
  ParseObjectIdentifier_String o : ParseObjectIdentifier (OID_String o) = Some o;
  ParseDuration_String d : ParseDuration (Duration_String d) = Some d;
  Duration_String_nonempty d : Duration_String d <> EmptyString }.

Section structs.
Context `{PbLib}.

Record X509Extension := mkExtension {
  xe_ID : oid_t; xe_Critical : bool; xe_Value : string }.
Record CertificatePolicy := mkPolicy {
  cy_ID : oid_t; cy_Qualifiers : list PolicyQualifier }.

Record CertProfile := mkCertProfile {
  ap_IssuerLabel : string; ap_Description : string; ap_Usage : list string;
  ap_CAConstraint : CAConstraint; ap_OCSPNoCheck : bool; ap_Expiry : Z;
  ap_Backdate : Z; ap_Extensions : list X509Extension;
  ap_AllowedExtensions : list oid_t; ap_AllowedNames : string;
  ap_AllowedDNS : string; ap_AllowedEmail : string; ap_AllowedURI : string;
  ap_AllowedCSRFields : option CSRAllowedFields;
  ap_Policies : list CertificatePolicy; ap_PoliciesCritical : bool;
  ap_AllowedRoles : list string; ap_DeniedRoles : list string }.

Record AIAConfig := mkAIA {
  aia_AiaURL : string; aia_OcspURL : string; aia_CrlURL : string;
  aia_CRLExpiry : Z; aia_OCSPExpiry : Z; aia_CRLRenewal : Z;
  aia_DelegatedOCSPProfile : string }.

Record AuthIssuerConfig := mkAuthConfig {
  ac_Label : string; ac_AIA : option AIAConfig;
  ac_Profiles : gmap string CertProfile; ac_AllowedProfiles : list string;
  ac_OmitDisabledExtensions : bool }.
End structs.

Section conversions.
Context `{PbLib}.

(** [authority.CertProfile.Validate]; [None] is accepted. *)
Context (Validate : CertProfile -> option error).

Definition parseDuration (val what : string) : result Z :=
  if bool_decide (val = EmptyString) then Ok 0%Z
  else match ParseDuration val with
  | Some d => Ok d
  | None => Err (OtherError ("invalid " ++ what ++ ": " ++ val ++
                             " is not a duration"))
  end.

Definition formatDuration (d : Z) : string :=
  if (d =? 0)%Z then EmptyString else Duration_String d.

Definition emptyAIA : AIAConfig := mkAIA "" "" "" 0 0 0 "".

Definition IssuerConfigFromPb (label : string) (c : option IssuerConfig)
  : result AuthIssuerConfig :=
  match c with
  | None => Ok (mkAuthConfig label (Some emptyAIA) ∅ [] false)
  | Some c =>
      let? crlExpiry := parseDuration (ic_CrlExpiry c) "CrlExpiry" in
      let? crlRenewal := parseDuration (ic_CrlRenewal c) "CrlRenewal" in
      let? ocspExpiry := parseDuration (ic_OcspExpiry c) "OcspExpiry" in
      Ok (mkAuthConfig label
            (Some (mkAIA (ic_AiaURL c) (ic_OcspURL c) (ic_CrlURL c) crlExpiry
                     ocspExpiry crlRenewal (ic_DelegatedOcspProfile c)))
            ∅ (ic_AllowedProfiles c) (ic_OmitDisabledExtensions c))
  end.

Definition IssuerConfigToPb (c : AuthIssuerConfig) : IssuerConfig :=
  match ac_AIA c with
  | None => mkIssuerConfig "" "" "" "" "" "" "" (ac_AllowedProfiles c)
              (ac_OmitDisabledExtensions c)
  | Some a =>
      mkIssuerConfig (aia_AiaURL a) (aia_OcspURL a) (aia_CrlURL a)
        (formatDuration (aia_CRLExpiry a)) (formatDuration (aia_CRLRenewal a))
        (formatDuration (aia_OCSPExpiry a)) (aia_DelegatedOCSPProfile a)
        (ac_AllowedProfiles c) (ac_OmitDisabledExtensions c)
  end.

Fixpoint ExtensionsFromPb (l : list (option X509Extension_pb))
  : result (list X509Extension) :=
  match l with
  | [] => Ok []
  | None :: rest => ExtensionsFromPb rest
  | Some ex :: rest =>
      match ParseObjectIdentifier (ex_ID ex) with
      | None => Err (OtherError ("invalid extension OID: " ++ ex_ID ex))
      | Some oid =>
          let? res := ExtensionsFromPb rest in
          Ok (mkExtension oid (ex_Critical ex) (ex_Value ex) :: res)
      end
  end.

Definition ExtensionsToPb (l : list X509Extension)
  : list (option X509Extension_pb) :=
  (fun ex => Some (mkExtensionPb (OID_String (xe_ID ex)) (xe_Critical ex)
                     (xe_Value ex))) <$> l.

(** The loops of [ProfileFromPb] over the allowed extensions and over the
    policies and their qualifiers. *)
Fixpoint allowedExtensionsFromPb (l : list string) : result (list oid_t) :=
  match l with
  | [] => Ok []
  | val :: rest =>
      match ParseObjectIdentifier val with
      | None => Err (OtherError ("invalid AllowedExtensions OID: " ++ val))
      | Some oid =>
          let? res := allowedExtensionsFromPb rest in Ok (oid :: res)
      end
  end.

Fixpoint policiesFromPb (l : list (option CertificatePolicy_pb))
  : result (list CertificatePolicy) :=
  match l with
  | [] => Ok []
  | None :: rest => policiesFromPb rest
  | Some policy :: rest =>
      match ParseObjectIdentifier (po_ID policy) with
      | None => Err (OtherError ("invalid Policies OID: " ++ po_ID policy))
      | Some oid =>
          let? res := policiesFromPb rest in
          Ok (mkPolicy oid (omap id (po_Qualifiers policy)) :: res)
      end
  end.

(** The conversion without the final validation. *)
Definition convertProfile (p : CertProfile_pb) : result CertProfile :=
  let? expiry := parseDuration (cp_Expiry p) "Expiry" in
  let? backdate := parseDuration (cp_Backdate p) "Backdate" in
  let? extensions := ExtensionsFromPb (cp_Extensions p) in
  let? allowed := allowedExtensionsFromPb (cp_AllowedExtensions p) in
  let? policies := policiesFromPb (cp_Policies p) in
  Ok (mkCertProfile (cp_IssuerLabel p) (cp_Description p) (cp_Usages p)
        (default (mkCAConstraint false 0) (cp_CAConstraint p))
        (cp_OcspNoCheck p) expiry backdate extensions allowed
        (cp_AllowedNames p) (cp_AllowedDns p) (cp_AllowedEmail p)
        (cp_AllowedUri p) (cp_AllowedFields p) policies
        (cp_PoliciesCritical p) (cp_AllowedRoles p) (cp_DeniedRoles p)).

Definition ProfileFromPb (p : option CertProfile_pb) : result CertProfile :=
  match p with
  | None => Err (OtherError "invalid profile: required")
  | Some p =>
      let? res := convertProfile p in
      match Validate res with
      | Some e => Err (WithMessage e "invalid profile")
      | None => Ok res
      end
  end.

(** The conversion [int32(x)]. *)
Definition int32 (n : Z) : Z :=
  ((n + 2147483648) mod 4294967296 - 2147483648)%Z.

Definition ProfileToPb (label : string) (p : CertProfile) : CertProfile_pb :=
  mkCertProfilePb "" "" "" label (ap_IssuerLabel p) (ap_Description p)
    (ap_Usage p)
    (if cc_IsCA (ap_CAConstraint p) ||
        negb (cc_MaxPathLen (ap_CAConstraint p) =? 0)%Z
     then Some (mkCAConstraint (cc_IsCA (ap_CAConstraint p))
                  (int32 (cc_MaxPathLen (ap_CAConstraint p))))
     else None)
    (ap_OCSPNoCheck p) (formatDuration (ap_Expiry p))
    (formatDuration (ap_Backdate p)) (ExtensionsToPb (ap_Extensions p))
    (OID_String <$> ap_AllowedExtensions p) (ap_AllowedNames p)
    (ap_AllowedDNS p) (ap_AllowedEmail p) (ap_AllowedURI p)
    (ap_AllowedCSRFields p)
    ((fun c => Some (mkPolicyPb (OID_String (cy_ID c))
                       (Some <$> cy_Qualifiers c))) <$> ap_Policies p)
    (ap_PoliciesCritical p) (ap_AllowedRoles p) (ap_DeniedRoles p)
    ItemStatus_Unknown "" "".
End conversions.

(** ** The profile row *)

Definition AnyIssuerLabel : string := "*".

(** The JSON of a profile definition, and the text of a time. *)
Class ProfileCodec := {
  marshal_CertProfile : CertProfile_pb -> result string;
  unmarshal_CertProfile : string -> option CertProfile_pb;
  Time_String : Z -> string }.

Definition emptyCertProfile : CertProfile_pb :=
  mkCertProfilePb "" "" "" "" "" "" [] None false "" "" [] [] "" "" "" ""
    None [] false [] [] ItemStatus_Unknown "" "".

(** The definition with its identity replaced. *)
Definition with_identity (id orgID projectID label issuerLabel : string)
    (st : ItemStatus_Enum) (createdAt updatedAt : string)
    (p : CertProfile_pb) : CertProfile_pb :=
  mkCertProfilePb id orgID projectID label issuerLabel (cp_Description p)
    (cp_Usages p) (cp_CAConstraint p) (cp_OcspNoCheck p) (cp_Expiry p)
    (cp_Backdate p) (cp_Extensions p) (cp_AllowedExtensions p)
    (cp_AllowedNames p) (cp_AllowedDns p) (cp_AllowedEmail p)
    (cp_AllowedUri p) (cp_AllowedFields p) (cp_Policies p)
    (cp_PoliciesCritical p) (cp_AllowedRoles p) (cp_DeniedRoles p) st
    createdAt updatedAt.

Section row.
Context `{Xdb, ProfileCodec}.

(** The config of the row: the definition without its identity. *)
Definition CertificateProfile_SetConfig (p : option CertProfile_pb)
  : result string :=
  match p with
  | None => Err (OtherError "invalid profile: required")
  | Some p => marshal_CertProfile
                (with_identity "" "" "" "" "" ItemStatus_Unknown "" "" p)
  end.

Definition NewCertificateProfile (orgID projectID : Z)
    (p : option CertProfile_pb) : result CertificateProfile :=
  match p with
  | None => Err (OtherError "invalid profile: required")
  | Some d =>
      let? cfg := CertificateProfile_SetConfig p in
      Ok (mkProfile 0 orgID projectID (cp_Label d) (cp_IssuerLabel d)
            (if bool_decide (cp_Status d = ItemStatus_Unknown)
             then ItemStatus_Active else cp_Status d)
            cfg 0 0)
  end.

Definition Definition_ (m : CertificateProfile) : result CertProfile_pb :=
  let? p := (if JSON_IsEmpty (p_Config m) then Ok emptyCertProfile
             else match unmarshal_CertProfile (p_Config m) with
             | Some p => Ok p
             | None => Err (WithMessage
                 (OtherError "unable to unmarshal JSON value")
                 ("invalid config of profile " ++ id_string (p_ID m)))
             end) in
  Ok (with_identity (cp_ID p) (cp_OrgID p) (cp_ProjectID p) (p_Label m)
        (p_IssuerLabel m) (p_Status m) (Time_String (p_CreatedAt m))
        (Time_String (p_UpdatedAt m)) p).

Definition CertificateProfile_Pb (m : CertificateProfile)
  : result CertProfile_pb :=
  let? p := Definition_ m in
  Ok (with_identity (id_string (p_ID m)) (id_string (p_OrgID m))
        (id_string (p_ProjectID m)) (cp_Label p) (cp_IssuerLabel p)
        (cp_Status p) (cp_CreatedAt p) (cp_UpdatedAt p) p).
End row.

(** ** Round trips *)

(** A document of the codec is read back; an empty one is the zero
    definition. *)
Class ProfileCodecLaws `{ProfileCodec} := {
  unmarshal_marshal p j :
    marshal_CertProfile p = Ok j -> unmarshal_CertProfile j = Some p;
  marshal_empty p j :
    marshal_CertProfile p = Ok j -> JSON_IsEmpty j = true ->
    p = emptyCertProfile }.

Section round_trips.
Context `{PbLaws}.

Lemma parse_formatDuration d what :
  parseDuration (formatDuration d) what = Ok d.
Proof.
  unfold parseDuration, formatDuration. destruct (Z.eqb_spec d 0) as [->|]; [done|].
  rewrite bool_decide_false by apply Duration_String_nonempty.
  by rewrite ParseDuration_String.
Qed.

Lemma Extensions_roundtrip l : ExtensionsFromPb (ExtensionsToPb l) = Ok l.
Proof.
  induction l as [|[o c v] l IH]; [done|]. simpl.
  rewrite ParseObjectIdentifier_String.
  change (ExtensionsToPb _) with (ExtensionsToPb l). by rewrite IH.
Qed.

Lemma allowedExtensions_roundtrip l :
  allowedExtensionsFromPb (OID_String <$> l) = Ok l.
Proof.
  induction l as [|o l IH]; [done|]. rewrite fmap_cons. simpl.
  by rewrite ParseObjectIdentifier_String, IH.
Qed.

Lemma omap_id_Some {A} (l : list A) : omap id (Some <$> l) = l.
Proof. induction l as [|a l IH]; [done|]. simpl. by f_equal. Qed.

Lemma policies_roundtrip l :
  policiesFromPb ((fun c => Some (mkPolicyPb (OID_String (cy_ID c))
    (Some <$> cy_Qualifiers c))) <$> l) = Ok l.
Proof.
  induction l as [|[o q] l IH]; [done|]. rewrite fmap_cons. simpl.
  by rewrite ParseObjectIdentifier_String, IH, omap_id_Some.
Qed.

Lemma int32_small n :
  (-2147483648 <= n < 2147483648)%Z -> int32 n = n.
Proof. intros Hn. unfold int32. rewrite Z.mod_small by lia. lia. Qed.

Lemma CAConstraint_roundtrip c :
  (-2147483648 <= cc_MaxPathLen c < 2147483648)%Z ->
  default (mkCAConstraint false 0)
    (if cc_IsCA c || negb (cc_MaxPathLen c =? 0)%Z
     then Some (mkCAConstraint (cc_IsCA c) (int32 (cc_MaxPathLen c)))
     else None) = c.
Proof.
  destruct c as [ca len]; simpl. intros Hn. rewrite int32_small by done.
  destruct ca; [done|]. by destruct (Z.eqb_spec len 0) as [->|].
Qed.

(** Settings survive their storage.  A profile the authority accepts is
    converted to its definition and back without change, for every path
    length of an int32, and the settings of an issuer with an AIA section
    are converted to the message and back without change. *)
Theorem settings_roundtrip (Validate : CertProfile -> option error)
    (label : string) (p : CertProfile) (c : AuthIssuerConfig) :
  Validate p = None ->
  (-2147483648 <= cc_MaxPathLen (ap_CAConstraint p) < 2147483648)%Z ->
  ac_AIA c <> None -> ac_Profiles c = ∅ ->
  ProfileFromPb Validate (Some (ProfileToPb label p)) = Ok p /\
  IssuerConfigFromPb (ac_Label c) (Some (IssuerConfigToPb c)) = Ok c.
Proof.
  intros Hv Hlen Haia Hprof. split.
  - unfold ProfileFromPb, convertProfile, ProfileToPb.
    cbn [cp_Expiry cp_Backdate cp_Extensions cp_AllowedExtensions cp_Policies].
    rewrite !parse_formatDuration. simpl.
    rewrite Extensions_roundtrip, allowedExtensions_roundtrip,
      policies_roundtrip. simpl.
    rewrite CAConstraint_roundtrip by done. destruct p; simpl in *.
    by rewrite Hv.
  - destruct c as [l [[a1 a2 a3 e1 e2 e3 d]|] pr al om]; [|done].
    simpl in *. unfold IssuerConfigFromPb, IssuerConfigToPb.
    cbn [ac_AIA ic_CrlExpiry ic_CrlRenewal ic_OcspExpiry aia_CRLExpiry
         aia_CRLRenewal aia_OCSPExpiry].
    rewrite !parse_formatDuration. simpl. by subst.
Qed.

(** A profile row is its definition under the identity of the row.
    Reading a new row gives the definition it was built from, with the
    labels of the definition, its status (Active when unset) and the IDs and
    times of the row: none of them comes from the stored document. *)
Theorem profile_row_roundtrip `{Xdb, ProfileCodecLaws}
    (orgID projectID : Z) (d : CertProfile_pb) (m : CertificateProfile)
    (Hnew : NewCertificateProfile orgID projectID (Some d) = Ok m) :
  CertificateProfile_Pb m = Ok (with_identity (id_string 0) (id_string orgID)
    (id_string projectID) (cp_Label d) (cp_IssuerLabel d)
    (if bool_decide (cp_Status d = ItemStatus_Unknown)
     then ItemStatus_Active else cp_Status d)
    (Time_String 0) (Time_String 0) d).
Proof.
  unfold NewCertificateProfile, CertificateProfile_SetConfig in Hnew.
  set (stored := with_identity "" "" "" "" "" ItemStatus_Unknown "" "" d) in Hnew.
  destruct (marshal_CertProfile stored) as [j|] eqn:Ej; [|done].
  simpl in Hnew. injection Hnew as <-.
  unfold CertificateProfile_Pb, Definition_. simpl.
  destruct (JSON_IsEmpty j) eqn:Ee.
  - pose proof (marshal_empty _ _ Ej Ee) as He. unfold stored in He.
    destruct d; unfold with_identity, emptyCertProfile in *; simpl in *.
    clear stored Ej. injection He as -> -> -> -> -> -> -> -> -> -> -> -> -> -> -> -> ->.
    reflexivity.
  - by rewrite (unmarshal_marshal _ _ Ej).
Qed.
End round_trips.

(** ** Concrete codecs *)

Definition example_pblib : PbLib := {|
  oid_t := string; ParseObjectIdentifier := Some; OID_String := id;
  ParseDuration s := match s with
                     | String _ s => p ← str_pos s; decode p
                     | EmptyString => None
                     end;
  Duration_String d := String "d"%char (pos_str (encode d)) |}.

Definition example_pblaws : @PbLaws example_pblib.
Proof.
  split; simpl; [done| |done]. intros d. rewrite str_pos_str. simpl.
  by rewrite decode_encode.
Defined.

(** Every stored document is that of one definition. *)
Definition example_definition : CertProfile_pb :=
  mkCertProfilePb "" "" "" "server" "*" "" ["server auth"%string] None false
    "168h" "" [] [] "" "" "" "" None [] false [] [] ItemStatus_Unknown "" "".

Definition example_stored : CertProfile_pb :=
  with_identity "" "" "" "" "" ItemStatus_Unknown "" "" example_definition.

#[global] Instance CertProfile_pb_eq_dec : EqDecision CertProfile_pb.
Proof. solve_decision. Defined.

Definition example_profile_codec : ProfileCodec := {|
  marshal_CertProfile p :=
    if decide (p = example_stored) then Ok "{...}"%string
    else Err (OtherError "unknown");
  unmarshal_CertProfile _ := Some example_stored;
  Time_String _ := EmptyString |}.

Definition example_profile_codec_laws :
  @ProfileCodecLaws example_profile_codec.
Proof.
  split; intros p j; simpl; destruct (decide _) as [->|]; try done.
  intros [= <-]. done.
Defined.

Definition example_auth_profile : @CertProfile example_pblib :=
  @mkCertProfile example_pblib "*" "" ["server auth"%string]
    (mkCAConstraint true (-1)) false 604800000000000 0 [] ["2.5.29.17"%string]
    "" "" "" "" None [] false [] [].

Lemma settings_roundtrip_witness :
  @ProfileFromPb example_pblib (fun _ => None)
    (Some (@ProfileToPb example_pblib "server" example_auth_profile))
  = Ok example_auth_profile.
Proof.
  apply (@settings_roundtrip example_pblib example_pblaws (fun _ => None)
    "server" example_auth_profile
    (mkAuthConfig "ca" (Some emptyAIA) ∅ [] false)); [done| |done|done].
  simpl. lia.
Defined.

Lemma profile_row_roundtrip_witness :
  @CertificateProfile_Pb xdb_binary example_profile_codec
    (mkProfile 0 7 0 "server" "*" ItemStatus_Active "{...}" 0 0)
  = Ok (with_identity (id_string 0) (id_string 7) (id_string 0) "server" "*"
          ItemStatus_Active "" "" example_definition).
Proof.
  apply (@profile_row_roundtrip xdb_binary example_profile_codec
    example_profile_codec_laws 7 0 example_definition). reflexivity.
Defined.
