(* ===== verification/Lru.v ===== *)
(** The expirable LRU cache of [hashicorp/golang-lru], which the registry
    keeps its issuers and resolutions in.  The library is a class: [LRU] is
    what the code calls, [LRULaws] what it promises.  A value may disappear
    at any time (an eviction), never change, never outlive its TTL and never
    survive a removal.  [lru_map] is an instance. *)
From Stdlib Require Import ZArith Lia.
From stdpp Require Import base list.
From S2P Require Import Prelude.
Local Open Scope Z_scope.

(** Times and TTLs are milliseconds. [lru_Get] is the value a lookup
    returns, [lru_touch] the cache after it: a lookup renews the recency of
    the entry. *)
Class LRU := {
  lru : Type -> Type -> Type;
  NewLRU {K V} : Z -> Z -> lru K V;
  lru_TTL {K V} : lru K V -> Z;
  lru_Get {K V} `{EqDecision K} : Z -> lru K V -> K -> option V;
  lru_touch {K V} `{EqDecision K} : Z -> lru K V -> K -> lru K V;
  lru_Add {K V} `{EqDecision K} : Z -> lru K V -> K -> V -> lru K V;
  lru_Remove {K V} `{EqDecision K} : lru K V -> K -> lru K V;
  lru_Keys {K V} : Z -> lru K V -> list K;
  lru_Values {K V} `{EqDecision K} : Z -> lru K V -> list V;
  lru_Purge {K V} : lru K V -> lru K V;
  lru_Len {K V} : lru K V -> Z }.

Class LRULaws `{LRU} := {
  lru_get_new {K V} `{EqDecision K} size ttl t k :
    lru_Get t (@NewLRU _ K V size ttl) k = None;
  lru_get_touch {K V} `{EqDecision K} now t (c : lru K V) k k' :
    lru_Get t (lru_touch now c k) k' = lru_Get t c k';
  lru_get_add_same {K V} `{EqDecision K} now t (c : lru K V) k v w :
    lru_Get t (lru_Add now c k v) k = Some w -> w = v /\ t <= now + lru_TTL c;
  lru_get_add_other {K V} `{EqDecision K} now t (c : lru K V) k k' v w :
    k <> k' -> lru_Get t (lru_Add now c k v) k' = Some w ->
    lru_Get t c k' = Some w;
  lru_get_remove_same {K V} `{EqDecision K} t (c : lru K V) k :
    lru_Get t (lru_Remove c k) k = None;
  lru_get_remove_other {K V} `{EqDecision K} t (c : lru K V) k k' w :
    lru_Get t (lru_Remove c k) k' = Some w -> lru_Get t c k' = Some w;
  lru_get_purge {K V} `{EqDecision K} t (c : lru K V) k :
    lru_Get t (lru_Purge c) k = None;
  lru_get_expiry {K V} `{EqDecision K} now t (c : lru K V) k w :
    now <= t -> lru_Get t c k = Some w -> lru_Get now c k = Some w;
  lru_keys_get {K V} `{EqDecision K} t (c : lru K V) k w :
    lru_Get t c k = Some w -> k ∈ lru_Keys t c;
  lru_values_get {K V} `{EqDecision K} t (c : lru K V) w :
    w ∈ lru_Values t c -> exists k, lru_Get t c k = Some w;
  lru_ttl_new {K V} size ttl : lru_TTL (@NewLRU _ K V size ttl) = ttl;
  lru_ttl_touch {K V} `{EqDecision K} now (c : lru K V) k :
    lru_TTL (lru_touch now c k) = lru_TTL c;
  lru_ttl_add {K V} `{EqDecision K} now (c : lru K V) k v :
    lru_TTL (lru_Add now c k v) = lru_TTL c;
  lru_ttl_remove {K V} `{EqDecision K} (c : lru K V) k :
    lru_TTL (lru_Remove c k) = lru_TTL c;
  lru_ttl_purge {K V} (c : lru K V) : lru_TTL (lru_Purge c) = lru_TTL c }.

(** ** An instance: entries, newest first *)

Record lru_list (K V : Type) := mkLru {
  ll_size : nat; ll_ttl : Z; ll_entries : list (K * (V * Z)) }.
Arguments mkLru {K V}.
Arguments ll_size {K V}.
Arguments ll_ttl {K V}.
Arguments ll_entries {K V}.

Section list_lru.
Context {K V : Type}.
Implicit Types (l : list (K * (V * Z))) (c : lru_list K V).

Definition live (t : Z) (e : K * (V * Z)) : bool := t <=? e.2.2.

Definition drop_key `{EqDecision K} (k : K) l : list (K * (V * Z)) :=
  List.filter (fun e => negb (bool_decide (e.1 = k))) l.

Definition find_key `{EqDecision K} (k : K) l : option (K * (V * Z)) :=
  List.find (fun e => bool_decide (e.1 = k)) l.

Definition ll_get `{EqDecision K} (t : Z) c (k : K) : option V :=
  match find_key k (ll_entries c) with
  | Some e => if live t e then Some e.2.1 else None
  | None => None
  end.

Context `{EqDecision K}.

Lemma find_key_cons k e l :
  find_key k (e :: l) = if decide (e.1 = k) then Some e else find_key k l.
Proof.
  unfold find_key. simpl. case_bool_decide; by case_decide.
Qed.

Lemma find_drop_same k l : find_key k (drop_key k l) = None.
Proof.
  induction l as [|e l IH]; [done|]. unfold drop_key. cbn [List.filter].
  case_bool_decide; cbn [negb]; [done|]. rewrite find_key_cons. by case_decide.
Qed.

Lemma find_drop_other k k' l :
  k <> k' -> find_key k' (drop_key k l) = find_key k' l.
Proof.
  intros Hne. induction l as [|e l IH]; [done|]. unfold drop_key.
  cbn [List.filter]. rewrite find_key_cons.
  case_bool_decide as He; cbn [negb].
  - rewrite decide_False by congruence. done.
  - rewrite find_key_cons. by case_decide.
Qed.

Lemma find_take k n l e : find_key k (take n l) = Some e -> find_key k l = Some e.
Proof.
  revert n. induction l as [|x l IH]; intros [|n]; try done.
  rewrite firstn_cons, !find_key_cons. case_decide; [done|apply IH].
Qed.

Lemma find_key_elem k l e : find_key k l = Some e -> e ∈ l /\ e.1 = k.
Proof.
  intros Hf. apply List.find_some in Hf as [Hin He].
  apply list_elem_of_In in Hin. by apply bool_decide_eq_true in He.
Qed.

End list_lru.

(** An association list with its size and TTL; a lookup leaves the order,
    so the oldest entry is evicted first. *)
#[export] Instance lru_map : LRU := {|
  lru := lru_list;
  NewLRU K V size ttl := mkLru (Z.to_nat size) ttl [];
  lru_TTL K V c := ll_ttl c;
  lru_Get K V _ t c k := ll_get t c k;
  lru_touch K V _ t c k := c;
  lru_Add K V _ t c k v := mkLru (ll_size c) (ll_ttl c)
    (take (ll_size c) ((k, (v, t + ll_ttl c)) :: drop_key k (ll_entries c)));
  lru_Remove K V _ c k := mkLru (ll_size c) (ll_ttl c)
    (drop_key k (ll_entries c));
  lru_Keys K V t c := (List.filter (live t) (ll_entries c)).*1;
  lru_Values K V _ t c := omap (ll_get t c) (ll_entries c).*1;
  lru_Purge K V c := mkLru (ll_size c) (ll_ttl c) [];
  lru_Len K V c := Z.of_nat (length (ll_entries c)) |}.

#[export] Instance lru_map_laws : @LRULaws lru_map.
Proof.
  constructor; simpl; unfold ll_get; simpl; try done.
  - intros K V ? now t c k v w. destruct (ll_size c); [done|].
    rewrite firstn_cons, find_key_cons. rewrite decide_True by done.
    unfold live. simpl. destruct (Z.leb_spec t (now + ll_ttl c)); [|done].
    by intros [= ->].
  - intros K V ? now t c k k' v w Hne. destruct (ll_size c); [done|].
    rewrite firstn_cons, find_key_cons. rewrite decide_False by done.
    destruct (find_key k' (take _ _)) as [e|] eqn:E; [|done].
    apply find_take in E. rewrite find_drop_other in E by done. by rewrite E.
  - intros K V ? t c k. by rewrite find_drop_same.
  - intros K V ? t c k k' w. destruct (decide (k = k')) as [->|Hne].
    + by rewrite find_drop_same.
    + by rewrite find_drop_other.
  - intros K V ? now t c k w Hle. destruct (find_key k _) as [e|]; [|done].
    unfold live. destruct (Z.leb_spec t e.2.2), (Z.leb_spec now e.2.2); try done; lia.
  - intros K V ? t c k w. destruct (find_key k _) as [e|] eqn:E; [|done].
    destruct (live t e) eqn:El; [|done]. intros _.
    apply find_key_elem in E as [Hin <-].
    apply list_elem_of_fmap_2, filter_elem. done.
  - intros K V ? t c w Hw. apply list_elem_of_omap in Hw as (k & _ & Hk). eauto.
Qed.
