(* ===== verification/Registry.v ===== *)
(** The issuer registry: [internal/ca/registry.go] and the errors of
    [internal/ca/errors.go].

    The registry resolves the profile and the issuer of a request in the
    project, then in the org, keeps the resolutions and the built issuers in
    bounded caches, and drops them after a mutation.  An authority issuer is
    a mutable object several entries and callers share: it lives in a heap
    and the entries hold its address.  The authority library is the class
    [Authority], the caches the class [LRU]. *)
From Stdlib Require Import ZArith Lia Ascii.
From stdpp Require Import base list gmap strings pretty.
From S2P Require Import Prelude GoStrings Xdb Tenancy Model Query Sql CaQuery CaDb PathLength Base64 Keys Pbconv Lru.

(** ** Errors *)

Definition ErrProfileNotFound : error := Sentinel "profile not found".
Definition ErrIssuerNotFound : error := Sentinel "issuer not found".
Definition ErrIssuerNotActive : error := Sentinel "issuer is not active".
Definition ErrIssuerLabelRequired : error := Sentinel "issuer label is required".
Definition ErrIssuerMismatch : error := Sentinel "issuer does not match the profile".
Definition ErrProfileNotAllowed : error := Sentinel "issuer does not allow the profile".
Definition ErrIssuerExpired : error := Sentinel "issuer certificate has expired".

(** ** The authority library *)

Class Authority `{PbLib, KeyLib} := {
  auth_Issuer : Type;
  CreateIssuer : AuthIssuerConfig -> string -> string -> string -> signer_t ->
                 result auth_Issuer;
  Issuer_Profile : auth_Issuer -> string -> option CertProfile;
  AddProfile : auth_Issuer -> string -> CertProfile -> auth_Issuer;
  Issuer_Bundle : auth_Issuer -> Bundle;
  Issuer_Signer : auth_Issuer -> signer_t;
  Issuer_KeyHash : auth_Issuer -> Z -> string;
  Issuer_NameHash : auth_Issuer -> Z -> string;
  (** the CRL expiry and renewal of the settings or their defaults, in
      nanoseconds *)
  Issuer_CrlExpiry : auth_Issuer -> Z;
  GetCRLRenewal : AIAConfig -> Z;
  (** [CertProfile.Validate]; [None] accepts *)
  ValidateProfile : CertProfile -> option error }.

(** A registered profile is found under its name and changes nothing else;
    a new issuer has the profiles of its configuration. *)
Class AuthorityLaws `{Authority} := {
  Profile_AddProfile i n p n' :
    Issuer_Profile (AddProfile i n p) n' =
    if decide (n = n') then Some p else Issuer_Profile i n';
  Bundle_AddProfile i n p : Issuer_Bundle (AddProfile i n p) = Issuer_Bundle i;
  Profile_CreateIssuer cfg c ch r s i n :
    CreateIssuer cfg c ch r s = Ok i -> Issuer_Profile i n = ac_Profiles cfg !! n }.

(** ** State *)

Record scopeKey := mkScopeKey {
  sk_orgID : Z; sk_projectID : Z; sk_label : string }.
#[global] Instance scopeKey_eq_dec : EqDecision scopeKey.
Proof. solve_decision. Defined.

(** [en_issuer] is the address of the built issuer. *)
Record issuerEntry := mkEntry {
  en_row : Issuer; en_issuer : nat; en_allowed : list string }.

Record ResolveRequest := mkResolve {
  rq_Org : Z; rq_Project : Z; rq_Profile : string; rq_IssuerLabel : string }.

Record Resolution `{PbLib} := mkResolution {
  rs_Issuer : nat; rs_Row : Issuer; rs_ProfileRow : CertificateProfile;
  rs_Profile : CertProfile; rs_ProfileName : string }.

(** Five minutes in milliseconds, a thousand issuers. *)
Definition DefaultCacheTTL : Z := 300000.
Definition DefaultCacheSize : Z := 1000.
Definition labelCacheFactor : Z := 4.

Section registry.
Context `{Xdb, Codec, ChainLib, ProfileCodec, Authority, LRU}.

Record RgState := mkRg {
  rg_db : Db; rg_world : world; rg_heap : list auth_Issuer;
  rg_issuers : lru Z issuerEntry; rg_issuerLabels : lru scopeKey Issuer;
  rg_profiles : lru scopeKey CertificateProfile }.

Definition rg_now (s : RgState) : Z := db_now (rg_db s).

Definition set_rg_db (d : Db) (s : RgState) : RgState :=
  mkRg d (rg_world s) (rg_heap s) (rg_issuers s) (rg_issuerLabels s)
    (rg_profiles s).
Definition set_rg_world (w : world) (s : RgState) : RgState :=
  mkRg (rg_db s) w (rg_heap s) (rg_issuers s) (rg_issuerLabels s)
    (rg_profiles s).
Definition set_rg_heap (h : list auth_Issuer) (s : RgState) : RgState :=
  mkRg (rg_db s) (rg_world s) h (rg_issuers s) (rg_issuerLabels s)
    (rg_profiles s).
Definition set_rg_issuers (c : lru Z issuerEntry) (s : RgState) : RgState :=
  mkRg (rg_db s) (rg_world s) (rg_heap s) c (rg_issuerLabels s)
    (rg_profiles s).
Definition set_rg_labels (c : lru scopeKey Issuer) (s : RgState) : RgState :=
  mkRg (rg_db s) (rg_world s) (rg_heap s) (rg_issuers s) c (rg_profiles s).
Definition set_rg_profiles (c : lru scopeKey CertificateProfile) (s : RgState)
  : RgState :=
  mkRg (rg_db s) (rg_world s) (rg_heap s) (rg_issuers s) (rg_issuerLabels s) c.

(** A call of the database and of the key providers. *)
Definition in_db {A} (m : M Db A) : M RgState A := fun s =>
  let '(r, d) := m (rg_db s) in (r, set_rg_db d s).
Definition in_world {A} (m : M world A) : M RgState A := fun s =>
  let '(r, w) := m (rg_world s) in (r, set_rg_world w s).

Definition profiles_Get (k : scopeKey) : M RgState (option CertificateProfile) :=
  fun s => (Ok (lru_Get (rg_now s) (rg_profiles s) k),
            set_rg_profiles (lru_touch (rg_now s) (rg_profiles s) k) s).
Definition profiles_Add (k : scopeKey) (p : CertificateProfile)
  : M RgState unit :=
  modify (fun s => set_rg_profiles (lru_Add (rg_now s) (rg_profiles s) k p) s).
Definition labels_Get (k : scopeKey) : M RgState (option Issuer) :=
  fun s => (Ok (lru_Get (rg_now s) (rg_issuerLabels s) k),
            set_rg_labels (lru_touch (rg_now s) (rg_issuerLabels s) k) s).
Definition labels_Add (k : scopeKey) (m : Issuer) : M RgState unit :=
  modify (fun s => set_rg_labels (lru_Add (rg_now s) (rg_issuerLabels s) k m) s).
Definition issuers_Get (id : Z) : M RgState (option issuerEntry) :=
  fun s => (Ok (lru_Get (rg_now s) (rg_issuers s) id),
            set_rg_issuers (lru_touch (rg_now s) (rg_issuers s) id) s).
Definition issuers_Add (id : Z) (e : issuerEntry) : M RgState unit :=
  modify (fun s => set_rg_issuers (lru_Add (rg_now s) (rg_issuers s) id e) s).
Definition issuers_Values : M RgState (list issuerEntry) :=
  fun s => (Ok (lru_Values (rg_now s) (rg_issuers s)), s).

(** The object at an address; an entry holds the address of its build. *)
Definition deref (a : nat) : M RgState auth_Issuer := fun s =>
  match rg_heap s !! a with
  | Some i => (Ok i, s)
  | None => (Err (OtherError "nil issuer"), s)
  end.

Definition cmp_or (x default_ : Z) : Z := if (x =? 0)%Z then default_ else x.

Definition NewRegistry (d : Db) (w : world) (ttl size : Z) : RgState :=
  let ttl := cmp_or ttl DefaultCacheTTL in
  let size := cmp_or size DefaultCacheSize in
  mkRg d w [] (NewLRU size ttl) (NewLRU (size * labelCacheFactor) ttl)
    (NewLRU (size * labelCacheFactor) ttl).

(** ** Resolution of labels *)

(** The row of the project, or of the org when the project has none. *)
Definition fallback {A} (projectID : Z) (project org : M Db A) : M Db A :=
  catch project (fun r => match r with
    | Ok x => ret x
    | Err e => if IsNotFoundError e && negb (projectID =? 0)%Z then org
               else fail e
    end).

Definition Registry_FindProfile (orgID projectID : Z) (label : string)
  : M RgState CertificateProfile :=
  let key := mkScopeKey orgID projectID label in
  let! cached := profiles_Get key in
  match cached with
  | Some p => ret p
  | None =>
      catch (in_db (fallback projectID (FindProfile orgID projectID label)
                      (FindProfile orgID 0 label))) (fun r =>
        match r with
        | Err e => if IsNotFoundError e then fail ErrProfileNotFound
                   else fail (WithMessage e "unable to find profile")
        | Ok p =>
            if negb (bool_decide (p_Status p = ItemStatus_Active))
            then fail ErrProfileNotFound
            else profiles_Add key p ;;; ret p
        end)
  end.

Definition Registry_FindIssuer (orgID projectID : Z) (label : string)
  : M RgState Issuer :=
  let key := mkScopeKey orgID projectID label in
  let! cached := labels_Get key in
  match cached with
  | Some m => ret m
  | None =>
      catch (in_db (fallback projectID (FindIssuer orgID projectID label)
                      (FindIssuer orgID 0 label))) (fun r =>
        match r with
        | Err e => if IsNotFoundError e then fail ErrIssuerNotFound
                   else fail (WithMessage e "unable to find issuer")
        | Ok m => labels_Add key m ;;; ret m
        end)
  end.

(** ** Building issuers *)

Definition profileBinds (p : CertificateProfile) (row : Issuer)
    (allowed : list string) : bool :=
  if bool_decide (p_IssuerLabel p = AnyIssuerLabel)
  then bool_decide (p_Label p ∈ allowed)
  else bool_decide (p_IssuerLabel p = i_Label row).

Definition AuthorityProfile (p : CertificateProfile) : result CertProfile :=
  let? def := Definition_ p in
  with_message_r ("profile " ++ id_string (p_ID p))
    (ProfileFromPb ValidateProfile (Some def)).

(** The ID and the version: [UpdatedAt] is in milliseconds. *)
Definition profileName (p : CertificateProfile) : string :=
  id_string (p_ID p) ++ "@" ++ pretty (p_UpdatedAt p).

(** Registers the profile on the object at the address. *)
Definition addProfile (a : nat) (p : CertificateProfile)
  : M RgState (string * CertProfile) :=
  let name := profileName p in
  let! issuer := deref a in
  match Issuer_Profile issuer name with
  | Some ap => ret (name, ap)
  | None =>
      let! ap := lift_result (AuthorityProfile p) in
      modify (fun s => set_rg_heap
        (<[a := AddProfile issuer name ap]> (rg_heap s)) s) ;;;
      ret (name, ap)
  end.

Definition createIssuer (cfg : AuthIssuerConfig)
    (certPEM chainPEM rootPEM : string) (signer : signer_t)
  : result auth_Issuer :=
  match ParseFromPEM certPEM with
  | None => Err (WithMessage (OtherError "unable to parse PEM")
                   "invalid certificate")
  | Some crt =>
      if IsSelfSigned crt then CreateIssuer cfg certPEM "" "" signer
      else CreateIssuer cfg certPEM chainPEM rootPEM signer
  end.

(** The profile of the delegated OCSP responder the settings name. *)
Definition delegatedProfile (row : Issuer) (cfg : IssuerConfig)
    (name : string) : M RgState CertProfile :=
  let id := id_string (i_ID row) in
  catch (Registry_FindProfile (i_OrgID row) (i_ProjectID row) name) (fun r =>
    match r with
    | Err e =>
        if errors_Is e ErrProfileNotFound
        then fail (OtherError ("delegated OCSP profile " ++ name ++
                     " of issuer " ++ id ++ " is not found"))
        else fail (WithMessage e ("delegated OCSP profile " ++ name ++
                     " of issuer " ++ id))
    | Ok p =>
        if negb (profileBinds p row (ic_AllowedProfiles cfg))
        then fail (OtherError ("delegated OCSP profile " ++ name ++
                     " is not bound to issuer " ++ id))
        else lift_result (AuthorityProfile p)
    end).

Definition set_ac_profile (name : string) (ap : CertProfile)
    (c : AuthIssuerConfig) : AuthIssuerConfig :=
  mkAuthConfig (ac_Label c) (ac_AIA c) (<[name := ap]> (ac_Profiles c))
    (ac_AllowedProfiles c) (ac_OmitDisabledExtensions c).

Definition delegatedName (c : AuthIssuerConfig) : string :=
  match ac_AIA c with Some a => aia_DelegatedOCSPProfile a | None => "" end.

Definition build (keys : Keys) (row : Issuer) : M RgState issuerEntry :=
  let id := id_string (i_ID row) in
  guard (negb (bool_decide (i_Pem row = EmptyString)))
    (OtherError ("issuer " ++ id ++ " has no certificate")) ;;;
  let! cfg := lift_result (GetConfig id (i_Config row)) in
  let! acfg := lift_result (with_message_r ("invalid config of issuer " ++ id)
                 (IssuerConfigFromPb (i_Label row) (Some cfg))) in
  let name := delegatedName acfg in
  let! acfg := (if negb (bool_decide (name = EmptyString))
                then let! ap := delegatedProfile row cfg name in
                     ret (set_ac_profile name ap acfg)
                else ret acfg) in
  let! signer := in_world (Signer keys row) in
  let! issuer := lift_result (with_message_r ("unable to create issuer " ++ id)
                   (createIssuer acfg (i_Pem row) (i_ChainPem row)
                      (i_RootPem row) signer)) in
  let! s := get in
  put (set_rg_heap (rg_heap s ++ [issuer]) s) ;;;
  ret (mkEntry row (length (rg_heap s)) (ic_AllowedProfiles cfg)).

(** The row was updated after the built one. *)
Definition newer (row built : Issuer) : bool :=
  (i_UpdatedAt built <? i_UpdatedAt row)%Z.

(** The entry in memory, unless the row is newer. *)
Definition cachedEntry (row : Issuer) : M RgState (option issuerEntry) :=
  let! e := issuers_Get (i_ID row) in
  ret match e with
      | Some e => if negb (newer row (en_row e)) then Some e else None
      | None => None
      end.

(** The second lookup is the one under the lock of the build. *)
Definition entry (keys : Keys) (row : Issuer) : M RgState issuerEntry :=
  let! e := cachedEntry row in
  match e with
  | Some e => ret e
  | None =>
      let! e := cachedEntry row in
      match e with
      | Some e => ret e
      | None =>
          let! e := build keys row in
          issuers_Add (i_ID row) e ;;;
          ret e
      end
  end.

Definition Registry_Issuer (keys : Keys) (row : Issuer) : M RgState nat :=
  let! e := entry keys row in ret (en_issuer e).

Definition Resolve (keys : Keys) (req : option ResolveRequest)
  : M RgState Resolution :=
  match req with
  | None => fail (OtherError "profile is required")
  | Some req =>
  guard (negb (bool_decide (rq_Profile req = EmptyString)))
    (OtherError "profile is required") ;;;
  let! profile := Registry_FindProfile (rq_Org req) (rq_Project req)
                    (rq_Profile req) in
  let label := p_IssuerLabel profile in
  let anyIssuer := bool_decide (label = AnyIssuerLabel) in
  let! label :=
    (if anyIssuer && bool_decide (rq_IssuerLabel req = EmptyString)
     then fail ErrIssuerLabelRequired
     else if anyIssuer then ret (rq_IssuerLabel req)
     else if negb (bool_decide (rq_IssuerLabel req = EmptyString)) &&
             negb (bool_decide (rq_IssuerLabel req = label))
     then fail ErrIssuerMismatch
     else ret label) in
  let! row := Registry_FindIssuer (rq_Org req) (rq_Project req) label in
  guard (bool_decide (i_Status row = IssuerStatus_Active))
    ErrIssuerNotActive ;;;
  let! e := entry keys row in
  guard (profileBinds profile (en_row e) (en_allowed e))
    ErrProfileNotAllowed ;;;
  let! np := addProfile (en_issuer e) profile in
  ret (mkResolution _ (en_issuer e) (en_row e) profile np.2 np.1)
  end.

(** ** Issuers by their keys *)

Definition crlStatus (st : IssuerStatus_Enum) : bool :=
  bool_decide (st = IssuerStatus_Active) ||
  bool_decide (st = IssuerStatus_Archived).

Definition IssuerBySKID (keys : Keys) (skid : string)
  : M RgState (nat * Issuer) :=
  let! values := issuers_Values in
  match List.find (fun e => bool_decide (i_Skid (en_row e) = skid)) values with
  | Some e => ret (en_issuer e, en_row e)
  | None =>
      catch (in_db (GetIssuerBySKID skid)) (fun r =>
        match r with
        | Err e => if IsNotFoundError e then fail ErrIssuerNotFound
                   else fail (WithMessage e "unable to find issuer")
        | Ok row =>
            guard (crlStatus (i_Status row)) ErrIssuerNotActive ;;;
            let! e := entry keys row in
            ret (en_issuer e, en_row e)
        end)
  end.

(** The first entry whose issuer satisfies the predicate. *)
Definition findEntry (f : auth_Issuer -> bool) (s : RgState)
  : option issuerEntry :=
  List.find (fun e => match rg_heap s !! en_issuer e with
                      | Some i => f i
                      | None => false
                      end) (lru_Values (rg_now s) (rg_issuers s)).

(** [crypto.SHA1] *)
Definition SHA1 : Z := 3.

Definition hexDigit (n : nat) : ascii :=
  nth n (chars "0123456789abcdef") "0"%char.
Fixpoint hexString (s : string) : string :=
  match s with
  | EmptyString => EmptyString
  | String a r => String (hexDigit (nat_of_ascii a / 16))
                    (String (hexDigit (nat_of_ascii a mod 16)) (hexString r))
  end.

Definition IssuerByKeyHash (keys : Keys) (alg : Z) (hash : string)
  : M RgState (nat * Issuer) :=
  let! s := get in
  match findEntry (fun i => bool_decide (Issuer_KeyHash i alg = hash)) s with
  | Some e => ret (en_issuer e, en_row e)
  | None =>
      if negb (alg =? SHA1)%Z then fail ErrIssuerNotFound
      else IssuerBySKID keys (hexString hash)
  end.

Definition IssuerByNameHash (alg : Z) (hash : string)
  : M RgState (nat * Issuer) :=
  let! s := get in
  match findEntry (fun i => bool_decide (Issuer_NameHash i alg = hash)) s with
  | Some e => ret (en_issuer e, en_row e)
  | None => fail ErrIssuerNotFound
  end.

(** ** Invalidation *)

(** The exact key of a project, every key of the label for the org. *)
Definition invalidateLabel {V} (now : Z) (c : lru scopeKey V)
    (orgID projectID : Z) (label : string) : lru scopeKey V :=
  if negb (projectID =? 0)%Z
  then lru_Remove c (mkScopeKey orgID projectID label)
  else foldl (fun c key =>
         if (sk_orgID key =? orgID)%Z && bool_decide (sk_label key = label)
         then lru_Remove c key else c) c (lru_Keys now c).

Definition InvalidateIssuer (row : option Issuer) : M RgState unit :=
  match row with
  | None => ret tt
  | Some row => modify (fun s =>
      set_rg_labels
        (invalidateLabel (rg_now s) (rg_issuerLabels s) (i_OrgID row)
           (i_ProjectID row) (i_Label row))
        (set_rg_issuers (lru_Remove (rg_issuers s) (i_ID row)) s))
  end.

Definition InvalidateProfile (orgID projectID : Z) (label : string)
  : M RgState unit :=
  modify (fun s => set_rg_profiles
    (invalidateLabel (rg_now s) (rg_profiles s) orgID projectID label) s).

Definition Purge : M RgState unit :=
  modify (fun s => mkRg (rg_db s) (rg_world s) (rg_heap s)
    (lru_Purge (rg_issuers s)) (lru_Purge (rg_issuerLabels s))
    (lru_Purge (rg_profiles s))).

Definition Registry_Len (s : RgState) : Z := lru_Len (rg_issuers s).
End registry.
