(* ===== verification/RegistryFacts.v ===== *)
(** Facts of the registry: what a label resolves to in the database, that
    the caches answer as the database does while every mutation of this
    instance is followed by its invalidation, and how old a resolution may
    be when other instances change the database. *)
From Stdlib Require Import ZArith Lia.
From stdpp Require Import base list gmap strings pretty.
From S2P Require Import Prelude GoStrings Xdb Tenancy Model Query Sql CaQuery CaDb CaDbFacts PathLength Base64 Keys Pbconv Lru Registry.

(** ** What a label resolves to *)

(** The row of the project, or of the org. *)
Definition resolved {R} (find : Z -> option R) (projectID : Z) : option R :=
  match find projectID with
  | Some r => Some r
  | None => if (projectID =? 0)%Z then None else find 0%Z
  end.

Definition issuer_at (d : Db) (orgID projectID : Z) (label : string)
  : option Issuer :=
  List.find (FindIssuer_where orgID projectID label) (db_issuers d).
Definition profile_at (d : Db) (orgID projectID : Z) (label : string)
  : option CertificateProfile :=
  List.find (FindProfile_where orgID projectID label) (db_profiles d).

Definition issuer_of (d : Db) (k : scopeKey) : option Issuer :=
  resolved (fun p => issuer_at d (sk_orgID k) p (sk_label k)) (sk_projectID k).

(** An inactive profile hides the one of the org. *)
Definition profile_of (d : Db) (k : scopeKey) : option CertificateProfile :=
  match resolved (fun p => profile_at d (sk_orgID k) p (sk_label k))
          (sk_projectID k) with
  | Some p => if bool_decide (p_Status p = ItemStatus_Active)
              then Some p else None
  | None => None
  end.

(** Rows that differ in the CRL number only: publishing a CRL advances it
    without touching the caches. *)
Definition issuer_equiv (i j : Issuer) : Prop :=
  set_i_CrlNumber 0 i = set_i_CrlNumber 0 j.

#[global] Instance issuer_equiv_equivalence : Equivalence issuer_equiv.
Proof.
  unfold issuer_equiv. split.
  - by intros i.
  - by intros i j ->.
  - by intros i j k -> ->.
Qed.

Lemma setTenancy_list o p :
  setTenancy NewQueryParams o p = listParams o true p Scope_Org None.
Proof. done. Qed.

Lemma whereTenancy_exact o p rowOrg rowProject :
  whereTenancy (setTenancy NewQueryParams o p) rowOrg rowProject = true <->
  rowOrg = o /\ rowProject = p.
Proof.
  rewrite setTenancy_list. unfold whereTenancy.
  rewrite andb_true_iff, whereOrgScope_list, whereProjectScope_list by done.
  unfold org_selected, project_selected.
  destruct (decide (o = 0%Z)) as [->|], (decide (p = 0%Z)) as [->|]; naive_solver.
Qed.

Lemma FindIssuer_where_true o p l i :
  FindIssuer_where o p l i = true <->
  i_OrgID i = o /\ i_ProjectID i = p /\ i_Label i = l.
Proof.
  unfold FindIssuer_where.
  rewrite andb_true_iff, bool_decide_eq_true, whereTenancy_exact. tauto.
Qed.

Lemma FindProfile_where_true o p l i :
  FindProfile_where o p l i = true <->
  p_OrgID i = o /\ p_ProjectID i = p /\ p_Label i = l.
Proof.
  unfold FindProfile_where.
  rewrite andb_true_iff, bool_decide_eq_true, whereTenancy_exact. tauto.
Qed.

(** The row found is of the scope: of the org and label, and of the project
    or org-wide. *)
Lemma issuer_of_scope d k i :
  issuer_of d k = Some i ->
  i_OrgID i = sk_orgID k /\ i_Label i = sk_label k /\
  (i_ProjectID i = sk_projectID k \/ i_ProjectID i = 0%Z) /\
  i ∈ db_issuers d.
Proof.
  unfold issuer_of, resolved, issuer_at. intros Hf.
  destruct (List.find _ _) eqn:E1.
  - simplify_eq. apply find_some in E1 as [Hin (?&?&?)%FindIssuer_where_true].
    apply list_elem_of_In in Hin. naive_solver.
  - destruct (_ =? _)%Z; [done|].
    apply find_some in Hf as [Hin (?&?&?)%FindIssuer_where_true].
    apply list_elem_of_In in Hin. naive_solver.
Qed.

Lemma profile_of_scope d k p :
  profile_of d k = Some p ->
  p_OrgID p = sk_orgID k /\ p_Label p = sk_label k /\
  (p_ProjectID p = sk_projectID k \/ p_ProjectID p = 0%Z) /\
  p_Status p = ItemStatus_Active /\ p ∈ db_profiles d.
Proof.
  unfold profile_of, resolved, profile_at. intros Hf.
  assert (forall q, List.find (FindProfile_where (sk_orgID k) q (sk_label k))
    (db_profiles d) = Some p -> p_OrgID p = sk_orgID k /\
    p_Label p = sk_label k /\ p_ProjectID p = q /\ p ∈ db_profiles d) as Hq.
  { intros q Hq. apply find_some in Hq as [Hin (?&?&?)%FindProfile_where_true].
    by apply list_elem_of_In in Hin. }
  destruct (List.find _ _) as [x|] eqn:E1.
  - case_bool_decide; [|done]. simplify_eq.
    destruct (Hq _ E1) as (?&?&?&?). split_and!; try done; by left.
  - destruct (_ =? _)%Z; [done|].
    destruct (List.find (FindProfile_where _ 0 _) _) as [x|] eqn:E2; [|done].
    case_bool_decide; [|done]. simplify_eq.
    destruct (Hq _ E2) as (?&?&?&?). split_and!; try done; by right.
Qed.

Section lookups.
Context `{XdbLaws}.

Lemma FindIssuer_run o p l d :
  match issuer_at d o p l with
  | Some i => FindIssuer o p l d = (Ok i, d)
  | None => exists e, FindIssuer o p l d = (Err e, d) /\ IsNotFoundError e = true
  end.
Proof.
  unfold issuer_at, FindIssuer, check_not_found, select, select_row, catch, ret,
    fail. simpl. destruct (List.find _ _); [done|].
  eexists. split; [done|]. by rewrite CheckNotFoundError_not_found.
Qed.

Lemma FindProfile_run o p l d :
  match profile_at d o p l with
  | Some i => FindProfile o p l d = (Ok i, d)
  | None => exists e, FindProfile o p l d = (Err e, d) /\ IsNotFoundError e = true
  end.
Proof.
  unfold profile_at, FindProfile, check_not_found, select, select_row, catch,
    ret, fail. simpl. destruct (List.find _ _); [done|].
  eexists. split; [done|]. by rewrite CheckNotFoundError_not_found.
Qed.

(** The fallback finds what the label resolves to. *)
Lemma fallback_run {R} (find : Z -> option R) (m : Z -> M Db R) p d :
  (forall q, match find q with
    | Some i => m q d = (Ok i, d)
    | None => exists e, m q d = (Err e, d) /\ IsNotFoundError e = true
    end) ->
  match resolved find p with
  | Some i => fallback p (m p) (m 0%Z) d = (Ok i, d)
  | None => exists e, fallback p (m p) (m 0%Z) d = (Err e, d) /\
      IsNotFoundError e = true
  end.
Proof.
  intros Hm. unfold resolved, fallback, catch. pose proof (Hm p) as Hp.
  destruct (find p) as [i|]; [by rewrite Hp|].
  destruct Hp as (e & -> & He). rewrite He. simpl.
  destruct (p =? 0)%Z; simpl; [by eexists|]. apply (Hm 0%Z).
Qed.
End lookups.

(** ** The invariant of the registry

    [P] and [Q] say what a cached resolution is worth at a time; they hold of
    what the database resolves to, for one TTL.  The operations keep the
    invariant and what they return satisfies [P] and [Q] now. *)

Section invariant.
Context `{XdbLaws, Codec, ChainLib, ProfileCodec, AuthorityLaws, LRULaws}.

(** A profile registered under a name is the conversion of a row with that
    name and version, or of the responder profile with that label. *)
Definition registered (name : string) (ap : CertProfile) : Prop :=
  exists p, AuthorityProfile p = Ok ap /\
    (profileName p = name \/ p_Label p = name).

Definition heap_ok (h : list auth_Issuer) : Prop :=
  forall a i name ap, h !! a = Some i -> Issuer_Profile i name = Some ap ->
    registered name ap.

(** The issuer is the one of the certificate of the row, with the signer of
    its key and more profiles. *)
Inductive built_of (row : Issuer) : auth_Issuer -> Prop :=
| built_new keys w sg w' cfg i :
    Signer keys row w = (Ok sg, w') ->
    createIssuer cfg (i_Pem row) (i_ChainPem row) (i_RootPem row) sg = Ok i ->
    built_of row i
| built_add i name ap : built_of row i -> built_of row (AddProfile i name ap).

Definition entry_built (h : list auth_Issuer) (e : issuerEntry) : Prop :=
  exists i, h !! en_issuer e = Some i /\ built_of (en_row e) i.

Section with_P.
Context (d : Db) (ttl : Z).
Context (P : Z -> scopeKey -> Issuer -> Prop).
Context (Q : Z -> scopeKey -> CertificateProfile -> Prop).

Record rg_inv (s : RgState) : Prop := {
  inv_db : rg_db s = d;
  inv_ttl : lru_TTL (rg_issuerLabels s) = ttl /\ lru_TTL (rg_profiles s) = ttl;
  inv_labels t k m : (rg_now s <= t)%Z ->
    lru_Get t (rg_issuerLabels s) k = Some m -> P t k m;
  inv_profiles t k p : (rg_now s <= t)%Z ->
    lru_Get t (rg_profiles s) k = Some p -> Q t k p;
  inv_entries t id e : lru_Get t (rg_issuers s) id = Some e ->
    i_ID (en_row e) = id /\ entry_built (rg_heap s) e;
  inv_heap : heap_ok (rg_heap s) }.

Context (HP : forall t k m, issuer_of d k = Some m ->
  (db_now d <= t <= db_now d + ttl)%Z -> P t k m).
Context (HQ : forall t k p, profile_of d k = Some p ->
  (db_now d <= t <= db_now d + ttl)%Z -> Q t k p).
Context (Httl : (0 <= ttl)%Z).

Lemma yields_in_db {A} (m : M Db A) (R : A -> Prop) :
  (m d).2 = d -> (forall a, (m d).1 = Ok a -> R a) ->
  yields rg_inv (in_db m) R.
Proof.
  intros Hd HR s Hs. pose proof (inv_db _ Hs) as Hdb. unfold in_db.
  rewrite Hdb. destruct (m d) as [r d']; simpl in *; subst d'.
  split; [|done]. destruct Hs. destruct s; simpl in *. by subst.
Qed.

Lemma yields_in_world {A} (m : M world A) :
  yields rg_inv (in_world m) (fun _ => True).
Proof.
  intros s Hs. unfold in_world. destruct (m (rg_world s)) as [r w].
  split; [|done]. destruct Hs. by split.
Qed.

Lemma Signer_yields keys row :
  yields rg_inv (in_world (Signer keys row))
    (fun sg => exists w w', Signer keys row w = (Ok sg, w')).
Proof.
  intros s Hs. split; [by apply (yields_in_world (Signer keys row))|].
  intros sg. unfold in_world. destruct (Signer keys row (rg_world s)) as [r w] eqn:E.
  intros [= ->]. by exists (rg_world s), w.
Qed.

Lemma profiles_Get_yields k :
  yields rg_inv (profiles_Get k)
    (fun o => forall p, o = Some p -> Q (db_now d) k p).
Proof.
  intros s Hs. destruct Hs as [Hdb Ht Hl Hp He Hh]. split.
  - split; try done; simpl.
    + by rewrite lru_ttl_touch.
    + intros t k' p. rewrite lru_get_touch. apply Hp.
  - intros o [= <-] p Hg. rewrite <-Hdb. by apply Hp.
Qed.

Lemma labels_Get_yields k :
  yields rg_inv (labels_Get k)
    (fun o => forall m, o = Some m -> P (db_now d) k m).
Proof.
  intros s Hs. destruct Hs as [Hdb Ht Hl Hp He Hh]. split.
  - split; try done; simpl.
    + by rewrite lru_ttl_touch.
    + intros t k' p. rewrite lru_get_touch. apply Hl.
  - intros o [= <-] m Hg. rewrite <-Hdb. by apply Hl.
Qed.

Lemma issuers_Get_yields id :
  yields rg_inv (issuers_Get id)
    (fun o => forall e, o = Some e -> i_ID (en_row e) = id).
Proof.
  intros s Hs. destruct Hs as [Hdb Ht Hl Hp He Hh]. split.
  - split; try done; simpl. intros t id' e. rewrite lru_get_touch. apply He.
  - intros o [= <-] e Hg. by eapply He.
Qed.

(** What a computation returns, and where. *)
Definition leaves {A} (m : M RgState A) (R : A -> RgState -> Prop) : Prop :=
  forall s, rg_inv s -> rg_inv (m s).2 /\ forall a, (m s).1 = Ok a -> R a (m s).2.

Lemma leaves_bind {A B} (m : M RgState A) (k : A -> M RgState B) T R :
  yields rg_inv m T -> (forall a, T a -> leaves (k a) R) -> leaves (bind m k) R.
Proof.
  intros Hm Hk s Hs. destruct (Hm s Hs) as [Hi Hr]. unfold bind.
  destruct (m s) as [[a|e] s']; [|done]. by apply Hk; [apply Hr|].
Qed.

Lemma leaves_yields {A} (m : M RgState A) (R : A -> RgState -> Prop) (T : A -> Prop) :
  leaves m R -> (forall a s, R a s -> T a) -> yields rg_inv m T.
Proof. intros Hm Ht s Hs. destruct (Hm s Hs) as [Hi Hr]. split; [done|]. eauto. Qed.

Lemma profiles_Add_yields k p :
  profile_of d k = Some p ->
  yields rg_inv (profiles_Add k p) (fun _ => True).
Proof.
  intros Hk s Hs. destruct Hs as [Hdb Ht Hl Hp He Hh]. split; [|done].
  split; try done; simpl.
  - by rewrite lru_ttl_add.
  - intros t k' p' Hle Hg. destruct (decide (k = k')) as [<-|Hne].
    + apply lru_get_add_same in Hg as [-> Hle']. destruct Ht as [_ Ht].
      apply HQ; [done|]. unfold rg_now in Hle, Hle'.
      simpl in Hle. rewrite Ht in Hle'. rewrite Hdb in Hle, Hle'. lia.
    + apply lru_get_add_other in Hg; [|done]. by apply Hp.
Qed.

Lemma labels_Add_yields k m :
  issuer_of d k = Some m ->
  yields rg_inv (labels_Add k m) (fun _ => True).
Proof.
  intros Hk s Hs. destruct Hs as [Hdb Ht Hl Hp He Hh]. split; [|done].
  split; try done; simpl.
  - by rewrite lru_ttl_add.
  - intros t k' p' Hle Hg. destruct (decide (k = k')) as [<-|Hne].
    + apply lru_get_add_same in Hg as [-> Hle']. destruct Ht as [Ht _].
      apply HP; [done|]. unfold rg_now in Hle, Hle'.
      simpl in Hle. rewrite Ht in Hle'. rewrite Hdb in Hle, Hle'. lia.
    + apply lru_get_add_other in Hg; [|done]. by apply Hl.
Qed.

Lemma issuers_Add_inv id e s :
  i_ID (en_row e) = id -> entry_built (rg_heap s) e -> rg_inv s ->
  rg_inv (issuers_Add id e s).2.
Proof.
  intros Hid Hb Hs. destruct Hs as [Hdb Ht Hl Hp He Hh].
  split; try done; simpl. intros t id' e' Hg.
  destruct (decide (id = id')) as [<-|Hne].
  - by apply lru_get_add_same in Hg as [-> _].
  - apply lru_get_add_other in Hg; [|done]. by eapply He.
Qed.

Lemma FindProfile_yields o p l :
  yields rg_inv (Registry_FindProfile o p l)
    (Q (db_now d) (mkScopeKey o p l)).
Proof.
  unfold Registry_FindProfile.
  eapply yields_bind; [apply profiles_Get_yields|]. intros [q|] Hq.
  { apply yields_ret. by apply Hq. }
  pose proof (fallback_run (fun q => profile_at d o q l)
    (fun q => FindProfile o q l) p d (fun q => FindProfile_run o q l d)) as Hf.
  eapply (yields_catch _ _ _ (fun q => resolved
    (fun q => profile_at d o q l) p = Some q)).
  - apply yields_in_db; destruct (resolved _ _).
    + by rewrite Hf.
    + by destruct Hf as (e & -> & _).
    + rewrite Hf. by intros a [= ->].
    + destruct Hf as (e & -> & _). done.
  - intros e. destruct (IsNotFoundError e); apply yields_fail.
  - intros q Hr. case_bool_decide as Ha; simpl; [|apply yields_fail].
    assert (profile_of d (mkScopeKey o p l) = Some q) as Hof.
    { unfold profile_of. simpl. rewrite Hr. by rewrite bool_decide_true. }
    eapply yields_bind; [by apply profiles_Add_yields|]. intros _ _.
    apply yields_ret, HQ; [done|lia].
Qed.

Lemma FindIssuer_yields o p l :
  yields rg_inv (Registry_FindIssuer o p l) (P (db_now d) (mkScopeKey o p l)).
Proof.
  unfold Registry_FindIssuer.
  eapply yields_bind; [apply labels_Get_yields|]. intros [q|] Hq.
  { apply yields_ret. by apply Hq. }
  pose proof (fallback_run (fun q => issuer_at d o q l)
    (fun q => FindIssuer o q l) p d (fun q => FindIssuer_run o q l d)) as Hf.
  eapply (yields_catch _ _ _ (fun q => issuer_of d (mkScopeKey o p l) = Some q)).
  - unfold issuer_of. simpl. apply yields_in_db; destruct (resolved _ _).
    + by rewrite Hf.
    + by destruct Hf as (e & -> & _).
    + rewrite Hf. by intros a [= ->].
    + destruct Hf as (e & -> & _). done.
  - intros e. destruct (IsNotFoundError e); apply yields_fail.
  - intros q Hr. eapply yields_bind; [by apply labels_Add_yields|]. intros _ _.
    apply yields_ret, HP; [done|lia].
Qed.

Lemma delegatedProfile_yields row cfg name :
  (forall t k p, Q t k p -> p_Label p = sk_label k) ->
  yields rg_inv (delegatedProfile row cfg name) (registered name).
Proof.
  intros HQl. unfold delegatedProfile.
  eapply yields_catch; [apply FindProfile_yields|..].
  - intros e. destruct (errors_Is _ _); apply yields_fail.
  - intros p Hp. destruct (negb _); [apply yields_fail|].
    eapply yields_mono; [apply yields_lift|]. intros ap Hap.
    exists p. split; [done|]. right. by apply HQl in Hp.
Qed.

Lemma heap_alloc h i :
  heap_ok h -> (forall n ap, Issuer_Profile i n = Some ap -> registered n ap) ->
  heap_ok (h ++ [i]).
Proof.
  intros Hh Hi a j n ap Ha. apply lookup_app_Some in Ha as [Ha|[_ Ha]].
  - by eapply Hh.
  - apply list_lookup_singleton_Some in Ha as [_ ->]. apply Hi.
Qed.

Lemma heap_add h a i name ap :
  heap_ok h -> h !! a = Some i -> registered name ap ->
  heap_ok (<[a := AddProfile i name ap]> h).
Proof.
  intros Hh Ha Hr b j n ap' Hb. destruct (decide (a = b)) as [<-|Hne].
  - rewrite list_lookup_insert_eq in Hb by (by eapply lookup_lt_Some).
    injection Hb as <-. rewrite Profile_AddProfile.
    case_decide as E; [|by eapply Hh]. intros [= <-]. by rewrite <-E.
  - rewrite list_lookup_insert_ne in Hb by done. by eapply Hh.
Qed.

Lemma entry_built_alloc h i e : entry_built h e -> entry_built (h ++ [i]) e.
Proof. intros (j & Hj & Hb). exists j. by rewrite (lookup_app_l_Some _ _ _ _ Hj). Qed.

Lemma entry_built_add h a i name ap e :
  h !! a = Some i -> entry_built h e -> entry_built (<[a := AddProfile i name ap]> h) e.
Proof.
  intros Ha (j & Hj & Hb). destruct (decide (a = en_issuer e)) as [->|Hne].
  - exists (AddProfile i name ap). rewrite list_lookup_insert_eq by (by eapply lookup_lt_Some).
    split; [done|]. constructor. congruence.
  - exists j. by rewrite list_lookup_insert_ne.
Qed.

Lemma addProfile_yields a p :
  yields rg_inv (addProfile a p)
    (fun np => np.1 = profileName p /\ registered (profileName p) np.2).
Proof.
  unfold addProfile. intros s Hs. unfold bind, deref.
  destruct (rg_heap s !! a) as [i|] eqn:Ea; [|by split].
  destruct (Issuer_Profile i (profileName p)) as [ap|] eqn:Ep; simpl.
  - split; [done|]. intros np [= <-]. split; [done|]. by eapply (inv_heap _ Hs).
  - unfold lift_result. destruct (AuthorityProfile p) as [ap|e] eqn:Eap;
      [|by split]. simpl.
    assert (registered (profileName p) ap) as Hr by (exists p; split; [done|by left]).
    split; [|by intros np [= <-]]. destruct Hs as [Hdb Ht Hl Hp He Hh].
    split; try done; simpl; [|by apply heap_add].
    intros t id e Hg. destruct (He t id e Hg). split; [done|]. by apply entry_built_add.
Qed.

Lemma createIssuer_profiles cfg c ch r sg i n ap :
  createIssuer cfg c ch r sg = Ok i -> Issuer_Profile i n = Some ap ->
  ac_Profiles cfg !! n = Some ap.
Proof.
  unfold createIssuer. destruct (ParseFromPEM c); [|done].
  destruct (IsSelfSigned _); intros Hc Hn;
    by rewrite (Profile_CreateIssuer _ _ _ _ _ _ _ Hc) in Hn.
Qed.

Lemma IssuerConfigFromPb_profiles label c acfg :
  IssuerConfigFromPb label c = Ok acfg -> ac_Profiles acfg = ∅.
Proof.
  unfold IssuerConfigFromPb, result_bind. intros Hc.
  repeat case_match; by simplify_eq.
Qed.

Context (HQl : forall t k p, Q t k p -> p_Label p = sk_label k).

Lemma build_leaves keys row :
  leaves (build keys row) (fun e s => en_row e = row /\ entry_built (rg_heap s) e).
Proof.
  unfold build. eapply leaves_bind; [apply yields_guard|]. intros _ _.
  eapply leaves_bind; [apply yields_lift|]. intros cfg _.
  eapply leaves_bind; [apply yields_lift|]. intros acfg Ha.
  apply with_message_r_ok, IssuerConfigFromPb_profiles in Ha.
  eapply (leaves_bind _ _ (fun c => forall n ap,
    ac_Profiles c !! n = Some ap -> registered n ap)).
  { destruct (negb _).
    - eapply yields_bind; [by apply delegatedProfile_yields|].
      intros ap Hap. apply yields_ret. intros n ap'. simpl. rewrite Ha.
      rewrite lookup_insert_Some, lookup_empty.
      by intros [[<- <-]|[_ ?]].
    - apply yields_ret. intros n ap. by rewrite Ha, lookup_empty. }
  intros acfg' Hreg. eapply leaves_bind; [apply Signer_yields|].
  intros sg (w & w' & Hsg). eapply leaves_bind; [apply yields_lift|]. intros i Hi.
  apply with_message_r_ok in Hi. intros s Hs. simpl. split.
  - destruct Hs as [Hdb Ht Hl Hp He Hh]. split; try done; simpl.
    + intros t id e Hg. destruct (He t id e Hg). split; [done|]. by apply entry_built_alloc.
    + apply heap_alloc; [done|]. intros n ap Hn.
      apply Hreg. by eapply createIssuer_profiles.
  - intros e [= <-]. split; [done|]. exists i. split; [by rewrite list_lookup_middle|].
    by eapply built_new.
Qed.

(** The entry is of the row or of a later version of it, and is built. *)
Definition entry_for (row : Issuer) (e : issuerEntry) (s : RgState) : Prop :=
  i_ID (en_row e) = i_ID row /\ (i_UpdatedAt row <= i_UpdatedAt (en_row e))%Z /\
  entry_built (rg_heap s) e.

Lemma cachedEntry_leaves row :
  leaves (cachedEntry row) (fun o s => forall e, o = Some e -> entry_for row e s).
Proof.
  intros s Hs. split.
  - apply (yields_preserves _ _ (fun _ => True)); [|done].
    unfold cachedEntry. eapply yields_bind; [apply issuers_Get_yields|].
    intros [e|] _; by apply yields_ret.
  - unfold cachedEntry, bind, issuers_Get. intros o [= <-] e.
    destruct (lru_Get (rg_now s) (rg_issuers s) (i_ID row)) as [x|] eqn:Eg; [|done].
    destruct (newer row (en_row x)) eqn:En; simpl; [done|]. intros [= <-].
    apply (inv_entries _ Hs) in Eg as [Hid Hb]. split_and!; [done| |done].
    unfold newer in En. lia.
Qed.

Lemma leaves_cached {A} row (k : option issuerEntry -> M RgState A) R :
  (forall e s, rg_inv s -> entry_for row e s ->
     rg_inv (k (Some e) s).2 /\ forall a, (k (Some e) s).1 = Ok a -> R a (k (Some e) s).2) ->
  leaves (k None) R -> leaves (bind (cachedEntry row) k) R.
Proof.
  intros Hk Hn s Hs. destruct (cachedEntry_leaves row s Hs) as [Hi Hr]. unfold bind.
  destruct (cachedEntry row s) as [[[e|]|e] s']; [|by apply Hn|done].
  apply Hk; [done|]. by apply (Hr (Some e)).
Qed.

Lemma entry_leaves keys row : leaves (entry keys row) (entry_for row).
Proof.
  assert (forall e s, rg_inv s -> entry_for row e s -> rg_inv (ret e s).2 /\
    forall a, (ret e s).1 = Ok a -> entry_for row a (ret e s).2) as Hret.
  { intros e s Hs He. split; [done|]. by intros a [= <-]. }
  unfold entry. apply leaves_cached; [exact Hret|].
  apply leaves_cached; [exact Hret|]. intros s Hs.
  destruct (build_leaves keys row s Hs) as [Hi Hr]. unfold bind at 1 3 5.
  destruct (build keys row s) as [[e|e] s']; [|done].
  destruct (Hr e eq_refl) as [Hrow Hb]. unfold bind. simpl. split.
  - apply (issuers_Add_inv (i_ID row) e); [by rewrite Hrow|done|done].
  - intros a [= <-]. split_and!; [by rewrite Hrow|by rewrite Hrow; lia|done].
Qed.

Lemma entry_yields keys row :
  yields rg_inv (entry keys row) (fun e =>
    i_ID (en_row e) = i_ID row /\ (i_UpdatedAt row <= i_UpdatedAt (en_row e))%Z).
Proof. eapply leaves_yields; [apply entry_leaves|]. by intros e s (? & ? & _). Qed.

(** What a resolution is made of: a profile and an issuer of the scope, and
    the built issuer of that row or a later version of it, which binds the
    profile. *)
Definition resolves (req : ResolveRequest) (res : Resolution) : Prop :=
  Q (db_now d) (mkScopeKey (rq_Org req) (rq_Project req) (rq_Profile req))
    (rs_ProfileRow res) /\
  (exists row label,
     P (db_now d) (mkScopeKey (rq_Org req) (rq_Project req) label) row /\
     label = (if decide (p_IssuerLabel (rs_ProfileRow res) = AnyIssuerLabel)
              then rq_IssuerLabel req
              else p_IssuerLabel (rs_ProfileRow res)) /\
     (rq_IssuerLabel req = EmptyString \/ rq_IssuerLabel req = label) /\
     i_Status row = IssuerStatus_Active /\
     i_ID (rs_Row res) = i_ID row /\
     (i_UpdatedAt row <= i_UpdatedAt (rs_Row res))%Z) /\
  (exists allowed,
     profileBinds (rs_ProfileRow res) (rs_Row res) allowed = true) /\
  rs_ProfileName res = profileName (rs_ProfileRow res) /\
  registered (rs_ProfileName res) (rs_Profile res).

Lemma Resolve_yields keys req :
  yields rg_inv (Resolve keys (Some req)) (resolves req).
Proof.
  unfold Resolve. eapply yields_bind; [apply yields_guard|]. intros _ _.
  eapply yields_bind; [apply FindProfile_yields|]. intros p Hp.
  eapply (yields_bind _ _ _ (fun label =>
    label = (if decide (p_IssuerLabel p = AnyIssuerLabel)
             then rq_IssuerLabel req else p_IssuerLabel p) /\
    (rq_IssuerLabel req = EmptyString \/ rq_IssuerLabel req = label))).
  { case_bool_decide as Ea; rewrite ?decide_True, ?decide_False by done; simpl.
    - case_bool_decide; [apply yields_fail|]. apply yields_ret. eauto.
    - case_bool_decide as Ee; simpl; [apply yields_ret; eauto|].
      case_bool_decide as El; simpl; [apply yields_ret; eauto|].
      apply yields_fail. }
  intros label [Hlabel Hreq].
  eapply yields_bind; [apply FindIssuer_yields|]. intros row Hrow.
  eapply yields_bind; [apply yields_guard|].
  intros _ Hact%bool_decide_eq_true.
  eapply yields_bind; [apply entry_yields|]. intros e [Hid Hup].
  eapply yields_bind; [apply yields_guard|]. intros ? Hb.
  eapply yields_bind; [apply addProfile_yields|]. intros [n ap] [Hn Hap].
  simpl in Hn. apply yields_ret. split; [done|]. split; [by exists row, label|].
  split; [by exists (en_allowed e)|]. simpl. split; [done|]. by rewrite Hn.
Qed.

Lemma IssuerBySKID_keeps keys skid : preserves rg_inv (IssuerBySKID keys skid).
Proof.
  unfold IssuerBySKID. apply preserves_bind; [by intros s Hs|]. intros vs.
  destruct (List.find _ vs); [apply preserves_ret|].
  apply preserves_catch.
  - eapply yields_preserves, (yields_in_db _ (fun _ => True)); [|done].
    unfold GetIssuerBySKID, check_not_found, select, catch.
    by destruct (select_row _ _).
  - intros [row|e]; [|destruct (IsNotFoundError e); apply preserves_fail].
    apply preserves_bind; [apply preserves_guard|]. intros _.
    apply preserves_bind; [eapply yields_preserves, entry_yields|].
    intros e. apply preserves_ret.
Qed.

(** ** Issuers by their keys *)

Lemma findEntry_built f s e : rg_inv s -> findEntry f s = Some e ->
  exists i, rg_heap s !! en_issuer e = Some i /\ built_of (en_row e) i /\ f i = true.
Proof.
  intros Hs [Hin Hf]%find_some. apply list_elem_of_In, lru_values_get in Hin as [id Hg].
  apply (inv_entries _ Hs) in Hg as [_ (i & Hi & Hb)]. rewrite Hi in Hf. by exists i.
Qed.

(** The row has the key identifier, or is a version of one of the database
    that does. *)
Definition skid_names (skid : string) (row : Issuer) : Prop :=
  i_Skid row = skid \/
  exists r, r ∈ db_issuers d /\ i_Skid r = skid /\ i_ID r = i_ID row /\
    crlStatus (i_Status r) = true.

Lemma IssuerBySKID_names keys skid s a row s' :
  rg_inv s -> IssuerBySKID keys skid s = (Ok (a, row), s') ->
  exists i, rg_heap s' !! a = Some i /\ built_of row i /\ skid_names skid row.
Proof.
  intros Hs E. unfold IssuerBySKID, bind at 1, issuers_Values in E. simpl in E.
  destruct (List.find _ _) as [e|] eqn:Ef.
  - injection E as <- <- <-. apply find_some in Ef as [Hin Hk%bool_decide_eq_true].
    apply list_elem_of_In, lru_values_get in Hin as [id Hg].
    apply (inv_entries _ Hs) in Hg as [_ (i & Hi & Hb)]. exists i. by split_and!; [..|left].
  - unfold catch, in_db in E. rewrite (inv_db _ Hs) in E.
    unfold GetIssuerBySKID, check_not_found, catch, select in E.
    destruct (select_row _ _) as [r|e] eqn:Er; cbn beta iota zeta in E.
    2:{ simpl in E. by destruct (IsNotFoundError _). }
    apply select_row_ok in Er as [Hr Hk%bool_decide_eq_true].
    apply bind_ok in E as ([] & s1 & [Hst ->]%guard_ok & E).
    apply bind_ok in E as (e & s2 & Ee & E). injection E as <- <- <-.
    assert (rg_inv (set_rg_db d s)) as Hs1 by by destruct Hs; destruct s; simpl in *; subst.
    destruct (entry_leaves keys r _ Hs1) as [_ Hl]. simpl in Ee. rewrite Ee in Hl.
    destruct (Hl e eq_refl) as (Hid & _ & i & Hi & Hb). exists i.
    split_and!; [done..|]. right. by exists r.
Qed.

(** The issuer of a key hash has it, or its row has the key identifier. *)
Lemma IssuerByKeyHash_names keys alg hash s a row s' :
  rg_inv s -> IssuerByKeyHash keys alg hash s = (Ok (a, row), s') ->
  exists i, rg_heap s' !! a = Some i /\ built_of row i /\
    (Issuer_KeyHash i alg = hash \/ alg = SHA1 /\ skid_names (hexString hash) row).
Proof.
  intros Hs E. unfold IssuerByKeyHash, bind at 1, get in E. simpl in E.
  destruct (findEntry _ s) as [e|] eqn:Ef.
  - injection E as <- <- <-.
    destruct (findEntry_built _ _ _ Hs Ef) as (i & Hi & Hb & Hf%bool_decide_eq_true).
    exists i. by split_and!; [..|left].
  - destruct (Z.eqb_spec alg SHA1) as [->|]; [|done].
    destruct (IssuerBySKID_names _ _ _ _ _ _ Hs E) as (i & Hi & Hb & Hn).
    exists i. by split_and!; [..|right].
Qed.

Lemma IssuerByNameHash_names alg hash s a row s' :
  rg_inv s -> IssuerByNameHash alg hash s = (Ok (a, row), s') ->
  exists i, rg_heap s' !! a = Some i /\ built_of row i /\ Issuer_NameHash i alg = hash.
Proof.
  intros Hs E. unfold IssuerByNameHash, bind, get in E. simpl in E.
  destruct (findEntry _ s) as [e|] eqn:Ef; [|done]. injection E as <- <- <-.
  destruct (findEntry_built _ _ _ Hs Ef) as (i & Hi & Hb & Hf%bool_decide_eq_true).
  by exists i.
Qed.

Lemma Resolve_keeps keys req : preserves rg_inv (Resolve keys req).
Proof.
  destruct req as [req|]; [eapply yields_preserves, Resolve_yields|].
  apply preserves_fail.
Qed.

Lemma IssuerByKeyHash_keeps keys alg hash :
  preserves rg_inv (IssuerByKeyHash keys alg hash).
Proof.
  unfold IssuerByKeyHash. apply preserves_bind; [apply preserves_get|].
  intros s. destruct (findEntry _ s); [apply preserves_ret|].
  destruct (negb _); [apply preserves_fail|apply IssuerBySKID_keeps].
Qed.
End with_P.
End invariant.

(** ** Invalidation *)

(** The keys whose resolution a row of the scope and label takes part in. *)
Definition covered (orgID projectID : Z) (label : string) (k : scopeKey)
  : Prop :=
  sk_orgID k = orgID /\ sk_label k = label /\
  (projectID = 0%Z \/ sk_projectID k = projectID).

Section invalidation.
Context `{LRULaws}.

Lemma foldl_remove {V} (f : scopeKey -> bool) ks (c : lru scopeKey V) t k v :
  lru_Get t (foldl (fun c key => if f key then lru_Remove c key else c) c ks) k
    = Some v ->
  lru_Get t c k = Some v /\ (k ∈ ks -> f k = false).
Proof.
  revert c. induction ks as [|key ks IH]; intros c; simpl.
  - intros Hg. split; [done|]. by intros Hk%elem_of_nil.
  - intros Hg. apply IH in Hg as [Hg Hks]. destruct (f key) eqn:Ef.
    + assert (k <> key) by (intros ->; by rewrite lru_get_remove_same in Hg).
      apply lru_get_remove_other in Hg. split; [done|].
      intros [->|Hk]%elem_of_cons; [done|by apply Hks].
    + split; [done|]. intros [->|Hk]%elem_of_cons; [done|by apply Hks].
Qed.

Lemma foldl_ttl {V} (f : scopeKey -> bool) ks (c : lru scopeKey V) :
  lru_TTL (foldl (fun c key => if f key then lru_Remove c key else c) c ks) =
  lru_TTL c.
Proof.
  revert c. induction ks as [|key ks IH]; intros c; simpl; [done|].
  rewrite IH. destruct (f key); [apply lru_ttl_remove|done].
Qed.

(** What is left was there, and the row takes no part in it. *)
Lemma invalidateLabel_get {V} now t (c : lru scopeKey V) o p l k v :
  (now <= t)%Z -> lru_Get t (invalidateLabel now c o p l) k = Some v ->
  lru_Get t c k = Some v /\ ~ covered o p l k.
Proof.
  intros Hle. unfold invalidateLabel.
  destruct (Z.eqb_spec p 0) as [->|Hp]; simpl.
  - intros Hg. apply foldl_remove in Hg as [Hg Hf]. split; [done|].
    intros (<- & <- & _). assert (k ∈ lru_Keys now c) as Hk.
    { by eapply lru_keys_get, lru_get_expiry. }
    specialize (Hf Hk). rewrite Z.eqb_refl, bool_decide_true in Hf; done.
  - intros Hg. assert (k <> mkScopeKey o p l)
      by (intros ->; by rewrite lru_get_remove_same in Hg).
    apply lru_get_remove_other in Hg. split; [done|].
    intros (<- & <- & [?|<-]); [done|]. by destruct k.
Qed.

Lemma invalidateLabel_ttl {V} now (c : lru scopeKey V) o p l :
  lru_TTL (invalidateLabel now c o p l) = lru_TTL c.
Proof.
  unfold invalidateLabel. destruct (negb _); [apply lru_ttl_remove|].
  apply foldl_ttl.
Qed.
End invalidation.

(** ** Coherence *)

(** The issuers found by scope and label are the same, up to their CRL
    numbers, except those of one scope and label. *)
Definition issuers_same_but (d d' : Db) (orgID projectID : Z) (label : string)
  : Prop :=
  forall o p l, (o, p, l) <> (orgID, projectID, label) ->
    option_Forall2 issuer_equiv (issuer_at d o p l) (issuer_at d' o p l).

Definition profiles_same_but (d d' : Db) (orgID projectID : Z)
    (label : string) : Prop :=
  forall o p l, (o, p, l) <> (orgID, projectID, label) ->
    profile_at d o p l = profile_at d' o p l.

Lemma issuer_of_same_but d d' o p l k r :
  issuers_same_but d d' o p l -> ~ covered o p l k ->
  issuer_of d k = Some r ->
  exists r', issuer_of d' k = Some r' /\ issuer_equiv r r'.
Proof.
  intros Hs Hc. unfold issuer_of, resolved.
  assert (option_Forall2 issuer_equiv
    (issuer_at d (sk_orgID k) (sk_projectID k) (sk_label k))
    (issuer_at d' (sk_orgID k) (sk_projectID k) (sk_label k))) as H1.
  { apply Hs. intros [= <- <- <-]. apply Hc. by split_and!; [..|right]. }
  destruct H1 as [a b Hab|].
  { intros [= <-]. by exists b. }
  destruct (Z.eqb_spec (sk_projectID k) 0) as [|Hne]; [done|].
  assert (option_Forall2 issuer_equiv
    (issuer_at d (sk_orgID k) 0 (sk_label k))
    (issuer_at d' (sk_orgID k) 0 (sk_label k))) as H2.
  { apply Hs. intros [= <- <- <-]. apply Hc. by split_and!; [..|left]. }
  destruct H2 as [a b Hab|]; [|done]. intros [= <-]. by exists b.
Qed.

Lemma profile_of_same_but d d' o p l k :
  profiles_same_but d d' o p l -> ~ covered o p l k ->
  profile_of d k = profile_of d' k.
Proof.
  intros Hs Hc. unfold profile_of, resolved. rewrite (Hs _ (sk_projectID k)).
  2: { intros [= <- <- <-]. apply Hc. by split_and!; [..|right]. }
  destruct (profile_at _ _ _ _); [done|].
  destruct (Z.eqb_spec (sk_projectID k) 0) as [|Hne]; [done|].
  rewrite (Hs _ 0%Z); [done|].
  intros [= <- <- <-]. apply Hc. by split_and!; [..|left].
Qed.

Section coherence.
Context `{XdbLaws, Codec, ChainLib, ProfileCodec, AuthorityLaws, LRULaws}.

(** What a cached resolution is worth: the row the database resolves to. *)
Definition current_issuer (d : Db) (_ : Z) (k : scopeKey) (m : Issuer) : Prop :=
  exists r, issuer_of d k = Some r /\ issuer_equiv m r.
Definition current_profile (d : Db) (_ : Z) (k : scopeKey)
    (p : CertificateProfile) : Prop := profile_of d k = Some p.

(** Every cached resolution is current. *)
Definition coherent (ttl : Z) (s : RgState) : Prop :=
  rg_inv (rg_db s) ttl (current_issuer (rg_db s)) (current_profile (rg_db s)) s.

Lemma current_issuer_here d ttl t k m :
  issuer_of d k = Some m -> (db_now d <= t <= db_now d + ttl)%Z ->
  current_issuer d t k m.
Proof. intros Hm _. by exists m. Qed.
Lemma current_profile_here d ttl t k p :
  profile_of d k = Some p -> (db_now d <= t <= db_now d + ttl)%Z ->
  current_profile d t k p.
Proof. done. Qed.
Lemma current_profile_label d t k p :
  current_profile d t k p -> p_Label p = sk_label k.
Proof. by intros (_ & ? & _)%profile_of_scope. Qed.

Lemma coherent_new d w ttl size :
  (0 <= ttl)%Z -> coherent (cmp_or ttl DefaultCacheTTL) (NewRegistry d w ttl size).
Proof.
  intros Httl. split; simpl.
  - done.
  - by rewrite !lru_ttl_new.
  - intros t k m _. by rewrite lru_get_new.
  - intros t k p _. by rewrite lru_get_new.
  - intros t id e. by rewrite lru_get_new.
  - intros a i n ap. by rewrite lookup_nil.
Qed.

(** An issuer row changed and its resolutions dropped. *)
Lemma coherent_InvalidateIssuer ttl s d' row :
  coherent ttl s -> (db_now (rg_db s) <= db_now d')%Z ->
  issuers_same_but (rg_db s) d' (i_OrgID row) (i_ProjectID row) (i_Label row) ->
  db_profiles d' = db_profiles (rg_db s) ->
  coherent ttl (InvalidateIssuer (Some row) (set_rg_db d' s)).2.
Proof.
  intros [Hdb [Ht1 Ht2] Hl Hp He Hh] Hle Hsame Hprof. split; simpl; try done.
  - by rewrite invalidateLabel_ttl.
  - intros t k m Ht Hg. unfold rg_now in Ht. simpl in Ht.
    apply invalidateLabel_get in Hg as [Hg Hc]; [|done].
    apply Hl in Hg as (r & Hr & Heq); [|unfold rg_now; lia].
    destruct (issuer_of_same_but _ _ _ _ _ _ _ Hsame Hc Hr) as (r' & Hr' & Heq').
    exists r'. split; [done|]. by etrans.
  - intros t k p Ht Hg. unfold rg_now in Ht. simpl in Ht.
    apply Hp in Hg; [|unfold rg_now; lia]. unfold current_profile in *.
    rewrite <-Hg. unfold profile_of, profile_at. by rewrite Hprof.
  - intros t id e Hg. apply lru_get_remove_other in Hg. by eapply He.
Qed.

Lemma coherent_InvalidateProfile ttl s d' o p l :
  coherent ttl s -> (db_now (rg_db s) <= db_now d')%Z ->
  profiles_same_but (rg_db s) d' o p l ->
  db_issuers d' = db_issuers (rg_db s) ->
  coherent ttl (InvalidateProfile o p l (set_rg_db d' s)).2.
Proof.
  intros [Hdb [Ht1 Ht2] Hl Hp He Hh] Hle Hsame Hiss. split; simpl; try done.
  - by rewrite invalidateLabel_ttl.
  - intros t k m Ht Hg. unfold rg_now in Ht. simpl in Ht.
    apply Hl in Hg as (r & Hr & Heq); [|unfold rg_now; lia].
    exists r. split; [|done]. rewrite <-Hr. unfold issuer_of, issuer_at.
    by rewrite Hiss.
  - intros t k q Ht Hg. unfold rg_now in Ht. simpl in Ht.
    apply invalidateLabel_get in Hg as [Hg Hc]; [|done].
    apply Hp in Hg; [|unfold rg_now; lia]. unfold current_profile in *.
    by rewrite <-(profile_of_same_but _ _ _ _ _ _ Hsame Hc).
Qed.

(** The database changed in what no resolution reads. *)
Lemma coherent_other ttl s d' :
  coherent ttl s -> (db_now (rg_db s) <= db_now d')%Z ->
  (forall o p l, option_Forall2 issuer_equiv (issuer_at (rg_db s) o p l)
     (issuer_at d' o p l)) ->
  db_profiles d' = db_profiles (rg_db s) ->
  coherent ttl (set_rg_db d' s).
Proof.
  intros [Hdb [Ht1 Ht2] Hl Hp He Hh] Hle Hsame Hprof. split; simpl; try done.
  - intros t k m Ht Hg. unfold rg_now in Ht. simpl in Ht.
    apply Hl in Hg as (r & Hr & Heq); [|unfold rg_now; lia].
    assert (exists r', issuer_of d' k = Some r' /\ issuer_equiv r r')
      as (r' & Hr' & Heq'); [|exists r'; split; [done|by etrans]].
    revert Hr. unfold issuer_of, resolved.
    destruct (Hsame (sk_orgID k) (sk_projectID k) (sk_label k)) as [a b Hab|].
    { intros [= <-]. by exists b. }
    destruct (_ =? _)%Z; [done|].
    destruct (Hsame (sk_orgID k) 0%Z (sk_label k)) as [a b Hab|]; [|done].
    intros [= <-]. by exists b.
  - intros t k p Ht Hg. unfold rg_now in Ht. simpl in Ht.
    apply Hp in Hg; [|unfold rg_now; lia]. unfold current_profile in *.
    rewrite <-Hg. unfold profile_of, profile_at. by rewrite Hprof.
Qed.
End coherence.

(** ** Answers in a coherent state *)

Section answers.
Context `{XdbLaws, Codec, ChainLib, ProfileCodec, AuthorityLaws, LRULaws}.

Lemma Registry_FindIssuer_err o p l s e :
  (Registry_FindIssuer o p l s).1 = Err e ->
  e = ErrIssuerNotFound /\ issuer_of (rg_db s) (mkScopeKey o p l) = None.
Proof.
  unfold Registry_FindIssuer, labels_Get, bind.
  destruct (lru_Get _ _ _); [done|]. unfold catch, in_db. simpl.
  pose proof (fallback_run (fun q => issuer_at (rg_db s) o q l)
    (fun q => FindIssuer o q l) p (rg_db s)
    (fun q => FindIssuer_run o q l (rg_db s))) as Hf.
  unfold issuer_of. simpl. destruct (resolved _ _) as [i|].
  - by rewrite Hf.
  - destruct Hf as (e' & -> & ->). by intros [= <-].
Qed.

Lemma Registry_FindProfile_err o p l s e :
  (Registry_FindProfile o p l s).1 = Err e ->
  e = ErrProfileNotFound /\ profile_of (rg_db s) (mkScopeKey o p l) = None.
Proof.
  unfold Registry_FindProfile, profiles_Get, bind.
  destruct (lru_Get _ _ _); [done|]. unfold catch, in_db. simpl.
  pose proof (fallback_run (fun q => profile_at (rg_db s) o q l)
    (fun q => FindProfile o q l) p (rg_db s)
    (fun q => FindProfile_run o q l (rg_db s))) as Hf.
  unfold profile_of. simpl. destruct (resolved _ _) as [i|].
  - rewrite Hf. case_bool_decide; [done|]. by intros [= <-].
  - destruct Hf as (e' & -> & ->). by intros [= <-].
Qed.

(** C29: The registry resolves a label as the database does.  While the
    caches are coherent, a label resolves to the issuer of the project, or
    of the org when the project has none, up to its CRL number, and to the
    active profile of the project or the org, exactly when there is one; an
    inactive profile of the project hides the one of the org.  A lookup
    keeps the caches coherent and the database as it is. *)
Theorem registry_resolves_as_database (ttl : Z) (s : RgState)
    (orgID projectID : Z) (label : string)
    (Hc : coherent ttl s) (Httl : (0 <= ttl)%Z) :
  let k := mkScopeKey orgID projectID label in
  match (Registry_FindIssuer orgID projectID label s).1 with
  | Ok m => exists r, issuer_of (rg_db s) k = Some r /\ issuer_equiv m r
  | Err e => e = ErrIssuerNotFound /\ issuer_of (rg_db s) k = None
  end /\
  match (Registry_FindProfile orgID projectID label s).1 with
  | Ok p => profile_of (rg_db s) k = Some p
  | Err e => e = ErrProfileNotFound /\ profile_of (rg_db s) k = None
  end /\
  coherent ttl (Registry_FindIssuer orgID projectID label s).2 /\
  coherent ttl (Registry_FindProfile orgID projectID label s).2.
Proof.
  intros k. set (d := rg_db s).
  destruct (FindIssuer_yields d ttl _ (current_profile d)
    (current_issuer_here d ttl) Httl orgID projectID label s Hc) as [Hi1 Hi2].
  destruct (FindProfile_yields d ttl (current_issuer d) _
    (current_profile_here d ttl) Httl orgID projectID label s Hc) as [Hp1 Hp2].
  split_and!.
  - destruct (Registry_FindIssuer _ _ _ s).1 as [m|e] eqn:E; [by apply Hi2|].
    by apply Registry_FindIssuer_err.
  - destruct (Registry_FindProfile _ _ _ s).1 as [m|e] eqn:E; [by apply Hp2|].
    by apply Registry_FindProfile_err.
  - unfold coherent. by rewrite (inv_db _ _ _ _ _ Hi1).
  - unfold coherent. by rewrite (inv_db _ _ _ _ _ Hp1).
Qed.
End answers.
