(* ===== verification/RegistryDb.v ===== *)
(** The registry over the database: which resolutions a mutation of an
    issuer or a profile changes, that a mutation followed by its
    invalidation keeps the caches coherent, and how old a resolution is when
    other instances write the database. *)
From Stdlib Require Import ZArith Lia.
From stdpp Require Import base list gmap strings pretty.
From S2P Require Import Prelude GoStrings Xdb Tenancy Model Query Sql CaQuery CaDb CaDbFacts PathLength Base64 Keys Pbconv Lru Registry RegistryFacts.

(** ** Lookups after a statement *)

Section lookups.
Context {R : Type}.
Implicit Types (f w : R -> bool) (rows : list R).

Lemma find_snoc f rows r :
  f r = false -> List.find f (rows ++ [r]) = List.find f rows.
Proof.
  intros Hf. induction rows as [|x rows IH]; simpl; [by rewrite Hf|].
  by destruct (f x).
Qed.

Lemma find_update_all f w set_ rows :
  (forall r, r ∈ rows -> w r = true -> f (set_ r) = f r) ->
  List.find f (update_all w set_ rows) =
  (fun r => if w r then set_ r else r) <$> List.find f rows.
Proof.
  induction rows as [|x rows IH]; intros Hf; [done|].
  cbn [update_all fmap list_fmap List.find].
  assert (f (if w x then set_ x else x) = f x) as Hx.
  { destruct (w x) eqn:Ew; [|done]. apply Hf; [left|done]. }
  rewrite Hx. destruct (f x); [done|]. apply IH. intros r Hr. apply Hf.
  by right.
Qed.

(** An update that no found row takes part in. *)
Lemma find_update_other f w set_ rows :
  (forall r, r ∈ rows -> w r = true -> f r = false /\ f (set_ r) = false) ->
  List.find f (update_all w set_ rows) = List.find f rows.
Proof.
  intros Hf. rewrite find_update_all.
  2: { intros r Hr Hw. by destruct (Hf r Hr Hw) as [-> ->]. }
  destruct (List.find f rows) as [r|] eqn:E; [|done]. simpl.
  apply find_some in E as [Hin Hfr]. apply list_elem_of_In in Hin.
  destruct (w r) eqn:Ew; [|done]. destruct (Hf r Hin Ew). congruence.
Qed.

Lemma find_filter_other f w rows :
  (forall r, r ∈ rows -> w r = false -> f r = false) ->
  List.find f (List.filter w rows) = List.find f rows.
Proof.
  induction rows as [|x rows IH]; intros Hf; [done|]. simpl.
  specialize (IH ltac:(intros r Hr; apply Hf; by right)).
  destruct (w x) eqn:Ew; simpl; rewrite IH; [done|].
  by rewrite (Hf x ltac:(left) Ew).
Qed.
End lookups.

Lemma FindIssuer_where_false o p l i :
  (o, p, l) <> (i_OrgID i, i_ProjectID i, i_Label i) ->
  FindIssuer_where o p l i = false.
Proof.
  intros Hne. apply not_true_iff_false. rewrite FindIssuer_where_true.
  intros (<- & <- & <-). done.
Qed.
Lemma FindProfile_where_false o p l i :
  (o, p, l) <> (p_OrgID i, p_ProjectID i, p_Label i) ->
  FindProfile_where o p l i = false.
Proof.
  intros Hne. apply not_true_iff_false. rewrite FindProfile_where_true.
  intros (<- & <- & <-). done.
Qed.

Lemma same_issuers d d' :
  db_issuers d' = db_issuers d ->
  forall o p l, option_Forall2 issuer_equiv (issuer_at d o p l) (issuer_at d' o p l).
Proof.
  intros E o p l. unfold issuer_at. rewrite E.
  destruct (List.find _ _); by constructor.
Qed.

(** ** The mutations *)

(** What a mutation of an issuer leaves of the other resolutions. *)
Definition issuer_mutation (m : M Db Issuer) : Prop :=
  forall d, db_wf d ->
  match m d with
  | (Ok row, d') =>
      issuers_same_but d d' (i_OrgID row) (i_ProjectID row) (i_Label row) /\
      db_profiles d' = db_profiles d /\ db_now d' = db_now d
  | (Err _, d') => exists n, d' = set_seq n d
  end.

Lemma bind_err {S A B} (m : M S A) (k : A -> M S B) s e s' :
  bind m k s = (Err e, s') ->
  m s = (Err e, s') \/ exists a s1, m s = (Ok a, s1) /\ k a s1 = (Err e, s').
Proof.
  unfold bind. destruct (m s) as [[a|e'] s1]; [eauto|]. intros [= -> ->]. by left.
Qed.

(** [quiet m]: the tables are as they were. *)
Definition quiet {A} (m : M Db A) : Prop :=
  forall d, exists n, (m d).2 = set_seq n d.
(** [atomic m]: when it fails, the tables are as they were. *)
Definition atomic {A} (m : M Db A) : Prop :=
  forall d e d', m d = (Err e, d') -> exists n, d' = set_seq n d.

Lemma set_seq_self d : set_seq (db_seq d) d = d.
Proof. by destruct d. Qed.

Section atomic.
Context `{Xdb, Codec, IdGen}.

Lemma quiet_atomic {A} (m : M Db A) : quiet m -> atomic m.
Proof. intros Hq d e d' E. destruct (Hq d) as [n Hn]. rewrite E in Hn. by exists n. Qed.
Lemma quiet_pure {A} (m : M Db A) : (forall d, (m d).2 = d) -> quiet m.
Proof. intros Hm d. exists (db_seq d). by rewrite Hm, set_seq_self. Qed.
Lemma quiet_ensureID id : quiet (ensureID id).
Proof.
  intros d. unfold ensureID, NextID, ret. destruct (IsZero id); simpl; eauto.
  exists (db_seq d). by rewrite set_seq_self.
Qed.
Lemma quiet_Now : quiet Now.
Proof. by apply quiet_pure. Qed.
Lemma quiet_guard b e : quiet (guard b e).
Proof. apply quiet_pure. by destruct b. Qed.
Lemma quiet_lift {A} (r : result A) : quiet (lift_result r).
Proof. by apply quiet_pure. Qed.
Lemma atomic_fail {A} e : atomic (@fail Db A e).
Proof. by apply quiet_atomic, quiet_pure. Qed.
Lemma atomic_exec {R A} (t : Table R) (f : list R -> result (A * list R)) :
  atomic (exec t f).
Proof.
  intros d e d' E. unfold exec in E. destruct (f _) as [[]|]; [done|].
  injection E as _ <-. exists (db_seq d). by rewrite set_seq_self.
Qed.
Lemma atomic_transaction {A} (m : M Db A) : atomic (transaction m).
Proof. intros d e d'. apply transaction_err. Qed.
Lemma atomic_check {A} table key (m : M Db A) :
  atomic m -> atomic (check_not_found table key m).
Proof.
  intros Hm d e d'. unfold check_not_found, catch.
  destruct (m d) as [[a|e1] d1] eqn:E; [done|]. intros [= _ <-]. by eapply Hm.
Qed.
Lemma atomic_bind {A B} (m : M Db A) (k : A -> M Db B) :
  quiet m -> (forall a, atomic (k a)) -> atomic (bind m k).
Proof.
  intros Hm Hk d e d' E. destruct (Hm d) as [n Hn].
  apply bind_err in E as [E|(a & d1 & E & Ek)].
  - rewrite E in Hn. by exists n.
  - rewrite E in Hn. simpl in Hn. subst d1.
    destruct (Hk a _ _ _ Ek) as [n' ->]. by exists n'.
Qed.
End atomic.
#[export] Hint Resolve quiet_ensureID quiet_Now quiet_guard quiet_lift
  atomic_fail atomic_exec atomic_transaction atomic_check : go.

Ltac atomic_steps :=
  repeat first
    [ apply atomic_bind; [auto with go|intros ?]
    | match goal with |- atomic (match ?x with _ => _ end) => destruct x end
    | solve [auto with go] ].

Section mutations.
Context `{Xdb, Codec, IdGen}.

(** The issuers, the profiles and the clock are the same. *)
Definition same_core (d d' : Db) : Prop :=
  db_issuers d' = db_issuers d /\ db_profiles d' = db_profiles d /\
  db_now d' = db_now d.

#[local] Instance same_core_seq d : SeqStable (same_core d).
Proof. by intros n d' H2. Qed.

Lemma ensureID_core id d a d' : ensureID id d = (Ok a, d') -> same_core d d'.
Proof.
  intros E. pose proof (preserves_ensureID (same_core d) id d) as Hp.
  rewrite E in Hp. by apply Hp.
Qed.

Lemma RegisterRoot_core d m : preserves (same_core d) (RegisterRoot m).
Proof. unfold RegisterRoot. db_steps. by apply preserves_exec. Qed.

Lemma same_but_core d d1 d2 o p l :
  same_core d d1 -> issuers_same_but d1 d2 o p l ->
  issuers_same_but d d2 o p l.
Proof.
  intros (E & _) Hs o' p' l' Hne. specialize (Hs o' p' l' Hne).
  unfold issuer_at in *. by rewrite E in Hs.
Qed.
Lemma same_core_but d d1 d2 o p l :
  issuers_same_but d d1 o p l -> same_core d1 d2 ->
  issuers_same_but d d2 o p l.
Proof.
  intros Hs (E & _) o' p' l' Hne. specialize (Hs o' p' l' Hne).
  unfold issuer_at in *. by rewrite E.
Qed.

(** The mutation of the issuers from [d] to [d'] that returned the row. *)
Definition mutated (row : Issuer) (d d' : Db) : Prop :=
  issuers_same_but d d' (i_OrgID row) (i_ProjectID row) (i_Label row) /\
  db_profiles d' = db_profiles d /\ db_now d' = db_now d.

Lemma registerIssuer_mutated im d row d' :
  registerIssuer im d = (Ok row, d') -> mutated row d d'.
Proof.
  unfold registerIssuer. intros E. db_ok_step E.
  apply insert_row_ok in E as (-> & -> & Hu). split_and!; [|done..].
  intros o p l Hne. unfold issuer_at. simpl.
  rewrite find_snoc by (by apply FindIssuer_where_false).
  destruct (List.find _ _); by constructor.
Qed.

Lemma mutated_core row d0 d1 d2 d3 :
  same_core d0 d1 -> mutated row d1 d2 -> same_core d2 d3 -> mutated row d0 d3.
Proof.
  intros Hc (Hs & Hp & Hn) Hc'. split_and!.
  - by eapply same_but_core, same_core_but.
  - destruct Hc as (_ & <- & _), Hc' as (_ & -> & _). done.
  - destruct Hc as (_ & _ & <-), Hc' as (_ & _ & ->). done.
Qed.

Lemma same_core_refl d : same_core d d.
Proof. done. Qed.
Hint Resolve same_core_refl : core.

Lemma RegisterIssuer_mutation m anchor :
  issuer_mutation (RegisterIssuer m anchor).
Proof.
  intros d _. destruct (RegisterIssuer m anchor d) as [[row|e] d'] eqn:E.
  - unfold RegisterIssuer in E. apply bind_ok in E as (id & d1 & E1 & E).
    apply ensureID_core in E1. ok_step E.
    destruct (bool_decide _), anchor as [anchor|]; try done.
    + db_ok_step E. rename select (registerIssuer _ _ = _) into Er.
      rename select (RegisterRoot _ _ = _) into Et.
      apply registerIssuer_mutated in Er. eapply mutated_core; [done..|].
      match type of Et with RegisterRoot _ ?s1 = _ =>
        pose proof (RegisterRoot_core s1 anchor s1 (same_core_refl s1)) as Hc
      end. by rewrite Et in Hc.
    + apply registerIssuer_mutated in E. by eapply mutated_core.
  - revert E. unfold RegisterIssuer. apply atomic_bind; [auto with go|].
    intros id. unfold registerIssuer. atomic_steps.
Qed.

(** An update of the rows with an ID, which keeps their scopes. *)
Lemma update_mutated w set_ d i row d' :
  db_wf d -> (forall j, w j = true -> i_ID j = i_ID i) ->
  i ∈ db_issuers d -> row = set_ i ->
  (forall j, i_OrgID (set_ j) = i_OrgID j /\ i_ProjectID (set_ j) = i_ProjectID j /\
             i_Label (set_ j) = i_Label j) ->
  d' = tab_set issuers (update_all w set_ (db_issuers d)) d ->
  mutated row d d'.
Proof.
  intros Hwf Hw Hi -> Hk ->. split_and!; [|done..]. intros o p l Hne.
  unfold issuer_at. simpl.
  assert (forall j, j ∈ db_issuers d -> w j = true -> j = i) as Hu.
  { intros j Hj Hwj. destruct Hwf as [_ [Hu _ _ _] _ _ _].
    apply (issuer_id_inj _ _ _ Hu Hj Hi). by apply Hw. }
  destruct (Hk i) as (E1 & E2 & E3). rewrite E1, E2, E3 in Hne.
  rewrite find_update_other; [destruct (List.find _ _); by constructor|].
  intros j Hj Hwj. pose proof (Hu j Hj Hwj) as ->.
  split; apply FindIssuer_where_false; [done|]. by rewrite E1, E2, E3.
Qed.

Lemma UpdateIssuer_mutation req : issuer_mutation (UpdateIssuer req).
Proof.
  intros d Hwf. destruct (UpdateIssuer req d) as [[row|e] d'] eqn:E.
  - unfold UpdateIssuer in E. db_ok_step E.
    apply update_row_ok in E as (i & Hi & Hw & -> & -> & Hu).
    eapply update_mutated; [done| |done|done|done|done].
    rewrite andb_true_iff, Z.eqb_eq in Hw. destruct Hw as [Hid _].
    intros j [Hj%Z.eqb_eq _]%andb_true_iff. congruence.
  - revert E. unfold UpdateIssuer. atomic_steps.
Qed.

Lemma ActivateIssuer_mutation m : issuer_mutation (ActivateIssuer m).
Proof.
  intros d Hwf. destruct (ActivateIssuer m d) as [[row|e] d'] eqn:E.
  - unfold ActivateIssuer in E. db_ok_step E.
    apply update_row_ok in E as (i & Hi & Hw & -> & -> & Hu).
    eapply update_mutated; [done| |done|done|done|done].
    rewrite !andb_true_iff, Z.eqb_eq in Hw. destruct Hw as [[Hid _] _].
    intros j [[Hj%Z.eqb_eq _]%andb_true_iff _]%andb_true_iff. congruence.
  - revert E. unfold ActivateIssuer. atomic_steps.
Qed.

(** Publishing a CRL advances the number of its issuer only. *)
Lemma PublishCrl_quiet m d :
  let d' := (PublishCrl m d).2 in
  db_profiles d' = db_profiles d /\ db_now d' = db_now d /\
  forall o p l, option_Forall2 issuer_equiv (issuer_at d o p l)
    (issuer_at d' o p l).
Proof.
  destruct (PublishCrl m d) as [[c|e] d'] eqn:E; simpl.
  - unfold PublishCrl in E. apply bind_ok in E as (id & d1 & E1 & E).
    apply ensureID_core in E1 as (Ei & Ep & En). db_ok_step E.
    rename select (setIssuerCrlNumber _ _ _ _ = _) into Es.
    apply setIssuerCrlNumber_ok in Es as (i & _ & _ & _ & _ & _ & _ & ->).
    simpl. split_and!; [done..|]. intros o p l. unfold issuer_at. simpl.
    rewrite find_update_all, Ei by (by intros r Hr _).
    destruct (List.find _ _) as [r|]; simpl; constructor.
    by destruct (_ && _).
  - apply (atomic_bind (ensureID (l_ID m))) in E as [n ->];
      [|auto with go|intros; atomic_steps].
    split_and!; [done..|]. by apply same_issuers.
Qed.

Lemma RegisterProfile_mutation m d res d' :
  RegisterProfile m d = (Ok res, d') ->
  profiles_same_but d d' (p_OrgID m) (p_ProjectID m) (p_Label m) /\
  p_Label res = p_Label m /\ db_issuers d' = db_issuers d /\
  db_now d' = db_now d.
Proof.
  unfold RegisterProfile. intros E. apply bind_ok in E as (id & d1 & E1 & E).
  apply ensureID_core in E1 as (Ei & Ep & En). db_ok_step E.
  apply upsert_row_ok in E. unfold profiles_same_but, profile_at. simpl.
  rewrite <-Ep.
  destruct E as [(_ & -> & -> & _)|(old & Hold & Hk & _ & -> & _ & ->)].
  - split_and!; [|done..]. intros o p l Hne.
    by rewrite find_snoc by (by apply FindProfile_where_false).
  - simpl in Hk. split_and!; [|simpl; congruence|done..]. intros o p l Hne.
    symmetry. apply find_update_other. intros r Hr Hw%bool_decide_eq_true.
    simpl in Hw. apply pair_equal_spec in Hw as [[E1 E2]%pair_equal_spec E3].
    split; apply FindProfile_where_false; simpl; rewrite E1, E2, E3; done.
Qed.

Lemma RegisterProfile_atomic m : atomic (RegisterProfile m).
Proof. unfold RegisterProfile. atomic_steps. Qed.

Lemma DeleteProfile_mutation o id r d :
  db_wf d -> r ∈ db_profiles d -> p_ID r = id ->
  let d' := (DeleteProfile o id d).2 in
  profiles_same_but d d' (p_OrgID r) (p_ProjectID r) (p_Label r) /\
  db_issuers d' = db_issuers d /\ db_now d' = db_now d.
Proof.
  intros [_ _ _ [Hu _] _] Hr Hid. split_and!; [|done..]. intros o' p' l' Hne.
  unfold profile_at. simpl. symmetry. apply find_filter_other.
  intros q Hq Hw%negb_false_iff. apply andb_true_iff in Hw as [_ Hw%Z.eqb_eq].
  assert (q = r) as ->; [|by apply FindProfile_where_false].
  apply Forall_inv in Hu. eapply (NoDup_key_inj p_ID); eauto. congruence.
Qed.
End mutations.

(** ** Mutations through this instance *)

Section instance.
Context `{XdbLaws, Codec, IdGen, ChainLib, ProfileCodec, AuthorityLaws, LRULaws}.

(** The state the services run in: a well-formed database and caches that
    answer as it does. *)
Definition rg_good (ttl : Z) (s : RgState) : Prop :=
  coherent ttl s /\ db_wf (rg_db s).

(** A mutation of an issuer, and the invalidation the callers run after it. *)
Definition then_invalidate (m : M Db Issuer) : M RgState Issuer :=
  let! row := in_db m in
  InvalidateIssuer (Some row) ;;;
  ret row.

Lemma coherent_seq ttl n s :
  coherent ttl s -> coherent ttl (set_rg_db (set_seq n (rg_db s)) s).
Proof.
  intros Hc. apply coherent_other; [done|simpl; lia| |done].
  by apply same_issuers.
Qed.

Lemma then_invalidate_good ttl m :
  issuer_mutation m -> preserves db_wf m ->
  preserves (rg_good ttl) (then_invalidate m).
Proof.
  intros Hm Hwf s [Hc Hd]. unfold then_invalidate, in_db.
  specialize (Hm _ Hd). specialize (Hwf _ Hd). unfold bind.
  destruct (m (rg_db s)) as [[row|e] d'].
  - destruct Hm as (Hs & Hp & Hn). split; [|done].
    apply coherent_InvalidateIssuer; [done|lia|done|done].
  - destruct Hm as [n ->]. split; [|done]. by apply coherent_seq.
Qed.
End instance.

(** ** Staleness across instances

    A history of one registry: the database and the key providers change at
    will (other instances write them, and the clock runs), and the
    operations of this instance run one at a time.  The log is every state
    of the database the registry lived with. *)

Section staleness.
Context `{XdbLaws, Codec, ChainLib, ProfileCodec, AuthorityLaws, LRULaws}.
Context (keys : Keys) (ttl : Z).

Inductive rg_call :=
| CallResolve (req : option ResolveRequest)
| CallFindProfile (orgID projectID : Z) (label : string)
| CallFindIssuer (orgID projectID : Z) (label : string)
| CallIssuer (row : Issuer)
| CallBySKID (skid : string)
| CallByKeyHash (alg : Z) (hash : string)
| CallInvalidateIssuer (row : option Issuer)
| CallInvalidateProfile (orgID projectID : Z) (label : string)
| CallPurge.

Definition run_call (c : rg_call) (s : RgState) : RgState :=
  match c with
  | CallResolve req => (Resolve keys req s).2
  | CallFindProfile o p l => (Registry_FindProfile o p l s).2
  | CallFindIssuer o p l => (Registry_FindIssuer o p l s).2
  | CallIssuer row => (Registry_Issuer keys row s).2
  | CallBySKID skid => (IssuerBySKID keys skid s).2
  | CallByKeyHash alg hash => (IssuerByKeyHash keys alg hash s).2
  | CallInvalidateIssuer row => (InvalidateIssuer row s).2
  | CallInvalidateProfile o p l => (InvalidateProfile o p l s).2
  | CallPurge => (Purge s).2
  end.

Inductive rg_history : list Db -> RgState -> Prop :=
| rh_new d w size : rg_history [d] (NewRegistry d w ttl size)
| rh_world log s d w :
    rg_history log s -> (rg_now s <= db_now d)%Z ->
    rg_history (d :: log) (set_rg_db d (set_rg_world w s))
| rh_call log s c : rg_history log s -> rg_history log (run_call c s).

Definition period : Z := cmp_or ttl DefaultCacheTTL.

(** The row was what the key resolved to at a moment of the log at most one
    TTL before. *)
Definition seen_issuer (log : list Db) (t : Z) (k : scopeKey) (m : Issuer)
  : Prop :=
  exists d, d ∈ log /\ issuer_of d k = Some m /\ (t <= db_now d + period)%Z.
Definition seen_profile (log : list Db) (t : Z) (k : scopeKey)
    (p : CertificateProfile) : Prop :=
  exists d, d ∈ log /\ profile_of d k = Some p /\ (t <= db_now d + period)%Z.

Definition history_inv (log : list Db) (s : RgState) : Prop :=
  rg_inv (rg_db s) period (seen_issuer log) (seen_profile log) s /\
  rg_db s ∈ log.

Lemma seen_profile_label log t k p :
  seen_profile log t k p -> p_Label p = sk_label k.
Proof. by intros (d & _ & (_ & ? & _)%profile_of_scope & _). Qed.

Context (Httl : (0 <= ttl)%Z).

Lemma period_nonneg : (0 <= period)%Z.
Proof. unfold period, cmp_or, DefaultCacheTTL. destruct (_ =? _)%Z; lia. Qed.

Lemma seen_issuer_here log d t k m :
  d ∈ log -> issuer_of d k = Some m ->
  (db_now d <= t <= db_now d + period)%Z -> seen_issuer log t k m.
Proof. intros Hd Hm Ht. exists d. split_and!; [done..|lia]. Qed.
Lemma seen_profile_here log d t k p :
  d ∈ log -> profile_of d k = Some p ->
  (db_now d <= t <= db_now d + period)%Z -> seen_profile log t k p.
Proof. intros Hd Hm Ht. exists d. split_and!; [done..|lia]. Qed.

(** Dropping entries keeps the invariant. *)
Lemma inv_dropped log s c1 c2 c3 :
  history_inv log s ->
  (forall t k e, lru_Get t c1 k = Some e ->
     lru_Get t (rg_issuers s) k = Some e) ->
  (forall t k m, (rg_now s <= t)%Z -> lru_Get t c2 k = Some m ->
     lru_Get t (rg_issuerLabels s) k = Some m) ->
  (forall t k p, (rg_now s <= t)%Z -> lru_Get t c3 k = Some p ->
     lru_Get t (rg_profiles s) k = Some p) ->
  lru_TTL c2 = lru_TTL (rg_issuerLabels s) -> lru_TTL c3 = lru_TTL (rg_profiles s) ->
  history_inv log (mkRg (rg_db s) (rg_world s) (rg_heap s) c1 c2 c3).
Proof.
  intros [[Hdb [T1 T2] Hl Hp He Hh] Hin] D1 D2 D3 E1 E2. split; [|done].
  split; simpl; try done.
  - by rewrite E1, E2.
  - intros t k m Ht Hg. apply Hl; [done|]. by apply D2.
  - intros t k p Ht Hg. apply Hp; [done|]. by apply D3.
  - intros t id e Hg. by eapply He, D1.
Qed.

Lemma keeps_history {A} log (m : M RgState A) :
  (forall d, d ∈ log ->
     preserves (rg_inv d period (seen_issuer log) (seen_profile log)) m) ->
  preserves (history_inv log) m.
Proof.
  intros Hm s [Hs Hin]. specialize (Hm _ Hin s Hs).
  unfold history_inv. by rewrite (inv_db _ _ _ _ _ Hm).
Qed.

Lemma call_inv log s c : history_inv log s -> history_inv log (run_call c s).
Proof.
  pose proof period_nonneg as Hpos. intros Hs.
  destruct c as [req|o p l|o p l|row|skid|alg hash|row|o p l|]; simpl.
  1-6: eapply keeps_history; [|exact Hs]; intros d Hd;
    pose proof (fun t k m => seen_issuer_here log d t k m Hd) as HP;
    pose proof (fun t k m => seen_profile_here log d t k m Hd) as HQ.
  - apply Resolve_keeps; auto. apply seen_profile_label.
  - eapply yields_preserves, FindProfile_yields; auto.
  - eapply yields_preserves, FindIssuer_yields; auto.
  - unfold Registry_Issuer. apply preserves_bind; [|auto with go].
    eapply yields_preserves, entry_yields; auto. apply seen_profile_label.
  - apply IssuerBySKID_keeps; auto. apply seen_profile_label.
  - apply IssuerByKeyHash_keeps; auto. apply seen_profile_label.
  - destruct row as [row|]; [|done].
    apply (inv_dropped log s _ _ _ Hs); [..|by rewrite invalidateLabel_ttl|done].
    + intros t k e Hg. by apply lru_get_remove_other in Hg.
    + intros t k m Ht Hg. by apply invalidateLabel_get in Hg as [? _].
    + by intros.
  - apply (inv_dropped log s _ _ _ Hs); [by intros|by intros|..|done
      |by rewrite invalidateLabel_ttl].
    intros t k m Ht Hg. by apply invalidateLabel_get in Hg as [? _].
  - apply (inv_dropped log s _ _ _ Hs); [..|by rewrite lru_ttl_purge|by rewrite lru_ttl_purge].
    + intros t k e. by rewrite lru_get_purge.
    + intros t k e _. by rewrite lru_get_purge.
    + intros t k e _. by rewrite lru_get_purge.
Qed.

Lemma rg_history_inv log s : rg_history log s -> history_inv log s.
Proof.
  induction 1 as [d w size|log s d w _ [[Hdb Ht Hl Hp He Hh] Hin] Hle|log s c _ IH].
  - split; [|by apply list_elem_of_singleton]. split; simpl.
    + done.
    + by rewrite !lru_ttl_new.
    + intros t k m _. by rewrite lru_get_new.
    + intros t k p _. by rewrite lru_get_new.
    + intros t id e. by rewrite lru_get_new.
    + intros a i n ap. by rewrite lookup_nil.
  - split; [|left]. split; simpl; try done; intros t k x Hnow Hg.
    + apply Hl in Hg as (d0 & ? & ? & ?);
        [|unfold rg_now in *; simpl in *; lia].
      exists d0. split; [by right|done].
    + apply Hp in Hg as (d0 & ? & ? & ?);
        [|unfold rg_now in *; simpl in *; lia].
      exists d0. split; [by right|done].
  - by apply call_inv.
Qed.

(** What a resolution rests on. *)
Definition fresh_resolution (log : list Db) (now : Z) (req : ResolveRequest)
    (res : Resolution) : Prop :=
  let at_ label := mkScopeKey (rq_Org req) (rq_Project req) label in
  let p := rs_ProfileRow res in
  let label := if decide (p_IssuerLabel p = AnyIssuerLabel)
               then rq_IssuerLabel req else p_IssuerLabel p in
  (exists d, d ∈ log /\ (now <= db_now d + period)%Z /\
     profile_of d (at_ (rq_Profile req)) = Some p) /\
  (exists d row, d ∈ log /\ (now <= db_now d + period)%Z /\
     issuer_of d (at_ label) = Some row /\ i_Status row = IssuerStatus_Active /\
     i_ID (rs_Row res) = i_ID row /\
     (i_UpdatedAt row <= i_UpdatedAt (rs_Row res))%Z) /\
  (rq_IssuerLabel req = EmptyString \/ rq_IssuerLabel req = label) /\
  p_OrgID p = rq_Org req /\ p_Status p = ItemStatus_Active /\
  (p_ProjectID p = rq_Project req \/ p_ProjectID p = 0%Z) /\
  (exists allowed, profileBinds p (rs_Row res) allowed = true) /\
  rs_ProfileName res = profileName p /\
  registered (rs_ProfileName res) (rs_Profile res).

(** C28: A sign request is served by the tenant's own profile and issuer, and
    never by rows older than the cache period.  In any history of database
    changes by any instance, calls and invalidations, a resolution rests on
    an active profile and on an active issuer the database resolved for the
    org and project of the request, in the project or org-wide, at a moment
    at most one TTL earlier; the issuer that signs was built from that row
    or a later version of it, binds the profile, and signs with a conversion
    of a profile row of that name. *)
Theorem resolve_scoped_and_fresh (log : list Db) (s s' : RgState)
    (req : ResolveRequest) (res : Resolution)
    (Hist : rg_history log s)
    (Hok : Resolve keys (Some req) s = (Ok res, s')) :
  fresh_resolution log (rg_now s) req res.
Proof.
  apply rg_history_inv in Hist as [Hs Hin]. pose proof period_nonneg.
  destruct (Resolve_yields (rg_db s) period (seen_issuer log) (seen_profile log)
    (fun t k m => seen_issuer_here log _ t k m Hin)
    (fun t k m => seen_profile_here log _ t k m Hin)
    ltac:(done) (seen_profile_label log) keys req s Hs) as [_ Hr].
  rewrite Hok in Hr. specialize (Hr res eq_refl).
  destruct Hr as ((dp & Hdp & Hp & Htp) & (row & label & (di & Hdi & Hi & Hti)
    & -> & Hl & Hact & Hid & Hup) & Hb & Hn & Hreg).
  pose proof (profile_of_scope _ _ _ Hp) as (Ho & _ & Hpr & Hst & _).
  unfold fresh_resolution. split_and!; try done; eauto 10.
Qed.
End staleness.
