(* ===== verification/Crl.v ===== *)
(** CRL publication: [internal/ca/crl.go].

    The publisher signs the CRL of an issuer when the current one is due and
    stores it with the next number; when another publisher stored one first
    it reads the issuer again and signs once more.  A run publishes the CRLs
    of the issuers of a scope, page by page, and counts every issuer once.
    Signing and the PEM encoding are libraries ([CrlLib]); times are
    milliseconds and durations nanoseconds, compared exactly. *)
From Stdlib Require Import ZArith Lia Ascii.
From stdpp Require Import base list gmap strings pretty.
From S2P Require Import Prelude GoStrings Xdb Tenancy Model Query Sql CaQuery CaDb PathLength Base64 Keys Pbconv Lru Registry.

(** ** Library calls *)

Record RevocationListEntry := mkRevocationEntry {
  re_SerialNumber : Z; re_RevocationTime : Z; re_ReasonCode : Z }.

(** The template of [x509.CreateRevocationList]. *)
Record RevocationList := mkRevocationList {
  rl_Number : Z; rl_ThisUpdate : Z; rl_NextUpdate : Z;
  rl_Entries : list RevocationListEntry }.

Class CrlLib `{KeyLib} := {
  (** the DER, in PEM, of the CRL signed for the issuer certificate *)
  CreateRevocationList : RevocationList -> x509_Certificate -> signer_t ->
                         result string;
  ParseRevocationList : string -> option RevocationList }.

(** The encoded times are whole seconds. *)
Definition to_seconds (t : Z) : Z := (t - t mod 1000)%Z.
Definition encoded (t : RevocationList) : RevocationList :=
  mkRevocationList (rl_Number t) (to_seconds (rl_ThisUpdate t))
    (to_seconds (rl_NextUpdate t))
    ((fun e => mkRevocationEntry (re_SerialNumber e)
        (to_seconds (re_RevocationTime e)) (re_ReasonCode e)) <$> rl_Entries t).

(** A signed CRL parses to its template. *)
Class CrlLaws `{CrlLib} :=
  ParseRevocationList_Create t c s pem :
    CreateRevocationList t c s = Ok pem ->
    ParseRevocationList pem = Some (encoded t).

(** [big.Int.SetString(s, 10)]: an optional sign and digits. *)
Definition digit (c : ascii) : option Z :=
  if byte_in c 48 57 then Some (Z.of_nat (nat_of_ascii c - 48)) else None.
Fixpoint digits (acc : Z) (s : string) : option Z :=
  match s with
  | EmptyString => Some acc
  | String c r => match digit c with
                  | Some d => digits (acc * 10 + d) r
                  | None => None
                  end
  end.
Definition digits1 (s : string) : option Z :=
  if bool_decide (s = EmptyString) then None else digits 0 s.
Definition SetString10 (s : string) : option Z :=
  match s with
  | String "+" r => digits1 r
  | String "-" r => Z.opp <$> digits1 r
  | _ => digits1 s
  end.

(** Nanoseconds of a time in milliseconds, and back. *)
Definition ns (t : Z) : Z := (t * 1000000)%Z.
Definition of_ns (t : Z) : Z := (t / 1000000)%Z.

(** ** When a CRL is due *)

Definition expiredAt (notAfter now : Z) : bool :=
  negb (IsZero notAfter) && negb (now <? notAfter)%Z.

Definition issuerExpired (row : Issuer) (now : Z) : bool :=
  expiredAt (i_NotAfter row) now.

(** The next update is within the renewal period. *)
Definition crlDueAt (nextUpdate renewal now : Z) : bool :=
  negb (ns now + renewal <? ns nextUpdate)%Z.

Definition CrlDue (current : option Crl) (renewal now : Z) : bool :=
  match current with
  | None => true
  | Some l => crlDueAt (l_NextUpdate l) renewal now
  end.

Definition CrlStatuses : list IssuerStatus_Enum :=
  [IssuerStatus_Active; IssuerStatus_Archived].
Definition crlPageSize : Z := 1000.
Definition issuerPageSize : Z := 100.
Definition publishAttempts : nat := 2.

Record CrlCounts := mkCrlCounts {
  ct_Issuers : Z; ct_Current : Z; ct_Due : Z; ct_Overdue : Z;
  ct_Missing : Z }.

Record PublishCrlsRequest := mkPublishCrls {
  pc_OrgID : Z; pc_AllOrgs : bool; pc_ProjectID : Z;
  pc_ProjectIDs : option (list Z); pc_Force : bool }.

Record PublishCrlsResult := mkPublishResult {
  pr_Crls : list Crl; pr_Skipped : Z; pr_Failed : Z }.

Section publisher.
Context `{Xdb, Codec, IdGen, ChainLib, ProfileCodec, Authority, !CrlLib, LRU}.

Definition renewalOf (id : Z) (label : string) (cfg : IssuerConfig)
  : result Z :=
  let? acfg := with_message_r ("invalid config of issuer " ++ id_string id)
                 (IssuerConfigFromPb label (Some cfg)) in
  Ok (GetCRLRenewal (default emptyAIA (ac_AIA acfg))).

Definition crlRenewal (row : Issuer) : result Z :=
  let? cfg := GetConfig (id_string (i_ID row)) (i_Config row) in
  renewalOf (i_ID row) (i_Label row) cfg.

(** *** Counting *)

(** One state of the loop of [CountCrls]. *)
Definition countCrl (now : Z) (res : CrlCounts) (st : CrlState)
  : result CrlCounts :=
  let '(mkCrlCounts n cur due over miss) := res in
  if expiredAt (cs_NotAfter st) now then Ok res
  else if IsZero (cs_NextUpdate st)
  then Ok (mkCrlCounts (n + 1) cur due over (miss + 1))
  else if negb (now <? cs_NextUpdate st)%Z
  then Ok (mkCrlCounts (n + 1) cur due (over + 1) miss)
  else
  let? cfg := GetConfig (id_string (cs_ID st)) (cs_Config st) in
  let? renewal := renewalOf (cs_ID st) (cs_Label st) cfg in
  if crlDueAt (cs_NextUpdate st) renewal now
  then Ok (mkCrlCounts (n + 1) cur (due + 1) over miss)
  else Ok (mkCrlCounts (n + 1) (cur + 1) due over miss).

Fixpoint countCrls (now : Z) (res : CrlCounts) (states : list CrlState)
  : result CrlCounts :=
  match states with
  | [] => Ok res
  | st :: rest => let? res := countCrl now res st in countCrls now res rest
  end.

Definition CountCrls (states : list CrlState) (now : Z) : result CrlCounts :=
  countCrls now (mkCrlCounts 0 0 0 0 0) states.

(** *** Building *)

(** One revocation of a page. *)
Definition crlEntry (r : Revoked) : result RevocationListEntry :=
  match SetString10 (r_SerialNumber r) with
  | None => Err (OtherError ("invalid serial number " ++ r_SerialNumber r ++
                   " of revoked certificate " ++ id_string (r_CertificateID r)))
  | Some serial =>
      Ok (mkRevocationEntry serial (r_RevokedAt r) (r_Reason r))
  end.

Fixpoint appendEntries (entries : list RevocationListEntry)
    (rows : list Revoked) : result (list RevocationListEntry) :=
  match rows with
  | [] => Ok entries
  | r :: rest =>
      let? e := crlEntry r in appendEntries (entries ++ [e]) rest
  end.

Definition crlRevokedRequest (ikid : string) (now : Z) (c : Cursor)
  : ListRevokedRequest :=
  mkListRevoked (mkScope 0 false true 0 Scope_Undefined None) ikid (Some now)
    (mkPageRequest crlPageSize 0 c).

(** The page loop; no page is empty but the last, so a fuel of one more than
    the revocations is never exhausted. *)
Definition crlEntries (ikid : string) (now : Z)
  : M RgState (list RevocationListEntry) := fun s =>
  let page c := match (ListRevoked (crlRevokedRequest ikid now c) (rg_db s)).1 with
                | Ok p => Ok p
                | Err e => Err (WithMessage e "unable to list revoked certificates")
                end in
  match readPages page appendEntries (S (length (db_revoked (rg_db s))))
          (NewCursor 0) [] with
  | Some r => (r, s)
  | None => (Err (OtherError "out of fuel"), s)
  end.

(** The row to store and the number of its entries. *)
Definition buildCrl (issuer : auth_Issuer) (row : Issuer) (number now : Z)
  : M RgState (Crl * nat) :=
  let! entries := crlEntries (i_Skid row) now in
  match b_Cert (Issuer_Bundle issuer) with
  | None => fail (OtherError "nil certificate")
  | Some cert =>
      let nextUpdate := (ns now + Issuer_CrlExpiry issuer)%Z in
      let nextUpdate := if (ns (x_NotAfter cert) <? nextUpdate)%Z
                        then ns (x_NotAfter cert) else nextUpdate in
      guard (ns now <? nextUpdate)%Z ErrIssuerExpired ;;;
      let template := mkRevocationList number now (of_ns nextUpdate) entries in
      let! pem := lift_result (with_message_r
        ("unable to sign CRL of issuer " ++ id_string (i_ID row))
        (CreateRevocationList template cert (Issuer_Signer issuer))) in
      ret (mkCrl 0 (i_OrgID row) (i_ProjectID row) (i_ID row) (i_Skid row)
             number now (of_ns nextUpdate) (i_Subject row) pem [] 0,
           length entries)
  end.

(** *** Publishing one CRL *)

Definition currentCrl (ikid : string) : M RgState (option Crl) :=
  catch (in_db (GetCrl ikid)) (fun r =>
    match r with
    | Ok l => ret (Some l)
    | Err e => if IsNotFoundError e then ret None
               else fail (WithMessage e "unable to read current CRL")
    end).

(** The attempts to sign and store; [more] are left after this one. *)
Fixpoint publishLoop (more : nat) (issuer : auth_Issuer) (row : Issuer)
    (force : bool) (renewal now : Z) : M RgState (option Crl * bool) :=
  let! built := buildCrl issuer row (i_CrlNumber row + 1) now in
  catch (in_db (PublishCrl built.1)) (fun r =>
    match r with
    | Ok stored => ret (Some stored, true)
    | Err e =>
        match errors_Is e ErrStaleCrlNumber, more with
        | true, S more =>
            let! row := with_message_m "unable to read issuer"
                          (in_db (GetIssuer (i_ID row))) in
            guard (crlStatus (i_Status row)) ErrIssuerNotActive ;;;
            let! current := currentCrl (i_Skid row) in
            if negb force && negb (CrlDue current renewal now)
            then ret (current, false)
            else publishLoop more issuer row force renewal now
        | _, _ => fail (WithMessage e ("unable to publish CRL of issuer " ++
                                       id_string (i_ID row)))
        end
    end).

(** [time.Now().UTC().Truncate(time.Second)] *)
Definition nowSeconds (s : RgState) : Z := to_seconds (rg_now s).

Definition publish (keys : Keys) (row : Issuer) (current : option Crl)
    (force : bool) : M RgState (option Crl * bool) :=
  let! s := get in
  let now := nowSeconds s in
  guard (negb (issuerExpired row now)) ErrIssuerExpired ;;;
  let! renewal := lift_result (crlRenewal row) in
  if negb force && negb (CrlDue current renewal now)
  then ret (current, false)
  else
  let! a := Registry_Issuer keys row in
  let! issuer := deref a in
  publishLoop (publishAttempts - 1) issuer row force renewal now.

Definition Publisher_PublishCrl (keys : Keys) (row : Issuer) (force : bool)
  : M RgState (option Crl * bool) :=
  guard (crlStatus (i_Status row)) ErrIssuerNotActive ;;;
  let! current := currentCrl (i_Skid row) in
  publish keys row current force.

(** *** A run over the issuers of a scope *)

Definition publishOne (keys : Keys) (force : bool) (res : PublishCrlsResult)
    (row : Issuer) (current : option Crl) : M RgState PublishCrlsResult :=
  let '(mkPublishResult crls skipped failed) := res in
  let! s := get in
  if issuerExpired row (rg_now s)
  then ret (mkPublishResult crls (skipped + 1) failed)
  else catch (publish keys row current force) (fun r =>
    ret match r with
        | Err _ => mkPublishResult crls skipped (failed + 1)
        | Ok (Some l, true) => mkPublishResult (crls ++ [l]) skipped failed
        | Ok _ => mkPublishResult crls (skipped + 1) failed
        end).

(** The CRLs by IKID: of equal IKIDs the last. *)
Definition currentCrls (rows : list Issuer) : M RgState (gmap string Crl) :=
  match rows with
  | [] => ret ∅
  | _ => let! crls := with_message_m "unable to read current CRLs"
                        (in_db (GetCrls (i_Skid <$> rows))) in
         ret (foldl (fun m l => <[l_Ikid l := l]> m) ∅ crls)
  end.

Fixpoint publishRows (keys : Keys) (force : bool) (current : gmap string Crl)
    (rows : list Issuer) (res : PublishCrlsResult)
  : M RgState PublishCrlsResult :=
  match rows with
  | [] => ret res
  | row :: rest =>
      let! res := publishOne keys force res row (current !! i_Skid row) in
      publishRows keys force current rest res
  end.

Definition publishRequest (req : PublishCrlsRequest) (st : IssuerStatus_Enum)
    (c : Cursor) : ListIssuersRequest :=
  mkListIssuers (mkScope (pc_OrgID req) false (pc_AllOrgs req)
      (pc_ProjectID req) Scope_Undefined (pc_ProjectIDs req))
    0 "" st AuthorityType_Unknown [] [] (mkPageRequest issuerPageSize 0 c).

(** The loop over the pages of a status.  The result is kept when the run
    stops: an error is returned next to it. *)
Fixpoint publishPages (keys : Keys) (req : PublishCrlsRequest)
    (st : IssuerStatus_Enum) (fuel : nat) (c : Cursor)
    (res : PublishCrlsResult) : M RgState (PublishCrlsResult * option error) :=
  match fuel with
  | O => fail (OtherError "out of fuel")
  | S fuel =>
      catch (in_db (ListIssuers (publishRequest req st c))) (fun r =>
        match r with
        | Err e => ret (res, Some (WithMessage e "unable to list issuers"))
        | Ok page =>
            catch (currentCrls (pr_rows page)) (fun r =>
              match r with
              | Err e => ret (res, Some e)
              | Ok current =>
                  let! res := publishRows keys (pc_Force req) current
                                (pr_rows page) res in
                  if negb (pr_hasNext page) then ret (res, None)
                  else match ParseCursor (pr_cursor page) with
                  | Err e =>
                      ret (res, Some (WithMessage e "unable to list issuers"))
                  | Ok c => publishPages keys req st fuel c res
                  end
              end)
        end)
  end.

Fixpoint publishStatuses (keys : Keys) (req : PublishCrlsRequest)
    (statuses : list IssuerStatus_Enum) (res : PublishCrlsResult)
  : M RgState (PublishCrlsResult * option error) :=
  match statuses with
  | [] => ret (res, None)
  | st :: rest =>
      let! s := get in
      let! done := publishPages keys req st
                     (S (length (db_issuers (rg_db s)))) (NewCursor 0) res in
      match done.2 with
      | Some e => ret done
      | None => publishStatuses keys req rest done.1
      end
  end.

Definition PublishCrls (keys : Keys) (req : PublishCrlsRequest)
  : M RgState (PublishCrlsResult * option error) :=
  publishStatuses keys req CrlStatuses (mkPublishResult [] 0 0).
End publisher.
