(* ===== verification/CrlFacts.v ===== *)
(** Facts of CRL publication: a CRL lists exactly the revocations that are
    still valid, its number grows and its period ends with the issuer
    certificate; a run counts every issuer of the scope once; the counts of
    the summary agree with what the publisher would do. *)
From Stdlib Require Import ZArith Lia.
From stdpp Require Import base list gmap strings pretty.
From S2P Require Import Prelude GoStrings Xdb Tenancy Model Query Sql CaQuery CaDb CaDbFacts PathLength Base64 Keys Pbconv Lru Registry RegistryFacts RegistryDb Crl.

(** The rows have distinct IDs, none of them zero: what a cursor needs. *)
Definition ids_ok {R} (rid : R -> Z) (rows : list R) : Prop :=
  NoDup (rid <$> rows) /\ Forall (fun r => rid r <> 0%Z) rows.

Lemma ids_ok_filter {R} (rid : R -> Z) f rows :
  ids_ok rid rows -> ids_ok rid (List.filter f rows).
Proof.
  intros [Hn Hz]. split; [by apply NoDup_fmap_filter|].
  rewrite Forall_forall in *. intros r [Hr _]%filter_elem. auto.
Qed.

Lemma revoked_ids_ok d :
  db_wf d -> (forall r, r ∈ db_revoked d -> r_ID r <> 0%Z) ->
  ids_ok r_ID (db_revoked d).
Proof.
  intros [[_ Hu _ _ _ _] _ _ _ _] Hz. split; [|by apply Forall_forall].
  apply (uniques_elem _ _ (Unique "revoked_pkey" _ _ r_ID) Hu). set_solver.
Qed.

(** ** The entries of a CRL *)

Section entries.
Context `{XdbLaws, Codec, ChainLib, ProfileCodec, Authority, !CrlLib, LRU}.

(** The entries of the rows in order, or the first that does not parse. *)
Fixpoint entriesOf (rows : list Revoked) : result (list RevocationListEntry) :=
  match rows with
  | [] => Ok []
  | r :: rest => let? e := crlEntry r in
                 let? es := entriesOf rest in Ok (e :: es)
  end.

Lemma appendEntries_of acc rows :
  appendEntries acc rows = let? es := entriesOf rows in Ok (acc ++ es).
Proof.
  revert acc. induction rows as [|r rows IH]; intros acc; simpl.
  - by rewrite app_nil_r.
  - destruct (crlEntry r) as [e|]; [|done]. simpl. rewrite IH.
    destruct (entriesOf rows); [|done]. simpl. by rewrite <-app_assoc.
Qed.

Lemma entriesOf_app l1 l2 :
  entriesOf (l1 ++ l2) =
  let? a := entriesOf l1 in let? b := entriesOf l2 in Ok (a ++ b).
Proof.
  induction l1 as [|r l1 IH]; simpl; [by destruct (entriesOf l2)|].
  destruct (crlEntry r); [|done]. simpl. rewrite IH.
  destruct (entriesOf l1); [|done]. simpl. by destruct (entriesOf l2).
Qed.

Lemma foldPages_entries acc pages :
  foldPages appendEntries acc pages =
  let? es := entriesOf (concat pages) in Ok (acc ++ es).
Proof.
  revert acc. induction pages as [|p pages IH]; intros acc; simpl.
  - by rewrite app_nil_r.
  - rewrite appendEntries_of, entriesOf_app.
    destruct (entriesOf p); [|done]. simpl. rewrite IH.
    destruct (entriesOf (concat pages)); [|done]. simpl. by rewrite <-app_assoc.
Qed.

(** The revocations of the issuer whose certificate is valid after the
    time, newest first. *)
Definition crlRows (d : Db) (ikid : string) (now : Z) : list Revoked :=
  pageByIDDesc r_ID (List.filter
    (ListRevoked_where (crlRevokedRequest ikid now (NewCursor 0)))
    (db_revoked d)).

Lemma whereTenancy_all o p :
  whereTenancy (scopeParams (mkScope 0 false true 0 Scope_Undefined None)) o p
  = true.
Proof.
  unfold whereTenancy, scopeParams. apply andb_true_iff.
  rewrite whereOrgScope_list, whereProjectScope_list by done.
  unfold org_selected, project_selected. by rewrite !decide_True.
Qed.

Lemma crlRows_elem d ikid now r :
  ikid <> EmptyString ->
  r ∈ crlRows d ikid now <->
  r ∈ db_revoked d /\ r_Ikid r = ikid /\ (now < r_NotAfter r)%Z.
Proof.
  intros Hk. unfold crlRows. rewrite pageByIDDesc_perm, filter_elem.
  unfold ListRevoked_where. cbn [lv_Scope lv_IKID lv_ValidAfter crlRevokedRequest].
  rewrite whereTenancy_all, andb_true_iff, Z.ltb_lt. unfold textIs.
  rewrite bool_decide_false by done. simpl. rewrite bool_decide_eq_true. done.
Qed.

Lemma crlEntries_run ikid now s :
  ids_ok r_ID (db_revoked (rg_db s)) ->
  crlEntries ikid now s = (entriesOf (crlRows (rg_db s) ikid now), s).
Proof.
  intros Hids. unfold crlEntries.
  set (rows := List.filter
    (ListRevoked_where (crlRevokedRequest ikid now (NewCursor 0)))
    (db_revoked (rg_db s))).
  erewrite readPages_ext; [|intros c Hc|apply NewCursor_id].
  2: { unfold ListRevoked, bind, lift_result, ListRevokedRequest_Validate,
         listValidate. simpl. rewrite id_cursor_key by done. simpl.
       instantiate (1 := fun c => Ok (listRows r_ID rows crlPageSize 0 c)).
       done. }
  destruct (ids_ok_filter r_ID (ListRevoked_where
    (crlRevokedRequest ikid now (NewCursor 0))) _ Hids) as [Hnd Hz].
  fold rows in Hnd, Hz.
  destruct (readPages_spec r_ID rows crlPageSize appendEntries Hnd Hz
    ltac:(by vm_compute) (S (length (db_revoked (rg_db s))))
    (pageByIDDesc r_ID rows) [] []) as (pages & Hc & Hr); [done| |].
  { rewrite (Permutation_length (pageByIDDesc_perm r_ID rows)).
    pose proof (List.filter_length_le (ListRevoked_where
      (crlRevokedRequest ikid now (NewCursor 0))) (db_revoked (rg_db s))).
    unfold rows. lia. }
  change (cursor_after r_ID []) with (NewCursor 0) in Hr. rewrite Hr.
  rewrite foldPages_entries, Hc. unfold crlRows. fold rows.
  by destruct (entriesOf _).
Qed.
End entries.

(** ** The registry does not write to the database *)

(** [kept m]: the database is as it was. *)
Definition kept `{Xdb, Codec, ChainLib, ProfileCodec, Authority, LRU} {A}
    (m : M RgState A) : Prop :=
  forall d, preserves (fun s => rg_db s = d) m.

(** A read of the database. *)
Definition reads {A} (m : M Db A) : Prop := forall d, (m d).2 = d.

Section kept.
Context `{Xdb, Codec, ChainLib, ProfileCodec, Authority, LRU}.

Lemma kept_ok {A} (m : M RgState A) s r s' :
  kept m -> m s = (r, s') -> rg_db s' = rg_db s.
Proof. intros Hk E. pose proof (Hk (rg_db s) s eq_refl) as Hs. by rewrite E in Hs. Qed.

Lemma kept_in_db {A} (m : M Db A) : reads m -> kept (in_db m).
Proof.
  intros Hr d s <-. specialize (Hr (rg_db s)). unfold in_db.
  by destruct (m (rg_db s)).
Qed.
Lemma kept_in_world {A} (m : M world A) : kept (in_world m).
Proof. intros d s <-. unfold in_world. by destruct (m (rg_world s)). Qed.
Lemma kept_deref a : kept (deref a).
Proof. intros d s <-. unfold deref. by destruct (_ !! a). Qed.

Lemma kept_bind_get {A} d (k : RgState -> M RgState A) :
  (forall s, rg_db s = d -> preserves (fun s => rg_db s = d) (k s)) ->
  preserves (fun s => rg_db s = d) (bind get k).
Proof. intros Hk s Hs. by apply (Hk s). Qed.

Lemma reads_select {R A} (t : Table R) (f : list R -> result A) :
  reads (select t f).
Proof. done. Qed.
Lemma reads_check {A} table key (m : M Db A) :
  reads m -> reads (check_not_found table key m).
Proof.
  intros Hr d. specialize (Hr d). unfold check_not_found, catch.
  destruct (m d) as [[x|e] d1]; simpl in *; [done|].
  by destruct (IsNotFoundError e).
Qed.
Lemma reads_fallback {A} p (m1 m2 : M Db A) :
  reads m1 -> reads m2 -> reads (fallback p m1 m2).
Proof.
  intros Hr1 Hr2 d. specialize (Hr1 d). unfold fallback, catch.
  destruct (m1 d) as [[x|e] d1]; simpl in *; [done|]. subst d1.
  by destruct (_ && _).
Qed.
End kept.

#[export] Hint Resolve kept_in_db kept_in_world kept_deref reads_select
  reads_check reads_fallback : go.
#[export] Hint Extern 2 (reads _) => apply reads_check, reads_select : go.

Ltac kept_steps :=
  repeat first
    [ match goal with
      | |- preserves _ (bind get _) => apply kept_bind_get; intros ? ?
      | |- preserves _ (in_db _) => apply kept_in_db; auto with go
      | |- preserves _ (in_world _) => apply kept_in_world
      | |- preserves _ (deref _) => apply kept_deref
      end
    | preserves_step
    | by intros ? <- ].

Section kept_registry.
Context `{Xdb, Codec, ChainLib, ProfileCodec, Authority, LRU}.

Lemma kept_FindProfile o p l : kept (Registry_FindProfile o p l).
Proof. intros d. unfold Registry_FindProfile. kept_steps. Qed.

Lemma kept_entry keys row : kept (entry keys row).
Proof.
  intros d. unfold entry, cachedEntry, build, delegatedProfile.
  kept_steps; apply kept_FindProfile.
Qed.

Lemma kept_Registry_Issuer keys row : kept (Registry_Issuer keys row).
Proof.
  intros d. unfold Registry_Issuer. apply preserves_bind; [apply kept_entry|].
  auto with go.
Qed.

Lemma kept_currentCrl ikid : kept (currentCrl ikid).
Proof. intros d. unfold currentCrl. kept_steps. Qed.
End kept_registry.

(** ** A published CRL *)

Section published.
Context `{XdbLaws, Codec, IdGen, ChainLib, ProfileCodec, Authority, !CrlLib,
  !CrlLaws, LRU}.

(** The CRL lists the revocations of its issuer that are valid after its
    update, and nothing else. *)
Definition crl_lists (d : Db) (l : Crl) : Prop :=
  exists entries,
    entriesOf (crlRows d (l_Ikid l) (l_ThisUpdate l)) = Ok entries /\
    ParseRevocationList (l_Pem l) = Some (encoded
      (mkRevocationList (l_CrlNumber l) (l_ThisUpdate l) (l_NextUpdate l) entries)).

(** What a publication at the time, from [d] to [d'], promises of its CRL. *)
Record published (cert : x509_Certificate) (id now : Z) (d : Db) (l : Crl)
    (d' : Db) : Prop := {
  pub_number : exists i, i ∈ db_issuers d /\ i_ID i = id /\
    i_Skid i = l_Ikid l /\ (i_CrlNumber i < l_CrlNumber l)%Z;
  pub_ikid : l_Ikid l <> EmptyString;
  pub_this : l_ThisUpdate l = now;
  pub_period : (now < l_NextUpdate l <= x_NotAfter cert)%Z;
  pub_lists : crl_lists d l;
  pub_served : GetCrl (l_Ikid l) d' = (Ok l, d') }.

Lemma of_ns_le t u : (t <= ns u)%Z -> (of_ns t <= u)%Z.
Proof. unfold of_ns, ns. intros Ht. apply Z.div_le_upper_bound; lia. Qed.

Lemma buildCrl_ok issuer row number now s m n s' :
  ids_ok r_ID (db_revoked (rg_db s)) ->
  buildCrl issuer row number now s = (Ok (m, n), s') ->
  s' = s /\ l_IssuerID m = i_ID row /\ l_Ikid m = i_Skid row /\
  l_CrlNumber m = number /\ l_ThisUpdate m = now /\ crl_lists (rg_db s) m /\
  exists cert, b_Cert (Issuer_Bundle issuer) = Some cert /\
    (l_NextUpdate m <= x_NotAfter cert)%Z.
Proof.
  intros Hids E. unfold buildCrl in E. apply bind_ok in E as (es & s1 & Ee & E).
  rewrite crlEntries_run in Ee by done. injection Ee as Ee <-.
  destruct (b_Cert _) as [cert|] eqn:Ec; [|done].
  set (nu := if (_ <? _)%Z then _ else _) in E.
  ok_step E. rename select (with_message_r _ _ = Ok _) into Ep.
  apply with_message_r_ok, ParseRevocationList_Create in Ep. simplify_eq/=.
  split_and!; try done.
  - exists es. by split.
  - exists cert. split; [done|]. apply of_ns_le. unfold nu.
    destruct (Z.ltb_spec (ns (x_NotAfter cert)) (ns now + Issuer_CrlExpiry issuer));
      lia.
Qed.

Lemma PublishCrl_stores m d l d' :
  db_wf d -> PublishCrl m d = (Ok l, d') ->
  l_Ikid l = l_Ikid m /\ l_Pem l = l_Pem m /\ l_CrlNumber l = l_CrlNumber m /\
  l_ThisUpdate l = l_ThisUpdate m /\ l_NextUpdate l = l_NextUpdate m /\
  l_Ikid m <> EmptyString /\ (l_ThisUpdate m < l_NextUpdate m)%Z /\
  (exists i, i ∈ db_issuers d /\ i_ID i = l_IssuerID m /\
     i_Skid i = l_Ikid m /\ (i_CrlNumber i < l_CrlNumber m)%Z) /\
  GetCrl (l_Ikid l) d' = (Ok l, d').
Proof.
  intros Hwf E. pose proof (PublishCrl_wf m d Hwf) as Hwf'. rewrite E in Hwf'.
  simpl in Hwf'. destruct Hwf' as [_ [_ Hu _ _] _ _ _].
  unfold PublishCrl in E. apply bind_ok in E as (id & d1 & E1 & E).
  apply ensureID_core in E1 as (Ei & _ & _). db_ok_step E.
  rename select (setIssuerCrlNumber _ _ _ _ = _) into Es.
  apply setIssuerCrlNumber_ok in Es as (i & Hi & Hid & Hsk & Hlt & -> & _ & ->).
  rewrite Ei in Hi. match type of E with _ = Ok (_, ?r) => rename r into rows end.
  apply upsert_row_ok in E.
  rename select (Crl_Validate _ = Ok _) into Hv.
  rename select (negb (bool_decide (l_Ikid m = _)) = true) into Hne.
  apply negb_true_iff, bool_decide_eq_false in Hne.
  assert (l_ThisUpdate m < l_NextUpdate m)%Z as Hper.
  { revert Hv. unfold Crl_Validate, validPeriod. simpl. go_unfold.
    repeat case_match; try done; intros _;
    rename select (negb (_ && _) = false) into Hp;
    apply negb_false_iff, andb_true_iff in Hp as [_ Hp]; lia. }
  assert (l ∈ rows /\ l_Ikid l = l_Ikid m /\ l_Pem l = l_Pem m /\
    l_CrlNumber l = l_CrlNumber m /\ l_ThisUpdate l = l_ThisUpdate m /\
    l_NextUpdate l = l_NextUpdate m) as (Hin & Hf).
  { destruct E as [(_ & -> & -> & _)|(old & Hold & Hk & _ & -> & _ & ->)]; simpl in *.
    - split; [set_solver|done].
    - split; [|done]. apply update_all_elem. exists old. split; [done|].
      simpl. rewrite bool_decide_true by done. done. }
  split_and!; try naive_solver.
  unfold GetCrl, check_not_found, catch, select. simpl.
  rewrite (select_row_unique _ _ l); [done|done|by apply bool_decide_eq_true|].
  intros x Hx Hxk%bool_decide_eq_true. by apply (crl_ikid_inj rows).
Qed.

Lemma PublishCrl_atomic m : atomic (PublishCrl m).
Proof. unfold PublishCrl. atomic_steps. Qed.

Lemma GetIssuer_id id s row s' :
  in_db (GetIssuer id) s = (Ok row, s') -> i_ID row = id.
Proof.
  unfold in_db, GetIssuer, GetRowByID, check_not_found, catch, select. simpl.
  destruct (select_row _ _) as [x|e] eqn:Ex; simpl; [|by destruct (IsNotFoundError e)].
  apply select_row_ok in Ex as [_ Ex%Z.eqb_eq]. intros. by simplify_eq/=.
Qed.

Lemma publishLoop_ok more issuer force renewal now :
  forall row s l s',
  ids_ok r_ID (db_revoked (rg_db s)) -> db_wf (rg_db s) ->
  publishLoop more issuer row force renewal now s = (Ok (Some l, true), s') ->
  exists cert, b_Cert (Issuer_Bundle issuer) = Some cert /\
    published cert (i_ID row) now (rg_db s) l (rg_db s').
Proof.
  induction more as [|more IH]; intros row s l s' Hids Hwf E; simpl in E;
    apply bind_ok in E as ([m n] & s1 & Eb & E);
    apply buildCrl_ok in Eb as (-> & Hid & Hk & Hnum & Hthis & Hlists &
      cert & Hcert & Hnext); try done;
    unfold catch, in_db in E; simpl in E;
    destruct (PublishCrl m (rg_db s)) as [[stored|e] d'] eqn:Ep.
  1,3: injection E as <- <-;
    destruct (PublishCrl_stores _ _ _ _ Hwf Ep) as (F1 & F2 & F3 & F4 & F5 & Fk & F6 &
      Hi & Hget);
    exists cert; split; [done|]; split; simpl; try done.
  1,6: rewrite F1, F3, <-Hid; done.
  1,5: by rewrite F1.
  1,4: by rewrite F4.
  1,3: lia.
  1,2: destruct Hlists as (es & He & Hp); exists es; by rewrite F1, F2, F3, F4, F5.
  - by destruct (errors_Is e _).
  - destruct (errors_Is e _); [|done].
    destruct (PublishCrl_atomic m _ _ _ Ep) as [k ->].
    apply bind_ok in E as (row' & s1 & Er & E). apply with_message_ok in Er.
    assert (rg_db s1 = set_seq k (rg_db s)) as Hdb
      by (by apply (kept_ok (in_db (GetIssuer (i_ID row)))) in Er; auto with go).
    apply GetIssuer_id in Er.
    apply bind_ok in E as ([] & s2 & Eg & E). apply guard_ok in Eg as [_ ->].
    apply bind_ok in E as (cur & s3 & Ec & E).
    apply kept_ok in Ec as Hdb3; [|apply kept_currentCrl].
    destruct (negb force && _); [done|].
    apply IH in E as (cert' & Hc' & [P1 Pk P2 P3 P4 P5]);
      [|by rewrite Hdb3, Hdb|rewrite Hdb3, Hdb; by apply seq_stable].
    rewrite Hdb3, Hdb in P1, P4. exists cert'. split; [done|].
    rewrite <-Er. by split.
Qed.

(** C21: A published CRL is complete, current and the one served.  A
    publication lists exactly the revocations of the issuer's certificates
    that are valid after its time, whatever their number, in a CRL signed
    for that time whose period ends after it and at the latest with the
    issuer certificate; its number is greater than every number the issuer
    had, and it is the CRL the database serves for the issuer afterwards. *)
Theorem published_crl_complete (keys : Keys) (row : Issuer)
    (current : option Crl) (force : bool) (s s' : RgState) (l : Crl)
    (Hwf : db_wf (rg_db s)) (Hids : forall r, r ∈ db_revoked (rg_db s) -> r_ID r <> 0%Z)
    (Hok : publish keys row current force s = (Ok (Some l, true), s')) :
  (exists a s1 issuer cert,
     Registry_Issuer keys row s = (Ok a, s1) /\ rg_heap s1 !! a = Some issuer /\
     b_Cert (Issuer_Bundle issuer) = Some cert /\
     published cert (i_ID row) (nowSeconds s) (rg_db s) l (rg_db s')) /\
  forall r, r ∈ crlRows (rg_db s) (l_Ikid l) (l_ThisUpdate l) <->
    r ∈ db_revoked (rg_db s) /\ r_Ikid r = l_Ikid l /\
    (nowSeconds s < r_NotAfter r)%Z.
Proof.
  unfold publish in Hok. apply bind_ok in Hok as (s0 & s1 & Eg & Hok).
  injection Eg as <- <-. ok_step Hok. destruct (negb force && _) in Hok; [done|].
  apply bind_ok in Hok as (adr & s1 & Ei & Hok).
  apply bind_ok in Hok as (issuer & s2 & Ed & Hok).
  unfold deref in Ed. destruct (rg_heap s1 !! adr) as [built|] eqn:Ea; [|done].
  injection Ed as <- <-.
  pose proof (kept_ok _ _ _ _ (kept_Registry_Issuer _ _) Ei) as Hdb.
  apply publishLoop_ok in Hok as (cert & Hc & Hp); rewrite ?Hdb in *;
    [|by apply revoked_ids_ok|done].
  split; [by exists adr, s1, built, cert|]. destruct Hp as [_ Hk -> _ _ _].
  intros r. by apply crlRows_elem.
Qed.
End published.

(** ** The counts of the summary *)

Section counts.
Context `{Xdb, Codec, IdGen, ChainLib, ProfileCodec, Authority, !CrlLib, LRU}.

Definition count {A} (f : A -> bool) (l : list A) : Z :=
  Z.of_nat (length (List.filter f l)).

Lemma count_cons {A} (f : A -> bool) x l :
  count f (x :: l) = ((if f x then 1 else 0) + count f l)%Z.
Proof. unfold count. simpl. destruct (f x); simpl; lia. Qed.

(** The current CRL of the issuer. *)
Definition crl_at (d : Db) (i : Issuer) : option Crl :=
  List.find (fun l => bool_decide (l_Ikid l = i_Skid i)) (db_crls d).

(** What the publisher decides of the issuer: it has no CRL, the CRL is past
    its period, or it is within the renewal period. *)
Definition crl_missing (d : Db) (i : Issuer) : bool :=
  match crl_at d i with None => true | Some _ => false end.
Definition crl_overdue (d : Db) (now : Z) (i : Issuer) : bool :=
  match crl_at d i with
  | None => false
  | Some l => negb (now <? l_NextUpdate l)%Z
  end.
Definition crl_due (d : Db) (now : Z) (i : Issuer) : bool :=
  match crlRenewal i with
  | Ok renewal => CrlDue (crl_at d i) renewal now
  | Err _ => true
  end.

Definition alive (now : Z) (i : Issuer) : bool := negb (issuerExpired i now).

(** The counts of the issuers, by what the publisher decides. *)
Definition counts_of (d : Db) (now : Z) (rows : list Issuer) : CrlCounts :=
  let n f := count (fun i => alive now i && f i) rows in
  mkCrlCounts (n (fun _ => true))
    (n (fun i => negb (crl_due d now i)))
    (n (fun i => crl_due d now i && negb (crl_missing d i) &&
                 negb (crl_overdue d now i)))
    (n (crl_overdue d now)) (n (crl_missing d)).

Definition add_counts (a b : CrlCounts) : CrlCounts :=
  mkCrlCounts (ct_Issuers a + ct_Issuers b) (ct_Current a + ct_Current b)
    (ct_Due a + ct_Due b) (ct_Overdue a + ct_Overdue b)
    (ct_Missing a + ct_Missing b).

Lemma counts_of_cons d now i rows :
  counts_of d now (i :: rows) = add_counts (counts_of d now [i]) (counts_of d now rows).
Proof.
  unfold counts_of, add_counts. simpl. by f_equal; rewrite !count_cons, Z.add_0_r.
Qed.

Lemma crl_at_valid d i l : db_wf d -> crl_at d i = Some l -> IsZero (l_NextUpdate l) = false.
Proof.
  intros [_ [_ _ Hv _] _ _ _] [Hin _]%List.find_some.
  specialize (Hv l ltac:(by apply list_elem_of_In)). revert Hv.
  unfold Crl_Validate, validPeriod. go_unfold. repeat case_match; try done.
  rename select (negb (_ && _) = false) into Hp.
  apply negb_false_iff, andb_true_iff in Hp as [Hp _].
  apply andb_true_iff in Hp as [_ Hp]. by apply negb_true_iff in Hp.
Qed.

Lemma countCrl_row d now i res c :
  db_wf d -> (forall r, crlRenewal i = Ok r -> (0 <= r)%Z) ->
  countCrl now res (crlStateOf (db_crls d) i) = Ok c ->
  c = add_counts res (counts_of d now [i]).
Proof.
  intros Hwf Hr. destruct res as [n cur du ov mi].
  unfold countCrl, crlStateOf. simpl. fold (issuerExpired i now).
  unfold counts_of, add_counts, alive. simpl. rewrite !count_cons.
  change (@count Issuer ?f []) with 0%Z.
  destruct (issuerExpired i now); simpl; [intros [= <-]; f_equal; lia|].
  unfold crl_missing, crl_overdue, crl_due. fold (crl_at d i).
  destruct (crl_at d i) as [l|] eqn:El; simpl.
  - rewrite (crl_at_valid d i l) by done.
    destruct (Z.ltb_spec now (l_NextUpdate l)); simpl.
    + unfold crlRenewal. destruct (GetConfig _ _) as [cfg|]; [|done]. simpl.
      destruct (renewalOf _ _ _) as [r|]; [|done]. simpl.
      destruct (crlDueAt _ _ _); simpl; intros [= <-]; f_equal; lia.
    + intros [= <-]. destruct (crlRenewal i) as [r|]; simpl; [|f_equal; lia].
      specialize (Hr r eq_refl). unfold crlDueAt, ns.
      destruct (Z.ltb_spec (now * 1000000 + r) (l_NextUpdate l * 1000000)); [lia|].
      simpl. f_equal; lia.
  - intros [= <-]. destruct (crlRenewal i); simpl; f_equal; lia.
Qed.

Lemma countCrls_rows d now rows res c :
  db_wf d ->
  (forall i r, i ∈ rows -> crlRenewal i = Ok r -> (0 <= r)%Z) ->
  countCrls now res (crlStateOf (db_crls d) <$> rows) = Ok c ->
  c = add_counts res (counts_of d now rows).
Proof.
  intros Hwf. revert res. induction rows as [|i rows IH]; intros res Hr E.
  - injection E as <-. destruct res. unfold add_counts, counts_of, count. simpl.
    f_equal; lia.
  - rewrite fmap_cons in E. simpl in E. rewrite counts_of_cons.
    destruct (countCrl _ _ _) as [res'|] eqn:Er; [|done]. simpl in E.
    apply (countCrl_row d) in Er as ->; [|done|set_solver].
    apply IH in E as ->; [|set_solver]. unfold add_counts. simpl. f_equal; lia.
Qed.

Lemma crl_overdue_due d now i :
  (forall r, crlRenewal i = Ok r -> (0 <= r)%Z) ->
  crl_overdue d now i = true -> crl_due d now i = true.
Proof.
  unfold crl_overdue, crl_due, CrlDue, crlDueAt, ns. intros Hr.
  destruct (crl_at d i) as [l|]; [|done].
  destruct (crlRenewal i) as [r|]; [|done]. specialize (Hr r eq_refl).
  rewrite !negb_true_iff, !Z.ltb_ge. lia.
Qed.

Lemma counts_of_sum d now rows :
  (forall i r, i ∈ rows -> crlRenewal i = Ok r -> (0 <= r)%Z) ->
  let c := counts_of d now rows in
  ct_Issuers c = (ct_Current c + ct_Due c + ct_Overdue c + ct_Missing c)%Z.
Proof.
  simpl. induction rows as [|i rows IH]; intros Hr; [done|].
  rewrite !count_cons, IH by set_solver.
  pose proof (crl_overdue_due d now i ltac:(set_solver)) as Hd.
  assert (crl_missing d i = true -> crl_overdue d now i = false /\
    crl_due d now i = true) as Hm.
  { unfold crl_missing, crl_overdue, crl_due. destruct (crl_at d i); [done|].
    by destruct (crlRenewal i). }
  destruct (alive now i); simpl; [|lia].
  destruct (crl_missing d i); simpl; [destruct Hm as [-> ->]; [done|]; simpl; lia|].
  destruct (crl_overdue d now i); simpl; [rewrite Hd by done; simpl; lia|].
  destruct (crl_due d now i); simpl; lia.
Qed.

(** The counts of the summary are the decisions of the publisher.  Over
    the states of any issuers, the count succeeds only with: the issuers
    that are not expired; those whose CRL a run would leave alone as the
    current ones; of those a run would publish again, the ones without a
    CRL as missing, the ones past the period as overdue and the others as
    due; the four classes share no issuer and leave none out. *)
Theorem CountCrls_agrees (d : Db) (rows : list Issuer) (now : Z) (c : CrlCounts)
    (Hwf : db_wf d)
    (Hrenewal : forall i r, i ∈ rows -> crlRenewal i = Ok r -> (0 <= r)%Z)
    (Hok : CountCrls (crlStateOf (db_crls d) <$> rows) now = Ok c) :
  c = counts_of d now rows /\
  ct_Issuers c =
    (ct_Current c + ct_Due c + ct_Overdue c + ct_Missing c)%Z.
Proof.
  apply countCrls_rows in Hok as ->; [|done..].
  replace (add_counts _ _) with (counts_of d now rows)
    by (by destruct (counts_of d now rows)).
  split; [done|]. by apply counts_of_sum.
Qed.
End counts.
