(* ===== verification/CrlRun.v ===== *)
(** A run of the publisher over the issuers of a scope ends and counts every
    issuer once, whatever fails.  The pages are read while the run changes
    the rows: it changes their CRL number only, so the order of the IDs and
    with it the cursor stay valid. *)
From Stdlib Require Import ZArith Lia.
From stdpp Require Import base list gmap strings pretty sorting.
From S2P Require Import Prelude GoStrings Xdb Tenancy Model Query Sql CaQuery CaDb CaDbFacts PathLength Base64 Keys Pbconv Lru Registry RegistryFacts RegistryDb Crl CrlFacts.

(** The issuers without their CRL number: what a run leaves alone. *)
Definition run_issuers (d : Db) : list Issuer :=
  set_i_CrlNumber 0 <$> db_issuers d.

Definition pr_total (res : PublishCrlsResult) : Z :=
  (Z.of_nat (length (pr_Crls res)) + pr_Skipped res + pr_Failed res)%Z.

Section run.
Context `{XdbLaws, Codec, IdGen, ChainLib, ProfileCodec, Authority, !CrlLib, LRU}.

Definition same_run (d : Db) (s : RgState) : Prop :=
  run_issuers (rg_db s) = run_issuers d.

Lemma PublishCrl_run_issuers m d : run_issuers (PublishCrl m d).2 = run_issuers d.
Proof.
  destruct (PublishCrl m d) as [[c|e] d'] eqn:E; simpl.
  - unfold PublishCrl in E. apply bind_ok in E as (id & d1 & E1 & E).
    apply ensureID_core in E1 as (Ei & _ & _). db_ok_step E.
    rename select (setIssuerCrlNumber _ _ _ _ = _) into Es.
    apply setIssuerCrlNumber_ok in Es as (i & _ & _ & _ & _ & _ & _ & ->).
    unfold run_issuers, update_all. simpl. rewrite Ei. rewrite <-list_fmap_compose.
    apply list_fmap_ext. intros k j _. simpl. by destruct (_ && _).
  - by apply PublishCrl_atomic in E as [n ->].
Qed.

Lemma kept_run {A} d (m : M RgState A) : kept m -> preserves (same_run d) m.
Proof. intros Hk s Hs. unfold same_run in *. by rewrite (Hk (rg_db s) s eq_refl). Qed.

Lemma PublishCrl_same_run d m : preserves (same_run d) (in_db (PublishCrl m)).
Proof.
  intros s Hs. pose proof (PublishCrl_run_issuers m (rg_db s)) as Hr. unfold in_db, same_run in *.
  destruct (PublishCrl m (rg_db s)); simpl in *. congruence.
Qed.

Lemma kept_buildCrl issuer row n now : kept (buildCrl issuer row n now).
Proof.
  intros d. unfold buildCrl. kept_steps. unfold crlEntries. intros s <-.
  by destruct (readPages _ _ _ _ _).
Qed.

Lemma publishLoop_run d issuer force renewal now more row :
  preserves (same_run d) (publishLoop more issuer row force renewal now).
Proof.
  revert row. induction more as [|more IH]; intros row; simpl;
    (apply preserves_bind; [by apply kept_run, kept_buildCrl|intros built]);
    (apply preserves_catch; [apply PublishCrl_same_run|intros [l|e]; [auto with go|]]);
    destruct (errors_Is _ _); auto with go.
  apply preserves_bind; [|intros r].
  { apply kept_run. intros d'. unfold with_message_m. kept_steps. }
  apply preserves_bind; [auto with go|intros _].
  apply preserves_bind; [apply kept_run, kept_currentCrl|intros c].
  destruct (_ && _); auto with go.
Qed.

Lemma publish_run d keys row current force :
  preserves (same_run d) (publish keys row current force).
Proof.
  unfold publish. do 3 (apply preserves_bind; [auto with go|intros ?]).
  destruct (_ && _); [auto with go|].
  apply preserves_bind; [apply kept_run, kept_Registry_Issuer|intros a'].
  apply preserves_bind; [apply kept_run, kept_deref|intros issuer].
  apply publishLoop_run.
Qed.

(** Every issuer is counted once, whatever the publication returns. *)
Lemma publishOne_run d keys force res row current s :
  same_run d s ->
  exists res' s', publishOne keys force res row current s = (Ok res', s') /\
    same_run d s' /\ pr_total res' = (pr_total res + 1)%Z.
Proof.
  intros Hs. destruct res as [crls sk fl]. unfold publishOne, pr_total.
  unfold bind, get, catch. destruct (issuerExpired row (rg_now s)).
  { do 2 eexists. split; [done|]. split; [done|]. simpl. lia. }
  pose proof (publish_run d keys row current force s Hs) as Hp.
  destruct (publish _ _ _ _ s) as [r s']. simpl in Hp.
  do 2 eexists. split; [done|]. split; [done|].
  destruct r as [[[l|] []]|e]; simpl; rewrite ?length_app; simpl; lia.
Qed.

Lemma publishRows_run d keys force current rows :
  forall res s, same_run d s ->
  exists res' s', publishRows keys force current rows res s = (Ok res', s') /\
    same_run d s' /\ pr_total res' = (pr_total res + Z.of_nat (length rows))%Z.
Proof.
  induction rows as [|row rows IH]; intros res s Hs; simpl.
  - exists res, s. split_and!; [done..|lia].
  - destruct (publishOne_run d keys force res row (current !! i_Skid row) s Hs)
      as (res1 & s1 & E1 & Hs1 & Ht1).
    destruct (IH res1 s1 Hs1) as (res2 & s2 & E2 & Hs2 & Ht2).
    exists res2, s2. unfold bind. rewrite E1. split_and!; [done..|lia].
Qed.

(** ** The pages *)

(** The issuers of the scope with the status. *)
Definition run_where (req : PublishCrlsRequest) (st : IssuerStatus_Enum) :=
  ListIssuers_where (publishRequest req st (NewCursor 0)).
Definition run_rows (req : PublishCrlsRequest) (st : IssuerStatus_Enum) (d : Db)
  : list Issuer := List.filter (run_where req st) (db_issuers d).

Lemma filter_run (f : Issuer -> bool) l :
  (forall i, f (set_i_CrlNumber 0 i) = f i) ->
  List.filter f (set_i_CrlNumber 0 <$> l) = set_i_CrlNumber 0 <$> List.filter f l.
Proof.
  intros Hf. induction l as [|i l IH]; [done|]. rewrite fmap_cons. simpl.
  rewrite Hf, IH. by destruct (f i).
Qed.

Lemma run_rows_ids req st d d' :
  run_issuers d = run_issuers d' ->
  i_ID <$> run_rows req st d = i_ID <$> run_rows req st d'.
Proof.
  intros E. assert (forall l : list Issuer, i_ID <$> (set_i_CrlNumber 0 <$> l) = i_ID <$> l) as Hi.
  { intros l. rewrite <-list_fmap_compose. by apply list_fmap_ext. }
  unfold run_rows. rewrite <-(Hi (List.filter _ (db_issuers d))),
    <-(Hi (List.filter _ (db_issuers d'))), <-!filter_run by done.
  unfold run_issuers in E. by rewrite E.
Qed.

Lemma descending_ids {R} (rid : R -> Z) l :
  descending rid l -> StronglySorted (fun a b => (b < a)%Z) (rid <$> l).
Proof.
  induction 1 as [|a' l _ IH Ha]; [constructor|]. rewrite fmap_cons.
  constructor; [done|]. by apply Forall_fmap.
Qed.

Lemma pageByIDDesc_ids {R} (rid : R -> Z) rows rows' :
  NoDup (rid <$> rows) -> rid <$> rows = rid <$> rows' ->
  rid <$> pageByIDDesc rid rows = rid <$> pageByIDDesc rid rows'.
Proof.
  intros Hn E. apply (StronglySorted_unique_strong (fun a b => (b < a)%Z)).
  - lia.
  - by apply descending_ids, pageByIDDesc_descending.
  - apply descending_ids, pageByIDDesc_descending. by rewrite <-E.
  - by rewrite !pageByIDDesc_perm, E.
Qed.

Lemma cursor_after_ids {R} (rid : R -> Z) read read' :
  rid <$> read = rid <$> read' -> cursor_after rid read = cursor_after rid read'.
Proof.
  intros E%(f_equal last). rewrite !fmap_last in E. unfold cursor_after.
  destruct (last read), (last read'); naive_solver congruence.
Qed.

(** The rows of a later state, cut where the reader is. *)
Lemma run_rows_cut req st d s read rest :
  ids_ok i_ID (db_issuers d) -> same_run d s ->
  i_ID <$> pageByIDDesc i_ID (run_rows req st d) = (i_ID <$> read) ++ (i_ID <$> rest) ->
  exists read' rest', i_ID <$> read' = i_ID <$> read /\
    length rest' = length rest /\ i_ID <$> rest' = i_ID <$> rest /\
    pageByIDDesc i_ID (run_rows req st (rg_db s)) = read' ++ rest' /\
    ids_ok i_ID (run_rows req st (rg_db s)).
Proof.
  intros Hids Hs E. pose proof (run_rows_ids req st _ _ Hs) as Hi.
  apply (ids_ok_filter i_ID (run_where req st)) in Hids. fold (run_rows req st d) in Hids.
  destruct Hids as [Hn Hz].
  assert (ids_ok i_ID (run_rows req st (rg_db s))) as [Hn' Hz'].
  { split; [by rewrite Hi|]. apply (Forall_fmap i_ID (fun n => n <> 0%Z)).
    rewrite Hi. by apply Forall_fmap. }
  rewrite <-(pageByIDDesc_ids i_ID _ _ Hn' Hi) in E.
  apply fmap_app_inv in E as (read' & rest' & Er & Er' & E).
  exists read', rest'. split_and!; try done.
  by rewrite <-(length_fmap i_ID), <-Er', length_fmap.
Qed.

Lemma ListIssuers_run req st read s :
  checkListScope (pc_OrgID req) false (pc_AllOrgs req) = Ok tt ->
  in_db (ListIssuers (publishRequest req st (cursor_after i_ID read))) s =
  (Ok (listRows i_ID (run_rows req st (rg_db s)) issuerPageSize 0
         (cursor_after i_ID read)), s).
Proof.
  intros Hc. unfold in_db, ListIssuers, bind, lift_result,
    ListIssuersRequest_Validate, listValidate. simpl. rewrite Hc. simpl.
  rewrite id_cursor_key; [by destruct s|].
  unfold cursor_after. destruct (last read); apply NewCursor_id.
Qed.

Lemma currentCrls_run rows s : exists m, currentCrls rows s = (Ok m, s).
Proof. destruct s, rows; simpl; by eexists. Qed.

Lemma publishPages_run d keys req st :
  ids_ok i_ID (db_issuers d) ->
  checkListScope (pc_OrgID req) false (pc_AllOrgs req) = Ok tt ->
  forall fuel read rest res s,
  same_run d s -> (length rest < fuel)%nat ->
  i_ID <$> pageByIDDesc i_ID (run_rows req st d) = (i_ID <$> read) ++ (i_ID <$> rest) ->
  exists res' s',
    publishPages keys req st fuel (cursor_after i_ID read) res s =
      (Ok (res', None), s') /\ same_run d s' /\
    pr_total res' = (pr_total res + Z.of_nat (length rest))%Z.
Proof.
  intros Hids Hc. induction fuel as [|fuel IH]; intros read rest res s Hs Hf E; [lia|].
  destruct (run_rows_cut req st d s read rest Hids Hs E)
    as (read' & rest' & Hrd & Hlen & Hrs & Eq & Hn & Hz).
  rewrite <-(cursor_after_ids i_ID read' read Hrd).
  simpl. unfold catch at 1. rewrite ListIssuers_run by done.
  destruct (listRows_after i_ID _ issuerPageSize read' rest' Hn Hz
    ltac:(by vm_compute) Eq) as [[En Hp]|(more & En & Hp & Hlt & Hcur)];
    set (pg := listRows i_ID _ _ _ _) in *.
  - unfold catch. destruct (currentCrls_run (pr_rows pg) s) as [m ->].
    destruct (publishRows_run d keys (pc_Force req) m (pr_rows pg) res s Hs)
      as (res' & s' & Er & Hs' & Ht).
    exists res', s'. unfold bind. rewrite Er, En. split_and!; [done..|].
    by rewrite Ht, Hp, Hlen.
  - unfold catch. destruct (currentCrls_run (pr_rows pg) s) as [m ->].
    destruct (publishRows_run d keys (pc_Force req) m (pr_rows pg) res s Hs)
      as (res' & s' & Er & Hs' & Ht).
    unfold bind. rewrite Er, En. simpl. rewrite Hcur.
    destruct (IH (read' ++ pr_rows pg) more res' s' Hs') as (res2 & s2 & E2 & Hs2 & Ht2).
    { lia. }
    { by rewrite E, <-Hrd, <-Hrs, Hp, !fmap_app, app_assoc. }
    exists res2, s2. split_and!; [done..|]. rewrite Ht2, Ht, <-Hlen, Hp, length_app. lia.
Qed.

Lemma publishStatuses_run d keys req statuses :
  ids_ok i_ID (db_issuers d) ->
  checkListScope (pc_OrgID req) false (pc_AllOrgs req) = Ok tt ->
  forall res s, same_run d s ->
  exists res' s', publishStatuses keys req statuses res s = (Ok (res', None), s') /\
    same_run d s' /\
    pr_total res' = (pr_total res +
      Z.of_nat (length (statuses ≫= (fun st => run_rows req st d))))%Z.
Proof.
  intros Hids Hc. induction statuses as [|st statuses IH]; intros res s Hs;
    cbn [publishStatuses].
  { exists res, s. split_and!; [done..|simpl; lia]. }
  unfold bind, get.
  destruct (publishPages_run d keys req st Hids Hc (S (length (db_issuers (rg_db s))))
    [] (pageByIDDesc i_ID (run_rows req st d)) res s Hs)
    as (res1 & s1 & E1 & Hs1 & Ht1); [|done|].
  { rewrite (Permutation_length (pageByIDDesc_perm i_ID _)). unfold run_rows.
    pose proof (List.filter_length_le (run_where req st) (db_issuers d)).
    apply (f_equal length) in Hs. unfold run_issuers in Hs.
    rewrite !length_fmap in Hs. lia. }
  change (cursor_after i_ID []) with (NewCursor 0) in E1. rewrite E1.
  cbn [snd fst mbind list_bind].
  destruct (IH res1 s1 Hs1) as (res2 & s2 & E2 & Hs2 & Ht2).
  exists res2, s2. split_and!; [done..|].
  rewrite Ht2, Ht1, (Permutation_length (pageByIDDesc_perm i_ID _)), length_app. lia.
Qed.

Lemma issuer_ids_ok d :
  db_wf d -> (forall i, i ∈ db_issuers d -> i_ID i <> 0%Z) ->
  ids_ok i_ID (db_issuers d).
Proof.
  intros [_ [Hu _ _ _] _ _ _] Hz. split; [|by apply Forall_forall].
  apply (uniques_elem _ _ (Unique "issuer_pkey" _ _ i_ID) Hu). set_solver.
Qed.

(** C22: A run of the publisher ends and accounts for every issuer.  For a
    request with a scope, over however many pages, the run returns no error;
    the CRLs it published, the issuers it skipped and those that failed are
    together the active and archived issuers of the scope, and nothing of an
    issuer but its CRL number has changed.  A request without a scope
    publishes nothing and returns the error of the list. *)
Theorem publish_run_accounts (keys : Keys) (req : PublishCrlsRequest) (s : RgState)
    (Hwf : db_wf (rg_db s))
    (Hids : forall i, i ∈ db_issuers (rg_db s) -> i_ID i <> 0%Z) :
  match checkListScope (pc_OrgID req) false (pc_AllOrgs req) with
  | Ok _ => exists res s', PublishCrls keys req s = (Ok (res, None), s') /\
      run_issuers (rg_db s') = run_issuers (rg_db s) /\
      (Z.of_nat (length (pr_Crls res)) + pr_Skipped res + pr_Failed res =
       Z.of_nat (length (run_rows req IssuerStatus_Active (rg_db s))) +
       Z.of_nat (length (run_rows req IssuerStatus_Archived (rg_db s))))%Z
  | Err e => PublishCrls keys req s =
      (Ok (mkPublishResult [] 0 0, Some (WithMessage e "unable to list issuers")), s)
  end.
Proof.
  destruct (checkListScope _ _ _) as [[]|e] eqn:Hc.
  - destruct (publishStatuses_run (rg_db s) keys req CrlStatuses
      (issuer_ids_ok _ Hwf Hids) Hc (mkPublishResult [] 0 0) s eq_refl)
      as (res & s' & E & Hs & Ht).
    exists res, s'. split_and!; [done..|]. unfold pr_total in Ht. rewrite Ht.
    simpl. rewrite app_nil_r, length_app. lia.
  - unfold PublishCrls. simpl. unfold bind, get, catch, in_db, ListIssuers, bind,
      lift_result, ListIssuersRequest_Validate, listValidate. simpl.
    rewrite Hc. by destruct s.
Qed.
End run.
