(* ===== verification/CrlExamples.v ===== *)
(** The theorems of the registry and of the CRL publisher at concrete states:
    instances of the libraries, a database with issuers and profiles, and
    issuers with revoked certificates. *)
From Stdlib Require Import ZArith Lia Ascii.
From stdpp Require Import base list gmap strings pretty countable.
From S2P Require Import Prelude GoStrings Xdb Tenancy Model PathLength Base64 Query Sql CaQuery CaDb CaDbFacts CaDbSteps CaDbClaims Keys Pbconv Lru Registry RegistryFacts RegistryDb Crl CrlFacts CrlRun.

#[export] Existing Instances example_pblib example_keylib example_keylib_laws
  example_pblaws example_chain_lib example_profile_codec.

(** An issuer is its profiles, its certificate and its signer; CRLs last an
    hour and are renewed ten minutes early. *)
#[export] Instance example_authority : @Authority example_pblib example_keylib := {|
  auth_Issuer := (gmap string CertProfile * Bundle * string)%type;
  CreateIssuer cfg c ch r s :=
    Ok (ac_Profiles cfg, mkBundle (ParseFromPEM c) [] None, s);
  Issuer_Profile i n := i.1.1 !! n;
  AddProfile i n p := (<[n := p]> i.1.1, i.1.2, i.2);
  Issuer_Bundle i := i.1.2;
  Issuer_Signer i := i.2;
  Issuer_KeyHash i alg := ("key" ++ pretty alg)%string;
  Issuer_NameHash i alg := ("name" ++ pretty alg)%string;
  Issuer_CrlExpiry _ := 3600000000000%Z;
  GetCRLRenewal a :=
    if (aia_CRLRenewal a =? 0)%Z then 600000000000%Z else aia_CRLRenewal a;
  ValidateProfile _ := None |}.

#[export] Instance example_authority_laws : @AuthorityLaws _ _ example_authority.
Proof.
  split; simpl.
  - intros i n p n'. case_decide as E.
    + subst. by rewrite lookup_insert_eq.
    + by rewrite lookup_insert_ne.
  - done.
  - by intros cfg c ch r s i n [= <-].
Qed.

Definition example_key_issuer : Issuer :=
  KeyRef_Apply (mkKeyRef "hsm" "pkcs11:k" "") example_issuer.

Definition example_profile : CertificateProfile :=
  mkProfile 31 7 0 "server" "ca" ItemStatus_Active "{}" 0 0.

Definition example_rg_db (now : Z) : Db :=
  mkDb now 0 [7%Z] [5%Z] [] [example_key_issuer] [example_profile] [] [] [] [].

Definition example_registry : RgState :=
  NewRegistry (example_rg_db 1000) ["pkcs11:k"%string] 0 2.

(** The issuer of the org, from one of its projects. *)
Lemma registry_resolves_as_database_witness :
  exists r, issuer_of (example_rg_db 1000) (mkScopeKey 7 5 "ca") = Some r /\
    issuer_equiv example_key_issuer r.
Proof.
  exact (proj1 (registry_resolves_as_database 300000 example_registry 7 5 "ca"
    (coherent_new (example_rg_db 1000) ["pkcs11:k"%string] 0 2 ltac:(lia))
    ltac:(lia))).
Defined.

Definition example_request : ResolveRequest := mkResolve 7 5 "server" "".

(** A request of a project a minute after the first one, while the caches
    answer. *)
Definition example_rg_later : RgState :=
  set_rg_db (example_rg_db 61000) (set_rg_world ["pkcs11:k"%string]
    (Resolve (example_keys true) (Some example_request) example_registry).2).

Definition example_resolution : Resolution :=
  match (Resolve (example_keys true) (Some example_request) example_rg_later).1 with
  | Ok r => r
  | Err _ => mkResolution _ 0 example_issuer example_profile example_auth_profile ""
  end.

Lemma resolve_scoped_and_fresh_witness :
  fresh_resolution 0 [example_rg_db 61000; example_rg_db 1000] 61000
    example_request example_resolution.
Proof.
  apply (resolve_scoped_and_fresh (example_keys true) 0 ltac:(lia)
    [example_rg_db 61000; example_rg_db 1000] example_rg_later
    (Resolve (example_keys true) (Some example_request) example_rg_later).2
    example_request example_resolution).
  - apply (rh_world _ _ [example_rg_db 1000]).
    + apply (rh_call _ _ [example_rg_db 1000] _
        (CallResolve (Some example_request))). apply rh_new.
    + vm_compute. discriminate.
  - assert (is_ok (Resolve (example_keys true) (Some example_request)
      example_rg_later).1 = true) as Hok by (vm_compute; reflexivity).
    unfold example_resolution.
    destruct (Resolve _ _ example_rg_later) as [[r|e] s]; [done|].
    discriminate Hok.
Defined.

(** ** A CRL encoding *)

Fixpoint bits (p : positive) : string :=
  match p with
  | xH => EmptyString
  | xO p => String "0"%char (bits p)
  | xI p => String "1"%char (bits p)
  end.
Fixpoint unbits (s : string) : positive :=
  match s with
  | EmptyString => xH
  | String "0"%char r => xO (unbits r)
  | String _ r => xI (unbits r)
  end.

Lemma unbits_bits p : unbits (bits p) = p.
Proof. induction p as [p IH|p IH|]; simpl; by rewrite ?IH. Qed.

Definition crl_tuple (t : RevocationList) : Z * Z * Z * list (Z * Z * Z) :=
  (rl_Number t, rl_ThisUpdate t, rl_NextUpdate t,
   (fun e => (re_SerialNumber e, re_RevocationTime e, re_ReasonCode e)) <$>
     rl_Entries t).
Definition tuple_crl (t : Z * Z * Z * list (Z * Z * Z)) : RevocationList :=
  let '(n, this, next, es) := t in
  mkRevocationList n this next
    ((fun '(s, r, c) => mkRevocationEntry s r c) <$> es).

Lemma tuple_crl_tuple t : tuple_crl (crl_tuple t) = t.
Proof.
  destruct t as [n this next es]. unfold tuple_crl, crl_tuple. simpl. f_equal.
  rewrite <-list_fmap_compose. induction es as [|[s r c] es IH]; [done|].
  rewrite fmap_cons. by f_equal.
Qed.

#[export] Instance example_crl_lib : @CrlLib example_keylib := {|
  CreateRevocationList t _ _ := Ok (bits (encode (crl_tuple (encoded t))));
  ParseRevocationList s := tuple_crl <$> decode (unbits s) |}.

#[export] Instance example_crl_laws : @CrlLaws _ example_crl_lib.
Proof.
  intros t c s pem [= <-]. simpl.
  rewrite unbits_bits, decode_encode. cbn [fmap option_fmap option_map]. by rewrite tuple_crl_tuple.
Qed.

(** ** A revoked certificate *)

Definition example_crl_db : Db :=
  run_op (OpRevokeCertificate example_revoke)
    (run_op (OpRegisterIssuer example_key_issuer None)
      (run_op (OpRegisterCertificate example_certificate None) (emptyDb 5000))).

Lemma example_crl_db_wf : db_wf example_crl_db.
Proof. apply reachable_wf. by repeat constructor. Qed.

Definition example_publisher : RgState :=
  NewRegistry example_crl_db ["pkcs11:k"%string] 0 2.

Definition example_crl_row : Issuer := set_i_insert 11 5000 example_key_issuer.

(** The CRL of a result that published one. *)
Definition is_published (r : result (option Crl * bool)) : bool :=
  match r with Ok (Some _, true) => true | _ => false end.
Definition published_crl (r : result (option Crl * bool)) : Crl :=
  match r with Ok (Some l, _) => l | _ => example_crl end.

Lemma is_published_eq (x : result (option Crl * bool) * RgState) :
  is_published x.1 = true -> x = (Ok (Some (published_crl x.1), true), x.2).
Proof. by destruct x as [[[[l|] []]|e] s]. Qed.

Local Notation example_publish :=
  (publish (example_keys true) example_crl_row None false example_publisher).
Definition example_published : Crl := published_crl example_publish.1.

Lemma example_publish_ok :
  example_publish = (Ok (Some example_published, true), example_publish.2).
Proof.
  unfold example_published. apply is_published_eq. vm_compute. reflexivity.
Qed.

Lemma example_revoked_ids r :
  r ∈ db_revoked (rg_db example_publisher) -> r_ID r <> 0%Z.
Proof.
  revert r. apply (proj1 (list.Forall_forall (fun r => r_ID r <> 0%Z) _)).
  apply (bool_decide_unpack (Forall _ _)). vm_compute. exact I.
Qed.

(** The first CRL of the issuer: number one, until the issuer certificate
    ends, with the one revocation. *)
Lemma published_crl_complete_witness :
  (l_CrlNumber example_published = 1 /\ l_NextUpdate example_published = 900000)%Z /\
  forall r, r ∈ crlRows (rg_db example_publisher) (l_Ikid example_published)
                  (l_ThisUpdate example_published) <->
    r ∈ db_revoked (rg_db example_publisher) /\
    r_Ikid r = l_Ikid example_published /\
    (nowSeconds example_publisher < r_NotAfter r)%Z.
Proof.
  split; [split; vm_compute; reflexivity|].
  exact (proj2 (published_crl_complete (example_keys true) example_crl_row None
    false example_publisher example_publish.2 example_published
    example_crl_db_wf example_revoked_ids example_publish_ok)).
Defined.

(** Before the run the CRL of the issuer is missing. *)
Lemma CountCrls_agrees_witness :
  mkCrlCounts 1 0 0 0 1 = counts_of example_crl_db 5000 [example_crl_row] /\
  (1 = 0 + 0 + 0 + 1)%Z.
Proof.
  apply (CountCrls_agrees example_crl_db [example_crl_row] 5000
    (mkCrlCounts 1 0 0 0 1) example_crl_db_wf).
  - intros i r Hi. apply list_elem_of_singleton in Hi as ->.
    intros E. vm_compute in E. injection E as <-. lia.
  - vm_compute. reflexivity.
Defined.

Lemma publish_run_accounts_witness :
  exists res s', PublishCrls (example_keys true) (mkPublishCrls 7 false 0 None false)
      example_publisher = (Ok (res, None), s') /\
    (Z.of_nat (length (pr_Crls res)) + pr_Skipped res + pr_Failed res = 1)%Z.
Proof.
  destruct (publish_run_accounts (example_keys true)
    (mkPublishCrls 7 false 0 None false) example_publisher example_crl_db_wf)
    as (res & s' & E & _ & Ht).
  - intros i Hi. change (db_issuers (rg_db example_publisher))
      with (db_issuers example_crl_db) in Hi. revert i Hi.
    apply (proj1 (list.Forall_forall (fun i => i_ID i <> 0%Z) _)).
    apply (bool_decide_unpack (Forall _ _)). vm_compute. exact I.
  - exists res, s'. split; [exact E|]. rewrite Ht. vm_compute. reflexivity.
Defined.
