(* ===== verification/RowPb.v ===== *)
(** Rows as messages of the API: the [Pb] and [NextPage] methods of
    [internal/db/model] ([issuer.go], [certificate.go], [revoked.go],
    [crl.go], [root.go], [profile.go]), and the audit events of
    [internal/events].

    The message of an issuer has no field for the ID of its key or for the
    wrapped key; the text of a time is a library ([ProfileCodec]).  An event
    is built for one action and handed to a recorder that writes it in the
    background: an outbox, the events in the order they were emitted. *)
From Stdlib Require Import ZArith Lia.
From stdpp Require Import base list strings pretty.
From S2P Require Import Prelude GoStrings Xdb Roles Tenancy Grants Authorizer Methods Access Model Query Pbconv.

Record NextPage_pb := mkNextPage { np_Offset : Z; np_Cursor : string }.

Record Issuer_pb := mkIssuerPb {
  ip_ID : string; ip_OrgID : string; ip_ProjectID : string;
  ip_Label : string; ip_Type : AuthorityType_Enum;
  ip_Status : IssuerStatus_Enum; ip_ParentID : string; ip_SKID : string;
  ip_IKID : string; ip_SerialNumber : string; ip_Subject : string;
  ip_Issuer : string; ip_Sha256 : string; ip_NotBefore : string;
  ip_NotAfter : string; ip_Certificate : string; ip_Intermediates : string;
  ip_Root : string; ip_Csr : string; ip_KeyProvider : string;
  ip_Config : IssuerConfig; ip_CrlNumber : string; ip_CreatedAt : string;
  ip_UpdatedAt : string }.

Record Certificate_pb := mkCertificatePb {
  xp_ID : string; xp_OrgID : string; xp_ProjectID : string;
  xp_SKID : string; xp_IKID : string; xp_SerialNumber : string;
  xp_NotBefore : string; xp_NotAfter : string; xp_Subject : string;
  xp_Issuer : string; xp_Sha256 : string; xp_Profile : string;
  xp_Pem : string; xp_IssuersPem : string; xp_Locations : list string;
  xp_Label : string; xp_Metadata : Metadata;
  xp_Status : CertificateStatus_Enum; xp_CreatedAt : string }.

Record RevokedCertificate_pb := mkRevokedPb {
  vp_Certificate : Certificate_pb; vp_RevokedAt : string; vp_Reason : Z;
  vp_ReasonText : string }.

Record Crl_pb := mkCrlPb {
  kp_ID : string; kp_OrgID : string; kp_IssuerID : string; kp_IKID : string;
  kp_Number : string; kp_ThisUpdate : string; kp_NextUpdate : string;
  kp_Issuer : string; kp_Pem : string; kp_Locations : list string }.

Record RootCertificate_pb := mkRootPb {
  op_ID : string; op_OrgID : string; op_SKID : string; op_NotBefore : string;
  op_NotAfter : string; op_Subject : string; op_Sha256 : string;
  op_Trust : Trust_Enum; op_Pem : string; op_CreatedAt : string }.

(** The name of a status. *)
Definition IssuerStatus_String (st : IssuerStatus_Enum) : string :=
  match st with
  | IssuerStatus_Unknown => "Unknown" | IssuerStatus_Pending => "Pending"
  | IssuerStatus_Active => "Active" | IssuerStatus_Archived => "Archived"
  | IssuerStatus_Destroyed => "Destroyed"
  end.

Section rows.
Context `{Xdb, Codec, ProfileCodec}.

(** [NextPage] of every result type. *)
Definition NextPage {R} (v : PageResult R) : option NextPage_pb :=
  if pr_hasNext v then Some (mkNextPage (pr_nextOffset v) (pr_cursor v))
  else None.

Definition Issuer_Pb (m : Issuer) : result Issuer_pb :=
  let? cfg := GetConfig (id_string (i_ID m)) (i_Config m) in
  Ok (mkIssuerPb (id_string (i_ID m)) (id_string (i_OrgID m))
        (id_string (i_ProjectID m)) (i_Label m) (i_Type m) (i_Status m)
        (id_string (i_ParentID m)) (i_Skid m) (i_Ikid m) (i_SerialNumber m)
        (i_Subject m) (i_Issuer m) (i_Sha256 m) (Time_String (i_NotBefore m))
        (Time_String (i_NotAfter m)) (i_Pem m) (i_ChainPem m) (i_RootPem m)
        (i_CsrPem m) (i_KeyProvider m) cfg (pretty (i_CrlNumber m))
        (Time_String (i_CreatedAt m)) (Time_String (i_UpdatedAt m))).

(** The rows in order, or the first that does not convert. *)
Fixpoint rowsPb {R P} (row : R -> result P) (rows : list R)
  : result (list P) :=
  match rows with
  | [] => Ok []
  | r :: rest => let? p := row r in let? ps := rowsPb row rest in Ok (p :: ps)
  end.

Definition IssuerResult_Pb (v : PageResult Issuer)
  : result (list Issuer_pb * option NextPage_pb) :=
  let? ps := rowsPb Issuer_Pb (pr_rows v) in Ok (ps, NextPage v).

Definition CertificateProfileResult_Pb (v : PageResult CertificateProfile)
  : result (list CertProfile_pb * option NextPage_pb) :=
  let? ps := rowsPb CertificateProfile_Pb (pr_rows v) in Ok (ps, NextPage v).

Definition Certificate_Pb (m : Certificate) : Certificate_pb :=
  mkCertificatePb (id_string (c_ID m)) (id_string (c_OrgID m))
    (id_string (c_ProjectID m)) (c_Skid m) (c_Ikid m) (c_SerialNumber m)
    (Time_String (c_NotBefore m)) (Time_String (c_NotAfter m)) (c_Subject m)
    (c_Issuer m) (c_Sha256 m) (c_Profile m) (c_Pem m) (c_IssuersPem m)
    (c_Locations m) (c_Label m) (c_Metadata m) (c_Status m)
    (Time_String (c_CreatedAt m)).

Definition CertificateResult_Pb (v : PageResult Certificate)
  : list Certificate_pb * option NextPage_pb :=
  (Certificate_Pb <$> pr_rows v, NextPage v).

(** The certificate columns of the joined row: the tenancy is that of the
    revocation. *)
Definition RevokedCertificate_Certificate (m : RevokedCertificate)
  : Certificate :=
  let c := rc_certificate m in
  mkCertificate (c_ID c) (r_OrgID (rc_revoked m)) (r_ProjectID (rc_revoked m))
    (c_Skid c) (c_Ikid c) (c_SerialNumber c) (c_NotBefore c) (c_NotAfter c)
    (c_Subject c) (c_Issuer c) (c_Sha256 c) (c_Profile c) (c_Label c)
    (c_Locations c) (c_Metadata c) (c_Pem c) (c_IssuersPem c) (c_Status c)
    (c_CreatedAt c).

Definition RevokedCertificate_Pb (m : RevokedCertificate)
  : RevokedCertificate_pb :=
  mkRevokedPb (Certificate_Pb (RevokedCertificate_Certificate m))
    (Time_String (r_RevokedAt (rc_revoked m))) (r_Reason (rc_revoked m))
    (r_ReasonText (rc_revoked m)).

Definition RevokedCertificateResult_Pb (v : PageResult RevokedCertificate)
  : list RevokedCertificate_pb * option NextPage_pb :=
  (RevokedCertificate_Pb <$> pr_rows v, NextPage v).

Definition Crl_Pb (m : Crl) : Crl_pb :=
  mkCrlPb (id_string (l_ID m)) (id_string (l_OrgID m))
    (id_string (l_IssuerID m)) (l_Ikid m) (pretty (l_CrlNumber m))
    (Time_String (l_ThisUpdate m)) (Time_String (l_NextUpdate m)) (l_Issuer m)
    (l_Pem m) (l_Locations m).

Definition RootCertificate_Pb (m : RootCertificate) : RootCertificate_pb :=
  mkRootPb (id_string (t_ID m)) (id_string (t_OrgID m)) (t_Skid m)
    (Time_String (t_NotBefore m)) (Time_String (t_NotAfter m)) (t_Subject m)
    (t_Sha256 m) (t_Trust m) (t_Pem m) (Time_String (t_CreatedAt m)).

Definition RootCertificateResult_Pb (v : PageResult RootCertificate)
  : list RootCertificate_pb * option NextPage_pb :=
  (RootCertificate_Pb <$> pr_rows v, NextPage v).
End rows.

(** The types of the events the services emit. *)
Definition EventType_IssuerRegistered : Z := 100.
Definition EventType_IssuerActivated : Z := 101.
Definition EventType_IssuerUpdated : Z := 102.
Definition EventType_ProfileRegistered : Z := 103.
Definition EventType_ProfileDeleted : Z := 104.
Definition EventType_CertificateIssued : Z := 105.
Definition EventType_CertificateRevoked : Z := 106.
Definition EventType_CrlPublished : Z := 107.
Definition EventType_RootRegistered : Z := 108.

(** The actor's email is that of the caller, when it has one. *)
Definition events_New (ctx : Context) (source : string) (typ : Z)
    (title : string) : Event :=
  mkEvent 0 0 0 typ title "" [] 0 (tc_userEmail (FromContext ctx)) source 0.

Definition events_Org (id : Z) (e : Event) : Event :=
  mkEvent (e_ID e) id (e_ProjectID e) (e_Type e) (e_Title e)
    (e_Description e) (e_Metadata e) (e_ReferenceID e) (e_Email e)
    (e_Source e) (e_CreatedAt e).
Definition events_Project (id : Z) (e : Event) : Event :=
  mkEvent (e_ID e) (e_OrgID e) id (e_Type e) (e_Title e)
    (e_Description e) (e_Metadata e) (e_ReferenceID e) (e_Email e)
    (e_Source e) (e_CreatedAt e).
Definition events_Reference (id : Z) (e : Event) : Event :=
  set_e_ReferenceID id e.
Definition events_Email (email : string) (e : Event) : Event :=
  if bool_decide (email = EmptyString) then e
  else mkEvent (e_ID e) (e_OrgID e) (e_ProjectID e) (e_Type e) (e_Title e)
         (e_Description e) (e_Metadata e) (e_ReferenceID e) email
         (e_Source e) (e_CreatedAt e).
Definition events_Description (text : string) (e : Event) : Event :=
  mkEvent (e_ID e) (e_OrgID e) (e_ProjectID e) (e_Type e) (e_Title e) text
    (e_Metadata e) (e_ReferenceID e) (e_Email e) (e_Source e) (e_CreatedAt e).

(** A metadata map as an association list: the last value of a key. *)
Definition events_Meta (key value : string) (e : Event) : Event :=
  if bool_decide (value = EmptyString) then e
  else mkEvent (e_ID e) (e_OrgID e) (e_ProjectID e) (e_Type e) (e_Title e)
         (e_Description e)
         (List.filter (fun kv => negb (bool_decide (kv.1 = key)))
            (e_Metadata e) ++ [(key, value)])
         (e_ReferenceID e) (e_Email e) (e_Source e) (e_CreatedAt e).

(** [time.Parse(time.RFC3339, s)], in milliseconds; [None] is an error. *)
Class TimeLib := { ParseRFC3339 : string -> option Z }.

Section range.
Context `{TimeLib}.

(** One bound of a range; empty is unbounded. *)
Definition parseBound (what val : string) : result (option Z) :=
  if bool_decide (val = EmptyString) then Ok None
  else match ParseRFC3339 val with
       | Some t => Ok (Some t)
       | None => Err (OtherError ("invalid " ++ what ++ ": " ++ val ++
                                  " is not RFC3339"))
       end.

Definition ParseTimeRange (after before : string)
  : result (option Z * option Z) :=
  let? from := parseBound "After" after in
  let? to := parseBound "Before" before in
  match from, to with
  | Some f, Some t =>
      if (f <? t)%Z then Ok (from, to)
      else Err (OtherError "invalid time range: Before must be later than After")
  | _, _ => Ok (from, to)
  end.
End range.
