(* ===== verification/IssuerBuild.v ===== *)
(** New issuers: the requests and constructors of [internal/ca/issuer.go].

    A root signs itself, an issuer is signed by its parent, a pending one
    waits for a certificate signed outside, an imported one brings its own.
    Each constructor returns the row to register.  Certificate requests,
    signing and the PEM encoding are libraries ([IssuerLib]). *)
From Stdlib Require Import ZArith Lia.
From stdpp Require Import base list gmap strings pretty.
From S2P Require Import Prelude GoStrings Xdb Tenancy Model Query Sql CaQuery CaDb PathLength Base64 Keys Pbconv Lru Registry.

#[global] Instance IssuerConfig_eq_dec : EqDecision IssuerConfig.
Proof. solve_decision. Defined.

(** ** Certificate requests *)

Record X509Name := mkName {
  xn_Country : string; xn_Province : string; xn_Locality : string;
  xn_Organization : string; xn_OrganizationalUnit : string;
  xn_SerialNumber : string }.
Record X509Subject := mkSubject {
  xs_CommonName : string; xs_Names : list X509Name; xs_SerialNumber : string }.

Section requests.
Context `{PbLib}.

Record CertificateRequest := mkCertificateRequest {
  cq_CommonName : string; cq_Names : list X509Name; cq_SerialNumber : string;
  cq_SAN : list string; cq_Extensions : list X509Extension }.

(** A zero time leaves the bound to the profile. *)
Record SignRequest := mkSignRequest {
  sq_Request : string; sq_Profile : string; sq_SAN : list string;
  sq_Subject : option X509Subject; sq_Extensions : list X509Extension;
  sq_NotBefore : Z; sq_NotAfter : Z }.
End requests.

Class IssuerLib `{Authority} := {
  (** the request of [csr.CertificateRequest] with its key request *)
  csr_build : CertificateRequest -> csr_t;
  csr_Name : CertificateRequest -> string;
  (** [authority.NewRoot] with one profile, the key label, algorithm and
      size: the certificate and the exported key, in PEM *)
  NewRoot : string -> CertProfile -> provider_t -> string -> string -> Z ->
            CertificateRequest -> M world (string * string);
  Issuer_Sign : auth_Issuer -> SignRequest ->
                M world (x509_Certificate * string);
  Issuer_PEM : auth_Issuer -> string;
  Bundle_CACertsPEM : auth_Issuer -> string;
  EncodeToPEMString : x509_Certificate -> result string;
  crt_PublicKey : x509_Certificate -> option public_t;
  (** the public key of a certificate request in PEM *)
  csr_PublicKey : string -> option public_t;
  MarshalPKIXPublicKey : public_t -> result string;
  unmarshal_spki : string -> result string;
  sha1_Sum : string -> string;
  marshal_IssuerConfig : IssuerConfig -> result string }.

(** What is encoded is parsed back.  A certificate is of the key of its
    request, and a request of the key that was generated with it; a provider
    exports the key that was asked for; and a new root comes with its key. *)
Class IssuerLaws `{Codec, ChainLib, IssuerLib} := {
  ParseFromPEM_Encode c pem :
    EncodeToPEMString c = Ok pem -> ParseFromPEM pem = Some c;
  Sign_key i r w c pem w' :
    Issuer_Sign i r w = (Ok (c, pem), w') -> crt_PublicKey c = csr_PublicKey (sq_Request r);
  Generate_key prov label algo size req w csrPEM sg id w' :
    GenerateKeyAndRequest prov label algo size req w = (Ok (csrPEM, Some sg, id), w') ->
    csr_PublicKey csrPEM = Some (Public sg);
  Export_key prov label algo size req w csrPEM sg id w1 uri exported w2 :
    GenerateKeyAndRequest prov label algo size req w = (Ok (csrPEM, Some sg, id), w1) ->
    ExportKey prov id w1 = (Ok (uri, exported), w2) ->
    key_is (if bool_decide (exported = EmptyString) then uri else exported) (Public sg);
  NewRoot_key name p prov label algo size req w pem key w' c :
    NewRoot name p prov label algo size req w = (Ok (pem, key), w') ->
    ParseFromPEM pem = Some c ->
    exists pub, crt_PublicKey c = Some pub /\ key_is key pub }.

Section issuers.
Context `{Xdb, Codec, ChainLib, PbLib, KeyLib, !Authority, !IssuerLib}.

Record IssuerRequest := mkIssuerRequest {
  q_OrgID : Z; q_ProjectID : Z; q_Label : string; q_Type : AuthorityType_Enum;
  q_Subject : option X509Subject; q_SAN : list string;
  q_Extensions : list X509Extension; q_KeySpec : option (string * Z);
  q_Provider : option provider_t; q_Config : option IssuerConfig }.

(** [Issuer.SetConfig]: the JSON of the settings, empty for none. *)
Definition SetConfig (cfg : option IssuerConfig) : result string :=
  match cfg with
  | None => Ok EmptyString
  | Some c => with_message_r "unable to marshal JSON value"
                (marshal_IssuerConfig c)
  end.

Definition noSubject (s : option X509Subject) : bool :=
  match s with
  | None => true
  | Some s => bool_decide (xs_CommonName s = EmptyString) &&
              bool_decide (xs_Names s = [])
  end.

Definition IssuerRequest_validate (q : option IssuerRequest) : result unit :=
  match q with
  | None => Err (OtherError "issuer request is required")
  | Some q =>
      if bool_decide (q_Label q = EmptyString)
      then Err (OtherError "label is required")
      else if bool_decide (q_Type q = AuthorityType_Unknown)
      then Err (OtherError "type is required")
      else if noSubject (q_Subject q)
      then Err (OtherError "subject is required")
      else match q_Provider q with
           | None => Err (OtherError "key provider is required")
           | Some _ => Ok tt
           end
  end.

Definition keyLabel (q : IssuerRequest) : string :=
  KeyLabel (q_OrgID q) (q_ProjectID q) (q_Label q).

Definition certificateRequest (q : IssuerRequest) : CertificateRequest :=
  let s := default (mkSubject "" [] "") (q_Subject q) in
  mkCertificateRequest (xs_CommonName s) (xs_Names s) (xs_SerialNumber s)
    (q_SAN q) (q_Extensions q).

(** A row with the scope, type and status, and nothing else. *)
Definition bareIssuer (orgID projectID : Z) (label : string)
    (typ : AuthorityType_Enum) (status : IssuerStatus_Enum) : Issuer :=
  mkIssuer 0 orgID projectID label typ status 0 "" "" "" "" "" "" 0 0 "" "" ""
    "" "" "" "" "" 0 0 0.

Definition set_i_Config (config : string) (m : Issuer) : Issuer :=
  mkIssuer (i_ID m) (i_OrgID m) (i_ProjectID m) (i_Label m) (i_Type m)
    (i_Status m) (i_ParentID m) (i_Skid m) (i_Ikid m) (i_SerialNumber m)
    (i_Subject m) (i_Issuer m) (i_Sha256 m) (i_NotBefore m) (i_NotAfter m)
    (i_Pem m) (i_ChainPem m) (i_RootPem m) (i_CsrPem m) (i_KeyProvider m)
    (i_KeyID m) (i_KeyProtected m) config (i_CrlNumber m) (i_CreatedAt m)
    (i_UpdatedAt m).
Definition set_i_ParentID (parent : Z) (m : Issuer) : Issuer :=
  mkIssuer (i_ID m) (i_OrgID m) (i_ProjectID m) (i_Label m) (i_Type m)
    (i_Status m) parent (i_Skid m) (i_Ikid m) (i_SerialNumber m)
    (i_Subject m) (i_Issuer m) (i_Sha256 m) (i_NotBefore m) (i_NotAfter m)
    (i_Pem m) (i_ChainPem m) (i_RootPem m) (i_CsrPem m) (i_KeyProvider m)
    (i_KeyID m) (i_KeyProtected m) (i_Config m) (i_CrlNumber m)
    (i_CreatedAt m) (i_UpdatedAt m).
(** The columns of a pending issuer. *)
Definition set_i_csr (skid csr subject : string) (m : Issuer) : Issuer :=
  mkIssuer (i_ID m) (i_OrgID m) (i_ProjectID m) (i_Label m) (i_Type m)
    (i_Status m) (i_ParentID m) skid (i_Ikid m) (i_SerialNumber m)
    subject (i_Issuer m) (i_Sha256 m) (i_NotBefore m) (i_NotAfter m)
    (i_Pem m) (i_ChainPem m) (i_RootPem m) csr (i_KeyProvider m)
    (i_KeyID m) (i_KeyProtected m) (i_Config m) (i_CrlNumber m)
    (i_CreatedAt m) (i_UpdatedAt m).

Definition IssuerRequest_row (q : IssuerRequest) (status : IssuerStatus_Enum)
    (ref : KeyRef) : result Issuer :=
  let m := KeyRef_Apply ref (bareIssuer (q_OrgID q) (q_ProjectID q) (q_Label q)
                               (q_Type q) status) in
  let? cfg := SetConfig (q_Config q) in
  Ok (set_i_Config cfg m).

(** [KeyID] of a public key: the SHA-1 of its bits, in hex. *)
Definition SubjectKeyID (pub : public_t) : result string :=
  let? der := with_message_r "unable to encode public key"
                (MarshalPKIXPublicKey pub) in
  let? bits := with_message_r "unable to decode public key"
                 (unmarshal_spki der) in
  Ok (hexString (sha1_Sum bits)).

(** A validated request with its provider. *)
Definition validated (q : option IssuerRequest)
  : M world (IssuerRequest * provider_t) :=
  lift_result (IssuerRequest_validate q) ;;;
  match q with
  | Some r => match q_Provider r with
              | Some prov => ret (r, prov)
              | None => fail (OtherError "key provider is required")
              end
  | None => fail (OtherError "issuer request is required")
  end.

Definition parsedPEM (what pem : string) : result x509_Certificate :=
  match ParseFromPEM pem with
  | None => Err (WithMessage (OtherError "unable to parse PEM") what)
  | Some crt => Ok crt
  end.

Definition NewRootIssuer (k : Keys) (req : option IssuerRequest)
    (profileName : string) (profile : option CertProfile) : M world Issuer :=
  let! rp := validated req in
  let '(req, prov) := rp in
  guard (bool_decide (q_Type req = AuthorityType_Root))
    (OtherError "a self-signed issuer is of Root type") ;;;
  match profile with
  | None => fail (OtherError ("profile " ++ profileName ++ " is not a CA profile"))
  | Some profile =>
  guard (cc_IsCA (ap_CAConstraint profile))
    (OtherError ("profile " ++ profileName ++ " is not a CA profile")) ;;;
  let! algo_size := lift_result (KeySpec (q_KeySpec req)) in
  let! root := with_message_m "unable to create root certificate"
    (NewRoot profileName profile prov (keyLabel req) algo_size.1 algo_size.2
       (certificateRequest req)) in
  let '(certPEM, key) := root in
  let! ref := KeyRefFromExport k prov (keyLabel req) key in
  let! crt := lift_result (parsedPEM "invalid root certificate" certPEM) in
  let! m := lift_result (IssuerRequest_row req IssuerStatus_Active ref) in
  let! pem := lift_result (with_message_r "unable to encode root certificate"
                             (EncodeToPEMString crt)) in
  ret (SetCertificate crt pem "" pem m)
  end.

(** [cmp.Or] of two strings. *)
Definition or_string (a b : string) : string :=
  if bool_decide (a = EmptyString) then b else a.

(** The parent issuer as the registry resolved it, with the object of its
    address. *)
Definition NewSignedIssuer (k : Keys) (req : option IssuerRequest)
    (parent : option (auth_Issuer * Resolution)) : M world Issuer :=
  let! rp := validated req in
  let '(req, prov) := rp in
  match parent with
  | None => fail (OtherError "parent issuer is required")
  | Some (issuer, res) =>
  guard (cc_IsCA (ap_CAConstraint (rs_Profile res)))
    (OtherError ("profile " ++ p_Label (rs_ProfileRow res) ++
                 " is not a CA profile")) ;;;
  guard (negb (bool_decide (q_Type req = AuthorityType_Root)))
    (OtherError "a Root issuer is self-signed, not signed by a parent") ;;;
  lift_result (checkPathLength (Some (Issuer_Bundle issuer))
                 (cc_MaxPathLen (ap_CAConstraint (rs_Profile res)))) ;;;
  let! gen := Generate k prov (keyLabel req) (q_KeySpec req)
                (csr_build (certificateRequest req)) in
  let '(csrPEM, _, ref) := gen in
  let! signed := with_message_m "unable to sign issuer certificate"
    (Issuer_Sign issuer (mkSignRequest csrPEM (rs_ProfileName res) (q_SAN req)
       (q_Subject req) (q_Extensions req) 0 0)) in
  let crt := signed.1 in
  let! m := lift_result (IssuerRequest_row req IssuerStatus_Active ref) in
  let m := set_i_ParentID (i_ID (rs_Row res)) m in
  let! pem := lift_result (with_message_r "unable to encode issuer certificate"
                             (EncodeToPEMString crt)) in
  match b_Cert (Issuer_Bundle issuer) with
  | None => fail (OtherError "parent certificate is required")
  | Some parentCrt =>
      let chain := if IsSelfSigned parentCrt then EmptyString
                   else Issuer_PEM issuer in
      ret (SetCertificate crt pem chain
             (or_string (i_RootPem (rs_Row res)) (i_Pem (rs_Row res))) m)
  end
  end.

Definition NewPendingIssuer (k : Keys) (req : option IssuerRequest)
  : M world Issuer :=
  let! rp := validated req in
  let '(req, prov) := rp in
  guard (negb (bool_decide (q_Type req = AuthorityType_Root)))
    (OtherError "a Root issuer is self-signed, not pending") ;;;
  let creq := certificateRequest req in
  let! gen := Generate k prov (keyLabel req) (q_KeySpec req)
                (csr_build creq) in
  let '(csrPEM, signer, ref) := gen in
  let! m := lift_result (IssuerRequest_row req IssuerStatus_Pending ref) in
  let! skid := lift_result (SubjectKeyID (Public signer)) in
  ret (set_i_csr skid csrPEM (csr_Name creq) m).

Record ImportRequest := mkImport {
  ir_OrgID : Z; ir_ProjectID : Z; ir_Label : string;
  ir_Type : AuthorityType_Enum; ir_Certificate : string;
  ir_Intermediates : string; ir_Root : string; ir_KeyURI : string;
  ir_KeyPEM : string; ir_Config : option IssuerConfig }.

Definition set_ac_delegated (name : string) (c : AuthIssuerConfig)
  : AuthIssuerConfig :=
  mkAuthConfig (ac_Label c)
    (match ac_AIA c with
     | Some a => Some (mkAIA (aia_AiaURL a) (aia_OcspURL a) (aia_CrlURL a)
                         (aia_CRLExpiry a) (aia_OCSPExpiry a)
                         (aia_CRLRenewal a) name)
     | None => None
     end) (ac_Profiles c) (ac_AllowedProfiles c) (ac_OmitDisabledExtensions c).

Definition setVerifiedCertificate (m : Issuer) (cfg : option IssuerConfig)
    (crt : x509_Certificate) (intermediates rootPEM : string)
    (signer : signer_t) : result Issuer :=
  let? certPEM := with_message_r "unable to encode certificate"
                    (EncodeToPEMString crt) in
  let? acfg := IssuerConfigFromPb (i_Label m) cfg in
  let? issuer := with_message_r "invalid certificate chain"
    (createIssuer (set_ac_delegated "" acfg) certPEM intermediates rootPEM
       signer) in
  let? root :=
    (if IsSelfSigned crt then Ok certPEM
     else match b_RootCert (Issuer_Bundle issuer) with
          | None => Err (OtherError "invalid certificate chain: no trust root")
          | Some root => with_message_r "unable to encode root certificate"
                           (EncodeToPEMString root)
          end) in
  Ok (SetCertificate crt certPEM (Bundle_CACertsPEM issuer) root m).

Definition ImportIssuer (k : Keys) (req : option ImportRequest)
  : M world Issuer :=
  match req with
  | None => fail (OtherError "import request is required")
  | Some req =>
  guard (negb (bool_decide (ir_Label req = EmptyString)))
    (OtherError "label is required") ;;;
  guard (negb (bool_decide (ir_Type req = AuthorityType_Unknown)))
    (OtherError "type is required") ;;;
  let! crt := lift_result (parsedPEM "invalid certificate"
                             (ir_Certificate req)) in
  guard (x_IsCA crt) (OtherError "certificate is not a CA certificate") ;;;
  guard (negb (bool_decide (ir_Type req = AuthorityType_Root)) ||
         IsSelfSigned crt)
    (OtherError "a Root issuer certificate is self-signed") ;;;
  let! sr := ImportKey k (ir_KeyURI req) (ir_KeyPEM req)
    (KeyLabel (ir_OrgID req) (ir_ProjectID req) (ir_Label req))
    (crt_PublicKey crt) in
  let m := KeyRef_Apply sr.2 (bareIssuer (ir_OrgID req) (ir_ProjectID req)
             (ir_Label req) (ir_Type req) IssuerStatus_Active) in
  let! cfg := lift_result (SetConfig (ir_Config req)) in
  lift_result (setVerifiedCertificate (set_i_Config cfg m) (ir_Config req) crt
    (ir_Intermediates req) (ir_Root req) sr.1)
  end.

Definition ActivatedIssuer (k : Keys) (row : option Issuer)
    (certPEM intermediates rootPEM : string) : M world Issuer :=
  match row with
  | None => fail (OtherError "issuer is not pending")
  | Some row =>
  guard (bool_decide (i_Status row = IssuerStatus_Pending))
    (OtherError "issuer is not pending") ;;;
  let! crt := lift_result (parsedPEM "invalid certificate" certPEM) in
  guard (x_IsCA crt) (OtherError "certificate is not a CA certificate") ;;;
  let! signer := Signer k row in
  guard (PublicKeysEqual (Public signer) (crt_PublicKey crt))
    (OtherError "certificate does not match the key of the issuer") ;;;
  let! cfg := lift_result (GetConfig (id_string (i_ID row)) (i_Config row)) in
  lift_result (setVerifiedCertificate row (Some cfg) crt intermediates rootPEM
                 signer)
  end.
End issuers.
