(* ===== verification/TenantScope.v ===== *)
(** The tenant scope of a CA request: [server/service/backend/scope.go] and
    [request.go], and the state of the backend service
    ([backend_service.go]).

    The scope resolves the org and the project of a request and authorizes
    the rows the request reaches by their ID.  The backend runs over the
    registry with its database, the authorizer and the orgs; a call runs in
    the context of its caller. *)
From Stdlib Require Import ZArith Lia.
From stdpp Require Import base list gmap strings pretty.
From S2P Require Import Prelude GoStrings Xdb Roles Scopes Tenancy Grants Authorizer Methods Access Model Query Sql CaQuery CaDb PathLength Base64 Keys Pbconv Lru Registry RowPb.

(** [httperror.WrapWithCtx]: the status of a wrapped error is the library's. *)
Class Porto := { WrapWithCtx : error -> string -> error }.

Definition preconditionFailed (msg : string) : error :=
  Grpc FailedPrecondition msg.

Definition EventSource : string := "ca".

Section scope.
Context `{Xdb, Codec, ChainLib, ProfileCodec, Authority, LRU, Porto, TimeLib}.
Context {A : Type} `{!Authorizer A}.

(** ** State *)

Record BkState := mkBk {
  bk_rg : RgState; bk_az : A; bk_orgs : list Org; bk_emitted : list Event }.

(** [Service]: the registry may be absent; [sv_keys] are the registry's. *)
Record Service := mkService { sv_registry : bool; sv_keys : Keys }.

Definition in_rg {X} (m : M RgState X) : M BkState X := fun s =>
  let '(r, g) := m (bk_rg s) in
  (r, mkBk g (bk_az s) (bk_orgs s) (bk_emitted s)).
Definition in_az {X} (m : M A X) : M BkState X := fun s =>
  let '(r, a) := m (bk_az s) in
  (r, mkBk (bk_rg s) a (bk_orgs s) (bk_emitted s)).
(** A call of the CA database. *)
Definition bk_db {X} (m : M Db X) : M BkState X := in_rg (in_db m).

Definition Emit (e : Event) : M BkState unit :=
  modify (fun s => mkBk (bk_rg s) (bk_az s) (bk_orgs s) (bk_emitted s ++ [e])).

(** [OrgsReadonlyDb.GetOrg] *)
Definition GetOrg (id : Z) : M BkState Org := fun s =>
  (match select_row (fun o => (o_ID o =? id)%Z) (bk_orgs s) with
   | Ok o => Ok o
   | Err e => Err (CheckNotFoundError e "org" (pretty id))
   end, s).

Definition requireCA (sv : Service) : M BkState unit :=
  guard (sv_registry sv) (Grpc Unavailable "CA is not configured").

(** A missing row is [NotFound], any other failure is wrapped. *)
Definition found {X} (missing failure : string) (m : M BkState X)
  : M BkState X :=
  catch m (fun r => match r with
    | Ok x => ret x
    | Err e => if IsNotFoundError e then fail (Grpc NotFound missing)
               else fail (WrapWithCtx e failure)
    end).
Definition wrapped {X} (failure : string) (m : M BkState X) : M BkState X :=
  catch m (fun r => match r with
    | Ok x => ret x
    | Err e => fail (WrapWithCtx e failure)
    end).

(** ** Request fields *)

Definition parseID (val what : string) : result Z :=
  if bool_decide (val = EmptyString)
  then Err (Grpc InvalidArgument ("missing " ++ what))
  else match parse_id val with
       | Some id => Ok id
       | None => Err (Grpc InvalidArgument ("invalid " ++ what))
       end.

Definition maxListKeys : Z := DefaultPageSize.

(** An empty list is no filter. *)
Definition listKeys (vals : list string) (what : string)
  : result (list string) :=
  if (maxListKeys <? Z.of_nat (length vals))%Z
  then Err (Grpc InvalidArgument ("too many " ++ what ++ ": at most " ++
                                  pretty maxListKeys))
  else Ok vals.

Fixpoint parseIDList (vals : list string) (what : string) : result (list Z) :=
  match vals with
  | [] => Ok []
  | val :: rest =>
      match parse_id val with
      | None => Err (Grpc InvalidArgument ("invalid " ++ what ++ ": " ++ val))
      | Some id => let? ids := parseIDList rest what in Ok (id :: ids)
      end
  end.

Definition parseIDs (vals : list string) (what : string) : result (list Z) :=
  let? vals := listKeys vals what in parseIDList vals what.

Definition issuerPb (row : Issuer) : M BkState Issuer_pb :=
  wrapped "invalid issuer config" (lift_result (Issuer_Pb row)).

(** Zero is the zero time. *)
Definition parseTime (val what : string) : result Z :=
  if bool_decide (val = EmptyString) then Ok 0%Z
  else match ParseRFC3339 val with
       | Some t => Ok t
       | None => Err (Grpc InvalidArgument ("invalid " ++ what ++
                                            ": RFC3339 time expected"))
       end.

(** ** The scope of the request *)

Definition isServiceCaller (tctx : TrustyCtx) : bool :=
  HasPrefix (tc_appRole tctx) ServiceRolePrefix.

Definition scope_Org (ctx : Context) (reqOrgID : string) : M BkState Z :=
  let tctx := FromContext ctx in
  if negb (isServiceCaller tctx) then
    let orgID := tc_orgID tctx in
    if (orgID =? 0)%Z then fail (Grpc PermissionDenied "org not selected")
    else if bool_decide (reqOrgID <> EmptyString) &&
            bool_decide (reqOrgID <> id_string orgID)
    then fail (Grpc PermissionDenied "org mismatch")
    else ret orgID
  else if bool_decide (reqOrgID = EmptyString)
  then fail (Grpc InvalidArgument "org ID is required")
  else match parse_id reqOrgID with
  | None => fail (Grpc InvalidArgument "invalid org ID")
  | Some orgID =>
      let! org := found "org not found" "unable to find org" (GetOrg orgID) in
      guard (bool_decide (o_Status org = ItemStatus_Active))
        (preconditionFailed "org is deleted") ;;;
      ret orgID
  end.

(** A project the authorizer denies does not exist for the caller. *)
Definition visibleProject (orgID projectID : Z) (what : string)
  : M BkState unit :=
  catch (in_az (az_Project orgID projectID)) (fun r =>
    match r with
    | Ok _ => ret tt
    | Err e => if errors_Is e ErrAccessDenied
               then fail (Grpc NotFound (what ++ " not found"))
               else fail (WrapWithCtx e "unable to find project")
    end).

Definition scope_Project (ctx : Context) (orgID : Z) (reqProjectID : string)
  : M BkState Z :=
  let tctx := FromContext ctx in
  let reqProjectID :=
    if bool_decide (reqProjectID = EmptyString) then
      if IsAPIKey tctx && negb (tc_projectID tctx =? 0)%Z
      then id_string (tc_projectID tctx) else EmptyString
    else reqProjectID in
  if bool_decide (reqProjectID = EmptyString) then ret 0%Z
  else match parse_id reqProjectID with
  | None => fail (Grpc InvalidArgument "invalid project ID")
  | Some projectID => visibleProject orgID projectID "project" ;;; ret projectID
  end.

Definition RequestProject (ctx : Context) (orgID : Z) (reqProjectID : string)
  : M BkState Z :=
  if bool_decide (reqProjectID = EmptyString) then ret 0%Z
  else scope_Project ctx orgID reqProjectID.

(** ** Access to rows *)

(** The roles of the rule of the method. *)
Definition methodRoles (method : string) : list string :=
  match GetMethodInfo method with
  | Some rule => AllowedRoles rule
  | None => []
  end.

Definition RowAccess (ctx : Context) (orgID projectID : Z)
    (method what : string) : M BkState unit :=
  let tctx := FromContext ctx in
  if isServiceCaller tctx then ret tt
  else
  let allowed := methodRoles method in
  if IsAPIKey tctx then
    let keyProjectID := tc_projectID tctx in
    if negb (projectID =? 0)%Z then
      if negb (keyProjectID =? 0)%Z && negb (keyProjectID =? projectID)%Z
      then fail (Grpc NotFound (what ++ " not found"))
      else visibleProject orgID projectID what
    else if negb (keyProjectID =? 0)%Z && negb (AllowsRole allowed Role_Viewer)
    then fail (Grpc PermissionDenied "access denied")
    else ret tt
  else
  catch (in_az (az_CheckRole orgID projectID (tc_userID tctx)
                  [Role_String Role_Viewer])) (fun r =>
    match r with
    | Err e =>
        if errors_Is e ErrAccessDenied || errors_Is e ErrInsufficientRole ||
           errors_Is e ErrOrgNotSelected
        then fail (Grpc NotFound (what ++ " not found"))
        else fail (WrapWithCtx e "unable to resolve access")
    | Ok (_, grants) =>
        if bool_decide (HighestRole (Some grants) projectID allowed = Role_None)
        then fail (Grpc PermissionDenied "access denied")
        else ret tt
    end).

(** [None] is every project. *)
Definition ListProjects (ctx : Context) (orgID : Z)
  : M BkState (option (list Z)) :=
  let tctx := FromContext ctx in
  if IsAPIKey tctx || isServiceCaller tctx then ret None
  else
  let! grants := wrapped "unable to resolve access"
                   (in_az (az_Grants orgID (tc_userID tctx))) in
  if CanListAllProjects (Some grants) then ret None
  else ret (Some (GrantedProjectIDs (Some grants))).

Definition inProject (rowProjectID projectID : Z) : bool :=
  (projectID =? 0)%Z || (rowProjectID =? projectID)%Z.

Definition VisibleIssuer (ctx : Context) (orgID : Z) (row : Issuer)
    (method : string) : M BkState Issuer :=
  guard (i_OrgID row =? orgID)%Z (Grpc NotFound "issuer not found") ;;;
  RowAccess ctx orgID (i_ProjectID row) method "issuer" ;;;
  ret row.

Definition scope_Issuer (ctx : Context) (orgID projectID : Z)
    (idVal method : string) : M BkState Issuer :=
  let! id := lift_result (parseID idVal "issuer ID") in
  let! row := found "issuer not found" "unable to find issuer"
                (bk_db (GetIssuer id)) in
  guard (inProject (i_ProjectID row) projectID)
    (Grpc NotFound "issuer not found") ;;;
  VisibleIssuer ctx orgID row method.

Definition scope_Profile (ctx : Context) (orgID projectID : Z)
    (idVal method : string) : M BkState CertificateProfile :=
  let! id := lift_result (parseID idVal "profile ID") in
  let! row := found "profile not found" "unable to find profile"
                (bk_db (GetProfile id)) in
  guard ((p_OrgID row =? orgID)%Z && inProject (p_ProjectID row) projectID)
    (Grpc NotFound "profile not found") ;;;
  RowAccess ctx orgID (p_ProjectID row) method "profile" ;;;
  ret row.

Definition IssuerByLabel (orgID projectID : Z) (label : string)
  : M BkState Issuer :=
  found ("issuer not found: " ++ label) "unable to find issuer"
    (bk_db (fallback projectID (FindIssuer orgID projectID label)
              (FindIssuer orgID 0 label))).

Definition ProfileByLabel (orgID projectID : Z) (label : string)
  : M BkState CertificateProfile :=
  found ("profile not found: " ++ label) "unable to find profile"
    (bk_db (fallback projectID (FindProfile orgID projectID label)
              (FindProfile orgID 0 label))).
End scope.
