(* ===== verification/BackendIssuers.v ===== *)
(** The issuer, profile and root methods of the backend:
    [server/service/backend/issuer.go], [profile.go] and [root.go]. *)
From Stdlib Require Import ZArith Lia.
From stdpp Require Import base list gmap strings pretty.
From S2P Require Import Prelude GoStrings Xdb Roles Scopes Tenancy Grants Authorizer Methods Access Model Query Sql CaQuery CaDb PathLength Base64 Keys Pbconv Lru Registry RowPb IssuerBuild TenantScope.

(** ** Requests; a nil pointer is [None] *)

Record X509Name_pb := mkNamePb {
  np_Country : string; np_State : string; np_Locality : string;
  np_Organisation : string; np_OrganisationalUnit : string;
  np_SerialNumber : string }.
Record X509Subject_pb := mkSubjectPb {
  sj_CommonName : string; sj_Names : list X509Name_pb;
  sj_SerialNumber : string }.

Record RegisterIssuerRequest := mkRegisterIssuer {
  ri_OrgID : string; ri_ProjectID : string; ri_Label : string;
  ri_Type : AuthorityType_Enum; ri_ParentID : string; ri_Profile : string;
  ri_Subject : option X509Subject_pb; ri_SAN : list string;
  ri_Extensions : list (option X509Extension_pb);
  ri_KeySpec : option (string * Z); ri_KeyProvider : string;
  ri_Config : option IssuerConfig }.
Record ImportIssuerRequest := mkImportIssuer {
  ii_OrgID : string; ii_ProjectID : string; ii_Label : string;
  ii_Type : AuthorityType_Enum; ii_Certificate : string;
  ii_Intermediates : string; ii_Root : string; ii_KeyURI : string;
  ii_KeyPem : string; ii_Config : option IssuerConfig }.
Record ActivateIssuerRequest := mkActivateIssuer {
  ai_OrgID : string; ai_ProjectID : string; ai_ID : string;
  ai_Certificate : string; ai_Intermediates : string; ai_Root : string }.
Record UpdateIssuer_Request := mkUpdateIssuerRequest {
  up_OrgID : string; up_ProjectID : string; up_ID : string;
  up_Config : option IssuerConfig; up_Status : IssuerStatus_Enum }.
Record GetIssuerRequest := mkGetIssuer {
  gi_OrgID : string; gi_ProjectID : string; gi_ID : string;
  gi_Label : string; gi_IKID : string }.
Record ListIssuers_Request := mkListIssuersReq {
  ls_Org : string; ls_Project : string; ls_Status : IssuerStatus_Enum;
  ls_Type : AuthorityType_Enum; ls_IDs : list string; ls_IKIDs : list string;
  ls_Limit : Z; ls_Offset : Z; ls_Cursor : string }.
Record RegisterProfileRequest := mkRegisterProfile {
  rp_OrgID : string; rp_ProjectID : string;
  rp_Profile : option CertProfile_pb }.
Record GetProfileRequest := mkGetProfile {
  gp_OrgID : string; gp_ProjectID : string; gp_ID : string;
  gp_Label : string }.
Record ListProfiles_Request := mkListProfilesReq {
  lq_OrgID : string; lq_ProjectID : string; lq_IssuerLabel : string;
  lq_IDs : list string; lq_Labels : list string; lq_Limit : Z;
  lq_Offset : Z; lq_Cursor : string }.
Record DeleteProfileRequest := mkDeleteProfile {
  dp_OrgID : string; dp_ProjectID : string; dp_ID : string }.
Record RegisterRootRequest := mkRegisterRoot {
  rr_OrgID : string; rr_Pem : string; rr_Trust : Trust_Enum }.
Record ListRoots_Request := mkListRootsReq {
  rt_OrgID : string; rt_Limit : Z; rt_Offset : Z; rt_Cursor : string }.

(** Active -> Archived -> Destroyed; [None] is the zero status of a missing
    key. *)
Definition issuerTransitions (st : IssuerStatus_Enum)
  : option IssuerStatus_Enum :=
  match st with
  | IssuerStatus_Active => Some IssuerStatus_Archived
  | IssuerStatus_Archived => Some IssuerStatus_Destroyed
  | _ => None
  end.

Definition signRequestErrorMarkers : list string :=
  ["invalid"; "not allowed"; "missing"; "parse"; "CSR"; "does not match";
   "disallows"; "exceeds"; "earlier than allowed"; "unsupported profile"]%string.

Definition isSignRequestError (e : error) : bool :=
  existsb (Contains (Error e)) signRequestErrorMarkers.

(** The subject of a request message as the one of a certificate request;
    the elements of a received message are never nil. *)
Definition subjectOf (subject : option X509Subject_pb) : option X509Subject :=
  (fun s => mkSubject (sj_CommonName s)
     ((fun n => mkName (np_Country n) (np_State n) (np_Locality n)
                  (np_Organisation n) (np_OrganisationalUnit n)
                  (np_SerialNumber n)) <$> sj_Names s)
     (sj_SerialNumber s)) <$> subject.

Section issuers.
Context `{Xdb, Codec, IdGen, ChainLib, ProfileCodec, Authority, !IssuerLib, LRU, Porto, TimeLib}.
Context {A : Type} `{!Authorizer A}.
Local Notation B X := (M (BkState (A := A)) X).

Definition invalidArgument (msg : string) : error := Grpc InvalidArgument msg.

(** A required label, trimmed, with its bound. *)
Definition requiredLabel (missing tooLong label : string) : result string :=
  let label := TrimSpace label in
  if bool_decide (label = EmptyString) then Err (invalidArgument missing)
  else if (MaxLenForLabel <? String.length label)%nat
  then Err (invalidArgument tooLong)
  else Ok label.

(** A present request. *)
Definition required {R} (req : option R) : B R :=
  match req with
  | Some r => ret r
  | None => fail (invalidArgument "missing request")
  end.

(** An error of a pure check is the client's. *)
Definition as_invalid {X} (prefix : string) (r : result X) : result X :=
  match r with
  | Ok x => Ok x
  | Err e => Err (invalidArgument (prefix ++ Error e))
  end.

(** ** Resolution *)

Definition resolveError (e : error) (profile issuerLabel : string) : error :=
  if errors_Is e ErrProfileNotFound
  then Grpc NotFound ("profile not found: " ++ profile)
  else if errors_Is e ErrIssuerNotFound then
    if bool_decide (issuerLabel <> EmptyString)
    then Grpc NotFound ("issuer not found: " ++ issuerLabel)
    else Grpc NotFound ("issuer not found for profile: " ++ profile)
  else if errors_Is e ErrIssuerLabelRequired
  then invalidArgument ("issuer label is required for profile: " ++ profile)
  else if errors_Is e ErrIssuerMismatch
  then invalidArgument ("issuer " ++ issuerLabel ++
                        " does not serve the profile: " ++ profile)
  else if errors_Is e ErrProfileNotAllowed
  then invalidArgument ("issuer " ++ issuerLabel ++
                        " does not support the profile: " ++ profile)
  else if errors_Is e ErrIssuerNotActive
  then preconditionFailed "issuer is not active"
  else Grpc Internal "unable to load issuer".

Definition resolve (sv : Service) (orgID projectID : Z)
    (profile issuerLabel : string) : B Resolution :=
  catch (in_rg (Resolve (sv_keys sv)
           (Some (mkResolve orgID projectID profile issuerLabel)))) (fun r =>
    match r with
    | Ok res => ret res
    | Err e => fail (resolveError e profile issuerLabel)
    end).

Definition parentIssuer (sv : Service) (orgID projectID : Z)
    (parentID profile : string) : B Resolution :=
  let! id := lift_result (parseID parentID "parent ID") in
  let! parent := found "parent issuer not found" "unable to find parent issuer"
                   (bk_db (GetIssuer id)) in
  let platform := IsZero (i_OrgID parent) in
  guard (platform || (i_OrgID parent =? orgID)%Z)
    (Grpc NotFound "parent issuer not found") ;;;
  guard (platform || IsZero (i_ProjectID parent) ||
         (i_ProjectID parent =? projectID)%Z)
    (Grpc NotFound "parent issuer not found") ;;;
  guard (bool_decide (i_Status parent = IssuerStatus_Active))
    (preconditionFailed "parent issuer is not active") ;;;
  (if platform then
     let! cfg := wrapped "invalid parent issuer config"
       (lift_result (GetConfig (id_string (i_ID parent)) (i_Config parent))) in
     guard (bool_decide (profile ∈ ic_AllowedProfiles cfg))
       (Grpc PermissionDenied ("profile " ++ profile ++
                               " is not allowed by the parent issuer"))
   else ret tt) ;;;
  let! res := resolve sv (i_OrgID parent) (i_ProjectID parent) profile
                (i_Label parent) in
  guard (cc_IsCA (ap_CAConstraint (rs_Profile res)))
    (invalidArgument ("profile " ++ profile ++ " is not a CA profile")) ;;;
  ret res.

Definition caProfile (orgID projectID : Z) (label : string)
  : B CertProfile :=
  let! row := catch (in_rg (Registry_FindProfile orgID projectID label)) (fun r =>
    match r with
    | Ok row => ret row
    | Err e => if errors_Is e ErrProfileNotFound
               then fail (Grpc NotFound ("profile not found: " ++ label))
               else fail (WrapWithCtx e "unable to find profile")
    end) in
  let! profile := wrapped "invalid profile"
                    (lift_result (AuthorityProfile row)) in
  guard (cc_IsCA (ap_CAConstraint profile))
    (invalidArgument ("profile " ++ label ++ " is not a CA profile")) ;;;
  ret profile.

Definition issuerError (e : error) : error :=
  if isSignRequestError e || errors_Is e ErrSoftwareKeysDisabled
  then invalidArgument ("failed to create issuer: " ++ Error e)
  else WrapWithCtx e "failed to create issuer".

(** A constructor of [core.Keys], with its errors mapped. *)
Definition newIssuer (m : M world Issuer) : B Issuer :=
  catch (in_rg (in_world m)) (fun r =>
    match r with
    | Ok row => ret row
    | Err e => fail (issuerError e)
    end).

(** ** Registration *)

Definition registerError (e : error) (label : string) : error :=
  if IsUniqueViolation e UniqueIssuerLabel
  then Grpc AlreadyExists ("issuer label is already registered: " ++ label)
  else if IsUniqueViolation e UniqueIssuerSkid
  then Grpc AlreadyExists "issuer key is already registered"
  else if errors_Is e ErrRootConflict
  then Grpc AlreadyExists "root certificate is registered in another scope"
  else WrapWithCtx e "failed to register issuer".

(** The trust anchor of a root: its certificate, private to the org. *)
Definition anchorOf (row : Issuer) : result (option RootCertificate) :=
  if bool_decide (i_Type row = AuthorityType_Root)
  then let? crt := parsedPEM "certificate" (i_Pem row) in
       Ok (Some (NewRootCertificate crt (i_OrgID row) Trust_Private (i_Pem row)))
  else Ok None.

Definition Service_registerIssuer (row : Issuer) : B Issuer :=
  let! anchor := wrapped "invalid issuer certificate"
                   (lift_result (anchorOf row)) in
  let! registered :=
    catch (bk_db (RegisterIssuer row anchor)) (fun r =>
      match r with
      | Ok registered => ret registered
      | Err e => fail (registerError e (i_Label row))
      end) in
  in_rg (InvalidateIssuer (Some registered)) ;;;
  ret registered.

(** An event on an issuer of the scope. *)
Definition issuerEvent (ctx : Context) (typ : Z) (title : string)
    (orgID projectID id : Z) (text : string) : Event :=
  events_Description text (events_Reference id (events_Project projectID
    (events_Org orgID (events_New ctx EventSource typ title)))).

Definition Service_RegisterIssuer (sv : Service) (ctx : Context)
    (req : option RegisterIssuerRequest) : B Issuer_pb :=
  let! req := required req in
  requireCA sv ;;;
  let! label := lift_result (requiredLabel "missing label"
                  "invalid label length" (ri_Label req)) in
  guard (negb (bool_decide (ri_Type req = AuthorityType_Unknown)))
    (invalidArgument "missing type") ;;;
  guard (negb (bool_decide (ri_Type req = AuthorityType_Root) &&
               bool_decide (ri_ParentID req <> EmptyString)))
    (invalidArgument "a Root issuer is self-signed: parent ID is not allowed") ;;;
  guard (negb (noSubject (subjectOf (ri_Subject req))))
    (invalidArgument "missing subject") ;;;
  lift_result (as_invalid "" (KeySpec (ri_KeySpec req))) ;;;
  lift_result (as_invalid "invalid config: "
    (IssuerConfigFromPb label (ri_Config req))) ;;;
  let! extensions := lift_result (as_invalid ""
                       (ExtensionsFromPb (ri_Extensions req))) in
  let! orgID := scope_Org ctx (ri_OrgID req) in
  let! projectID := scope_Project ctx orgID (ri_ProjectID req) in
  let keys := sv_keys sv in
  match Keys_Provider keys (ri_KeyProvider req) with
  | Err _ => fail (invalidArgument ("invalid key provider: " ++
                                    ri_KeyProvider req))
  | Ok prov =>
  let ireq := mkIssuerRequest orgID projectID label (ri_Type req)
    (subjectOf (ri_Subject req)) (ri_SAN req) extensions (ri_KeySpec req) (Some prov)
    (ri_Config req) in
  let! row :=
    (if bool_decide (ri_ParentID req <> EmptyString) then
       guard (negb (bool_decide (ri_Profile req = EmptyString)))
         (invalidArgument "missing profile") ;;;
       let! parent := parentIssuer sv orgID projectID (ri_ParentID req)
                        (ri_Profile req) in
       let! issuer := in_rg (deref (rs_Issuer parent)) in
       newIssuer (NewSignedIssuer keys (Some ireq) (Some (issuer, parent)))
     else if bool_decide (ri_Type req = AuthorityType_Root) then
       guard (negb (bool_decide (ri_Profile req = EmptyString)))
         (invalidArgument "missing profile") ;;;
       let! profile := caProfile orgID projectID (ri_Profile req) in
       newIssuer (NewRootIssuer keys (Some ireq) (ri_Profile req)
                    (Some profile))
     else newIssuer (NewPendingIssuer keys (Some ireq))) in
  let! registered := Service_registerIssuer row in
  Emit (issuerEvent ctx EventType_IssuerRegistered "Issuer registered" orgID
    projectID (i_ID registered)
    ("issuer " ++ i_Label registered ++ " registered with status " ++
     IssuerStatus_String (i_Status registered))) ;;;
  issuerPb registered
  end.

Definition Service_ImportIssuer (sv : Service) (ctx : Context)
    (req : option ImportIssuerRequest) : B Issuer_pb :=
  let! req := required req in
  requireCA sv ;;;
  let! label := lift_result (requiredLabel "missing label"
                  "invalid label length" (ii_Label req)) in
  guard (negb (bool_decide (ii_Type req = AuthorityType_Unknown)))
    (invalidArgument "missing type") ;;;
  guard (negb (bool_decide (ii_Certificate req = EmptyString)))
    (invalidArgument "missing certificate") ;;;
  guard (negb (eqb (bool_decide (ii_KeyURI req = EmptyString))
                   (bool_decide (ii_KeyPem req = EmptyString))))
    (invalidArgument "either key URI or key PEM is required") ;;;
  let! orgID := scope_Org ctx (ii_OrgID req) in
  let! projectID := scope_Project ctx orgID (ii_ProjectID req) in
  let! row := catch (in_rg (in_world (ImportIssuer (sv_keys sv) (Some
      (mkImport orgID projectID label (ii_Type req) (ii_Certificate req)
         (ii_Intermediates req) (ii_Root req) (ii_KeyURI req) (ii_KeyPem req)
         (ii_Config req)))))) (fun r =>
    match r with
    | Ok row => ret row
    | Err e => fail (invalidArgument ("failed to import issuer: " ++ Error e))
    end) in
  let! registered := Service_registerIssuer row in
  Emit (issuerEvent ctx EventType_IssuerRegistered "Issuer imported" orgID
    projectID (i_ID registered)
    ("issuer " ++ i_Label registered ++ " imported")) ;;;
  issuerPb registered.

Definition CA_ActivateIssuer : string := "/pb.CA/ActivateIssuer".
Definition CA_UpdateIssuer : string := "/pb.CA/UpdateIssuer".
Definition CA_GetIssuer : string := "/pb.CA/GetIssuer".
Definition CA_GetProfile : string := "/pb.CA/GetProfile".
Definition CA_DeleteProfile : string := "/pb.CA/DeleteProfile".

Definition Service_ActivateIssuer (sv : Service) (ctx : Context)
    (req : option ActivateIssuerRequest) : B Issuer_pb :=
  let! req := required req in
  requireCA sv ;;;
  guard (negb (bool_decide (ai_Certificate req = EmptyString)))
    (invalidArgument "missing certificate") ;;;
  let! orgID := scope_Org ctx (ai_OrgID req) in
  let! projectID := RequestProject ctx orgID (ai_ProjectID req) in
  let! row := scope_Issuer ctx orgID projectID (ai_ID req) CA_ActivateIssuer in
  guard (bool_decide (i_Status row = IssuerStatus_Pending))
    (preconditionFailed "issuer is not pending") ;;;
  let! activated := catch (in_rg (in_world (ActivatedIssuer (sv_keys sv)
      (Some row) (ai_Certificate req) (ai_Intermediates req) (ai_Root req))))
    (fun r => match r with
     | Ok m => ret m
     | Err e => fail (invalidArgument ("failed to activate issuer: " ++ Error e))
     end) in
  let! res := catch (bk_db (ActivateIssuer activated)) (fun r =>
    match r with
    | Ok res => ret res
    | Err e =>
        if IsNotFoundError e
        then fail (preconditionFailed "issuer is not pending")
        else if IsUniqueViolation e UniqueIssuerSkid
        then fail (Grpc AlreadyExists "issuer key is already registered")
        else fail (WrapWithCtx e "failed to activate issuer")
    end) in
  in_rg (InvalidateIssuer (Some res)) ;;;
  Emit (issuerEvent ctx EventType_IssuerActivated "Issuer activated" orgID
    (i_ProjectID res) (i_ID res)
    ("issuer " ++ i_Label res ++ " activated")) ;;;
  issuerPb res.

(** The columns a request changes; the status only along the lifecycle. *)
Definition updateOf (req : UpdateIssuer_Request) (orgID : Z) (row : Issuer)
  : B UpdateIssuerRequest :=
  (if bool_decide (up_Status req = IssuerStatus_Unknown) then ret tt
   else guard (bool_decide (issuerTransitions (i_Status row) =
                            Some (up_Status req)))
          (preconditionFailed ("issuer status " ++
             IssuerStatus_String (i_Status row) ++ " cannot change to " ++
             IssuerStatus_String (up_Status req)))) ;;;
  let! config :=
    match up_Config req with
    | None => ret EmptyString
    | Some cfg =>
        lift_result (as_invalid "invalid config: "
          (IssuerConfigFromPb (i_Label row) (Some cfg))) ;;;
        wrapped "invalid config" (lift_result
          (with_message_r "unable to marshal JSON value"
             (marshal_IssuerConfig cfg)))
    end in
  ret (mkUpdateIssuer (i_ID row) orgID (up_Status req) config).

Definition Service_UpdateIssuer (sv : Service) (ctx : Context)
    (req : option UpdateIssuer_Request) : B Issuer_pb :=
  let! req := required req in
  requireCA sv ;;;
  guard (negb (bool_decide (up_Config req = None) &&
               bool_decide (up_Status req = IssuerStatus_Unknown)))
    (invalidArgument "nothing to update") ;;;
  let! orgID := scope_Org ctx (up_OrgID req) in
  let! projectID := RequestProject ctx orgID (up_ProjectID req) in
  let! row := scope_Issuer ctx orgID projectID (up_ID req) CA_UpdateIssuer in
  let! update := updateOf req orgID row in
  let! updated := found "issuer not found" "failed to update issuer"
                    (bk_db (UpdateIssuer update)) in
  (if bool_decide (up_Status req = IssuerStatus_Destroyed)
   then catch (in_rg (in_world (Destroy (sv_keys sv) row))) (fun _ => ret tt)
   else ret tt) ;;;
  in_rg (InvalidateIssuer (Some updated)) ;;;
  Emit (issuerEvent ctx EventType_IssuerUpdated "Issuer updated" orgID
    (i_ProjectID updated) (i_ID updated)
    ("issuer " ++ i_Label updated ++ " updated: status " ++
     IssuerStatus_String (i_Status updated))) ;;;
  issuerPb updated.

(** ** Reads *)

Definition Service_GetIssuer (ctx : Context) (req : option GetIssuerRequest)
  : B Issuer_pb :=
  let! req := required req in
  let! orgID := scope_Org ctx (gi_OrgID req) in
  let! row :=
    (if bool_decide (gi_ID req <> EmptyString)
     then scope_Issuer ctx orgID 0 (gi_ID req) CA_GetIssuer
     else if bool_decide (gi_Label req <> EmptyString) then
       let! projectID := scope_Project ctx orgID (gi_ProjectID req) in
       IssuerByLabel orgID projectID (gi_Label req)
     else if bool_decide (gi_IKID req <> EmptyString) then
       let! row := found "issuer not found" "unable to find issuer"
                     (bk_db (GetIssuerBySKID (gi_IKID req))) in
       VisibleIssuer ctx orgID row CA_GetIssuer
     else fail (invalidArgument "issuer ID, label or IKID is required")) in
  issuerPb row.

(** The projects a list without a project covers. *)
Definition listedProjects (ctx : Context) (orgID projectID : Z)
  : B (option (list Z)) :=
  if IsZero projectID then ListProjects ctx orgID else ret None.

Definition Service_ListIssuers (ctx : Context)
    (req : option ListIssuers_Request)
  : B (list Issuer_pb * option NextPage_pb) :=
  let! req := required req in
  let! orgID := scope_Org ctx (ls_Org req) in
  let! projectID := scope_Project ctx orgID (ls_Project req) in
  let! cursor := lift_result (ListCursor (ls_Cursor req) ParseCursor) in
  let! ids := lift_result (parseIDs (ls_IDs req) "issuer IDs") in
  let! ikids := lift_result (listKeys (ls_IKIDs req) "IKIDs") in
  let! visible := listedProjects ctx orgID projectID in
  let! res := wrapped "failed to list issuers" (bk_db (ListIssuers
    (mkListIssuers (mkScope orgID false false projectID Scope_Undefined visible)
       0 "" (ls_Status req) (ls_Type req) ids ikids
       (mkPageRequest (Limit (ls_Limit req)) (ls_Offset req) cursor)))) in
  wrapped "invalid issuer config" (lift_result (IssuerResult_Pb res)).

(** ** Profiles *)

Definition profilePb (row : CertificateProfile) : B CertProfile_pb :=
  wrapped "invalid profile config" (lift_result (CertificateProfile_Pb row)).

Definition invalidateProfile (sv : Service) (orgID projectID : Z)
    (label : string) : B unit :=
  if sv_registry sv then in_rg (InvalidateProfile orgID projectID label)
  else ret tt.

(** The definition with its labels trimmed. *)
Definition with_labels (label issuerLabel : string) (d : CertProfile_pb)
  : CertProfile_pb :=
  with_identity (cp_ID d) (cp_OrgID d) (cp_ProjectID d) label issuerLabel
    (cp_Status d) (cp_CreatedAt d) (cp_UpdatedAt d) d.

Definition Service_RegisterProfile (sv : Service) (ctx : Context)
    (req : option RegisterProfileRequest) : B CertProfile_pb :=
  match req with
  | None | Some (mkRegisterProfile _ _ None) =>
      fail (invalidArgument "missing profile")
  | Some (mkRegisterProfile reqOrg reqProject (Some d)) =>
  let! label := lift_result (requiredLabel "missing profile label"
                  "invalid profile label length" (cp_Label d)) in
  let! issuerLabel := lift_result (requiredLabel "missing issuer label"
                        "invalid issuer label length" (cp_IssuerLabel d)) in
  let def := with_labels label issuerLabel d in
  lift_result (as_invalid "" (ProfileFromPb ValidateProfile (Some def))) ;;;
  let! orgID := scope_Org ctx reqOrg in
  let! projectID := scope_Project ctx orgID reqProject in
  let! m := lift_result (as_invalid ""
              (NewCertificateProfile orgID projectID (Some def))) in
  let! res := wrapped "failed to register profile"
                (bk_db (RegisterProfile m)) in
  invalidateProfile sv orgID projectID (p_Label res) ;;;
  Emit (issuerEvent ctx EventType_ProfileRegistered "Profile registered" orgID
    projectID (p_ID res)
    ("profile " ++ p_Label res ++ " registered for issuer " ++
     p_IssuerLabel res)) ;;;
  profilePb res
  end.

Definition Service_GetProfile (ctx : Context) (req : option GetProfileRequest)
  : B CertProfile_pb :=
  let! req := required req in
  let! orgID := scope_Org ctx (gp_OrgID req) in
  let! row :=
    (if bool_decide (gp_ID req <> EmptyString)
     then scope_Profile ctx orgID 0 (gp_ID req) CA_GetProfile
     else if bool_decide (gp_Label req <> EmptyString) then
       let! projectID := scope_Project ctx orgID (gp_ProjectID req) in
       ProfileByLabel orgID projectID (gp_Label req)
     else fail (invalidArgument "profile ID or label is required")) in
  profilePb row.

Definition Service_ListProfiles (ctx : Context)
    (req : option ListProfiles_Request)
  : B (list CertProfile_pb * option NextPage_pb) :=
  let! req := required req in
  let! orgID := scope_Org ctx (lq_OrgID req) in
  let! projectID := scope_Project ctx orgID (lq_ProjectID req) in
  let! cursor := lift_result (ListCursor (lq_Cursor req) ParseCursor) in
  let! ids := lift_result (parseIDs (lq_IDs req) "profile IDs") in
  let! labels := lift_result (listKeys (lq_Labels req) "labels") in
  let! visible := listedProjects ctx orgID projectID in
  let! res := wrapped "failed to list profiles" (bk_db (CaDb.ListProfiles
    (mkListProfiles (mkScope orgID false false projectID Scope_Undefined visible)
       (lq_IssuerLabel req) ItemStatus_Unknown ids labels
       (mkPageRequest (Limit (lq_Limit req)) (lq_Offset req) cursor)))) in
  wrapped "invalid profile config"
    (lift_result (CertificateProfileResult_Pb res)).

Definition Service_DeleteProfile (sv : Service) (ctx : Context)
    (req : option DeleteProfileRequest) : B unit :=
  let! req := required req in
  let! orgID := scope_Org ctx (dp_OrgID req) in
  let! projectID := RequestProject ctx orgID (dp_ProjectID req) in
  let! row := scope_Profile ctx orgID projectID (dp_ID req) CA_DeleteProfile in
  let! deleted := wrapped "failed to delete profile"
                    (bk_db (DeleteProfile orgID (p_ID row))) in
  guard (negb (deleted =? 0)%Z) (Grpc NotFound "profile not found") ;;;
  invalidateProfile sv (p_OrgID row) (p_ProjectID row) (p_Label row) ;;;
  Emit (issuerEvent ctx EventType_ProfileDeleted "Profile deleted" orgID
    (p_ProjectID row) (p_ID row) ("profile " ++ p_Label row ++ " deleted")).

(** ** Trust anchors *)

Definition Service_RegisterRoot (ctx : Context)
    (req : option RegisterRootRequest) : B RootCertificate_pb :=
  match req with
  | None => fail (invalidArgument "missing certificate")
  | Some req =>
  guard (negb (bool_decide (TrimSpace (rr_Pem req) = EmptyString)))
    (invalidArgument "missing certificate") ;;;
  let! orgID := scope_Org ctx (rr_OrgID req) in
  match ParseFromPEM (rr_Pem req) with
  | None => fail (invalidArgument "invalid certificate")
  | Some crt =>
  guard (IsSelfSigned crt)
    (invalidArgument "certificate is not a self-signed CA certificate") ;;;
  let! pem := wrapped "unable to encode certificate"
                (lift_result (EncodeToPEMString crt)) in
  let! res := catch (bk_db (RegisterRoot
      (NewRootCertificate crt orgID (rr_Trust req) pem))) (fun r =>
    match r with
    | Ok res => ret res
    | Err e => if errors_Is e ErrRootConflict
               then fail (Grpc AlreadyExists
                            "certificate is registered in another scope")
               else fail (WrapWithCtx e "failed to register root")
    end) in
  Emit (events_Description ("root " ++ t_Subject res ++ " registered")
    (events_Reference (t_ID res) (events_Org orgID
      (events_New ctx EventSource EventType_RootRegistered "Root registered")))) ;;;
  ret (RootCertificate_Pb res)
  end
  end.

Definition Service_ListRoots (ctx : Context) (req : option ListRoots_Request)
  : B (list RootCertificate_pb * option NextPage_pb) :=
  let! req := required req in
  let! cursor := lift_result (ListCursor (rt_Cursor req) ParseCursor) in
  let platform := bool_decide (rt_OrgID req = EmptyString) &&
                  isServiceCaller (FromContext ctx) in
  let! orgID := (if platform then ret 0%Z else scope_Org ctx (rt_OrgID req)) in
  let! res := wrapped "failed to list roots" (bk_db (ListRoots
    (mkListRoots (mkScope orgID platform false 0 Scope_Undefined None)
       (mkPageRequest (Limit (rt_Limit req)) (rt_Offset req) cursor)))) in
  ret (RootCertificateResult_Pb res).
End issuers.
