(* ===== verification/BackendCerts.v ===== *)
(** The certificate, CRL, OCSP and summary methods of the backend:
    [server/service/backend/cert.go], [crl.go], [signer.go] and
    [summary.go].

    The end of the file is the CRL renewal task, [server/tasks/crlrenewal]. *)
From Stdlib Require Import ZArith Lia.
From stdpp Require Import base list gmap strings pretty.
From S2P Require Import Prelude GoStrings Xdb Roles Scopes Tenancy Grants Authorizer Methods Access Model PathLength Base64 Query Sql CaQuery CaDb Keys Pbconv Lru Registry Crl RowPb IssuerBuild TenantScope BackendIssuers.

(** ** Requests *)

Record IssuerSerial := mkIssuerSerial { is_IKID : string; is_Serial : string }.
Record GetCertificateRequest := mkGetCertificate {
  gc_OrgID : string; gc_ID : string; gc_SKID : string; gc_Sha256 : string;
  gc_IssuerSerial : option IssuerSerial }.
Record ListCertificates_Request := mkListCertificatesReq {
  cl_Org : string; cl_Project : string; cl_IKID : string;
  cl_Profile : string; cl_Status : CertificateStatus_Enum;
  cl_ExpiringBefore : string; cl_Limit : Z; cl_Offset : Z;
  cl_Cursor : string }.
Record UpdateCertificateLabelRequest := mkUpdateLabel {
  ul_OrgID : string; ul_ProjectID : string; ul_ID : string;
  ul_Label : string; ul_Metadata : option Metadata }.
Record RevokeCertificate_Request := mkRevokeReq {
  rv_OrgID : string; rv_ProjectID : string; rv_ID : string;
  rv_SKID : string; rv_IssuerSerial : option IssuerSerial; rv_Reason : Z;
  rv_ReasonText : string }.
Record ListRevokedCertificates_Request := mkListRevokedReq {
  lr_OrgID : string; lr_ProjectID : string; lr_IKID : string; lr_Limit : Z;
  lr_Offset : Z; lr_Cursor : string }.
Record PublishCrls_Request := mkPublishCrlsReq {
  pb_OrgID : string; pb_ProjectID : string; pb_IKID : string;
  pb_Force : bool }.
Record GetCrlRequest := mkGetCrl { gk_OrgID : string; gk_IKID : string }.
Record GetSummaryRequest := mkGetSummary {
  gs_OrgID : string; gs_ProjectID : string }.

Inductive EncodingFormat_Enum := EncodingFormat_PEM | EncodingFormat_DER | EncodingFormat_PKCS7.

Record SignCertificateRequest := mkSignCertificate {
  sc_OrgID : string; sc_ProjectID : string; sc_Request : string;
  sc_RequestFormat : EncodingFormat_Enum; sc_Profile : string;
  sc_IssuerLabel : string; sc_Label : string; sc_SAN : list string;
  sc_Subject : option X509Subject_pb;
  sc_Extensions : list (option X509Extension_pb); sc_NotBefore : string;
  sc_NotAfter : string; sc_Metadata : Metadata }.

(** A parsed OCSP request: the hash algorithm, the hashes of the issuer's
    key and name, and the serial number. *)
Record OcspRequest := mkOcspRequest {
  oq_HashAlgorithm : Z; oq_IssuerKeyHash : string;
  oq_IssuerNameHash : string; oq_SerialNumber : option Z }.

Inductive OCSPStatus := OCSPStatusGood | OCSPStatusRevoked | OCSPStatusUnknown.

Record OCSPSignRequest := mkOcspSign {
  os_SerialNumber : Z; os_Status : OCSPStatus; os_Reason : Z;
  os_RevokedAt : Z; os_IssuerHash : Z }.

Class SignLib `{Authority} := {
  Issuer_Label : auth_Issuer -> string;
  Issuer_SubjectKID : auth_Issuer -> string;
  Issuer_SignOCSP : auth_Issuer -> OCSPSignRequest -> M world string;
  (** [ocsp.ParseRequest]; [None] is an error *)
  ParseOcspRequest : string -> option OcspRequest;
  (** the PEM of a PKCS#10 request in DER *)
  csr_EncodeToMemory : string -> string }.

(** The names of [ReasonCode_Enum]. *)
Definition ReasonCode_String (reason : Z) : option string :=
  match reason with
  | 0 => Some "Unspecified" | 1 => Some "KeyCompromise"
  | 2 => Some "CACompromise" | 3 => Some "AffiliationChanged"
  | 4 => Some "Superseded" | 5 => Some "CessationOfOperation"
  | 6 => Some "CertificateHold" | 8 => Some "RemoveFromCRL"
  | 9 => Some "PrivilegeWithdrawn" | 10 => Some "AACompromise"
  | _ => None
  end%Z%string.
Definition ReasonCode_RemoveFromCRL : Z := 8.

Section certificates.
Context `{Xdb, Codec, IdGen, ChainLib, ProfileCodec, Authority, !IssuerLib, !CrlLib, !SignLib, LRU, Porto, TimeLib}.
Context {A : Type} `{!Authorizer A}.
Local Notation B X := (M (BkState (A := A)) X).

(** The clock of the call. *)
Definition bk_now : B Z := fun s => (Ok (rg_now (bk_rg s)), s).

Record certificateSelector := mkSelector {
  se_id : string; se_skid : string; se_sha256 : string;
  se_issuerSerial : option IssuerSerial; se_projectID : Z }.

Definition certificateBySKID (ctx : Context) (orgID projectID : Z)
    (skid : string) : B (option Certificate) :=
  let! visible :=
    (if negb (IsZero projectID) then ret None
     else
       let! keyProjectID := scope_Project ctx orgID "" in
       if IsZero keyProjectID then ListProjects ctx orgID
       else ret (Some [keyProjectID])) in
  let! res := bk_db (ListCertificates (mkListCertificates
    (mkScope orgID false false projectID Scope_Undefined visible) "" skid ""
    CertificateStatus_Unknown None (mkPageRequest 1 0 zeroCursor))) in
  ret (head (pr_rows res)).

(** Issuer and serial are both empty: the selector does not name them. *)
Definition serialNamed (s : option IssuerSerial) : option IssuerSerial :=
  match s with
  | Some x => if bool_decide (is_IKID x = EmptyString) &&
                 bool_decide (is_Serial x = EmptyString)
              then None else Some x
  | None => None
  end.

(** The lookup of the selector: a request error, or the row the tables
    answer. *)
Definition selectCertificate (ctx : Context) (orgID : Z)
    (sel : certificateSelector) : B (option Certificate) :=
  let db_row (m : B (option Certificate)) : B (option Certificate) :=
    found "certificate not found" "unable to find certificate" m in
  let some (m : M Db Certificate) : B (option Certificate) :=
    let! row := bk_db m in ret (Some row) in
  if bool_decide (se_id sel <> EmptyString) then
    let! id := lift_result (parseID (se_id sel) "certificate ID") in
    db_row (some (GetCertificate id))
  else match serialNamed (se_issuerSerial sel) with
  | Some x =>
      guard (negb (bool_decide (is_IKID x = EmptyString)) &&
             negb (bool_decide (is_Serial x = EmptyString)))
        (invalidArgument "issuer key ID and serial number are required") ;;;
      db_row (some (GetCertificateByIssuerSerial (is_IKID x) (is_Serial x)))
  | None =>
      if bool_decide (se_sha256 sel <> EmptyString)
      then db_row (some (GetCertificateBySha256 (se_sha256 sel)))
      else if bool_decide (se_skid sel <> EmptyString)
      then db_row (certificateBySKID ctx orgID (se_projectID sel) (se_skid sel))
      else fail (invalidArgument
        "certificate ID, SKID, SHA-256 or issuer serial is required")
  end.

Definition findCertificate (ctx : Context) (orgID : Z)
    (sel : certificateSelector) (method : string) : B Certificate :=
  let! row := selectCertificate ctx orgID sel in
  match row with
  | None => fail (Grpc NotFound "certificate not found")
  | Some row =>
      guard (c_OrgID row =? orgID)%Z (Grpc NotFound "certificate not found") ;;;
      guard (inProject (c_ProjectID row) (se_projectID sel))
        (Grpc NotFound "certificate not found") ;;;
      RowAccess ctx orgID (c_ProjectID row) method "certificate" ;;;
      ret row
  end.

Definition CA_GetCertificate : string := "/pb.CA/GetCertificate".
Definition CA_UpdateCertificateLabel : string := "/pb.CA/UpdateCertificateLabel".
Definition CA_RevokeCertificate : string := "/pb.CA/RevokeCertificate".
Definition CA_PublishCrls : string := "/pb.CA/PublishCrls".
Definition CA_GetCRL : string := "/pb.CA/GetCRL".

Definition Service_GetCertificate (ctx : Context)
    (req : option GetCertificateRequest) : B Certificate_pb :=
  let! req := required req in
  let! orgID := scope_Org ctx (gc_OrgID req) in
  let! row := findCertificate ctx orgID
    (mkSelector (gc_ID req) (gc_SKID req) (gc_Sha256 req)
       (gc_IssuerSerial req) 0) CA_GetCertificate in
  ret (Certificate_Pb row).

Definition Service_ListCertificates (ctx : Context)
    (req : option ListCertificates_Request)
  : B (list Certificate_pb * option NextPage_pb) :=
  let! req := required req in
  let! orgID := scope_Org ctx (cl_Org req) in
  let! projectID := scope_Project ctx orgID (cl_Project req) in
  let! cursor := lift_result (ListCursor (cl_Cursor req) ParseCursor) in
  let! before := lift_result (parseTime (cl_ExpiringBefore req)
                                "ExpiringBefore") in
  let! visible := listedProjects ctx orgID projectID in
  let! res := wrapped "failed to list certificates" (bk_db (ListCertificates
    (mkListCertificates
       (mkScope orgID false false projectID Scope_Undefined visible)
       (cl_IKID req) "" (cl_Profile req) (cl_Status req)
       (if IsZero before then None else Some before)
       (mkPageRequest (Limit (cl_Limit req)) (cl_Offset req) cursor)))) in
  ret (CertificateResult_Pb res).

Definition Service_UpdateCertificateLabel (ctx : Context)
    (req : option UpdateCertificateLabelRequest) : B Certificate_pb :=
  let! req := required req in
  guard (String.length (ul_Label req) <=? MaxLenForName)%nat
    (invalidArgument "invalid label length") ;;;
  let! orgID := scope_Org ctx (ul_OrgID req) in
  guard (negb (bool_decide (ul_ID req = EmptyString)))
    (invalidArgument "missing certificate ID") ;;;
  let! projectID := RequestProject ctx orgID (ul_ProjectID req) in
  let! row := findCertificate ctx orgID
    (mkSelector (ul_ID req) "" "" None projectID) CA_UpdateCertificateLabel in
  let! res := found "certificate not found" "failed to update certificate"
    (bk_db (UpdateCertificate (mkUpdateCertificate (c_ID row) orgID
       (Some (ul_Label req)) (ul_Metadata req) None))) in
  ret (Certificate_Pb res).

Definition Service_RevokeCertificate (ctx : Context)
    (req : option RevokeCertificate_Request) : B RevokedCertificate_pb :=
  let! req := required req in
  match ReasonCode_String (rv_Reason req) with
  | None => fail (invalidArgument "invalid reason")
  | Some reason =>
  guard (negb (rv_Reason req =? ReasonCode_RemoveFromCRL)%Z)
    (invalidArgument ("reason " ++ reason ++
       " releases a certificate from hold: not a revocation reason")) ;;;
  guard (String.length (rv_ReasonText req) <=? MaxLenForName)%nat
    (invalidArgument "invalid reason text length") ;;;
  let! orgID := scope_Org ctx (rv_OrgID req) in
  let! projectID := RequestProject ctx orgID (rv_ProjectID req) in
  let! row := findCertificate ctx orgID
    (mkSelector (rv_ID req) (rv_SKID req) "" (rv_IssuerSerial req) projectID)
    CA_RevokeCertificate in
  guard (negb (bool_decide (c_Status row = CertificateStatus_Revoked)))
    (preconditionFailed "certificate is already revoked") ;;;
  let! now := bk_now in
  let! res := catch (bk_db (RevokeCertificate (mkRevoke (c_ID row) orgID now
      (rv_Reason req) (rv_ReasonText req)))) (fun r =>
    match r with
    | Ok res => ret res
    | Err e =>
        if errors_Is e ErrAlreadyRevoked
        then fail (preconditionFailed "certificate is already revoked")
        else if IsNotFoundError e
        then fail (Grpc NotFound "certificate not found")
        else fail (WrapWithCtx e "failed to revoke certificate")
    end) in
  Emit (issuerEvent ctx EventType_CertificateRevoked "Certificate revoked"
    orgID (r_ProjectID (rc_revoked res)) (r_CertificateID (rc_revoked res))
    ("certificate " ++ c_Subject (rc_certificate res) ++ " revoked: " ++
     reason)) ;;;
  ret (RevokedCertificate_Pb res)
  end.

Definition Service_ListRevokedCertificates (ctx : Context)
    (req : option ListRevokedCertificates_Request)
  : B (list RevokedCertificate_pb * option NextPage_pb) :=
  let! req := required req in
  let! orgID := scope_Org ctx (lr_OrgID req) in
  let! projectID := scope_Project ctx orgID (lr_ProjectID req) in
  let! cursor := lift_result (ListCursor (lr_Cursor req) ParseCursor) in
  let! visible := listedProjects ctx orgID projectID in
  let! res := wrapped "failed to list revoked certificates"
    (bk_db (ListRevokedCertificates (mkListRevokedCertificates
       (mkScope orgID false false projectID Scope_Undefined visible)
       (lr_IKID req)
       (mkPageRequest (Limit (lr_Limit req)) (lr_Offset req) cursor)))) in
  ret (RevokedCertificateResult_Pb res).

(** ** CRLs *)

Definition crlEvent (ctx : Context) (source : string) (l : Crl) : Event :=
  events_Description ("CRL " ++ pretty (l_CrlNumber l) ++ " of issuer " ++
      l_Issuer l ++ " published")
    (events_Reference (l_ID l) (events_Project (l_ProjectID l)
      (events_Org (l_OrgID l)
        (events_New ctx source EventType_CrlPublished "CRL published")))).

Fixpoint emitCrls (ctx : Context) (source : string) (crls : list Crl)
  : B unit :=
  match crls with
  | [] => ret tt
  | l :: rest => Emit (crlEvent ctx source l) ;;; emitCrls ctx source rest
  end.

(** The CRLs of the issuer with the key identifier: the one published. *)
Definition publishNamed (sv : Service) (ctx : Context) (all : bool)
    (orgID : Z) (req : PublishCrls_Request) : B (list Crl) :=
  let! row := found "issuer not found" "unable to find issuer"
                (bk_db (GetIssuerBySKID (pb_IKID req))) in
  let! row :=
    (if all then ret row
     else
       let! projectID := RequestProject ctx orgID (pb_ProjectID req) in
       guard (inProject (i_ProjectID row) projectID)
         (Grpc NotFound "issuer not found") ;;;
       VisibleIssuer ctx orgID row CA_PublishCrls) in
  guard (crlStatus (i_Status row))
    (preconditionFailed ("issuer is " ++
       fold_case (IssuerStatus_String (i_Status row)))) ;;;
  catch (in_rg (Publisher_PublishCrl (sv_keys sv) row (pb_Force req))) (fun r =>
    match r with
    | Ok (Some l, true) => ret [l]
    | Ok _ => ret []
    | Err e => if errors_Is e ErrIssuerExpired
               then fail (preconditionFailed "issuer certificate has expired")
               else fail (Grpc Internal "unable to publish CRL")
    end).

(** The CRLs of the scope, the failures and the error that ended the run. *)
Definition publishScope (sv : Service) (ctx : Context) (all : bool)
    (orgID : Z) (req : PublishCrls_Request)
  : B (list Crl * Z * option error) :=
  let! q :=
    (if all then ret (mkPublishCrls 0 true 0 None (pb_Force req))
     else
       let! projectID := scope_Project ctx orgID (pb_ProjectID req) in
       if IsZero projectID then
         let! visible := ListProjects ctx orgID in
         ret (mkPublishCrls orgID false 0 visible (pb_Force req))
       else ret (mkPublishCrls orgID false projectID None (pb_Force req))) in
  let! res := in_rg (PublishCrls (sv_keys sv) q) in
  ret (pr_Crls res.1, pr_Failed res.1, res.2).

Definition Service_PublishCrls (sv : Service) (ctx : Context)
    (req : option PublishCrls_Request) : B (list Crl_pb) :=
  let! req := required req in
  requireCA sv ;;;
  let all := bool_decide (pb_OrgID req = EmptyString) &&
             bool_decide (pb_ProjectID req = EmptyString) &&
             isServiceCaller (FromContext ctx) in
  let! orgID := (if all then ret 0%Z else scope_Org ctx (pb_OrgID req)) in
  let! run :=
    (if bool_decide (pb_IKID req <> EmptyString)
     then let! crls := publishNamed sv ctx all orgID req in ret (crls, 0%Z, None)
     else publishScope sv ctx all orgID req) in
  let '(crls, failed, runErr) := run in
  emitCrls ctx EventSource crls ;;;
  match runErr with
  | Some e => fail (WrapWithCtx e "failed to publish CRLs")
  | None =>
      if (0 <? failed)%Z
      then fail (Grpc Internal ("failed to publish " ++ pretty failed ++ " CRLs"))
      else ret (Crl_Pb <$> crls)
  end.

Definition Service_GetCRL (ctx : Context) (req : option GetCrlRequest)
  : B Crl_pb :=
  let! req := required req in
  guard (negb (bool_decide (gk_IKID req = EmptyString)))
    (invalidArgument "missing IKID") ;;;
  let public := bool_decide (gk_OrgID req = EmptyString) &&
                isServiceCaller (FromContext ctx) in
  let! orgID := (if public then ret 0%Z else scope_Org ctx (gk_OrgID req)) in
  let! row := found "CRL not found" "unable to find CRL"
                (bk_db (GetCrl (gk_IKID req))) in
  (if public then ret tt
   else
     guard (l_OrgID row =? orgID)%Z (Grpc NotFound "CRL not found") ;;;
     RowAccess ctx orgID (l_ProjectID row) CA_GetCRL "CRL") ;;;
  ret (Crl_Pb row).

(** ** Signing *)

Definition requestPEM (format : EncodingFormat_Enum) (request : string)
  : result string :=
  match format with
  | EncodingFormat_PEM => Ok request
  | EncodingFormat_DER => Ok (csr_EncodeToMemory request)
  | EncodingFormat_PKCS7 =>
      Err (invalidArgument "unsupported request format: PKCS7")
  end.

Definition Service_SignCertificate (sv : Service) (ctx : Context)
    (req : option SignCertificateRequest) : B Certificate_pb :=
  let! req := required req in
  guard (negb (bool_decide (sc_Request req = EmptyString)))
    (invalidArgument "missing request") ;;;
  guard (negb (bool_decide (sc_Profile req = EmptyString)))
    (invalidArgument "missing profile") ;;;
  guard (String.length (sc_Label req) <=? MaxLenForName)%nat
    (invalidArgument "invalid label length") ;;;
  requireCA sv ;;;
  let! orgID := scope_Org ctx (sc_OrgID req) in
  let! projectID := scope_Project ctx orgID (sc_ProjectID req) in
  let! pemReq := lift_result (requestPEM (sc_RequestFormat req)
                                (sc_Request req)) in
  let! res := resolve sv orgID projectID (sc_Profile req)
                (sc_IssuerLabel req) in
  let! issuer := in_rg (deref (rs_Issuer res)) in
  let! extensions := lift_result (as_invalid ""
                       (ExtensionsFromPb (sc_Extensions req))) in
  let! notBefore := lift_result (parseTime (sc_NotBefore req) "NotBefore") in
  let! notAfter := lift_result (parseTime (sc_NotAfter req) "NotAfter") in
  let! signed := catch (in_rg (in_world (Issuer_Sign issuer
      (mkSignRequest pemReq (rs_ProfileName res) (sc_SAN req)
         (subjectOf (sc_Subject req)) extensions notBefore notAfter)))) (fun r =>
    match r with
    | Ok signed => ret signed
    | Err e =>
        if isSignRequestError e
        then fail (invalidArgument ("failed to sign certificate: " ++ Error e))
        else fail (WrapWithCtx e "failed to sign certificate")
    end) in
  let! now := bk_now in
  let mcert := NewCertificate signed.1 orgID projectID (sc_Profile req)
    signed.2 (Issuer_PEM issuer) (sc_Label req) [] (sc_Metadata req) now in
  let evt := events_Description
    ("certificate " ++ c_Subject mcert ++ " issued by " ++
     Issuer_Label issuer ++ " with profile " ++ sc_Profile req)
    (events_Project projectID (events_Org orgID
      (events_New ctx EventSource EventType_CertificateIssued
         "Certificate issued"))) in
  let! registered :=
    catch (bk_db (RegisterCertificate mcert (Some evt))) (fun r =>
      match r with
      | Ok c => ret c
      | Err e => if IsUniqueViolation e UniqueCertificatePrefix
                 then fail (Grpc AlreadyExists
                              "certificate is already registered")
                 else fail (WrapWithCtx e "failed to register certificate")
      end) in
  ret (Certificate_Pb registered).

Definition ocspIssuer (sv : Service) (q : OcspRequest) : B nat :=
  let lookup (m : M RgState (nat * Issuer)) : B nat :=
    catch (in_rg m) (fun r => match r with
      | Ok (a, _) => ret a
      | Err e => if errors_Is e ErrIssuerNotFound ||
                    errors_Is e ErrIssuerNotActive
                 then fail (Grpc NotFound "issuer not found")
                 else fail (Grpc Internal "unable to load issuer")
      end) in
  if bool_decide (oq_IssuerKeyHash q <> EmptyString)
  then lookup (IssuerByKeyHash (sv_keys sv) (oq_HashAlgorithm q)
                 (oq_IssuerKeyHash q))
  else if bool_decide (oq_IssuerNameHash q <> EmptyString)
  then lookup (IssuerByNameHash (oq_HashAlgorithm q) (oq_IssuerNameHash q))
  else fail (invalidArgument "issuer not specified").

(** What the response says of the serial of the issuer with the key. *)
Definition ocspStatus (ikid : string) (serial alg : Z) : B OCSPSignRequest :=
  catch (bk_db (GetCertificateByIssuerSerial ikid (pretty serial))) (fun r =>
    match r with
    | Err e =>
        if IsNotFoundError e
        then ret (mkOcspSign serial OCSPStatusUnknown 0 0 alg)
        else fail (WrapWithCtx e "unable to get certificate")
    | Ok crt =>
        if bool_decide (c_Status crt = CertificateStatus_Revoked) then
          catch (bk_db (GetRevoked (mkGetRevoked (c_ID crt) "" ""))) (fun r =>
            match r with
            | Ok rev => ret (mkOcspSign serial OCSPStatusRevoked
                               (r_Reason rev) (r_RevokedAt rev) alg)
            | Err e => if IsNotFoundError e
                       then fail (Grpc Internal "revocation record is missing")
                       else fail (WrapWithCtx e
                                    "unable to get revoked certificate")
            end)
        else ret (mkOcspSign serial OCSPStatusGood 0 0 alg)
    end).

(** [req] is the DER of the request. *)
Definition Service_SignOCSP (sv : Service) (req : option string)
  : B string :=
  match req with
  | None => fail (invalidArgument "missing request")
  | Some der =>
  guard (negb (bool_decide (der = EmptyString)))
    (invalidArgument "missing request") ;;;
  requireCA sv ;;;
  match ParseOcspRequest der with
  | None => fail (invalidArgument "invalid request")
  | Some q =>
  match oq_SerialNumber q with
  | None => fail (invalidArgument "invalid request")
  | Some serial =>
  let! a := ocspIssuer sv q in
  let! issuer := in_rg (deref a) in
  let! oreq := ocspStatus (Issuer_SubjectKID issuer) serial
                 (oq_HashAlgorithm q) in
  wrapped "unable to sign OCSP"
    (in_rg (in_world (Issuer_SignOCSP issuer oreq)))
  end
  end
  end.

(** ** The summary *)

(** Periods are in milliseconds. *)
Definition day : Z := 86400000.
Definition expiryBuckets : list Z := [7 * day; 30 * day; 90 * day]%Z.
Definition issuerStatuses : list IssuerStatus_Enum :=
  [IssuerStatus_Pending; IssuerStatus_Active; IssuerStatus_Archived;
   IssuerStatus_Destroyed].
Definition certificateStatuses : list CertificateStatus_Enum :=
  [CertificateStatus_Active; CertificateStatus_Expired;
   CertificateStatus_Revoked].

Definition MaxUint32 : Z := 4294967295.
(** [count32]: saturated; a count is never negative. *)
Definition count32 (n : Z) : Z := if (MaxUint32 <? n)%Z then MaxUint32 else n.

Record SummaryResponse := mkSummaryResponse {
  sp_At : Z; sp_Issuers : list (IssuerStatus_Enum * Z);
  sp_Certificates : list (CertificateStatus_Enum * Z);
  sp_Expiring : list (Z * Z); sp_Crls : CrlCounts }.

Definition summaryPb (now : Z) (issuers : IssuerStatus_Enum -> option Z)
    (certs : CertificateCounts) (crls : CrlCounts) : SummaryResponse :=
  mkSummaryResponse now
    ((fun st => (st, count32 (default 0%Z (issuers st)))) <$> issuerStatuses)
    ((fun st => (st, count32 (default 0%Z (cn_ByStatus certs st)))) <$>
       certificateStatuses)
    (imap (fun i within =>
       ((within / day)%Z, count32 (default 0%Z (cn_Expiring certs !! i))))
       expiryBuckets)
    (mkCrlCounts (count32 (ct_Issuers crls)) (count32 (ct_Current crls))
       (count32 (ct_Due crls)) (count32 (ct_Overdue crls))
       (count32 (ct_Missing crls))).

Definition Service_GetSummary (ctx : Context) (req : option GetSummaryRequest)
  : B SummaryResponse :=
  let! req := required req in
  let! orgID := scope_Org ctx (gs_OrgID req) in
  let! projectID := scope_Project ctx orgID (gs_ProjectID req) in
  let! visible := listedProjects ctx orgID projectID in
  let! t := bk_now in
  let now := to_seconds t in
  let! counts := wrapped "failed to read the summary"
    (bk_db (GetSummaryCounts (mkSummary orgID projectID visible now
       expiryBuckets CrlStatuses))) in
  let! crls := wrapped "failed to count CRLs"
    (lift_result (CountCrls (sm_CrlStates counts) now)) in
  ret (summaryPb now (sm_Issuers counts) (sm_Certificates counts) crls).
End certificates.

Section task.
Context `{Xdb, Codec, IdGen, ChainLib, ProfileCodec, Authority, !IssuerLib, !CrlLib, !SignLib, LRU, Porto, TimeLib}.
Context {A : Type} `{!Authorizer A}.

Definition TaskName : string := "crl_renewal".

(** The outcome and the error that ended the run; the events are those of
    the CRLs published before it. *)
Definition Task_Run (keys : Keys) (ctx : Context)
  : M (BkState (A:=A)) (PublishCrlsResult * option error) :=
  let! out := in_rg (PublishCrls keys (mkPublishCrls 0 true 0 None false)) in
  emitCrls ctx TaskName (pr_Crls out.1) ;;;
  ret out.
End task.
