(* ===== verification/IssuerBuildFacts.v ===== *)
(** What the constructors of issuers return: a row of the requested scope,
    whose certificate is a CA certificate and whose key is the one of the
    certificate. *)
From Stdlib Require Import ZArith Lia.
From stdpp Require Import base list gmap strings pretty.
From S2P Require Import Prelude GoStrings Xdb Tenancy Model Query Sql CaQuery CaDb PathLength Base64 Keys Pbconv Lru Registry IssuerBuild.

(** Takes a successful constructor apart, through its pairs and options. *)
Ltac build_steps E :=
  cbv beta zeta in E; ok_step E;
  try lazymatch type of E with
  | (match ?x with _ => _ end) _ = _ =>
      (destruct x; [|done]) || destruct x; build_steps E
  | (let _ := _ in _) _ = _ => build_steps E
  | _ => idtac
  end.

Section facts.
Context `{Xdb, Codec, ChainLib, PbLib, KeyLib, !Authority, !IssuerLib}.

(** The scope, the type and the status of a row without an ID. *)
Definition row_scope (o p : Z) (label : string) (typ : AuthorityType_Enum)
    (st : IssuerStatus_Enum) (m : Issuer) : Prop :=
  i_ID m = 0%Z /\ i_OrgID m = o /\ i_ProjectID m = p /\ i_Label m = label /\
  i_Type m = typ /\ i_Status m = st.

Lemma IssuerRequest_row_scope q st ref m :
  IssuerRequest_row q st ref = Ok m ->
  row_scope (q_OrgID q) (q_ProjectID q) (q_Label q) (q_Type q) st m.
Proof.
  unfold IssuerRequest_row, result_bind. destruct (SetConfig _); [|done].
  by intros [= <-].
Qed.

Lemma IssuerRequest_row_key q st ref m :
  IssuerRequest_row q st ref = Ok m -> exists cfg, m = set_i_Config cfg
    (KeyRef_Apply ref (bareIssuer (q_OrgID q) (q_ProjectID q) (q_Label q) (q_Type q) st)).
Proof.
  unfold IssuerRequest_row, result_bind. destruct (SetConfig _); [|done].
  intros [= <-]. by eexists.
Qed.

Lemma validated_ok q w r prov w' :
  validated q w = (Ok (r, prov), w') -> q = Some r.
Proof.
  unfold validated. intros E. ok_step E. destruct q as [q|]; [|done].
  destruct (q_Provider q); [|done]. by ok_step E.
Qed.

Lemma setVerifiedCertificate_keeps m cfg crt ints root sg x :
  setVerifiedCertificate m cfg crt ints root sg = Ok x ->
  exists pem chain rootPem,
    x = SetCertificate crt pem chain rootPem m /\ EncodeToPEMString crt = Ok pem.
Proof.
  unfold setVerifiedCertificate, result_bind, with_message_r. intros E.
  destruct (EncodeToPEMString crt) as [pem|]; [|done].
  destruct (IssuerConfigFromPb _ _); [|done].
  destruct (createIssuer _ _ _ _ _); [|done].
  destruct (if IsSelfSigned crt then _ else _); [|done].
  injection E as <-. by eexists _, _, _.
Qed.

(** The certificate of the row. *)
Definition certificate_of (m : Issuer) (crt : x509_Certificate) : Prop :=
  ParseFromPEM (i_Pem m) = Some crt /\ i_Skid m = x_SubjectKeyID crt /\
  i_SerialNumber m = x_SerialNumber crt /\ i_NotAfter m = x_NotAfter crt.

(** The constructor took the request apart. *)
Lemma bind_validated {Y} req (k : IssuerRequest * provider_t -> M world Y) w y w' :
  bind (validated (Some req)) k w = (Ok y, w') ->
  exists prov, q_Provider req = Some prov /\ k (req, prov) w = (Ok y, w').
Proof.
  intros E. apply bind_ok in E as ([r prov] & w1 & Hv & E).
  pose proof (validated_ok _ _ _ _ _ Hv) as [= ->].
  assert (q_Provider r = Some prov /\ w1 = w) as [Hq ->].
  { unfold validated in Hv. ok_step Hv. destruct (q_Provider _); [|done].
    by ok_step Hv. }
  by exists prov.
Qed.

(** The scope of the row the request made. *)
Ltac requested_scope :=
  match goal with
  | Hr : IssuerRequest_row _ _ _ = Ok _ |- _ =>
      exact (IssuerRequest_row_scope _ _ _ _ Hr)
  end.

Lemma NewRootIssuer_scope k req name profile w m w' :
  NewRootIssuer k (Some req) name profile w = (Ok m, w') ->
  row_scope (q_OrgID req) (q_ProjectID req) (q_Label req) (q_Type req)
    IssuerStatus_Active m.
Proof. intros (prov & _ & E)%bind_validated. build_steps E. requested_scope. Qed.

Lemma NewSignedIssuer_scope k req parent w m w' :
  NewSignedIssuer k (Some req) parent w = (Ok m, w') ->
  row_scope (q_OrgID req) (q_ProjectID req) (q_Label req) (q_Type req)
    IssuerStatus_Active m.
Proof.
  intros (prov & _ & E)%bind_validated. destruct parent as [[issuer res]|]; [|done].
  build_steps E. requested_scope.
Qed.

Lemma NewPendingIssuer_scope k req w m w' :
  NewPendingIssuer k (Some req) w = (Ok m, w') ->
  row_scope (q_OrgID req) (q_ProjectID req) (q_Label req) (q_Type req)
    IssuerStatus_Pending m.
Proof. intros (prov & _ & E)%bind_validated. build_steps E. requested_scope. Qed.

Lemma ImportIssuer_scope k req w m w' :
  ImportIssuer k (Some req) w = (Ok m, w') ->
  row_scope (ir_OrgID req) (ir_ProjectID req) (ir_Label req) (ir_Type req)
    IssuerStatus_Active m.
Proof.
  intros E. unfold ImportIssuer in E. ok_step E.
  by apply setVerifiedCertificate_keeps in E as (pem & ch & rt & -> & _).
Qed.

Lemma ActivatedIssuer_scope k row c ints rt w m w' :
  ActivatedIssuer k (Some row) c ints rt w = (Ok m, w') ->
  i_ID m = i_ID row /\ i_OrgID m = i_OrgID row /\
  i_ProjectID m = i_ProjectID row /\ i_Label m = i_Label row /\
  i_Type m = i_Type row.
Proof.
  intros E. unfold ActivatedIssuer in E. ok_step E.
  by apply setVerifiedCertificate_keeps in E as (pem & ch & r & -> & _).
Qed.
End facts.

Section sound.
Context `{Xdb, Codec, ChainLib, PbLib, KL : KeyLaws, !Authority, !IssuerLib, !IssuerLaws}.

Lemma certificate_of_set crt pem chain root m :
  EncodeToPEMString crt = Ok pem -> certificate_of (SetCertificate crt pem chain root m) crt.
Proof. intros E. split; [by apply ParseFromPEM_Encode|done]. Qed.

(** The key columns of the row hold an exported key, and the public key is
    the one of what the row loads, whenever it is loaded. *)
Definition key_columns (k : Keys) (req : IssuerRequest) (m : Issuer)
    (pub : option public_t) : Prop :=
  exists prov exported, q_Provider req = Some prov /\
    holds_key k prov (keyLabel req) exported m /\
    forall w sg w', Signer k m w = (Ok sg, w') -> pub = Some (Public sg).

Lemma key_columns_held k req prov exported ref m pub w w1 :
  q_Provider req = Some prov ->
  KeyRefFromExport k prov (keyLabel req) exported w = (Ok ref, w1) ->
  m = KeyRef_Apply ref m -> key_is exported pub -> key_columns k req m (Some pub).
Proof.
  intros Hq Hr Em Hk. pose proof (KeyRefFromExport_holds _ _ _ _ _ _ _ m Hr) as Hh.
  rewrite <-Em in Hh. exists prov, exported. split_and!; [done..|].
  intros w2 sg w3 Hs. by rewrite (Signer_of_held _ _ _ _ _ _ _ _ _ Hh Hk Hs).
Qed.

(** The request is of the key of the reference. *)
Lemma Generate_key_columns k req prov spec c w csrPEM sg ref w' m :
  q_Provider req = Some prov ->
  Generate k prov (keyLabel req) spec c w = (Ok (csrPEM, sg, ref), w') ->
  m = KeyRef_Apply ref m ->
  csr_PublicKey csrPEM = Some (Public sg) /\ key_columns k req m (Some (Public sg)).
Proof.
  intros Hq E Em. unfold Generate in E. ok_step E.
  destruct a0 as [[csr [sg0|]] kid]; [|done]. ok_step E.
  rename select (with_message_m _ (GenerateKeyAndRequest _ _ _ _ _) _ = _) into Hg.
  rename select (with_message_m _ (ExportKey _ _) _ = _) into Hx.
  apply with_message_ok in Hg, Hx.
  match type of Hx with _ = (Ok ?a, _) => destruct a as [uri exported] end.
  split; [by eapply Generate_key|]. eapply key_columns_held; [done|eassumption|done|].
  by eapply Export_key.
Qed.

Lemma NewRootIssuer_sound k req name profile w m w' :
  NewRootIssuer k (Some req) name profile w = (Ok m, w') ->
  i_RootPem m = i_Pem m /\
  exists crt, certificate_of m crt /\ key_columns k req m (crt_PublicKey crt).
Proof.
  intros (prov & Hq & E)%bind_validated. build_steps E. split; [done|].
  rename select (parsedPEM _ _ = Ok _) into Hp.
  rename select (with_message_m _ _ _ = _) into Hn.
  rename select (with_message_r _ _ = Ok _) into He.
  apply with_message_ok in Hn. apply with_message_r_ok in He.
  unfold parsedPEM in Hp. destruct (ParseFromPEM _) as [crt|] eqn:Ep; [|done].
  injection Hp as ->. eexists. split; [by apply certificate_of_set|].
  destruct (NewRoot_key _ _ _ _ _ _ _ _ _ _ _ _ Hn Ep) as (pub & -> & Hk).
  rename select (IssuerRequest_row _ _ _ = _) into Hr.
  eapply key_columns_held; [done|eassumption| |done].
  by apply IssuerRequest_row_key in Hr as [cfg ->].
Qed.

(** The certificate of the row is a CA certificate of the key. *)
Definition keyed (m : Issuer) (crt : x509_Certificate) (signer : signer_t) : Prop :=
  certificate_of m crt /\ x_IsCA crt = true /\
  PublicKeysEqual (Public signer) (crt_PublicKey crt) = true.

Lemma ImportIssuer_sound k req w m w' :
  ImportIssuer k (Some req) w = (Ok m, w') ->
  (exists crt signer w1, Signer k m w = (Ok signer, w1) /\ keyed m crt signer /\
     (ir_Type req = AuthorityType_Root -> IsSelfSigned crt = true)) /\
  exists ref, i_KeyID m = kr_KeyID ref /\ i_KeyProtected m = kr_Protected ref /\
    refers_to k (KeyLabel (ir_OrgID req) (ir_ProjectID req) (ir_Label req))
      (ir_KeyPEM req) ref.
Proof.
  intros E. unfold ImportIssuer in E. ok_step E.
  rename select (ImportKey _ _ _ _ _ _ = _) into Hk.
  match type of Hk with _ = (Ok ?a, _) => destruct a as [signer ref] end.
  destruct (imported_key_loads _ _ _ _ _ _ _ _ _ Hk) as [Hpub Hl].
  unfold ImportKey in Hk. ok_step Hk.
  rename select (importedKey _ _ _ _ _ = _) into Hi.
  apply importedKey_refers in Hi as [Hr _].
  apply setVerifiedCertificate_keeps in E as (pem & ch & rt & -> & He).
  split; [|by exists ref].
  assert (forall x, exists w1, Signer k (KeyRef_Apply ref x) w = (Ok signer, w1)) as Hs.
  { intros x. destruct (Hl x) as [[_ Hx]|(? & w1 & _ & _ & Hx)]; [by exists w|by exists w1]. }
  match goal with |- context [Signer k ?x w] => destruct (Hs x) as [w1 Hw] end.
  eexists _, signer, w1. split; [exact Hw|].
  split; [split; [by apply certificate_of_set|done]|].
  intros Ht. rename select (_ || _ = true) into Ho. by rewrite Ht, bool_decide_true in Ho.
Qed.

Lemma NewSignedIssuer_sound k req issuer res w m w' :
  NewSignedIssuer k (Some req) (Some (issuer, res)) w = (Ok m, w') ->
  q_Type req <> AuthorityType_Root /\ i_ParentID m = i_ID (rs_Row res) /\
  cc_IsCA (ap_CAConstraint (rs_Profile res)) = true /\
  checkPathLength (Some (Issuer_Bundle issuer))
    (cc_MaxPathLen (ap_CAConstraint (rs_Profile res))) = Ok tt /\
  exists crt, certificate_of m crt /\ key_columns k req m (crt_PublicKey crt).
Proof.
  intros (prov & Hq & E)%bind_validated. build_steps E.
  rename select (negb _ = true) into Hn.
  apply negb_true_iff, bool_decide_eq_false in Hn.
  rename select (checkPathLength _ _ = Ok _) into Hp.
  match type of Hp with _ = Ok ?u => destruct u end.
  rename select (IssuerRequest_row _ _ _ = _) into Hr.
  rename select (with_message_r _ _ = Ok _) into He.
  apply with_message_r_ok in He. split_and!; try done.
  eexists. split; [by apply certificate_of_set|].
  rename select (Generate _ _ _ _ _ _ = _) into Hg.
  rename select (with_message_m _ (Issuer_Sign _ _) _ = _) into Hs.
  apply with_message_ok in Hs.
  match type of Hs with _ = (Ok ?a, _) => destruct a as [crt pem] end.
  cbn [fst]. apply IssuerRequest_row_key in Hr as [cfg ->].
  match goal with |- key_columns _ _ ?m _ =>
    destruct (Generate_key_columns k req prov _ _ _ _ _ _ _ m Hq Hg eq_refl) as [Hc Hk]
  end.
  pose proof (Sign_key _ _ _ _ _ _ Hs) as Hp'. simpl in Hp'. by rewrite Hp', Hc.
Qed.

(** A pending issuer waits for a certificate of the key it holds. *)
Lemma NewPendingIssuer_sound k req w m w' :
  NewPendingIssuer k (Some req) w = (Ok m, w') ->
  i_Pem m = EmptyString /\ key_columns k req m (csr_PublicKey (i_CsrPem m)) /\
  exists pub, csr_PublicKey (i_CsrPem m) = Some pub /\ SubjectKeyID pub = Ok (i_Skid m).
Proof.
  intros (prov & Hq & E)%bind_validated. build_steps E.
  rename select (Generate _ _ _ _ _ _ = _) into Hg.
  rename select (IssuerRequest_row _ _ _ = _) into Hr.
  apply IssuerRequest_row_key in Hr as [cfg ->].
  split; [done|]. simpl.
  match goal with |- key_columns _ _ ?m _ /\ _ =>
    destruct (Generate_key_columns k req prov _ _ _ _ _ _ _ m Hq Hg eq_refl) as [Hc Hk]
  end.
  rewrite Hc. split; [done|]. eauto.
Qed.

Lemma ActivatedIssuer_sound k row c ints rt w m w' :
  ActivatedIssuer k (Some row) c ints rt w = (Ok m, w') ->
  i_KeyID m = i_KeyID row /\ i_KeyProtected m = i_KeyProtected row /\
  exists crt signer w1, Signer k row w = (Ok signer, w1) /\ keyed m crt signer.
Proof.
  intros E. unfold ActivatedIssuer in E. ok_step E.
  rename select (Signer _ _ _ = _) into Hs.
  apply setVerifiedCertificate_keeps in E as (pem & ch & r & -> & He).
  split; [done|]. split; [done|]. eexists _, _, _. split; [done|].
  split; [by apply certificate_of_set|done].
Qed.

(** C30: a new issuer is what its request asked for, and its key columns hold
    the key of its certificate.  Whatever way an issuer is made, the row has
    the scope, label and type of the request, and the signer the row loads has
    the public key of the certificate of the row: for a new root and for an
    issuer signed by a parent, the columns hold the key the provider exported,
    as its URI or wrapped, and load it; a pending issuer has no certificate,
    and its columns hold the key of its certificate request, whose identifier
    it has; an imported issuer has a CA certificate, self-signed when it is a
    root, and loads the imported key, held as a provider URI or wrapped; and
    the certificate that activates a pending issuer is a CA certificate of the
    key its columns hold, which stay the same.  A new root is its own trust
    root; an issuer signed by a parent is not a root, and is signed only under
    a CA profile and a parent whose path length allows it. *)
Theorem new_issuers_sound (k : Keys) (w w' : world) (m : Issuer) :
  (forall req name profile,
     NewRootIssuer k (Some req) name profile w = (Ok m, w') ->
     row_scope (q_OrgID req) (q_ProjectID req) (q_Label req) (q_Type req)
       IssuerStatus_Active m /\ i_RootPem m = i_Pem m /\
     exists crt, certificate_of m crt /\ key_columns k req m (crt_PublicKey crt)) /\
  (forall req issuer res,
     NewSignedIssuer k (Some req) (Some (issuer, res)) w = (Ok m, w') ->
     row_scope (q_OrgID req) (q_ProjectID req) (q_Label req) (q_Type req)
       IssuerStatus_Active m /\
     q_Type req <> AuthorityType_Root /\ i_ParentID m = i_ID (rs_Row res) /\
     cc_IsCA (ap_CAConstraint (rs_Profile res)) = true /\
     checkPathLength (Some (Issuer_Bundle issuer))
       (cc_MaxPathLen (ap_CAConstraint (rs_Profile res))) = Ok tt /\
     exists crt, certificate_of m crt /\ key_columns k req m (crt_PublicKey crt)) /\
  (forall req, NewPendingIssuer k (Some req) w = (Ok m, w') ->
     row_scope (q_OrgID req) (q_ProjectID req) (q_Label req) (q_Type req)
       IssuerStatus_Pending m /\
     i_Pem m = EmptyString /\ key_columns k req m (csr_PublicKey (i_CsrPem m)) /\
     exists pub, csr_PublicKey (i_CsrPem m) = Some pub /\ SubjectKeyID pub = Ok (i_Skid m)) /\
  (forall req, ImportIssuer k (Some req) w = (Ok m, w') ->
     row_scope (ir_OrgID req) (ir_ProjectID req) (ir_Label req) (ir_Type req)
       IssuerStatus_Active m /\
     (exists crt signer w1, Signer k m w = (Ok signer, w1) /\ keyed m crt signer /\
        (ir_Type req = AuthorityType_Root -> IsSelfSigned crt = true)) /\
     exists ref, i_KeyID m = kr_KeyID ref /\ i_KeyProtected m = kr_Protected ref /\
       refers_to k (KeyLabel (ir_OrgID req) (ir_ProjectID req) (ir_Label req))
         (ir_KeyPEM req) ref) /\
  (forall row c ints rt,
     ActivatedIssuer k (Some row) c ints rt w = (Ok m, w') ->
     i_ID m = i_ID row /\ i_OrgID m = i_OrgID row /\
     i_KeyID m = i_KeyID row /\ i_KeyProtected m = i_KeyProtected row /\
     exists crt signer w1, Signer k row w = (Ok signer, w1) /\ keyed m crt signer).
Proof.
  split_and!.
  - intros req name profile E. split; [by eapply NewRootIssuer_scope|].
    by eapply NewRootIssuer_sound.
  - intros req issuer res E. split; [by eapply NewSignedIssuer_scope|].
    by eapply NewSignedIssuer_sound.
  - intros req E. split; [by eapply NewPendingIssuer_scope|].
    by eapply NewPendingIssuer_sound.
  - intros req E. split; [by eapply ImportIssuer_scope|].
    by eapply ImportIssuer_sound.
  - intros row c ints rt E.
    destruct (ActivatedIssuer_scope _ _ _ _ _ _ _ _ E) as (? & ? & _).
    split; [done|]. split; [done|]. by eapply ActivatedIssuer_sound.
Qed.
End sound.
