(* ===== verification/TenantScopeFacts.v ===== *)
(** Facts of the tenant scope: who may call a method on a row, and that a row
    the caller cannot read is reported as one that does not exist. *)
From Stdlib Require Import ZArith Lia.
From stdpp Require Import base list gmap strings pretty.
From S2P Require Import Prelude GoStrings Xdb Roles Scopes Tenancy Grants Authorizer Methods Access Model Query Sql CaQuery CaDb PathLength Base64 Keys Pbconv Lru Registry RowPb TenantScope.

(** ** Who may reach a row *)

Section relation.
Context (v : AzView) (t : TrustyCtx) (orgID pid : Z).

(** The user holds at the scope a role that can assume one of the names. *)
Definition user_acts (allowed : list string) : Prop :=
  exists rows r a, view_rows v (tc_userID t) = Ok rows /\
    acts_as rows orgID (tc_userID t) pid r /\
    a ∈ allowed /\ can_assume r (ParseRole (TrimSpace a)).

(** The caller reads rows of the project of the org; [pid = 0] is an
    org-wide row. *)
Definition row_readable : Prop :=
  if isServiceCaller t then True
  else if IsAPIKey t then
    pid = 0%Z \/
    ((tc_projectID t = 0%Z \/ tc_projectID t = pid) /\ project_ok v orgID pid)
  else project_ok v orgID pid /\ user_acts [Role_String Role_Viewer].

(** The caller may call the method on rows of the project of the org. *)
Definition row_permitted (method : string) : Prop :=
  row_readable /\
  (if isServiceCaller t then True
   else if IsAPIKey t then
     pid <> 0%Z \/ tc_projectID t = 0%Z \/
     AllowsRole (methodRoles method) Role_Viewer = true
   else user_acts (methodRoles method)).

(** The database answers the queries of the authorizer. *)
Definition view_answers : Prop :=
  (exists rows, view_rows v (tc_userID t) = Ok rows) /\
  forall e, view_project v pid = Err e -> IsNotFoundError e = true.

(** The verdict on a method on a row: accepted when permitted, forbidden when
    the caller reads the row only, and otherwise not found. *)
Definition row_verdict (method what : string) (r : result unit) : Prop :=
  (r = Ok tt <-> row_permitted method) /\
  (row_readable -> ~ row_permitted method ->
   r = Err (Grpc PermissionDenied "access denied")) /\
  (view_answers -> ~ row_readable ->
   r = Err (Grpc NotFound (what ++ " not found"))).
End relation.

Lemma view_Project_denied v orgID pid e :
  orgID <> 0%Z ->
  (forall e, view_project v pid = Err e -> IsNotFoundError e = true) ->
  view_Project v orgID pid = Err e -> e = ErrAccessDenied.
Proof.
  intros Ho Ha. unfold view_Project. rewrite (proj2 (Z.eqb_neq _ _) Ho).
  destruct (view_project v pid) as [p|e'].
  - by destruct (_ && _); intros [= <-].
  - rewrite (Ha e' eq_refl). by intros [= <-].
Qed.

Lemma view_CheckRole_denied v t orgID pid allowed e :
  orgID <> 0%Z -> view_answers v t pid ->
  view_CheckRole v orgID pid (tc_userID t) allowed = Err e ->
  e = ErrAccessDenied \/ e = ErrInsufficientRole.
Proof.
  intros Ho [[rows Er] Hp]. unfold view_CheckRole, view_Grants, result_bind.
  rewrite (proj2 (Z.eqb_neq _ _) Ho), Er.
  destruct (pid =? 0)%Z.
  - case_bool_decide; [|done]. intros [= <-]. by right.
  - destruct (view_Project v orgID pid) eqn:E.
    + case_bool_decide; [|done]. intros [= <-]. by right.
    + intros [= <-]. left. by eapply view_Project_denied.
Qed.

Section access.
Context `{XL : XdbLaws, Codec, ChainLib, ProfileCodec, Authority, LRU, Porto, TimeLib}.
Context {A : Type} `{AC : AuthorizerContract A}.
Implicit Types s : BkState (A:=A).

(** An operation of the authorizer runs on its part of the state. *)
Definition with_az s (a : A) : BkState (A:=A) :=
  mkBk (bk_rg s) a (bk_orgs s) (bk_emitted s).

Lemma in_az_catch {X Y} (m : M A X) (k : result X -> M (BkState (A:=A)) Y) s :
  catch (in_az m) k s = k (m (bk_az s)).1 (with_az s (m (bk_az s)).2).
Proof. unfold catch, in_az. by destruct (m (bk_az s)). Qed.

Lemma visibleProject_ok o p what s :
  o <> 0%Z -> p <> 0%Z -> is_uint64 p ->
  (visibleProject o p what s).1 = Ok tt <-> project_ok (az_view (bk_az s)) o p.
Proof.
  intros Ho Hp Hr. rewrite <-az_Project_ok by done. unfold visibleProject.
  rewrite in_az_catch.
  destruct (az_Project o p (bk_az s)) as [[q|e] a]; simpl.
  - split; [by eexists|done].
  - split; [by case_match|by intros [? ?]].
Qed.

Lemma visibleProject_hidden o p what s :
  o <> 0%Z -> p <> 0%Z -> is_uint64 p ->
  (forall e, view_project (az_view (bk_az s)) p = Err e ->
     IsNotFoundError e = true) ->
  ~ project_ok (az_view (bk_az s)) o p ->
  (visibleProject o p what s).1 = Err (Grpc NotFound (what ++ " not found")).
Proof.
  intros Ho Hp Hr Ha Hn. unfold visibleProject.
  rewrite in_az_catch.
  destruct (az_Project_view (az_view (bk_az s)) o p Hr (bk_az s)) as [-> _];
    [done|].
  rewrite <-view_Project_spec in Hn by done.
  destruct (view_Project _ o p) as [q|e] eqn:E; [naive_solver|].
  by apply view_Project_denied in E as ->.
Qed.

(** *** [RowAccess] *)

Lemma RowAccess_key ctx orgID pid method what s (t := FromContext ctx) :
  isServiceCaller t = false -> IsAPIKey t = true ->
  orgID <> 0%Z -> is_uint64 pid ->
  row_verdict (az_view (bk_az s)) t orgID pid method what
    (RowAccess ctx orgID pid method what s).1.
Proof.
  intros Hs Hk Ho Hp. unfold row_verdict, RowAccess, row_permitted, row_readable.
  fold t. rewrite Hs, Hk.
  destruct (Z.eqb_spec pid 0) as [->|Hp0]; simpl.
  - destruct (Z.eqb_spec (tc_projectID t) 0) as [->|Hk0]; simpl.
    { split_and!; [naive_solver|naive_solver|]. intros _ []. by left. }
    destruct (AllowsRole _ _); simpl; (split_and!; [naive_solver..|]);
      intros _ []; by left.
  - pose proof (visibleProject_ok orgID pid what s Ho Hp0 Hp).
    pose proof (visibleProject_hidden orgID pid what s Ho Hp0 Hp).
    unfold view_answers.
    destruct (Z.eqb_spec (tc_projectID t) 0) as [->|Hk0]; simpl;
      [naive_solver|].
    destruct (Z.eqb_spec (tc_projectID t) pid) as [->|Hne]; simpl;
      naive_solver.
Qed.

Lemma RowAccess_user ctx orgID pid method what s (t := FromContext ctx) :
  isServiceCaller t = false -> IsAPIKey t = false ->
  orgID <> 0%Z -> is_uint64 pid -> is_uint64 (tc_userID t) ->
  methodRoles method <> [] ->
  (forall rows, view_rows (az_view (bk_az s)) (tc_userID t) = Ok rows ->
     unique_grants rows) ->
  row_verdict (az_view (bk_az s)) t orgID pid method what
    (RowAccess ctx orgID pid method what s).1.
Proof.
  intros Hs Hk Ho Hp Hu Hm Hrows.
  unfold row_verdict, RowAccess, row_permitted, row_readable, user_acts.
  fold t. rewrite Hs, Hk, in_az_catch.
  set (v := az_view (bk_az s)) in *.
  pose proof (view_CheckRole_spec v orgID pid (tc_userID t)
    [Role_String Role_Viewer] Ho Hrows ltac:(done)) as Hspec.
  destruct (az_CheckRole_view v orgID pid (tc_userID t)
    [Role_String Role_Viewer] Hp Hu (bk_az s)) as [-> _]; [done|].
  destruct (view_CheckRole v orgID pid (tc_userID t) _) as [[r g]|e] eqn:E.
  - assert (exists rows, view_rows v (tc_userID t) = Ok rows /\
      g = GrantsFromMemberships rows orgID (tc_userID t)) as (rows & Er & ->).
    { revert E. unfold view_CheckRole, view_Grants, result_bind.
      rewrite (proj2 (Z.eqb_neq _ _) Ho).
      destruct (if (pid =? 0)%Z then _ else _); [|done].
      destruct (view_rows v (tc_userID t)) as [rows|]; [|done].
      case_bool_decide; [done|]. intros [= _ <-]. by exists rows. }
    pose proof (HighestRole_acts rows orgID (tc_userID t) pid _
      (Hrows rows Er) Hm) as Hx.
    rewrite Er in *.
    destruct (proj1 Hspec) as [Hp1 Hp2]; [by eexists|].
    case_bool_decide as Hn; simpl; naive_solver.
  - assert (forall rg, Err e = Ok rg -> False) by done.
    assert (~ (project_ok v orgID pid /\ exists rows r a,
       view_rows v (tc_userID t) = Ok rows /\
       acts_as rows orgID (tc_userID t) pid r /\
       a ∈ [Role_String Role_Viewer] /\
       can_assume r (ParseRole (TrimSpace a)))) as Hno by naive_solver.
    split_and!.
    + split; [by repeat case_match|naive_solver].
    + naive_solver.
    + intros Ha _.
      destruct (view_CheckRole_denied v t orgID pid _ e Ho Ha E) as [-> | ->];
        done.
Qed.

Lemma RowAccess_verdict ctx orgID pid method what s (t := FromContext ctx) :
  orgID <> 0%Z -> is_uint64 pid -> is_uint64 (tc_userID t) ->
  methodRoles method <> [] ->
  (forall rows, view_rows (az_view (bk_az s)) (tc_userID t) = Ok rows ->
     unique_grants rows) ->
  row_verdict (az_view (bk_az s)) t orgID pid method what
    (RowAccess ctx orgID pid method what s).1.
Proof.
  intros Ho Hp Hu Hm Hrows.
  destruct (isServiceCaller (t)) eqn:Es.
  - unfold row_verdict, RowAccess, row_permitted, row_readable. fold t. rewrite Es.
    naive_solver.
  - destruct (IsAPIKey (t)) eqn:Ek.
    + by apply RowAccess_key.
    + by apply RowAccess_user.
Qed.

(** C16: access to a row is decided by the declared relation.  For every
    caller, row and method, [RowAccess] accepts exactly when the caller may
    call the method on rows of that project of the org: a service, an API key
    of the org or of the project (a key of a project only reads org-wide
    rows), or a user with an allowed role at the project.  A row the caller
    reads but may not change is forbidden, and a row it cannot read is
    reported exactly as one that does not exist. *)
Theorem RowAccess_decides (ctx : Context) (orgID pid : Z)
    (method what : string) (s : BkState (A:=A))
    (Ho : orgID <> 0%Z) (Hp : is_uint64 pid)
    (Hu : is_uint64 (tc_userID (FromContext ctx)))
    (Hm : methodRoles method <> [])
    (Hrows : forall rows,
       view_rows (az_view (bk_az s)) (tc_userID (FromContext ctx)) = Ok rows ->
       unique_grants rows) :
  row_verdict (az_view (bk_az s)) (FromContext ctx) orgID pid method what
    (RowAccess ctx orgID pid method what s).1.
Proof. by apply RowAccess_verdict. Qed.
End access.
