(* ===== verification/BackendSteps.v ===== *)
(** What the backend does to the database: the operations a request may run,
    the invariant they keep, and the rules to follow a method through its
    steps. *)
From Stdlib Require Import ZArith Lia.
From stdpp Require Import base list gmap sets strings pretty.
From S2P Require Import Prelude GoStrings Xdb Roles Scopes Tenancy Grants Authorizer Methods Access Model Query Sql CaQuery CaDb CaDbFacts CaDbSteps PathLength Base64 Keys Pbconv Lru Registry RegistryFacts RegistryDb Crl CrlFacts CrlRun RowPb IssuerBuild TenantScope BackendIssuers.

(** ** The operations of a request

    [sc] is the set of orgs the request may change. *)
Definition backend_op (sc : Z -> Prop) (d : Db) (op : db_op) : Prop :=
  match op with
  | OpRegisterCertificate m _ => sc (c_OrgID m)
  | OpUpdateCertificate q => sc (uc_OrgID q)
  | OpRevokeCertificate q => sc (rq_OrgID q)
  | OpRegisterRoot m => sc (t_OrgID m)
  | OpRegisterIssuer m _ => sc (i_OrgID m)
  | OpUpdateIssuer q => sc (ui_OrgID q) /\
      (ui_Status q = IssuerStatus_Unknown \/
       exists i, i ∈ db_issuers d /\ i_ID i = ui_ID q /\
         issuerTransitions (i_Status i) = Some (ui_Status q))
  | OpActivateIssuer m => sc (i_OrgID m) /\
      exists i, i ∈ db_issuers d /\ i_ID i = i_ID m /\
        i_Status i = IssuerStatus_Pending
  | OpRegisterProfile m => sc (p_OrgID m)
  | OpDeleteProfile o _ => sc o
  | OpPublishCrl m =>
      exists i, i ∈ db_issuers d /\ i_ID i = l_IssuerID m /\
        crlStatus (i_Status i) = true /\ sc (i_OrgID i)
  | _ => False
  end.

(** An issuer has no CRL before it is activated. *)
Definition pending_without_crl (d : Db) : Prop :=
  forall l i, l ∈ db_crls d -> i ∈ db_issuers d -> l_IssuerID l = i_ID i ->
    i_Status i <> IssuerStatus_Pending.

Definition bk_wf (d : Db) : Prop := db_wf d /\ pending_without_crl d.

Section ops.
Context `{Xdb, Codec, IdGen}.

(** The operations run so far. *)
Definition bk_step (sc : Z -> Prop) (d d' : Db) : Prop :=
  exists op, backend_op sc d op /\ op_allowed d op /\ d' = run_op op d.
Definition bk_trace (sc : Z -> Prop) : Db -> Db -> Prop := rtc (bk_step sc).

(** The tables of the issuers are as they were. *)
Definition same_ca (d d' : Db) : Prop := same_core d d' /\ db_crls d' = db_crls d.
#[local] Instance same_ca_seq d : SeqStable (same_ca d).
Proof. by intros n d' H2. Qed.

Definition same_published (d d' : Db) : Prop :=
  db_issuers d' = db_issuers d /\ db_crls d' = db_crls d.
#[local] Instance same_published_seq d : SeqStable (same_published d).
Proof. by intros n d' H2. Qed.

Lemma same_ca_refl d : same_ca d d.
Proof. done. Qed.

Lemma RegisterCertificate_same d m evt :
  preserves (same_ca d) (RegisterCertificate m evt).
Proof.
  unfold RegisterCertificate, registerCertificate, CreateEvent.
  db_steps; try (apply preserves_transaction; [apply _|]; apply preserves_ok; db_steps);
    by apply preserves_exec.
Qed.
Lemma UpdateCertificate_same d q : preserves (same_ca d) (UpdateCertificate q).
Proof. unfold UpdateCertificate. db_steps. by apply preserves_exec. Qed.
Lemma RegisterRoot_same d m : preserves (same_ca d) (RegisterRoot m).
Proof. unfold RegisterRoot. db_steps. by apply preserves_exec. Qed.
Lemma RegisterProfile_crls d m : preserves (same_published d) (RegisterProfile m).
Proof. unfold RegisterProfile. db_steps. by apply preserves_exec. Qed.
Lemma RevokeCertificate_same d q : same_ca d (RevokeCertificate q d).2.
Proof.
  destruct (RevokeCertificate q d) as [[rc|e] d'] eqn:E; simpl.
  - by apply RevokeCertificate_ok in E as (c & _ & _ & _ & _ & _ & _ & _ & ->).
  - by apply RevokeCertificate_err in E as [n ->].
Qed.

Lemma pending_same d d' :
  pending_without_crl d -> db_issuers d' = db_issuers d ->
  db_crls d' = db_crls d -> pending_without_crl d'.
Proof. intros Hp Ei El. unfold pending_without_crl. by rewrite Ei, El. Qed.

(** An update of issuers that activates none of those with a CRL. *)
Lemma pending_update d w set_ :
  pending_without_crl d ->
  (forall i, i ∈ db_issuers d -> w i = true -> i_ID (set_ i) = i_ID i /\
     (i_Status (set_ i) = IssuerStatus_Pending ->
      i_Status i = IssuerStatus_Pending)) ->
  pending_without_crl (tab_set issuers (update_all w set_ (db_issuers d)) d).
Proof.
  intros Hp Hset l i Hl Hi Hid. simpl in Hi.
  apply update_all_elem in Hi as (j & Hj & ->). simpl in Hl.
  destruct (w j) eqn:E; [|by eapply Hp].
  destruct (Hset j Hj E) as [Hid' Hst]. intros Hs%Hst.
  eapply Hp; [done..| |done]. congruence.
Qed.

Lemma transitions_not_pending st st' :
  issuerTransitions st = Some st' -> st' <> IssuerStatus_Pending.
Proof. by destruct st; intros [= <-]. Qed.

(** A registration inserts the row it returns. *)
Lemma RegisterIssuer_inserts m anchor d row d' :
  RegisterIssuer m anchor d = (Ok row, d') ->
  db_issuers d' = db_issuers d ++ [row] /\ db_crls d' = db_crls d.
Proof.
  unfold RegisterIssuer. intros E. apply bind_ok in E as (id & d1 & E1 & E).
  pose proof (preserves_ensureID (same_ca d) (i_ID m) d (same_ca_refl d)) as Hd.
  rewrite E1 in Hd. simpl in Hd. destruct Hd as [(Ei & _ & _) El]. ok_step E.
  assert (forall im d2 x d3, registerIssuer im d2 = (Ok x, d3) ->
    db_issuers d3 = db_issuers d2 ++ [x] /\ db_crls d3 = db_crls d2) as Hr.
  { unfold registerIssuer. intros im d2 x d3 Er. db_ok_step Er.
    by apply insert_row_ok in Er as (-> & -> & _). }
  destruct (bool_decide _), anchor as [anchor|]; try done.
  - db_ok_step E. rename select (registerIssuer _ _ = _) into Er.
    rename select (RegisterRoot _ _ = _) into Et.
    apply Hr in Er as [Ei2 El2].
    match type of Et with RegisterRoot _ ?s1 = _ =>
      pose proof (RegisterRoot_same s1 anchor s1 (same_ca_refl s1)) as Hc
    end. rewrite Et in Hc. simpl in Hc. destruct Hc as [(-> & _) ->]. by rewrite Ei2, El2, Ei, El.
  - apply Hr in E as [-> ->]. by rewrite Ei, El.
Qed.

Lemma pending_RegisterIssuer m anchor d :
  db_wf d -> pending_without_crl d ->
  pending_without_crl (RegisterIssuer m anchor d).2.
Proof.
  intros Hwf Hp. destruct (RegisterIssuer m anchor d) as [[row|e] d'] eqn:E; simpl.
  - pose proof (RegisterIssuer_wf m anchor d Hwf) as Hwf'. rewrite E in Hwf'.
    simpl in Hwf'. destruct (RegisterIssuer_inserts m anchor d row d' E) as [Ei El].
    intros l i Hl Hi Hid. rewrite El in Hl. rewrite Ei in Hi.
    elem_snoc Hi; [by eapply Hp|].
    destruct Hwf as [_ [_ _ _ Hof] _ _ _]. destruct (Hof l Hl) as (j & Hj & Hlj & _).
    destruct Hwf' as [_ [Hu _ _ _] _ _ _].
    assert (j = row) as ->; [|by eapply Hp].
    eapply (issuer_id_inj _ j row Hu); [rewrite Ei; set_solver..|congruence].
  - pose proof (RegisterIssuer_mutation m anchor d Hwf) as Hm. rewrite E in Hm.
    destruct Hm as [n ->]. done.
Qed.

Lemma pending_UpdateIssuer q d :
  db_wf d -> pending_without_crl d ->
  (ui_Status q = IssuerStatus_Unknown \/
   exists i, i ∈ db_issuers d /\ i_ID i = ui_ID q /\
     issuerTransitions (i_Status i) = Some (ui_Status q)) ->
  pending_without_crl (UpdateIssuer q d).2.
Proof.
  intros Hwf Hp Hq. destruct (UpdateIssuer q d) as [[row|e] d'] eqn:E; simpl.
  - unfold UpdateIssuer in E. db_ok_step E.
    apply update_row_ok in E as (i & Hi & Hw & -> & -> & Hu).
    apply pending_update; [done|]. intros j Hj _. split; [done|]. simpl.
    destruct (bool_decide_reflect (ui_Status q = IssuerStatus_Unknown)); [done|].
    destruct Hq as [?|(k & _ & _ & Ht)]; [done|].
    by intros ?%(transitions_not_pending _ _ Ht).
  - pose proof (UpdateIssuer_mutation q d Hwf) as Hm. rewrite E in Hm.
    by destruct Hm as [n ->].
Qed.

Lemma pending_ActivateIssuer m d :
  db_wf d -> pending_without_crl d -> pending_without_crl (ActivateIssuer m d).2.
Proof.
  intros Hwf Hp. destruct (ActivateIssuer m d) as [[row|e] d'] eqn:E; simpl.
  - unfold ActivateIssuer in E. db_ok_step E.
    apply update_row_ok in E as (i & Hi & Hw & -> & -> & Hu).
    by apply pending_update.
  - pose proof (ActivateIssuer_mutation m d Hwf) as Hm. rewrite E in Hm.
    by destruct Hm as [n ->].
Qed.

(** The CRLs are of the same issuers, and of the one published for. *)
Lemma PublishCrl_crls m d l d' :
  PublishCrl m d = (Ok l, d') ->
  forall x, x ∈ db_crls d' -> l_IssuerID x = l_IssuerID m \/
    exists y, y ∈ db_crls d /\ l_IssuerID x = l_IssuerID y.
Proof.
  unfold PublishCrl. intros E. apply bind_ok in E as (id & d1 & E1 & E).
  pose proof (preserves_ensureID (same_ca d) (l_ID m) d (same_ca_refl d)) as Hd.
  rewrite E1 in Hd. simpl in Hd. destruct Hd as [_ El]. db_ok_step E.
  rename select (setIssuerCrlNumber _ _ _ _ = _) into Es.
  apply setIssuerCrlNumber_ok in Es as (i & _ & _ & _ & _ & _ & _ & ->).
  apply upsert_row_ok in E. simpl in E.
  destruct E as [(_ & -> & -> & _)|(old & Hold & Hk & _ & -> & Hu & ->)]; simpl.
  - rewrite El. intros x Hx. elem_snoc Hx; [right; by exists x|by left].
  - intros x (y & Hy & ->)%update_all_elem. right. exists y. rewrite <-El.
    split; [done|]. by case_match.
Qed.

Lemma pending_PublishCrl m d i :
  db_wf d -> pending_without_crl d ->
  i ∈ db_issuers d -> i_ID i = l_IssuerID m -> crlStatus (i_Status i) = true ->
  pending_without_crl (PublishCrl m d).2.
Proof.
  intros Hwf Hp Hi Hid Hst.
  assert (forall x, x ∈ db_issuers (PublishCrl m d).2 ->
    exists y, y ∈ db_issuers d /\ i_ID x = i_ID y /\ i_Status x = i_Status y) as Hx.
  { intros x Hx. pose proof (PublishCrl_run_issuers m d) as Hr.
    unfold run_issuers in Hr.
    apply (list_elem_of_fmap_2 (set_i_CrlNumber 0)) in Hx. rewrite Hr in Hx.
    apply list_elem_of_fmap in Hx as (y & Ey & Hy). exists y.
    split; [done|]. split; [by apply (f_equal i_ID) in Ey|].
    by apply (f_equal i_Status) in Ey. }
  destruct (PublishCrl m d) as [[l|e] d'] eqn:E; simpl in *.
  - pose proof (PublishCrl_crls _ _ _ _ E) as Hc. intros x j Hlx Hj Hxj.
    destruct (Hx j Hj) as (k & Hk & Ek & Sk). rewrite Sk.
    destruct (Hc x Hlx) as [Hnew|(y & Hy & Ey)];
      [|by apply (Hp y k Hy Hk); congruence].
    destruct Hwf as [_ [Hu _ _ _] _ _ _].
    assert (k = i) as -> by (apply (issuer_id_inj _ _ _ Hu Hk Hi); congruence).
    by destruct (i_Status i).
  - by apply PublishCrl_atomic in E as [n ->].
Qed.

(** The operations of a request keep the database well formed. *)
Lemma backend_op_wf sc d op :
  bk_wf d -> backend_op sc d op -> op_allowed d op /\ bk_wf (run_op op d).
Proof.
  intros [Hwf Hp] Hop.
  assert (op_allowed d op) as Ha.
  { destruct op; try done. destruct Hop as (_ & i & Hi & Hid & Hst).
    intros l Hl El. by destruct (Hp l i Hl Hi); [congruence|]. }
  split; [done|]. split; [by apply run_op_wf|].
  destruct op; simpl in *; try done.
  - destruct (RegisterCertificate_same d m evt d (same_ca_refl d)) as [(? & _) ?].
    by eapply pending_same.
  - destruct (UpdateCertificate_same d req d (same_ca_refl d)) as [(? & _) ?].
    by eapply pending_same.
  - destruct (RevokeCertificate_same d req) as [(? & _) ?].
    by eapply pending_same.
  - destruct (RegisterRoot_same d m d (same_ca_refl d)) as [(? & _) ?].
    by eapply pending_same.
  - by apply pending_RegisterIssuer.
  - destruct Hop as [_ Hq]. by apply pending_UpdateIssuer.
  - by apply pending_ActivateIssuer.
  - destruct (RegisterProfile_crls d m d ltac:(done)). by eapply pending_same.
  - destruct Hop as (i & Hi & Hid & Hst & _). by eapply pending_PublishCrl.
Qed.
End ops.

(** ** Reads *)

(** A computation of checks and selects. *)
Lemma reads_preserves {X} (m : M Db X) :
  (forall d, preserves (eq d) m) -> reads m.
Proof. intros Hm d. symmetry. by apply Hm. Qed.
Ltac reads_steps :=
  apply reads_preserves; intros ?; preserves_steps; by intros ? <-.

Section reads.
Context `{Xdb, Codec, IdGen}.

Lemma reads_ListIssuers q : reads (ListIssuers q).
Proof. unfold ListIssuers. reads_steps. Qed.
Lemma reads_ListProfiles q : reads (CaDb.ListProfiles q).
Proof. unfold CaDb.ListProfiles. reads_steps. Qed.
Lemma reads_ListRoots q : reads (ListRoots q).
Proof. unfold ListRoots. reads_steps. Qed.
Lemma reads_ListCertificates q : reads (ListCertificates q).
Proof. unfold ListCertificates. reads_steps. Qed.
Lemma reads_ListRevokedCertificates q : reads (ListRevokedCertificates q).
Proof. unfold ListRevokedCertificates. reads_steps. Qed.
Lemma reads_GetRevoked q : reads (GetRevoked q).
Proof. unfold GetRevoked, check_not_found. reads_steps. Qed.
Lemma reads_countPeriods q ps acc : reads (countPeriods q ps acc).
Proof.
  apply reads_preserves. intros d. revert acc.
  induction ps as [|p ps IH]; intros acc; simpl; preserves_steps; [|done].
  by intros ? <-.
Qed.
Lemma reads_GetSummaryCounts q : reads (GetSummaryCounts q).
Proof.
  apply reads_preserves. intros d.
  unfold GetSummaryCounts, CountIssuers, CountCertificates, countCertificates.
  preserves_steps; try (by intros ? <-).
  intros s <-. by rewrite reads_countPeriods.
Qed.
Lemma reads_row {R} (t : Table R) name rid id : reads (GetRowByID t name rid id).
Proof. apply reads_check, reads_select. Qed.
Lemma row_found {R} (t : Table R) name rid id d x :
  (GetRowByID t name rid id d).1 = Ok x -> x ∈ tab_rows t d /\ rid x = id.
Proof.
  unfold GetRowByID, check_not_found, catch, select.
  destruct (select_row _ _) as [y|e] eqn:E; simpl; [|by destruct (IsNotFoundError e)].
  intros [= ->]. apply select_row_ok in E as [? ?%Z.eqb_eq]. done.
Qed.

End reads.
#[export] Hint Resolve reads_ListIssuers reads_ListProfiles reads_ListRoots
  reads_ListCertificates reads_ListRevokedCertificates reads_GetRevoked
  reads_GetSummaryCounts : go.

(** ** Computations that keep the invariant *)

Section invariant.
Context `{XL : XdbLaws, Codec, IdGen, ChainLib, ProfileCodec, AuthorityLaws, LRULaws}.
Context (ttl : Z) (sc : Z -> Prop) (d0 : Db) (Httl : (0 <= ttl)%Z).

(** The caches are coherent, the database is well formed and was reached by
    operations of the request. *)
Definition rg_bk (g : RgState) : Prop :=
  coherent ttl g /\ bk_wf (rg_db g) /\ bk_trace sc d0 (rg_db g).

(** A computation that neither writes the database nor spoils the caches. *)
Definition calm {X} (m : M RgState X) : Prop :=
  forall d, preserves (rg_inv d ttl (current_issuer d) (current_profile d)) m.

Lemma calm_bk {X} (m : M RgState X) g :
  calm m -> rg_bk g -> rg_bk (m g).2 /\ rg_db (m g).2 = rg_db g.
Proof.
  intros Hm (Hc & Hw & Ht). pose proof (Hm (rg_db g) g Hc) as Hi.
  pose proof (inv_db _ _ _ _ _ Hi) as Ed. unfold rg_bk, coherent.
  by rewrite Ed.
Qed.

Lemma calm_in_world {X} (m : M world X) : calm (in_world m).
Proof. intros d. by eapply yields_preserves, yields_in_world. Qed.
Lemma calm_in_db {X} (m : M Db X) : reads m -> calm (in_db m).
Proof.
  intros Hr d. eapply yields_preserves, (yields_in_db _ _ _ _ m (fun _ => True));
    [apply Hr|done].
Qed.
Lemma calm_deref a : calm (deref a).
Proof. intros d s Hs. unfold deref. by destruct (_ !! a). Qed.
Lemma calm_ret {X} (x : X) : calm (ret x).
Proof. intros d. auto with go. Qed.
Lemma calm_fail {X} e : calm (@fail RgState X e).
Proof. intros d. auto with go. Qed.
Lemma calm_bind {X Y} (m : M RgState X) (k : X -> M RgState Y) :
  calm m -> (forall x, calm (k x)) -> calm (bind m k).
Proof. intros Hm Hk d. apply preserves_bind; [apply Hm|]. intros x. apply Hk. Qed.
Lemma calm_catch {X Y} (m : M RgState X) (k : result X -> M RgState Y) :
  calm m -> (forall x, calm (k x)) -> calm (catch m k).
Proof. intros Hm Hk d. apply preserves_catch; [apply Hm|]. intros x. apply Hk. Qed.

Lemma calm_Resolve keys req : calm (Resolve keys req).
Proof.
  intros d. apply Resolve_keeps; [apply current_issuer_here|done|done|].
  apply current_profile_label.
Qed.
Lemma calm_FindProfile o p l : calm (Registry_FindProfile o p l).
Proof. intros d. by eapply yields_preserves, FindProfile_yields. Qed.
Lemma calm_Registry_Issuer keys row : calm (Registry_Issuer keys row).
Proof.
  intros d. unfold Registry_Issuer. apply preserves_bind; [|auto with go].
  eapply yields_preserves, entry_yields; try done. apply current_profile_label.
Qed.
Lemma calm_IssuerByKeyHash keys alg h : calm (IssuerByKeyHash keys alg h).
Proof.
  intros d. apply IssuerByKeyHash_keeps; try done. apply current_profile_label.
Qed.
Lemma calm_IssuerByNameHash alg h : calm (IssuerByNameHash alg h).
Proof.
  intros d. unfold IssuerByNameHash. apply preserves_bind; [auto with go|].
  intros s. destruct (findEntry _ s); auto with go.
Qed.
Lemma calm_currentCrl ikid : calm (currentCrl ikid).
Proof.
  apply calm_catch; [apply calm_in_db; auto with go|]. intros [l|e].
  - apply calm_ret.
  - destruct (IsNotFoundError e); [apply calm_ret|apply calm_fail].
Qed.
End invariant.

(** ** Methods of the backend *)

Section methods.
Context `{XL : XdbLaws, Codec, IdGen, ChainLib, ProfileCodec, AuthorityLaws, LRULaws, Porto, TimeLib}.
Context {A : Type} `{!Authorizer A}.
Context (ttl : Z) (sc : Z -> Prop) (d0 : Db) (Httl : (0 <= ttl)%Z).

Notation B X := (M (BkState (A:=A)) X).
Notation I := (rg_bk ttl sc d0).
Notation db s := (rg_db (bk_rg s)).

(** From a database of [F] the method keeps the invariant, and when it
    succeeds its result and the database satisfy [G]. *)
Definition does {X} (F : Db -> Prop) (m : B X) (G : X -> Db -> Prop) : Prop :=
  forall s, I (bk_rg s) -> F (db s) ->
    I (bk_rg (m s).2) /\ forall x, (m s).1 = Ok x -> G x (db (m s).2).

Lemma does_ret {X} (F : Db -> Prop) (x : X) (G : X -> Db -> Prop) :
  (forall d, F d -> G x d) -> does F (ret x) G.
Proof. intros HG s Hi Hf. split; [done|]. intros y [= <-]. auto. Qed.
Lemma does_fail {X} F e (G : X -> Db -> Prop) : does F (fail e) G.
Proof. by intros s Hi Hf. Qed.
Lemma does_bind {X Y} F (m : B X) (k : X -> B Y) R G :
  does F m R -> (forall x, does (R x) (k x) G) -> does F (bind m k) G.
Proof.
  intros Hm Hk s Hi Hf. destruct (Hm s Hi Hf) as [Hi1 Hr]. unfold bind.
  destruct (m s) as [[x|e] s1]; [|done]. apply (Hk x); [done|]. by apply Hr.
Qed.
Lemma does_lift {X Y} F (r : result X) (k : X -> B Y) G :
  (forall x, r = Ok x -> does F (k x) G) -> does F (bind (lift_result r) k) G.
Proof.
  intros Hk s Hi Hf. unfold bind, lift_result. destruct r; [by apply Hk|done].
Qed.
Lemma does_guard {Y} F b e (k : unit -> B Y) G :
  (b = true -> does F (k tt) G) -> does F (bind (guard b e) k) G.
Proof. intros Hk s Hi Hf. unfold bind, guard. destruct b; [by apply Hk|done]. Qed.
Lemma does_catch {X Y} F (m : B X) (k : result X -> B Y) R G :
  does F m R -> (forall x, does (R x) (k (Ok x)) G) ->
  (forall e, does (fun _ => True) (k (Err e)) G) -> does F (catch m k) G.
Proof.
  intros Hm Hk He s Hi Hf. destruct (Hm s Hi Hf) as [Hi1 Hr]. unfold catch.
  destruct (m s) as [[x|e] s1]; [|by apply He]. apply (Hk x); [done|]. by apply Hr.
Qed.
Lemma does_mono {X} (F F' : Db -> Prop) (m : B X) (G G' : X -> Db -> Prop) :
  does F m G -> (forall d, F' d -> F d) -> (forall x d, G x d -> G' x d) ->
  does F' m G'.
Proof.
  intros Hm HF HG s Hi Hf. destruct (Hm s Hi (HF _ Hf)) as [H1' H2']. eauto.
Qed.

(** The same computation with other errors. *)
Definition maps_errors {X} (m m' : B X) : Prop :=
  forall s, match m s with
            | (Ok x, s') => m' s = (Ok x, s')
            | (Err _, s') => exists e', m' s = (Err e', s')
            end.
Lemma does_map {X} F (m m' : B X) G :
  maps_errors m m' -> does F m G -> does F m' G.
Proof.
  intros Hm Hd s Hi Hf. specialize (Hm s). destruct (Hd s Hi Hf) as [H1' H2'].
  destruct (m s) as [[x|e] s'].
  - rewrite Hm. by split.
  - destruct Hm as [e' ->]. by split.
Qed.
Lemma maps_catch {X} (m : B X) (k : result X -> B X) :
  (forall x, k (Ok x) = ret x) ->
  (forall e s, exists e', k (Err e) s = (Err e', s)) ->
  maps_errors m (catch m k).
Proof.
  intros Hok He s. unfold catch. destruct (m s) as [[x|e] s']; [by rewrite Hok|].
  destruct (He e s') as [e' ->]. by exists e'.
Qed.
Lemma maps_found {X} a b (m : B X) : maps_errors m (found a b m).
Proof. apply maps_catch; [done|]. intros e s. destruct (IsNotFoundError e); by eexists. Qed.
Lemma maps_wrapped {X} a (m : B X) : maps_errors m (wrapped a m).
Proof. apply maps_catch; [done|]. intros e s. by eexists. Qed.

(** Steps that leave the registry and the database alone. *)
Lemma does_az {X} F (m : M A X) : does F (in_az m) (fun _ => F).
Proof. intros s Hi Hf. unfold in_az. by destruct (m (bk_az s)). Qed.
Lemma does_emit F e : does F (Emit e) (fun _ => F).
Proof. by intros s Hi Hf. Qed.
Lemma does_calm {X} F (m : M RgState X) :
  calm ttl m -> does F (in_rg m) (fun _ => F).
Proof.
  intros Hm s Hi Hf. destruct (calm_bk ttl sc d0 m (bk_rg s) Hm Hi) as [H1' H2'].
  unfold in_rg. destruct (m (bk_rg s)) as [r g]. simpl in *. by rewrite H2'.
Qed.
Lemma does_read {X} F (m : M Db X) :
  reads m -> does F (bk_db m) (fun x d => F d /\ (m d).1 = Ok x).
Proof.
  intros Hr s Hi Hf. pose proof (Hr (db s)) as Hd.
  destruct (calm_bk ttl sc d0 (in_db m) (bk_rg s) (calm_in_db _ _ Hr) Hi) as [H1' H2'].
  unfold bk_db, in_rg in *. unfold in_db in *.
  destruct (m (db s)) as [r d] eqn:E. simpl in *. subst d.
  split; [done|]. intros x ->. by rewrite E.
Qed.
Lemma does_lift_last {X} F (r : result X) :
  does F (lift_result r) (fun x d => F d /\ r = Ok x).
Proof. by intros s Hi Hf. Qed.

(** *** Operations of the request *)

Lemma op_bk g op :
  I g -> backend_op sc (rg_db g) op ->
  bk_wf (run_op op (rg_db g)) /\ bk_trace sc d0 (run_op op (rg_db g)).
Proof.
  intros (_ & Hw & Ht) Hop. destruct (backend_op_wf sc _ _ Hw Hop) as [Ha Hw'].
  split; [done|]. eapply rtc_r; [done|]. by exists op.
Qed.

(** An operation no resolution depends on. *)
Lemma does_other {X} F (m : M Db X) op G :
  (forall d, F d -> backend_op sc d op) -> (forall d, (m d).2 = run_op op d) ->
  (forall d, same_ca d (m d).2) -> (forall d x, F d -> (m d).1 = Ok x -> G x (m d).2) ->
  does F (bk_db m) G.
Proof.
  intros Hop Hrun Hsame HG s Hi Hf. specialize (Hrun (db s)).
  destruct (Hsame (db s)) as [(Ei & Ep & En) _]. specialize (HG (db s)).
  destruct (op_bk _ op Hi (Hop _ Hf)) as [Hw Ht].
  unfold bk_db, in_rg, in_db. destruct (m (db s)) as [r d]. simpl in *. subst d.
  split; [|by intros x ->; auto]. split; [|done].
  destruct Hi as [Hc _]. apply coherent_other; [done|lia| |done].
  by apply same_issuers.
Qed.

(** A mutation of an issuer, steps that use the keys only, and the
    invalidation. *)
Lemma does_issuer_mutation {Y} F m op m' (rest k : Issuer -> B Y) G :
  issuer_mutation m -> (forall d, (m d).2 = run_op op d) ->
  (forall d, F d -> backend_op sc d op) ->
  maps_errors (bk_db m) m' ->
  (forall row s, exists w s1, bk_rg s1 = set_rg_world w (bk_rg s) /\
     rest row s = bind (in_rg (InvalidateIssuer (Some row))) (fun _ => k row) s1) ->
  (forall row, does (fun _ => True) (k row) G) ->
  does F (bind m' rest) G.
Proof.
  intros Hm Hrun Hop Hmap Hrest Hk s Hi Hf.
  destruct (op_bk _ op Hi (Hop _ Hf)) as [Hw Ht]. rewrite <-Hrun in Hw, Ht.
  destruct Hi as (Hc & [Hwf _] & _). specialize (Hm (db s) Hwf).
  specialize (Hmap s). unfold bind in Hrest |- *. unfold bk_db, in_rg, in_db in Hmap.
  destruct (m (db s)) as [[row|e] d']; simpl in *.
  - rewrite Hmap. destruct (Hrest row (mkBk (set_rg_db d' (bk_rg s)) (bk_az s)
      (bk_orgs s) (bk_emitted s))) as (w & s1 & E1 & ->).
    destruct Hm as (Hs & Hp & Hn).
    apply (Hk row); [|done]. simpl. rewrite E1.
    split; [|done]. apply (coherent_InvalidateIssuer ttl (set_rg_world w (bk_rg s)));
      [|simpl; lia|done|done].
    by destruct Hc.
  - destruct Hmap as [e' ->]. simpl. split; [|done].
    destruct Hm as [n ->]. split; [by apply coherent_seq|done].
Qed.

(** A mutation of a profile and its invalidation, unless it changed none. *)
Lemma does_profile_mutation {X Y} F (m : M Db X) op m' (b : X -> bool)
    (rest k : X -> B Y) o p (label : X -> string) G :
  (forall d, (m d).2 = run_op op d) -> (forall d, F d -> backend_op sc d op) ->
  (forall d, F d -> bk_wf d -> match m d with
     | (Ok x, d') => profiles_same_but d d' o p (label x) /\
         db_issuers d' = db_issuers d /\ db_now d' = db_now d /\
         (b x = false -> d' = d)
     | (Err _, d') => exists n, d' = set_seq n d end) ->
  maps_errors (bk_db m) m' ->
  (forall x s,
     rest x s = (if b x then bind (in_rg (InvalidateProfile o p (label x)))
                               (fun _ => k x) s
                 else (Err (Grpc NotFound "profile not found"), s))) ->
  (forall x, does (fun _ => True) (k x) G) ->
  does F (bind m' rest) G.
Proof.
  intros Hrun Hop Hm Hmap Hrest Hk s Hi Hf.
  destruct (op_bk _ op Hi (Hop _ Hf)) as [Hw Ht]. rewrite <-Hrun in Hw, Ht.
  destruct Hi as (Hc & Hwf & _). specialize (Hm (db s) Hf Hwf).
  specialize (Hmap s). unfold bind in Hrest |- *. unfold bk_db, in_rg, in_db in Hmap.
  destruct (m (db s)) as [[x|e] d']; simpl in *.
  - rewrite Hmap, Hrest. destruct Hm as (Hs & Hp & Hn & Hb). destruct (b x).
    + apply (Hk x); [|done]. simpl. split; [|done].
      apply coherent_InvalidateProfile; [done|lia|done|done].
    + rewrite (Hb eq_refl). simpl. split; [|done]. split; [by destruct (bk_rg s)|].
      by rewrite <-(Hb eq_refl) at 1 2.
  - destruct Hmap as [e' ->]. simpl. split; [|done].
    destruct Hm as [n ->]. split; [by apply coherent_seq|done].
Qed.
End methods.
