(* ===== verification/CrlSteps.v ===== *)
(** The publisher runs within the scope of its request: it publishes for
    issuers that are active or archived and of an org of the scope, and keeps
    the registry coherent. *)
From Stdlib Require Import ZArith Lia.
From stdpp Require Import base list gmap sets strings pretty.
From S2P Require Import Prelude GoStrings Xdb Tenancy Model Query Sql CaQuery CaDb CaDbFacts CaDbSteps PathLength Base64 Keys Pbconv Lru Registry RegistryFacts RegistryDb Crl CrlFacts CrlRun BackendSteps.

Lemma listRows_elem {R} `{Xdb} (rid : R -> Z) rows limit offset c r :
  r ∈ pr_rows (listRows rid rows limit offset c) -> r ∈ rows.
Proof.
  assert (forall l, r ∈ pageRows rid rows l offset c -> r ∈ rows) as Hp.
  { intros l Hr. apply (elem_of_Permutation_proper r _ _ (pageByIDDesc_perm rid rows)).
    revert Hr. unfold pageRows.
    destruct (cur_key c) as [key|]; [|destruct (cur_set c)];
      intros Hr%subseteq_take; [|done|].
    - by apply filter_elem in Hr as [? _].
    - by apply subseteq_drop in Hr. }
  unfold listRows. destruct (cur_set c); apply Hp.
Qed.

Section publisher.
Context `{XL : XdbLaws, Codec, IdGen, ChainLib, ProfileCodec, AuthorityLaws, !CrlLib, LRULaws}.
Context (ttl : Z) (sc : Z -> Prop) (d0 d1 : Db) (Httl : (0 <= ttl)%Z).

(** The issuer may publish a CRL and is of the scope. *)
Definition live (d : Db) (id : Z) : Prop :=
  exists i, i ∈ db_issuers d /\ i_ID i = id /\ crlStatus (i_Status i) = true /\
    sc (i_OrgID i).

Lemma live_run d d' id : run_issuers d = run_issuers d' -> live d id -> live d' id.
Proof.
  intros E (i & Hi & Hid & Hst & Ho). unfold run_issuers in E.
  apply (list_elem_of_fmap_2 (set_i_CrlNumber 0)) in Hi. rewrite E in Hi.
  apply list_elem_of_fmap in Hi as (j & Ej & Hj). exists j.
  pose proof (f_equal i_ID Ej). pose proof (f_equal i_Status Ej).
  pose proof (f_equal i_OrgID Ej). simpl in *. split_and!; congruence.
Qed.

(** During a run that began in [d1]. *)
Definition running (g : RgState) : Prop := rg_bk ttl sc d0 g /\ same_run d1 g.

Lemma running_calm {X} (m : M RgState X) : calm ttl m -> preserves running m.
Proof.
  intros Hm g [Hi Hr]. destruct (calm_bk ttl sc d0 m g Hm Hi) as [H1' H2'].
  split; [done|]. unfold same_run in *. by rewrite H2'.
Qed.

Lemma running_PublishCrl m :
  live d1 (l_IssuerID m) -> preserves running (in_db (PublishCrl m)).
Proof.
  intros Hl g [Hi Hr].
  pose proof (PublishCrl_same_run d1 m g Hr) as Hr'. split; [|done].
  assert (backend_op sc (rg_db g) (OpPublishCrl m)) as Hop.
  { destruct (live_run _ _ _ (eq_sym Hr) Hl) as (i & ? & ? & ? & ?). by exists i. }
  destruct (PublishCrl_quiet m (rg_db g)) as (Ep & En & Heq).
  destruct Hi as (Hc & Hw & Ht).
  destruct (backend_op_wf sc _ _ Hw Hop) as [Ha Hw'].
  unfold in_db in *. simpl in Hw'. destruct (PublishCrl m (rg_db g)) as [r d'] eqn:E.
  simpl in *. split; [|split; [done|]].
  - apply coherent_other; [done|lia|done|done].
  - eapply rtc_r; [done|]. exists (OpPublishCrl m). split_and!; [done..|].
    simpl. by rewrite E.
Qed.

Lemma buildCrl_issuer issuer row n now g l k g' :
  buildCrl issuer row n now g = (Ok (l, k), g') -> l_IssuerID l = i_ID row.
Proof.
  unfold buildCrl. intros E. ok_step E. destruct (b_Cert _); [|done].
  cbv zeta in E. by ok_step E.
Qed.

Lemma calm_pure {X} (m : M RgState X) : (forall g, (m g).2 = g) -> calm ttl m.
Proof. intros Hm d g Hg. by rewrite Hm. Qed.
Lemma calm_guard b e : calm ttl (guard b e).
Proof. apply calm_pure. intros g. by destruct b. Qed.
Lemma calm_lift {X} (r : result X) : calm ttl (lift_result r).
Proof. by apply calm_pure. Qed.
Lemma calm_buildCrl issuer row n now : calm ttl (buildCrl issuer row n now).
Proof.
  apply calm_bind.
  - apply calm_pure. intros g. unfold crlEntries. by destruct (readPages _ _ _ _ _).
  - intros entries. destruct (b_Cert _); [|apply calm_fail].
    apply calm_bind; [apply calm_guard|intros ?].
    apply calm_bind; [apply calm_lift|intros ?]. apply calm_ret.
Qed.
Lemma calm_message {X} msg (m : M RgState X) :
  calm ttl m -> calm ttl (with_message_m msg m).
Proof.
  intros Hm. apply calm_catch; [done|]. intros r. apply calm_lift.
Qed.

Lemma running_bind {X Y} (m : M RgState X) (k : X -> M RgState Y) g :
  calm ttl m -> running g ->
  (forall x g', m g = (Ok x, g') -> running g' -> running (k x g').2) ->
  running (bind m k g).2.
Proof.
  intros Hm Hg Hk. pose proof (running_calm m Hm g Hg) as Hg'. unfold bind.
  destruct (m g) as [[x|e] g'] eqn:E; [|done]. by apply (Hk x).
Qed.

Lemma running_publishLoop more issuer force renewal now row :
  live d1 (i_ID row) ->
  preserves running (publishLoop more issuer row force renewal now).
Proof.
  revert row. induction more as [|more IH]; intros row Hl g Hg; simpl;
    (apply running_bind; [apply calm_buildCrl|done|]);
    intros [l k] g1 E1 Hg1; apply buildCrl_issuer in E1;
    (apply (preserves_catch running); [|intros r|done]);
    [by apply running_PublishCrl; simpl; rewrite E1| |
     by apply running_PublishCrl; simpl; rewrite E1|];
    (destruct r as [x|e]; [apply preserves_ret|]);
    destruct (errors_Is _ _); try apply preserves_fail.
  intros g2 Hg2. apply running_bind; [|done|].
  { apply calm_message, calm_in_db. auto with go. }
  intros row' g3 E3 Hg3. apply with_message_ok, GetIssuer_id in E3.
  revert g3 Hg3. apply (preserves_bind running); [apply preserves_guard|intros _].
  apply (preserves_bind running); [apply running_calm, calm_currentCrl|intros c].
  destruct (_ && _); [apply preserves_ret|]. apply IH. by rewrite E3.
Qed.

Lemma running_publish keys row current force :
  live d1 (i_ID row) -> preserves running (publish keys row current force).
Proof.
  intros Hl. unfold publish. apply (preserves_bind running); [auto with go|intros g].
  apply (preserves_bind running); [auto with go|intros _].
  apply (preserves_bind running); [auto with go|intros renewal].
  destruct (_ && _); [auto with go|].
  apply (preserves_bind running); [by apply running_calm, calm_Registry_Issuer|intros a].
  apply (preserves_bind running); [apply running_calm, calm_deref|intros issuer].
  by apply running_publishLoop.
Qed.

Lemma running_publishRows keys force current rows res :
  Forall (fun row => live d1 (i_ID row)) rows ->
  preserves running (publishRows keys force current rows res).
Proof.
  intros Hl. revert res. induction Hl as [|row rows Hrow _ IH]; intros res; simpl.
  { apply preserves_ret. }
  apply (preserves_bind running); [|done]. unfold publishOne.
  destruct res as [crls sk fl]. apply (preserves_bind running); [auto with go|intros g].
  destruct (issuerExpired _ _); [apply preserves_ret|].
  apply (preserves_catch running); [by apply running_publish|].
  intros r. apply preserves_ret.
Qed.

(** ** The issuers of the scope *)

Lemma publishRequest_selects req st c i :
  checkListScope (pc_OrgID req) false (pc_AllOrgs req) = Ok tt ->
  (forall o, pc_AllOrgs req = true \/ o = pc_OrgID req -> sc o) ->
  st ∈ CrlStatuses ->
  ListIssuers_where (publishRequest req st c) i = true ->
  sc (i_OrgID i) /\ crlStatus (i_Status i) = true.
Proof.
  intros Hs Hsc Hst Hw. unfold ListIssuers_where in Hw. simpl in Hw.
  rewrite !andb_true_iff in Hw. destruct Hw as [[[[[[Hw _] _] Hx] _] _] _].
  split.
  - apply Hsc. unfold whereTenancy in Hw. apply andb_true_iff in Hw as [Ho _].
    apply whereOrgScope_list in Ho. unfold org_selected in Ho. simpl in Ho.
    destruct (decide _) as [E|]; [|by right]. left. unfold checkListScope in Hs.
    rewrite E in Hs. simpl in Hs. by destruct (pc_AllOrgs req).
  - unfold CrlStatuses in Hst.
    repeat (apply elem_of_cons in Hst as [->|Hst]); [..|by apply not_elem_of_nil in Hst];
      simpl in Hx; rewrite bool_decide_eq_true in Hx; by rewrite Hx.
Qed.

Section scope.
Context (req : PublishCrlsRequest).
Context (Hsc : forall o, pc_AllOrgs req = true \/ o = pc_OrgID req -> sc o).

Lemma page_live st c g page g' :
  st ∈ CrlStatuses -> same_run d1 g ->
  in_db (ListIssuers (publishRequest req st c)) g = (Ok page, g') ->
  Forall (fun row => live d1 (i_ID row)) (pr_rows page).
Proof.
  intros Hst Hr E. unfold in_db, ListIssuers, bind, lift_result in E.
  destruct (ListIssuersRequest_Validate _) as [[]|e] eqn:Ev; [|done].
  injection E as <- _. apply list.Forall_forall. intros row Hrow.
  apply listRows_elem, filter_elem in Hrow as [Hin Hw].
  assert (checkListScope (pc_OrgID req) false (pc_AllOrgs req) = Ok tt) as Hs.
  { unfold ListIssuersRequest_Validate, listValidate in Ev. simpl in Ev.
    by destruct (checkListScope _ _ _) as [[]|]. }
  destruct (publishRequest_selects req st c row Hs Hsc Hst Hw) as [Ho Hl].
  apply (live_run (rg_db g)); [done|]. by exists row.
Qed.

Lemma running_publishPages keys st fuel c res :
  st ∈ CrlStatuses -> preserves running (publishPages keys req st fuel c res).
Proof.
  intros Hst. revert c res. induction fuel as [|fuel IH]; intros c res; simpl.
  { apply preserves_fail. }
  intros g Hg. unfold catch at 1.
  pose proof (running_calm (in_db (ListIssuers (publishRequest req st c)))
    (calm_in_db ttl _ (reads_ListIssuers _)) g Hg) as Hg1.
  destruct (in_db _ g) as [[page|e] g1] eqn:E; [|done].
  apply page_live in E as Hrows; [|done|by destruct Hg]. simpl in Hg1.
  revert g1 Hg1 E. intros g1 Hg1 _. revert g1 Hg1.
  apply (preserves_catch running).
  { apply running_calm. unfold currentCrls. destruct (pr_rows page); [apply calm_ret|].
    apply calm_bind; [apply calm_message, calm_in_db|intros ?; apply calm_ret].
    by intros d. }
  intros [current|e]; [|apply preserves_ret].
  apply (preserves_bind running); [by apply running_publishRows|intros res'].
  destruct (negb _); [apply preserves_ret|].
  destruct (ParseCursor _); [apply IH|apply preserves_ret].
Qed.

Lemma running_publishStatuses keys statuses res :
  Forall (fun st => st ∈ CrlStatuses) statuses ->
  preserves running (publishStatuses keys req statuses res).
Proof.
  intros Hst. revert res. induction Hst as [|st rest H1' _ IH]; intros res;
    cbn [publishStatuses].
  { apply preserves_ret. }
  apply (preserves_bind running); [auto with go|intros g].
  apply (preserves_bind running); [by apply running_publishPages|intros d].
  destruct (d.2); [apply preserves_ret|apply IH].
Qed.
End scope.
End publisher.

Section runs.
Context `{XL : XdbLaws, Codec, IdGen, ChainLib, ProfileCodec, AuthorityLaws, !CrlLib, LRULaws}.
Context (ttl : Z) (sc : Z -> Prop) (d0 : Db) (Httl : (0 <= ttl)%Z).

(** A run over the issuers of a scope, and a publication for one issuer. *)
Lemma PublishCrls_bk keys req :
  (forall o, pc_AllOrgs req = true \/ o = pc_OrgID req -> sc o) ->
  preserves (rg_bk ttl sc d0) (PublishCrls keys req).
Proof.
  intros Hsc g Hg.
  apply (running_publishStatuses ttl sc d0 (rg_db g) Httl req Hsc keys CrlStatuses).
  - unfold CrlStatuses. repeat constructor; set_solver.
  - by split.
Qed.

Lemma Publisher_PublishCrl_bk keys row force g :
  rg_bk ttl sc d0 g -> live sc (rg_db g) (i_ID row) ->
  rg_bk ttl sc d0 (Publisher_PublishCrl keys row force g).2.
Proof.
  intros Hg Hl.
  assert (preserves (running ttl sc d0 (rg_db g)) (Publisher_PublishCrl keys row force))
    as Hp; [|by apply Hp].
  unfold Publisher_PublishCrl. apply preserves_bind; [auto with go|intros _].
  apply preserves_bind; [apply running_calm, calm_currentCrl|intros c].
  by apply running_publish.
Qed.
End runs.
