(* ===== verification/BackendFacts.v ===== *)
(** The methods of the backend keep the registry coherent and the database
    well formed, and change the database by operations on the org of the
    request only. *)
From Stdlib Require Import ZArith Lia.
From stdpp Require Import base list gmap sets strings pretty.
From S2P Require Import Prelude GoStrings Xdb Roles Scopes Tenancy Grants Authorizer Methods Access Model Query Sql CaQuery CaDb CaDbFacts CaDbSteps PathLength Base64 Keys Pbconv Lru Registry RegistryFacts RegistryDb Crl CrlFacts CrlRun RowPb IssuerBuild IssuerBuildFacts TenantScope BackendIssuers BackendCerts BackendSteps CrlSteps.

(** The org a request is for. *)
Definition requestOrg `{Xdb} (ctx : Context) (reqOrgID : string) : option Z :=
  if isServiceCaller (FromContext ctx) then parse_id reqOrgID
  else Some (tc_orgID (FromContext ctx)).

Section scope.
Context `{XL : XdbLaws, Codec, IdGen, ChainLib, ProfileCodec, AuthorityLaws, !IssuerLib, !CrlLib, !SignLib, LRULaws, Porto, TimeLib}.
Context {A : Type} `{!Authorizer A}.
Context (ttl : Z) (sc : Z -> Prop) (d0 : Db) (Httl : (0 <= ttl)%Z).

Notation B X := (M (BkState (A:=A)) X).
Notation does F m G := (does (A:=A) ttl sc d0 F m G).
Notation keeps F m := (does F%function m (fun _ => F)).

Lemma keeps_mono {X} F (m : B X) G :
  does F m G -> (forall x d, G x d -> F d) -> keeps F m.
Proof. intros Hm HG. by eapply does_mono. Qed.
Lemma keeps_found {X} F a b (m : B X) : keeps F m -> keeps F (found a b m).
Proof. by apply does_map, maps_found. Qed.
Lemma keeps_wrapped {X} F a (m : B X) : keeps F m -> keeps F (wrapped a m).
Proof. by apply does_map, maps_wrapped. Qed.
Lemma keeps_bk_db {X} F (m : M Db X) : reads m -> keeps F (bk_db m).
Proof. intros Hr. eapply keeps_mono; [by apply does_read|]. by intros x d []. Qed.
Lemma keeps_lift {X} F (r : result X) : keeps F (lift_result r).
Proof. by intros s Hi Hf. Qed.
Lemma keeps_guard F b e : keeps F (guard b e).
Proof. intros s Hi Hf. by destruct b. Qed.
Lemma keeps_return {X} F (x : X) : keeps F (ret x).
Proof. by apply does_ret. Qed.
Lemma keeps_failure {X} F e : does F (@fail (BkState (A:=A)) X e) (fun _ => F).
Proof. by apply does_fail. Qed.
Lemma keeps_if {X} F (b : bool) (m n : B X) :
  keeps F m -> keeps F n -> keeps F (if b then m else n).
Proof. by destruct b. Qed.
Lemma keeps_calm {X} F (m : M RgState X) : calm ttl m -> keeps F (in_rg m).
Proof. by apply does_calm. Qed.

(** ** The scope of a request *)

Lemma does_scope_Org F ctx r :
  does F (scope_Org ctx r) (fun o d => F d /\ requestOrg ctx r = Some o).
Proof.
  unfold scope_Org, requestOrg. destruct (isServiceCaller _); simpl.
  - case_bool_decide; [apply does_fail|].
    destruct (parse_id r) as [o|]; [|apply does_fail].
    apply (does_bind _ _ _ _ _ _ (fun _ => F)).
    { apply keeps_found. intros s Hi Hf. by split. }
    intros org. apply does_guard. intros _. by apply does_ret.
  - destruct (_ =? 0)%Z; [apply does_fail|].
    destruct (_ && _); [apply does_fail|]. by apply does_ret.
Qed.

Lemma keeps_visibleProject F o p what : keeps F (visibleProject o p what).
Proof.
  apply (does_catch _ _ _ _ _ _ (fun _ => F)); [apply does_az|..].
  - intros x. by apply does_ret.
  - intros e. destruct (errors_Is _ _); apply does_fail.
Qed.
Lemma keeps_scope_Project F ctx o r : keeps F (scope_Project ctx o r).
Proof.
  unfold scope_Project. cbv zeta.
  match goal with |- context [parse_id ?x] => generalize x end. intros q.
  case_bool_decide; [by apply does_ret|].
  destruct (parse_id q); [|apply does_fail].
  eapply does_bind; [apply keeps_visibleProject|]. intros ?. by apply does_ret.
Qed.
Lemma keeps_RequestProject F ctx o r : keeps F (RequestProject ctx o r).
Proof.
  unfold RequestProject. case_bool_decide; [by apply does_ret|].
  apply keeps_scope_Project.
Qed.
Lemma keeps_RowAccess F ctx o p method what : keeps F (RowAccess ctx o p method what).
Proof.
  unfold RowAccess. destruct (isServiceCaller _); [by apply does_ret|].
  destruct (IsAPIKey _).
  - destruct (negb _); destruct (_ && _); try apply does_fail;
      [apply keeps_visibleProject|by apply does_ret].
  - apply (does_catch _ _ _ _ _ _ (fun _ => F)); [apply does_az|..].
    + intros [r g]. case_bool_decide; [apply does_fail|by apply does_ret].
    + intros e. destruct (_ || _); apply does_fail.
Qed.
Lemma keeps_ListProjects F ctx o : keeps F (ListProjects ctx o).
Proof.
  unfold ListProjects. destruct (_ || _); [by apply does_ret|].
  eapply does_bind; [apply keeps_wrapped, does_az|]. intros g.
  destruct (CanListAllProjects _); by apply does_ret.
Qed.
Lemma keeps_listedProjects F ctx o p : keeps F (listedProjects ctx o p).
Proof.
  unfold listedProjects. destruct (IsZero p); [apply keeps_ListProjects|].
  by apply does_ret.
Qed.

#[local] Hint Resolve does_az does_emit keeps_bk_db keeps_calm keeps_found
  keeps_wrapped keeps_lift keeps_guard keeps_return keeps_failure keeps_if
  keeps_visibleProject keeps_scope_Project keeps_RequestProject
  keeps_RowAccess keeps_ListProjects keeps_listedProjects calm_in_world
  calm_deref calm_Resolve calm_FindProfile calm_Registry_Issuer
  calm_IssuerByKeyHash calm_IssuerByNameHash : go.

(** A step that keeps what is known, with a result of [P]. *)
Lemma does_bind_pure {X Y} F (m : B X) (P : X -> Prop) (k : X -> B Y) G :
  does F m (fun x d => F d /\ P x) -> (forall x, P x -> does F (k x) G) ->
  does F (bind m k) G.
Proof.
  intros Hm Hk. eapply does_bind; [exact Hm|]. intros x s Hi [Hf Hp].
  by apply Hk.
Qed.
Lemma does_post {X} F (m : B X) (G G' : X -> Db -> Prop) :
  does F m G -> (forall x d, G x d -> G' x d) -> does F m G'.
Proof. intros Hm HG. by eapply does_mono. Qed.
Lemma does_last {X} F (m : B X) (G : X -> Db -> Prop) :
  keeps F m -> (forall x d, F d -> G x d) -> does F m G.
Proof. intros Hm HG. by eapply does_mono. Qed.
Lemma does_required {R Y} F (q : R) (k : R -> B Y) G :
  does F (k q) G -> does F (bind (required (Some q)) k) G.
Proof. done. Qed.

(** Follows a method to its next step that is not a check or a read. *)
Ltac does_step :=
  lazymatch goal with
  | |- BackendSteps.does _ _ _ _ (ret _) _ => by apply does_ret
  | |- BackendSteps.does _ _ _ _ (fail _) _ => apply does_fail
  | |- BackendSteps.does _ _ _ _ (bind (required (Some _)) _) _ =>
      apply does_required
  | |- BackendSteps.does _ _ _ _ (bind (lift_result _) _) _ =>
      apply does_lift; intros ? ?
  | |- BackendSteps.does _ _ _ _ (bind (guard _ _) _) _ =>
      apply does_guard; intros ?
  | |- BackendSteps.does _ _ _ _ (bind (scope_Org _ _) _) _ =>
      let o := fresh "orgID" in let Ho := fresh "Horg" in
      eapply does_bind_pure; [apply does_scope_Org|intros o Ho; cbv beta in Ho]
  | |- BackendSteps.does _ _ _ _ (bind _ _) _ =>
      eapply does_bind; [solve [auto with go]|intros ?]
  | |- BackendSteps.does _ _ _ _ (match ?x with _ => _ end) _ =>
      destruct x eqn:?
  | |- BackendSteps.does _ _ _ _ _ _ =>
      apply does_last; [solve [auto with go]|done]
  end.
Ltac does_steps := repeat does_step.
(** A step that keeps what is known of the database. *)
Ltac keep_bind :=
  lazymatch goal with
  | |- BackendSteps.does _ _ _ ?F (bind _ _) _ =>
      apply (does_bind _ _ _ _ _ _ (fun _ => F)); [|intros ?]
  end.

(** ** Rows *)

Lemma keeps_required {R} F (req : option R) : keeps F (required req).
Proof. unfold required. destruct req; auto with go. Qed.
Lemma keeps_requireCA F sv : keeps F (requireCA sv).
Proof. apply keeps_guard. Qed.
Lemma keeps_issuerPb F row : keeps F (issuerPb row).
Proof. apply keeps_wrapped, keeps_lift. Qed.
Lemma keeps_profilePb F row : keeps F (profilePb row).
Proof. apply keeps_wrapped, keeps_lift. Qed.
#[local] Hint Resolve keeps_required keeps_requireCA keeps_issuerPb
  keeps_profilePb : go.

Lemma does_scope_Issuer F ctx o p v method :
  does F (scope_Issuer ctx o p v method)
    (fun row d => F d /\ row ∈ db_issuers d /\ i_OrgID row = o).
Proof.
  unfold scope_Issuer. does_step.
  eapply does_bind; [eapply does_map; [apply maps_found|apply does_read, reads_row]|].
  intros row. does_step. unfold VisibleIssuer. apply does_guard. intros Ho%Z.eqb_eq.
  does_step. apply does_ret. intros d [Hf Hr]. apply row_found in Hr as [? _]. done.
Qed.

Lemma does_scope_Profile F ctx o p v method :
  does F (scope_Profile ctx o p v method)
    (fun row d => F d /\ row ∈ db_profiles d /\ p_OrgID row = o).
Proof.
  unfold scope_Profile. does_step.
  eapply does_bind; [eapply does_map; [apply maps_found|apply does_read, reads_row]|].
  intros row. apply does_guard. intros [Ho%Z.eqb_eq _]%andb_true_iff.
  does_step. apply does_ret. intros d [Hf Hr]. apply row_found in Hr as [? _]. done.
Qed.

(** ** Issuers *)

Lemma keeps_resolve F sv o p profile label : keeps F (resolve sv o p profile label).
Proof.
  apply (does_catch _ _ _ _ _ _ (fun _ => F)); [auto with go|..].
  - intros res. by apply does_ret.
  - intros e. apply does_fail.
Qed.
#[local] Hint Resolve keeps_resolve : go.

Lemma keeps_parentIssuer F sv o p id profile :
  keeps F (parentIssuer sv o p id profile).
Proof.
  unfold parentIssuer. does_step.
  eapply does_bind; [apply keeps_found, keeps_bk_db, reads_row|intros ?]. does_steps.
  keep_bind; [|does_steps].
  destruct (IsZero _); [|auto with go].
  eapply does_bind; [auto with go|intros ?]. auto with go.
Qed.

Lemma keeps_caProfile F o p label : keeps F (caProfile o p label).
Proof.
  unfold caProfile. keep_bind; [|does_steps].
  apply (does_catch _ _ _ _ _ _ (fun _ => F)); [auto with go|..].
  - intros res. by apply does_ret.
  - intros e. destruct (errors_Is _ _); apply does_fail.
Qed.
#[local] Hint Resolve keeps_parentIssuer keeps_caProfile : go.

(** A computation of the key providers. *)
Lemma does_world {X} F (m : M world X) :
  does F (in_rg (in_world m)) (fun x d => F d /\ exists w w', m w = (Ok x, w')).
Proof.
  intros s Hi Hf. destruct (does_calm ttl sc d0 F (in_world m)
    (calm_in_world ttl m) s Hi Hf) as [Hi1 Hr]. split; [done|].
  intros x E. split; [by eapply Hr|].
  unfold in_rg, in_world in E. destruct (m (rg_world (bk_rg s))) as [r w'] eqn:Em.
  simpl in E. subst. eauto.
Qed.
(** The errors of a step are mapped to others. *)
Lemma does_caught {X} F (m : B X) (k : result X -> B X) G :
  does F m G -> (forall x, k (Ok x) = ret x) ->
  (forall e s, exists e', k (Err e) s = (Err e', s)) -> does F (catch m k) G.
Proof. intros Hm Hk He. eapply does_map; [by apply maps_catch|done]. Qed.
Lemma does_newIssuer F (m : M world Issuer) :
  does F (newIssuer m) (fun x d => F d /\ exists w w', m w = (Ok x, w')).
Proof.
  apply does_caught; [apply does_world|done|]. intros e s. by eexists.
Qed.

Lemma does_registerIssuer (F : Db -> Prop) row :
  sc (i_OrgID row) ->
  does F (Service_registerIssuer row) (fun _ _ => True).
Proof.
  intros Hs. unfold Service_registerIssuer.
  eapply does_bind; [apply keeps_wrapped, keeps_lift|intros anchor].
  apply (does_issuer_mutation ttl sc d0 _ (RegisterIssuer row anchor)
    (OpRegisterIssuer row anchor) _ _ (fun x => ret x)); try done.
  - apply RegisterIssuer_mutation.
  - apply maps_catch; [done|]. intros e s. by eexists.
  - intros y s. exists (rg_world (bk_rg s)), s. by destruct s as [[] ? ? ?].
Qed.

(** What a method does when its request names an org of the scope. *)
Notation method_ok ctx org m :=
  ((forall o, requestOrg ctx org = Some o -> sc o) ->
   does (fun _ => True) m (fun _ _ => True)).

Lemma does_made F (m : M world Issuer) (o : Z) :
  (forall w x w', m w = (Ok x, w') -> i_OrgID x = o) ->
  does F (newIssuer m) (fun x d => F d /\ i_OrgID x = o).
Proof.
  intros Hm. eapply does_mono; [apply does_newIssuer|done|].
  intros x d (Hf & w & w' & E). eauto.
Qed.

Lemma RegisterIssuer_ok sv ctx q :
  method_ok ctx (ri_OrgID q) (Service_RegisterIssuer sv ctx (Some q)).
Proof.
  intros Hsc. unfold Service_RegisterIssuer. cbv zeta. does_steps.
  eapply (does_bind_pure _ _ (fun row => i_OrgID row = orgID)).
  - does_steps; apply does_made; intros w y w' E.
    + by apply NewSignedIssuer_scope in E as (_ & -> & _).
    + by apply NewRootIssuer_scope in E as (_ & -> & _).
    + by apply NewPendingIssuer_scope in E as (_ & -> & _).
  - intros row Ho. eapply does_bind.
    { apply does_registerIssuer. rewrite Ho. auto. }
    intros ?. does_steps.
Qed.

Lemma ImportIssuer_ok sv ctx q :
  method_ok ctx (ii_OrgID q) (Service_ImportIssuer sv ctx (Some q)).
Proof.
  intros Hsc. unfold Service_ImportIssuer. does_steps.
  eapply (does_bind_pure _ _ (fun row => i_OrgID row = orgID)).
  - apply does_caught; [|done|intros e s; by eexists].
    eapply does_post; [apply does_world|]. intros y d (Hf & w & w' & E).
    by apply ImportIssuer_scope in E as (_ & -> & _).
  - intros row Ho. eapply does_bind.
    { apply does_registerIssuer. rewrite Ho. auto. }
    intros ?. does_steps.
Qed.

Lemma ActivateIssuer_ok sv ctx q :
  method_ok ctx (ai_OrgID q) (Service_ActivateIssuer sv ctx (Some q)).
Proof.
  intros Hsc. unfold Service_ActivateIssuer. does_steps.
  eapply does_bind; [apply does_scope_Issuer|intros row].
  apply does_guard. intros Hst%bool_decide_eq_true.
  eapply does_bind_pure.
  { apply does_caught; [apply does_world|done|intros e s; by eexists]. }
  intros m (w & w' & E). apply ActivatedIssuer_scope in E as (Eid & Eo & _).
  apply (does_issuer_mutation ttl sc d0 _ (ActivateIssuer m) (OpActivateIssuer m) _ _
    (fun res => Emit (issuerEvent ctx EventType_IssuerActivated "Issuer activated"
       orgID (i_ProjectID res) (i_ID res)
       ("issuer " ++ i_Label res ++ " activated")) ;;; issuerPb res)); try done.
  - apply ActivateIssuer_mutation.
  - intros d (_ & Hr & Ho). split; [rewrite Eo, Ho; auto|]. by exists row.
  - apply maps_catch; [done|]. intros e s.
    destruct (IsNotFoundError e); [|destruct (IsUniqueViolation _ _)]; by eexists.
  - intros y s. exists (rg_world (bk_rg s)), s. by destruct s as [[] ? ? ?].
  - intros res. does_steps.
Qed.

(** The update keeps the row and follows the lifecycle. *)
Lemma does_updateOf F q o row :
  does F (updateOf q o row) (fun u d => F d /\ ui_ID u = i_ID row /\
    ui_OrgID u = o /\ (ui_Status u = IssuerStatus_Unknown \/
      issuerTransitions (i_Status row) = Some (ui_Status u))).
Proof.
  unfold updateOf.
  eapply (does_bind_pure _ _ (fun _ => up_Status q = IssuerStatus_Unknown \/
    issuerTransitions (i_Status row) = Some (up_Status q))).
  { case_bool_decide; [apply does_ret; intros d Hf; split; [done|by left]|].
    intros s Hi Hf. unfold guard. case_bool_decide; [|done].
    split; [done|]. intros x _. split; [done|by right]. }
  intros _ Hst. eapply (does_bind_pure _ _ (fun _ => True)).
  - destruct (up_Config q); [|by apply does_ret]. apply does_lift. intros ? _.
    eapply does_post; [apply keeps_wrapped, keeps_lift|]. by intros.
  - intros config _. by apply does_ret.
Qed.

(** The key of a destroyed issuer: whatever the provider answers. *)
Lemma destroyed_run (b : bool) keys row (s : BkState (A:=A)) :
  exists w s1,
    (if b then catch (in_rg (in_world (Destroy keys row))) (fun _ => ret tt)
     else ret tt) s = (Ok tt, s1) /\ bk_rg s1 = set_rg_world w (bk_rg s).
Proof.
  destruct b.
  - unfold catch, in_rg, in_world.
    destruct (Destroy keys row (rg_world (bk_rg s))) as [r w]. by eexists w, _.
  - exists (rg_world (bk_rg s)), s. by destruct s as [[] ? ? ?].
Qed.

Lemma UpdateIssuer_ok sv ctx q :
  method_ok ctx (up_OrgID q) (Service_UpdateIssuer sv ctx (Some q)).
Proof.
  intros Hsc. unfold Service_UpdateIssuer. does_steps.
  eapply does_bind; [apply does_scope_Issuer|intros row].
  eapply does_bind; [apply does_updateOf|intros u].
  apply (does_issuer_mutation ttl sc d0 _ (UpdateIssuer u) (OpUpdateIssuer u) _ _
    (fun res => Emit (issuerEvent ctx EventType_IssuerUpdated "Issuer updated"
       orgID (i_ProjectID res) (i_ID res)
       ("issuer " ++ i_Label res ++ " updated: status " ++
        IssuerStatus_String (i_Status res))) ;;; issuerPb res)); try done.
  - apply UpdateIssuer_mutation.
  - intros d ((_ & Hr & Ho) & Hid & Ho' & Hst). split; [rewrite Ho'; auto|].
    destruct Hst as [?|?]; [by left|right]. by exists row.
  - apply maps_found.
  - intros y s. match goal with |- context [bind (if ?b then _ else _)] =>
      destruct (destroyed_run b (sv_keys sv) row s) as (w & s1 & E1 & Es) end.
    exists w, s1. split; [done|]. by rewrite (bind_run _ _ _ _ _ E1).
  - intros res. does_steps.
Qed.

(** ** Reads of issuers, profiles and roots *)

Lemma keeps_IssuerByLabel F o p l : keeps F (IssuerByLabel o p l).
Proof. apply keeps_found, keeps_bk_db, reads_fallback; auto with go. Qed.
Lemma keeps_ProfileByLabel F o p l : keeps F (ProfileByLabel o p l).
Proof. apply keeps_found, keeps_bk_db, reads_fallback; auto with go. Qed.
Lemma keeps_VisibleIssuer F ctx o row method :
  keeps F (VisibleIssuer ctx o row method).
Proof. unfold VisibleIssuer. does_steps. Qed.
Lemma keeps_scope_Issuer F ctx o p v method : keeps F (scope_Issuer ctx o p v method).
Proof. eapply does_post; [apply does_scope_Issuer|]. by intros x d [? _]. Qed.
Lemma keeps_scope_Profile F ctx o p v method :
  keeps F (scope_Profile ctx o p v method).
Proof. eapply does_post; [apply does_scope_Profile|]. by intros x d [? _]. Qed.
#[local] Hint Resolve keeps_IssuerByLabel keeps_ProfileByLabel
  keeps_VisibleIssuer keeps_scope_Issuer keeps_scope_Profile : go.

Lemma GetIssuer_ok ctx q : keeps (fun _ => True) (Service_GetIssuer ctx q).
Proof.
  unfold Service_GetIssuer. does_step. does_step. keep_bind; [|does_steps].
  does_steps.
Qed.
Lemma ListIssuers_ok ctx q : keeps (fun _ => True) (Service_ListIssuers ctx q).
Proof. unfold Service_ListIssuers. does_steps. Qed.
Lemma GetProfile_ok ctx q : keeps (fun _ => True) (Service_GetProfile ctx q).
Proof.
  unfold Service_GetProfile. does_step. does_step. keep_bind; [|does_steps].
  does_steps.
Qed.
Lemma ListProfiles_ok ctx q : keeps (fun _ => True) (Service_ListProfiles ctx q).
Proof. unfold Service_ListProfiles. does_steps. Qed.
Lemma ListRoots_ok ctx q : keeps (fun _ => True) (Service_ListRoots ctx q).
Proof.
  unfold Service_ListRoots. does_step. does_step. keep_bind; [|does_steps].
  case_match; [by apply does_ret|].
  eapply does_post; [apply does_scope_Org|done].
Qed.

(** ** Profiles and roots *)

Lemma NewCertificateProfile_scope o p d m :
  NewCertificateProfile o p (Some d) = Ok m ->
  p_OrgID m = o /\ p_ProjectID m = p /\ p_Label m = cp_Label d.
Proof.
  unfold NewCertificateProfile, result_bind. case_match; [|done].
  by intros [= <-].
Qed.

Lemma RegisterProfile_ok sv ctx q :
  sv_registry sv = true ->
  method_ok ctx (rp_OrgID q) (Service_RegisterProfile sv ctx (Some q)).
Proof.
  intros Hreg Hsc. destruct q as [ro rp [def|]]; [|apply does_fail].
  unfold Service_RegisterProfile. does_steps.
  rename select (as_invalid _ (NewCertificateProfile _ _ _) = Ok _) into Hm.
  unfold as_invalid in Hm. destruct (NewCertificateProfile _ _ _) as [m|] eqn:Em; [|done].
  injection Hm as <-. apply NewCertificateProfile_scope in Em as (Eo & Ep & El).
  match goal with |- context [invalidateProfile sv orgID ?p _] =>
    apply (does_profile_mutation ttl sc d0 _ (RegisterProfile m)
      (OpRegisterProfile m) _ (fun _ => true) _ (fun res =>
        Emit (issuerEvent ctx EventType_ProfileRegistered "Profile registered"
          orgID p (p_ID res) ("profile " ++ p_Label res ++
          " registered for issuer " ++ p_IssuerLabel res)) ;;; profilePb res)
      orgID p p_Label) end; try done.
  - intros d _. simpl. rewrite Eo. auto.
  - intros d _ _. destruct (RegisterProfile m d) as [[res|e] d'] eqn:E.
    + apply RegisterProfile_mutation in E as (Hs & -> & Hi & Hn).
      by rewrite Eo, Ep in Hs.
    + by apply RegisterProfile_atomic in E.
  - apply maps_wrapped.
  - intros res s. unfold invalidateProfile. by rewrite Hreg.
  - intros res. does_steps.
Qed.

Lemma delete_none {R} (w : R -> bool) rows :
  (delete_rows w rows).1 = 0%Z -> (delete_rows w rows).2 = rows.
Proof.
  unfold delete_rows. simpl. induction rows as [|r rows IH]; [done|]. simpl.
  destruct (w r); simpl; [lia|]. intros E. by rewrite IH.
Qed.

Lemma DeleteProfile_none o id d :
  (DeleteProfile o id d).1 = Ok 0%Z -> (DeleteProfile o id d).2 = d.
Proof.
  unfold DeleteProfile, DeleteRowByOrgAndID, exec.
  match goal with |- context [delete_rows ?w ?rows] =>
    pose proof (delete_none w rows) as Hn; destruct (delete_rows w rows) end.
  simpl in *. intros [= ->]. rewrite Hn by done. by destruct d.
Qed.

Lemma DeleteProfile_ok sv ctx q :
  sv_registry sv = true ->
  method_ok ctx (dp_OrgID q) (Service_DeleteProfile sv ctx (Some q)).
Proof.
  intros Hreg Hsc. unfold Service_DeleteProfile. do 3 does_step.
  eapply does_bind; [apply does_scope_Profile|intros row].
  apply (does_profile_mutation ttl sc d0 _ (DeleteProfile orgID (p_ID row))
    (OpDeleteProfile orgID (p_ID row)) _ (fun n => negb (n =? 0)%Z) _ (fun _ =>
      Emit (issuerEvent ctx EventType_ProfileDeleted "Profile deleted" orgID
        (p_ProjectID row) (p_ID row) ("profile " ++ p_Label row ++ " deleted")))
    (p_OrgID row) (p_ProjectID row) (fun _ => p_Label row)); try done.
  - intros d _. simpl. auto.
  - intros d (_ & Hr & _) [Hwf _].
    pose proof (DeleteProfile_mutation orgID _ row d Hwf Hr eq_refl) as Hm.
    pose proof (DeleteProfile_none orgID (p_ID row) d) as Hn.
    destruct (DeleteProfile _ _ d) as [[n|e] d'] eqn:E; [|done]. simpl in *.
    destruct Hm as (Hs & Hi & Hnow). split_and!; [done..|].
    intros Hz%negb_false_iff%Z.eqb_eq. apply Hn. by rewrite Hz.
  - intros n s. unfold invalidateProfile, guard. rewrite Hreg.
    by destruct (negb _).
Qed.

Lemma RegisterRoot_ok ctx q :
  method_ok ctx (rr_OrgID q) (Service_RegisterRoot ctx (Some q)).
Proof.
  intros Hsc. unfold Service_RegisterRoot. does_steps.
  apply (does_bind _ _ _ _ _ _ (fun _ _ => True)); [|intros res; does_steps].
  apply does_caught; [|done|intros e s; destruct (errors_Is _ _); by eexists].
  eapply (does_other ttl sc d0 _ _ (OpRegisterRoot _)); try done.
  - intros d _. simpl. auto.
  - intros d. by apply RegisterRoot_same.
Qed.

(** ** Certificates *)

Lemma keeps_bk_now F : keeps F bk_now.
Proof. by intros s Hi Hf. Qed.
#[local] Hint Resolve keeps_bk_now : go.

Lemma keeps_certificateBySKID F ctx o p skid :
  keeps F (certificateBySKID ctx o p skid).
Proof.
  unfold certificateBySKID. keep_bind; [does_steps|]. does_steps.
Qed.
Lemma keeps_selectCertificate F ctx o sel : keeps F (selectCertificate ctx o sel).
Proof.
  assert (forall m : M Db Certificate, reads m ->
    keeps F (let! row := bk_db m in ret (Some row))) as Hr.
  { intros m Hm. eapply does_bind; [by apply keeps_bk_db|]. intros ?.
    by apply does_ret. }
  unfold selectCertificate. cbv zeta.
  does_steps; apply keeps_found; try apply Hr;
    auto using reads_row, keeps_certificateBySKID with go.
Qed.
#[local] Hint Resolve keeps_selectCertificate : go.
Lemma does_findCertificate F ctx o sel method :
  does F (findCertificate ctx o sel method) (fun c d => F d /\ c_OrgID c = o).
Proof.
  unfold findCertificate. does_step. destruct x as [c|]; [|apply does_fail].
  apply does_guard. intros Ho%Z.eqb_eq. does_steps.
Qed.

Lemma GetCertificate_ok ctx q : keeps (fun _ => True) (Service_GetCertificate ctx q).
Proof.
  unfold Service_GetCertificate. does_step. does_step.
  eapply does_bind_pure; [apply does_findCertificate|intros ? ?]. does_steps.
Qed.
Lemma ListCertificates_ok ctx q :
  keeps (fun _ => True) (Service_ListCertificates ctx q).
Proof. unfold Service_ListCertificates. does_steps. Qed.
Lemma ListRevokedCertificates_ok ctx q :
  keeps (fun _ => True) (Service_ListRevokedCertificates ctx q).
Proof. unfold Service_ListRevokedCertificates. does_steps. Qed.
Lemma GetSummary_ok ctx q : keeps (fun _ => True) (Service_GetSummary ctx q).
Proof. unfold Service_GetSummary. does_steps. Qed.
Lemma GetCRL_ok ctx q : keeps (fun _ => True) (Service_GetCRL ctx q).
Proof.
  unfold Service_GetCRL. does_step. does_step. keep_bind.
  - case_match; [by apply does_ret|]. eapply does_post; [apply does_scope_Org|done].
  - does_step. keep_bind; does_steps.
Qed.

Lemma UpdateCertificateLabel_ok ctx q :
  method_ok ctx (ul_OrgID q) (Service_UpdateCertificateLabel ctx (Some q)).
Proof.
  intros Hsc. unfold Service_UpdateCertificateLabel. does_steps.
  eapply does_bind_pure; [apply does_findCertificate|intros c Ho].
  apply (does_bind _ _ _ _ _ _ (fun _ _ => True)); [|intros res; does_steps].
  eapply does_map; [apply maps_found|].
  eapply (does_other ttl sc d0 _ _ (OpUpdateCertificate _)); try done.
  - intros d _. simpl. auto.
  - intros d. by apply UpdateCertificate_same.
Qed.

Lemma RevokeCertificate_method_ok ctx q :
  method_ok ctx (rv_OrgID q) (Service_RevokeCertificate ctx (Some q)).
Proof.
  intros Hsc. unfold Service_RevokeCertificate. does_steps.
  eapply does_bind_pure; [apply does_findCertificate|intros c Ho]. does_steps.
  apply (does_bind _ _ _ _ _ _ (fun _ _ => True)); [|intros res; does_steps].
  apply does_caught; [|done|].
  - eapply (does_other ttl sc d0 _ _ (OpRevokeCertificate _)); try done.
    + intros d _. simpl. auto.
    + intros d. apply RevokeCertificate_same.
  - intros e s0. destruct (errors_Is _ _); [|destruct (IsNotFoundError e)]; by eexists.
Qed.

Lemma SignCertificate_ok sv ctx q :
  method_ok ctx (sc_OrgID q) (Service_SignCertificate sv ctx (Some q)).
Proof.
  intros Hsc. unfold Service_SignCertificate. does_steps.
  keep_bind.
  { apply does_caught; [auto with go|done|].
    intros e s. destruct (isSignRequestError e); by eexists. }
  does_steps.
  apply (does_bind _ _ _ _ _ _ (fun _ _ => True)); [|intros res; does_steps].
  apply does_caught; [|done|].
  - eapply (does_other ttl sc d0 _ _ (OpRegisterCertificate _ _)); try done.
    + intros d _. simpl. auto.
    + intros d. by apply RegisterCertificate_same.
  - intros e s. destruct (IsUniqueViolation _ _); by eexists.
Qed.

(** ** OCSP *)

Lemma keeps_ocspIssuer F sv q : keeps F (ocspIssuer sv q).
Proof.
  assert (forall m : M RgState (nat * Issuer), calm ttl m ->
    keeps F (catch (in_rg m) (fun r => match r with
      | Ok (a, _) => ret a
      | Err e => if errors_Is e ErrIssuerNotFound || errors_Is e ErrIssuerNotActive
                 then fail (Grpc NotFound "issuer not found")
                 else fail (Grpc Internal "unable to load issuer") end))) as Hl.
  { intros m Hm. apply (does_catch _ _ _ _ _ _ (fun _ => F)); [by apply keeps_calm|..].
    - intros [a i]. by apply does_ret.
    - intros e. destruct (_ || _); apply does_fail. }
  unfold ocspIssuer. cbv zeta. does_steps; apply Hl; auto with go.
Qed.
#[local] Hint Resolve keeps_ocspIssuer : go.

Lemma ocspStatus_ok ikid serial alg :
  keeps (fun _ => True) (ocspStatus ikid serial alg).
Proof.
  unfold ocspStatus. apply (does_catch _ _ _ _ _ _ (fun _ _ => True));
    [auto with go|..].
  - intros c. destruct (bool_decide _); [|by apply does_ret].
    apply (does_catch _ _ _ _ _ _ (fun _ _ => True)); [auto with go|..].
    + intros r. by apply does_ret.
    + intros e. destruct (IsNotFoundError e); apply does_fail.
  - intros e. destruct (IsNotFoundError e); [by apply does_ret|apply does_fail].
Qed.
#[local] Hint Resolve ocspStatus_ok : go.

Lemma SignOCSP_ok sv q : keeps (fun _ => True) (Service_SignOCSP sv q).
Proof.
  unfold Service_SignOCSP. destruct q as [der|]; [|apply does_fail]. does_steps.
Qed.

(** ** CRLs *)

Lemma keeps_emitCrls F ctx source crls : keeps F (emitCrls ctx source crls).
Proof.
  induction crls as [|l crls IH]; simpl; [by apply does_ret|].
  eapply does_bind; [apply does_emit|done].
Qed.
#[local] Hint Resolve keeps_emitCrls : go.

Lemma does_PublishCrl (F : Db -> Prop) keys row force :
  (forall d, F d -> live sc d (i_ID row)) ->
  does F (in_rg (Publisher_PublishCrl keys row force)) (fun _ _ => True).
Proof.
  intros Hl s Hi Hf. split; [|done].
  pose proof (Publisher_PublishCrl_bk ttl sc d0 Httl keys row force _ Hi (Hl _ Hf)) as Hb.
  unfold in_rg. by destruct (Publisher_PublishCrl _ _ _ _).
Qed.
Lemma does_PublishCrls F keys req :
  (forall o, pc_AllOrgs req = true \/ o = pc_OrgID req -> sc o) ->
  does F (in_rg (PublishCrls keys req)) (fun _ _ => True).
Proof.
  intros Hsc s Hi Hf. split; [|done].
  pose proof (PublishCrls_bk ttl sc d0 Httl keys req Hsc _ Hi) as Hb.
  unfold in_rg. by destruct (PublishCrls _ _ _).
Qed.

(** A request of a service without an org and a project is for every org. *)
Definition publishAll (ctx : Context) (q : PublishCrls_Request) : bool :=
  bool_decide (pb_OrgID q = EmptyString) &&
  bool_decide (pb_ProjectID q = EmptyString) && isServiceCaller (FromContext ctx).

Lemma publishNamed_ok sv ctx (all : bool) o q :
  (if all then forall o, sc o else sc o) ->
  does (fun _ => True) (publishNamed sv ctx all o q) (fun _ _ => True).
Proof.
  intros Hsc. unfold publishNamed.
  eapply does_bind; [eapply does_map; [apply maps_found|apply does_read; auto with go]|].
  intros row.
  apply (does_bind _ _ _ _ _ _ (fun row d => row ∈ db_issuers d /\ sc (i_OrgID row))).
  - assert (forall d, (GetIssuerBySKID (pb_IKID q) d).1 = Ok row -> row ∈ db_issuers d)
      as Hin.
    { intros d. unfold GetIssuerBySKID, check_not_found, catch, select.
      destruct (select_row _ _) as [y|e] eqn:E; simpl;
        [|by destruct (IsNotFoundError e)].
      intros [= ->]. by apply select_row_ok in E as [? _]. }
    destruct all; [apply does_ret; intros d [_ Hr]; auto|].
    eapply does_bind; [apply keeps_RequestProject|intros p]. does_step.
    unfold VisibleIssuer. apply does_guard. intros Ho%Z.eqb_eq. does_step.
    apply does_ret. intros d [_ Hr]. rewrite Ho. auto.
  - intros row'. apply does_guard. intros Hst.
    apply (does_catch _ _ _ _ _ _ (fun _ _ => True)).
    + apply does_PublishCrl. intros d [Hr Ho]. by exists row'.
    + intros [[l|] []]; by apply does_ret.
    + intros e. destruct (errors_Is _ _); apply does_fail.
Qed.

Lemma publishScope_ok sv ctx (all : bool) o q :
  (if all then forall o, sc o else sc o) ->
  does (fun _ => True) (publishScope sv ctx all o q) (fun _ _ => True).
Proof.
  intros Hsc. unfold publishScope.
  eapply (does_bind_pure _ _ (fun r => forall x,
    pc_AllOrgs r = true \/ x = pc_OrgID r -> sc x)).
  - destruct all; [by apply does_ret|]. does_step. does_step; [does_step|];
      apply does_ret; intros d _; (split; [done|]); intros y [Hy|Hy]; try done;
      by rewrite Hy.
  - intros r Hr. eapply does_bind; [by apply does_PublishCrls|intros res].
    by apply does_ret.
Qed.

Lemma PublishCrls_ok sv ctx q :
  (if publishAll ctx q then forall o, sc o
   else forall o, requestOrg ctx (pb_OrgID q) = Some o -> sc o) ->
  does (fun _ => True) (Service_PublishCrls sv ctx (Some q)) (fun _ _ => True).
Proof.
  intros Hsc. unfold Service_PublishCrls. does_step. does_step.
  fold (publishAll ctx q).
  eapply (does_bind_pure _ _ (fun o => if publishAll ctx q then forall o, sc o else sc o)).
  { destruct (publishAll ctx q); [by apply does_ret|].
    eapply does_post; [apply does_scope_Org|]. intros o d [? ?]. auto. }
  intros o Ho.
  apply (does_bind _ _ _ _ _ _ (fun _ _ => True)).
  - case_bool_decide; [|by apply publishScope_ok].
    eapply does_bind; [by apply publishNamed_ok|intros crls]. by apply does_ret.
  - intros [[crls failed] runErr]. does_steps.
Qed.
End scope.
