(* ===== verification/BackendClaims.v ===== *)
(** The backend service: the calls of its 22 methods, and what every history
    of them keeps: a coherent registry over a well-formed database, the
    separation of the orgs, and the lifecycle of the issuers. *)
From Stdlib Require Import ZArith Lia.
From stdpp Require Import base list gmap sets strings pretty relations.
From S2P Require Import Prelude GoStrings Xdb Roles Scopes Tenancy Grants Authorizer Methods Access Model Query Sql CaQuery CaDb CaDbFacts CaDbSteps PathLength Base64 Keys Pbconv Lru Registry RegistryFacts RegistryDb Crl CrlFacts CrlRun RowPb IssuerBuild IssuerBuildFacts TenantScope BackendIssuers BackendCerts BackendSteps CrlSteps BackendFacts.

(** ** Calls *)

(** A call of a method; a missing request is [None]. *)
Inductive bk_call :=
| CallRegisterIssuer (q : option RegisterIssuerRequest)
| CallImportIssuer (q : option ImportIssuerRequest)
| CallActivateIssuer (q : option ActivateIssuerRequest)
| CallUpdateIssuer (q : option UpdateIssuer_Request)
| CallGetIssuer (q : option GetIssuerRequest)
| CallListIssuers (q : option ListIssuers_Request)
| CallRegisterProfile (q : option RegisterProfileRequest)
| CallGetProfile (q : option GetProfileRequest)
| CallListProfiles (q : option ListProfiles_Request)
| CallDeleteProfile (q : option DeleteProfileRequest)
| CallRegisterRoot (q : option RegisterRootRequest)
| CallListRoots (q : option ListRoots_Request)
| CallGetCertificate (q : option GetCertificateRequest)
| CallListCertificates (q : option ListCertificates_Request)
| CallUpdateCertificateLabel (q : option UpdateCertificateLabelRequest)
| CallRevokeCertificate (q : option RevokeCertificate_Request)
| CallListRevokedCertificates (q : option ListRevokedCertificates_Request)
| CallPublishCrls (q : option PublishCrls_Request)
| CallGetCRL (q : option GetCrlRequest)
| CallSignCertificate (q : option SignCertificateRequest)
| CallSignOCSP (q : option string)
| CallGetSummary (q : option GetSummaryRequest).

(** The orgs a call may change: the one its request is for, all of them for
    a service that publishes every CRL, and none for a read. *)
Definition call_orgs `{Xdb} (ctx : Context) (c : bk_call) (o : Z) : Prop :=
  let names {R} (org : R -> string) (q : option R) :=
    match q with Some q => requestOrg ctx (org q) = Some o | None => False end in
  match c with
  | CallRegisterIssuer q => names ri_OrgID q
  | CallImportIssuer q => names ii_OrgID q
  | CallActivateIssuer q => names ai_OrgID q
  | CallUpdateIssuer q => names up_OrgID q
  | CallRegisterProfile q => names rp_OrgID q
  | CallDeleteProfile q => names dp_OrgID q
  | CallRegisterRoot q => names rr_OrgID q
  | CallUpdateCertificateLabel q => names ul_OrgID q
  | CallRevokeCertificate q => names rv_OrgID q
  | CallSignCertificate q => names sc_OrgID q
  | CallPublishCrls (Some q) =>
      publishAll ctx q = true \/ requestOrg ctx (pb_OrgID q) = Some o
  | _ => False
  end.

Section calls.
Context `{XL : XdbLaws, Codec, IdGen, ChainLib, ProfileCodec, AuthorityLaws, !IssuerLib, !CrlLib, !SignLib, LRULaws, Porto, TimeLib}.
Context {A : Type} `{!Authorizer A}.
Notation St := (BkState (A:=A)).
Notation db s := (rg_db (bk_rg s)).

Definition run_call (sv : Service) (ctx : Context) (c : bk_call) (s : St) : St :=
  match c with
  | CallRegisterIssuer q => (Service_RegisterIssuer sv ctx q s).2
  | CallImportIssuer q => (Service_ImportIssuer sv ctx q s).2
  | CallActivateIssuer q => (Service_ActivateIssuer sv ctx q s).2
  | CallUpdateIssuer q => (Service_UpdateIssuer sv ctx q s).2
  | CallGetIssuer q => (Service_GetIssuer ctx q s).2
  | CallListIssuers q => (Service_ListIssuers ctx q s).2
  | CallRegisterProfile q => (Service_RegisterProfile sv ctx q s).2
  | CallGetProfile q => (Service_GetProfile ctx q s).2
  | CallListProfiles q => (Service_ListProfiles ctx q s).2
  | CallDeleteProfile q => (Service_DeleteProfile sv ctx q s).2
  | CallRegisterRoot q => (Service_RegisterRoot ctx q s).2
  | CallListRoots q => (Service_ListRoots ctx q s).2
  | CallGetCertificate q => (Service_GetCertificate ctx q s).2
  | CallListCertificates q => (Service_ListCertificates ctx q s).2
  | CallUpdateCertificateLabel q => (Service_UpdateCertificateLabel ctx q s).2
  | CallRevokeCertificate q => (Service_RevokeCertificate ctx q s).2
  | CallListRevokedCertificates q => (Service_ListRevokedCertificates ctx q s).2
  | CallPublishCrls q => (Service_PublishCrls sv ctx q s).2
  | CallGetCRL q => (Service_GetCRL ctx q s).2
  | CallSignCertificate q => (Service_SignCertificate sv ctx q s).2
  | CallSignOCSP q => (Service_SignOCSP sv q s).2
  | CallGetSummary q => (Service_GetSummary ctx q s).2
  end.

(** A call keeps the registry coherent and changes the database by operations
    on its orgs. *)
Lemma run_call_bk ttl sv ctx c (s : St) :
  (0 <= ttl)%Z -> sv_registry sv = true ->
  coherent ttl (bk_rg s) -> bk_wf (db s) ->
  rg_bk ttl (call_orgs ctx c) (db s) (bk_rg (run_call sv ctx c s)).
Proof.
  intros Ht Hreg Hc Hw.
  assert (rg_bk ttl (call_orgs ctx c) (db s) (bk_rg s)) as Hi.
  { split_and!; [done..|]. apply rtc_refl. }
  destruct c as [[q|]|[q|]|[q|]|[q|]|q|q|[q|]|q|q|[q|]|[q|]|q|q|q|[q|]|[q|]|q
    |[q|]|q|[q|]|q|q]; try done; cbn [run_call].
  - by apply RegisterIssuer_ok.
  - by apply ImportIssuer_ok.
  - by apply ActivateIssuer_ok.
  - by apply UpdateIssuer_ok.
  - by apply GetIssuer_ok.
  - by apply ListIssuers_ok.
  - by apply RegisterProfile_ok.
  - by apply GetProfile_ok.
  - by apply ListProfiles_ok.
  - by apply DeleteProfile_ok.
  - by apply RegisterRoot_ok.
  - by apply ListRoots_ok.
  - by apply GetCertificate_ok.
  - by apply ListCertificates_ok.
  - by apply UpdateCertificateLabel_ok.
  - by apply RevokeCertificate_method_ok.
  - by apply ListRevokedCertificates_ok.
  - apply PublishCrls_ok; [done| |done|done]. simpl. destruct (publishAll ctx q);
      auto.
  - by apply GetCRL_ok.
  - by apply SignCertificate_ok.
  - by apply SignOCSP_ok.
  - by apply GetSummary_ok.
Qed.

(** The renewal task works on every org. *)
Lemma Task_Run_bk ttl keys ctx (s : St) :
  (0 <= ttl)%Z -> coherent ttl (bk_rg s) -> bk_wf (db s) ->
  rg_bk ttl (fun _ => True) (db s) (bk_rg (Task_Run keys ctx s).2).
Proof.
  intros Ht Hc Hw.
  assert (does ttl (fun _ => True) (db s) (fun _ => True) (Task_Run (A:=A) keys ctx)
    (fun _ _ => True)) as Hd.
  { unfold Task_Run. eapply does_bind; [by apply does_PublishCrls|]. intros out.
    eapply does_bind; [apply keeps_emitCrls|]. intros ?. by apply does_ret. }
  apply Hd; [|done]. split_and!; [done..|]. apply rtc_refl.
Qed.

(** ** The lifecycle of an issuer *)

(** Pending, Active, Archived, Destroyed. *)
Definition status_step (st st' : IssuerStatus_Enum) : Prop :=
  (st = IssuerStatus_Pending /\ st' = IssuerStatus_Active) \/
  issuerTransitions st = Some st'.
Definition lifecycle : relation IssuerStatus_Enum := rtc status_step.

Lemma lifecycle_destroyed st :
  lifecycle IssuerStatus_Destroyed st -> st = IssuerStatus_Destroyed.
Proof. intros Hl. inversion Hl as [|? ? ? [[? _]|?]]; by subst. Qed.
Lemma lifecycle_pending st :
  lifecycle st IssuerStatus_Pending -> st = IssuerStatus_Pending.
Proof.
  intros Hl. apply rtc_inv_r in Hl as [->|(y & _ & [[_ ?]|Hs])]; [done..|].
  by destruct y.
Qed.

(** The same issuer later on. *)
Definition issuer_lives (i i' : Issuer) : Prop :=
  (i_ID i' = i_ID i /\ i_OrgID i' = i_OrgID i /\ i_ProjectID i' = i_ProjectID i /\
   i_Label i' = i_Label i /\ i_Type i' = i_Type i /\ i_ParentID i' = i_ParentID i /\
   i_KeyProvider i' = i_KeyProvider i /\ i_KeyID i' = i_KeyID i) /\
  lifecycle (i_Status i) (i_Status i') /\
  (i_CrlNumber i <= i_CrlNumber i')%Z /\
  (i_KeyProtected i' = i_KeyProtected i \/ i_Status i' = IssuerStatus_Destroyed) /\
  (issuer_certificate i' = issuer_certificate i \/
   (i_Status i = IssuerStatus_Pending /\ i_Status i' <> IssuerStatus_Pending)).

#[global] Instance issuer_lives_preorder : PreOrder issuer_lives.
Proof.
  split.
  - intros i. unfold issuer_lives. split_and!; try done; try lia; auto.
  - intros i j k (Eij & Lij & Nij & Kij & Cij) (Ejk & Ljk & Njk & Kjk & Cjk).
    split; [naive_solver congruence|]. split; [by etrans|]. split; [lia|]. split.
    + destruct Kij as [Kij|Kij].
      * destruct Kjk as [Kjk|]; [left; congruence|by right].
      * right. rewrite Kij in Ljk. by apply lifecycle_destroyed in Ljk.
    + destruct Cij as [Cij|[Pi Pj]]; destruct Cjk as [Cjk|[Pj' Pk]].
      * left; congruence.
      * right. split; [|done]. rewrite Pj' in Lij. by apply lifecycle_pending.
      * right. split; [done|]. intros Ek. rewrite Ek in Ljk.
        by apply lifecycle_pending in Ljk.
      * done.
Qed.

Lemma evolves_lives i i' :
  issuer_evolves i i' -> lifecycle (i_Status i) (i_Status i') -> issuer_lives i i'.
Proof.
  intros (? & ? & ? & ? & ? & ? & ? & ? & ? & Hk & ? & Hc) Hl.
  split_and!; try done; [naive_solver|].
  destruct Hc as [?|[? Hs]]; [by left|right]. by rewrite Hs.
Qed.

(** ** The issuers after an operation *)

(** No issuer is removed, and a status follows the lifecycle. *)
Definition issuers_step : list Issuer -> list Issuer -> Prop :=
  table_change
    (fun i i' => i_ID i' = i_ID i /\ lifecycle (i_Status i) (i_Status i'))
    (fun _ => False) (fun _ => True).

Lemma transition_lifecycle st st' : issuerTransitions st = Some st' -> lifecycle st st'.
Proof. intros Ht. by apply rtc_once; right. Qed.

Lemma UpdateIssuer_step q d :
  db_wf d ->
  (ui_Status q = IssuerStatus_Unknown \/
   exists i, i ∈ db_issuers d /\ i_ID i = ui_ID q /\
     issuerTransitions (i_Status i) = Some (ui_Status q)) ->
  issuers_step (db_issuers d) (db_issuers (UpdateIssuer q d).2).
Proof.
  intros Hwf Hq. destruct (UpdateIssuer q d) as [[row|e] d'] eqn:E; simpl.
  - unfold UpdateIssuer in E. db_ok_step E.
    apply update_row_ok in E as (i & Hi & Hw & -> & -> & Hu). simpl.
    apply change_update. intros j Hj [Hid%Z.eqb_eq _]%andb_true_iff. simpl.
    split; [done|].
    destruct (bool_decide_reflect (ui_Status q = IssuerStatus_Unknown));
      [apply rtc_refl|]. destruct Hq as [?|(k & Hk & Hkid & Ht)]; [done|]. apply transition_lifecycle.
    destruct Hwf as [_ [Hun _ _ _] _ _ _].
    rewrite (issuer_id_inj _ j k Hun Hj Hk); [done|congruence].
  - pose proof (UpdateIssuer_mutation q d Hwf) as Hm. rewrite E in Hm.
    destruct Hm as [n ->]. constructor.
Qed.

Lemma ActivateIssuer_step m d :
  db_wf d -> issuers_step (db_issuers d) (db_issuers (ActivateIssuer m d).2).
Proof.
  intros Hwf. destruct (ActivateIssuer m d) as [[row|e] d'] eqn:E; simpl.
  - unfold ActivateIssuer in E. db_ok_step E.
    apply update_row_ok in E as (i & Hi & Hw & -> & -> & Hu). simpl.
    apply change_update. intros j Hj Hwj.
    rewrite !andb_true_iff, bool_decide_eq_true in Hwj. destruct Hwj as [[_ Hs] _].
    split; [done|]. apply rtc_once. by left.
  - pose proof (ActivateIssuer_mutation m d Hwf) as Hm. rewrite E in Hm.
    destruct Hm as [n ->]. constructor.
Qed.

(** A publication updates one issuer. *)
Lemma PublishCrl_updates m d :
  exists w set_, db_issuers (PublishCrl m d).2 = update_all w set_ (db_issuers d) /\
    (forall i, w i = true ->
       i_ID i = l_IssuerID m /\ exists n, set_ i = set_i_CrlNumber n i) /\
    let d' := (PublishCrl m d).2 in
    db_certificates d' = db_certificates d /\ db_roots d' = db_roots d /\
    db_profiles d' = db_profiles d.
Proof.
  destruct (PublishCrl m d) as [[l|e] d'] eqn:E; simpl.
  - unfold PublishCrl in E. apply bind_ok in E as (id & d1 & E1 & E).
    pose proof (preserves_ensureID (same_rows d) (l_ID m) d ltac:(done)) as Hd.
    rewrite E1 in Hd. destruct Hd as (Er & Ei & Ep & Ec). db_ok_step E.
    rename select (setIssuerCrlNumber _ _ _ _ = _) into Es.
    apply setIssuerCrlNumber_ok in Es as (i & _ & _ & _ & _ & _ & _ & ->).
    eexists _, _. simpl in *. rewrite Ei. split; [done|]. split; [|done]. intros j Hj.
    rewrite !andb_true_iff, Z.eqb_eq in Hj. destruct Hj as [[Hj _] _]. eauto.
  - apply PublishCrl_atomic in E as [n ->]. exists (fun _ => false), id. split; [|done].
    simpl. unfold update_all. symmetry. apply list_fmap_id.
Qed.

Lemma backend_op_issuers sc d op :
  bk_wf d -> backend_op sc d op -> issuers_step (db_issuers d) (db_issuers (run_op op d)).
Proof.
  intros [Hwf _] Hop.
  assert (forall d', same_ca d d' -> issuers_step (db_issuers d) (db_issuers d'))
    as Hsame. { intros d' [(-> & _) _]. constructor. }
  destruct op; try done; cbn [run_op].
  - apply Hsame, RegisterCertificate_same, same_ca_refl.
  - apply Hsame, UpdateCertificate_same, same_ca_refl.
  - apply Hsame, RevokeCertificate_same.
  - apply Hsame, RegisterRoot_same, same_ca_refl.
  - destruct (RegisterIssuer m anchor d) as [[row|e] d'] eqn:E; simpl.
    + destruct (RegisterIssuer_inserts m anchor d row d' E) as [-> _].
      by constructor.
    + pose proof (RegisterIssuer_mutation m anchor d Hwf) as Hm. rewrite E in Hm.
      destruct Hm as [n ->]. constructor.
  - destruct Hop as [_ Hq]. by apply UpdateIssuer_step.
  - by apply ActivateIssuer_step.
  - destruct (RegisterProfile_crls d m d ltac:(done)) as [-> _]. constructor.
  - assert (db_issuers (DeleteProfile orgID id d).2 = db_issuers d) as ->; [|constructor].
    done.
  - destruct (PublishCrl_updates m d) as (w & set_ & -> & Hw & _). apply change_update.
    intros i Hi [_ [n ->]]%Hw. split; [done|apply rtc_refl].
Qed.

Lemma issuers_NoDup d : db_wf d -> NoDup (i_ID <$> db_issuers d).
Proof. intros [_ [Hu _ _ _] _ _ _]. by apply Forall_inv in Hu. Qed.

(** Every issuer lives on. *)
Definition issuers_live (d d' : Db) : Prop :=
  forall i, i ∈ db_issuers d -> exists i', i' ∈ db_issuers d' /\ issuer_lives i i'.
#[local] Instance issuers_live_preorder : PreOrder issuers_live.
Proof.
  split.
  - intros d i Hi. by exists i.
  - intros d1 d2 d3 Ha Hb i (j & Hj & Lj)%Ha. apply Hb in Hj as (k & Hk & Lk).
    exists k. split; [done|]. by etrans.
Qed.
Lemma same_issuers_live d d' : db_issuers d' = db_issuers d -> issuers_live d d'.
Proof. intros E i Hi. exists i. by rewrite E. Qed.

Lemma step_finds rows rows' i :
  issuers_step rows rows' -> i ∈ rows ->
  exists i', i' ∈ rows' /\ i_ID i' = i_ID i /\ lifecycle (i_Status i) (i_Status i').
Proof.
  intros Hst Hi. destruct Hst as [|r Hr|w set_ Hset|f Hf].
  - exists i. split_and!; [done..|apply rtc_refl].
  - exists i. split_and!; [set_solver|done|apply rtc_refl].
  - exists (if w i then set_ i else i). split.
    + apply list_elem_of_fmap. by exists i.
    + destruct (w i) eqn:E; [by apply Hset|split; [done|apply rtc_refl]].
  - exists i. split_and!; [|done|apply rtc_refl]. apply filter_elem. split; [done|].
    destruct (f i) eqn:E; [done|]. by apply Hf in E.
Qed.

Lemma backend_op_lives sc d op :
  bk_wf d -> backend_op sc d op -> issuers_live d (run_op op d).
Proof.
  intros Hwf Hop i Hi.
  destruct (step_finds _ _ i (backend_op_issuers sc d op Hwf Hop) Hi)
    as (i' & Hi' & Hid & Hl). exists i'. split; [done|]. apply evolves_lives; [|done].
  destruct (backend_op_wf sc d op Hwf Hop) as [_ [Hwf' _]].
  destruct (change_same_id i_ID _ _ _ _ _ i i' (ch_issuers _ _ _ (run_op_changes op d)))
    as [->|[? _]]; try done.
  - by apply issuers_NoDup; destruct Hwf.
  - by apply issuers_NoDup.
  - by intros x y [(-> & _) _].
  - repeat split; try done; by left.
Qed.

(** ** Separation of the orgs *)

Lemma others_same_refl o d : others_same o d d.
Proof. done. Qed.
Lemma others_same_trans o d1 d2 d3 :
  others_same o d1 d2 -> others_same o d2 d3 -> others_same o d1 d3.
Proof.
  intros (A1 & A2 & A3 & A4) (B1 & B2 & B3 & B4). unfold others_same.
  rewrite B1, B2, B3, B4. done.
Qed.

Lemma backend_op_others sc d op o :
  db_wf d -> backend_op sc d op -> ~ sc o -> others_same o d (run_op op d).
Proof.
  intros Hwf Hop Ho.
  assert (forall o', op_org op = Some o' -> sc o' -> others_same o d (run_op op d)) as Hm.
  { intros o' E Hs. eapply mutation_other_org; [done|]. by intros ->. }
  destruct op; try done; try (by eapply Hm; [done|]; first [apply Hop|exact Hop]).
  destruct Hop as (i & Hi & Hid & _ & Hs). cbn [run_op].
  destruct (PublishCrl_updates m d) as (w & set_ & Ei & Hw & Ec & Er & Ep).
  unfold others_same. rewrite Ei, Ec, Er, Ep. split_and!; try done.
  eapply (change_other_org _ (i_OrgID i) _
    (fun j j' => i_OrgID j = i_OrgID i /\ i_OrgID j' = i_OrgID i)
    (fun _ => False) (fun _ => False)); [|by intros ->|done..].
  apply change_update. intros j Hj [Hjd [n ->]]%Hw. simpl.
  destruct Hwf as [_ [Hu _ _ _] _ _ _].
  by rewrite (issuer_id_inj _ j i Hu Hj Hi) by congruence.
Qed.

(** ** Traces *)

Lemma trace_ind sc (P : relation Db) `{!PreOrder P} d d' :
  bk_wf d -> (forall x op, bk_wf x -> backend_op sc x op -> P x (run_op op x)) ->
  bk_trace sc d d' -> P d d'.
Proof.
  intros Hw Hp Ht. revert Hw.
  induction Ht as [|x y z (op & Hop & _ & ->) _ IH]; intros Hw; [done|].
  etrans; [by apply Hp|]. apply IH. by eapply backend_op_wf.
Qed.

#[local] Instance others_same_preorder o : PreOrder (others_same o).
Proof. split; [done|]. intros d1 d2 d3. apply others_same_trans. Qed.

(** ** Histories

    One instance of the service: it serves calls, the tasks of the same
    process renew CRLs, expire and delete certificates, the clock advances,
    events are recorded, and orgs, projects, grants and key providers change
    in any way. *)
Definition background_op (d : Db) (op : db_op) : Prop :=
  match op with
  | OpTick now => (db_now d <= now)%Z
  | OpCreateEvent _ | OpExpireCertificates _ | OpDeleteExpiredCertificates _
  | OpTenants _ _ => True
  | _ => False
  end.

#[local] Existing Instance same_ca_seq.
Lemma recorded_same d m : preserves (same_ca d) (CreateEvent m).
Proof. unfold CreateEvent. db_steps. by apply preserves_exec. Qed.
Lemma ExpireCertificates_same d q : preserves (same_ca d) (ExpireCertificates q).
Proof. unfold ExpireCertificates. db_steps. by apply preserves_exec. Qed.
Lemma DeleteExpired_same d q : preserves (same_ca d) (DeleteExpiredCertificates q).
Proof. unfold DeleteExpiredCertificates. db_steps; [by apply preserves_exec|by intros s]. Qed.

Lemma background_same d op :
  background_op d op ->
  db_issuers (run_op op d) = db_issuers d /\ db_profiles (run_op op d) = db_profiles d /\
  db_crls (run_op op d) = db_crls d /\ (db_now d <= db_now (run_op op d))%Z.
Proof.
  assert (forall d', same_ca d d' -> db_issuers d' = db_issuers d /\
    db_profiles d' = db_profiles d /\ db_crls d' = db_crls d /\
    (db_now d <= db_now d')%Z) as Hs.
  { intros d' [(-> & -> & ->) ->]. split_and!; try done. }
  destruct op; try done; intros Hop; cbn [run_op].
  - apply Hs, recorded_same, same_ca_refl.
  - apply Hs, ExpireCertificates_same, same_ca_refl.
  - apply Hs, DeleteExpired_same, same_ca_refl.
Qed.

Definition set_bk_db (d : Db) (s : St) : St :=
  mkBk (set_rg_db d (bk_rg s)) (bk_az s) (bk_orgs s) (bk_emitted s).

Inductive bk_next (sv : Service) : relation St :=
| next_call ctx c s : bk_next sv s (run_call sv ctx c s)
| next_renewal ctx s : bk_next sv s (Task_Run (sv_keys sv) ctx s).2
| next_background op s : background_op (db s) op ->
    bk_next sv s (set_bk_db (run_op op (db s)) s)
| next_outside w az orgs s :
    bk_next sv s (mkBk (set_rg_world w (bk_rg s)) az orgs (bk_emitted s)).

Definition bk_start (now : Z) (w : world) (ttl size : Z) (az : A) (orgs : list Org) : St :=
  mkBk (NewRegistry (emptyDb now) w ttl size) az orgs [].

Section histories.
Context (sv : Service) (ttl : Z) (Httl : (0 <= ttl)%Z).
Context (Hreg : sv_registry sv = true).
Let period := cmp_or ttl DefaultCacheTTL.

Lemma period_ok : (0 <= period)%Z.
Proof. unfold period, cmp_or, DefaultCacheTTL. by destruct (_ =? 0)%Z. Qed.

Definition bk_ok (s : St) : Prop := coherent period (bk_rg s) /\ bk_wf (db s).

Lemma bk_start_ok now w size az orgs : bk_ok (bk_start now w ttl size az orgs).
Proof.
  split; [by apply coherent_new|]. split; [apply emptyDb_wf|].
  by intros l i ?%not_elem_of_nil.
Qed.

Lemma bk_next_ok s s' :
  bk_next sv s s' -> bk_ok s -> bk_ok s' /\ issuers_live (db s) (db s').
Proof.
  intros Hn [Hc Hw]. pose proof period_ok as Hp. 
  destruct Hn as [ctx c s|ctx s|op s Hop|w az orgs s].
  - destruct (run_call_bk period sv ctx c s Hp Hreg Hc Hw) as (Hc' & Hw' & Ht).
    split; [done|]. eapply (trace_ind (call_orgs ctx c)); [apply _|done| |done].
    intros x op Hx Hop. by eapply backend_op_lives.
  - destruct (Task_Run_bk period (sv_keys sv) ctx s Hp Hc Hw) as (Hc' & Hw' & Ht).
    split; [done|]. eapply (trace_ind (fun _ => True)); [apply _|done| |done].
    intros x op Hx Hop. by eapply backend_op_lives.
  - destruct (background_same _ _ Hop) as (Ei & Ep & El & En). split.
    + split; [simpl; apply coherent_other; [done..|by apply same_issuers|done]|].
      destruct Hw as [Hwf Hpe]. split; [|by eapply pending_same].
      apply run_op_wf; [|done]. by destruct op.
    + by apply same_issuers_live.
  - split; [|by intros i Hi; exists i]. split; [|done]. by destruct Hc.
Qed.

Lemma bk_next_rtc s s' :
  rtc (bk_next sv) s s' -> bk_ok s -> bk_ok s' /\ issuers_live (db s) (db s').
Proof.
  induction 1 as [s|s1 s2 s3 Hn _ IH]; intros Hs; [done|].
  destruct (bk_next_ok _ _ Hn Hs) as [Hs2 L12]. destruct (IH Hs2) as [Hs3 L23].
  split; [done|]. by etrans.
Qed.

(** C15: whatever the service is asked, the caches of its registry agree with
    the database and the database is well formed.  In every history of calls
    of the 22 methods, successful or not, by any caller, with any answers of
    the key providers, in which certificates expire, the clock advances and
    orgs and grants change, a label or a profile a cache still answers is
    what the database resolves now, every row is valid, the unique indexes
    and foreign keys hold, and no issuer has a CRL before it is activated. *)
Theorem backend_stays_coherent (now : Z) (w : world) (size : Z) (az : A)
    (orgs : list Org) (s : St)
    (Hist : rtc (bk_next sv) (bk_start now w ttl size az orgs) s) :
  coherent period (bk_rg s) /\ db_wf (db s) /\ pending_without_crl (db s).
Proof.
  destruct (bk_next_rtc _ _ Hist (bk_start_ok now w size az orgs)) as [[Hc [Hw Hp]] _].
  done.
Qed.

Lemma call_stays_in_org (now : Z) (w : world) (size : Z) (az : A)
    (orgs : list Org) (s : St) (ctx : Context) (c : bk_call) (o : Z)
    (Hist : rtc (bk_next sv) (bk_start now w ttl size az orgs) s)
    (Ho : ~ call_orgs ctx c o \/
          (isServiceCaller (FromContext ctx) = false /\
           o <> tc_orgID (FromContext ctx))) :
  others_same o (db s) (db (run_call sv ctx c s)).
Proof.
  destruct (bk_next_rtc _ _ Hist (bk_start_ok now w size az orgs)) as [[Hc Hw] _].
  destruct (run_call_bk period sv ctx c s period_ok Hreg Hc Hw) as (_ & _ & Ht).
  eapply (trace_ind (call_orgs ctx c)); [apply _|done| |done].
  intros x op [Hx _] Hop. eapply backend_op_others; [done..|].
  destruct Ho as [Ho|[Hs Hne]]; [done|]. clear -Hs Hne.
  intros Hco. destruct c as [[q|]|[q|]|[q|]|[q|]|q|q|[q|]|q|q|[q|]|[q|]|q|q|q|[q|]
    |[q|]|q|[q|]|q|[q|]|q|q]; simpl in Hco; unfold requestOrg, publishAll in Hco;
    rewrite ?Hs, ?andb_false_r in Hco; try done; naive_solver.
Qed.

(** C4: a call changes rows of the org it is for only.  The certificates,
    issuers, trust anchors and profiles of every org outside [call_orgs] are
    exactly the same after the call, and a caller that is not a service can
    change rows of the org of its own token only, whatever its request
    says. *)
Theorem backend_stays_in_org (now : Z) (w : world) (size : Z) (az : A)
    (orgs : list Org) (s : St) (ctx : Context) (c : bk_call) (o : Z)
    (Hist : rtc (bk_next sv) (bk_start now w ttl size az orgs) s)
    (Ho : ~ call_orgs ctx c o \/
          (isServiceCaller (FromContext ctx) = false /\
           o <> tc_orgID (FromContext ctx))) :
  others_same o (db s) (db (run_call sv ctx c s)).
Proof. by apply (call_stays_in_org now w size az orgs). Qed.

(** An issuer is never lost, and its lifecycle has one direction.  In
    every history an issuer that was registered is still there later, with
    the same identity, scope, label and key; its status has only moved along
    Pending, Active, Archived, Destroyed; its CRL number has not decreased;
    its certificate is the same unless it was Pending; and its key material
    is the same unless it is Destroyed. *)
Theorem issuers_live_on (now : Z) (w : world) (size : Z) (az : A)
    (orgs : list Org) (s s' : St) (i : Issuer)
    (Hist : rtc (bk_next sv) (bk_start now w ttl size az orgs) s)
    (Later : rtc (bk_next sv) s s') (Hi : i ∈ db_issuers (db s)) :
  exists i', i' ∈ db_issuers (db s') /\ issuer_lives i i'.
Proof.
  destruct (bk_next_rtc _ _ Hist (bk_start_ok now w size az orgs)) as [Hok _].
  destruct (bk_next_rtc _ _ Later Hok) as [_ Hl]. by apply Hl.
Qed.
End histories.
End calls.
