(* ===== verification/BackendAnswers.v ===== *)
(** What the backend answers: the status of a certificate in an OCSP
    response, and the lookup of an issuer by its ID.

    The summary counts rows, and its counts saturate. *)
From Stdlib Require Import ZArith Lia.
From stdpp Require Import base list gmap sets strings pretty.
From S2P Require Import Prelude GoStrings Xdb Roles Scopes Tenancy Grants Authorizer Methods Access Model PathLength Base64 Query Sql CaQuery CaDb CaDbFacts Keys Pbconv Lru Registry RegistryFacts RegistryDb Crl CrlFacts RowPb IssuerBuild TenantScope BackendIssuers BackendCerts TenantScopeFacts BackendSteps BackendFacts.

(** ** Selects of one row *)

Lemma checked_select_ok `{Xdb} {R} (t : Table R) name key f d x :
  List.find f (tab_rows t d) = Some x ->
  check_not_found name key (select t (select_row f)) d = (Ok x, d).
Proof.
  intros E. unfold check_not_found, catch, select, select_row. by rewrite E.
Qed.
Lemma checked_select_none `{XdbLaws} {R} (t : Table R) name key f d :
  List.find f (tab_rows t d) = None ->
  exists e, check_not_found name key (select t (select_row f)) d = (Err e, d) /\
    IsNotFoundError e = true.
Proof.
  intros E. unfold check_not_found, catch, select, select_row. rewrite E. simpl.
  eexists. split; [done|]. by rewrite CheckNotFoundError_not_found.
Qed.
Lemma find_none_elem {R} (f : R -> bool) rows x :
  List.find f rows = None -> x ∈ rows -> f x = false.
Proof. intros E Hx%list_elem_of_In. by eapply find_none. Qed.
Lemma find_elem {R} (f : R -> bool) rows x :
  List.find f rows = Some x -> x ∈ rows /\ f x = true.
Proof. intros [? ?]%find_some. split; [by apply list_elem_of_In|done]. Qed.

Section answers.
Context `{XL : XdbLaws, Codec, IdGen, ChainLib, ProfileCodec, AuthorityLaws, !IssuerLib, !CrlLib, !SignLib, LRULaws, Porto, TimeLib}.
Context {A : Type} `{!Authorizer A}.
Notation St := (BkState (A:=A)).
Notation db s := (rg_db (bk_rg s)).

(** A step that reads the database. *)
Lemma bk_db_read {X} (m : M Db X) (s : St) r :
  m (db s) = (r, db s) -> bk_db m s = (r, s).
Proof.
  intros E. unfold bk_db, in_rg, in_db. rewrite E. by destruct s as [[] ? ? ?].
Qed.

(** ** OCSP *)

(** The certificate the issuer with the key issued under the serial. *)
Definition issued (d : Db) (ikid : string) (serial : Z) (c : Certificate) : Prop :=
  c ∈ db_certificates d /\ c_Ikid c = ikid /\ c_SerialNumber c = pretty serial.

(** What a response must say. *)
Definition ocsp_correct (d : Db) (ikid : string) (serial alg : Z)
    (r : OCSPSignRequest) : Prop :=
  ((forall c, ~ issued d ikid serial c) /\
     r = mkOcspSign serial OCSPStatusUnknown 0 0 alg) \/
  (exists c, issued d ikid serial c /\
     c_Status c <> CertificateStatus_Revoked /\
     r = mkOcspSign serial OCSPStatusGood 0 0 alg) \/
  (exists c rev, issued d ikid serial c /\
     c_Status c = CertificateStatus_Revoked /\
     rev ∈ db_revoked d /\ revocation_of c rev /\
     r = mkOcspSign serial OCSPStatusRevoked (r_Reason rev) (r_RevokedAt rev) alg).

(** The revocation of a revoked certificate is found. *)
Lemma GetRevoked_finds d c :
  db_wf d -> c ∈ db_certificates d -> c_Status c = CertificateStatus_Revoked ->
  exists rev, GetRevoked (mkGetRevoked (c_ID c) "" "") d = (Ok rev, d) /\
    rev ∈ db_revoked d /\ revocation_of c rev.
Proof.
  intros [Hc _ _ _ _] Hin Hst. destruct Hc as [Hu _ Hv Hrv Hof Hex].
  destruct (Hex c Hin Hst) as (rev & Hr & Eid & _).
  assert (IsZero (c_ID c) = false) as Hz.
  { specialize (Hrv rev Hr). rewrite <-Eid. unfold Revoked_Validate in Hrv.
    destruct (IsZero (r_CertificateID rev)); [|done].
    by destruct (validateTenancy _ _). }
  unfold GetRevoked, GetRevokedRequest_Validate, bind, lift_result.
  cbn [gr_CertificateID gr_IKID gr_SerialNumber]. rewrite Hz. cbn [andb negb].
  destruct (List.find (GetRevoked_where (mkGetRevoked (c_ID c) "" "")) (db_revoked d))
    as [r|] eqn:E.
  - exists r. split; [by apply (checked_select_ok revoked)|].
    apply find_elem in E as [Hir Hw]. split; [done|].
    unfold GetRevoked_where in Hw. simpl in Hw. rewrite Hz, andb_true_r in Hw.
    apply Z.eqb_eq in Hw. destruct (Hof r Hir) as (c' & Hc' & Hrc & _).
    assert (c' = c) as <-; [|done]. apply (certificate_id_inj _ _ _ Hu Hc' Hin).
    destruct Hrc as [Hrc _]. congruence.
  - apply (find_none_elem _ _ _ E) in Hr. unfold GetRevoked_where in Hr.
    simpl in Hr. by rewrite Hz, Eid, Z.eqb_refl in Hr.
Qed.

(** An OCSP response states what the database holds.  With a well-formed
    database the lookup never fails, so that no revocation record is ever
    missing, and the response says Unknown exactly when the issuer with the
    key issued no certificate under the serial, Revoked with the reason and
    the time of its revocation exactly when the certificate is revoked, and
    Good otherwise. *)
Lemma ocspStatus_decides (s : St) (ikid : string) (serial alg : Z) :
  db_wf (db s) ->
  exists r, ocspStatus ikid serial alg s = (Ok r, s) /\
    ocsp_correct (db s) ikid serial alg r.
Proof.
  intros Hwf. unfold ocspStatus, catch at 1.
  destruct (List.find (fun c => bool_decide (c_Ikid c = ikid) &&
    bool_decide (c_SerialNumber c = pretty serial)) (db_certificates (db s))) as [c|] eqn:E.
  - unfold GetCertificateByIssuerSerial.
    rewrite (bk_db_read _ s _ (checked_select_ok certificates _ _ _ _ _ E)).
    apply find_elem in E as [Hin Hw].
    rewrite andb_true_iff, !bool_decide_eq_true in Hw. destruct Hw as [Hk Hs].
    case_bool_decide as Hst.
    + destruct (GetRevoked_finds _ _ Hwf Hin Hst) as (rev & Er & Hr & Hof).
      unfold catch. rewrite (bk_db_read _ s _ Er). eexists. split; [done|].
      right; right. by exists c, rev.
    + eexists. split; [done|]. right; left. by exists c.
  - destruct (checked_select_none certificates "certificate"
      (ikid ++ "/" ++ pretty serial) _ _ E) as (e & Ee & Hn).
    unfold GetCertificateByIssuerSerial. rewrite (bk_db_read _ s _ Ee), Hn.
    eexists. split; [done|]. left. split; [|done]. intros c (Hin & Hk & Hs).
    apply (find_none_elem _ _ _ E) in Hin.
    rewrite Hk, Hs, !bool_decide_true in Hin by done. done.
Qed.
End answers.

(** ** The lookup of an issuer *)

Section lookup.
Context `{XL : XdbLaws, Codec, IdGen, ChainLib, ProfileCodec, Authority, LRU, Porto, TimeLib}.
Context {A : Type} `{AC : AuthorizerContract A}.
Notation St := (BkState (A:=A)).
Notation db s := (rg_db (bk_rg s)).

(** The issuer of the ID is one of the org, and of the project of the
    request when it names one. *)
Definition in_request (d : Db) (orgID projectID id : Z) (row : Issuer) : Prop :=
  row ∈ db_issuers d /\ i_ID row = id /\ i_OrgID row = orgID /\
  inProject (i_ProjectID row) projectID = true.

Lemma lookup_cases d orgID projectID id :
  (exists row, in_request d orgID projectID id row) \/
  forall row, ~ in_request d orgID projectID id row.
Proof.
  destruct (List.find (fun i => (i_ID i =? id)%Z && (i_OrgID i =? orgID)%Z &&
    inProject (i_ProjectID i) projectID) (db_issuers d)) as [row|] eqn:E.
  - left. exists row. apply find_elem in E as [Hin Hw].
    rewrite !andb_true_iff, !Z.eqb_eq in Hw. unfold in_request. naive_solver.
  - right. intros row (Hin & <- & <- & Hp). apply (find_none_elem _ _ _ E) in Hin.
    by rewrite !Z.eqb_refl, Hp in Hin.
Qed.

(** The answer for a row of the request. *)
Definition row_answer (ctx : Context) (orgID : Z) (method : string) (s : St)
    (row : Issuer) : result Issuer :=
  match (RowAccess ctx orgID (i_ProjectID row) method "issuer" s).1 with
  | Ok _ => Ok row
  | Err e => Err e
  end.

Lemma found_row id row (s : St) :
  db_wf (db s) -> row ∈ db_issuers (db s) -> i_ID row = id ->
  found "issuer not found" "unable to find issuer" (bk_db (GetIssuer id)) s = (Ok row, s).
Proof.
  intros Hwf Hr Hid. unfold found, catch.
  rewrite (bk_db_read (GetIssuer id) s (Ok row)); [done|].
  apply (checked_select_ok issuers). destruct (List.find _ _) as [x|] eqn:E.
  - apply find_elem in E as [Hx Ex%Z.eqb_eq]. f_equal.
    destruct Hwf as [_ [Hun _ _ _] _ _ _]. apply (issuer_id_inj _ _ _ Hun Hx Hr). congruence.
  - apply (find_none_elem _ _ _ E) in Hr. by rewrite Hid, Z.eqb_refl in Hr.
Qed.

Lemma lookup_present ctx orgID projectID id idVal method (s : St) row :
  parseID idVal "issuer ID" = Ok id -> db_wf (db s) ->
  in_request (db s) orgID projectID id row ->
  (scope_Issuer ctx orgID projectID idVal method s).1 = row_answer ctx orgID method s row.
Proof.
  intros Hid Hwf (Hr & Ei & Eo & Ep). unfold scope_Issuer, bind at 1, lift_result.
  rewrite Hid. unfold bind at 1. rewrite (found_row id row s Hwf Hr Ei).
  unfold bind, guard, VisibleIssuer, row_answer. rewrite Ep, Eo, Z.eqb_refl. simpl.
  unfold bind, ret. by destruct (RowAccess _ _ _ _ _ s) as [[[]|e] s'].
Qed.

Lemma lookup_absent ctx orgID projectID id idVal method (s : St) :
  parseID idVal "issuer ID" = Ok id -> db_wf (db s) ->
  (forall row, ~ in_request (db s) orgID projectID id row) ->
  (scope_Issuer ctx orgID projectID idVal method s).1 =
    Err (Grpc NotFound "issuer not found").
Proof.
  intros Hid Hwf Hno. unfold scope_Issuer, bind at 1, lift_result.
  rewrite Hid. unfold bind at 1.
  destruct (List.find (fun i => (i_ID i =? id)%Z) (db_issuers (db s))) as [row|] eqn:E.
  - apply find_elem in E as [Hr Ei%Z.eqb_eq]. rewrite (found_row id row s Hwf Hr Ei).
    unfold bind, guard, VisibleIssuer. destruct (inProject _ _) eqn:Ep; [|done].
    simpl. destruct (Z.eqb_spec (i_OrgID row) orgID) as [Eo|]; [|done].
    by destruct (Hno row).
  - destruct (checked_select_none issuers "issuer" (pretty id) _ _ E) as (e & Ee & Hn).
    unfold found, catch. unfold GetIssuer, GetRowByID.
    by rewrite (bk_db_read _ s _ Ee), Hn.
Qed.

(** C17: a lookup by ID tells the caller about its own rows only.  It returns
    an issuer exactly when the issuer is of the org and the project of the
    request and the caller may call the method on it; it is forbidden exactly
    when the caller reads the row but may not call the method; and a row of
    another org, of another project, or of a project the caller cannot read is
    answered with the very error of an ID that does not exist. *)
Theorem issuer_lookup_decides (ctx : Context) (orgID projectID id : Z)
    (idVal method : string) (s : St)
    (Hwf : db_wf (db s)) (Hid : parseID idVal "issuer ID" = Ok id)
    (Ho : orgID <> 0%Z)
    (Hp : forall row, row ∈ db_issuers (db s) -> is_uint64 (i_ProjectID row))
    (Hu : is_uint64 (tc_userID (FromContext ctx)))
    (Hm : methodRoles method <> [])
    (Hrows : forall rows,
       view_rows (az_view (bk_az s)) (tc_userID (FromContext ctx)) = Ok rows ->
       unique_grants rows) :
  let v := az_view (bk_az s) in let t := FromContext ctx in
  let answer := (scope_Issuer ctx orgID projectID idVal method s).1 in
  (forall row, answer = Ok row <->
     in_request (db s) orgID projectID id row /\
     row_permitted v t orgID (i_ProjectID row) method) /\
  (forall row, in_request (db s) orgID projectID id row ->
     row_readable v t orgID (i_ProjectID row) ->
     ~ row_permitted v t orgID (i_ProjectID row) method ->
     answer = Err (Grpc PermissionDenied "access denied")) /\
  ((forall row, in_request (db s) orgID projectID id row ->
      view_answers v t (i_ProjectID row) /\
      ~ row_readable v t orgID (i_ProjectID row)) ->
   answer = Err (Grpc NotFound "issuer not found")).
Proof.
  intros v t answer.
  assert (forall row, in_request (db s) orgID projectID id row ->
    answer = row_answer ctx orgID method s row) as Hin.
  { intros row (Hr & Ei & Eo & Ep). by apply (lookup_present ctx orgID projectID id). }
  assert (forall row row', in_request (db s) orgID projectID id row ->
    in_request (db s) orgID projectID id row' -> row' = row) as Hone.
  { intros row row' (Hr & Ei & _) (Hr' & Ei' & _).
    destruct Hwf as [_ [Hun _ _ _] _ _ _].
    apply (issuer_id_inj _ _ _ Hun Hr' Hr). congruence. }
  destruct (lookup_cases (db s) orgID projectID id) as [[row Hrow]|Hno].
  - rewrite (Hin row Hrow). unfold row_answer.
    destruct (RowAccess_verdict ctx orgID (i_ProjectID row) method "issuer" s
      Ho (Hp row (proj1 Hrow)) Hu Hm Hrows) as (Hok & Hden & Hhid).
    fold v t in Hok, Hden, Hhid.
    destruct (RowAccess ctx orgID (i_ProjectID row) method "issuer" s) as [[[]|e] s'];
      simpl in *.
    + split_and!.
      * intros row'. split; [intros [= <-]; naive_solver|].
        intros [Hr' _]. by rewrite (Hone _ _ Hrow Hr').
      * intros row' Hr'. rewrite (Hone _ _ Hrow Hr'). naive_solver.
      * intros Hall. destruct (Hall row Hrow) as [Ha Hn]. by apply Hhid in Hn.
    + split_and!.
      * intros row'. split; [done|]. intros [Hr' Hpe].
        rewrite (Hone _ _ Hrow Hr') in Hpe. by apply Hok in Hpe.
      * intros row' Hr' Hre Hpe. rewrite (Hone _ _ Hrow Hr') in *.
        by injection (Hden Hre Hpe) as ->.
      * intros Hall. destruct (Hall row Hrow) as [Ha Hn].
        by injection (Hhid Ha Hn) as ->.
  - rewrite (lookup_absent ctx orgID projectID id idVal method s Hid Hwf Hno : answer = _).
    split_and!; [|intros row Hrow; by destruct (Hno row)|done].
    intros row. split; [done|]. intros [Hrow _]. by destruct (Hno row).
Qed.
End lookup.

(** The rows of a status. *)
Definition rows_count {R} (sel : R -> bool) (rows : list R) : Z :=
  Z.of_nat (length (List.filter sel rows)).

Lemma count32_min n : count32 n = Z.min n MaxUint32.
Proof. unfold count32. destruct (Z.ltb_spec MaxUint32 n); lia. Qed.
Lemma count32_bounds n : (0 <= n)%Z -> (0 <= count32 n <= MaxUint32)%Z.
Proof. rewrite count32_min. unfold MaxUint32. lia. Qed.

Lemma countByStatus_count {R S} `{EqDecision S} (status : R -> S) f rows st :
  default 0%Z (countByStatus status (List.filter f rows) st) =
  rows_count (fun r => f r && bool_decide (status r = st)) rows.
Proof.
  unfold countByStatus, rows_count. rewrite filter_filter.
  by destruct (length _).
Qed.

Section summary.
Context `{XL : XdbLaws, Codec, IdGen, ChainLib, ProfileCodec, AuthorityLaws, !IssuerLib, !CrlLib, !SignLib, LRULaws, Porto, TimeLib}.
Context {A : Type} `{!Authorizer A}.
Notation St := (BkState (A:=A)).
Notation db s := (rg_db (bk_rg s)).

Lemma countCrls_nonneg now states : forall c c',
  (0 <= ct_Issuers c /\ 0 <= ct_Current c /\ 0 <= ct_Due c /\
   0 <= ct_Overdue c /\ 0 <= ct_Missing c)%Z ->
  countCrls now c states = Ok c' ->
  (0 <= ct_Issuers c' /\ 0 <= ct_Current c' /\ 0 <= ct_Due c' /\
   0 <= ct_Overdue c' /\ 0 <= ct_Missing c')%Z.
Proof.
  induction states as [|st states IH]; intros c c' Hc; simpl; [by intros [= <-]|].
  destruct (countCrl now c st) as [c1|e] eqn:E; [|done]. simpl. apply IH.
  unfold countCrl, result_bind in E. destruct c.
  destruct (expiredAt _ _); [by injection E as <-|].
  destruct (IsZero _); [injection E as <-; simpl in *; lia|].
  destruct (negb _); [injection E as <-; simpl in *; lia|].
  destruct (GetConfig _ _); [|done]. destruct (renewalOf _ _ _); [|done].
  destruct (crlDueAt _ _ _); injection E as <-; simpl in *; lia.
Qed.

(** The scope of a request is read from the tenants and the grants. *)
Lemma keeps_rg_az {X} g (m : M A X) :
  preserves (fun s : St => bk_rg s = g) (in_az m).
Proof. intros s Hs. unfold in_az. by destruct (m (bk_az s)). Qed.

Lemma keeps_rg_Org g ctx o : preserves (fun s : St => bk_rg s = g) (scope_Org ctx o).
Proof.
  unfold scope_Org, found. preserves_steps; by intros s Hs.
Qed.
Lemma keeps_rg_Project g ctx o p :
  preserves (fun s : St => bk_rg s = g) (scope_Project ctx o p).
Proof.
  unfold scope_Project. cbv zeta.
  match goal with |- context [parse_id ?x] => generalize x end. intros q.
  unfold visibleProject. case_bool_decide; preserves_steps. apply keeps_rg_az.
Qed.
Lemma keeps_rg_listed g ctx o p :
  preserves (fun s : St => bk_rg s = g) (listedProjects ctx o p).
Proof. unfold listedProjects, ListProjects, wrapped. preserves_steps. apply keeps_rg_az. Qed.

Lemma countPeriods_run q ps : forall acc d,
  countPeriods q ps acc d = (Ok (acc ++ ((fun within => rows_count
    (CountExpiringCertificates_where q within) (db_certificates d)) <$> ps)), d).
Proof.
  induction ps as [|p ps IH]; intros acc d; simpl; [by rewrite app_nil_r|].
  unfold bind, countExpiringCertificates, select. simpl. rewrite IH.
  by rewrite <-app_assoc.
Qed.

Lemma GetSummaryCounts_run q d c d' :
  GetSummaryCounts q d = (Ok c, d') ->
  (forall st, default 0%Z (sm_Issuers c st) = rows_count (fun i =>
     CountIssuers_where (SummaryRequest_Issuers q) i && bool_decide (i_Status i = st))
     (db_issuers d)) /\
  (forall st, default 0%Z (cn_ByStatus (sm_Certificates c) st) = rows_count (fun i =>
     CountCertificates_where (SummaryRequest_Certificates q) i &&
     bool_decide (c_Status i = st)) (db_certificates d)) /\
  cn_Expiring (sm_Certificates c) = (fun within => rows_count
     (CountExpiringCertificates_where (SummaryRequest_Certificates q) within)
     (db_certificates d)) <$> sr_Expiring q.
Proof.
  unfold GetSummaryCounts, CountIssuers, CountCertificates, countCertificates.
  intros E. db_ok_step E. rename select (countPeriods _ _ _ _ = _) into Ep.
  rewrite countPeriods_run in Ep. simplify_eq.
  destruct (readCrlStates _ _); [|done]. db_ok_step E. simplify_eq/=.
  split_and!; [intros st; apply countByStatus_count..|done].
Qed.

Lemma scope_Org_request ctx r (s : St) o s' :
  scope_Org ctx r s = (Ok o, s') -> requestOrg ctx r = Some o.
Proof.
  unfold scope_Org, requestOrg. destruct (isServiceCaller _); simpl.
  - case_bool_decide; [done|]. destruct (parse_id r) as [o'|]; [|done].
    intros E. by ok_step E.
  - destruct (_ =? 0)%Z; [done|]. destruct (_ && _); [done|]. by intros [= -> _].
Qed.
Lemma wrapped_ok {X} msg (m : M St X) s x s' :
  wrapped msg m s = (Ok x, s') -> m s = (Ok x, s').
Proof. unfold wrapped, catch. by destruct (m s) as [[y|e] s1]. Qed.
Lemma bk_db_ok {X} (m : M Db X) (s : St) x s' :
  bk_db m s = (Ok x, s') -> exists d, m (db s) = (Ok x, d).
Proof.
  unfold bk_db, in_rg, in_db. destruct (m (db s)) as [r d]. intros [= -> _]. eauto.
Qed.

(** The scope the request resolves to. *)
Definition summary_scope (ctx : Context) (q : GetSummaryRequest) (s : St)
    (orgID projectID : Z) (visible : option (list Z)) : Prop :=
  requestOrg ctx (gs_OrgID q) = Some orgID /\
  exists s1 s2 s3, scope_Org ctx (gs_OrgID q) s = (Ok orgID, s1) /\
    scope_Project ctx orgID (gs_ProjectID q) s1 = (Ok projectID, s2) /\
    listedProjects ctx orgID projectID s2 = (Ok visible, s3).

(** What the response is computed from. *)
Lemma GetSummary_run ctx q (s s' : St) r :
  Service_GetSummary ctx (Some q) s = (Ok r, s') ->
  exists orgID projectID visible now c d' crls,
    summary_scope ctx q s orgID projectID visible /\
    GetSummaryCounts (mkSummary orgID projectID visible now expiryBuckets CrlStatuses)
      (db s) = (Ok c, d') /\
    CountCrls (sm_CrlStates c) now = Ok crls /\
    r = summaryPb now (sm_Issuers c) (sm_Certificates c) crls.
Proof.
  unfold Service_GetSummary. intros E. apply bind_ok in E as (? & ? & [= <- <-] & E).
  apply bind_ok in E as (orgID & s1 & E1 & E).
  pose proof (keeps_rg_Org (bk_rg s) ctx (gs_OrgID q) s eq_refl) as K1.
  rewrite E1 in K1. simpl in K1. apply scope_Org_request in E1 as Ho.
  apply bind_ok in E as (projectID & s2 & E2 & E).
  pose proof (keeps_rg_Project (bk_rg s) ctx orgID (gs_ProjectID q) s1 K1) as K2.
  rewrite E2 in K2. simpl in K2.
  apply bind_ok in E as (visible & s3 & E3 & E).
  pose proof (keeps_rg_listed (bk_rg s) ctx orgID projectID s2 K2) as K3.
  rewrite E3 in K3. simpl in K3.
  apply bind_ok in E as (t & s4 & [= <- <-] & E). cbv zeta in E.
  apply bind_ok in E as (c & s5 & [d' Ec]%wrapped_ok%bk_db_ok & E).
  apply bind_ok in E as (crls & s6 & [Hc ->]%wrapped_ok%lift_ok & E).
  apply ret_ok in E as [<- ->]. rewrite K3 in Ec, Hc |- *.
  eexists orgID, projectID, visible, _, c, d', crls. split; [|done].
  split; [done|]. by exists s1, s2, s3.
Qed.

(** The counts of a response. *)
Definition summary_values (r : SummaryResponse) : list Z :=
  let c := sp_Crls r in
  (snd <$> sp_Issuers r) ++ (snd <$> sp_Certificates r) ++ (snd <$> sp_Expiring r) ++
  [ct_Issuers c; ct_Current c; ct_Due c; ct_Overdue c; ct_Missing c].

Lemma summary_bounded now issuers certs crls :
  (forall st, 0 <= default 0 (issuers st))%Z ->
  (forall st, 0 <= default 0 (cn_ByStatus certs st))%Z ->
  Forall (fun n => 0 <= n)%Z (cn_Expiring certs) ->
  (0 <= ct_Issuers crls /\ 0 <= ct_Current crls /\ 0 <= ct_Due crls /\
   0 <= ct_Overdue crls /\ 0 <= ct_Missing crls)%Z ->
  Forall (fun n => 0 <= n <= MaxUint32)%Z (summary_values (summaryPb now issuers certs crls)).
Proof.
  intros Hi Hs He (? & ? & ? & ? & ?). unfold summary_values, summaryPb. simpl.
  assert (forall i, 0 <= default 0 (cn_Expiring certs !! i))%Z as Hx.
  { intros i. destruct (cn_Expiring certs !! i) as [n|] eqn:E; simpl; [|lia].
    by eapply Forall_lookup_1 in E. }
  repeat first [apply Forall_cons; split; [by apply count32_bounds|]
               |apply Forall_nil_2].
Qed.

(** C40: the summary counts the tenant's rows, and its counts fit.  Every
    count of a response is a 32-bit number: the number of rows when it fits
    and the largest number otherwise, never a wrapped one.  The rows counted
    are the issuers and the certificates of the org of the request, in its
    project or the projects the caller lists, by status, and the active
    certificates that end within 7, 30 and 90 days. *)
Theorem summary_counts_saturate (ctx : Context) (q : GetSummaryRequest) (s s' : St)
    (r : SummaryResponse)
    (Hok : Service_GetSummary ctx (Some q) s = (Ok r, s')) :
  exists orgID projectID visible now,
    summary_scope ctx q s orgID projectID visible /\ sp_At r = now /\
    let selected := whereTenancy (countParams orgID projectID visible) in
    let count {R} (sel : R -> bool) rows := Z.min (rows_count sel rows) MaxUint32 in
    sp_Issuers r = (fun st => (st, count (fun i =>
      selected (i_OrgID i) (i_ProjectID i) && bool_decide (i_Status i = st))
      (db_issuers (db s)))) <$> issuerStatuses /\
    sp_Certificates r = (fun st => (st, count (fun c =>
      selected (c_OrgID c) (c_ProjectID c) && bool_decide (c_Status c = st))
      (db_certificates (db s)))) <$> certificateStatuses /\
    sp_Expiring r = (fun days => (days, count (fun c =>
      selected (c_OrgID c) (c_ProjectID c) &&
      bool_decide (c_Status c = CertificateStatus_Active) &&
      (now <=? c_NotAfter c)%Z && (c_NotAfter c <? now + days * day)%Z)
      (db_certificates (db s)))) <$> [7; 30; 90]%Z /\
    Forall (fun n => 0 <= n <= MaxUint32)%Z (summary_values r).
Proof.
  apply GetSummary_run in Hok as (orgID & projectID & visible & now & c & d' & crls &
    Ho & Ec & Hc & ->).
  apply GetSummaryCounts_run in Ec as (Hi & Hs & He).
  exists orgID, projectID, visible, now. split; [done|]. split; [done|].
  cbv zeta. split_and!.
  - simpl. by rewrite !count32_min, !Hi.
  - simpl. by rewrite !count32_min, !Hs.
  - simpl. rewrite He. simpl. by rewrite !count32_min.
  - apply summary_bounded; [by intros st; rewrite Hi; unfold rows_count; lia
      |by intros st; rewrite Hs; unfold rows_count; lia| |by eapply countCrls_nonneg, Hc].
    rewrite He. apply list.Forall_forall. intros n (w & -> & _)%list_elem_of_fmap.
    unfold rows_count. lia.
Qed.
End summary.
