(* ===== verification/BackendExamples.v ===== *)
(** The theorems of the backend at concrete services: an org whose member
    imports, archives and looks up an issuer, and the responder at a database
    with a revoked certificate. *)
From Stdlib Require Import ZArith Lia.
From stdpp Require Import base list gmap strings pretty relations.
From S2P Require Import Prelude GoStrings Xdb Roles Scopes Tenancy Grants Authorizer Methods Access Model Query Sql CaQuery CaDb CaDbFacts CaDbSteps CaDbClaims PathLength Base64 Keys Pbconv Lru Registry RegistryFacts RegistryDb CrlExamples Crl CrlFacts CrlRun RowPb IssuerBuild IssuerBuildFacts TenantScope TenantScopeFacts BackendIssuers BackendCerts BackendSteps BackendFacts BackendClaims BackendAnswers.

(** ** Libraries *)

(** Every certificate is the example one, of the key of the example. *)
#[export] Instance example_issuer_lib : @IssuerLib example_pblib example_keylib example_authority := {|
  csr_build r := cq_CommonName r; csr_Name r := cq_CommonName r;
  NewRoot _ _ _ _ _ _ _ := ret ("pem-ca"%string, "pkcs11:k"%string);
  Issuer_Sign _ r := if bool_decide (sq_Request r = "pkcs11:k"%string)
                     then ret (example_x509, EmptyString)
                     else fail (OtherError "unknown request");
  Issuer_PEM _ := EmptyString; Bundle_CACertsPEM _ := EmptyString;
  EncodeToPEMString c := if decide (c = example_x509) then Ok "pem-ca"%string
                         else Err (OtherError "unknown");
  crt_PublicKey _ := Some "pkcs11:k"%string; csr_PublicKey s := Some s;
  MarshalPKIXPublicKey p := Ok p; unmarshal_spki s := Ok s; sha1_Sum s := s;
  marshal_IssuerConfig c := if decide (c = emptyIssuerConfig) then Ok "{}"%string
                            else Err (OtherError "unknown") |}.

#[export] Instance example_issuer_laws :
  @IssuerLaws example_codec example_chain_lib example_pblib example_keylib
    example_authority example_issuer_lib.
Proof.
  split; simpl.
  - intros c pem. destruct (decide _) as [->|]; [|done]. by intros [= <-].
  - intros i r w c pem w'. case_bool_decide as E; [|done]. by intros [= <- _ _]; rewrite E.
  - by intros prov label algo size req w csrPEM sg id w' [= <- <- _ _].
  - intros prov label algo size req w csrPEM sg id w1 uri exported w2
      [= <- <- <- <-] [= <- <- <-] crypto w3 sg' w4. simpl. case_bool_decide; by intros [= <- _].
  - intros name p prov label algo size req w pem key w' c [= <- <- <-] _.
    exists "pkcs11:k"%string. split; [done|]. intros crypto w1 sg w2. simpl.
    case_bool_decide; by intros [= <- _].
Qed.

#[export] Instance example_sign_lib : @SignLib example_pblib example_keylib example_authority := {|
  Issuer_Label _ := "ca"%string; Issuer_SubjectKID _ := "skid-ca"%string;
  Issuer_SignOCSP _ _ := ret "ocsp"%string;
  ParseOcspRequest _ := None; csr_EncodeToMemory s := s |}.
#[export] Instance example_porto : Porto := {| WrapWithCtx e m := WithMessage e m |}.
#[export] Instance example_times : TimeLib := {| ParseRFC3339 _ := None |}.

(** ** A service *)

Definition example_service : Service := mkService true (example_keys true).

Definition example_az := NewAuthorizer 0 example_provider.
Definition example_orgs : list Org := [mkOrg 7 "acme" "Acme" "" ItemStatus_Active 1].
Definition example_start : BkState :=
  bk_start 1000 ["pkcs11:k"%string] 0 2 example_az example_orgs.

(** The user of org 7 imports a root. *)
Definition example_import : bk_call :=
  CallImportIssuer (Some (mkImportIssuer "" "" "ca" AuthorityType_Root "pem-ca" "" ""
    "pkcs11:k" "" None)).

(** The backend of another service archives it. *)
Definition example_service_ctx : Context :=
  mkContext (mkIdentity "trustyca-ra" "" "" "tls" None "" [] "" "" "")
    (Some (mkTrusty 0 "" "" 0 Role_None 0 [] "trustyca-ra" "" "" "tls")) [] [].
Definition example_archive : bk_call :=
  CallUpdateIssuer (Some (mkUpdateIssuerRequest (id_string 7) "" (id_string 1000) None
    IssuerStatus_Archived)).

Local Notation example_s1 :=
  (run_call example_service example_ctx example_import example_start).
Local Notation example_s2 :=
  (run_call example_service example_service_ctx example_archive example_s1).

Lemma example_s1_history : rtc (bk_next example_service) example_start example_s1.
Proof. apply rtc_once, next_call. Qed.

Lemma example_s1_issuer : i_ID <$> db_issuers (rg_db (bk_rg example_s1)) = [1000%Z].
Proof. vm_compute. reflexivity. Qed.
Lemma example_s2_status :
  i_Status <$> db_issuers (rg_db (bk_rg example_s2)) = [IssuerStatus_Archived].
Proof. vm_compute. reflexivity. Qed.

(** The registry and the database after both calls. *)
Lemma backend_stays_coherent_witness :
  (i_Status <$> db_issuers (rg_db (bk_rg example_s2)) = [IssuerStatus_Archived]) /\
  coherent 300000 (bk_rg example_s2) /\ db_wf (rg_db (bk_rg example_s2)).
Proof.
  split; [exact example_s2_status|].
  destruct (backend_stays_coherent example_service 0 ltac:(lia) eq_refl 1000
    ["pkcs11:k"%string] 2 example_az example_orgs example_s2) as (Hc & Hw & _).
  - eapply rtc_r; [exact example_s1_history|apply next_call].
  - split; [exact Hc|exact Hw].
Defined.

(** The user of org 7 changes nothing of org 8. *)
Lemma backend_stays_in_org_witness :
  others_same 8 (rg_db (bk_rg example_s1))
    (rg_db (bk_rg (run_call example_service example_ctx example_import example_s1))).
Proof.
  apply (backend_stays_in_org example_service 0 ltac:(lia) eq_refl 1000
    ["pkcs11:k"%string] 2 example_az example_orgs example_s1 example_ctx example_import 8
    example_s1_history).
  right. split; [reflexivity|discriminate].
Defined.

Lemma issuers_live_on_witness :
  exists i i', i ∈ db_issuers (rg_db (bk_rg example_s1)) /\
    i' ∈ db_issuers (rg_db (bk_rg example_s2)) /\ issuer_lives i i'.
Proof.
  destruct (db_issuers (rg_db (bk_rg example_s1))) as [|i rest] eqn:E.
  - pose proof example_s1_issuer as Hi. rewrite E in Hi. discriminate Hi.
  - assert (i ∈ db_issuers (rg_db (bk_rg example_s1))) as Hi by (rewrite E; left).
    destruct (issuers_live_on example_service 0 ltac:(lia) eq_refl 1000
      ["pkcs11:k"%string] 2 example_az example_orgs example_s1 example_s2 i
      example_s1_history) as (i' & Hi' & Hl).
    + apply rtc_once, next_call.
    + exact Hi.
    + exists i, i'. split; [left|]. split; [exact Hi'|exact Hl].
Defined.

(** ** Rows *)

Lemma example_rows_of rows :
  view_rows (az_view example_az) 3 = Ok rows -> unique_grants rows.
Proof.
  intros Hr. assert (rows = example_rows) as ->
    by (vm_compute in Hr; vm_compute; congruence).
  apply example_rows_unique.
Qed.

(** The user reads org-wide issuers but may not activate them. *)
Lemma RowAccess_decides_witness :
  row_permitted (az_view example_az) (FromContext example_ctx) 7 0 CA_GetIssuer /\
  ~ row_permitted (az_view example_az) (FromContext example_ctx) 7 0 CA_ActivateIssuer.
Proof.
  split.
  - apply (RowAccess_decides example_ctx 7 0 CA_GetIssuer "issuer" example_start
      ltac:(discriminate) ltac:(by split) ltac:(by split)
      ltac:(vm_compute; discriminate) example_rows_of).
    vm_compute. reflexivity.
  - intros Hp.
    apply (RowAccess_decides example_ctx 7 0 CA_ActivateIssuer "issuer" example_start
      ltac:(discriminate) ltac:(by split) ltac:(by split)
      ltac:(vm_compute; discriminate) example_rows_of) in Hp.
    vm_compute in Hp. discriminate Hp.
Defined.

(** The imported root of the example. *)
Definition example_import_request : ImportRequest :=
  mkImport 7 0 "ca" AuthorityType_Root "pem-ca" "" "" "pkcs11:k" "" None.
Local Notation example_imported :=
  (ImportIssuer (example_keys true) (Some example_import_request) ["pkcs11:k"%string]).
Definition example_row : Issuer :=
  match example_imported.1 with Ok m => m | Err _ => example_issuer end.

(** A root whose key a provider generates. *)
Definition example_root_request : IssuerRequest :=
  mkIssuerRequest 7 0 "ca" AuthorityType_Root (Some (mkSubject "ca" [] "")) [] []
    None (Some "hsm"%string) None.
Definition example_root_profile : CertProfile :=
  @mkCertProfile example_pblib "ca" "" [] (mkCAConstraint true 0) false 0 0 [] []
    "" "" "" "" None [] false [] [].
Definition example_root : result Issuer :=
  (NewRootIssuer (example_keys true) (Some example_root_request) "root"
     (Some example_root_profile) ["pkcs11:k"%string]).1.
Definition example_root_row : Issuer :=
  match example_root with Ok m => m | Err _ => example_issuer end.

(** A root whose key a provider generates, and an imported one. *)
Lemma new_issuers_sound_witness :
  (exists crt, certificate_of example_root_row crt /\
     key_columns (example_keys true) example_root_request example_root_row
       (crt_PublicKey crt)) /\
  i_KeyID example_root_row = "pkcs11:k"%string /\
  (exists crt signer w1,
     Signer (example_keys true) example_row ["pkcs11:k"%string] = (Ok signer, w1) /\
     keyed example_row crt signer).
Proof.
  destruct (new_issuers_sound (example_keys true) ["pkcs11:k"%string]
    ["pkcs11:k"%string] example_root_row) as (Hr & _).
  destruct (new_issuers_sound (example_keys true) ["pkcs11:k"%string]
    ["pkcs11:k"%string] example_row) as (_ & _ & _ & Hi & _).
  destruct (Hr example_root_request "root"%string (Some example_root_profile))
    as (_ & _ & Hroot).
  { vm_compute. reflexivity. }
  destruct (Hi example_import_request) as (_ & (crt & signer & w1 & Hl & Hk & _) & _).
  { vm_compute. reflexivity. }
  split; [exact Hroot|]. split; [vm_compute; reflexivity|].
  exists crt, signer, w1. split; [exact Hl|exact Hk].
Defined.

Lemma example_s1_wf : db_wf (rg_db (bk_rg example_s1)).
Proof.
  destruct (bk_next_rtc example_service 0 ltac:(lia) eq_refl _ _ example_s1_history)
    as [[_ [Hw _]] _]; [|exact Hw]. by apply bk_start_ok.
Qed.

Lemma example_s1_projects row :
  row ∈ db_issuers (rg_db (bk_rg example_s1)) -> is_uint64 (i_ProjectID row).
Proof.
  intros Hr.
  assert (i_ProjectID <$> db_issuers (rg_db (bk_rg example_s1)) = [0%Z]) as E
    by (vm_compute; reflexivity).
  apply (list_elem_of_fmap_2 i_ProjectID) in Hr. rewrite E in Hr.
  apply list_elem_of_singleton in Hr as ->. by split.
Qed.
Lemma example_s1_orgs row :
  row ∈ db_issuers (rg_db (bk_rg example_s1)) -> i_OrgID row = 7%Z.
Proof.
  intros Hr.
  assert (i_OrgID <$> db_issuers (rg_db (bk_rg example_s1)) = [7%Z]) as E
    by (vm_compute; reflexivity).
  apply (list_elem_of_fmap_2 i_OrgID) in Hr. rewrite E in Hr.
  by apply list_elem_of_singleton in Hr.
Qed.
Lemma example_s1_rows rows :
  view_rows (az_view (bk_az example_s1)) 3 = Ok rows -> unique_grants rows.
Proof.
  intros Hr. assert (rows = example_rows) as ->
    by (vm_compute in Hr; vm_compute; congruence).
  apply example_rows_unique.
Qed.

Lemma example_id : parseID (id_string 1000) "issuer ID" = Ok 1000%Z.
Proof. vm_compute. reflexivity. Qed.
Lemma example_method : methodRoles CA_GetIssuer <> [].
Proof. vm_compute. discriminate. Qed.

(** The user finds the imported issuer, which for org 8 does not exist. *)
Lemma issuer_lookup_decides_witness :
  (exists row, in_request (rg_db (bk_rg example_s1)) 7 0 1000 row /\
     row_permitted (az_view (bk_az example_s1)) (FromContext example_ctx) 7
       (i_ProjectID row) CA_GetIssuer) /\
  (scope_Issuer example_ctx 8 0 (id_string 1000) CA_GetIssuer example_s1).1
    = Err (Grpc NotFound "issuer not found").
Proof.
  split.
  - destruct ((scope_Issuer example_ctx 7 0 (id_string 1000) CA_GetIssuer
      example_s1).1) as [row|e] eqn:E; [|vm_compute in E; discriminate E].
    exists row. apply (issuer_lookup_decides example_ctx 7 0 1000 (id_string 1000)
      CA_GetIssuer example_s1 example_s1_wf example_id
      ltac:(discriminate) example_s1_projects ltac:(by split) example_method
      example_s1_rows). exact E.
  - apply (issuer_lookup_decides example_ctx 8 0 1000 (id_string 1000)
      CA_GetIssuer example_s1 example_s1_wf example_id
      ltac:(discriminate) example_s1_projects ltac:(by split) example_method
      example_s1_rows).
    intros row (Hr & _ & Ho & _). rewrite (example_s1_orgs row Hr) in Ho.
    discriminate Ho.
Defined.

(** ** Responses *)

(** The responder over the database with a revoked certificate. *)
Definition example_responder : BkState :=
  mkBk example_publisher example_az example_orgs [].

(** The summary of the org with one issuer. *)
Local Notation example_summary_run :=
  (Service_GetSummary example_ctx (Some (mkGetSummary "" "")) example_s1).
Definition summary_of (r : result SummaryResponse) : SummaryResponse :=
  match r with
  | Ok r => r
  | Err _ => mkSummaryResponse 0 [] [] [] (mkCrlCounts 0 0 0 0 0)
  end.
Definition is_summary (r : result SummaryResponse) : bool :=
  match r with Ok _ => true | Err _ => false end.
Lemma is_summary_eq {S} (x : result SummaryResponse * S) :
  is_summary x.1 = true -> x = (Ok (summary_of x.1), x.2).
Proof. by destruct x as [[r|e] s]. Qed.
Definition example_summary : SummaryResponse := summary_of example_summary_run.1.

Lemma example_summary_ok :
  example_summary_run = (Ok example_summary, example_summary_run.2).
Proof. unfold example_summary. apply is_summary_eq. vm_compute. reflexivity. Qed.

Lemma summary_counts_saturate_witness :
  sp_Issuers example_summary =
    [(IssuerStatus_Pending, 0); (IssuerStatus_Active, 1); (IssuerStatus_Archived, 0);
     (IssuerStatus_Destroyed, 0)]%Z /\
  Forall (fun n => 0 <= n <= MaxUint32)%Z (summary_values example_summary).
Proof.
  split; [vm_compute; reflexivity|].
  destruct (summary_counts_saturate example_ctx (mkGetSummary "" "") example_s1
    example_summary_run.2 example_summary example_summary_ok)
    as (o & p & v & n & _ & _ & _ & _ & _ & Hf).
  exact Hf.
Defined.
