(* ===== verification/Bootstrap.v ===== *)
(** The platform bootstrap: [internal/ca/bootstrap.go].

    A start mirrors the issuers, trust anchors and profiles of a ca-config
    into the platform rows, those without an org, and loads the issuers it
    enables.  The files, the loader of the configuration and the PEM bundles
    are the class [BootLib]; the files do not change during a start.

    Several instances start against one database: [others] is what they
    commit between the lookup of an issuer, by its label, and its insert. *)
From Stdlib Require Import ZArith Lia.
From stdpp Require Import base list gmap strings sorting.
From S2P Require Import Prelude GoStrings Xdb Tenancy Model Query Sql CaQuery CaDb PathLength Base64 Keys Pbconv Lru Registry Access RowPb IssuerBuild.

(** ** The configuration *)

Section config.
Context `{PbLib}.

(** [authority.IssuerConfig]: the settings and the files of an issuer. *)
Record FileIssuer := mkFileIssuer {
  fi_Config : AuthIssuerConfig; fi_Disabled : bool; fi_CertFile : string;
  fi_KeyFile : string; fi_CABundleFile : string; fi_RootBundleFile : string }.
Definition fi_Label (iss : FileIssuer) : string := ac_Label (fi_Config iss).

(** [authority.CAConfig]: what the bootstrap reads of it. *)
Record CAConfig := mkCAConfig {
  ca_Issuers : list FileIssuer; ca_CABundleFiles : list string;
  ca_RootsBundleFiles : list string }.

(** [authority.Config]; a nil profile is [None]. *)
Record AuthorityConfig := mkAuthorityConfig {
  cf_Authority : option CAConfig;
  cf_Profiles : gmap string (option CertProfile) }.
End config.

Class BootLib `{PbLib} := {
  os_ReadFile : string -> result string;
  LoadPEMFiles : list string -> result string;
  ParseChainFromPEM : string -> result (list x509_Certificate);
  JoinPEM : string -> string -> string;
  ExpandPath : string -> string;
  (** [configloader.Unmarshal]: the values as written *)
  configloader_Unmarshal : string -> result AuthorityConfig;
  (** [authority.LoadConfig]: the values expanded *)
  authority_LoadConfig : string -> result AuthorityConfig }.

Definition IssuerIDVariable : string := "${ISSUER_ID}".
Definition IssuerIDPlaceholder : string := ":ISSUER_ID".
Definition issuerIDEnvVariables : list string := [IssuerIDVariable; "$ISSUER_ID"%string].

Section load.
Context `{BootLib}.

Definition namesIssuer (tmpl : string) : bool :=
  existsb (Contains tmpl) issuerIDEnvVariables.

(** The loop over the URL templates of an issuer. *)
Fixpoint checkTemplates (label : string) (tmpls : list string) : result unit :=
  match tmpls with
  | [] => Ok tt
  | tmpl :: rest =>
      if namesIssuer tmpl
      then Err (OtherError ("issuer " ++ label ++ ": the URL template " ++ tmpl ++
             " names the issuer as an environment variable, which the config" ++
             " loader expands: use " ++ IssuerIDPlaceholder))
      else checkTemplates label rest
  end.

Fixpoint checkIssuers (l : list FileIssuer) : result unit :=
  match l with
  | [] => Ok tt
  | iss :: rest =>
      let? _ :=
        match ac_AIA (fi_Config iss) with
        | None => Ok tt
        | Some a => checkTemplates (fi_Label iss)
                      [aia_AiaURL a; aia_CrlURL a; aia_OcspURL a]
        end in
      checkIssuers rest
  end.

Definition LoadBootstrapConfig (path : string) : result AuthorityConfig :=
  if bool_decide (path = EmptyString)
  then Err (OtherError "CA config path is required")
  else
  let? raw := with_message_r "unable to read CA config"
                (configloader_Unmarshal (ExpandPath path)) in
  let? _ := match cf_Authority raw with
            | None => Ok tt
            | Some a => checkIssuers (ca_Issuers a)
            end in
  with_message_r "unable to load CA config" (authority_LoadConfig path).

(** A configuration that is loaded names no issuer in a URL template, as it
    was written, by the variable the loader expands. *)
Lemma LoadBootstrapConfig_ok path cfg :
  LoadBootstrapConfig path = Ok cfg ->
  exists raw, configloader_Unmarshal (ExpandPath path) = Ok raw /\
    forall a iss aia, cf_Authority raw = Some a -> iss ∈ ca_Issuers a ->
      ac_AIA (fi_Config iss) = Some aia ->
      Forall (fun tmpl => namesIssuer tmpl = false)
        [aia_AiaURL aia; aia_CrlURL aia; aia_OcspURL aia].
Proof.
  unfold LoadBootstrapConfig. destruct (bool_decide _); [done|].
  destruct (configloader_Unmarshal _) as [raw|]; [|done]. simpl. intros E.
  exists raw. split; [done|]. intros a iss aia Ha Hin Haia. rewrite Ha in E.
  clear Ha. induction (ca_Issuers a) as [|j l IH]; [by apply elem_of_nil in Hin|].
  cbn [checkIssuers] in E. apply elem_of_cons in Hin as [<-|Hin].
  - rewrite Haia in E. simpl in E.
    destruct (namesIssuer (aia_AiaURL aia)) eqn:E1; [done|].
    destruct (namesIssuer (aia_CrlURL aia)) eqn:E2; [done|].
    destruct (namesIssuer (aia_OcspURL aia)) eqn:E3; [done|].
    by repeat constructor.
  - apply IH; [|done]. destruct (ac_AIA (fi_Config j)) as [b|]; [|exact E].
    destruct (checkTemplates (fi_Label j) _); [exact E|done].
Qed.
End load.

(** ** The bootstrap *)

Record BootstrapResult := mkBootstrapResult {
  br_Issuers : Z; br_Updated : Z; br_Archived : Z; br_Roots : Z;
  br_Profiles : Z }.

Record issuerOutcome := mkOutcome {
  oc_registered : bool; oc_updated : bool; oc_root : bool }.

Section bootstrap.
Context `{Xdb, Codec, IdGen, ChainLib, ProfileCodec, PbLib, KeyLib, !Authority, !IssuerLib, !BootLib, LRU}.

Definition issuerType (crt : x509_Certificate) : AuthorityType_Enum :=
  if IsSelfSigned crt then AuthorityType_Root
  else if (x_MaxPathLen crt =? 0)%Z && x_MaxPathLenZero crt
  then AuthorityType_Issuing
  else AuthorityType_Intermediate.

(** The loop over the certificates of the bundle. *)
Fixpoint registerCerts (certs : list x509_Certificate) (count : Z) : M RgState Z :=
  match certs with
  | [] => ret count
  | crt :: rest =>
      if negb (IsSelfSigned crt) then registerCerts rest count
      else
      let! pem := lift_result (with_message_r "unable to encode root certificate"
                                 (EncodeToPEMString crt)) in
      with_message ("unable to register root " ++ x_Subject crt)
        (in_db (RegisterRoot (NewRootCertificate crt 0 Trust_Private pem))) ;;;
      registerCerts rest (count + 1)
  end.

Definition registerRoots (bundle : string) : M RgState Z :=
  if bool_decide (TrimSpace bundle = EmptyString) then ret 0%Z
  else
  let! certs := lift_result (with_message_r "invalid root bundle"
                               (ParseChainFromPEM bundle)) in
  registerCerts certs 0.

(** Whether the issuer was archived. *)
Definition archiveIssuer (label : string) : M RgState bool :=
  guard (negb (bool_decide (label = EmptyString)))
    (OtherError "label is required") ;;;
  catch (in_db (FindIssuer 0 0 label)) (fun r =>
    match r with
    | Err e => if IsNotFoundError e then ret false
               else fail (WithMessage e "unable to find issuer")
    | Ok existing =>
        if negb (bool_decide (i_Status existing = IssuerStatus_Active))
        then ret false
        else
        let! row := with_message "unable to archive issuer" (in_db (UpdateIssuer
          (mkUpdateIssuer (i_ID existing) 0 IssuerStatus_Archived EmptyString))) in
        InvalidateIssuer (Some row) ;;;
        ret true
    end).

(** The status an update sets; none for an issuer that is Active. *)
Definition refreshStatus (st : IssuerStatus_Enum) : result IssuerStatus_Enum :=
  match st with
  | IssuerStatus_Active => Ok IssuerStatus_Unknown
  | IssuerStatus_Archived => Ok IssuerStatus_Active
  | _ => Err (OtherError ("the registered issuer is " ++ IssuerStatus_String st ++
                          ": register it under another label"))
  end.

(** The settings an update sets; empty when they are the same. *)
Definition refreshConfig (existing : Issuer) (cfg : IssuerConfig)
  : result string :=
  let? current := GetConfig (id_string (i_ID existing)) (i_Config existing) in
  if bool_decide (current = cfg) then Ok EmptyString
  else with_message_r "unable to marshal JSON value" (marshal_IssuerConfig cfg).

(** Whether the row was updated. *)
Definition refreshRow (existing : Issuer) (status : IssuerStatus_Enum)
    (config : string) : M RgState bool :=
  if negb (bool_decide (status = IssuerStatus_Unknown)) ||
     negb (bool_decide (config = EmptyString))
  then
    let! row := with_message "unable to update issuer" (in_db (UpdateIssuer
                  (mkUpdateIssuer (i_ID existing) 0 status config))) in
    InvalidateIssuer (Some row) ;;;
    ret true
  else ret false.

(** Whether the issuer is a root, whose anchor is registered again. *)
Definition refreshRoot (existing : Issuer) : M RgState bool :=
  if bool_decide (i_Type existing = AuthorityType_Root)
  then
    let! crt := lift_result (parsedPEM "invalid stored certificate"
                               (i_Pem existing)) in
    with_message "unable to register root" (in_db (RegisterRoot
      (NewRootCertificate crt 0 Trust_Private (i_Pem existing)))) ;;;
    ret true
  else ret false.

Definition refreshIssuer (existing : Issuer) (crt : x509_Certificate)
    (cfg : IssuerConfig) : M RgState issuerOutcome :=
  let! status := lift_result (refreshStatus (i_Status existing)) in
  guard (bool_decide (x_Sha256 crt = i_Sha256 existing))
    (OtherError ("the certificate " ++ x_Sha256 crt ++
       " is not the registered certificate " ++ i_Sha256 existing ++ " of key " ++
       i_Skid existing ++ ": a renewal must use a new key")) ;;;
  let! config := lift_result (refreshConfig existing cfg) in
  let! updated := refreshRow existing status config in
  let! root := refreshRoot existing in
  ret (mkOutcome false updated root).

(** The key of the file: a key URI, or key material. *)
Definition importFileKey (k : Keys) (key keyLabel : string)
    (crt : x509_Certificate) : M world (signer_t * KeyRef) :=
  if IsKeyURI key then ImportKey k key EmptyString keyLabel (crt_PublicKey crt)
  else ImportKey k EmptyString key keyLabel (crt_PublicKey crt).

(** The bundle of the file, when the issuer names one, before the common
    one. *)
Definition fileBundle (file what common : string) : result string :=
  if bool_decide (file = EmptyString) then Ok common
  else let? b := with_message_r ("unable to read " ++ what) (os_ReadFile file) in
       Ok (JoinPEM b common).

(** The platform parent with the authority key of the certificate. *)
Definition withParent (skid : string) (m : Issuer) : M RgState Issuer :=
  let ikid := i_Ikid m in
  if negb (bool_decide (ikid = EmptyString)) && negb (bool_decide (ikid = skid))
  then
    catch (in_db (GetIssuerBySKID ikid)) (fun r =>
      match r with
      | Ok parent => if IsZero (i_OrgID parent)
                     then ret (set_i_ParentID (i_ID parent) m) else ret m
      | Err e => if IsNotFoundError e then ret m
                 else fail (WithMessage e "unable to find parent issuer")
      end)
  else ret m.

Definition errNewKey (skid registered : string) : error :=
  OtherError ("the certificate is for key " ++ skid ++
    " and the registered issuer has key " ++ registered ++
    ": archive the registered issuer under another label before renewing it").

(** The row of a new issuer and its anchor, and the settings it stores. *)
Definition newBootIssuer (k : Keys) (iss : FileIssuer) (crt : x509_Certificate)
    (cfg : IssuerConfig) (caBundle rootBundle : string)
  : M RgState (Issuer * option RootCertificate) :=
  let label := fi_Label iss in
  let! key := lift_result (with_message_r "unable to read key"
                             (os_ReadFile (fi_KeyFile iss))) in
  let! sr := in_world (importFileKey k (TrimSpace key) (KeyLabel 0 0 label) crt) in
  let! chainPEM := lift_result (fileBundle (fi_CABundleFile iss) "CA bundle" caBundle) in
  let! rootPEM := lift_result (fileBundle (fi_RootBundleFile iss) "root bundle"
                                 rootBundle) in
  let m := KeyRef_Apply sr.2 (bareIssuer 0 0 label (issuerType crt)
                                IssuerStatus_Active) in
  let! config := lift_result (SetConfig (Some cfg)) in
  let! m := lift_result (setVerifiedCertificate (set_i_Config config m) (Some cfg)
                           crt chainPEM rootPEM sr.1) in
  let! m := withParent (x_SubjectKeyID crt) m in
  ret (m, if bool_decide (i_Type m = AuthorityType_Root)
          then Some (NewRootCertificate crt 0 Trust_Private (i_Pem m))
          else None).

(** The insert of the row, or the row another instance inserted. *)
Definition insertBootIssuer (label : string) (crt : x509_Certificate)
    (cfg : IssuerConfig) (m : Issuer) (anchor : option RootCertificate)
  : M RgState issuerOutcome :=
  let skid := x_SubjectKeyID crt in
  catch (in_db (RegisterIssuer m anchor)) (fun r =>
    match r with
    | Ok row =>
        InvalidateIssuer (Some row) ;;;
        ret (mkOutcome true false (bool_decide (anchor <> None)))
    | Err err =>
        if negb (IsUniqueViolation err EmptyString)
        then fail (WithMessage err "unable to register issuer")
        else
        catch (in_db (FindIssuer 0 0 label)) (fun f =>
          match f with
          | Err ferr =>
              if IsNotFoundError ferr
              then fail (WithMessage err "unable to register issuer")
              else fail (WithMessage ferr "unable to find issuer")
          | Ok existing =>
              if negb (bool_decide (i_Skid existing = skid))
              then fail (errNewKey skid (i_Skid existing))
              else refreshIssuer existing crt cfg
          end)
    end).

Definition bootstrapIssuer (k : Keys) (others : string -> Db -> Db)
    (iss : FileIssuer) (caBundle rootBundle : string) : M RgState issuerOutcome :=
  let label := fi_Label iss in
  guard (negb (bool_decide (label = EmptyString)))
    (OtherError "label is required") ;;;
  let! certPEM := lift_result (with_message_r "unable to read certificate"
                                 (os_ReadFile (fi_CertFile iss))) in
  let! crt := lift_result (parsedPEM "invalid certificate" certPEM) in
  let skid := x_SubjectKeyID crt in
  let cfg := IssuerConfigToPb (fi_Config iss) in
  catch (in_db (FindIssuer 0 0 label)) (fun r =>
    match r with
    | Ok existing =>
        if bool_decide (i_Skid existing = skid)
        then refreshIssuer existing crt cfg
        else fail (errNewKey skid (i_Skid existing))
    | Err e =>
        if negb (IsNotFoundError e)
        then fail (WithMessage e "unable to find issuer")
        else
        let! ma := newBootIssuer k iss crt cfg caBundle rootBundle in
        modify (fun s => set_rg_db (others label (rg_db s)) s) ;;;
        insertBootIssuer label crt cfg ma.1 ma.2
    end).

Definition count (b : bool) (n : Z) : Z := if b then (n + 1)%Z else n.

(** The loop over the issuers: the counts and the enabled labels. *)
Fixpoint bootstrapIssuers (k : Keys) (others : string -> Db -> Db)
    (caBundle rootBundle : string) (l : list FileIssuer)
    (res : BootstrapResult) (enabled : list string)
  : M RgState (BootstrapResult * list string) :=
  match l with
  | [] => ret (res, enabled)
  | iss :: rest =>
      let label := fi_Label iss in
      if fi_Disabled iss then
        let! archived := with_message ("issuer " ++ label) (archiveIssuer label) in
        bootstrapIssuers k others caBundle rootBundle rest
          (mkBootstrapResult (br_Issuers res) (br_Updated res)
             (count archived (br_Archived res)) (br_Roots res) (br_Profiles res))
          enabled
      else
        let! out := with_message ("issuer " ++ label)
                      (bootstrapIssuer k others iss caBundle rootBundle) in
        bootstrapIssuers k others caBundle rootBundle rest
          (mkBootstrapResult (count (oc_registered out) (br_Issuers res))
             (count (oc_updated out) (br_Updated res)) (br_Archived res)
             (count (oc_root out) (br_Roots res)) (br_Profiles res))
          (enabled ++ [label])
  end.

Definition bootstrapAuthority (k : Keys) (others : string -> Db -> Db)
    (a : CAConfig) : M RgState (BootstrapResult * list string) :=
  let! rootBundle := lift_result (with_message_r "unable to load root bundles"
                                    (LoadPEMFiles (ca_RootsBundleFiles a))) in
  let! caBundle := lift_result (with_message_r "unable to load CA bundles"
                                  (LoadPEMFiles (ca_CABundleFiles a))) in
  let! n := registerRoots rootBundle in
  bootstrapIssuers k others caBundle rootBundle (ca_Issuers a)
    (mkBootstrapResult 0 0 0 n 0) [].

Definition set_cp_IssuerLabel (l : string) (p : CertProfile_pb) : CertProfile_pb :=
  with_identity (cp_ID p) (cp_OrgID p) (cp_ProjectID p) (cp_Label p) l
    (cp_Status p) (cp_CreatedAt p) (cp_UpdatedAt p) p.

(** The row of a profile of the configuration. *)
Definition bootProfile (label : string) (profile : option CertProfile)
  : result CertificateProfile :=
  match profile with
  | None => Err (OtherError ("profile " ++ label ++ " is empty"))
  | Some profile =>
      with_message_r ("profile " ++ label)
        (match ValidateProfile profile with
         | Some e => Err e
         | None =>
             let def := ProfileToPb label profile in
             let def := if bool_decide (cp_IssuerLabel def = EmptyString)
                        then set_cp_IssuerLabel AnyIssuerLabel def else def in
             NewCertificateProfile 0 0 (Some def)
         end)
  end.

(** The loop over the profiles, in the order of their labels. *)
Fixpoint bootstrapProfiles (profiles : gmap string (option CertProfile))
    (labels : list string) (n : Z) : M RgState Z :=
  match labels with
  | [] => ret n
  | label :: rest =>
      let! m := lift_result (bootProfile label (mjoin (profiles !! label))) in
      with_message ("unable to register profile " ++ label)
        (in_db (RegisterProfile m)) ;;;
      InvalidateProfile 0 0 label ;;;
      bootstrapProfiles profiles rest (n + 1)
  end.

Definition profileLabels {A} (m : gmap string A) : list string :=
  merge_sort str_le (map_to_list m).*1.

(** The loop that loads the enabled issuers. *)
Fixpoint loadIssuers (k : Keys) (labels : list string) : M RgState unit :=
  match labels with
  | [] => ret tt
  | label :: rest =>
      let! row := with_message ("issuer " ++ label) (Registry_FindIssuer 0 0 label) in
      with_message ("issuer " ++ label) (entry k row) ;;;
      loadIssuers k rest
  end.

Definition set_br_Profiles (n : Z) (r : BootstrapResult) : BootstrapResult :=
  mkBootstrapResult (br_Issuers r) (br_Updated r) (br_Archived r) (br_Roots r) n.

Definition Bootstrap (k : Keys) (others : string -> Db -> Db)
    (cfg : option AuthorityConfig) : M RgState BootstrapResult :=
  match cfg with
  | None => fail (OtherError "authority configuration is required")
  | Some cfg =>
      let! re := match cf_Authority cfg with
                 | None => ret (mkBootstrapResult 0 0 0 0 0, [])
                 | Some a => bootstrapAuthority k others a
                 end in
      let! n := bootstrapProfiles (cf_Profiles cfg) (profileLabels (cf_Profiles cfg)) 0 in
      loadIssuers k re.2 ;;;
      ret (set_br_Profiles n re.1)
  end.
End bootstrap.
