(* ===== verification/BootstrapFacts.v ===== *)
(** What a platform bootstrap leaves: the invariants of the database it
    keeps, the rows of the configuration it settles, that a second run is
    quiet, and the race of two instances for one issuer. *)
From Stdlib Require Import ZArith Lia.
From stdpp Require Import base list gmap strings sorting.
From S2P Require Import Prelude GoStrings Xdb Tenancy Model Query Sql CaQuery CaDb CaDbFacts CaDbSteps PathLength Base64 Keys Pbconv Lru Registry RegistryFacts RegistryDb Crl CrlFacts IssuerBuild Bootstrap.

(** The row of a new platform issuer of the certificate. *)
Record boot_model `{ChainLib, PbLib, KeyLib, !Authority, !IssuerLib}
    (label : string) (crt : x509_Certificate)
    (cfg : IssuerConfig) (m : Issuer) : Prop := {
  bm_scope : i_ID m = 0%Z /\ i_OrgID m = 0%Z /\ i_ProjectID m = 0%Z /\ i_Label m = label;
  bm_status : i_Status m = IssuerStatus_Active;
  bm_type : i_Type m = issuerType crt;
  bm_key : i_Skid m = x_SubjectKeyID crt /\ i_Sha256 m = x_Sha256 crt;
  bm_config : marshal_IssuerConfig cfg = Ok (i_Config m) }.

Section frame.
Context `{Xdb, Codec, IdGen, ChainLib, ProfileCodec, PbLib, KeyLib, !Authority, !IssuerLib, !BootLib, LRU}.

Lemma kept_withParent skid m : kept (withParent skid m).
Proof. intros d. unfold withParent. kept_steps. Qed.

Lemma kept_newBootIssuer k iss crt cfg ca root :
  kept (newBootIssuer k iss crt cfg ca root).
Proof. intros d. unfold newBootIssuer. kept_steps; apply kept_withParent. Qed.

Lemma kept_loadIssuers k labels : kept (loadIssuers k labels).
Proof.
  intros d. induction labels as [|l labels IH]; simpl; [auto with go|].
  unfold Registry_FindIssuer, with_message. kept_steps; auto. apply kept_entry.
Qed.

Lemma withParent_model label crt cfg skid m s m' s' :
  withParent skid m s = (Ok m', s') -> boot_model label crt cfg m ->
  boot_model label crt cfg m' /\ i_Pem m' = i_Pem m.
Proof.
  unfold withParent, catch. destruct (_ && _); [|by intros [= <- <-]].
  destruct (in_db _ s) as [[p|e] s1].
  - destruct (IsZero _); intros [= <- <-]; [|done].
    by intros [(? & ? & ? & ?) ? ? [? ?] ?].
  - destruct (IsNotFoundError e); [|done]. by intros [= <- <-].
Qed.

(** The anchor of a new root is its certificate. *)
Definition boot_anchor (crt : x509_Certificate) (m : Issuer) : option RootCertificate :=
  if bool_decide (i_Type m = AuthorityType_Root)
  then Some (NewRootCertificate crt 0 Trust_Private (i_Pem m)) else None.

Lemma newBootIssuer_model k iss crt cfg ca root s ma s' :
  newBootIssuer k iss crt cfg ca root s = (Ok ma, s') ->
  boot_model (fi_Label iss) crt cfg ma.1 /\ ma.2 = boot_anchor crt ma.1.
Proof.
  unfold newBootIssuer. intros E. ok_step E. subst.
  rename select (withParent _ _ _ = _) into Hp.
  rename select (setVerifiedCertificate _ _ _ _ _ _ = _) into Hv.
  rename select (SetConfig _ = _) into Hc.
  assert (forall m cfg c i r sg m', setVerifiedCertificate m cfg c i r sg = Ok m' ->
    exists pem chain rt, m' = SetCertificate c pem chain rt m) as Hset.
  { clear. intros m cfg c i r sg m' E. unfold setVerifiedCertificate in E.
    repeat match type of E with result_bind ?x _ = _ => destruct x; [simpl in E|done] end.
    injection E as <-. by eexists _, _, _. }
  apply Hset in Hv as (pem & chain & rt & ->). simpl.
  apply withParent_model with (label := fi_Label iss) (crt := crt) (cfg := cfg) in Hp
    as [Hm _]; [done|].
  simpl in Hc. apply with_message_r_ok in Hc. split; simpl; auto.
Qed.

(** ** Invariants of the database *)

Context (I : Db -> Prop) (others : string -> Db -> Db).
Context (HR : forall m, t_OrgID m = 0%Z -> preserves I (RegisterRoot m)).
Context (HI : forall m anchor, i_OrgID m = 0%Z -> preserves I (RegisterIssuer m anchor)).
Context (HU : forall req, ui_OrgID req = 0%Z -> preserves I (UpdateIssuer req)).
Context (HP : forall m, p_OrgID m = 0%Z -> preserves I (RegisterProfile m)).
Context (HO : forall label d, I d -> I (others label d)).

Local Notation J := (fun s => I (rg_db s)).

Lemma keeps_in_db {A} (m : M Db A) : preserves I m -> preserves J (in_db m).
Proof.
  intros Hm s Hs. specialize (Hm _ Hs). unfold in_db. by destruct (m (rg_db s)).
Qed.
Lemma keeps_kept {A} (m : M RgState A) : kept m -> preserves J m.
Proof. intros Hk s Hs. pose proof (Hk (rg_db s) s eq_refl) as E. by rewrite E. Qed.
Lemma keeps_message {A} msg (m : M RgState A) :
  preserves J m -> preserves J (with_message msg m).
Proof. intros Hm. unfold with_message. preserves_steps; auto. Qed.
Lemma keeps_InvalidateIssuer row : preserves J (InvalidateIssuer row).
Proof. intros s Hs. by destruct row. Qed.
Lemma keeps_FindIssuer o p l : preserves J (in_db (FindIssuer o p l)).
Proof. apply keeps_kept, kept_in_db. auto with go. Qed.

Ltac keeps_step :=
  first
    [ match goal with
      | |- preserves _ (with_message _ _) => apply keeps_message
      | |- preserves _ (in_db (FindIssuer _ _ _)) => apply keeps_FindIssuer
      | |- preserves _ (in_db (UpdateIssuer _)) => by apply keeps_in_db, HU
      | |- preserves _ (in_db (RegisterRoot _)) => by apply keeps_in_db, HR
      | |- preserves _ (in_db (RegisterIssuer _ _)) => apply keeps_in_db, HI
      | |- preserves _ (InvalidateIssuer _) => apply keeps_InvalidateIssuer
      | |- preserves _ (modify _) => by intros ? ?
      | |- preserves _ (let '(_, _) := ?x in _) => destruct x
      end
    | preserves_step ].
Ltac keeps_steps := repeat keeps_step.

Lemma keeps_refreshIssuer existing crt cfg :
  preserves J (refreshIssuer existing crt cfg).
Proof. unfold refreshIssuer, refreshRow, refreshRoot. keeps_steps. Qed.

Lemma keeps_archiveIssuer label : preserves J (archiveIssuer label).
Proof. unfold archiveIssuer. keeps_steps. Qed.

Lemma keeps_insertBootIssuer label crt cfg m anchor :
  i_OrgID m = 0%Z -> preserves J (insertBootIssuer label crt cfg m anchor).
Proof.
  intros Hm. unfold insertBootIssuer. keeps_steps; [done|].
  apply keeps_refreshIssuer.
Qed.

Lemma keeps_newInsert k iss crt cfg ca root :
  preserves J (
    let! ma := newBootIssuer k iss crt cfg ca root in
    modify (fun s => set_rg_db (others (fi_Label iss) (rg_db s)) s) ;;;
    insertBootIssuer (fi_Label iss) crt cfg ma.1 ma.2).
Proof.
  intros s Hs. unfold bind at 1.
  destruct (newBootIssuer _ _ _ _ _ _ s) as [[ma|er] s1] eqn:E;
    pose proof (kept_ok _ _ _ _ (kept_newBootIssuer _ _ _ _ _ _) E) as Ed.
  - apply newBootIssuer_model in E as [[(_ & Ho & _) _ _ _ _] _].
    refine (keeps_insertBootIssuer _ _ _ _ _ Ho _ _). simpl. apply HO. by rewrite Ed.
  - simpl. by rewrite Ed.
Qed.

Lemma keeps_bootstrapIssuer k iss ca root :
  preserves J (bootstrapIssuer k others iss ca root).
Proof.
  unfold bootstrapIssuer.
  repeat first [apply keeps_newInsert | apply keeps_refreshIssuer | keeps_step].
Qed.

Lemma keeps_registerCerts certs n : preserves J (registerCerts certs n).
Proof.
  revert n. induction certs as [|c certs IH]; intros n; simpl; keeps_steps; auto.
Qed.

Lemma keeps_bootstrapIssuers k ca root l res en :
  preserves J (bootstrapIssuers k others ca root l res en).
Proof.
  revert res en. induction l as [|iss l IH]; intros res en; simpl; keeps_steps; auto.
  - apply keeps_archiveIssuer.
  - apply keeps_bootstrapIssuer.
Qed.

Lemma bootProfile_scope label p m :
  bootProfile label p = Ok m ->
  p_OrgID m = 0%Z /\ p_ProjectID m = 0%Z /\ p_Label m = label.
Proof.
  unfold bootProfile. destruct p as [p|]; [|done].
  intros E. apply with_message_r_ok in E.
  destruct (ValidateProfile p); [done|]. unfold NewCertificateProfile in E.
  destruct (CertificateProfile_SetConfig _); [|done]. simpl in E. injection E as <-.
  split_and!; [done..|]. simpl. by case_bool_decide.
Qed.

Lemma keeps_bootstrapProfiles ps labels n :
  preserves J (bootstrapProfiles ps labels n).
Proof.
  revert n. induction labels as [|l labels IH]; intros n; simpl; keeps_steps;
    [|by intros s Hs|auto]. apply keeps_in_db, HP. by eapply bootProfile_scope.
Qed.

Lemma keeps_Bootstrap k cfg : preserves J (Bootstrap k others cfg).
Proof.
  unfold Bootstrap, bootstrapAuthority, registerRoots. keeps_steps.
  - apply keeps_registerCerts.
  - apply keeps_bootstrapIssuers.
  - apply keeps_bootstrapProfiles.
  - apply keeps_kept, kept_loadIssuers.
Qed.
End frame.

(** ** Settled issuers *)

(** The JSON of the settings is read back, and is not empty. *)
Class ConfigLaws `{Codec, IssuerLib} := {
  unmarshal_marshal_config cfg j :
    marshal_IssuerConfig cfg = Ok j -> unmarshal_IssuerConfig j = Some cfg;
  marshal_config_nonempty cfg j : marshal_IssuerConfig cfg = Ok j -> j <> EmptyString;
  marshal_config_empty cfg :
    marshal_IssuerConfig cfg = Ok emptyJSON -> cfg = emptyIssuerConfig }.

(** A platform anchor of the certificate is registered, and registering the
    one of [t] again is valid. *)
Definition root_kept (d : Db) (t : RootCertificate) : Prop :=
  RootCertificate_Validate t = Ok tt /\
  exists old, old ∈ db_roots d /\ t_Sha256 old = t_Sha256 t /\ t_OrgID old = 0%Z.

(** Only the roots and the generator of IDs differ. *)
Definition roots_only (d d' : Db) : Prop :=
  exists n rows, d' = tab_set roots rows (set_seq n d).

Section settled.
Context `{XdbLaws, Codec, IdGen, ChainLib, ProfileCodec, PbLib, KeyLib, !Authority, !IssuerLib, !BootLib, LRU}.

(** The certificate of the configuration. *)
Definition file_certificate (iss : FileIssuer) : result x509_Certificate :=
  let? pem := with_message_r "unable to read certificate"
                (os_ReadFile (fi_CertFile iss)) in
  parsedPEM "invalid certificate" pem.

(** The platform anchor of the stored certificate of a root. *)
Definition anchored (d : Db) (row : Issuer) : Prop :=
  i_Type row = AuthorityType_Root ->
  exists c, ParseFromPEM (i_Pem row) = Some c /\
    root_kept d (NewRootCertificate c 0 Trust_Private (i_Pem row)).

(** The row is the Active issuer of the certificate with the settings. *)
Definition boot_row (d : Db) (crt : x509_Certificate) (cfg : IssuerConfig)
    (row : Issuer) : Prop :=
  i_Skid row = x_SubjectKeyID crt /\ i_Sha256 row = x_Sha256 crt /\
  i_Status row = IssuerStatus_Active /\
  GetConfig (id_string (i_ID row)) (i_Config row) = Ok cfg /\ anchored d row.

(** What a bootstrap makes of an issuer of the configuration: the platform
    row of its label is that issuer, or, when the configuration disables it,
    no row of the label is Active. *)
Definition settled (d : Db) (iss : FileIssuer) : Prop :=
  fi_Label iss <> EmptyString /\
  if fi_Disabled iss
  then forall row, issuer_at d 0 0 (fi_Label iss) = Some row ->
       i_Status row <> IssuerStatus_Active
  else exists crt row, file_certificate iss = Ok crt /\
       issuer_at d 0 0 (fi_Label iss) = Some row /\
       boot_row d crt (IssuerConfigToPb (fi_Config iss)) row.

(** *** Anchors *)

Lemma catch_exec_ok (f : list RootCertificate -> result (RootCertificate * list RootCertificate))
 d x d' :
  catch (exec roots f) (fun r => match r with
    | Ok res => ret res
    | Err e => if IsNotFoundError e then fail ErrRootConflict else fail e
    end) d = (Ok x, d') ->
  exists rows, f (db_roots d) = Ok (x, rows) /\ d' = tab_set roots rows d.
Proof.
  unfold catch, exec. simpl. destruct (f (db_roots d)) as [[a rows]|e].
  - intros [= -> <-]. by exists rows.
  - simpl. by destruct (IsNotFoundError e).
Qed.

Lemma RegisterRoot_anchor t d x d' :
  t_OrgID t = 0%Z -> RegisterRoot t d = (Ok x, d') ->
  roots_only d d' /\ root_kept d' t /\ forall t', root_kept d t' -> root_kept d' t'.
Proof.
  intros Ho. unfold RegisterRoot. intros E.
  apply bind_ok in E as (id & d1 & E1 & E).
  assert (exists n, d1 = set_seq n d) as [n ->].
  { pose proof (quiet_ensureID (t_ID t) d) as [n Hn]. rewrite E1 in Hn. by exists n. }
  ok_step E. rename select (Now _ = _) into En. apply Now_ok in En as [-> ->].
  rename select (RootCertificate_Validate _ = _) into Hv.
  apply catch_exec_ok in E as (rows & Hu & ->).
  assert (RootCertificate_Validate t = Ok tt) as Hvt by (by destruct a0).
  apply upsert_row_ok in Hu.
  destruct Hu as [(_ & -> & -> & _)|(old & Hold & Hk & Hw & -> & _ & ->)].
  - split_and!; [by eexists _, _| |].
    + split; [done|]. eexists. split; [apply elem_of_app; right; by left|done].
    + intros t' [Hv' (o & Hin & ?)]. split; [done|]. exists o. split; [|done].
      apply elem_of_app. by left.
  - assert (forall o, o ∈ db_roots d -> exists o', o' ∈ update_all
      (fun y => bool_decide (u_key root_sha256 y = u_key root_sha256
         (set_t_insert id (db_now (set_seq n d)) t)))
      (set_t_Trust (t_Trust (set_t_insert id (db_now (set_seq n d)) t))) (db_roots d) /\
      t_Sha256 o' = t_Sha256 o /\ t_OrgID o' = t_OrgID o) as Hup.
    { intros o Hin. eexists. split; [apply update_all_elem; by eexists|].
      by destruct (bool_decide _). }
    split_and!; [by eexists _, _| |].
    + split; [done|]. destruct (Hup old Hold) as (o' & Hin & Es & Eo).
      exists o'. split; [done|]. simpl in Hk, Hw.
      apply Z.eqb_eq in Hw. simpl in Hw. split; congruence.
    + intros t' [Hv' (o & Hin & Hs & Ho')]. split; [done|].
      destruct (Hup o Hin) as (o' & Hin' & Es & Eo). exists o'. split; [done|].
      split; congruence.
Qed.

Lemma upsert_row_hold {R} (cs : list (unique R)) u r when_ set_ rows old :
  select_row (fun x => bool_decide (u_key u x = u_key u r)) rows = Ok old ->
  when_ old = true ->
  uniques_hold cs (update_all (fun x => bool_decide (u_key u x = u_key u r)) set_ rows) ->
  upsert_row cs u r when_ set_ rows =
    Ok (set_ old, update_all (fun x => bool_decide (u_key u x = u_key u r)) set_ rows).
Proof.
  intros Hs Hw Hu. unfold upsert_row. pose proof Hs as Hf. unfold select_row in Hf.
  destruct (List.find _ _); [|done]. injection Hf as ->. rewrite Hw.
  by apply update_row_hold.
Qed.

Lemma ensureID_run id d : exists a n, ensureID id d = (Ok a, set_seq n d).
Proof.
  unfold ensureID, NextID, ret. destruct (IsZero id); [by eexists _, _|].
  exists id, (db_seq d). by rewrite set_seq_self.
Qed.

(** A platform anchor that is registered is refreshed. *)
Lemma RegisterRoot_again t d :
  db_wf d -> t_OrgID t = 0%Z -> root_kept d t ->
  exists x d', RegisterRoot t d = (Ok x, d').
Proof.
  intros [_ _ [Hu _] _ _] Ho [Hv (old & Hin & Hs & Hoo)]. unfold RegisterRoot.
  destruct (ensureID_run (t_ID t) d) as (id & n & E).
  rewrite (bind_run _ _ _ _ _ E), (bind_run Now _ (set_seq n d) (db_now d) (set_seq n d) eq_refl).
  assert (RootCertificate_Validate (set_t_insert id (db_now d) t) = Ok tt) as ->
    by (by destruct t).
  set (im := set_t_insert id (db_now d) t).
  assert (select_row (fun x => bool_decide (t_Sha256 x = t_Sha256 im)) (db_roots d) =
    Ok old) as Hsel.
  { apply select_row_unique; [done|by apply bool_decide_eq_true|].
    intros y Hy Hw%bool_decide_eq_true.
    apply (NoDup_key_inj t_Sha256 (db_roots d)); [|done..|simpl in Hw; congruence].
    apply (uniques_elem root_uniques _ root_sha256 Hu). right. by left. }
  unfold bind, lift_result, catch, exec.
  change (tab_rows roots (set_seq n d)) with (db_roots d).
  erewrite (upsert_row_hold _ root_sha256); [by eexists _, _|exact Hsel| |].
  - simpl. by rewrite Ho, Hoo.
  - by apply update_all_hold; [|repeat constructor].
Qed.

(** *** Rows of a label *)

(** The platform rows of the other labels are the same and the anchors stay. *)
Definition label_only (label : string) (d d' : Db) : Prop :=
  (forall l, l <> label -> issuer_at d' 0 0 l = issuer_at d 0 0 l) /\
  (forall t, root_kept d t -> root_kept d' t).

#[local] Instance label_only_preorder l : PreOrder (label_only l).
Proof.
  split; [done|]. intros d1 d2 d3 [A1 A2] [B1 B2]. split; [|auto].
  intros l' Hl. by rewrite B1, A1.
Qed.

Lemma roots_only_label l d d' :
  roots_only d d' -> (forall t, root_kept d t -> root_kept d' t) -> label_only l d d'.
Proof. intros (n & rows & ->) Hr. by split. Qed.

Lemma label_only_seq l n d : label_only l d (set_seq n d).
Proof. by split. Qed.

Lemma issuer_at_elem d o p l i :
  issuer_at d o p l = Some i ->
  i ∈ db_issuers d /\ i_OrgID i = o /\ i_ProjectID i = p /\ i_Label i = l.
Proof.
  unfold issuer_at. intros [Hi Hw%FindIssuer_where_true]%find_some.
  by rewrite list_elem_of_In.
Qed.

Lemma settled_label l d d' iss :
  label_only l d d' -> fi_Label iss <> l -> settled d iss -> settled d' iss.
Proof.
  intros [Hi Hr] Hl [Hne Hs]. split; [done|]. rewrite Hi by done.
  destruct (fi_Disabled iss); [done|].
  destruct Hs as (crt & row & Hf & Ha & Hk & Hsha & Hst & Hc & Han).
  exists crt, row. unfold boot_row. split_and!; try done. intros Ht.
  destruct (Han Ht) as (c & ? & ?). exists c. auto.
Qed.

Lemma UpdateIssuer_platform req d row d' label existing :
  db_wf d -> issuer_at d 0 0 label = Some existing -> ui_ID req = i_ID existing ->
  UpdateIssuer req d = (Ok row, d') ->
  row = UpdateIssuer_set req (db_now d) existing /\ db_roots d' = db_roots d /\
  issuer_at d' 0 0 label = Some row /\ label_only label d d'.
Proof.
  intros Hwf Hat Hid E. unfold UpdateIssuer in E. db_ok_step E.
  apply update_row_ok in E as (i & Hi & Hw & -> & -> & _).
  set (w := fun i => (i_ID i =? ui_ID req)%Z && whereOrgIs (ui_OrgID req) (i_OrgID i)) in *.
  destruct (issuer_at_elem _ _ _ _ _ Hat) as (Hin & _ & _ & Hl).
  assert (forall j, j ∈ db_issuers d -> w j = true -> j = existing) as Hu.
  { intros j Hj [Hj1%Z.eqb_eq _]%andb_true_iff.
    destruct Hwf as [_ [Hu _ _ _] _ _ _]. apply (issuer_id_inj _ _ _ Hu Hj Hin).
    congruence. }
  pose proof (Hu i Hi Hw) as ->.
  assert (forall l, issuer_at (tab_set issuers (update_all w
      (UpdateIssuer_set req (db_now d)) (db_issuers d)) d) 0 0 l =
    (fun r => if w r then UpdateIssuer_set req (db_now d) r else r) <$>
      issuer_at d 0 0 l) as Hfind.
  { intros l. unfold issuer_at. cbn [tab_set issuers db_issuers].
    apply find_update_all. intros [] _ _. done. }
  split_and!; [done..| |split; [|done]].
  - rewrite Hfind, Hat. cbn [fmap option_fmap option_map].
    by replace (w existing) with true by (symmetry; exact Hw).
  - intros l Hne. rewrite Hfind. destruct (issuer_at d 0 0 l) as [r|] eqn:Er; [|done].
    simpl. destruct (issuer_at_elem _ _ _ _ _ Er) as (Hr & _ & _ & Hlr).
    destruct (w r) eqn:Ew; [|done]. pose proof (Hu r Hr Ew). congruence.
Qed.

Lemma find_app_new {A} (f : A -> bool) rows r :
  (forall x, x ∈ rows -> f x = false) -> f r = true ->
  List.find f (rows ++ [r]) = Some r.
Proof.
  intros Hn Hr. induction rows as [|x rows IH]; simpl; [by rewrite Hr|].
  rewrite (Hn x ltac:(left)). apply IH. intros y Hy. apply Hn. by right.
Qed.

Lemma registerIssuer_platform im d row d' :
  i_OrgID im = 0%Z -> i_ProjectID im = 0%Z ->
  registerIssuer im d = (Ok row, d') ->
  row = set_i_insert (i_ID im) (db_now d) im /\ db_roots d' = db_roots d /\
  issuer_at d' 0 0 (i_Label im) = Some row /\ label_only (i_Label im) d d'.
Proof.
  intros Ho Hp E. unfold registerIssuer in E. db_ok_step E.
  apply insert_row_ok in E as (-> & -> & Hu). split_and!; [done..| |split; [|done]].
  - unfold issuer_at. simpl. apply find_app_new.
    + intros x Hx. apply not_true_iff_false. rewrite FindIssuer_where_true.
      intros (E1 & E2 & E3).
      unfold uniques_hold in Hu. apply Forall_cons in Hu as [_ Hu].
      apply Forall_cons in Hu as [Hu _]. unfold unique_in in Hu. simpl in Hu.
      rewrite fmap_app in Hu. apply NoDup_app in Hu as (_ & Hd & _).
      apply (Hd (i_OrgID x, i_ProjectID x, i_Label x)).
      * by apply (list_elem_of_fmap_2 (fun i => (i_OrgID i, i_ProjectID i, i_Label i))).
      * simpl. apply list_elem_of_singleton. by rewrite E1, E2, E3, Ho, Hp.
    + apply FindIssuer_where_true. by simpl.
  - intros l Hne. unfold issuer_at. simpl. apply find_snoc.
    apply FindIssuer_where_false. simpl. congruence.
Qed.

Lemma anchored_label l d d' row : label_only l d d' -> anchored d row -> anchored d' row.
Proof. intros [_ Hr] Ha Ht. destruct (Ha Ht) as (c & ? & ?). exists c. auto. Qed.

Lemma checkAnchor_parsed crt im pem :
  i_OrgID im = 0%Z ->
  checkAnchor im (NewRootCertificate crt 0 Trust_Private pem) = Ok tt ->
  exists c, ParseFromPEM pem = Some c /\
    NewRootCertificate c 0 Trust_Private pem = NewRootCertificate crt 0 Trust_Private pem.
Proof.
  unfold checkAnchor. simpl. intros ->. destruct (ParseFromPEM pem) as [c|]; [|done].
  destruct (_ && _) eqn:E; [|done]. intros _. exists c. split; [done|].
  rewrite !andb_true_iff, !bool_decide_eq_true, !Z.eqb_eq in E. simpl in E.
  destruct E as (((((_ & E1) & E2) & E3) & E4) & E5). unfold NewRootCertificate.
  congruence.
Qed.

Lemma RegisterIssuer_platform label crt cfg m d row d' :
  boot_model label crt cfg m ->
  RegisterIssuer m (boot_anchor crt m) d = (Ok row, d') ->
  exists id, row = set_i_insert id (db_now d) m /\
    issuer_at d' 0 0 label = Some row /\ label_only label d d' /\ anchored d' row.
Proof.
  intros [(Hid & Ho & Hp & Hl) _ _ _ _] E. unfold RegisterIssuer in E.
  apply bind_ok in E as (id & d1 & E1 & E). exists id.
  pose proof (quiet_ensureID (i_ID m) d) as [n Hn]. rewrite E1 in Hn. simpl in Hn. subst d1.
  ok_step E. unfold boot_anchor in E.
  change (i_Type (set_i_ID id m)) with (i_Type m) in E.
  destruct (bool_decide_reflect (i_Type m = AuthorityType_Root)) as [Ht|Ht].
  - apply bind_ok in E as ([] & d2 & Ec & E). apply lift_ok in Ec as [Ec ->].
    apply checkAnchor_parsed in Ec as (c & Hc & Heq); [|done].
    db_ok_step E. rename select (registerIssuer _ _ = _) into Er.
    rename select (RegisterRoot _ _ = _) into Et.
    apply registerIssuer_platform in Er as (-> & Hr & Hat & Hlo); [|done..].
    apply RegisterRoot_anchor in Et as (Hro & Hk & Hmono); [|done].
    split; [done|]. change (i_Label (set_i_ID id m)) with (i_Label m) in *. subst label.
    split_and!.
    + destruct Hro as (n' & rows & ->). exact Hat.
    + transitivity (set_seq n d); [apply label_only_seq|]. etransitivity; [exact Hlo|].
      by apply roots_only_label.
    + intros _. exists c. split; [done|]. simpl. by rewrite Heq.
  - apply registerIssuer_platform in E as (-> & Hr & Hat & Hlo); [|done..].
    change (i_Label (set_i_ID id m)) with (i_Label m) in *. subst label.
    split_and!; [done|done|exact Hlo|]. by intros ?.
Qed.

(** *** A registered issuer is refreshed *)

Context `{!ConfigLaws}.

Lemma GetConfig_marshal id cfg j :
  marshal_IssuerConfig cfg = Ok j -> GetConfig id j = Ok cfg.
Proof.
  intros Hm. unfold GetConfig, JSON_IsEmpty.
  destruct (bool_decide_reflect (j = EmptyString)) as [Hj|_]; simpl.
  - by apply marshal_config_nonempty in Hm.
  - destruct (bool_decide_reflect (j = emptyJSON)) as [->|_].
    + by rewrite (marshal_config_empty _ Hm).
    + by rewrite (unmarshal_marshal_config _ _ Hm).
Qed.

Lemma in_db_ok {A} (m : M Db A) s a s' :
  in_db m s = (Ok a, s') <->
  exists d', m (rg_db s) = (Ok a, d') /\ s' = set_rg_db d' s.
Proof.
  unfold in_db. destruct (m (rg_db s)) as [r d]. split.
  - intros [= -> <-]. by exists d.
  - by intros (d' & [= -> ->] & ->).
Qed.

Lemma InvalidateIssuer_db row s u s' :
  InvalidateIssuer row s = (Ok u, s') -> rg_db s' = rg_db s.
Proof. destruct row; by intros [= _ <-]. Qed.

(** The identity a refresh keeps. *)
Definition same_issuer (i j : Issuer) : Prop :=
  i_ID j = i_ID i /\ i_Type j = i_Type i /\ i_Pem j = i_Pem i /\
  i_Skid j = i_Skid i /\ i_Sha256 j = i_Sha256 i.

Lemma refreshRow_ok label existing cfg status config s u s' :
  db_wf (rg_db s) -> issuer_at (rg_db s) 0 0 label = Some existing ->
  refreshStatus (i_Status existing) = Ok status ->
  refreshConfig existing cfg = Ok config ->
  refreshRow existing status config s = (Ok u, s') ->
  exists row, issuer_at (rg_db s') 0 0 label = Some row /\ same_issuer existing row /\
    i_Status row = IssuerStatus_Active /\
    GetConfig (id_string (i_ID row)) (i_Config row) = Ok cfg /\
    label_only label (rg_db s) (rg_db s').
Proof.
  intros Hwf Hat Hst Hcf. unfold refreshRow.
  assert (forall j, config = j -> j <> EmptyString -> marshal_IssuerConfig cfg = Ok j) as Hm.
  { intros j <- Hj. unfold refreshConfig in Hcf. destruct (GetConfig _ _); [|done].
    simpl in Hcf. case_bool_decide; [by simplify_eq|]. by apply with_message_r_ok in Hcf. }
  assert (config = EmptyString ->
    GetConfig (id_string (i_ID existing)) (i_Config existing) = Ok cfg) as Hsame.
  { intros ->. unfold refreshConfig in Hcf. destruct (GetConfig _ _) as [cur|]; [|done].
    simpl in Hcf. case_bool_decide; [by subst|]. apply with_message_r_ok in Hcf.
    by apply marshal_config_nonempty in Hcf. }
  destruct (negb _ || negb _) eqn:Ec; intros E.
  - ok_step E. rename select (with_message _ _ _ = _) into Em.
    apply message_ok in Em. apply in_db_ok in Em as (d1 & Eu & ->).
    apply (UpdateIssuer_platform _ _ _ _ label existing) in Eu as (-> & _ & Hat' & Hlo);
      [|done..].
    rename select (InvalidateIssuer _ _ = _) into Ei.
    apply InvalidateIssuer_db in Ei as ->. eexists.
    split; [exact Hat'|]. simpl. split_and!; try done.
    + unfold UpdateIssuer_set. simpl. destruct (i_Status existing); simpl in *; simplify_eq;
        by rewrite ?bool_decide_true, ?bool_decide_false by done.
    + destruct (bool_decide_reflect (config = EmptyString)) as [He|He]; simpl; auto.
      by apply GetConfig_marshal, Hm.
  - injection E as _ <-. apply orb_false_iff in Ec as [E1 E2].
    apply negb_false_iff, bool_decide_eq_true in E1, E2. exists existing.
    split_and!; auto; [done| |reflexivity].
    destruct (i_Status existing); simpl in *; congruence.
Qed.

Lemma refreshRoot_ok label row s b s' :
  issuer_at (rg_db s) 0 0 label = Some row -> refreshRoot row s = (Ok b, s') ->
  b = bool_decide (i_Type row = AuthorityType_Root) /\ anchored (rg_db s') row /\
  issuer_at (rg_db s') 0 0 label = Some row /\ label_only label (rg_db s) (rg_db s').
Proof.
  unfold refreshRoot, anchored. intros Hat E.
  destruct (bool_decide_reflect (i_Type row = AuthorityType_Root)) as [Ht|Ht].
  - ok_step E. rename select (with_message _ _ _ = _) into Em.
    apply message_ok, in_db_ok in Em as (d1 & Er & ->).
    rename select (parsedPEM _ _ = _) into Hp. unfold parsedPEM in Hp.
    destruct (ParseFromPEM (i_Pem row)) as [c|]; [|done]. injection Hp as ->.
    apply RegisterRoot_anchor in Er as (Hro & Hk & Hmono); [|done].
    split_and!; [done|by exists a| |].
    + destruct Hro as (n & rows & ->). exact Hat.
    + by apply roots_only_label.
  - injection E as <- <-. by split_and!.
Qed.

Lemma refreshRoot_same row row' : same_issuer row row' ->
  refreshRoot row = refreshRoot row'.
Proof. intros (_ & Ht & Hp & _). unfold refreshRoot. by rewrite Ht, Hp. Qed.

Lemma refreshIssuer_ok label existing crt cfg s out s' :
  db_wf (rg_db s) -> issuer_at (rg_db s) 0 0 label = Some existing ->
  i_Skid existing = x_SubjectKeyID crt ->
  refreshIssuer existing crt cfg s = (Ok out, s') ->
  exists row, issuer_at (rg_db s') 0 0 label = Some row /\
    boot_row (rg_db s') crt cfg row /\ label_only label (rg_db s) (rg_db s').
Proof.
  intros Hwf Hat Hk. unfold refreshIssuer. intros E. ok_step E.
  rename select (refreshRow _ _ _ _ = _) into Er. rename select (refreshRoot _ _ = _) into Et.
  rename select (bool_decide _ = true) into Hsha. apply bool_decide_eq_true in Hsha.
  eapply refreshRow_ok in Er as (row & Hat' & Hsame & Hst & Hcfg & Hlo); [|done..].
  rewrite (refreshRoot_same _ _ Hsame) in Et.
  apply (refreshRoot_ok label) in Et as (_ & Han & Hat2 & Hlo2); [|done].
  destruct Hsame as (_ & _ & _ & Ek & Es). exists row. unfold boot_row.
  split_and!; try done; [congruence..|by etransitivity].
Qed.

Lemma archiveIssuer_ok label s b s' :
  db_wf (rg_db s) -> archiveIssuer label s = (Ok b, s') ->
  label <> EmptyString /\ label_only label (rg_db s) (rg_db s') /\
  forall row, issuer_at (rg_db s') 0 0 label = Some row ->
    i_Status row <> IssuerStatus_Active.
Proof.
  intros Hwf. unfold archiveIssuer. intros E.
  apply bind_ok in E as ([] & s1 & Hl & E). apply guard_ok in Hl as [Hl ->].
  apply negb_true_iff, bool_decide_eq_false in Hl. split; [done|].
  unfold catch, in_db in E. pose proof (FindIssuer_run 0 0 label (rg_db s)) as Hf.
  destruct (issuer_at (rg_db s) 0 0 label) as [row|] eqn:Hat.
  - rewrite Hf in E. replace (set_rg_db (rg_db s) s) with s in E by (by destruct s).
    destruct (bool_decide_reflect (i_Status row = IssuerStatus_Active)) as [Ha|Ha];
      cbn [negb] in E.
    + apply bind_ok in E as (row' & s1 & Em & E).
      apply message_ok, in_db_ok in Em as (d1 & Eu & ->).
      apply (UpdateIssuer_platform _ _ _ _ label row) in Eu as (-> & _ & Hat' & Hlo);
        [|done..].
      apply bind_ok in E as (u & s2 & Ei & E). apply InvalidateIssuer_db in Ei.
      injection E as _ <-. rewrite Ei. simpl. split; [done|].
      intros r. rewrite Hat'. by intros [= <-].
    + injection E as _ <-. split; [done|]. intros r. rewrite Hat. by intros [= <-].
  - destruct Hf as (e & He & Hn). rewrite He, Hn in E.
    replace (set_rg_db (rg_db s) s) with s in E by (by destruct s).
    injection E as _ <-. split; [done|]. by rewrite Hat.
Qed.

Lemma boot_model_row label crt cfg m id now d :
  boot_model label crt cfg m -> anchored d (set_i_insert id now m) ->
  boot_row d crt cfg (set_i_insert id now m).
Proof.
  intros [_ Hst _ [Hk Hs] Hc] Ha. unfold boot_row. simpl. split_and!; try done.
  by apply GetConfig_marshal.
Qed.

Lemma insertBootIssuer_ok label crt cfg m s out s' :
  db_wf (rg_db s) -> boot_model label crt cfg m ->
  insertBootIssuer label crt cfg m (boot_anchor crt m) s = (Ok out, s') ->
  exists row, issuer_at (rg_db s') 0 0 label = Some row /\
    boot_row (rg_db s') crt cfg row /\ label_only label (rg_db s) (rg_db s').
Proof.
  intros Hwf Hm. unfold insertBootIssuer, catch, in_db.
  pose proof (RegisterIssuer_mutation m (boot_anchor crt m) (rg_db s) Hwf) as Hmut.
  destruct (RegisterIssuer _ _ (rg_db s)) as [[row|err] d1] eqn:Er; intros E.
  - eapply RegisterIssuer_platform in Er as (id & -> & Hat & Hlo & Han); [|exact Hm].
    apply bind_ok in E as (u & s1 & Ei & E). apply InvalidateIssuer_db in Ei.
    injection E as _ <-. rewrite Ei. simpl. eexists. split; [exact Hat|].
    split; [by eapply boot_model_row|done].
  - destruct Hmut as [n ->]. destruct (IsUniqueViolation _ _); [cbn [negb] in E|done].
    change (rg_db (set_rg_db (set_seq n (rg_db s)) s)) with (set_seq n (rg_db s)) in E.
    pose proof (FindIssuer_run 0 0 label (set_seq n (rg_db s))) as Hf.
    destruct (issuer_at (set_seq n (rg_db s)) 0 0 label) as [row|] eqn:Hat.
    + rewrite Hf in E. destruct (bool_decide_reflect (i_Skid row = x_SubjectKeyID crt))
        as [Hk|Hk]; [|done]. cbn [negb] in E.
      eapply (refreshIssuer_ok label) in E as (row' & Hat' & Hb & Hlo);
        [|by apply seq_stable|done..].
      exists row'. split_and!; [done..|].
      etransitivity; [apply label_only_seq|exact Hlo].
    + destruct Hf as (e & He & Hn). by rewrite He, Hn in E.
Qed.

Lemma file_certificate_read iss pem crt :
  with_message_r "unable to read certificate" (os_ReadFile (fi_CertFile iss)) = Ok pem ->
  parsedPEM "invalid certificate" pem = Ok crt -> file_certificate iss = Ok crt.
Proof. unfold file_certificate. by intros -> ?. Qed.

Lemma bootstrapIssuer_ok k others iss ca root s out s' :
  (forall label d, db_wf d -> db_wf (others label d)) ->
  db_wf (rg_db s) -> fi_Disabled iss = false ->
  bootstrapIssuer k others iss ca root s = (Ok out, s') ->
  settled (rg_db s') iss /\
  exists d1, (d1 = rg_db s \/ d1 = others (fi_Label iss) (rg_db s)) /\
    label_only (fi_Label iss) d1 (rg_db s').
Proof.
  intros Ho Hwf Hen E. unfold bootstrapIssuer in E.
  apply bind_ok in E as ([] & s1 & Hl & E). apply guard_ok in Hl as [Hl ->].
  apply negb_true_iff, bool_decide_eq_false in Hl.
  apply bind_ok in E as (pem & s1 & Hp & E). apply lift_ok in Hp as [Hp ->].
  apply bind_ok in E as (crt & s1 & Hc & E). apply lift_ok in Hc as [Hc ->].
  pose proof (file_certificate_read _ _ _ Hp Hc) as Hf. clear pem Hp Hc.
  unfold settled. rewrite Hen.
  unfold catch at 1, in_db at 1 in E.
  pose proof (FindIssuer_run 0 0 (fi_Label iss) (rg_db s)) as Hfi.
  destruct (issuer_at (rg_db s) 0 0 (fi_Label iss)) as [row|] eqn:Hat.
  - rewrite Hfi in E. replace (set_rg_db (rg_db s) s) with s in E by (by destruct s).
    destruct (bool_decide_reflect (i_Skid row = x_SubjectKeyID crt)) as [Hk|]; [|done].
    eapply (refreshIssuer_ok (fi_Label iss)) in E as (row' & ? & ? & ?); [|done..].
    split; [split; [done|by exists crt, row']|]. eexists. split; [by left|done].
  - destruct Hfi as (e & He & Hn). rewrite He, Hn in E.
    replace (set_rg_db (rg_db s) s) with s in E by (by destruct s). cbn [negb] in E.
    apply bind_ok in E as (ma & s1 & En & E).
    pose proof (kept_ok _ _ _ _ (kept_newBootIssuer _ _ _ _ _ _) En) as Ed.
    apply newBootIssuer_model in En as [Hm Ha]. rewrite Ha in E.
    eapply insertBootIssuer_ok in E as (row & ? & ? & Hlo); [| |exact Hm].
    + split; [split; [done|by exists crt, row]|]. eexists. split; [by right|].
      simpl in Hlo. by rewrite Ed in Hlo.
    + simpl. rewrite Ed. auto.
Qed.

(** *** The database stays well formed *)

Lemma bootstrapIssuer_wf k others iss ca root s :
  (forall label d, db_wf d -> db_wf (others label d)) ->
  db_wf (rg_db s) -> db_wf (rg_db (bootstrapIssuer k others iss ca root s).2).
Proof.
  intros Ho. apply (keeps_bootstrapIssuer db_wf others); auto; intros;
    [apply RegisterRoot_wf|apply RegisterIssuer_wf|apply UpdateIssuer_wf].
Qed.
Lemma archiveIssuer_wf label s :
  db_wf (rg_db s) -> db_wf (rg_db (archiveIssuer label s).2).
Proof. apply (keeps_archiveIssuer db_wf). intros. apply UpdateIssuer_wf. Qed.

(** *** The configuration is mirrored *)

(** What the other instances keep: they run the same configuration. *)
Record respects (l : list FileIssuer) (others : string -> Db -> Db) : Prop := {
  re_wf label d : db_wf d -> db_wf (others label d);
  re_roots label d t : root_kept d t -> root_kept (others label d) t;
  re_settled label d iss :
    db_wf d -> iss ∈ l -> settled d iss -> settled (others label d) iss }.

Definition enabledLabels (l : list FileIssuer) : list string :=
  fi_Label <$> List.filter (fun iss => negb (fi_Disabled iss)) l.

(** Anchors only grow. *)
Definition roots_grow (d d' : Db) : Prop := forall t, root_kept d t -> root_kept d' t.
#[local] Instance roots_grow_preorder : PreOrder roots_grow.
Proof. split; [by intros d t|]. intros d1 d2 d3 A B t Ht. auto. Qed.

(** One issuer of the configuration, the others [l] settled before. *)
Lemma bootstrapStep_ok k others all iss ca root l s s' :
  respects all others -> l ⊆ all -> db_wf (rg_db s) ->
  (forall i, i ∈ l -> fi_Label i <> fi_Label iss) ->
  Forall (settled (rg_db s)) l ->
  (if fi_Disabled iss then exists b, archiveIssuer (fi_Label iss) s = (Ok b, s')
   else exists out, bootstrapIssuer k others iss ca root s = (Ok out, s')) ->
  db_wf (rg_db s') /\ Forall (settled (rg_db s')) (l ++ [iss]) /\
  roots_grow (rg_db s) (rg_db s').
Proof.
  intros Hre Hsub Hwf Hne Hl E. rewrite Forall_app, Forall_singleton.
  destruct (fi_Disabled iss) eqn:Hd.
  - destruct E as [b E]. pose proof (archiveIssuer_wf (fi_Label iss) s Hwf) as Hwf'.
    rewrite E in Hwf'. apply archiveIssuer_ok in E as (Hn & Hlo & Hst); [|done].
    split_and!; [done| | |exact (proj2 Hlo)].
    + rewrite Forall_forall in Hl |- *. intros i Hi.
      by apply (settled_label _ _ _ _ Hlo); auto.
    + split; [done|]. by rewrite Hd.
  - destruct E as [out E].
    pose proof (bootstrapIssuer_wf k others iss ca root s (re_wf _ _ Hre) Hwf) as Hwf'.
    rewrite E in Hwf'.
    apply bootstrapIssuer_ok in E as (Hs & d1 & Hd1 & Hlo); [|by apply Hre|done..].
    assert (Forall (settled d1) l /\ roots_grow (rg_db s) d1) as [Hl1 Hg].
    { destruct Hd1 as [-> | ->]; [done|]. split; [|intros t; apply Hre].
      rewrite Forall_forall in Hl |- *. intros i Hi.
      apply (re_settled _ _ Hre); auto. }
    split_and!; [done| |done|etransitivity; [exact Hg|exact (proj2 Hlo)]].
    rewrite Forall_forall in Hl1 |- *. intros i Hi.
    by apply (settled_label _ _ _ _ Hlo); auto.
Qed.

Lemma bootstrapIssuers_ok k others all ca root l : forall l0 res en s res' en' s',
  respects all others -> l0 ++ l ⊆ all -> NoDup (fi_Label <$> l0 ++ l) ->
  db_wf (rg_db s) -> Forall (settled (rg_db s)) l0 ->
  bootstrapIssuers k others ca root l res en s = (Ok (res', en'), s') ->
  db_wf (rg_db s') /\ Forall (settled (rg_db s')) (l0 ++ l) /\
  roots_grow (rg_db s) (rg_db s') /\ en' = en ++ enabledLabels l.
Proof.
  induction l as [|iss l IH]; intros l0 res en s res' en' s' Hre Hsub Hnd Hwf Hl0 E.
  { simpl in E. injection E as <- <- <-. unfold enabledLabels. simpl.
    by rewrite !app_nil_r in *. }
  assert (forall i, i ∈ l0 -> fi_Label i <> fi_Label iss) as Hne.
  { intros i Hi Heq. rewrite fmap_app in Hnd. apply NoDup_app in Hnd as (_ & Hd & _).
    apply (Hd (fi_Label i)); [by apply list_elem_of_fmap_2|]. rewrite Heq. simpl. left. }
  assert (exists res1 en1 s1, en1 = en ++ enabledLabels [iss] /\
    (if fi_Disabled iss then exists b, archiveIssuer (fi_Label iss) s = (Ok b, s1)
     else exists out, bootstrapIssuer k others iss ca root s = (Ok out, s1)) /\
    bootstrapIssuers k others ca root l res1 en1 s1 = (Ok (res', en'), s'))
    as (res1 & en1 & s1 & Hen1 & Hstep & Hrest).
  { simpl in E. unfold enabledLabels. simpl. destruct (fi_Disabled iss); simpl;
      apply bind_ok in E as (b & s1 & Em & E); apply message_ok in Em;
      eexists _, _, s1; (split; [|split; [by exists b|exact E]]); [by rewrite app_nil_r|done]. }
  apply (bootstrapStep_ok k others all iss ca root l0) in Hstep as (Hwf1 & Hl1 & Hg1);
    [|done| |done..]; [|set_solver].
  replace (l0 ++ iss :: l) with ((l0 ++ [iss]) ++ l) in * by (by rewrite <-app_assoc).
  destruct (IH (l0 ++ [iss]) res1 en1 s1 res' en' s') as (? & ? & Hg2 & Hen); auto.
  split_and!; [done..|by etransitivity|].
  rewrite Hen, Hen1. unfold enabledLabels. simpl.
  rewrite <-app_assoc. by destruct (fi_Disabled iss).
Qed.

(** The platform anchors of the roots of a bundle. *)
Definition cert_kept (d : Db) (c : x509_Certificate) : Prop :=
  IsSelfSigned c = true ->
  exists pem, EncodeToPEMString c = Ok pem /\
    root_kept d (NewRootCertificate c 0 Trust_Private pem).
Definition bundle_kept (d : Db) (bundle : string) : Prop :=
  TrimSpace bundle = EmptyString \/
  exists certs, ParseChainFromPEM bundle = Ok certs /\ Forall (cert_kept d) certs.

Lemma cert_kept_grow d d' c : roots_grow d d' -> cert_kept d c -> cert_kept d' c.
Proof. intros Hg Hc Hs. destruct (Hc Hs) as (pem & ? & ?). exists pem. auto. Qed.

Lemma roots_only_issuers d d' :
  roots_only d d' -> db_issuers d' = db_issuers d /\ db_profiles d' = db_profiles d.
Proof. by intros (n & rows & ->). Qed.

Lemma registerCerts_ok certs : forall n s m s',
  registerCerts certs n s = (Ok m, s') ->
  Forall (cert_kept (rg_db s')) certs /\ roots_grow (rg_db s) (rg_db s') /\
  db_issuers (rg_db s') = db_issuers (rg_db s).
Proof.
  induction certs as [|c certs IH]; intros n s m s' E; simpl in E.
  { injection E as _ <-. by split_and!. }
  unfold cert_kept in IH |- *. destruct (IsSelfSigned c) eqn:Hc; simpl in E.
  - ok_step E. rename select (with_message _ _ _ = _) into Em.
    rename select (with_message_r _ _ = _) into Hp. apply with_message_r_ok in Hp.
    apply message_ok, in_db_ok in Em as (d1 & Er & ->).
    apply RegisterRoot_anchor in Er as (Hro & Hk & Hg); [|done].
    apply IH in E as (Hf & Hg2 & Hi). simpl in Hg2, Hi.
    apply roots_only_issuers in Hro as [Hro _].
    split_and!; [constructor; [|done]|etransitivity; [exact Hg|exact Hg2]|congruence].
    intros _. exists a. auto.
  - apply IH in E as (Hf & ? & ?). split_and!; [|done..]. constructor; [congruence|done].
Qed.

Lemma registerRoots_ok bundle s n s' :
  registerRoots bundle s = (Ok n, s') ->
  bundle_kept (rg_db s') bundle /\ roots_grow (rg_db s) (rg_db s') /\
  db_issuers (rg_db s') = db_issuers (rg_db s).
Proof.
  unfold registerRoots, bundle_kept. intros E.
  destruct (bool_decide_reflect (TrimSpace bundle = EmptyString)) as [Ht|Ht].
  - injection E as _ <-. split_and!; [by left|done..].
  - ok_step E. rename select (with_message_r _ _ = _) into Hp.
    apply with_message_r_ok in Hp. apply registerCerts_ok in E as (? & ? & ?).
    split_and!; [right; by exists a|done..].
Qed.

Lemma registerRoots_wf bundle s :
  db_wf (rg_db s) -> db_wf (rg_db (registerRoots bundle s).2).
Proof.
  intros Hwf. unfold registerRoots. destruct (bool_decide _); [done|].
  unfold bind, lift_result. destruct (with_message_r _ _); [|done].
  apply (keeps_registerCerts db_wf); [|done]. intros. apply RegisterRoot_wf.
Qed.

(** *** Profiles *)

(** The platform profile of the label is that of the configuration. *)
Definition profile_settled (d : Db) (label : string) (p : option CertProfile) : Prop :=
  exists m row, bootProfile label p = Ok m /\ profile_at d 0 0 label = Some row /\
    p_IssuerLabel row = p_IssuerLabel m /\ p_Config row = p_Config m /\
    p_Status row = ItemStatus_Active.

Lemma bootProfile_active label p m :
  bootProfile label p = Ok m -> p_ID m = 0%Z /\ p_Status m = ItemStatus_Active.
Proof.
  unfold bootProfile. destruct p as [p|]; [|done].
  intros E. apply with_message_r_ok in E.
  destruct (ValidateProfile p); [done|]. unfold NewCertificateProfile in E.
  destruct (CertificateProfile_SetConfig _); [|done]. simpl in E. injection E as <-.
  split; [done|]. simpl. by destruct (bool_decide (ap_IssuerLabel p = _)).
Qed.

(** Only the profiles and the generator of IDs differ. *)
Definition profiles_only (d d' : Db) : Prop :=
  exists n rows, d' = tab_set profiles rows (set_seq n d).

Lemma RegisterProfile_platform label p m d x d' :
  bootProfile label p = Ok m -> RegisterProfile m d = (Ok x, d') ->
  profiles_only d d' /\ profile_settled d' label p /\
  forall l q, l <> label -> profile_settled d l q -> profile_settled d' l q.
Proof.
  intros Hb E. pose proof (bootProfile_scope _ _ _ Hb) as (Ho & Hp & Hl).
  pose proof (bootProfile_active _ _ _ Hb) as [_ Hst].
  pose proof (RegisterProfile_mutation _ _ _ _ E) as (Hoth & _ & _ & _).
  rewrite Ho, Hp, Hl in Hoth.
  assert (forall l q, l <> label -> profile_settled d l q -> profile_settled d' l q) as Hk.
  { intros l q Hne (m' & row & ? & Hat & ?). exists m', row. split; [done|].
    split; [|done]. rewrite <-Hat. symmetry. apply Hoth. congruence. }
  unfold RegisterProfile in E. apply bind_ok in E as (id & d1 & E1 & E).
  pose proof (quiet_ensureID (p_ID m) d) as [n Hn]. rewrite E1 in Hn. simpl in Hn. subst d1.
  db_ok_step E. rewrite Hst in E. rewrite bool_decide_false in E by done.
  apply upsert_row_ok in E. split; [|split; [|exact Hk]].
  { destruct E as [(_ & _ & -> & _)|(? & _ & _ & _ & _ & _ & ->)]; by eexists _, _. }
  set (im := set_p_insert id ItemStatus_Active (db_now (set_seq n d)) m) in *.
  assert (forall y, FindProfile_where 0 0 label y =
    bool_decide (u_key profile_label y = u_key profile_label im)) as Hw.
  { intros y. destruct (FindProfile_where 0 0 label y) eqn:E2; symmetry.
    - apply FindProfile_where_true in E2 as (? & ? & ?). apply bool_decide_eq_true. simpl.
      congruence.
    - apply bool_decide_eq_false. simpl. intros [= ? ? ?].
      assert (FindProfile_where 0 0 label y = true); [|congruence].
      apply FindProfile_where_true. split_and!; congruence. }
  destruct E as [(Hnew & -> & -> & _)|(old & Hold & Hk' & _ & -> & _ & ->)].
  - exists m, im. split_and!; try done. unfold profile_at. simpl.
    rewrite (find_app_new _ (db_profiles d)); [done| |].
    + intros y Hy. rewrite Hw. apply bool_decide_eq_false. by apply Hnew.
    + rewrite Hw. by apply bool_decide_eq_true.
  - destruct (profile_at d 0 0 label) as [row|] eqn:Hat.
    + exists m, (set_p_replace im (db_now (set_seq n d)) row). split_and!; try done.
      unfold profile_at in *. cbn [tab_set tab_rows profiles db_profiles set_seq].
      rewrite find_update_all; [rewrite Hat; simpl|intros y _ _; rewrite !Hw; done].
      apply find_some in Hat as [_ Hat]. rewrite Hw in Hat. simpl in Hat. by rewrite Hat.
    + exfalso. unfold profile_at in Hat. apply list_elem_of_In in Hold.
      apply (find_none _ _ Hat) in Hold. rewrite Hw in Hold.
      by apply bool_decide_eq_false in Hold.
Qed.
End settled.
