(* ===== verification/BootstrapClaims.v ===== *)
(** The theorems of the platform bootstrap: a successful run mirrors the
    configuration, a second run changes nothing but the profiles' times, two
    instances that race for an issuer register it once, and the rows of the
    orgs stay as they are. *)
From Stdlib Require Import ZArith Lia.
From stdpp Require Import base list gmap strings sorting.
From S2P Require Import Prelude GoStrings Xdb Tenancy Model Query Sql CaQuery CaDb CaDbFacts CaDbSteps PathLength Base64 Keys Pbconv Lru Registry RegistryFacts RegistryDb Crl CrlFacts Access IssuerBuild CaDbClaims CrlExamples BackendExamples Bootstrap BootstrapFacts.

Section claims.
Context `{XdbLaws, Codec, IdGen, ChainLib, ProfileCodec, PbLib, KeyLib, !Authority, !IssuerLib, !BootLib, LRU, !ConfigLaws}.

Lemma bootstrapProfiles_ok ps labels : forall l0 n s m s',
  NoDup (l0 ++ labels) ->
  Forall (fun l => profile_settled (rg_db s) l (mjoin (ps !! l))) l0 ->
  bootstrapProfiles ps labels n s = (Ok m, s') ->
  Forall (fun l => profile_settled (rg_db s') l (mjoin (ps !! l))) (l0 ++ labels) /\
  profiles_only (rg_db s) (rg_db s').
Proof.
  induction labels as [|l labels IH]; intros l0 n s m s' Hnd Hl0 E; simpl in E.
  { injection E as _ <-. rewrite app_nil_r. split; [done|].
    exists (db_seq (rg_db s)), (db_profiles (rg_db s)). by destruct (rg_db s). }
  ok_step E. rename select (with_message _ _ _ = _) into Em.
  rename select (bootProfile _ _ = _) into Hb.
  rename select (InvalidateProfile _ _ _ _ = _) into Hi. injection Hi as _ <-.
  apply message_ok, in_db_ok in Em as (d1 & Er & ->).
  eapply RegisterProfile_platform in Er as (Ho & Hs & Hk); [|exact Hb].
  replace (l0 ++ l :: labels) with ((l0 ++ [l]) ++ labels) in * by (by rewrite <-app_assoc).
  apply (IH (l0 ++ [l])) in E as [Hf Ho2]; [|done|].
  - split; [done|]. destruct Ho as (n1 & r1 & E1), Ho2 as (n2 & r2 & E2).
    simpl in E2. exists n2, r2. by rewrite E2, E1.
  - rewrite Forall_app, Forall_singleton. split; [|done]. simpl.
    rewrite Forall_forall in Hl0 |- *. intros x Hx. apply Hk; [|auto].
    intros ->. rewrite <-app_assoc in Hnd. apply NoDup_app in Hnd as (_ & Hd & _).
    apply (Hd l Hx). left.
Qed.

(** ** A configuration that is mirrored *)

Definition issuersOf (cfg : AuthorityConfig) : list FileIssuer :=
  match cf_Authority cfg with Some a => ca_Issuers a | None => [] end.

(** The bundles are read and the anchors of the first registered, every
    issuer is settled, and every profile is the platform's. *)
Record mirrored (d : Db) (cfg : AuthorityConfig) : Prop := {
  mi_bundles a : cf_Authority cfg = Some a ->
    exists roots cas, LoadPEMFiles (ca_RootsBundleFiles a) = Ok roots /\
      LoadPEMFiles (ca_CABundleFiles a) = Ok cas /\ bundle_kept d roots;
  mi_issuers : Forall (settled d) (issuersOf cfg);
  mi_profiles label p : cf_Profiles cfg !! label = Some p -> profile_settled d label p }.

Lemma bundle_kept_grow d d' b : roots_grow d d' -> bundle_kept d b -> bundle_kept d' b.
Proof.
  intros Hg [?|(certs & Hp & Hf)]; [by left|]. right. exists certs. split; [done|].
  eapply Forall_impl; [exact Hf|]. intros c. by apply cert_kept_grow.
Qed.

Lemma settled_tables d d' iss :
  db_issuers d' = db_issuers d -> db_roots d' = db_roots d ->
  settled d iss -> settled d' iss.
Proof.
  intros Ei Er. unfold settled, boot_row, anchored, root_kept, issuer_at.
  by rewrite Ei, Er.
Qed.

Lemma profileLabels_elem {A} (m : gmap string A) l :
  l ∈ profileLabels m <-> exists x, m !! l = Some x.
Proof.
  unfold profileLabels. rewrite merge_sort_elem, list_elem_of_fmap. split.
  - intros ([k x] & -> & Hx%elem_of_map_to_list). by exists x.
  - intros [x Hx]. exists (l, x). by rewrite elem_of_map_to_list.
Qed.
Lemma profileLabels_NoDup {A} (m : gmap string A) : NoDup (profileLabels m).
Proof.
  unfold profileLabels. rewrite merge_sort_Permutation. apply NoDup_fst_map_to_list.
Qed.

Lemma bootstrapAuthority_ok k others a s res en s' :
  respects (ca_Issuers a) others -> NoDup (fi_Label <$> ca_Issuers a) ->
  db_wf (rg_db s) -> bootstrapAuthority k others a s = (Ok (res, en), s') ->
  en = enabledLabels (ca_Issuers a) /\ Forall (settled (rg_db s')) (ca_Issuers a) /\
  exists roots cas, LoadPEMFiles (ca_RootsBundleFiles a) = Ok roots /\
    LoadPEMFiles (ca_CABundleFiles a) = Ok cas /\ bundle_kept (rg_db s') roots.
Proof.
  intros Hre Hnd Hwf E. unfold bootstrapAuthority in E.
  apply bind_ok in E as (rb & s1 & Hr & E). apply lift_ok in Hr as [Hr ->].
  apply bind_ok in E as (cb & s1 & Hc & E). apply lift_ok in Hc as [Hc ->].
  apply bind_ok in E as (n & s1 & Hn & E).
  apply with_message_r_ok in Hr, Hc.
  pose proof (registerRoots_wf rb s Hwf) as Hwf1. rewrite Hn in Hwf1.
  apply registerRoots_ok in Hn as (Hk & _).
  eapply (bootstrapIssuers_ok _ _ (ca_Issuers a) _ _ _ []) in E as (_ & Hf & Hg & ->);
    [|done..].
  split_and!; [done..|]. exists rb, cb. split_and!; [done..|]. by eapply bundle_kept_grow.
Qed.

Lemma mirrors_after (k : Keys) (others : string -> Db -> Db)
    (cfg : AuthorityConfig) (s s' : RgState) (res : BootstrapResult)
    (Hre : respects (issuersOf cfg) others)
    (Hnd : NoDup (fi_Label <$> issuersOf cfg)) (Hwf : db_wf (rg_db s))
    (Hok : Bootstrap k others (Some cfg) s = (Ok res, s')) :
  mirrored (rg_db s') cfg.
Proof.
  unfold Bootstrap in Hok.
  apply bind_ok in Hok as ([r en] & s1 & Ha & E).
  apply bind_ok in E as (n & s2 & Hp & E).
  apply bind_ok in E as (u & s3 & Hl & E). injection E as _ <-.
  apply (kept_ok _ _ _ _ (kept_loadIssuers _ _)) in Hl. rewrite Hl.
  eapply (bootstrapProfiles_ok _ _ []) in Hp as [Hf (n1 & rows & Ed)];
    [|apply profileLabels_NoDup|constructor].
  rewrite app_nil_l, Forall_forall in Hf.
  assert (forall label p, cf_Profiles cfg !! label = Some p ->
    profile_settled (rg_db s2) label p) as Hprof.
  { intros label p Hlp. specialize (Hf label). rewrite Hlp in Hf. apply Hf.
    apply profileLabels_elem. by exists p. }
  unfold issuersOf in *. destruct (cf_Authority cfg) as [a|] eqn:Ec.
  - apply bootstrapAuthority_ok in Ha as (_ & Hi & rb & cb & Hr & Hc & Hb); [|done..].
    split; [| |done].
    + rewrite Ec. intros a' [= <-]. exists rb, cb. split_and!; [done..|].
      eapply bundle_kept_grow; [|exact Hb]. rewrite Ed. by intros t.
    + unfold issuersOf. rewrite Ec. eapply Forall_impl; [exact Hi|].
      intros iss. apply settled_tables; by rewrite Ed.
  - split; [by rewrite Ec| |done]. unfold issuersOf. by rewrite Ec.
Qed.

(** C24: A bootstrap that succeeds has mirrored the configuration.  Every
    enabled issuer is the platform row of its label: Active, of the key and
    the certificate of the file, with the settings of the file, and with its
    certificate among the platform anchors when it is a root; no issuer of a
    disabled label is Active; the roots of the bundle are platform anchors
    and every profile is the Active platform profile of its label.  This
    holds whatever other instances commit in between, as long as they keep
    what is settled of the same configuration. *)
Theorem bootstrap_mirrors (k : Keys) (others : string -> Db -> Db)
    (cfg : AuthorityConfig) (s s' : RgState) (res : BootstrapResult)
    (Hre : respects (issuersOf cfg) others)
    (Hnd : NoDup (fi_Label <$> issuersOf cfg)) (Hwf : db_wf (rg_db s))
    (Hok : Bootstrap k others (Some cfg) s = (Ok res, s')) :
  mirrored (rg_db s') cfg.
Proof. by eapply mirrors_after. Qed.

(** ** A second run *)

(** The issuers stay, the anchors stay and the database is well formed. *)
Definition issuers_kept (d d' : Db) : Prop :=
  db_wf d' /\ db_issuers d' = db_issuers d /\ roots_grow d d'.
(** So do the profiles. *)
Definition quiet_run (d d' : Db) : Prop :=
  issuers_kept d d' /\ db_profiles d' = db_profiles d.

Lemma issuers_kept_trans d1 d2 d3 :
  issuers_kept d1 d2 -> issuers_kept d2 d3 -> issuers_kept d1 d3.
Proof.
  intros (_ & E1 & G1) (? & E2 & G2). split_and!; [done|congruence|].
  intros t Ht. auto.
Qed.
Lemma quiet_run_refl d : db_wf d -> quiet_run d d.
Proof. intros Hd. split; [|done]. split_and!; [done..|by intros t]. Qed.
Lemma quiet_run_trans d1 d2 d3 : quiet_run d1 d2 -> quiet_run d2 d3 -> quiet_run d1 d3.
Proof.
  intros [K1 E1] [K2 E2]. split; [by eapply issuers_kept_trans|congruence].
Qed.
Lemma quiet_run_wf d d' : quiet_run d d' -> db_wf d'.
Proof. by intros [(? & _) _]. Qed.

Lemma settled_kept d d' iss : issuers_kept d d' -> settled d iss -> settled d' iss.
Proof.
  intros (_ & Ei & Hg). unfold settled, issuer_at. rewrite Ei. intros [? Hs].
  split; [done|]. destruct (fi_Disabled iss); [done|].
  destruct Hs as (crt & row & ? & ? & ? & ? & ? & ? & Ha). exists crt, row.
  unfold boot_row. split_and!; try done. intros Ht. destruct (Ha Ht) as (c & ? & ?).
  exists c. auto.
Qed.
Lemma settled_all_kept d d' l :
  issuers_kept d d' -> Forall (settled d) l -> Forall (settled d') l.
Proof. intros Hk Hl. eapply Forall_impl; [exact Hl|]. intros i. by apply settled_kept. Qed.

Lemma RegisterRoot_quiet t d :
  db_wf d -> t_OrgID t = 0%Z -> root_kept d t ->
  exists x d', RegisterRoot t d = (Ok x, d') /\ quiet_run d d'.
Proof.
  intros Hwf Ho Hk. destruct (RegisterRoot_again t d Hwf Ho Hk) as (x & d' & E).
  exists x, d'. split; [done|]. pose proof (RegisterRoot_wf t d Hwf) as Hwf'.
  rewrite E in Hwf'. apply RegisterRoot_anchor in E as (Hro & _ & Hg); [|done].
  apply roots_only_issuers in Hro as [? ?]. split; [|done].
  by split_and!.
Qed.

Lemma in_db_run {A} (m : M Db A) s a d' :
  m (rg_db s) = (Ok a, d') -> in_db m s = (Ok a, set_rg_db d' s).
Proof. unfold in_db. by intros ->. Qed.
Lemma message_run {S A} msg (m : M S A) s a s' :
  m s = (Ok a, s') -> with_message msg m s = (Ok a, s').
Proof. unfold with_message, catch. by intros ->. Qed.

(** The label is a root of the platform. *)
Definition isRoot (d : Db) (label : string) : bool :=
  match issuer_at d 0 0 label with
  | Some row => bool_decide (i_Type row = AuthorityType_Root)
  | None => false
  end.

Lemma refreshRoot_again s row :
  db_wf (rg_db s) -> anchored (rg_db s) row ->
  exists s', refreshRoot row s =
      (Ok (bool_decide (i_Type row = AuthorityType_Root)), s') /\
    quiet_run (rg_db s) (rg_db s').
Proof.
  intros Hwf Ha. unfold refreshRoot.
  destruct (bool_decide_reflect (i_Type row = AuthorityType_Root)) as [Ht|Ht].
  - destruct (Ha Ht) as (c & Hc & Hk). unfold parsedPEM. rewrite Hc.
    destruct (RegisterRoot_quiet (NewRootCertificate c 0 Trust_Private (i_Pem row)) _ Hwf
      eq_refl Hk) as (x & d' & Er & Hq).
    exists (set_rg_db d' s). split; [|done].
    unfold bind at 1, lift_result at 1.
    by rewrite (bind_run _ _ _ _ _ (message_run _ _ _ _ _ (in_db_run _ _ _ _ Er))).
  - exists s. split; [done|]. by apply quiet_run_refl.
Qed.

Lemma refreshIssuer_again s row crt cfg :
  db_wf (rg_db s) -> boot_row (rg_db s) crt cfg row ->
  exists s', refreshIssuer row crt cfg s =
      (Ok (mkOutcome false false (bool_decide (i_Type row = AuthorityType_Root))), s') /\
    quiet_run (rg_db s) (rg_db s').
Proof.
  intros Hwf (Hk & Hs & Hst & Hc & Ha).
  destruct (refreshRoot_again s row Hwf Ha) as (s' & Er & Hq). exists s'.
  split; [|done]. unfold refreshIssuer. rewrite Hst, Hs.
  unfold refreshConfig. rewrite Hc. simpl. unfold bind at 1, lift_result at 1.
  rewrite bool_decide_true by done. unfold bind at 1, guard at 1. simpl.
  rewrite bool_decide_true by done. unfold bind at 1, lift_result at 1.
  unfold bind at 1, refreshRow at 1. simpl. by rewrite (bind_run _ _ _ _ _ Er).
Qed.

Lemma archiveIssuer_again s iss :
  settled (rg_db s) iss -> fi_Disabled iss = true ->
  archiveIssuer (fi_Label iss) s = (Ok false, s).
Proof.
  intros [Hl Hs] Hd. rewrite Hd in Hs. unfold archiveIssuer.
  rewrite bool_decide_false by done. unfold bind, guard, catch, in_db. simpl.
  pose proof (FindIssuer_run 0 0 (fi_Label iss) (rg_db s)) as Hf.
  destruct (issuer_at _ 0 0 _) as [row|].
  - rewrite Hf. rewrite bool_decide_false by (by apply Hs). simpl. by destruct s.
  - destruct Hf as (e & -> & ->). by destruct s.
Qed.

Lemma bootstrapIssuer_again k others iss ca root s :
  db_wf (rg_db s) -> settled (rg_db s) iss -> fi_Disabled iss = false ->
  exists s', bootstrapIssuer k others iss ca root s =
      (Ok (mkOutcome false false (isRoot (rg_db s) (fi_Label iss))), s') /\
    quiet_run (rg_db s) (rg_db s').
Proof.
  intros Hwf [Hl Hs] Hd. rewrite Hd in Hs. destruct Hs as (crt & row & Hf & Hat & Hb).
  unfold isRoot. rewrite Hat.
  destruct (refreshIssuer_again s row crt _ Hwf Hb) as (s' & Er & Hq).
  exists s'. split; [|done]. unfold bootstrapIssuer.
  rewrite bool_decide_false by done. unfold bind at 1, guard at 1. simpl.
  unfold file_certificate in Hf.
  destruct (with_message_r "unable to read certificate" _) as [pem|] eqn:Hp; [|done].
  simpl in Hf. unfold bind at 1, lift_result at 1. rewrite Hf.
  unfold bind at 1, lift_result at 1. unfold catch, in_db.
  pose proof (FindIssuer_run 0 0 (fi_Label iss) (rg_db s)) as Hfi. rewrite Hat in Hfi.
  rewrite Hfi, bool_decide_true by apply Hb. by destruct s.
Qed.

Definition add_roots (n : Z) (r : BootstrapResult) : BootstrapResult :=
  mkBootstrapResult (br_Issuers r) (br_Updated r) (br_Archived r) (br_Roots r + n)
    (br_Profiles r).

(** The enabled issuers that are roots. *)
Definition rootIssuers (d : Db) (l : list FileIssuer) : Z :=
  Z.of_nat (length (List.filter (isRoot d) (enabledLabels l))).

Lemma isRoot_quiet d d' label : quiet_run d d' -> isRoot d' label = isRoot d label.
Proof. intros [(_ & E & _) _]. unfold isRoot, issuer_at. by rewrite E. Qed.

Lemma rootIssuers_quiet d d' l : quiet_run d d' -> rootIssuers d' l = rootIssuers d l.
Proof.
  intros Hq. unfold rootIssuers. f_equal. f_equal. apply List.filter_ext.
  intros x. by apply isRoot_quiet.
Qed.

Lemma bootstrapIssuers_again k others ca root l : forall res en s,
  db_wf (rg_db s) -> Forall (settled (rg_db s)) l ->
  exists s', bootstrapIssuers k others ca root l res en s =
      (Ok (add_roots (rootIssuers (rg_db s) l) res, en ++ enabledLabels l), s') /\
    quiet_run (rg_db s) (rg_db s').
Proof.
  induction l as [|iss l IH]; intros res en s Hwf Hl.
  { exists s. split; [|by apply quiet_run_refl]. simpl. rewrite app_nil_r.
    destruct res. unfold add_roots. simpl. by rewrite Z.add_0_r. }
  apply Forall_cons in Hl as [Hi Hl]. simpl. destruct (fi_Disabled iss) eqn:Hd.
  - rewrite (bind_run _ _ _ _ _ (message_run _ _ _ _ _ (archiveIssuer_again s iss Hi Hd))).
    destruct (IH (mkBootstrapResult (br_Issuers res) (br_Updated res) (br_Archived res)
      (br_Roots res) (br_Profiles res)) en s Hwf Hl) as (s' & E & Hq).
    exists s'. split; [|done]. simpl. rewrite E. unfold rootIssuers, enabledLabels. simpl.
    by rewrite Hd.
  - destruct (bootstrapIssuer_again k others iss ca root s Hwf Hi Hd) as (s1 & E1 & Hq1).
    rewrite (bind_run _ _ _ _ _ (message_run _ _ _ _ _ E1)). simpl.
    destruct (IH (mkBootstrapResult (br_Issuers res) (br_Updated res) (br_Archived res)
      (count (isRoot (rg_db s) (fi_Label iss)) (br_Roots res)) (br_Profiles res))
      (en ++ [fi_Label iss]) s1) as (s' & E & Hq).
    + by eapply quiet_run_wf.
    + eapply settled_all_kept; [apply Hq1|done].
    + exists s'. split; [|by eapply quiet_run_trans]. rewrite E.
      rewrite (rootIssuers_quiet _ _ _ Hq1). unfold rootIssuers, enabledLabels. simpl.
      rewrite Hd. simpl. rewrite <-app_assoc. simpl. do 3 f_equal.
      unfold add_roots. simpl. f_equal. destruct (isRoot (rg_db s) (fi_Label iss));
        unfold count; simpl length; unfold fmap; lia.
Qed.

(** *** Bundles and profiles again *)

Definition bundleRoots (bundle : string) : Z :=
  if bool_decide (TrimSpace bundle = EmptyString) then 0%Z
  else match ParseChainFromPEM bundle with
       | Ok certs => Z.of_nat (length (List.filter IsSelfSigned certs))
       | Err _ => 0%Z
       end.

Lemma registerCerts_again certs : forall n s,
  db_wf (rg_db s) -> Forall (cert_kept (rg_db s)) certs ->
  exists s', registerCerts certs n s =
      (Ok (n + Z.of_nat (length (List.filter IsSelfSigned certs)))%Z, s') /\
    quiet_run (rg_db s) (rg_db s').
Proof.
  induction certs as [|c certs IH]; intros n s Hwf Hf.
  { exists s. split; [|by apply quiet_run_refl]. simpl. by rewrite Z.add_0_r. }
  apply Forall_cons in Hf as [Hc Hf]. simpl. unfold cert_kept in Hc.
  destruct (IsSelfSigned c); simpl.
  - destruct (Hc eq_refl) as (pem & Hp & Hk).
    destruct (RegisterRoot_quiet (NewRootCertificate c 0 Trust_Private pem) _ Hwf
      eq_refl Hk) as (x & d' & Er & Hq).
    rewrite Hp. unfold bind at 1, lift_result at 1. simpl.
    rewrite (bind_run _ _ _ _ _ (message_run _ _ _ _ _ (in_db_run _ _ _ _ Er))).
    destruct (IH (n + 1)%Z (set_rg_db d' s)) as (s' & E & Hq').
    + by eapply quiet_run_wf.
    + eapply Forall_impl; [exact Hf|]. intros c'. apply cert_kept_grow, Hq.
    + exists s'. split; [|by eapply quiet_run_trans]. rewrite E. f_equal. f_equal. lia.
  - apply IH; done.
Qed.

Lemma registerRoots_again bundle s :
  db_wf (rg_db s) -> bundle_kept (rg_db s) bundle ->
  exists s', registerRoots bundle s = (Ok (bundleRoots bundle), s') /\
    quiet_run (rg_db s) (rg_db s').
Proof.
  intros Hwf Hb. unfold registerRoots, bundleRoots.
  destruct (bool_decide_reflect (TrimSpace bundle = EmptyString)) as [Ht|Ht].
  { exists s. split; [done|]. by apply quiet_run_refl. }
  destruct Hb as [?|(certs & Hp & Hf)]; [done|]. rewrite Hp.
  destruct (registerCerts_again certs 0 s Hwf Hf) as (s' & E & Hq).
  exists s'. split; [|done]. unfold bind, lift_result. simpl. by rewrite E.
Qed.

Lemma RegisterProfile_again label p m d :
  db_wf d -> profile_settled d label p -> bootProfile label p = Ok m ->
  exists x d', RegisterProfile m d = (Ok x, d').
Proof.
  intros [_ _ _ [Hu Hv] _] (m' & row & Hb' & Hat & Hil & _) Hb.
  rewrite Hb in Hb'. injection Hb' as <-.
  pose proof (bootProfile_scope _ _ _ Hb) as (Ho & Hp & Hl).
  pose proof (bootProfile_active _ _ _ Hb) as [_ Hst].
  unfold profile_at in Hat. apply find_some in Hat as [Hin Hw].
  apply list_elem_of_In in Hin. apply FindProfile_where_true in Hw as (Eo & Ep & El).
  unfold RegisterProfile. destruct (ensureID_run (p_ID m) d) as (id & n & E).
  rewrite (bind_run _ _ _ _ _ E), (bind_run Now _ (set_seq n d) (db_now d)
    (set_seq n d) eq_refl).
  rewrite Hst, bool_decide_false by done.
  set (im := set_p_insert id ItemStatus_Active (db_now d) m).
  assert (CertificateProfile_Validate im = Ok tt) as ->.
  { specialize (Hv row Hin). revert Hv. unfold CertificateProfile_Validate. simpl.
    rewrite Ho, Hp, Hl, Eo, Ep, El, Hil. simpl.
    destruct (validateLength _ _ _ _), (validateLength _ _ _ _); simpl; done. }
  assert (select_row (fun x => bool_decide (u_key profile_label x = u_key profile_label im))
    (db_profiles d) = Ok row) as Hsel.
  { apply select_row_unique; [done| |].
    - apply bool_decide_eq_true. simpl. congruence.
    - intros y Hy Hw%bool_decide_eq_true. simpl in Hw.
      apply (NoDup_key_inj (u_key profile_label) (db_profiles d)); [|done..|simpl; congruence].
      apply (uniques_elem profile_uniques _ profile_label Hu). right. by left. }
  unfold bind, lift_result, exec. change (tab_rows profiles (set_seq n d)) with (db_profiles d).
  erewrite (upsert_row_hold _ profile_label); [by eexists _, _|exact Hsel|done|].
  by apply update_all_hold; [|repeat constructor].
Qed.

Lemma bootstrapProfiles_again ps labels : forall n s,
  db_wf (rg_db s) ->
  (forall l p, ps !! l = Some p -> profile_settled (rg_db s) l p) ->
  (forall l, l ∈ labels -> exists p, ps !! l = Some p) ->
  exists s', bootstrapProfiles ps labels n s =
      (Ok (n + Z.of_nat (length labels))%Z, s') /\
    issuers_kept (rg_db s) (rg_db s') /\
    forall l p, ps !! l = Some p -> profile_settled (rg_db s') l p.
Proof.
  induction labels as [|l labels IH]; intros n s Hwf Hf Hin.
  { exists s. split; [|split; [by apply quiet_run_refl|done]]. simpl.
    by rewrite Z.add_0_r. }
  destruct (Hin l ltac:(left)) as [p Hp]. pose proof (Hf l p Hp) as Hs.
  assert (exists m, bootProfile l p = Ok m) as [m Hm]
    by (destruct Hs as (m & _ & ? & _); by exists m).
  destruct (RegisterProfile_again l p m _ Hwf Hs Hm) as (x & d' & Er).
  pose proof (RegisterProfile_wf m _ Hwf) as Hwf'. rewrite Er in Hwf'.
  destruct (RegisterProfile_platform _ _ _ _ _ _ Hm Er) as ((k & rows & Ed) & Hs' & Ho).
  assert (issuers_kept (rg_db s) d') as Hq
    by (split_and!; [done|by rewrite Ed|intros t; by rewrite Ed]).
  simpl. rewrite Hp. simpl. rewrite Hm. unfold bind at 1, lift_result at 1.
  rewrite (bind_run _ _ _ _ _ (message_run _ _ _ _ _ (in_db_run _ _ _ _ Er))).
  unfold bind at 1, InvalidateProfile at 1, modify at 1.
  match goal with |- context [bootstrapProfiles ps labels _ ?s1] =>
    destruct (IH (n + 1)%Z s1) as (s' & E & Hq' & Hf')
  end.
  - done.
  - intros l' q Hq'. simpl. destruct (decide (l' = l)) as [->|Hne]; [|auto].
    by rewrite Hp in Hq'; injection Hq' as <-.
  - intros l' Hl'. apply Hin. by right.
  - exists s'. split; [rewrite E; f_equal; f_equal; lia|].
    split; [by eapply issuers_kept_trans|done].
Qed.

Lemma kept_loaded k labels (r : BootstrapResult) : kept (loadIssuers k labels ;;; ret r).
Proof. intros d. apply preserves_bind; [apply kept_loadIssuers|auto with go]. Qed.

(** The anchors a second run refreshes. *)
Definition bootRoots (d : Db) (cfg : AuthorityConfig) : Z :=
  match cf_Authority cfg with
  | None => 0%Z
  | Some a => (match LoadPEMFiles (ca_RootsBundleFiles a) with
               | Ok b => bundleRoots b
               | Err _ => 0
               end + rootIssuers d (ca_Issuers a))%Z
  end.

(** C25: A bootstrap is idempotent.  When the configuration is mirrored, a run
    by this or another instance registers, updates and archives no issuer:
    the issuer rows are exactly what they were, whether the run succeeds or
    not, and it counts only the anchors and profiles it refreshed.  It can
    fail only in loading the enabled issuers, and the configuration is still
    mirrored after it. *)
Theorem bootstrap_idempotent (k : Keys) (others : string -> Db -> Db)
    (cfg : AuthorityConfig) (s : RgState)
    (Hwf : db_wf (rg_db s)) (Hmi : mirrored (rg_db s) cfg) :
  let run := Bootstrap k others (Some cfg) s in
  db_issuers (rg_db run.2) = db_issuers (rg_db s) /\ mirrored (rg_db run.2) cfg /\
  exists s1,
    run = (loadIssuers k (enabledLabels (issuersOf cfg)) ;;;
           ret (mkBootstrapResult 0 0 0 (bootRoots (rg_db s) cfg)
                  (Z.of_nat (length (profileLabels (cf_Profiles cfg)))))) s1.
Proof.
  destruct Hmi as [Hb Hi Hp].
  assert (exists s1, match cf_Authority cfg with
      | None => ret (mkBootstrapResult 0 0 0 0 0, [])
      | Some a => bootstrapAuthority k others a
      end s = (Ok (mkBootstrapResult 0 0 0 (bootRoots (rg_db s) cfg) 0,
                   enabledLabels (issuersOf cfg)), s1) /\
    quiet_run (rg_db s) (rg_db s1)) as (s1 & E1 & Hq1).
  { unfold bootRoots, issuersOf in *. destruct (cf_Authority cfg) as [a|];
      [|exists s; split; [done|by apply quiet_run_refl]].
    destruct (Hb a eq_refl) as (rb & cb & Hr & Hc & Hk). rewrite Hr.
    destruct (registerRoots_again rb s Hwf Hk) as (s1 & E & Hq).
    destruct (bootstrapIssuers_again k others cb rb (ca_Issuers a)
      (mkBootstrapResult 0 0 0 (bundleRoots rb) 0) [] s1) as (s2 & E2 & Hq2).
    - by eapply quiet_run_wf.
    - eapply settled_all_kept; [apply Hq|done].
    - exists s2. split; [|by eapply quiet_run_trans]. unfold bootstrapAuthority.
      rewrite Hr, Hc. unfold bind at 1 2, lift_result at 1 2. simpl.
      rewrite (bind_run _ _ _ _ _ E), E2. unfold add_roots. simpl.
      by rewrite (rootIssuers_quiet _ _ _ Hq). }
  destruct (bootstrapProfiles_again (cf_Profiles cfg) (profileLabels (cf_Profiles cfg))
    0 s1) as (s2 & E2 & Hq2 & Hp2).
  - by eapply quiet_run_wf.
  - intros l p Hl. destruct (Hp l p Hl) as (m & row & ? & Hat & ?).
    exists m, row. split; [done|]. split; [|done]. unfold profile_at in *.
    by rewrite (proj2 Hq1).
  - intros l. apply profileLabels_elem.
  - assert (issuers_kept (rg_db s) (rg_db s2)) as Hk
      by (eapply issuers_kept_trans; [apply Hq1|exact Hq2]).
    cbv zeta. assert (Bootstrap k others (Some cfg) s =
      (loadIssuers k (enabledLabels (issuersOf cfg)) ;;;
       ret (mkBootstrapResult 0 0 0 (bootRoots (rg_db s) cfg)
         (Z.of_nat (length (profileLabels (cf_Profiles cfg)))))) s2) as Hrun.
    { unfold Bootstrap. rewrite (bind_run _ _ _ _ _ E1), (bind_run _ _ _ _ _ E2). done. }
    rewrite Hrun. destruct Hk as (Hwf2 & Ei & Hg).
    pose proof (kept_loaded k (enabledLabels (issuersOf cfg))
      (mkBootstrapResult 0 0 0 (bootRoots (rg_db s) cfg)
         (Z.of_nat (length (profileLabels (cf_Profiles cfg))))) _ s2 eq_refl) as Hd.
    cbv beta in Hd. rewrite Hd. split; [done|]. split; [|by exists s2]. split.
    + intros a Ha. destruct (Hb a Ha) as (rb & cb & ? & ? & ?). exists rb, cb.
      split_and!; [done..|by eapply bundle_kept_grow].
    + by apply (settled_all_kept (rg_db s)).
    + done.
Qed.

(** ** The race for an issuer *)

(** A label that is taken: the insert fails and changes nothing. *)
Lemma registerIssuer_taken im d row :
  issuer_at d 0 0 (i_Label im) = Some row -> i_OrgID im = 0%Z -> i_ProjectID im = 0%Z ->
  exists c, registerIssuer im d = (Err (UniqueViolation c), d).
Proof.
  intros Hat Ho Hp. apply issuer_at_elem in Hat as (Hin & Eo & Ep & El).
  unfold registerIssuer, bind, Now, exec. simpl. unfold insert_row, checked.
  destruct (violated _ _) as [c|] eqn:Ev; [by exists c|].
  apply violated_none in Ev. exfalso. unfold uniques_hold in Ev.
  apply Forall_cons in Ev as [_ Ev]. apply Forall_cons in Ev as [Ev _].
  unfold unique_in in Ev. simpl in Ev. rewrite fmap_app in Ev.
  apply NoDup_app in Ev as (_ & Hd & _).
  apply (Hd (i_OrgID row, i_ProjectID row, i_Label row)).
  - by apply (list_elem_of_fmap_2 (fun i => (i_OrgID i, i_ProjectID i, i_Label i))).
  - simpl. apply list_elem_of_singleton. congruence.
Qed.

Lemma RegisterIssuer_taken label crt cfg m d d2 row x d' :
  boot_model label crt cfg m ->
  RegisterIssuer m (boot_anchor crt m) d = (Ok x, d') ->
  issuer_at d2 0 0 label = Some row ->
  exists c n, RegisterIssuer m (boot_anchor crt m) d2 =
    (Err (UniqueViolation c), set_seq n d2).
Proof.
  intros [(_ & Ho & Hp & <-) _ _ _ _] E Hat. unfold RegisterIssuer in *.
  apply bind_ok in E as (id & d1 & _ & E).
  apply bind_ok in E as (u & d1' & Hv & E). apply lift_ok in Hv as [Hv ->].
  destruct (ensureID_run (i_ID m) d2) as (id2 & n & E2).
  rewrite (bind_run _ _ _ _ _ E2). clear E2.
  assert (Issuer_Validate (set_i_ID id2 m) = Ok u) as -> by exact Hv.
  destruct (registerIssuer_taken (set_i_ID id2 m) (set_seq n d2) row) as [c Hc]; [done..|].
  exists c. unfold bind at 1, lift_result at 1. unfold boot_anchor in *.
  change (i_Type (set_i_ID id2 m)) with (i_Type m).
  change (i_Type (set_i_ID id m)) with (i_Type m) in E.
  destruct (bool_decide (i_Type m = AuthorityType_Root)).
  - apply bind_ok in E as (u' & d3 & Ha & _). apply lift_ok in Ha as [Ha _].
    assert (checkAnchor (set_i_ID id2 m)
      (NewRootCertificate crt 0 Trust_Private (i_Pem m)) = Ok u') as -> by exact Ha.
    exists n. unfold bind at 1, lift_result at 1, transaction.
    by rewrite (bind_run_err _ _ _ _ _ Hc).
  - by exists n.
Qed.

(** Without a row of the label, an insert that succeeds registered the row. *)
Lemma insertBootIssuer_inserted label crt cfg m anchor s out s' :
  issuer_at (rg_db s) 0 0 label = None ->
  insertBootIssuer label crt cfg m anchor s = (Ok out, s') ->
  exists x d', RegisterIssuer m anchor (rg_db s) = (Ok x, d').
Proof.
  unfold insertBootIssuer, catch, in_db. intros Hn E.
  destruct (RegisterIssuer m anchor (rg_db s)) as [[x|e] d'] eqn:Er; [by exists x, d'|].
  assert (exists n, d' = set_seq n (rg_db s)) as [n ->].
  { revert Er. unfold RegisterIssuer. apply atomic_bind; [auto with go|].
    intros id. unfold registerIssuer. atomic_steps. }
  simpl in E. destruct (IsUniqueViolation _ _); [|done]. simpl in E.
  pose proof (FindIssuer_run 0 0 label (set_seq n (rg_db s))) as Hf.
  change (issuer_at (set_seq n (rg_db s))) with (issuer_at (rg_db s)) in Hf.
  rewrite Hn in Hf. destruct Hf as (e' & He & Hn'). by rewrite He, Hn' in E.
Qed.

(** C26: Instances that start at once register an issuer once.  When this
    instance looked an issuer up and it was not registered, another instance
    may commit the issuer of the same configuration before the insert.  The
    insert then fails, and the bootstrap of the issuer still succeeds with
    the row of the other instance: it registers nothing, updates nothing,
    and the rows of the issuers are those the other instance left. *)
Theorem bootstrap_race_one_row (k : Keys) (iss : FileIssuer) (ca root : string)
    (s s1 : RgState) (out : issuerOutcome) (d2 : Db)
    (Hwf : db_wf (rg_db s)) (Hwf2 : db_wf d2) (Hen : fi_Disabled iss = false)
    (Hnew : issuer_at (rg_db s) 0 0 (fi_Label iss) = None)
    (Halone : bootstrapIssuer k (fun _ d => d) iss ca root s = (Ok out, s1))
    (Hother : settled d2 iss) :
  exists s2, bootstrapIssuer k (fun _ _ => d2) iss ca root s =
      (Ok (mkOutcome false false (isRoot d2 (fi_Label iss))), s2) /\
    db_issuers (rg_db s2) = db_issuers d2.
Proof.
  destruct Hother as [Hl Hs]. rewrite Hen in Hs.
  destruct Hs as (crt & row & Hf & Hat & Hb). unfold isRoot. rewrite Hat.
  unfold bootstrapIssuer in *. rewrite bool_decide_false in * by done.
  cbn [negb guard] in *. unfold bind at 1, ret at 1 in Halone. unfold bind at 1, ret at 1.
  unfold file_certificate in Hf.
  destruct (with_message_r "unable to read certificate" _) as [pem|] eqn:Hp; [|done].
  simpl in Hf. unfold bind at 1, lift_result at 1 in Halone.
  unfold bind at 1, lift_result at 1. rewrite Hf in *.
  unfold bind at 1, lift_result at 1 in Halone. unfold bind at 1, lift_result at 1.
  unfold catch at 1, in_db at 1 in Halone. unfold catch at 1, in_db at 1.
  pose proof (FindIssuer_run 0 0 (fi_Label iss) (rg_db s)) as Hfi. rewrite Hnew in Hfi.
  destruct Hfi as (e & He & Hn). rewrite He, Hn in *.
  replace (set_rg_db (rg_db s) s) with s in * by (by destruct s). cbn [negb] in *.
  apply bind_ok in Halone as (ma & s3 & En & Ei). rewrite (bind_run _ _ _ _ _ En).
  pose proof (kept_ok _ _ _ _ (kept_newBootIssuer _ _ _ _ _ _) En) as Ed.
  apply newBootIssuer_model in En as [Hm Ha]. rewrite Ha in *. clear Ha.
  unfold bind, modify in Ei. simpl in Ei.
  apply insertBootIssuer_inserted in Ei as (x & d' & Er).
  2: { simpl. by rewrite Ed. }
  unfold bind, modify. simpl.
  destruct (RegisterIssuer_taken _ _ _ _ _ d2 row _ _ Hm Er Hat) as (c & n & Ec).
  destruct (refreshIssuer_again (set_rg_db (set_seq n d2) (set_rg_db d2 s3)) row crt
    (IssuerConfigToPb (fi_Config iss))) as (s2 & E2 & Hq).
  { by apply seq_stable. }
  { destruct Hb as (? & ? & ? & ? & Han). by split_and!. }
  exists s2. split; [|apply Hq].
  unfold insertBootIssuer, catch, in_db. cbn [rg_db set_rg_db]. rewrite Ec.
  assert (IsUniqueViolation (UniqueViolation c) EmptyString = true) as -> by (by destruct c).
  cbn [rg_db set_rg_db negb].
  pose proof (FindIssuer_run 0 0 (fi_Label iss) (set_seq n d2)) as Hf2.
  change (issuer_at (set_seq n d2)) with (issuer_at d2) in Hf2. rewrite Hat in Hf2.
  rewrite Hf2. rewrite bool_decide_true by apply Hb. exact E2.
Qed.

(** ** The rows of the orgs *)

Lemma others_same_chain o d1 d2 d3 :
  others_same o d1 d2 -> others_same o d2 d3 -> others_same o d1 d3.
Proof.
  intros (A1 & A2 & A3 & A4) (B1 & B2 & B3 & B4). unfold others_same.
  split_and!; congruence.
Qed.

(** The other instances leave the rows of the org as they are. *)
Definition spares (o : Z) (others : string -> Db -> Db) : Prop :=
  forall label d, others_same o d (others label d).

Lemma op_keeps_org o d0 op :
  op_org op = Some 0%Z -> o <> 0%Z ->
  forall d, others_same o d0 d -> others_same o d0 (run_op op d).
Proof.
  intros Hop Ho d Hd. eapply others_same_chain; [exact Hd|].
  by eapply mutation_other_org.
Qed.

(** C27: A bootstrap never touches the rows of an org.  For every org, its
    certificates, issuers, roots and profiles are the same after a bootstrap
    of any configuration, successful or not and at whatever point it fails,
    unless other instances changed them in between. *)
Theorem bootstrap_keeps_orgs (k : Keys) (others : string -> Db -> Db)
    (cfg : option AuthorityConfig) (s : RgState) (o : Z) (Ho : o <> 0%Z)
    (Hre : spares o others) :
  others_same o (rg_db s) (rg_db (Bootstrap k others cfg s).2).
Proof.
  apply (keeps_Bootstrap (others_same o (rg_db s)) others); [..|done].
  - intros m Hm d Hd. refine (op_keeps_org _ _ (OpRegisterRoot m) _ Ho d Hd).
    simpl. congruence.
  - intros m a Hm d Hd. refine (op_keeps_org _ _ (OpRegisterIssuer m a) _ Ho d Hd).
    simpl. congruence.
  - intros r Hr d Hd. refine (op_keeps_org _ _ (OpUpdateIssuer r) _ Ho d Hd).
    simpl. congruence.
  - intros m Hm d Hd. refine (op_keeps_org _ _ (OpRegisterProfile m) _ Ho d Hd).
    simpl. congruence.
  - intros label d Hd. by eapply others_same_chain.
Qed.
End claims.

(** ** A start of one platform root *)

Definition example_file_issuer : @FileIssuer example_pblib :=
  mkFileIssuer (mkAuthConfig "root" None ∅ [] false) false "ca.pem" "ca.key" "" "".
Definition example_disabled_issuer : @FileIssuer example_pblib :=
  mkFileIssuer (mkAuthConfig "old" None ∅ [] false) true "old.pem" "old.key" "" "".
Definition example_boot_config : @AuthorityConfig example_pblib :=
  mkAuthorityConfig (Some (mkCAConfig [example_file_issuer; example_disabled_issuer]
    [] ["roots.pem"%string])) {["server"%string := Some example_auth_profile]}.

(** Every definition has one text. *)
#[local] Instance boot_profile_codec : ProfileCodec := {|
  marshal_CertProfile _ := Ok "{...}"%string;
  unmarshal_CertProfile _ := Some emptyCertProfile;
  Time_String _ := EmptyString |}.

#[export] Instance example_boot_lib : @BootLib example_pblib := {|
  os_ReadFile f := if decide (f = "ca.pem"%string) then Ok "pem-ca"%string
                   else if decide (f = "ca.key"%string) then Ok "pkcs11:k"%string
                   else Err (OtherError "no such file");
  LoadPEMFiles l := Ok (match l with [] => EmptyString | _ => "bundle"%string end);
  ParseChainFromPEM _ := Ok [example_x509];
  JoinPEM a b := (a ++ b)%string; ExpandPath p := p;
  configloader_Unmarshal _ := Ok example_boot_config;
  authority_LoadConfig _ := Ok example_boot_config |}.

#[export] Instance example_config_laws :
  @ConfigLaws example_codec example_pblib example_keylib example_authority example_issuer_lib.
Proof.
  split; simpl.
  - intros cfg j. destruct (decide _) as [->|]; [|done]. by intros [= <-].
  - intros cfg j. destruct (decide _) as [->|]; [|done]. by intros [= <-].
  - intros cfg. by destruct (decide _) as [->|].
Qed.

Definition no_others (_ : string) (d : Db) : Db := d.
Lemma no_others_respects l : respects l no_others.
Proof. by split. Qed.

Definition boot_state : RgState :=
  NewRegistry (emptyDb 5000) ["pkcs11:k"%string] 0 2.
Local Notation boot_run s :=
  (Bootstrap (example_keys true) no_others (Some example_boot_config) s).

(** The issuer, its anchor and the profile are registered; a second run
    refreshes the anchors and the profile. *)
Example boot_first : (boot_run boot_state).1 = Ok (mkBootstrapResult 1 0 0 2 1).
Proof. vm_compute. reflexivity. Qed.
Example boot_second :
  (boot_run (boot_run boot_state).2).1 = Ok (mkBootstrapResult 0 0 0 2 1).
Proof. vm_compute. reflexivity. Qed.

Lemma result_eq {S A} (p : result A * S) r : p.1 = r -> p = (r, p.2).
Proof. destruct p. simpl. by intros ->. Qed.

Lemma boot_state_wf : db_wf (rg_db boot_state).
Proof. apply emptyDb_wf. Qed.
Lemma boot_labels : NoDup (fi_Label <$> issuersOf example_boot_config).
Proof. vm_compute. repeat constructor; set_solver. Qed.

Lemma bootstrap_mirrors_witness :
  mirrored (rg_db (boot_run boot_state).2) example_boot_config.
Proof.
  apply (bootstrap_mirrors (example_keys true) no_others example_boot_config boot_state
    (boot_run boot_state).2 (mkBootstrapResult 1 0 0 2 1)
    (no_others_respects _) boot_labels boot_state_wf).
  apply result_eq, boot_first.
Defined.

Lemma boot_run_wf : db_wf (rg_db (boot_run boot_state).2).
Proof.
  apply (keeps_Bootstrap db_wf no_others); try done; [intros..|apply boot_state_wf].
  - apply RegisterRoot_wf.
  - apply RegisterIssuer_wf.
  - apply UpdateIssuer_wf.
  - apply RegisterProfile_wf.
Qed.
Lemma boot_run_mirrored : mirrored (rg_db (boot_run boot_state).2) example_boot_config.
Proof.
  apply (mirrors_after (example_keys true) no_others example_boot_config boot_state
    _ (mkBootstrapResult 1 0 0 2 1) (no_others_respects _) boot_labels boot_state_wf).
  apply result_eq, boot_first.
Qed.

Lemma bootstrap_idempotent_witness :
  db_issuers (rg_db (boot_run (boot_run boot_state).2).2) =
  db_issuers (rg_db (boot_run boot_state).2).
Proof.
  apply (bootstrap_idempotent (example_keys true) no_others example_boot_config
    (boot_run boot_state).2 boot_run_wf boot_run_mirrored).
Defined.

(** The other instance of the race finished its start first. *)
Lemma boot_run_settled : settled (rg_db (boot_run boot_state).2) example_file_issuer.
Proof. pose proof (mi_issuers _ _ boot_run_mirrored) as Hi. by apply Forall_inv in Hi. Qed.

Local Notation boot_alone :=
  (bootstrapIssuer (example_keys true) (fun _ d => d) example_file_issuer "" "" boot_state).
Example boot_alone_ok : boot_alone.1 = Ok (mkOutcome true false true).
Proof. vm_compute. reflexivity. Qed.

Lemma bootstrap_race_one_row_witness :
  exists s2, bootstrapIssuer (example_keys true)
      (fun _ _ => rg_db (boot_run boot_state).2) example_file_issuer "" "" boot_state =
    (Ok (mkOutcome false false
       (isRoot (rg_db (boot_run boot_state).2) (fi_Label example_file_issuer))), s2) /\
    db_issuers (rg_db s2) = db_issuers (rg_db (boot_run boot_state).2).
Proof.
  apply (bootstrap_race_one_row (example_keys true) example_file_issuer "" ""
    boot_state boot_alone.2 (mkOutcome true false true)
    (rg_db (boot_run boot_state).2) boot_state_wf boot_run_wf); [reflexivity..| |].
  - apply result_eq, boot_alone_ok.
  - apply boot_run_settled.
Defined.

(** The org of the example database has an issuer with the key of the file:
    the start fails, and the rows of the org are as they were. *)
Definition taken_state : RgState := NewRegistry example_db ["pkcs11:k"%string] 0 2.
Local Notation taken_run := (boot_run taken_state).
Lemma bootstrap_keeps_orgs_witness :
  is_ok taken_run.1 = false /\ others_same 7 example_db (rg_db taken_run.2).
Proof.
  split; [vm_compute; reflexivity|].
  apply (bootstrap_keeps_orgs (example_keys true) no_others (Some example_boot_config)
    taken_state 7); [discriminate|].
  intros label d. repeat split.
Defined.
