(* ===== verification/OrgQuery.v ===== *)
(** The rows, requests and queries of the orgs database: [internal/db/model]
    ([org.go], [project.go], [member.go], [invite.go], [user.go],
    [apikey.go]) and [internal/db/pgsql/query].

    A query is the predicate of its WHERE clause; a list by a sort key is
    ordered by the collation of the database, a parameter. *)
From Stdlib Require Import ZArith Lia String.
From stdpp Require Import base list sets strings sorting.
From S2P Require Import Prelude GoStrings Xdb Roles Tenancy Authorizer Model Query Pbconv RowPb.

(** [strings.ToLower] and [strings.EqualFold] of any text: both map runes by
    the tables of [unicode]; ASCII letters are mapped as in [to_lower]. *)
Class Unicode := {
  ToLower : string -> string;
  EqualFoldText : string -> string -> bool }.
Class UnicodeLaws `{Unicode} := {
  ToLower_idem s : ToLower (ToLower s) = ToLower s;
  ToLower_empty s : ToLower s = EmptyString <-> s = EmptyString;
  EqualFoldText_refl s : EqualFoldText s s = true }.

(** The tables restricted to ASCII. *)
Fixpoint lower_ascii (s : string) : string :=
  match s with
  | EmptyString => EmptyString
  | String c s' => String (to_lower c) (lower_ascii s')
  end.
#[export] Instance unicode_ascii : Unicode :=
  {| ToLower := lower_ascii;
     EqualFoldText s t := bool_decide (lower_ascii s = lower_ascii t) |}.
#[export] Instance unicode_ascii_laws : @UnicodeLaws unicode_ascii.
Proof.
  constructor; simpl.
  - intros s. induction s as [|c s IH]; simpl; [done|]. rewrite IH. f_equal.
    by destruct c as [[] [] [] [] [] [] [] []].
  - by intros [|c s].
  - intros s. by rewrite bool_decide_eq_true.
Qed.

(** [xdb.MaxLenForName] and [xdb.MaxLenForEmail]. *)
Class XdbLimits := { xdb_MaxLenForName : nat; xdb_MaxLenForEmail : nat }.

Record User := mkUser {
  us_ID : Z; us_Email : string; us_EmailVerified : bool; us_Name : string }.

(** [IDP_Enum]: zero is undefined. *)
Record Login := mkLogin {
  lg_ID : Z; lg_ExternalID : string; lg_Provider : Z; lg_Email : string;
  lg_EmailVerified : bool; lg_Name : string; lg_AccessToken : string;
  lg_RefreshToken : string; lg_TokenExpiresAt : Z; lg_Count : Z;
  lg_LastAt : Z }.

Record Invite := mkInvite {
  v_ID : Z; v_OrgID : Z; v_ProjectID : Z; v_InviterID : Z; v_Email : string;
  v_Role : Role_Enum; v_CreatedAt : Z; v_ExpiresAt : Z }.

Record APIKey := mkAPIKey {
  k_ID : Z; k_OrgID : Z; k_ProjectID : Z; k_Key : string; k_Secret : string;
  k_Label : string; k_Scopes : list string; k_Metadata : Metadata;
  k_Status : ItemStatus_Enum; k_CreatedAt : Z; k_ExpiresAt : Z;
  k_UsedAt : Z; k_UsedCount : Z }.

#[global] Instance User_eq_dec : EqDecision User.
Proof. solve_decision. Defined.
#[global] Instance Login_eq_dec : EqDecision Login.
Proof. solve_decision. Defined.
#[global] Instance Invite_eq_dec : EqDecision Invite.
Proof. solve_decision. Defined.

(** ** Validation *)

Section validation.
Context `{XdbLimits}.

(** A required column of a bounded length. *)
Definition badLength (s : string) (max : nat) : bool :=
  bool_decide (s = EmptyString) || (max <? String.length s)%nat.

Definition Org_Validate (m : Org) : result unit :=
  if negb (String.length (o_Alias m) =? 32)%nat || negb (HasPrefix (o_Alias m) "cp_")
  then Err (OtherError ("invalid alias: " ++ o_Alias m))
  else if badLength (o_Name m) 64
  then Err (OtherError ("invalid name: " ++ o_Name m))
  else Ok tt.

Definition ProjectAliasPrefix : string := "prj_".

Definition Project_Validate (m : Project) : result unit :=
  if (Tenancy.p_OrgID m =? 0)%Z then Err (OtherError "invalid org_id")
  else
  let alias := TrimSpace (Tenancy.p_Alias m) in
  if badLength alias 64 || negb (bool_decide (alias = Tenancy.p_Alias m))
  then Err (OtherError ("invalid alias: " ++ Tenancy.p_Alias m))
  else if badLength (Tenancy.p_Name m) 64
  then Err (OtherError ("invalid name: " ++ Tenancy.p_Name m))
  else Ok tt.

Definition User_Validate (u : User) : result unit :=
  if badLength (us_Name u) xdb_MaxLenForName
  then Err (OtherError ("invalid name: " ++ us_Name u))
  else if badLength (us_Email u) xdb_MaxLenForEmail
  then Err (OtherError ("invalid email: " ++ us_Email u))
  else Ok tt.

Definition Login_Validate (u : Login) : result unit :=
  if badLength (lg_ExternalID u) xdb_MaxLenForName
  then Err (OtherError ("invalid external_id: " ++ lg_ExternalID u))
  else if badLength (lg_Name u) xdb_MaxLenForName
  then Err (OtherError ("invalid name: " ++ lg_Name u))
  else if badLength (lg_Email u) xdb_MaxLenForEmail
  then Err (OtherError ("invalid email: " ++ lg_Email u))
  else if (lg_Provider u =? 0)%Z then Err (OtherError "invalid provider")
  else Ok tt.

Definition Invite_Validate (m : Invite) : result unit :=
  if (v_OrgID m =? 0)%Z then Err (OtherError "invalid org_id")
  else if (v_InviterID m =? 0)%Z then Err (OtherError "invalid inviter_id")
  else if badLength (v_Email m) xdb_MaxLenForEmail
  then Err (OtherError ("invalid email: " ++ v_Email m))
  else if bool_decide (v_Role m = Role_None) then Err (OtherError "invalid role")
  else Ok tt.

(** The first scope that is empty or too long. *)
Fixpoint validateScopes (scopes : list string) : result unit :=
  match scopes with
  | [] => Ok tt
  | s :: rest =>
      if badLength s 128 then Err (OtherError ("invalid scope length: " ++ s))
      else validateScopes rest
  end.

Definition APIKey_Validate (m : APIKey) : result unit :=
  if IsZero (k_OrgID m) then Err (OtherError "invalid org ID")
  else if badLength (k_Label m) 255 then Err (OtherError "invalid label length")
  else if bool_decide (k_Status m = ItemStatus_Unknown)
  then Err (OtherError "invalid key status")
  else if badLength (k_Key m) 128 then Err (OtherError "invalid key length")
  else if (128 <? String.length (k_Secret m))%nat
  then Err (OtherError "invalid secret length")
  else if bool_decide (k_Scopes m = []) then Err (OtherError "invalid scopes")
  else validateScopes (k_Scopes m).
End validation.

(** [IsExpired] of an invite and of a key: a NULL expiry never ends. *)
Definition expired (expiresAt now : Z) : bool :=
  negb (expiresAt =? 0)%Z && (expiresAt <? now)%Z.
Definition Invite_IsExpired (m : Invite) (now : Z) : bool := expired (v_ExpiresAt m) now.
Definition APIKey_IsExpired (m : APIKey) (now : Z) : bool := expired (k_ExpiresAt m) now.

Definition Invites_FilterByProject (m : list Invite) (projectID : Z) : list Invite :=
  List.filter (fun v => (v_ProjectID v =? projectID)%Z) m.

(** ** Messages *)

Record Org_pb := mkOrgPb {
  ob_ID : string; ob_Alias : string; ob_Name : string; ob_Description : string;
  ob_CreatedAt : string; ob_Status : ItemStatus_Enum }.
Record Project_pb := mkProjectPb {
  jp_ID : string; jp_OrgID : string; jp_Alias : string; jp_Name : string;
  jp_Description : string; jp_Status : ItemStatus_Enum; jp_CreatedAt : string;
  jp_UpdatedAt : string }.
Record Membership_pb := mkMembershipPb {
  mb_ID : string; mb_OrgID : string; mb_OrgAlias : string; mb_OrgName : string;
  mb_UserID : string; mb_Email : string; mb_Name : string; mb_Role : Role_Enum;
  mb_CreatedAt : string; mb_Scope : Scope_Enum; mb_ProjectID : string;
  mb_ProjectAlias : string; mb_ProjectName : string }.
Record Invite_pb := mkInvitePb {
  vb_ID : string; vb_OrgID : string; vb_InviterID : string; vb_Email : string;
  vb_Role : Role_Enum; vb_CreatedAt : string; vb_Scope : Scope_Enum;
  vb_ProjectID : string; vb_ExpiresAt : string }.
Record APIKey_pb := mkAPIKeyPb {
  kb_ID : string; kb_OrgID : string; kb_ProjectID : string; kb_Label : string;
  kb_Key : string; kb_Secret : string; kb_Scopes : list string;
  kb_Metadata : Metadata; kb_Status : ItemStatus_Enum; kb_CreatedAt : string;
  kb_ExpiresAt : string; kb_UsedAt : string; kb_UsedCount : Z }.

Definition key_le (a b : string * string) : Prop := String.leb a.1 b.1 = true.
#[global] Instance key_le_dec : RelDecision key_le.
Proof. intros a b. unfold key_le. apply _. Defined.

(** The pairs of a map with a value, by key. *)
Definition FlatMap (meta : Metadata) : Metadata :=
  merge_sort key_le
    (List.filter (fun kv => negb (bool_decide (kv.2 = EmptyString))) meta).

Section messages.
Context `{Xdb, ProfileCodec}.

Definition Org_Pb (m : Org) : Org_pb :=
  mkOrgPb (id_string (o_ID m)) (o_Alias m) (o_Name m) (o_Description m)
    (Time_String (o_CreatedAt m)) (o_Status m).

Definition Project_Pb (m : Project) : Project_pb :=
  mkProjectPb (id_string (Tenancy.p_ID m)) (id_string (Tenancy.p_OrgID m))
    (Tenancy.p_Alias m) (Tenancy.p_Name m) (Tenancy.p_Description m)
    (Tenancy.p_Status m) (Time_String (Tenancy.p_CreatedAt m))
    (Time_String (Tenancy.p_UpdatedAt m)).
Definition ProjectResult_Pb (v : PageResult Project)
  : list Project_pb * option NextPage_pb :=
  (Project_Pb <$> pr_rows v, NextPage v).

Definition MembershipInfo_Pb (m : MembershipInfo) : Membership_pb :=
  mkMembershipPb (id_string (mi_ID m)) (id_string (mi_OrgID m)) (mi_OrgAlias m)
    (mi_OrgName m) (id_string (mi_UserID m)) (mi_Email m) (mi_Name m) (mi_Role m)
    (Time_String (mi_CreatedAt m)) (ScopeOf (mi_ProjectID m))
    (id_string (mi_ProjectID m)) (mi_ProjectAlias m) (mi_ProjectName m).

(** The membership with the org, the project and the user it is given. *)
Definition Membership_Pb (m : Membership) (org : option Org) (project : option Project)
    (user : option User) : Membership_pb :=
  let str {R} (f : R -> string) (r : option R) := default EmptyString (f <$> r) in
  mkMembershipPb (id_string (m_ID m)) (id_string (m_OrgID m)) (str o_Alias org)
    (str o_Name org) (id_string (m_UserID m)) (str us_Email user) (str us_Name user)
    (m_Role m) (Time_String (m_CreatedAt m)) (ScopeOf (m_ProjectID m))
    (id_string (m_ProjectID m)) (str Tenancy.p_Alias project)
    (str Tenancy.p_Name project).

Definition Invite_Pb (m : Invite) : Invite_pb :=
  mkInvitePb (id_string (v_ID m)) (id_string (v_OrgID m)) (id_string (v_InviterID m))
    (v_Email m) (v_Role m) (Time_String (v_CreatedAt m)) (ScopeOf (v_ProjectID m))
    (id_string (v_ProjectID m)) (Time_String (v_ExpiresAt m)).

(** The secret is never in the message of a row. *)
Definition APIKey_Pb (m : APIKey) : APIKey_pb :=
  mkAPIKeyPb (id_string (k_ID m)) (id_string (k_OrgID m)) (id_string (k_ProjectID m))
    (k_Label m) (k_Key m) EmptyString (k_Scopes m) (FlatMap (k_Metadata m)) (k_Status m)
    (Time_String (k_CreatedAt m)) (Time_String (k_ExpiresAt m))
    (Time_String (k_UsedAt m)) (k_UsedCount m).
Definition APIKeyResult_Pb (v : PageResult APIKey)
  : list APIKey_pb * option NextPage_pb :=
  (APIKey_Pb <$> pr_rows v, NextPage v).
End messages.

(** ** Lists by a sort key *)

(** The order of text columns. *)
Class Collation := { text_le : string -> string -> bool }.
Class CollationLaws `{Collation} := {
  text_le_total s t : text_le s t = true \/ text_le t s = true;
  text_le_trans s t u : text_le s t = true -> text_le t u = true -> text_le s u = true;
  text_le_antisym s t : text_le s t = true -> text_le t s = true -> s = t }.

(** The order of a row comparison [(text, id)]. *)
Definition text_id_le `{Collation} (a b : string * Z) : bool :=
  if bool_decide (a.1 = b.1) then (a.2 <=? b.2)%Z else text_le a.1 b.1.

Section keyed.
Context `{Xdb} {R K : Type} `{EqDecision K}.
Context (key : R -> K) (le : K -> K -> bool).
Context (decode : list key_value -> option K) (encode : K -> string).

Definition key_order (a b : R) : Prop := le (key a) (key b) = true.
#[global] Instance key_order_dec : RelDecision key_order.
Proof. intros a b. unfold key_order. apply _. Defined.

Definition orderBy (rows : list R) : list R := merge_sort key_order rows.

(** [pageBy]: past the key of a cursor, from the start of cursor pagination,
    or at the offset. *)
Definition pageBy (rows : list R) (limit offset : Z) (c : Cursor) : list R :=
  let ordered := orderBy rows in
  match cur_key c with
  | Some k =>
      take (Z.to_nat limit)
        (List.filter (fun r => match decode k with
           | Some last => le last (key r) && negb (bool_decide (key r = last))
           | None => false
           end) ordered)
  | None =>
      if cur_set c then take (Z.to_nat limit) ordered
      else take (Z.to_nat limit) (drop (Z.to_nat offset) ordered)
  end.

Definition listRowsBy (rows : list R) (limit offset : Z) (c : Cursor)
  : PageResult R :=
  let limit := Limit limit in
  let page := pageBy rows limit offset c in
  let count := Z.of_nat (length page) in
  let more := has_next count limit in
  if cur_set c then
    mkPage page more 0
      (if more then match last page with
                    | Some r => encode (key r) | None => "" end else "")
  else mkPage page more (next_offset offset count limit) "".
End keyed.

(** ** Lists by name *)

Definition nameKey (k : list key_value) : option (string * Z) :=
  match k with [KName n; KID id] => Some (n, id) | _ => None end.

Section by_name.
Context `{Xdb, Collation} {R : Type} (name : R -> string) (rid : R -> Z).

Definition listRowsByName : list R -> Z -> Z -> Cursor -> PageResult R :=
  listRowsBy (fun r => (name r, rid r)) text_id_le nameKey
    (fun k => EncodeNameCursor k.1 k.2).
End by_name.

Definition idIs (filter id : Z) : bool := (filter =? 0)%Z || (id =? filter)%Z.
Definition statusIs (filter st : ItemStatus_Enum) : bool :=
  bool_decide (filter = ItemStatus_Unknown) || bool_decide (st = filter).

(** [project_id] of a row at the scope of the request: the project, or the
    scope kind when it is zero. *)
Definition atScope (projectID : Z) (scope : Scope_Enum) (row : Z) : bool :=
  whereProjectScope (setProjectScope NewQueryParams projectID scope) row.

(** ** Memberships *)

Record UpdateMemberRoleRequest := mkUpdateMemberRole {
  um_OrgID : Z; um_ProjectID : Z; um_UserID : Z; um_Role : Role_Enum }.
Definition UpdateMemberRole_where (r : UpdateMemberRoleRequest) (m : Membership)
  : bool :=
  (m_OrgID m =? um_OrgID r)%Z && (m_UserID m =? um_UserID r)%Z &&
  atScope (um_ProjectID r) Scope_Org (m_ProjectID m).

Definition ListMemberships_where (r : ListMembershipsRequest) (m : MembershipInfo)
  : bool :=
  idIs (lm_UserID r) (mi_UserID m) && idIs (lm_OrgID r) (mi_OrgID m) &&
  atScope (lm_ProjectID r) (lm_Scope r) (mi_ProjectID m) &&
  statusIs (lm_OrgStatus r) (mi_OrgStatus m) &&
  (bool_decide (lm_Role r = Role_None) || bool_decide (mi_Role m = lm_Role r)).

(** ORDER BY email, id; a zero limit is the default page. *)
Definition ListMemberships_page `{Xdb, Collation} (r : ListMembershipsRequest)
    (rows : list MembershipInfo) : list MembershipInfo :=
  pageBy (fun m => (mi_Email m, mi_ID m)) text_id_le nameKey
    (List.filter (ListMemberships_where r) rows)
    (Limit (lm_Limit r)) (lm_Offset r) zeroCursor.

Record DeleteMemberRequest := mkDeleteMember {
  dm_OrgID : Z; dm_ProjectID : Z; dm_UserID : Z; dm_Scope : Scope_Enum }.
Definition DeleteMember_where (r : DeleteMemberRequest) (m : Membership) : bool :=
  idIs (dm_OrgID r) (m_OrgID m) && idIs (dm_UserID r) (m_UserID m) &&
  atScope (dm_ProjectID r) (dm_Scope r) (m_ProjectID m).

(** ** Invites *)

Record GetInviteRequest := mkGetInvite {
  gi_OrgID : Z; gi_ProjectID : Z; gi_Email : string }.
Definition GetInvite_where (r : GetInviteRequest) (v : Invite) : bool :=
  (v_OrgID v =? gi_OrgID r)%Z && bool_decide (v_Email v = gi_Email r) &&
  atScope (gi_ProjectID r) Scope_Org (v_ProjectID v).

(** The pending invites of an email: not expired at [now]. *)
Definition GetUserInvites_where (email : string) (now : Z) (v : Invite) : bool :=
  bool_decide (v_Email v = email) &&
  ((v_ExpiresAt v =? 0)%Z || (now <? v_ExpiresAt v)%Z).

Record DeleteInviteRequest := mkDeleteInvite {
  di_OrgID : Z; di_ProjectID : Z; di_Email : string; di_Scope : Scope_Enum }.
Definition DeleteInvite_where (r : DeleteInviteRequest) (v : Invite) : bool :=
  idIs (di_OrgID r) (v_OrgID v) &&
  (bool_decide (di_Email r = EmptyString) || bool_decide (v_Email v = di_Email r)) &&
  atScope (di_ProjectID r) (di_Scope r) (v_ProjectID v).

(** ** Orgs and projects *)

Definition setText (new old : string) : string :=
  if bool_decide (new = EmptyString) then old else new.
Definition setStatus (new old : ItemStatus_Enum) : ItemStatus_Enum :=
  if bool_decide (new = ItemStatus_Unknown) then old else new.

Record UpdateOrgRequest := mkUpdateOrg {
  uo_ID : Z; uo_Status : ItemStatus_Enum; uo_Name : string; uo_Description : string }.
Definition UpdateOrg_set (r : UpdateOrgRequest) (o : Org) : Org :=
  mkOrg (o_ID o) (o_Alias o) (setText (uo_Name r) (o_Name o))
    (setText (uo_Description r) (o_Description o))
    (setStatus (uo_Status r) (o_Status o)) (o_CreatedAt o).

Record ListOrgsRequest := mkListOrgs {
  lo_Limit : Z; lo_Offset : Z; lo_Cursor : Cursor; lo_Status : ItemStatus_Enum }.
Definition ListOrgsRequest_Validate (r : ListOrgsRequest) : result unit :=
  Cursor_checkKey (lo_Cursor r) keyName.
Definition ListOrgs_where (r : ListOrgsRequest) (o : Org) : bool :=
  statusIs (lo_Status r) (o_Status o).

Record UpdateProjectRequest := mkUpdateProject {
  uj_ID : Z; uj_Name : string; uj_Description : string; uj_Status : ItemStatus_Enum }.
Definition UpdateProject_set (r : UpdateProjectRequest) (now : Z) (p : Project)
  : Project :=
  mkProject (Tenancy.p_ID p) (Tenancy.p_OrgID p) (Tenancy.p_Alias p) (setText (uj_Name r) (Tenancy.p_Name p))
    (setText (uj_Description r) (Tenancy.p_Description p))
    (setStatus (uj_Status r) (Tenancy.p_Status p)) (Tenancy.p_CreatedAt p) now.

(** [lj_IDs] is a nil slice when [None]. *)
Record ListProjectsRequest := mkListProjects {
  lj_OrgID : Z; lj_Status : ItemStatus_Enum; lj_IDs : option (list Z);
  lj_Limit : Z; lj_Offset : Z; lj_Cursor : Cursor }.
Definition ListProjectsRequest_Validate (r : ListProjectsRequest) : result unit :=
  Cursor_checkKey (lj_Cursor r) keyName.
Definition ListProjects_where (r : ListProjectsRequest) (p : Project) : bool :=
  idIs (lj_OrgID r) (Tenancy.p_OrgID p) && statusIs (lj_Status r) (Tenancy.p_Status p) &&
  match lj_IDs r with
  | None => true
  | Some ids => bool_decide (Tenancy.p_ID p ∈ idArray ids)
  end.

(** ** API keys *)

Record ListAPIKeysRequest := mkListAPIKeys {
  lk_OrgID : Z; lk_ProjectID : Z; lk_Key : string; lk_Scopes : list string;
  lk_Status : ItemStatus_Enum; lk_Limit : Z; lk_Offset : Z }.

(** [project_id = ?] is no match for a key of the org; [scopes @> ?] holds
    when the key has every scope listed. *)
Definition ListAPIKeys_where (r : ListAPIKeysRequest) (k : APIKey) : bool :=
  idIs (lk_OrgID r) (k_OrgID k) && idIs (lk_ProjectID r) (k_ProjectID k) &&
  forallb (fun s => bool_decide (s ∈ k_Scopes k)) (lk_Scopes r) &&
  (bool_decide (lk_Key r = EmptyString) || bool_decide (k_Key k = lk_Key r)) &&
  statusIs (lk_Status r) (k_Status k).

(** ORDER BY created_at DESC, id DESC *)
Definition newest_le (a b : Z * Z) : bool :=
  if (a.1 =? b.1)%Z then (b.2 <=? a.2)%Z else (b.1 <? a.1)%Z.
Definition ListAPIKeys_page `{Xdb} (r : ListAPIKeysRequest) (rows : list APIKey)
  : PageResult APIKey :=
  listRowsBy (fun k => (k_CreatedAt k, k_ID k)) newest_le (fun _ => None)
    (fun _ => EmptyString) (List.filter (ListAPIKeys_where r) rows)
    (lk_Limit r) (lk_Offset r) zeroCursor.

Definition org_key_is (orgID id : Z) (k : APIKey) : bool :=
  (k_OrgID k =? orgID)%Z && (k_ID k =? id)%Z.
Definition UseAPIKey_set (now : Z) (k : APIKey) : APIKey :=
  mkAPIKey (k_ID k) (k_OrgID k) (k_ProjectID k) (k_Key k) (k_Secret k)
    (k_Label k) (k_Scopes k) (k_Metadata k) (k_Status k) (k_CreatedAt k)
    (k_ExpiresAt k) now (k_UsedCount k + 1).

(** ** Reading a list by its cursors

    A reader asks for the first page of cursor pagination and then for the
    page after the cursor each page carries, until a page has none. [None] is
    out of fuel. *)
Fixpoint readAll {S P} (page : string -> M S (list P * option NextPage_pb))
    (fuel : nat) (cursor : string) (s : S) : option (result (list P)) :=
  match fuel with
  | O => None
  | S fuel =>
      match page cursor s with
      | (Err e, _) => Some (Err e)
      | (Ok (ps, None), _) => Some (Ok ps)
      | (Ok (ps, Some next), s') =>
          match readAll page fuel (np_Cursor next) s' with
          | Some (Ok rest) => Some (Ok (ps ++ rest))
          | r => r
          end
      end
  end.

Section keyed_complete.
Context `{XL : XdbLaws} {R K : Type} `{EqDecision K}.
Context (key : R -> K) (le : K -> K -> bool).
Context (keys : K -> list key_value) (decode : list key_value -> option K)
  (encode : K -> string) (kind : cursorKind).
Context (le_total : forall a b, le a b = true \/ le b a = true)
  (le_trans : forall a b c, le a b = true -> le b c = true -> le a c = true)
  (le_antisym : forall a b, le a b = true -> le b a = true -> a = b)
  (decode_keys : forall k, decode (keys k) = Some k).

(** Before in the order of the list. *)
Definition key_before (a b : R) : Prop := le (key a) (key b) = true /\ key a <> key b.
Definition in_key_order (l : list R) : Prop := StronglySorted key_before l.

Lemma orderBy_perm rows : orderBy key le rows ≡ₚ rows.
Proof. apply merge_sort_Permutation. Qed.

Lemma orderBy_sorted rows : NoDup (key <$> rows) -> in_key_order (orderBy key le rows).
Proof.
  intros Hnd. assert (NoDup (key <$> orderBy key le rows)) as Hnd'
    by (by rewrite orderBy_perm).
  assert (StronglySorted (key_order key le) (orderBy key le rows)) as Hs.
  { apply StronglySorted_merge_sort.
    - intros a b c. apply le_trans.
    - intros a b. apply le_total. }
  unfold in_key_order. induction Hs as [|a l Hs IH Ha]; [constructor|].
  rewrite fmap_cons, NoDup_cons in Hnd'. destruct Hnd' as [Hni Hnd'].
  constructor; [by apply IH|]. rewrite Forall_forall in *. intros x Hx.
  split; [by apply Ha|]. intros E. apply Hni. rewrite E. by apply list_elem_of_fmap_2.
Qed.

Lemma in_key_order_app l1 l2 x y :
  in_key_order (l1 ++ l2) -> x ∈ l1 -> y ∈ l2 -> key_before x y.
Proof.
  induction l1 as [|a l1 IH]; intros Hd Hx Hy; [by apply not_elem_of_nil in Hx|].
  inversion Hd as [|? ? Hd' Ha]; subst. rewrite Forall_forall in Ha.
  apply elem_of_cons in Hx as [->|Hx]; [apply Ha; set_solver|by apply IH].
Qed.

(** The cursor after the rows already read. *)
Definition keyed_after (read : list R) : Cursor :=
  match last read with
  | None => NewCursor 0
  | Some r => mkCursor true kind (Some (keys (key r)))
  end.

Lemma pageBy_after rows read rest limit :
  NoDup (key <$> rows) -> orderBy key le rows = read ++ rest ->
  pageBy key le decode rows limit 0 (keyed_after read) = take (Z.to_nat limit) rest.
Proof.
  intros Hnd Heq. pose proof (orderBy_sorted rows Hnd) as Hd. rewrite Heq in Hd.
  unfold keyed_after, pageBy. rewrite Heq.
  destruct (last read) as [r|] eqn:El; [|by apply last_None in El as ->].
  simpl. rewrite decode_keys. f_equal. apply last_Some in El as [l' ->].
  rewrite List.filter_app, filter_none, filter_all; [done| |].
  - intros x Hx. destruct (in_key_order_app _ _ r x Hd ltac:(set_solver) Hx) as [Hl Hn].
    rewrite Hl, bool_decide_false by congruence. done.
  - intros x Hx. apply andb_false_iff. elem_snoc Hx; cycle 1.
    { right. by rewrite bool_decide_true. }
    rewrite <-app_assoc in Hd.
    destruct (in_key_order_app l' ([r] ++ rest) x r Hd Hx ltac:(set_solver)) as [Hl Hn].
    left. apply not_true_iff_false. intros Hl'. by apply Hn, le_antisym.
Qed.

(** A page has rows of the list only. *)
Lemma listRowsBy_rows rows limit offset c r :
  r ∈ pr_rows (listRowsBy key le decode encode rows limit offset c) -> r ∈ rows.
Proof.
  assert (forall l n k, r ∈ take n (drop k l) -> r ∈ l) as Ht.
  { intros l n k Hr. rewrite <-(take_drop k l). apply elem_of_app. right.
    rewrite <-(take_drop n (drop k l)). apply elem_of_app. by left. }
  intros Hr. rewrite <-(orderBy_perm rows).
  assert (r ∈ pageBy key le decode rows (Limit limit) offset c) as Hp
    by (revert Hr; unfold listRowsBy; by destruct (cur_set c)).
  unfold pageBy in Hp. destruct (cur_key c).
  - rewrite <-(drop_0 (List.filter _ _)) in Hp. apply Ht, filter_elem in Hp. apply Hp.
  - destruct (cur_set c); [rewrite <-(drop_0 (orderBy _ _ _)) in Hp|]; by apply Ht in Hp.
Qed.

(** The page after the rows already read: another page follows and its
    cursor is after this one, or this one has all the rows that are left. *)
Lemma listRowsBy_after (parse : string -> result Cursor) rows limit read rest :
  NoDup (key <$> rows) -> (0 <= limit)%Z ->
  (forall r, r ∈ rows ->
    parse (encode (key r)) = Ok (mkCursor true kind (Some (keys (key r))))) ->
  orderBy key le rows = read ++ rest ->
  let pg := listRowsBy key le decode encode rows limit 0 (keyed_after read) in
  (pr_hasNext pg = false /\ pr_rows pg = rest) \/
  exists rest', pr_hasNext pg = true /\ rest = pr_rows pg ++ rest' /\
    (length rest' < length rest)%nat /\
    parse (pr_cursor pg) = Ok (keyed_after (read ++ pr_rows pg)).
Proof.
  intros Hnd Hl Hp Heq. pose proof (Limit_pos limit Hl) as Hlp.
  assert (cur_set (keyed_after read) = true) as Hset.
  { unfold keyed_after, NewCursor. destruct (last read); by repeat case_match. }
  set (page := take (Z.to_nat (Limit limit)) rest).
  assert (listRowsBy key le decode encode rows limit 0 (keyed_after read) =
    mkPage page (has_next (Z.of_nat (length page)) (Limit limit)) 0
      (if has_next (Z.of_nat (length page)) (Limit limit)
       then match last page with
            | Some r => encode (key r) | None => "" end else "")) as ->.
  { unfold listRowsBy. rewrite (pageBy_after rows read rest) by done.
    by rewrite Hset. }
  simpl. destruct (has_next _ _) eqn:En.
  - right. pose proof (has_next_progress _ _ En) as Hpos.
    exists (drop (Z.to_nat (Limit limit)) rest).
    destruct (last page) as [r|] eqn:El; cycle 1.
    { apply last_None in El. rewrite El in Hpos. simpl in Hpos. lia. }
    assert (r ∈ rows) as Hr.
    { rewrite <-(orderBy_perm rows), Heq. apply elem_of_app. right.
      apply last_Some_elem_of in El.
      rewrite <-(take_drop (Z.to_nat (Limit limit)) rest).
      apply elem_of_app. by left. }
    rewrite Hp by done. unfold keyed_after.
    rewrite last_app, El. unfold page at 1. rewrite take_drop, length_drop.
    split_and!; try done. assert (length rest <> 0)%nat; [|lia].
    intros E. apply length_zero_iff_nil in E. subst rest.
    unfold page in Hpos. rewrite take_nil in Hpos. simpl in Hpos. lia.
  - left. split; [done|].
    assert (length page < Z.to_nat (Limit limit))%nat as Hlt.
    { destruct (decide (length page < Z.to_nat (Limit limit))%nat); [done|].
      rewrite has_next_full in En; [done|done|lia]. }
    unfold page in *. rewrite length_take in Hlt. apply take_ge. lia.
Qed.

(** A reader of a list whose pages are those of the rows reads the rows that
    are left, in order, and ends. *)
Lemma readAll_spec {S P} (I : S -> Prop) (page : string -> M S (list P * option NextPage_pb))
    (pb : R -> P) (parse : string -> result Cursor) rows limit :
  NoDup (key <$> rows) -> (0 <= limit)%Z ->
  (forall r, r ∈ rows ->
    parse (encode (key r)) = Ok (mkCursor true kind (Some (keys (key r))))) ->
  (forall cursor c s, parse cursor = Ok c -> I s ->
    let pg := listRowsBy key le decode encode rows limit 0 c in
    (page cursor s).1 = Ok (pb <$> pr_rows pg, NextPage pg) /\ I (page cursor s).2) ->
  forall fuel read rest cursor s, (length rest < fuel)%nat -> I s ->
    orderBy key le rows = read ++ rest -> parse cursor = Ok (keyed_after read) ->
    readAll page fuel cursor s = Some (Ok (pb <$> rest)).
Proof.
  intros Hnd Hl Hp Hpage. induction fuel as [|fuel IH];
    intros read rest cursor s Hf Hs Heq Hc; [lia|]. simpl.
  destruct (Hpage cursor _ s Hc Hs) as [Er Hs']. destruct (page cursor s) as [r s'].
  simpl in Er, Hs'. subst r.
  pose proof (listRowsBy_after parse rows limit read rest Hnd Hl Hp Heq) as Ha.
  cbv zeta in Ha. set (pg := listRowsBy _ _ _ _ _ _ _ _) in *. unfold NextPage.
  destruct Ha as [[En Hr]|(rest' & En & Hr & Hlt & Hc')]; rewrite En; [by rewrite Hr|].
  cbn [np_Cursor]. rewrite Hr, app_assoc in Heq.
  rewrite (IH (read ++ pr_rows pg) rest' (pr_cursor pg) s'); [|lia|done..].
  by rewrite Hr, fmap_app.
Qed.
End keyed_complete.
