(* ===== verification/OrgDb.v ===== *)
(** The orgs database: [internal/db/pgsql] ([org.go], [project.go],
    [member.go], [invite.go], [user.go], [apikey.go]) over the tables and the
    view of [sql/trustycadb/migrations/1_tables.up.sql].

    The state is the rows of the tables, the clock, and the generators of row
    IDs and of random text.  A method that begins a transaction leaves the
    tables as they were when it fails; methods run one at a time. *)
From Stdlib Require Import ZArith Lia.
From stdpp Require Import base list strings pretty sorting.
From S2P Require Import Prelude GoStrings Xdb Roles Tenancy Authorizer Model Query Sql CaDb OrgQuery.

(** ** State *)

Record ODb := mkODb {
  od_now : Z; od_seq : nat; od_random : nat;
  od_logins : list Login; od_users : list User; od_orgs : list Org;
  od_projects : list Project; od_members : list Membership;
  od_invites : list Invite; od_keys : list APIKey }.

(** The rows of a table in the state. *)
Record OTable (R : Type) := mkOTable {
  ot_rows : ODb -> list R; ot_set : list R -> ODb -> ODb }.
Arguments mkOTable {R}.
Arguments ot_rows {R}.
Arguments ot_set {R}.

Definition with_gen (seq random : nat) (s : ODb) : ODb :=
  mkODb (od_now s) seq random (od_logins s) (od_users s) (od_orgs s)
    (od_projects s) (od_members s) (od_invites s) (od_keys s).
Definition logins : OTable Login := mkOTable od_logins (fun l s =>
  mkODb (od_now s) (od_seq s) (od_random s) l (od_users s) (od_orgs s)
    (od_projects s) (od_members s) (od_invites s) (od_keys s)).
Definition users : OTable User := mkOTable od_users (fun l s =>
  mkODb (od_now s) (od_seq s) (od_random s) (od_logins s) l (od_orgs s)
    (od_projects s) (od_members s) (od_invites s) (od_keys s)).
Definition orgs : OTable Org := mkOTable od_orgs (fun l s =>
  mkODb (od_now s) (od_seq s) (od_random s) (od_logins s) (od_users s) l
    (od_projects s) (od_members s) (od_invites s) (od_keys s)).
Definition projects : OTable Project := mkOTable od_projects (fun l s =>
  mkODb (od_now s) (od_seq s) (od_random s) (od_logins s) (od_users s)
    (od_orgs s) l (od_members s) (od_invites s) (od_keys s)).
Definition members : OTable Membership := mkOTable od_members (fun l s =>
  mkODb (od_now s) (od_seq s) (od_random s) (od_logins s) (od_users s)
    (od_orgs s) (od_projects s) l (od_invites s) (od_keys s)).
Definition invites : OTable Invite := mkOTable od_invites (fun l s =>
  mkODb (od_now s) (od_seq s) (od_random s) (od_logins s) (od_users s)
    (od_orgs s) (od_projects s) (od_members s) l (od_keys s)).
Definition apikeys : OTable APIKey := mkOTable od_keys (fun l s =>
  mkODb (od_now s) (od_seq s) (od_random s) (od_logins s) (od_users s)
    (od_orgs s) (od_projects s) (od_members s) (od_invites s) l).

(** The constraints of the tables. *)
Definition login_provider_email : unique Login :=
  Unique "unique_login_provider_email" _ _ (fun l => (lg_Provider l, lg_Email l)).
Definition login_uniques : list (unique Login) :=
  [Unique "login_pkey" _ _ lg_ID; login_provider_email].
Definition user_email : unique User := Unique "unique_user_email" _ _ us_Email.
Definition user_uniques : list (unique User) :=
  [Unique "user_pkey" _ _ us_ID; user_email].
Definition org_uniques : list (unique Org) :=
  [Unique "org_pkey" _ _ o_ID; Unique "unique_org_alias" _ _ o_Alias].
Definition project_uniques : list (unique Project) :=
  [Unique "project_pkey" _ _ Tenancy.p_ID;
   Unique "unique_project_org_alias" _ _
     (fun p => (Tenancy.p_OrgID p, Tenancy.p_Alias p));
   Unique "unique_project_org_id" _ _
     (fun p => (Tenancy.p_OrgID p, Tenancy.p_ID p))].
Definition member_scope : unique Membership :=
  Unique "unique_membership_org_project_user" _ _
    (fun m => (m_OrgID m, m_ProjectID m, m_UserID m)).
Definition member_uniques : list (unique Membership) :=
  [Unique "membership_pkey" _ _ m_ID; member_scope].
Definition invite_scope : unique Invite :=
  Unique "unique_invite_org_project_email" _ _
    (fun v => (v_OrgID v, v_ProjectID v, v_Email v)).
Definition invite_uniques : list (unique Invite) :=
  [Unique "invite_pkey" _ _ v_ID; invite_scope].
Definition apikey_uniques : list (unique APIKey) :=
  [Unique "apikey_pkey" _ _ k_ID; Unique "apikey_key" _ _ k_Key].

(** [certutil.RandomString]: the text of a length a draw yields. *)
Class Random := { random_string : nat -> nat -> string }.

(** ** Statements and transactions *)

Definition oexec {R A} (t : OTable R) (f : list R -> result (A * list R))
  : M ODb A := fun s =>
  match f (ot_rows t s) with
  | Ok (a, rows) => (Ok a, ot_set t rows s)
  | Err e => (Err e, s)
  end.
Definition oselect {R A} (t : OTable R) (f : list R -> result A) : M ODb A :=
  fun s => (f (ot_rows t s), s).
Definition oNow : M ODb Z := fun s => (Ok (od_now s), s).

(** The tables are restored when the transaction fails; the IDs handed out
    and the random text drawn stay used. *)
Definition otransaction {A} (m : M ODb A) : M ODb A := fun s =>
  match m s with
  | (Ok a, s') => (Ok a, s')
  | (Err e, s') => (Err e, with_gen (od_seq s') (od_random s') s)
  end.

Definition references (ok : ODb -> bool) (name : string) : M ODb unit := fun s =>
  guard (ok s) (OtherError ("violates foreign key constraint " ++ name)) s.

Definition org_exists (id : Z) (s : ODb) : bool :=
  bool_decide (id ∈ (o_ID <$> od_orgs s)).
Definition user_exists (id : Z) (s : ODb) : bool :=
  bool_decide (id ∈ (us_ID <$> od_users s)).
(** The composite reference [(org_id, project_id)]; NULL references nothing. *)
Definition project_of (orgID projectID : Z) (s : ODb) : bool :=
  IsZero projectID ||
  bool_decide ((orgID, projectID) ∈
    ((fun p => (Tenancy.p_OrgID p, Tenancy.p_ID p)) <$> od_projects s)).

(** An INTEGER column plus one. *)
Definition increment (n : Z) : result Z :=
  if (n <? 2147483647)%Z then Ok (n + 1)%Z else Err (OtherError "integer out of range").

Section provider.
Context `{Xdb, XdbLimits, Unicode, Collation, IdGen, Random}.

Definition oNextID : M ODb Z := fun s =>
  (Ok (flake (od_seq s)), with_gen (S (od_seq s)) (od_random s) s).
Definition oensureID (id : Z) : M ODb Z := if IsZero id then oNextID else ret id.
Definition RandomString (n : nat) : M ODb string := fun s =>
  (Ok (random_string (od_random s) n), with_gen (od_seq s) (S (od_random s)) s).

Definition onot_found {A} (table key : string) (m : M ODb A) : M ODb A :=
  catch m (fun r => match r with
                    | Ok a => ret a
                    | Err e => fail (CheckNotFoundError e table key)
                    end).
Definition ogetRow {R} (t : OTable R) (name : string) (rid : R -> Z) (id : Z)
  : M ODb R :=
  onot_found name (pretty id) (oselect t (select_row (fun r => (rid r =? id)%Z))).
Definition odeleteRow {R} (t : OTable R) (rid : R -> Z) (id : Z) : M ODb Z :=
  oexec t (fun rows => Ok (delete_rows (fun r => (rid r =? id)%Z) rows)).

(** *** Users and logins *)

(** ON CONFLICT (provider, email) DO UPDATE *)
Definition upsertLogin (l : Login) (now : Z) (rows : list Login)
  : result (Login * list Login) :=
  match List.find (fun x => bool_decide (u_key login_provider_email x =
                                         u_key login_provider_email l)) rows with
  | Some old =>
      let? count := increment (lg_Count old) in
      update_row login_uniques
        (fun x => bool_decide (u_key login_provider_email x =
                               u_key login_provider_email l))
        (fun x => mkLogin (lg_ID x) (lg_ExternalID x) (lg_Provider x) (lg_Email x)
           (lg_EmailVerified l) (lg_Name l) (lg_AccessToken l)
           (lg_RefreshToken l) (lg_TokenExpiresAt l) count now) rows
  | None =>
      insert_row login_uniques
        (mkLogin (lg_ID l) (lg_ExternalID l) (lg_Provider l) (lg_Email l)
           (lg_EmailVerified l) (lg_Name l) (lg_AccessToken l)
           (lg_RefreshToken l) (lg_TokenExpiresAt l) 1 now) rows
  end.

Definition RegisterUser (u : User) : M ODb User :=
  oexec users (upsert_row user_uniques user_email u (fun _ => true)
    (fun x => mkUser (us_ID x) (us_Email x) (us_EmailVerified x) (us_Name u))).

Definition Provider_LoginUser (m : Login) : M ODb (Login * User) :=
  let! id := oNextID in
  let email := ToLower (lg_Email m) in
  let name := if bool_decide (lg_Name m = EmptyString) then email else lg_Name m in
  let login := mkLogin id (lg_ExternalID m) (lg_Provider m) email
    (lg_EmailVerified m) name (lg_AccessToken m) (lg_RefreshToken m)
    (lg_TokenExpiresAt m) (lg_Count m) (lg_LastAt m) in
  lift_result (Login_Validate login) ;;;
  let! now := oNow in
  let! l := oexec logins (upsertLogin login now) in
  let! user := onot_found "login" (pretty id)
    (RegisterUser (mkUser id email (lg_EmailVerified m) name)) in
  ret (l, user).

Definition Provider_GetUser (id : Z) : M ODb User := ogetRow users "user" us_ID id.
Definition Provider_GetUserByEmail (email : string) : M ODb User :=
  let email := ToLower email in
  onot_found "user" email
    (oselect users (select_row (fun u => bool_decide (us_Email u = email)))).
Definition Provider_UpdateUser (id : Z) (name : string) (emailVerified : bool)
  : M ODb User :=
  guard (negb (badLength name xdb_MaxLenForName))
    (OtherError ("invalid name: " ++ name)) ;;;
  onot_found "user" (pretty id)
    (oexec users (update_row user_uniques (fun u => (us_ID u =? id)%Z)
       (fun u => mkUser (us_ID u) (us_Email u) emailVerified name))).
Definition Provider_GetLogin (id : Z) : M ODb Login :=
  ogetRow logins "login" lg_ID id.
Definition Provider_DeleteLogin (id : Z) : M ODb Z := odeleteRow logins lg_ID id.
Definition Provider_GetLoginsByEmail (email : string) : M ODb (list Login) :=
  oselect logins (fun rows =>
    Ok (List.filter (fun l => bool_decide (lg_Email l = ToLower email)) rows)).

(** DELETE of the users of an email, ON DELETE CASCADE of their memberships
    and of the invites they sent. *)
Definition deleteUsers (email : string) : M ODb Z := fun s =>
  let '(n, l) := delete_rows (fun u => bool_decide (us_Email u = email)) (od_users s) in
  let s := ot_set users l s in
  let s := ot_set members (List.filter (fun m => user_exists (m_UserID m) s) (od_members s)) s in
  (Ok n, ot_set invites (List.filter (fun v => user_exists (v_InviterID v) s)
           (od_invites s)) s).

(** The number of rows deleted from each table. *)
Definition Provider_DeleteUserByEmail (email : string) : M ODb (list (string * Z)) :=
  let email := ToLower email in
  let! l := oexec logins (fun rows =>
    Ok (delete_rows (fun l => bool_decide (lg_Email l = email)) rows)) in
  let! u := deleteUsers email in
  ret [("trustyca.login", l); ("trustyca.user", u)]%string.

Definition Provider_DeleteUser (id : Z) : M ODb (list (string * Z)) :=
  let! user := Provider_GetUser id in Provider_DeleteUserByEmail (us_Email user).

Definition login_le (a b : Login) : Prop := (lg_ID a <= lg_ID b)%Z.
#[local] Instance login_le_dec : RelDecision login_le.
Proof. intros a b. unfold login_le. apply _. Defined.

(** ORDER BY id ASC: the page and the next offset. *)
Definition Provider_ListLogins (limit offset : Z) : M ODb (list Login * Z) :=
  let limit := if (limit =? 0)%Z then DefaultPageSize else limit in
  oselect logins (fun rows =>
    let page := take (Z.to_nat limit) (drop (Z.to_nat offset) (merge_sort login_le rows)) in
    Ok (page, next_offset offset (Z.of_nat (length page)) limit)).

(** *** Memberships *)

Definition upsertMember (m : Membership) : M ODb Membership :=
  references (org_exists (m_OrgID m)) "membership_org_id_fkey" ;;;
  references (user_exists (m_UserID m)) "membership_user_id_fkey" ;;;
  references (project_of (m_OrgID m) (m_ProjectID m)) "fk_membership_project" ;;;
  oexec members (upsert_row member_uniques member_scope m (fun _ => true)
    (fun x => mkMembership (m_ID x) (m_OrgID x) (m_ProjectID x) (m_UserID x)
                (m_Role m) (m_CreatedAt x))).

Definition Provider_AddMember (member : Membership) : M ODb Membership :=
  let! id := oensureID (m_ID member) in
  lift_result (Membership_Validate member) ;;;
  let! now := oNow in
  upsertMember (mkMembership id (m_OrgID member) (m_ProjectID member)
    (m_UserID member) (m_Role member) now).

Definition Provider_UpdateMemberRole (req : UpdateMemberRoleRequest)
  : M ODb Membership :=
  guard (negb (um_OrgID req =? 0)%Z && negb (um_UserID req =? 0)%Z &&
         negb (bool_decide (um_Role req = Role_None)))
    (OtherError "orgID, userID and role are required") ;;;
  onot_found "membership"
    (pretty (um_OrgID req) ++ "/" ++ pretty (um_ProjectID req) ++ "/" ++
     pretty (um_UserID req))
    (oexec members (update_row member_uniques (UpdateMemberRole_where req)
      (fun m => mkMembership (m_ID m) (m_OrgID m) (m_ProjectID m) (m_UserID m)
                  (um_Role req) (m_CreatedAt m)))).

(** The view [vw_membership_info]: the columns of a joined row that does not
    exist are NULL. *)
Definition memberInfo (s : ODb) (m : Membership) : MembershipInfo :=
  let o := List.find (fun o => (o_ID o =? m_OrgID m)%Z) (od_orgs s) in
  let t := if IsZero (m_ProjectID m) then None
           else List.find (fun t => (Tenancy.p_ID t =? m_ProjectID m)%Z)
                  (od_projects s) in
  let u := List.find (fun u => (us_ID u =? m_UserID m)%Z) (od_users s) in
  mkMembershipInfo (m_ID m) (m_OrgID m) (m_ProjectID m)
    (default EmptyString (o_Alias <$> o)) (default EmptyString (o_Name <$> o))
    (default ItemStatus_Unknown (o_Status <$> o))
    (default EmptyString (Tenancy.p_Alias <$> t))
    (default EmptyString (Tenancy.p_Name <$> t))
    (default 0%Z (us_ID <$> u)) (default EmptyString (us_Email <$> u))
    (default EmptyString (us_Name <$> u)) (m_Role m) (m_CreatedAt m).
Definition vw_membership_info (s : ODb) : list MembershipInfo :=
  memberInfo s <$> od_members s.

Definition Provider_ListMemberships (req : ListMembershipsRequest)
  : M ODb (list MembershipInfo) := fun s =>
  (Ok (ListMemberships_page req (vw_membership_info s)), s).
Definition Provider_GetUserMemberships (userID : Z) : M ODb (list MembershipInfo) :=
  Provider_ListMemberships (mkListMemberships 0 userID 0 Scope_Undefined
    ItemStatus_Active Role_None 0 0).

Definition Provider_DeleteMember (r : DeleteMemberRequest) : M ODb Z :=
  guard (negb ((dm_OrgID r =? 0)%Z && (dm_UserID r =? 0)%Z))
    (OtherError "orgID or userID is required") ;;;
  oexec members (fun rows => Ok (delete_rows (DeleteMember_where r) rows)).

(** *** Orgs *)

Definition Provider_RegisterOrg (m : Org) (ownerID : Z) : M ODb Org :=
  let! id := oensureID (o_ID m) in
  let! alias := (if bool_decide (o_Alias m = EmptyString)
                 then let! r := RandomString 29 in ret ("cp_" ++ r)%string
                 else ret (o_Alias m)) in
  let! now := oNow in
  let org := mkOrg id alias (o_Name m) (o_Description m) ItemStatus_Active now in
  lift_result (Org_Validate org) ;;;
  otransaction (
    let! res := oexec orgs (insert_row org_uniques org) in
    (if (ownerID =? 0)%Z then ret tt
     else with_message "unable to add owner"
            (Provider_AddMember (mkMembership 0 (o_ID res) 0 ownerID Role_Owner 0)) ;;;
          ret tt) ;;;
    ret res).

Definition Provider_UpdateOrg (req : UpdateOrgRequest) : M ODb Org :=
  guard (negb (bool_decide (uo_Name req = EmptyString) &&
               bool_decide (uo_Description req = EmptyString) &&
               bool_decide (uo_Status req = ItemStatus_Unknown)))
    (OtherError "no changes to update") ;;;
  guard (String.length (uo_Name req) <=? 64)%nat
    (OtherError ("invalid name: " ++ uo_Name req)) ;;;
  onot_found "org" (pretty (uo_ID req))
    (oexec orgs (update_row org_uniques (fun o => (o_ID o =? uo_ID req)%Z)
                   (UpdateOrg_set req))).

Definition Provider_ListOrgs (req : ListOrgsRequest) : M ODb (PageResult Org) :=
  lift_result (ListOrgsRequest_Validate req) ;;;
  oselect orgs (fun rows =>
    Ok (listRowsByName o_Name o_ID (List.filter (ListOrgs_where req) rows)
          (lo_Limit req) (lo_Offset req) (lo_Cursor req))).

Definition Provider_GetOrg (id : Z) : M ODb Org := ogetRow orgs "org" o_ID id.
Definition Provider_FindOrg (alias : string) : M ODb Org :=
  onot_found "org" alias
    (oselect orgs (select_row (fun o => bool_decide (o_Alias o = alias)))).

(** Each org of the joined rows once, in the order of the rows. *)
Definition dedupOrgs (rows : list Org) : list Org :=
  foldl (fun seen o => if bool_decide (o_ID o ∈ (o_ID <$> seen)) then seen
                       else seen ++ [o]) [] rows.
Definition Provider_GetUserOrgs (userID : Z) : M ODb (list Org) := fun s =>
  (Ok (dedupOrgs (omap (fun m =>
     if (m_UserID m =? userID)%Z
     then List.find (fun o => (o_ID o =? m_OrgID m)%Z &&
                              bool_decide (o_Status o = ItemStatus_Active)) (od_orgs s)
     else None) (od_members s))), s).

(** *** Projects *)

Definition Provider_RegisterProject (m : Project) : M ODb Project :=
  let! id := oensureID (Tenancy.p_ID m) in
  let! alias := (if bool_decide (Tenancy.p_Alias m = EmptyString)
                 then let! r := RandomString 28 in ret (ProjectAliasPrefix ++ r)%string
                 else ret (Tenancy.p_Alias m)) in
  let! now := oNow in
  let project := mkProject id (Tenancy.p_OrgID m) alias (Tenancy.p_Name m)
    (Tenancy.p_Description m) ItemStatus_Active now now in
  lift_result (Project_Validate project) ;;;
  references (org_exists (Tenancy.p_OrgID m)) "project_org_id_fkey" ;;;
  oexec projects (insert_row project_uniques project).

Definition Provider_UpdateProject (req : UpdateProjectRequest) : M ODb Project :=
  guard (negb (bool_decide (uj_Name req = EmptyString) &&
               bool_decide (uj_Description req = EmptyString) &&
               bool_decide (uj_Status req = ItemStatus_Unknown)))
    (OtherError "no changes to update") ;;;
  guard (String.length (uj_Name req) <=? 64)%nat
    (OtherError ("invalid name: " ++ uj_Name req)) ;;;
  let! now := oNow in
  onot_found "project" (pretty (uj_ID req))
    (oexec projects (update_row project_uniques
      (fun p => (Tenancy.p_ID p =? uj_ID req)%Z) (UpdateProject_set req now))).

Definition Provider_GetProject (id : Z) : M ODb Project :=
  ogetRow projects "project" Tenancy.p_ID id.
Definition Provider_FindProject (orgID : Z) (alias : string) : M ODb Project :=
  onot_found "project" (pretty orgID ++ "/" ++ alias)
    (oselect projects (select_row (fun p =>
      (Tenancy.p_OrgID p =? orgID)%Z && bool_decide (Tenancy.p_Alias p = alias)))).
Definition Provider_ListProjects (req : ListProjectsRequest)
  : M ODb (PageResult Project) :=
  lift_result (ListProjectsRequest_Validate req) ;;;
  oselect projects (fun rows =>
    Ok (listRowsByName Tenancy.p_Name Tenancy.p_ID
          (List.filter (ListProjects_where req) rows)
          (lj_Limit req) (lj_Offset req) (lj_Cursor req))).

(** *** Invites *)

(** Fourteen days, in milliseconds. *)
Definition DefaultInviteExpiry : Z := 1209600000.

Definition upsertInvite (v : Invite) : M ODb Invite :=
  references (org_exists (v_OrgID v)) "invite_org_id_fkey" ;;;
  references (user_exists (v_InviterID v)) "invite_inviter_id_fkey" ;;;
  references (project_of (v_OrgID v) (v_ProjectID v)) "fk_invite_project" ;;;
  oexec invites (upsert_row invite_uniques invite_scope v (fun _ => true)
    (fun x => mkInvite (v_ID x) (v_OrgID x) (v_ProjectID x) (v_InviterID v)
                (v_Email x) (v_Role v) (v_CreatedAt x) (v_ExpiresAt v))).

Definition Provider_CreateInvite (invite : Invite) : M ODb Invite :=
  let! id := oensureID (v_ID invite) in
  let! now := oNow in
  let inv := mkInvite id (v_OrgID invite) (v_ProjectID invite)
    (v_InviterID invite) (ToLower (v_Email invite)) (v_Role invite) now
    (if (v_ExpiresAt invite =? 0)%Z then now + DefaultInviteExpiry
     else v_ExpiresAt invite)%Z in
  lift_result (Invite_Validate inv) ;;;
  upsertInvite inv.

Definition Provider_GetInvite (id : Z) : M ODb Invite := ogetRow invites "invite" v_ID id.
Definition Provider_GetInviteByOrgAndEmail (orgID projectID : Z) (email : string)
  : M ODb Invite :=
  let req := mkGetInvite orgID projectID (ToLower email) in
  onot_found "invite" (pretty orgID ++ "/" ++ pretty projectID ++ "/" ++ gi_Email req)
    (oselect invites (select_row (GetInvite_where req))).
Definition Provider_GetOrgInvites (orgID : Z) : M ODb (list Invite) :=
  oselect invites (fun rows => Ok (List.filter (fun v => (v_OrgID v =? orgID)%Z) rows)).
Definition Provider_GetUserInvites (email : string) : M ODb (list Invite) :=
  let! now := oNow in
  oselect invites (fun rows =>
    Ok (List.filter (GetUserInvites_where (ToLower email) now) rows)).
Definition Provider_DeleteInviteByID (id : Z) : M ODb Z := odeleteRow invites v_ID id.
Definition Provider_DeleteInvite (r : DeleteInviteRequest) : M ODb Z :=
  guard (negb ((di_OrgID r =? 0)%Z && bool_decide (di_Email r = EmptyString)))
    (OtherError "orgID or email is required") ;;;
  let req := mkDeleteInvite (di_OrgID r) (di_ProjectID r) (ToLower (di_Email r))
               (di_Scope r) in
  oexec invites (fun rows => Ok (delete_rows (DeleteInvite_where req) rows)).

(** DELETE ... RETURNING *)
Definition takeInvite (id : Z) : M ODb Invite :=
  onot_found "invite" (pretty id)
    (oexec invites (fun rows =>
      let? v := select_row (fun v => (v_ID v =? id)%Z) rows in
      Ok (v, (delete_rows (fun v => (v_ID v =? id)%Z) rows).2))).

Definition acceptInvite (inviteID : Z) (user : User) : M ODb Membership :=
  otransaction (
    let! invite := takeInvite inviteID in
    guard (EqualFoldText (us_Email user) (v_Email invite))
      (OtherError "invite email does not match user email") ;;;
    let! now := oNow in
    guard (negb (Invite_IsExpired invite now)) (OtherError "invite expired") ;;;
    with_message "unable to add member"
      (Provider_AddMember (mkMembership 0 (v_OrgID invite) (v_ProjectID invite)
         (us_ID user) (v_Role invite) 0))).

Definition Provider_AcceptInvite (inviteID userID : Z) : M ODb Membership :=
  let! user := Provider_GetUser userID in acceptInvite inviteID user.

(** The loop of [AcceptInvites]: an invite that fails is skipped. *)
Fixpoint acceptEach (user : User) (invs : list Invite) (accepted : list Membership)
  : M ODb (list Membership) :=
  match invs with
  | [] => ret accepted
  | inv :: rest =>
      catch (acceptInvite (v_ID inv) user) (fun r => match r with
        | Ok m => acceptEach user rest (accepted ++ [m])
        | Err _ => acceptEach user rest accepted
        end)
  end.
Definition Provider_AcceptInvites (user : User) : M ODb (list Membership) :=
  let! invs := Provider_GetUserInvites (us_Email user) in
  acceptEach user invs [].

(** *** API keys *)

Definition Provider_RegisterAPIKey (m : APIKey) : M ODb APIKey :=
  let! id := oensureID (k_ID m) in
  let status := if bool_decide (k_Status m = ItemStatus_Unknown)
                then ItemStatus_Active else k_Status m in
  let! now := oNow in
  let im := mkAPIKey id (k_OrgID m) (k_ProjectID m) (k_Key m) (k_Secret m)
    (k_Label m) (k_Scopes m) (k_Metadata m) status now (k_ExpiresAt m) 0 0 in
  lift_result (APIKey_Validate im) ;;;
  references (org_exists (k_OrgID m)) "apikey_org_id_fkey" ;;;
  references (project_of (k_OrgID m) (k_ProjectID m)) "fk_apikey_project" ;;;
  oexec apikeys (insert_row apikey_uniques im).

Definition Provider_ListAPIKeys (r : ListAPIKeysRequest) : M ODb (PageResult APIKey) :=
  oselect apikeys (fun rows => Ok (ListAPIKeys_page r rows)).
Definition Provider_GetAPIKey (orgID id : Z) : M ODb APIKey :=
  onot_found "api key" (pretty orgID ++ "/" ++ pretty id)
    (oselect apikeys (select_row (org_key_is orgID id))).
Definition Provider_DeleteAPIKey (orgID id : Z) : M ODb Z :=
  oexec apikeys (fun rows => Ok (delete_rows (org_key_is orgID id) rows)).
Definition Provider_UseAPIKey (orgID id : Z) : M ODb APIKey :=
  let! now := oNow in
  onot_found "api key" (pretty orgID ++ "/" ++ pretty id)
    (oexec apikeys (fun rows =>
      let? k := select_row (org_key_is orgID id) rows in
      let? _ := increment (k_UsedCount k) in
      update_row apikey_uniques (org_key_is orgID id) (UseAPIKey_set now) rows)).

(** The database as the authorizer reads it. *)
Definition grants_provider (s : ODb) : GrantsProvider :=
  mkProvider (fun req => (Provider_ListMemberships req s).1)
    (fun id => (Provider_GetProject id s).1).
End provider.
