(* ===== verification/OrgsService.v ===== *)
(** The orgs service: [server/service/orgs] ([org.go], [projects.go],
    [members.go]).

    The service runs over the orgs database and the authorizer, which reads
    the same database through its cache; an audit event is an entry of the
    outbox.  A handler runs in the context of its caller. *)
From Stdlib Require Import ZArith Lia.
From stdpp Require Import base list gmap strings pretty.
From S2P Require Import Prelude GoStrings Xdb Roles Scopes Tenancy Grants Authorizer Methods Access Model Query Sql CaDb Pbconv RowPb TenantScope OrgQuery OrgDb.

Definition EventType_OrgCreated : Z := 1.
Definition EventType_OrgUpdated : Z := 2.
Definition EventType_OrgDeleted : Z := 3.
Definition EventType_OrgMemberAdded : Z := 4.
Definition EventType_OrgMemberRemoved : Z := 5.
Definition EventType_OrgMemberRoleChanged : Z := 6.
Definition EventType_OrgMemberInvited : Z := 7.
Definition EventType_ProjectCreated : Z := 9.
Definition EventType_ProjectUpdated : Z := 10.
Definition EventType_ProjectDeleted : Z := 11.
Definition EventType_ProjectMemberAdded : Z := 12.
Definition EventType_ProjectMemberRemoved : Z := 13.
Definition EventType_ProjectMemberRoleChanged : Z := 14.
Definition EventType_ProjectMemberInvited : Z := 15.

Definition orgs_ServiceName : string := "orgs".

Definition DisplayName (r : Role_Enum) : string :=
  match r with Role_APIKey => "API Key" | _ => Role_String r end.

(** ** Requests *)

Record AddMemberRequest := mkAddMemberReq {
  am_Email : string; am_Role : Role_Enum; am_ProjectID : string }.
Record ChangeMemberRoleRequest := mkChangeRoleReq {
  cr_UserID : string; cr_Email : string; cr_Role : Role_Enum; cr_ProjectID : string }.
Record DeleteMember_req := mkDeleteMemberReq { dr_UserID : string; dr_ProjectID : string }.
Record DeleteInvite_req := mkDeleteInviteReq { dv_Email : string; dv_ProjectID : string }.
Record GetMembersRequest := mkGetMembersReq { gm_ProjectID : string; gm_Scope : Scope_Enum }.
Record RegisterProjectRequest := mkRegisterProjectReq {
  rp_Alias : string; rp_Name : string; rp_Description : string }.
Record UpdateProject_req := mkUpdateProjectReq {
  up_ProjectID : string; up_Name : string; up_Description : string }.
Record ListProjects_req := mkListProjectsReq {
  lp_Status : ItemStatus_Enum; lp_Limit : Z; lp_Offset : Z; lp_Cursor : string }.

(** [pb.OrgAccess] with the alias and the name of the org. *)
Record OrgAccessInfo := mkOrgAccessInfo {
  oi_Access : OrgAccess_msg; oi_OrgAlias : string; oi_OrgName : string }.

Section service.
Context `{Xdb, XdbLimits, Unicode, Collation, IdGen, Random, Cache, Porto, ProfileCodec}.

(** ** State *)

Record OrgState := mkOs {
  os_db : ODb; os_cache : cache; os_emitted : list Event }.

Definition in_odb {X} (m : M ODb X) : M OrgState X := fun s =>
  let '(r, d) := m (os_db s) in (r, mkOs d (os_cache s) (os_emitted s)).
(** A call of the authorizer, over the database as it is now. *)
Definition in_authorizer {X} (m : M AzState X) : M OrgState X := fun s =>
  let '(r, a) := m (mkAz (od_now (os_db s)) (grants_provider (os_db s)) (os_cache s)) in
  (r, mkOs (os_db s) (az_cache a) (os_emitted s)).
Definition os_emit (e : Event) : M OrgState unit :=
  modify (fun s => mkOs (os_db s) (os_cache s) (os_emitted s ++ [e])).
Definition os_wrapped {X} (failure : string) (m : M OrgState X) : M OrgState X :=
  catch m (fun r => match r with
    | Ok x => ret x
    | Err e => fail (WrapWithCtx e failure)
    end).
(** A call of the database whose failure is wrapped. *)
Definition odb {X} (failure : string) (m : M ODb X) : M OrgState X :=
  os_wrapped failure (in_odb m).

(** ** Request fields and rows *)

Definition tokenOrg (ctx : Context) : result Z :=
  let orgID := tc_orgID (FromContext ctx) in
  if (orgID =? 0)%Z then Err (Grpc PermissionDenied "org not selected") else Ok orgID.

Definition parseOptionalID (val what : string) : result Z :=
  if bool_decide (val = EmptyString) then Ok 0%Z
  else match parse_id val with
       | Some id => Ok id
       | None => Err (Grpc InvalidArgument ("invalid " ++ what))
       end.
Definition parseProjectID (val : string) : result Z :=
  match parse_id val with
  | Some id => Ok id
  | None => Err (Grpc InvalidArgument "invalid project ID")
  end.

Definition getActiveOrg (orgID : Z) : M OrgState Org :=
  let! org := odb "unable to find org" (Provider_GetOrg orgID) in
  guard (negb (bool_decide (o_Status org = ItemStatus_Inactive)))
    (preconditionFailed "org is deleted") ;;;
  ret org.

(** [None] is nil. *)
Definition orgs_getProject (orgID projectID : Z) : M OrgState (option Project) :=
  if (projectID =? 0)%Z then ret None
  else catch (in_authorizer (authorizer_Project orgID projectID)) (fun r =>
    match r with
    | Ok project => ret (Some project)
    | Err e => if errors_Is e ErrAccessDenied
               then fail (Grpc NotFound "project not found")
               else fail (WrapWithCtx e "unable to find project")
    end).

(** ** Orgs *)

Definition Orgs_RegisterOrg (ctx : Context) (name description : string)
  : M OrgState Org_pb :=
  let userID := tc_userID (FromContext ctx) in
  guard (negb (userID =? 0)%Z) (Grpc Unauthenticated "user is required") ;;;
  let! org := odb "failed to register org"
    (Provider_RegisterOrg (mkOrg 0 "" name description ItemStatus_Active 0) userID) in
  in_authorizer (InvalidateUser (id_string userID)) ;;;
  os_emit (events_Description ("org " ++ o_Name org ++ " created")
    (events_Reference (o_ID org) (events_Org (o_ID org)
      (events_New ctx orgs_ServiceName EventType_OrgCreated "Org created")))) ;;;
  ret (Org_Pb org).

Definition Orgs_GetOrg (ctx : Context) : M OrgState Org_pb :=
  let! orgID := lift_result (tokenOrg ctx) in
  let! org := odb "failed to get org" (Provider_GetOrg orgID) in
  ret (Org_Pb org).

Definition Orgs_UpdateOrg (ctx : Context) (name description : string)
  : M OrgState Org_pb :=
  let! orgID := lift_result (tokenOrg ctx) in
  let! org := odb "failed to update org"
    (Provider_UpdateOrg (mkUpdateOrg orgID ItemStatus_Unknown name description)) in
  os_emit (events_Description ("org " ++ o_Name org ++ " updated")
    (events_Reference (o_ID org) (events_Org (o_ID org)
      (events_New ctx orgs_ServiceName EventType_OrgUpdated "Org updated")))) ;;;
  ret (Org_Pb org).

Definition Orgs_DeleteOrg (ctx : Context) : M OrgState Org_pb :=
  let! orgID := lift_result (tokenOrg ctx) in
  let userID := tc_userID (FromContext ctx) in
  let! org := odb "failed to update org status"
    (Provider_UpdateOrg (mkUpdateOrg orgID ItemStatus_Inactive "" "")) in
  in_authorizer (InvalidateUser (id_string userID)) ;;;
  os_emit (events_Description ("org " ++ o_Name org ++ " deleted")
    (events_Reference (o_ID org) (events_Org (o_ID org)
      (events_New ctx orgs_ServiceName EventType_OrgDeleted "Org deleted")))) ;;;
  ret (Org_Pb org).

(** ** Projects *)

Definition projectEvent (ctx : Context) (typ : Z) (title done_ : string)
    (orgID : Z) (project : Project) : Event :=
  events_Description ("project " ++ Tenancy.p_Name project ++ " " ++ done_)
    (events_Reference (Tenancy.p_ID project) (events_Project (Tenancy.p_ID project)
      (events_Org orgID (events_New ctx orgs_ServiceName typ title)))).

Definition Orgs_RegisterProject (ctx : Context) (req : RegisterProjectRequest)
  : M OrgState Project_pb :=
  let! orgID := lift_result (tokenOrg ctx) in
  let name := TrimSpace (rp_Name req) in
  guard (negb (bool_decide (name = EmptyString)))
    (Grpc InvalidArgument "name is required") ;;;
  getActiveOrg orgID ;;;
  let! project := odb "failed to register project"
    (Provider_RegisterProject (mkProject 0 orgID (TrimSpace (rp_Alias req)) name
       (rp_Description req) ItemStatus_Active 0 0)) in
  os_emit (projectEvent ctx EventType_ProjectCreated "Project created" "created"
             orgID project) ;;;
  ret (Project_Pb project).

Definition Orgs_UpdateProject (ctx : Context) (req : UpdateProject_req)
  : M OrgState Project_pb :=
  let! orgID := lift_result (tokenOrg ctx) in
  let! projectID := lift_result (parseProjectID (up_ProjectID req)) in
  orgs_getProject orgID projectID ;;;
  let! project := odb "failed to update project"
    (Provider_UpdateProject (mkUpdateProject projectID (TrimSpace (up_Name req))
       (up_Description req) ItemStatus_Unknown)) in
  in_authorizer (InvalidateProject (id_string projectID)) ;;;
  os_emit (projectEvent ctx EventType_ProjectUpdated "Project updated" "updated"
             orgID project) ;;;
  ret (Project_Pb project).

Definition Orgs_DeleteProject (ctx : Context) (reqProjectID : string)
  : M OrgState Project_pb :=
  let! orgID := lift_result (tokenOrg ctx) in
  let! projectID := lift_result (parseProjectID reqProjectID) in
  orgs_getProject orgID projectID ;;;
  let! project := odb "failed to update project status"
    (Provider_UpdateProject (mkUpdateProject projectID "" "" ItemStatus_Inactive)) in
  in_authorizer (InvalidateProject (id_string projectID)) ;;;
  os_emit (projectEvent ctx EventType_ProjectDeleted "Project deleted" "deleted"
             orgID project) ;;;
  ret (Project_Pb project).

(** A nil project, of a text that parses to zero, is [None]. *)
Definition Orgs_GetProject (ctx : Context) (reqProjectID reqAlias : string)
  : M OrgState (option Project_pb) :=
  let! orgID := lift_result (tokenOrg ctx) in
  if negb (bool_decide (reqProjectID = EmptyString)) then
    let! projectID := lift_result (parseProjectID reqProjectID) in
    let! project := orgs_getProject orgID projectID in
    ret (Project_Pb <$> project)
  else
  guard (negb (bool_decide (reqAlias = EmptyString)))
    (Grpc InvalidArgument "project ID or alias is required") ;;;
  let! project := odb "unable to find project" (Provider_FindProject orgID reqAlias) in
  let tctx := FromContext ctx in
  (if IsAPIKey tctx then
     let kp := tc_projectID tctx in
     guard (negb (negb (kp =? 0)%Z && negb (kp =? Tenancy.p_ID project)%Z))
       (Grpc NotFound "project not found")
   else catch (in_authorizer (authorizer_CheckRole orgID (Tenancy.p_ID project)
                 (tc_userID tctx) [Role_String Role_Viewer])) (fun r =>
     match r with
     | Ok _ => ret tt
     | Err _ => fail (Grpc NotFound "project not found")
     end)) ;;;
  ret (Some (Project_Pb project)).

(** The grants a list of projects is limited to. *)
Definition listGrants (ctx : Context) (orgID : Z) : M OrgState Grants :=
  let tctx := FromContext ctx in
  if IsAPIKey tctx then
    let kp := tc_projectID tctx in
    ret (if (kp =? 0)%Z then mkGrants orgID 0 Role_APIKey ∅
         else mkGrants orgID 0 Role_None (<[kp := Role_APIKey]> ∅))
  else os_wrapped "failed to resolve access"
         (in_authorizer (authorizer_Grants orgID (tc_userID tctx))).

Definition Orgs_ListProjects (ctx : Context) (req : ListProjects_req)
  : M OrgState (list Project_pb * option NextPage_pb) :=
  let! orgID := lift_result (tokenOrg ctx) in
  let! grants := listGrants ctx orgID in
  let! cursor := lift_result (ListCursor (lp_Cursor req) ParseNameCursor) in
  let q ids := mkListProjects orgID (lp_Status req) ids (Limit (lp_Limit req))
                 (lp_Offset req) cursor in
  let list ids :=
    let! res := odb "failed to list projects" (Provider_ListProjects (q ids)) in
    ret (ProjectResult_Pb res) in
  if CanListAllProjects (Some grants) then list None
  else
    let ids := GrantedProjectIDs (Some grants) in
    if bool_decide (ids = []) then ret ([], None) else list (Some ids).

(** ** Members *)

Definition orgAccess (rows : list MembershipInfo) (orgID userID : Z) : OrgAccessInfo :=
  let access := OrgAccess (GrantsFromMemberships rows orgID userID) in
  match List.find (fun m => (mi_OrgID m =? orgID)%Z) rows with
  | Some m => mkOrgAccessInfo access (mi_OrgAlias m) (mi_OrgName m)
  | None => mkOrgAccessInfo access "" ""
  end.

Definition Orgs_GetUserOrgs (ctx : Context) : M OrgState (list OrgAccessInfo) :=
  let userID := tc_userID (FromContext ctx) in
  guard (negb (userID =? 0)%Z) (Grpc Unauthenticated "user is required") ;;;
  let! memberships := odb "failed to get memberships"
                        (Provider_GetUserMemberships userID) in
  ret ((fun orgID => orgAccess memberships orgID userID) <$> OrgIDs memberships).

Definition Orgs_GetUserMemberships (ctx : Context)
  : M OrgState (OrgAccessInfo * list Membership_pb) :=
  let! orgID := lift_result (tokenOrg ctx) in
  let userID := tc_userID (FromContext ctx) in
  let! memberships := odb "failed to get memberships"
    (Provider_ListMemberships (mkListMemberships orgID userID 0 Scope_Undefined
       ItemStatus_Active Role_None 0 0)) in
  ret (orgAccess memberships orgID userID, MembershipInfo_Pb <$> memberships).

Definition Orgs_GetMembers (ctx : Context) (req : GetMembersRequest)
  : M OrgState (list Membership_pb * list Invite_pb) :=
  let! orgID := lift_result (tokenOrg ctx) in
  let! projectID := lift_result (parseOptionalID (gm_ProjectID req) "project ID") in
  let! memberships := odb "request failed"
    (Provider_ListMemberships (mkListMemberships orgID 0 projectID (gm_Scope req)
       ItemStatus_Unknown Role_None 0 0)) in
  let! invs := odb "request failed" (Provider_GetOrgInvites orgID) in
  let invs :=
    if negb (projectID =? 0)%Z then Invites_FilterByProject invs projectID
    else if bool_decide (gm_Scope req = Scope_Org) then Invites_FilterByProject invs 0
    else invs in
  ret (MembershipInfo_Pb <$> memberships, Invite_Pb <$> invs).

Definition checkGrantable (ctx : Context) (orgID projectID : Z) (role : Role_Enum)
  : M OrgState Grants :=
  let callerID := tc_userID (FromContext ctx) in
  let! grants := os_wrapped "failed to resolve access"
                   (in_authorizer (authorizer_Grants orgID callerID)) in
  (if (projectID =? 0)%Z then
     guard (CanGrantOrgRole (Some grants) role)
       (Grpc PermissionDenied ("not allowed to grant role " ++ Role_String role ++
                               " org-wide"))
   else
     guard (CanGrantProjectRole (Some grants) projectID role)
       (Grpc PermissionDenied ("not allowed to grant role " ++ Role_String role ++
                               " in the project"))) ;;;
  ret grants.

Definition memberEvent (projectID org project : Z) : Z :=
  if negb (projectID =? 0)%Z then project else org.

(** The event of a change of the grants or invites at a scope. *)
Definition scopeEvent (ctx : Context) (org project : Z) (title : string)
    (orgID projectID ref : Z) (text : string) : Event :=
  events_Description text (events_Reference ref (events_Project projectID
    (events_Org orgID (events_New ctx orgs_ServiceName
       (memberEvent projectID org project) title)))).

Record AddMemberResponse := mkAddMemberResponse {
  ar_Membership : option Membership_pb; ar_Invite : option Invite_pb }.

(** The caller's branch for an existing user. *)
Definition addExisting (ctx : Context) (org : Org) (project : option Project)
    (orgID projectID : Z) (role : Role_Enum) (user : User)
  : M OrgState AddMemberResponse :=
  let! rows := odb "request failed"
    (Provider_ListMemberships (mkListMemberships orgID (us_ID user) 0 Scope_Undefined
       ItemStatus_Unknown Role_None 0 0)) in
  match FindMemberByUserID rows (us_ID user) projectID with
  | Some member =>
      guard (bool_decide (mi_Role member = role))
        (Grpc AlreadyExists "user already member") ;;;
      ret (mkAddMemberResponse (Some (MembershipInfo_Pb member)) None)
  | None =>
      let! member := odb "request failed"
        (Provider_AddMember (mkMembership 0 orgID projectID (us_ID user) role 0)) in
      in_authorizer (InvalidateUser (id_string (us_ID user))) ;;;
      os_emit (scopeEvent ctx EventType_OrgMemberAdded EventType_ProjectMemberAdded
        "Member added" orgID projectID (us_ID user)
        (us_Email user ++ " added as " ++ DisplayName (m_Role member))) ;;;
      ret (mkAddMemberResponse (Some (Membership_Pb member (Some org) project
             (Some user))) None)
  end.

(** The caller's branch for any failure to find the user. *)
Definition inviteNew (ctx : Context) (orgID projectID : Z) (role : Role_Enum)
    (email : string) : M OrgState AddMemberResponse :=
  let! invite := odb "request failed"
    (Provider_CreateInvite (mkInvite 0 orgID projectID (tc_userID (FromContext ctx))
       email role 0 0)) in
  os_emit (scopeEvent ctx EventType_OrgMemberInvited EventType_ProjectMemberInvited
    "Member invited" orgID projectID (v_ID invite)
    (email ++ " invited as " ++ DisplayName (v_Role invite))) ;;;
  ret (mkAddMemberResponse None (Some (Invite_Pb invite))).

Definition Orgs_AddMember (ctx : Context) (req : AddMemberRequest)
  : M OrgState AddMemberResponse :=
  let! orgID := lift_result (tokenOrg ctx) in
  let! projectID := lift_result (parseOptionalID (am_ProjectID req) "project ID") in
  let email := ToLower (TrimSpace (am_Email req)) in
  guard (negb (bool_decide (email = EmptyString)))
    (Grpc InvalidArgument "email is required") ;;;
  guard (negb (bool_decide (am_Role req = Role_None)))
    (Grpc InvalidArgument "role is required") ;;;
  checkGrantable ctx orgID projectID (am_Role req) ;;;
  let! org := getActiveOrg orgID in
  let! project := orgs_getProject orgID projectID in
  catch (in_odb (Provider_GetUserByEmail email)) (fun r => match r with
    | Ok user => addExisting ctx org project orgID projectID (am_Role req) user
    | Err _ => inviteNew ctx orgID projectID (am_Role req) email
    end).

Definition findMember (orgID projectID : Z) (userIDStr email : string)
  : M OrgState MembershipInfo :=
  let! rows := odb "request failed"
    (Provider_ListMemberships (mkListMemberships orgID 0 projectID (ScopeOf projectID)
       ItemStatus_Unknown Role_None 0 0)) in
  let! member := lift_result (
    if negb (bool_decide (userIDStr = EmptyString)) then
      match parse_id userIDStr with
      | None => Err (Grpc InvalidArgument "invalid user ID")
      | Some userID => Ok (FindMemberByUserID rows userID projectID)
      end
    else if negb (bool_decide (email = EmptyString)) then
      Ok (FindMemberByEmail rows (ToLower (TrimSpace email)) projectID)
    else Err (Grpc InvalidArgument "user ID or email is required")) in
  match member with
  | None => fail (Grpc NotFound "unable to find member")
  | Some m => ret m
  end.

Definition checkLastOwner (orgID : Z) (member : MembershipInfo) : M OrgState unit :=
  if negb (mi_ProjectID member =? 0)%Z ||
     negb (bool_decide (mi_Role member = Role_Owner)) then ret tt
  else
  let! owners := odb "request failed"
    (Provider_ListMemberships (mkListMemberships orgID 0 0 Scope_Org
       ItemStatus_Unknown Role_Owner 0 0)) in
  guard (negb (CountOrgRole owners orgID Role_Owner <=? 1)%nat)
    (preconditionFailed "the org must keep at least one owner").

Definition Orgs_ChangeMemberRole (ctx : Context) (req : ChangeMemberRoleRequest)
  : M OrgState Membership_pb :=
  let! orgID := lift_result (tokenOrg ctx) in
  let! projectID := lift_result (parseOptionalID (cr_ProjectID req) "project ID") in
  guard (negb (bool_decide (cr_Role req = Role_None)))
    (Grpc InvalidArgument "role is required") ;;;
  checkGrantable ctx orgID projectID (cr_Role req) ;;;
  let! member := findMember orgID projectID (cr_UserID req) (cr_Email req) in
  if bool_decide (mi_Role member = cr_Role req) then ret (MembershipInfo_Pb member)
  else
  checkGrantable ctx orgID projectID (mi_Role member) ;;;
  checkLastOwner orgID member ;;;
  let! org := getActiveOrg orgID in
  let! project := orgs_getProject orgID projectID in
  let! user := odb "unable to find user" (Provider_GetUser (mi_UserID member)) in
  let! m := odb "request failed"
    (Provider_UpdateMemberRole (mkUpdateMemberRole orgID projectID
       (mi_UserID member) (cr_Role req))) in
  in_authorizer (InvalidateUser (id_string (us_ID user))) ;;;
  os_emit (scopeEvent ctx EventType_OrgMemberRoleChanged
    EventType_ProjectMemberRoleChanged "Member role changed" orgID projectID
    (us_ID user) ("role of " ++ us_Email user ++ " changed from " ++
      DisplayName (mi_Role member) ++ " to " ++ DisplayName (m_Role m))) ;;;
  ret (Membership_Pb m (Some org) project (Some user)).

Definition Orgs_DeleteMember (ctx : Context) (req : DeleteMember_req)
  : M OrgState unit :=
  let! orgID := lift_result (tokenOrg ctx) in
  guard (negb (bool_decide (dr_UserID req = EmptyString)))
    (Grpc InvalidArgument "invalid user ID") ;;;
  let! projectID := lift_result (parseOptionalID (dr_ProjectID req) "project ID") in
  let! member := findMember orgID projectID (dr_UserID req) "" in
  checkGrantable ctx orgID projectID (mi_Role member) ;;;
  checkLastOwner orgID member ;;;
  odb "request failed" (Provider_DeleteMember (mkDeleteMember orgID projectID
    (mi_UserID member) (ScopeOf projectID))) ;;;
  in_authorizer (InvalidateUser (id_string (mi_UserID member))) ;;;
  os_emit (scopeEvent ctx EventType_OrgMemberRemoved EventType_ProjectMemberRemoved
    "Member removed" orgID projectID (mi_UserID member)
    (mi_Email member ++ " removed as " ++ DisplayName (mi_Role member))).

Definition Orgs_DeleteInvite (ctx : Context) (req : DeleteInvite_req)
  : M OrgState unit :=
  let! orgID := lift_result (tokenOrg ctx) in
  let! projectID := lift_result (parseOptionalID (dv_ProjectID req) "project ID") in
  let email := ToLower (TrimSpace (dv_Email req)) in
  guard (negb (bool_decide (email = EmptyString)))
    (Grpc InvalidArgument "email is required") ;;;
  odb "request failed" (Provider_DeleteInvite (mkDeleteInvite orgID projectID email
    (ScopeOf projectID))) ;;;
  ret tt.
End service.
