(* ===== verification/OrgInv.v ===== *)
(** The invariant of the orgs database and the statements that keep it: the
    references of the rows, the pending invites, and the Owner of every
    org. *)
From Stdlib Require Import ZArith Lia.
From stdpp Require Import base list gmap strings pretty.
From S2P Require Import Prelude GoStrings Xdb Roles Tenancy Grants Authorizer Model Query Sql CaDb OrgQuery OrgDb.

(** The generator hands out each row ID once.  It counts without end here; an
    ID of the code is one of 64 bits, which is a hypothesis where a theorem
    needs it. *)
Class IdGenLaws `{IdGen} := {
  flake_inj n m : flake n = flake m -> n = m;
  flake_pos n : (0 < flake n)%Z }.

Definition owner_of (orgID : Z) (m : Membership) : Prop :=
  m_OrgID m = orgID /\ m_ProjectID m = 0%Z /\ m_Role m = Role_Owner.

Section invariant.
Context `{XL : Xdb, XdbLimits, Unicode, Collation, IG : IdGen, Random}.

(** The ID was handed out. *)
Definition issued (s : ODb) (id : Z) : Prop :=
  exists k, (k < od_seq s)%nat /\ id = flake k.

Definition emails (s : ODb) : list string := us_Email <$> od_users s.

(** An invite nobody may accept any more. *)
Definition lapsed (s : ODb) (v : Invite) : Prop :=
  v_ExpiresAt v <> 0%Z /\ (v_ExpiresAt v <= od_now s)%Z.

Definition member_refs (s : ODb) (m : Membership) : Prop :=
  org_exists (m_OrgID m) s = true /\ user_exists (m_UserID m) s = true /\
  project_of (m_OrgID m) (m_ProjectID m) s = true.

(** An invite a member can be made of. *)
Definition invite_ok (s : ODb) (v : Invite) : Prop :=
  org_exists (v_OrgID v) s = true /\
  project_of (v_OrgID v) (v_ProjectID v) s = true /\
  v_OrgID v <> 0%Z /\ v_Role v <> Role_None.

(** [exempt] are the emails whose pending invites are being accepted. *)
Record org_inv_but (exempt : string -> Prop) (s : ODb) : Prop := mkOrgInv {
  inv_users : uniques_hold user_uniques (od_users s);
  inv_logins : uniques_hold login_uniques (od_logins s);
  inv_orgs : uniques_hold org_uniques (od_orgs s);
  inv_projects : uniques_hold project_uniques (od_projects s);
  inv_members : uniques_hold member_uniques (od_members s);
  inv_invites : uniques_hold invite_uniques (od_invites s);
  inv_user_rows : Forall (fun u => issued s (us_ID u) /\
                                   ToLower (us_Email u) = us_Email u) (od_users s);
  inv_login_rows : Forall (fun l => issued s (lg_ID l) /\ lg_Email l ∈ emails s)
                     (od_logins s);
  inv_member_rows : Forall (fun m => issued s (m_ID m) /\ member_refs s m)
                      (od_members s);
  inv_invite_rows : Forall (invite_ok s) (od_invites s);
  inv_pending : Forall (fun v => v_Email v ∈ emails s ->
                                 exempt (v_Email v) \/ lapsed s v) (od_invites s);
  inv_owner : Forall (fun o => Exists (owner_of (o_ID o)) (od_members s)) (od_orgs s) }.

Context {exempt : string -> Prop}.
Local Notation org_inv := (org_inv_but exempt).

Definition emptyODb (now : Z) : ODb := mkODb now 0 0 [] [] [] [] [] [] [].

Lemma org_inv_empty now : org_inv (emptyODb now).
Proof. constructor; simpl; try constructor; try done; repeat constructor. Qed.

(** ** What a change keeps *)

Lemma issued_mono s s' id : (od_seq s <= od_seq s')%nat -> issued s id -> issued s' id.
Proof. intros Hs (k & Hk & ->). exists k. split; [lia|done]. Qed.

(** The tables the references point to only grow. *)
Definition grows (s s' : ODb) : Prop :=
  (od_seq s <= od_seq s')%nat /\ (od_now s <= od_now s')%Z /\
  (o_ID <$> od_orgs s) ⊆ (o_ID <$> od_orgs s') /\
  (us_ID <$> od_users s) ⊆ (us_ID <$> od_users s') /\
  (fun p => (Tenancy.p_OrgID p, Tenancy.p_ID p)) <$> od_projects s ⊆
  (fun p => (Tenancy.p_OrgID p, Tenancy.p_ID p)) <$> od_projects s'.

Lemma grows_refl s : grows s s.
Proof. by split_and!. Qed.

Lemma member_refs_grows s s' m : grows s s' -> member_refs s m -> member_refs s' m.
Proof.
  intros (_ & _ & Ho & Hu & Hp) (Ha & Hb & Hc).
  unfold member_refs, org_exists, user_exists, project_of in *.
  rewrite bool_decide_eq_true in Ha, Hb. rewrite !bool_decide_eq_true.
  split_and!; auto. apply orb_true_iff in Hc as [Hc|Hc]; apply orb_true_iff; [by left|].
  right. rewrite bool_decide_eq_true in *. auto.
Qed.
Lemma invite_ok_grows s s' v : grows s s' -> invite_ok s v -> invite_ok s' v.
Proof.
  intros (_ & _ & Ho & Hu & Hp) (Ha & Hb & Hc).
  unfold invite_ok, org_exists, project_of in *.
  rewrite bool_decide_eq_true in Ha. rewrite !bool_decide_eq_true.
  split_and!; try apply Hc; auto.
  apply orb_true_iff in Hb as [Hb|Hb]; apply orb_true_iff; [by left|].
  right. rewrite bool_decide_eq_true in *. auto.
Qed.
Lemma issued_grows s s' id : grows s s' -> issued s id -> issued s' id.
Proof. intros (? & _). by apply issued_mono. Qed.
Lemma lapsed_grows s s' v : grows s s' -> lapsed s v -> lapsed s' v.
Proof. intros (_ & ? & _) [? ?]. split; [done|lia]. Qed.

(** A change that keeps the users, logins, members and invites. *)
Lemma org_inv_frame s s' :
  grows s s' ->
  od_users s' = od_users s -> od_logins s' = od_logins s ->
  od_members s' = od_members s -> od_invites s' = od_invites s ->
  uniques_hold org_uniques (od_orgs s') ->
  uniques_hold project_uniques (od_projects s') ->
  (o_ID <$> od_orgs s') ⊆ (o_ID <$> od_orgs s) ->
  org_inv s -> org_inv s'.
Proof.
  intros Hg Hu Hl Hm Hv Ho Hp Hio [].
  assert (emails s' = emails s) as He by (unfold emails; by rewrite Hu).
  constructor; rewrite ?Hu, ?Hl, ?Hm, ?Hv, ?He; try done.
  - eapply Forall_impl; [exact inv_user_rows0|]. intros u []. eauto using issued_grows.
  - eapply Forall_impl; [exact inv_login_rows0|]. intros l []. eauto using issued_grows.
  - eapply Forall_impl; [exact inv_member_rows0|]. intros m [].
    eauto using issued_grows, member_refs_grows.
  - eapply Forall_impl; [exact inv_invite_rows0|]. eauto using invite_ok_grows.
  - eapply Forall_impl; [exact inv_pending0|]. simpl. intros v Hpv Hin.
    destruct (Hpv Hin); eauto using lapsed_grows.
  - rewrite Forall_forall in inv_owner0 |- *. intros o Ho'.
    assert (o_ID o ∈ (o_ID <$> od_orgs s)) as Hin.
    { apply Hio. by apply list_elem_of_fmap_2. }
    apply list_elem_of_fmap in Hin as (o0 & -> & Hin0). by apply inv_owner0.
Qed.

Lemma org_inv_gen s n k :
  (od_seq s <= n)%nat -> org_inv s -> org_inv (with_gen n k s).
Proof. intros Hn Hs. apply (org_inv_frame s); try apply Hs; done. Qed.

(** A change of the members only. *)
Lemma org_inv_members s l :
  uniques_hold member_uniques l ->
  Forall (fun m => issued s (m_ID m) /\ member_refs s m) l ->
  (forall o, o ∈ od_orgs s -> Exists (owner_of (o_ID o)) l) ->
  org_inv s -> org_inv (ot_set members l s).
Proof. intros Hu Hr Ho []. constructor; simpl; try done. by rewrite Forall_forall. Qed.

(** A change of the invites only. *)
Lemma org_inv_invites s l :
  uniques_hold invite_uniques l -> Forall (invite_ok s) l ->
  Forall (fun v => v_Email v ∈ emails s -> exempt (v_Email v) \/ lapsed s v) l ->
  org_inv s -> org_inv (ot_set invites l s).
Proof. intros Hu Hr Ho []. by constructor. Qed.

(** A change of the API keys only. *)
Lemma org_inv_keys s l : org_inv s -> org_inv (ot_set apikeys l s).
Proof. intros []. by constructor. Qed.

(** ** Statements *)

Lemma inv_oexec {R A} (t : OTable R) (f : list R -> result (A * list R)) :
  (forall s a l, org_inv s -> f (ot_rows t s) = Ok (a, l) -> org_inv (ot_set t l s)) ->
  preserves org_inv (oexec t f).
Proof.
  intros Hf s Hs. unfold oexec. destruct (f (ot_rows t s)) as [[a l]|e] eqn:E; [|done].
  by eapply Hf.
Qed.
Lemma inv_oselect {R A} (t : OTable R) (f : list R -> result A) :
  preserves org_inv (oselect t f).
Proof. by intros s. Qed.
Lemma inv_oNow : preserves org_inv oNow.
Proof. by intros s. Qed.
Lemma inv_references ok name : preserves org_inv (references ok name).
Proof. intros s. unfold references. by destruct (ok s). Qed.
Lemma inv_oNextID : preserves org_inv oNextID.
Proof. intros s. apply org_inv_gen. lia. Qed.
Lemma inv_RandomString n : preserves org_inv (RandomString n).
Proof. intros s. by apply org_inv_gen. Qed.
Lemma inv_oensureID id : preserves org_inv (oensureID id).
Proof. unfold oensureID. destruct (IsZero id); auto using inv_oNextID with go. Qed.
Lemma inv_onot_found {A} t k (m : M ODb A) :
  preserves org_inv m -> preserves org_inv (onot_found t k m).
Proof. intros Hm. unfold onot_found. preserves_steps; done. Qed.

(** A failed transaction keeps the tables. *)
Lemma inv_otransaction {A} (m : M ODb A) :
  (forall s, org_inv s -> (od_seq s <= od_seq (m s).2)%nat) ->
  (forall s a s', org_inv s -> m s = (Ok a, s') -> org_inv s') ->
  preserves org_inv (otransaction m).
Proof.
  intros Hseq Hm s Hs. unfold otransaction. specialize (Hseq s Hs).
  destruct (m s) as [[a|e] s'] eqn:E; [by eapply Hm|]. by apply org_inv_gen.
Qed.

(** An update of rows that keeps the identity of each. *)
Lemma update_row_ids {R K} (key : R -> K) cs w (set_ : R -> R) rows x l :
  update_row cs w set_ rows = Ok (x, l) ->
  (forall r, key (set_ r) = key r) ->
  key <$> l = key <$> rows /\ uniques_hold cs l.
Proof.
  intros (r & _ & _ & _ & -> & Hu)%update_row_ok Hk. split; [|done].
  by apply update_all_key.
Qed.

Lemma inv_UpdateOrg req : preserves org_inv (Provider_UpdateOrg req).
Proof.
  unfold Provider_UpdateOrg. preserves_steps. apply inv_onot_found, inv_oexec.
  intros s x l Hs E. apply (update_row_ids o_ID) in E as [E Hu]; [|done].
  apply (org_inv_frame s); simpl; try apply Hs; try done; try (by rewrite E).
  by split_and!; simpl; rewrite ?E.
Qed.

Lemma inv_UpdateProject req : preserves org_inv (Provider_UpdateProject req).
Proof.
  unfold Provider_UpdateProject. preserves_steps; [apply inv_oNow|].
  apply inv_onot_found, inv_oexec. intros s x l Hs E.
  apply (update_row_ids (fun p => (Tenancy.p_OrgID p, Tenancy.p_ID p))) in E as [E Hu];
    [|done].
  apply (org_inv_frame s); simpl; try apply Hs; try done.
  by split_and!; simpl; rewrite ?E.
Qed.

Lemma inv_RegisterProject m : preserves org_inv (Provider_RegisterProject m).
Proof.
  unfold Provider_RegisterProject.
  preserves_steps; auto using inv_oensureID, inv_RandomString, inv_oNow, inv_references.
  apply inv_oexec. intros s x l Hs (_ & -> & Hu)%insert_row_ok.
  apply (org_inv_frame s); simpl; try apply Hs; try done.
  split_and!; simpl; try done. rewrite fmap_app. set_solver.
Qed.

(** ** Members *)

Definition scope_key (m : Membership) : Z * Z * Z := (m_OrgID m, m_ProjectID m, m_UserID m).
Definition set_role (role : Role_Enum) (x : Membership) : Membership :=
  mkMembership (m_ID x) (m_OrgID x) (m_ProjectID x) (m_UserID x) role (m_CreatedAt x).

Lemma upsertMember_run m s r s' :
  upsertMember m s = (r, s') ->
  match r with
  | Err _ => s' = s
  | Ok x => member_refs s m /\ exists l, s' = ot_set members l s /\
      upsert_row member_uniques member_scope m (fun _ => true) (set_role (m_Role m))
        (od_members s) = Ok (x, l)
  end.
Proof.
  unfold upsertMember, references, bind, guard, oexec, set_role.
  destruct (org_exists _ s) eqn:E1; [|by intros [= <- <-]]. simpl.
  destruct (user_exists _ s) eqn:E2; [|by intros [= <- <-]]. simpl.
  destruct (project_of _ _ s) eqn:E3; [|by intros [= <- <-]]. simpl.
  destruct (upsert_row _ _ _ _ _ _) as [[x l]|e] eqn:E; intros [= <- <-]; [|done].
  split; [done|]. by exists l.
Qed.

(** The row of a new member. *)
Definition memberRow (s : ODb) (m : Membership) : Membership :=
  mkMembership (flake (od_seq s)) (m_OrgID m) (m_ProjectID m) (m_UserID m)
    (m_Role m) (od_now s).
Definition next_gen (s : ODb) : ODb := with_gen (S (od_seq s)) (od_random s) s.

Lemma AddMember_run m s :
  m_ID m = 0%Z ->
  Provider_AddMember m s =
  match Membership_Validate m with
  | Err e => (Err e, next_gen s)
  | Ok _ => upsertMember (memberRow s m) (next_gen s)
  end.
Proof.
  intros Hid. unfold Provider_AddMember, bind, oensureID. rewrite Hid. simpl.
  unfold lift_result. by destruct (Membership_Validate m).
Qed.

Definition grant_row (s : ODb) (m : Membership) : Prop :=
  issued s (m_ID m) /\ member_refs s m.

Lemma member_refs_key s m n :
  scope_key m = scope_key n -> member_refs s m -> member_refs s n.
Proof. unfold member_refs. destruct m, n; simpl. by intros [= -> -> ->]. Qed.

(** An upsert keeps the rows grants, and loses an Owner only where it
    overwrites one. *)
Lemma upsert_members s m x l :
  upsert_row member_uniques member_scope m (fun _ => true) (set_role (m_Role m))
    (od_members s) = Ok (x, l) ->
  Forall (grant_row s) (od_members s) -> grant_row s m ->
  uniques_hold member_uniques l /\ Forall (grant_row s) l /\
  x ∈ l /\ scope_key x = scope_key m /\ m_Role x = m_Role m /\
  (m_Role m = Role_Owner \/ (forall y, y ∈ od_members s -> scope_key y <> scope_key m) ->
   forall o, Exists (owner_of o) (od_members s) -> Exists (owner_of o) l).
Proof.
  intros E HF Hm. rewrite Forall_forall in HF. setoid_rewrite Exists_exists.
  apply upsert_row_ok in E as [(Hn & -> & -> & Hu)|(old & Ho & Hk & _ & -> & Hu & ->)].
  - split_and!; try done; [|set_solver|].
    + rewrite Forall_forall. set_solver.
    + intros _ o (y & Hy & Hyo). exists y. set_solver.
  - simpl in *. split_and!; try done.
    + rewrite Forall_forall. intros y (z & Hz & ->)%update_all_elem.
      destruct (HF z Hz) as [Hi Hr]. case_bool_decide; [|done].
      split; [done|]. by apply (member_refs_key s z).
    + apply update_all_elem. exists old. split; [done|]. by rewrite bool_decide_true.
    + intros Hc o (y & Hy & Hyo).
      exists (if bool_decide (scope_key y = scope_key m) then set_role (m_Role m) y else y).
      split; [apply update_all_elem; by exists y|]. case_bool_decide as Hd; [|done].
      destruct Hc as [Hc|Hc]; [|by destruct (Hc y Hy)].
      destruct Hyo as (? & ? & ?). by split_and!; simpl.
Qed.

Lemma grant_row_next s m : grant_row s m -> grant_row (next_gen s) m.
Proof. intros [Hi Hr]. split; [|done]. apply (issued_mono s); [simpl; lia|done]. Qed.

Lemma inv_grant_rows s : org_inv s -> Forall (grant_row (next_gen s)) (od_members s).
Proof.
  intros Hs. eapply Forall_impl; [apply (inv_member_rows _ s Hs)|].
  intros m Hm. by apply grant_row_next.
Qed.

(** A grant added where there is none, or as an Owner. *)
Lemma inv_AddMember m s :
  m_ID m = 0%Z ->
  m_Role m = Role_Owner \/
    (forall y, y ∈ od_members s -> scope_key y <> scope_key m) ->
  org_inv s -> org_inv (Provider_AddMember m s).2.
Proof.
  intros Hid Hc Hs. rewrite AddMember_run by done.
  assert (org_inv (next_gen s)) as Hn by (apply org_inv_gen; [lia|done]).
  destruct (Membership_Validate m); [|done].
  destruct (upsertMember _ _) as [[x|e] s'] eqn:E; apply upsertMember_run in E;
    [|by subst].
  destruct E as (Hr & l & -> & E). apply upsert_members in E as (Hu & HF & _ & _ & _ & Ho).
  - apply org_inv_members; try done. intros o Ho'. apply Ho; [by destruct Hc; [left|right]|].
    pose proof (inv_owner _ s Hs) as HO. rewrite Forall_forall in HO. by apply HO.
  - apply (inv_grant_rows s Hs).
  - split; [|done]. exists (od_seq s). simpl. split; [lia|done].
Qed.

Lemma inv_DeleteMember r s :
  (forall o, o ∈ od_orgs s ->
     Exists (fun m => owner_of (o_ID o) m /\ DeleteMember_where r m = false)
       (od_members s)) ->
  org_inv s -> org_inv (Provider_DeleteMember r s).2.
Proof.
  intros Ho Hs. unfold Provider_DeleteMember, bind, guard, oexec.
  destruct (negb _); [|done]. simpl. apply org_inv_members; [| | |done].
  - apply filter_hold, Hs.
  - apply Forall_forall. intros m [Hm _]%filter_elem.
    pose proof (inv_member_rows _ s Hs) as HF. rewrite Forall_forall in HF. by apply HF.
  - intros o Hin. specialize (Ho o Hin). rewrite Exists_exists in *.
    destruct Ho as (m & Hm & Hw & E). exists m. rewrite filter_elem, E. done.
Qed.

Lemma inv_UpdateMemberRole r s :
  (forall o, o ∈ od_orgs s ->
     Exists (fun m => owner_of (o_ID o) m /\
       (UpdateMemberRole_where r m = true -> um_Role r = Role_Owner)) (od_members s)) ->
  org_inv s -> org_inv (Provider_UpdateMemberRole r s).2.
Proof.
  intros Ho Hs. unfold Provider_UpdateMemberRole, bind, guard.
  destruct (negb _ && _ && _); [|done]. simpl.
  unfold onot_found, catch, oexec.
  destruct (update_row _ _ _ _) as [[x l]|e] eqn:E; [|done]. simpl.
  apply update_row_ok in E as (old & _ & _ & -> & -> & Hu).
  pose proof (inv_member_rows _ s Hs) as HF. rewrite Forall_forall in HF.
  apply org_inv_members; [done| | |done].
  - apply Forall_forall. intros m (z & Hz & ->)%update_all_elem.
    destruct (HF z Hz). by destruct (UpdateMemberRole_where r z).
  - intros o Hin. specialize (Ho o Hin). rewrite Exists_exists in *.
    destruct Ho as (m & Hm & Hw & E). eexists. split; [apply update_all_elem; by exists m|].
    destruct (UpdateMemberRole_where r m); [|done].
    destruct Hw as (? & ? & ?). split_and!; simpl; auto.
Qed.

(** ** Orgs *)

Lemma org_inv_new_org s org l :
  uniques_hold org_uniques (od_orgs s ++ [org]) ->
  uniques_hold member_uniques l ->
  let s1 := next_gen (ot_set orgs (od_orgs s ++ [org]) s) in
  Forall (grant_row s1) l -> Exists (owner_of (o_ID org)) l ->
  (forall o, Exists (owner_of o) (od_members s) -> Exists (owner_of o) l) ->
  org_inv s -> org_inv (ot_set members l s1).
Proof.
  intros Hu Hl s1 HF Hn Ho Hs.
  assert (grows s s1) as Hg.
  { split_and!; simpl; try done; try lia. rewrite fmap_app. set_solver. }
  destruct Hs. constructor; simpl; try done.
  - eapply Forall_impl; [exact inv_user_rows0|]. intros u [].
    split; [|done]. by apply (issued_grows s).
  - eapply Forall_impl; [exact inv_login_rows0|]. intros u [].
    split; [|done]. by apply (issued_grows s).
  - eapply Forall_impl; [exact inv_invite_rows0|]. intros v Hv.
    by apply (invite_ok_grows s).
  - rewrite Forall_forall in inv_owner0 |- *. intros o Hin. elem_snoc Hin; auto.
Qed.

Lemma AddMember_seq m s : (od_seq s <= od_seq (Provider_AddMember m s).2)%nat.
Proof.
  assert (preserves (fun s' => od_seq s <= od_seq s')%nat (Provider_AddMember m)) as Hp;
    [|by apply Hp].
  unfold Provider_AddMember, upsertMember. preserves_steps.
  - unfold oensureID. destruct (IsZero _); intros s' Hs'; simpl; lia.
  - by intros s'.
  - intros s' Hs'. unfold references. by destruct (org_exists _ _).
  - intros s' Hs'. unfold references. by destruct (user_exists _ _).
  - intros s' Hs'. unfold references. by destruct (project_of _ _ _).
  - intros s' Hs'. unfold oexec. by destruct (upsert_row _ _ _ _ _ _) as [[]|].
Qed.

Lemma inv_RegisterOrg m ownerID :
  ownerID <> 0%Z -> preserves org_inv (Provider_RegisterOrg m ownerID).
Proof.
  intros Hown. unfold Provider_RegisterOrg. rewrite (proj2 (Z.eqb_neq ownerID 0)) by done.
  preserves_steps; auto using inv_oensureID, inv_RandomString, inv_oNow.
  set (org := mkOrg _ _ _ _ _ _). set (om id := mkMembership 0 id 0 ownerID Role_Owner 0).
  apply inv_otransaction.
  - intros s _. unfold bind, oexec. destruct (insert_row _ _ _) as [[x l]|e]; [|done].
    simpl. unfold with_message, catch.
    pose proof (AddMember_seq (om (o_ID x)) (ot_set orgs l s)) as Hle. simpl in Hle.
    by destruct (Provider_AddMember _ _) as [[]].
  - intros s x s' Hs E. apply bind_ok in E as (r & s1 & E1 & E).
    unfold oexec in E1. destruct (insert_row _ _ _) as [[x1 l1]|] eqn:Ei; [|done].
    apply insert_row_ok in Ei as (-> & -> & Hu). injection E1 as <- <-.
    unfold with_message, bind, catch in E.
    rewrite (AddMember_run (om (o_ID org)) _) in E by done.
    destruct (Membership_Validate _); [|done].
    destruct (upsertMember _ _) as [[y|e] s2] eqn:Eu; [|done]. injection E as <- <-.
    apply upsertMember_run in Eu as (Hr & l & -> & Eu).
    apply upsert_members in Eu as (Hl & HF & Hy & Hk & Hrole & Ho).
    + apply org_inv_new_org; try done.
      * apply Exists_exists. exists y. split; [done|]. injection Hk as ? ? ?.
        by split_and!.
      * intros o. apply Ho. by left.
    + eapply Forall_impl; [apply (inv_grant_rows s Hs)|]. intros z [Hi Hz].
      split; [done|]. eapply member_refs_grows, Hz.
      split_and!; simpl; try done. rewrite fmap_app. set_solver.
    + split; [|done]. exists (od_seq s). simpl. split; [lia|done].
Qed.
End invariant.
