(* ===== verification/OrgInvites.v ===== *)
(** Invites and sign-in keep the invariant of the orgs database: a pending
    invite is for an email without a user, and the first sign-in of a user
    turns its invites into grants where it had none. *)
From Stdlib Require Import ZArith Lia.
From stdpp Require Import base list gmap strings pretty.
From S2P Require Import Prelude GoStrings Xdb Roles Tenancy Grants Authorizer Model Query Sql CaDb OrgQuery OrgDb OrgInv.

Section invites.
Context `{XL : Xdb, LM : XdbLimits, UC : Unicode, CO : Collation, IG : IdGen, RA : Random}.

Context {exempt : string -> Prop}.
Local Notation org_inv := (org_inv_but exempt).

Definition set_invite (v x : Invite) : Invite :=
  mkInvite (v_ID x) (v_OrgID x) (v_ProjectID x) (v_InviterID v) (v_Email x)
    (v_Role v) (v_CreatedAt x) (v_ExpiresAt v).

Lemma upsertInvite_run v s r s' :
  upsertInvite v s = (r, s') ->
  match r with
  | Err _ => s' = s
  | Ok x => org_exists (v_OrgID v) s = true /\
      project_of (v_OrgID v) (v_ProjectID v) s = true /\
      exists l, s' = ot_set invites l s /\
      upsert_row invite_uniques invite_scope v (fun _ => true) (set_invite v)
        (od_invites s) = Ok (x, l)
  end.
Proof.
  unfold upsertInvite, references, bind, guard, oexec, set_invite.
  destruct (org_exists _ s) eqn:E1; [|by intros [= <- <-]]. simpl.
  destruct (user_exists _ s) eqn:E2; [|by intros [= <- <-]]. simpl.
  destruct (project_of _ _ s) eqn:E3; [|by intros [= <- <-]]. simpl.
  destruct (upsert_row _ _ _ _ _ _) as [[x l]|e] eqn:E; intros [= <- <-]; [|done].
  split_and!; try done. by exists l.
Qed.

Lemma Invite_Validate_ok v :
  Invite_Validate v = Ok tt -> v_OrgID v <> 0%Z /\ v_Role v <> Role_None.
Proof.
  unfold Invite_Validate. destruct (Z.eqb_spec (v_OrgID v) 0); [done|].
  destruct (v_InviterID v =? 0)%Z; [done|]. destruct (badLength _ _); [done|].
  case_bool_decide; naive_solver.
Qed.

(** The invites a new one leaves, when nobody has the email. *)
Lemma upsert_invites s v x l :
  upsert_row invite_uniques invite_scope v (fun _ => true) (set_invite v)
    (od_invites s) = Ok (x, l) ->
  org_inv s -> invite_ok s v -> v_Email v ∉ emails s ->
  org_inv (ot_set invites l s).
Proof.
  intros E Hs Hv He.
  pose proof (inv_invite_rows _ s Hs) as HR. pose proof (inv_pending _ s Hs) as HP.
  rewrite Forall_forall in HR, HP.
  apply upsert_row_ok in E as [(Hn & -> & -> & Hu)|(old & Ho & Hk & _ & -> & Hu & ->)];
    apply org_inv_invites; try done; apply Forall_forall.
  - set_solver.
  - intros y Hy. elem_snoc Hy; [by apply HP|done].
  - intros y (z & Hz & ->)%update_all_elem. specialize (HR z Hz).
    case_bool_decide; [|done]. unfold invite_ok in *. simpl. naive_solver.
  - intros y (z & Hz & ->)%update_all_elem. specialize (HP z Hz).
    case_bool_decide as Hd; [|done]. simpl in *. intros Hin. destruct He.
    by injection Hd as _ _ <-.
Qed.

Lemma inv_CreateInvite v s :
  v_ID v = 0%Z -> ToLower (v_Email v) ∉ emails s ->
  org_inv s -> org_inv (Provider_CreateInvite v s).2.
Proof.
  intros Hid He Hs. unfold Provider_CreateInvite, bind, oensureID. rewrite Hid. simpl.
  assert (org_inv (next_gen s)) as Hn by (apply org_inv_gen; [lia|done]).
  set (inv := mkInvite _ _ _ _ _ _ _ _). unfold lift_result.
  destruct (Invite_Validate inv) as [[]|] eqn:E; [|done].
  apply Invite_Validate_ok in E as [Ho Hr].
  destruct (upsertInvite _ _) as [[x|e] s'] eqn:Eu; apply upsertInvite_run in Eu;
    [|by subst].
  destruct Eu as (Ho' & Hp & l & -> & Eu). eapply upsert_invites; try done.
Qed.

Lemma inv_invites_filter f s :
  org_inv s -> org_inv (ot_set invites (List.filter f (od_invites s)) s).
Proof.
  intros Hs. pose proof (inv_invite_rows _ s Hs) as HR. pose proof (inv_pending _ s Hs) as HP.
  rewrite Forall_forall in HR, HP. apply org_inv_invites; [| | |done].
  - apply filter_hold, Hs.
  - apply Forall_forall. intros v [Hv _]%filter_elem. by apply HR.
  - apply Forall_forall. intros v [Hv _]%filter_elem. by apply HP.
Qed.

Lemma inv_DeleteInvite r : preserves org_inv (Provider_DeleteInvite r).
Proof.
  unfold Provider_DeleteInvite. preserves_steps. apply inv_oexec.
  intros s a l Hs [= <- <-]. by apply inv_invites_filter.
Qed.

(** ** Members with a new ID *)

Context {IGL : @IdGenLaws IG}.

Lemma issued_fresh s : ~ issued s (flake (od_seq s)).
Proof. intros (k & Hk & E%flake_inj). lia. Qed.

Lemma Membership_Validate_ok m :
  m_OrgID m <> 0%Z -> m_UserID m <> 0%Z -> m_Role m <> Role_None ->
  Membership_Validate m = Ok tt.
Proof.
  intros Ho Hu Hr. unfold Membership_Validate.
  rewrite (proj2 (Z.eqb_neq _ _) Ho), (proj2 (Z.eqb_neq _ _) Hu).
  by rewrite bool_decide_false.
Qed.

Lemma fresh_member_hold s m :
  org_inv s -> (forall y, y ∈ od_members s -> scope_key y <> scope_key m) ->
  uniques_hold member_uniques (od_members s ++ [memberRow s m]).
Proof.
  intros Hs Hk. apply insert_hold; [apply Hs|].
  pose proof (inv_member_rows _ s Hs) as HF. rewrite Forall_forall in HF.
  repeat constructor; simpl; intros (y & E & Hy)%list_elem_of_fmap.
  - destruct (HF y Hy) as [Hi _]. rewrite <-E in Hi. by apply issued_fresh in Hi.
  - by apply (Hk y Hy).
Qed.

Lemma upsertMember_refs m s :
  member_refs s m ->
  upsertMember m s =
  oexec members (upsert_row member_uniques member_scope m (fun _ => true)
                   (set_role (m_Role m))) s.
Proof.
  intros (R1 & R2 & R3). unfold upsertMember, references, bind, guard.
  rewrite R1. simpl. rewrite R2. simpl. by rewrite R3.
Qed.

(** A valid grant where there is none is added. *)
Lemma AddMember_fresh m s :
  m_ID m = 0%Z -> org_inv s -> member_refs s m ->
  m_OrgID m <> 0%Z -> m_UserID m <> 0%Z -> m_Role m <> Role_None ->
  (forall y, y ∈ od_members s -> scope_key y <> scope_key m) ->
  Provider_AddMember m s =
  (Ok (memberRow s m),
   ot_set members (od_members s ++ [memberRow s m]) (next_gen s)).
Proof.
  intros Hid Hs Hrefs Ho Hu Hr Hk.
  rewrite AddMember_run, Membership_Validate_ok, upsertMember_refs by done.
  unfold oexec, upsert_row.
  change (ot_rows members (next_gen s)) with (od_members s).
  destruct (List.find _ _) as [y|] eqn:E.
  - apply find_some in E as [Hy%list_elem_of_In E%bool_decide_eq_true].
    by destruct (Hk y Hy).
  - by rewrite insert_row_hold by (by apply fresh_member_hold).
Qed.

(** ** Acceptance *)

Context {UL : @UnicodeLaws UC}.

(** The grant of an invite. *)
Definition invite_grant (u : User) (v : Invite) : Membership :=
  mkMembership 0 (v_OrgID v) (v_ProjectID v) (us_ID u) (v_Role v) 0.

Definition grants_invite (u : User) (v : Invite) (m : Membership) : Prop :=
  scope_key m = scope_key (invite_grant u v) /\ m_Role m = v_Role v.

(** An invite the user may accept, at a scope where it has no grant. *)
Definition pending_for (u : User) (s : ODb) (v : Invite) : Prop :=
  v ∈ od_invites s /\ v_Email v = us_Email u /\
  (v_ExpiresAt v = 0%Z \/ (od_now s < v_ExpiresAt v)%Z) /\
  forall y, y ∈ od_members s -> scope_key y <> scope_key (invite_grant u v).

Definition drop_invite (v : Invite) (s : ODb) : ODb :=
  ot_set invites (List.filter (fun x => negb (v_ID x =? v_ID v)%Z) (od_invites s)) s.
Definition accepted_row (u : User) (v : Invite) (s : ODb) : Membership :=
  memberRow (drop_invite v s) (invite_grant u v).
Definition accepted_state (u : User) (v : Invite) (s : ODb) : ODb :=
  ot_set members (od_members s ++ [accepted_row u v s]) (next_gen (drop_invite v s)).

Lemma takeInvite_run s v :
  org_inv s -> v ∈ od_invites s -> takeInvite (v_ID v) s = (Ok v, drop_invite v s).
Proof.
  intros Hs Hv. unfold takeInvite, onot_found, catch, oexec.
  change (ot_rows invites s) with (od_invites s).
  rewrite (select_row_unique _ (od_invites s) v); [done|done|apply Z.eqb_refl|].
  intros x Hx Hw%Z.eqb_eq.
  apply (NoDup_key_inj v_ID (od_invites s)); try done.
  apply (uniques_elem invite_uniques _ (Unique "invite_pkey" _ _ v_ID));
    [apply Hs|by left].
Qed.

Lemma user_row s u :
  org_inv s -> u ∈ od_users s -> us_ID u <> 0%Z /\ user_exists (us_ID u) s = true.
Proof.
  intros Hs Hu. pose proof (inv_user_rows _ s Hs) as HF. rewrite Forall_forall in HF.
  destruct (HF u Hu) as [(k & _ & Hk) _]. split.
  - rewrite Hk. pose proof (flake_pos k). lia.
  - unfold user_exists. apply bool_decide_eq_true, list_elem_of_fmap_2, Hu.
Qed.

Lemma acceptInvite_run u s v :
  org_inv s -> u ∈ od_users s -> pending_for u s v ->
  acceptInvite (v_ID v) u s = (Ok (accepted_row u v s), accepted_state u v s).
Proof.
  intros Hs Hu (Hv & He & Hx & Hk). destruct (user_row s u Hs Hu) as [Hu0 Hue].
  pose proof (inv_invite_rows _ s Hs) as HR. rewrite Forall_forall in HR.
  destruct (HR v Hv) as (Ho & Hp & Ho0 & Hr).
  assert (org_inv (drop_invite v s)) as Hd by by apply inv_invites_filter.
  assert (Invite_IsExpired v (od_now (drop_invite v s)) = false) as Hne.
  { unfold Invite_IsExpired, expired. simpl. destruct Hx as [->|Hx]; [done|].
    apply andb_false_intro2. apply Z.ltb_ge. lia. }
  unfold acceptInvite, otransaction.
  erewrite bind_run by (by apply takeInvite_run).
  erewrite bind_run by (apply guard_true; rewrite He; apply EqualFoldText_refl).
  erewrite (bind_run oNow) by reflexivity.
  erewrite bind_run by (apply guard_true; by rewrite Hne).
  unfold with_message, catch. fold (invite_grant u v).
  by rewrite AddMember_fresh.
Qed.

Lemma inv_accepted u s v :
  org_inv s -> u ∈ od_users s -> pending_for u s v -> org_inv (accepted_state u v s).
Proof.
  intros Hs Hu Hp. destruct (user_row s u Hs Hu) as [Hu0 Hue].
  pose proof Hp as (Hv & _ & _ & Hk).
  pose proof (inv_invite_rows _ s Hs) as HR. rewrite Forall_forall in HR.
  destruct (HR v Hv) as (Ho & Hpr & Ho0 & Hr).
  assert (org_inv (drop_invite v s)) as Hd by by apply inv_invites_filter.
  pose proof (inv_AddMember (exempt := exempt) (invite_grant u v) (drop_invite v s)) as Ha.
  rewrite AddMember_fresh in Ha by done. apply Ha; [done|by right|done].
Qed.

(** The other invites stay pending. *)
Lemma pending_after u s v w :
  org_inv s -> pending_for u s v -> pending_for u s w -> v_ID w <> v_ID v ->
  pending_for u (accepted_state u v s) w.
Proof.
  intros Hs (Hv & Hve & _ & Hvk) (Hw & Hwe & Hwx & Hwk) Hid. split_and!; try done.
  - simpl. apply filter_elem. split; [done|]. apply negb_true_iff, Z.eqb_neq, Hid.
  - simpl. intros y Hy. elem_snoc Hy; [by apply Hwk|]. intros E. apply Hid.
    injection E as E1 E2.
    assert (v = w) as ->; [|done].
    apply (NoDup_key_inj (u_key invite_scope) (od_invites s)); try done.
    + apply (uniques_elem invite_uniques); [apply Hs|right; by left].
    + simpl. by rewrite E1, E2, Hve, Hwe.
Qed.

(** The acceptance of a list of pending invites: one grant each, in order, at
    the scope and with the role of the invite, and the invites are gone. *)
Lemma acceptEach_run u invs : forall s acc,
  org_inv s -> u ∈ od_users s -> Forall (pending_for u s) invs -> NoDup (v_ID <$> invs) ->
  exists rows s', acceptEach u invs acc s = (Ok (acc ++ rows), s') /\
    od_members s' = od_members s ++ rows /\ Forall2 (grants_invite u) invs rows /\
    od_invites s' = List.filter (fun x => negb (bool_decide (v_ID x ∈ (v_ID <$> invs))))
                      (od_invites s) /\
    org_inv s' /\ od_users s' = od_users s /\ od_now s' = od_now s /\
    od_orgs s' = od_orgs s /\ od_projects s' = od_projects s /\
    od_logins s' = od_logins s /\ od_keys s' = od_keys s.
Proof.
  induction invs as [|v invs IH]; intros s acc Hs Hu HF Hnd.
  - exists [], s. rewrite !app_nil_r. split_and!; try done.
    simpl. induction (od_invites s) as [|x l IHl]; simpl; [done|by rewrite <-IHl at 1].
  - apply Forall_cons in HF as [Hv HF]. rewrite fmap_cons in Hnd.
    apply NoDup_cons in Hnd as [Hni Hnd].
    destruct (IH (accepted_state u v s) (acc ++ [accepted_row u v s]))
      as (rows & s' & E & Hm & HR & Hi & Hs' & ? & ? & ? & ? & ? & ?); try done.
    + by apply inv_accepted.
    + rewrite Forall_forall in HF |- *. intros w Hw. apply pending_after; auto.
      intros Eq. apply Hni. rewrite <-Eq. by apply list_elem_of_fmap_2.
    + exists (accepted_row u v s :: rows), s'. split_and!; try done.
      * simpl. unfold catch. rewrite acceptInvite_run by done.
        by rewrite E, <-app_assoc.
      * rewrite Hm. simpl. by rewrite <-app_assoc.
      * by constructor.
      * rewrite Hi. simpl. rewrite filter_filter. apply filter_ext. intros x.
        repeat case_bool_decide; destruct (Z.eqb_spec (v_ID x) (v_ID v)); set_solver.
Qed.
End invites.
