(* ===== verification/SignIn.v ===== *)
(** Sign-in: the database part of [handleToken]
    ([server/service/auth/callback.go]) and the selection of an org
    ([server/service/auth/tenant.go]).

    The identity provider has authenticated the caller; the login and the
    user are registered, the invites of a first login are accepted, and the
    org of the session is selected. *)
From Stdlib Require Import ZArith Lia.
From stdpp Require Import base list gmap strings pretty.
From S2P Require Import Prelude GoStrings Xdb Roles Scopes Tenancy Grants Authorizer Methods Access Model Query Sql CaDb Pbconv RowPb TenantScope OrgQuery OrgDb OrgsService.

Definition EventType_OrgMemberAccepted : Z := 8.
Definition EventType_ProjectMemberAccepted : Z := 16.
Definition EventType_UserSignup : Z := 20.
Definition EventType_UserSignedIn : Z := 22.

Definition auth_ServiceName : string := "auth".

(** The [Orgs] section of the configuration. *)
Record OrgsConfig := mkOrgsConfig { cf_DefaultOrgName : string; cf_DefaultProjectName : string }.

(** [os_Orgs] maps every accessible org to the resolved role. *)
Record orgSelection := mkSelection {
  sl_OrgID : Z; sl_Role : Role_Enum; sl_Source : RoleSource_Enum;
  sl_Orgs : gmap string string }.

(** [jwt.MapClaims]: the claims of a token, texts, numbers, flags and other
    JSON values, which the code only carries. *)
Inductive claim :=
| ClaimText (s : string)
| ClaimNum (n : Z)
| ClaimFlag (b : bool)
| ClaimJson (text : string).
Notation MapClaims := (gmap string claim).

(** The claims of a token the selection writes. *)
Definition ClaimOrg : string := "org".
Definition ClaimOrgRole : string := "org_role".
Definition ClaimOrgRoleSource : string := "org_role_source".

(** [None] is nil. *)
Definition setOrgClaims `{Xdb} (o : option orgSelection) (claims : MapClaims) : MapClaims :=
  let claims := delete "orgs"%string claims in
  let without := delete ClaimOrg (delete ClaimOrgRole (delete ClaimOrgRoleSource claims)) in
  match o with
  | None => without
  | Some o =>
      if (sl_OrgID o =? 0)%Z then without
      else <[ClaimOrgRoleSource := ClaimText (RoleSourceClaim (sl_Source o))]>
             (<[ClaimOrgRole := ClaimText (Role_String (sl_Role o))]>
               (<[ClaimOrg := ClaimText (id_string (sl_OrgID o))]> claims))
  end.

Section sign_in.
Context `{Xdb, XdbLimits, Unicode, Collation, IdGen, Random, Cache, Porto, ProfileCodec}.

Definition resolveOrgs (memberships : list MembershipInfo) (userID : Z)
  : gmap string string :=
  foldl (fun res orgID =>
    <[id_string orgID := Role_String
        (ResolvedOrgRole (Some (GrantsFromMemberships memberships orgID userID))).1]> res)
    ∅ (OrgIDs memberships).

Definition selectOrg (memberships : list MembershipInfo) (orgID userID : Z)
  : option orgSelection :=
  let grants := GrantsFromMemberships memberships orgID userID in
  if negb (IsMember (Some grants)) then None
  else let '(role, source) := ResolvedOrgRole (Some grants) in
       Some (mkSelection orgID role source (resolveOrgs memberships userID)).

(** The default org of a user without a grant, and its project: failures are
    logged; [false] when the org is not registered. *)
Definition registerDefault (cfg : OrgsConfig) (ctx : Context) (user : User)
  : M OrgState bool :=
  catch (in_odb (Provider_RegisterOrg (mkOrg 0 "" (cf_DefaultOrgName cfg) ""
                   ItemStatus_Active 0) (us_ID user))) (fun r =>
  match r with
  | Err _ => ret false
  | Ok org =>
      os_emit (events_Description ("default org " ++ o_Name org ++ " created for " ++
                                   us_Email user)
        (events_Email (us_Email user) (events_Reference (o_ID org)
          (events_Org (o_ID org) (events_New ctx auth_ServiceName EventType_OrgCreated
             "Org created"))))) ;;;
      if bool_decide (cf_DefaultProjectName cfg = EmptyString) then ret true
      else catch (in_odb (Provider_RegisterProject (mkProject 0 (o_ID org) ""
                    (cf_DefaultProjectName cfg) "" ItemStatus_Active 0 0))) (fun r =>
        match r with
        | Err _ => ret true
        | Ok project =>
            os_emit (events_Description ("default project " ++ Tenancy.p_Name project ++
                                         " created")
              (events_Email (us_Email user) (events_Reference (Tenancy.p_ID project)
                (events_Project (Tenancy.p_ID project) (events_Org (o_ID org)
                  (events_New ctx auth_ServiceName EventType_ProjectCreated
                     "Project created")))))) ;;;
            ret true
        end)
  end).

Definition initialOrg (cfg : OrgsConfig) (ctx : Context) (user : User)
  : M OrgState (option orgSelection) :=
  let select memberships :=
    match OrgIDs memberships with
    | [] => None
    | orgID :: _ => selectOrg memberships orgID (us_ID user)
    end in
  catch (in_odb (Provider_GetUserMemberships (us_ID user))) (fun r =>
  match r with
  | Err _ => ret None
  | Ok memberships =>
      if bool_decide (memberships = []) &&
         negb (bool_decide (cf_DefaultOrgName cfg = EmptyString)) then
        let! ok := registerDefault cfg ctx user in
        if ok then
          catch (in_odb (Provider_GetUserMemberships (us_ID user))) (fun r =>
          match r with
          | Err _ => ret None
          | Ok memberships => ret (select memberships)
          end)
        else ret None
      else ret (select memberships)
  end).

(** The events of the accepted invites. *)
Fixpoint emitAccepted (ctx : Context) (u : User) (accepted : list Membership)
  : M OrgState unit :=
  match accepted with
  | [] => ret tt
  | m :: rest =>
      os_emit (events_Description (us_Email u ++ " accepted the invitation as " ++
                                   DisplayName (m_Role m))
        (events_Email (us_Email u) (events_Reference (us_ID u)
          (events_Project (m_ProjectID m) (events_Org (m_OrgID m)
            (events_New ctx auth_ServiceName
               (memberEvent (m_ProjectID m) EventType_OrgMemberAccepted
                  EventType_ProjectMemberAccepted) "Member accepted invitation")))))) ;;;
      emitAccepted ctx u rest
  end.

(** The first login of an identity with a provider. *)
Definition firstLogin (ctx : Context) (provider : string) (login : Login) (u : User)
  : M OrgState unit :=
  (if (lg_ID login =? us_ID u)%Z
   then os_emit (events_Description (us_Email u ++ " signed up with " ++ provider)
          (events_Email (us_Email u) (events_Reference (us_ID u)
            (events_New ctx auth_ServiceName EventType_UserSignup "User signed up"))))
   else ret tt) ;;;
  catch (in_odb (Provider_AcceptInvites u)) (fun r => match r with
    | Err _ => ret tt
    | Ok accepted =>
        if bool_decide (accepted = []) then ret tt
        else in_authorizer (InvalidateUser (id_string (us_ID u))) ;;;
             emitAccepted ctx u accepted
    end).

(** The identity the provider returned: [ui.ID], [ui.Email], [ui.Name] and
    the provider, by number and by name. *)
Record UserInfo := mkUserInfo {
  ui_ID : string; ui_Email : string; ui_Name : string; ui_Provider : Z;
  ui_ProviderName : string }.

Definition signIn (cfg : OrgsConfig) (ctx : Context) (ui : UserInfo)
  : M OrgState (User * option orgSelection) :=
  let! res :=
    catch (in_odb (Provider_LoginUser (mkLogin 0 (ui_ID ui) (ui_Provider ui)
             (ui_Email ui) false (ui_Name ui) "" "" 0 0 0))) (fun r =>
    match r with
    | Ok x => ret x
    | Err e => fail (GrpcCause Internal "failed to login" e)
    end) in
  let '(login, u) := res in
  (if (lg_Count login =? 1)%Z then firstLogin ctx (ui_ProviderName ui) login u
   else ret tt) ;;;
  let! sel := initialOrg cfg ctx u in
  ret (u, sel).

(** [SelectOrg] up to the signing of the token: the user and the selection. *)
Definition selectOrgFor (ctx : Context) (reqOrgID : string)
  : M OrgState (User * orgSelection) :=
  match parse_id reqOrgID with
  | None => fail (Grpc InvalidArgument "invalid org ID")
  | Some orgID =>
      let tctx := FromContext ctx in
      guard (negb (IsAPIKey tctx)) (Grpc PermissionDenied "API key not allowed") ;;;
      let userID := tc_userID tctx in
      guard (negb (userID =? 0)%Z) (Grpc Unauthenticated "invalid user") ;;;
      let! user := catch (in_odb (Provider_GetUser userID)) (fun r => match r with
        | Ok u => ret u
        | Err e => fail (GrpcCause PermissionDenied "unable to find user" e)
        end) in
      let! memberships := odb "unable to get memberships"
                            (Provider_GetUserMemberships userID) in
      match selectOrg memberships orgID userID with
      | None => fail (Grpc PermissionDenied "no access to the requested organization")
      | Some sel => ret (user, sel)
      end
  end.
End sign_in.
