(* ===== verification/OrgLogin.v ===== *)
(** A login keeps the invariant of the orgs database, and the first login of
    a user accepts its pending invites. *)
From Stdlib Require Import ZArith Lia.
From stdpp Require Import base list gmap strings pretty.
From S2P Require Import Prelude GoStrings Xdb Roles Tenancy Grants Authorizer Model Query Sql CaDb OrgQuery OrgDb OrgInv OrgInvites.

(** No email is exempt. *)
Notation org_inv := (org_inv_but (fun _ => False)).

Section login.
Context `{XL : Xdb, LM : XdbLimits, UC : Unicode, CO : Collation, IG : IdGen, RA : Random}.
Context {IGL : @IdGenLaws IG} {UL : @UnicodeLaws UC}.

(** The login as it is registered. *)
Definition loginRow (s : ODb) (m : Login) : Login :=
  let email := ToLower (lg_Email m) in
  mkLogin (flake (od_seq s)) (lg_ExternalID m) (lg_Provider m) email
    (lg_EmailVerified m)
    (if bool_decide (lg_Name m = EmptyString) then email else lg_Name m)
    (lg_AccessToken m) (lg_RefreshToken m) (lg_TokenExpiresAt m) (lg_Count m)
    (lg_LastAt m).
Definition loginUser (s : ODb) (m : Login) : User :=
  mkUser (flake (od_seq s)) (ToLower (lg_Email m)) (lg_EmailVerified m)
    (lg_Name (loginRow s m)).

(** The logins after a registration: the identities are kept, or a new login
    is appended with a count of one. *)
Lemma upsertLogin_ok l now rows x l' :
  upsertLogin l now rows = Ok (x, l') ->
  uniques_hold login_uniques l' /\
  (((fun y => (lg_ID y, lg_Email y)) <$> l') = ((fun y => (lg_ID y, lg_Email y)) <$> rows) /\
   
(exists y, y ∈ rows /\ lg_Email y = lg_Email l) \/
   ((forall y, y ∈ rows -> lg_Email y = lg_Email l -> lg_Provider y <> lg_Provider l) /\
    lg_Count x = 1%Z /\ lg_ID x = lg_ID l /\ lg_Email x = lg_Email l /\ l' = rows ++ [x])).
Proof.
  unfold upsertLogin. destruct (List.find _ rows) as [old|] eqn:E.
  - destruct (increment _); [|done]. simpl.
    intros Hup. apply find_some in E as [Hin Hk%bool_decide_eq_true].
    apply (update_row_ids (fun y => (lg_ID y, lg_Email y))) in Hup as [Hi Hu]; [|done].
    split; [done|]. left. split; [done|]. exists old. rewrite list_elem_of_In.
    by injection Hk.
  - intros (-> & -> & Hu)%insert_row_ok. split; [done|]. right. split_and!; try done.
    intros y Hy He Hp. apply list_elem_of_In, (find_none _ _ E) in Hy.
    apply bool_decide_eq_false in Hy. apply Hy. simpl. by rewrite He, Hp.
Qed.

(** A user is registered: the row with the email gets the name, or the new
    row is inserted. *)
Lemma RegisterUser_run s u :
  uniques_hold user_uniques (od_users s) ->
  us_ID u ∉ (us_ID <$> od_users s) ->
  ((us_Email u ∉ emails s) /\
   RegisterUser u s = (Ok u, ot_set users (od_users s ++ [u]) s)) \/
  exists old l, old ∈ od_users s /\ us_Email old = us_Email u /\
    ((fun y => (us_ID y, us_Email y)) <$> l) =
    ((fun y => (us_ID y, us_Email y)) <$> od_users s) /\ uniques_hold user_uniques l /\
    let x := mkUser (us_ID old) (us_Email old) (us_EmailVerified old) (us_Name u) in
    x ∈ l /\ RegisterUser u s = (Ok x, ot_set users l s).
Proof.
  intros Hu Hid. unfold RegisterUser, oexec, upsert_row.
  change (ot_rows users s) with (od_users s).
  destruct (List.find _ _) as [old|] eqn:E.
  - right. pose proof E as E'.
    apply find_some in E as [Hin%list_elem_of_In Hk%bool_decide_eq_true]. simpl in Hk.
    set (w x := bool_decide (u_key user_email x = u_key user_email u)).
    set (f x := mkUser (us_ID x) (us_Email x) (us_EmailVerified x) (us_Name u)).
    exists old, (update_all w f (od_users s)).
    assert (uniques_hold user_uniques (update_all w f (od_users s))) as Hh.
    { apply update_all_hold; [done|]. by repeat constructor. }
    split_and!; try done.
    + by apply update_all_key.
    + apply update_all_elem. exists old. split; [done|]. unfold w.
      by rewrite bool_decide_true.
    + rewrite (update_row_hold _ _ _ _ old); [done| |done].
      unfold select_row, w. by rewrite E'.
  - left. assert (us_Email u ∉ emails s) as He.
    { intros (y & Hy & Hin)%list_elem_of_fmap.
      apply list_elem_of_In, (find_none _ _ E), bool_decide_eq_false in Hin.
      by apply Hin. }
    split; [done|]. rewrite insert_row_hold; [done|]. apply insert_hold; [done|].
    by repeat constructor.
Qed.

Lemma LoginUser_bind m s :
  Provider_LoginUser m s =
  match Login_Validate (loginRow s m) with
  | Err e => (Err e, next_gen s)
  | Ok _ =>
      match upsertLogin (loginRow s m) (od_now s) (od_logins s) with
      | Err e => (Err e, next_gen s)
      | Ok (l, ll) =>
          (let! user := onot_found "login" (pretty (flake (od_seq s)))
             (RegisterUser (loginUser s m)) in
           ret (l, user)) (ot_set logins ll (next_gen s))
      end
  end.
Proof.
  unfold Provider_LoginUser. erewrite (bind_run oNextID) by reflexivity.
  cbv zeta. fold (loginRow s m). unfold bind at 1, lift_result.
  destruct (Login_Validate (loginRow s m)); [|done].
  erewrite (bind_run oNow) by reflexivity. unfold bind at 1, oexec.
  change (ot_rows logins (next_gen s)) with (od_logins s).
  change (od_now (with_gen (S (od_seq s)) (od_random s) s)) with (od_now s).
  change (with_gen (S (od_seq s)) (od_random s) s) with (next_gen s).
  change (ot_rows logins (next_gen s)) with (od_logins s).
  by destruct (upsertLogin _ _ _) as [[l ll]|e].
Qed.

Lemma user_ids_issued s id : org_inv s -> id ∈ (us_ID <$> od_users s) -> issued s id.
Proof.
  intros Hs (u & -> & Hu)%list_elem_of_fmap.
  pose proof (inv_user_rows _ s Hs) as HF. rewrite Forall_forall in HF. by apply HF.
Qed.
Lemma member_user_issued s y : org_inv s -> y ∈ od_members s -> issued s (m_UserID y).
Proof.
  intros Hs Hy. pose proof (inv_member_rows _ s Hs) as HF. rewrite Forall_forall in HF.
  destruct (HF y Hy) as (_ & _ & Hu & _). apply user_ids_issued; [done|].
  unfold user_exists in Hu. by apply bool_decide_eq_true in Hu.
Qed.

(** The users, logins and generators change; the emails of the new users are
    exempt. *)
Lemma org_inv_login s lu ll (exempt : string -> Prop) :
  let s' := ot_set users lu (ot_set logins ll (next_gen s)) in
  org_inv s ->
  uniques_hold user_uniques lu -> uniques_hold login_uniques ll ->
  Forall (fun u => issued s' (us_ID u) /\ ToLower (us_Email u) = us_Email u) lu ->
  Forall (fun l => issued s' (lg_ID l) /\ lg_Email l ∈ us_Email <$> lu) ll ->
  (us_ID <$> od_users s) ⊆ (us_ID <$> lu) ->
  (forall e, e ∈ us_Email <$> lu -> exempt e \/ e ∈ emails s) ->
  org_inv_but exempt s'.
Proof.
  intros s' Hs Hu Hl HU HL Hid He.
  assert (grows s s') as Hg by (split_and!; simpl; try done; lia).
  destruct Hs. constructor; try done.
  - eapply Forall_impl; [exact inv_member_rows|]. intros m [].
    split; [by apply (issued_grows s)|by apply (member_refs_grows s)].
  - eapply Forall_impl; [exact inv_pending|]. simpl. intros v Hv Hin.
    destruct (He _ Hin) as [Hx|Hx]; [by left|]. right.
    destruct (Hv Hx) as [[]|Hp]. by apply (lapsed_grows s).
Qed.

(** The logins after a registration are issued, and their emails are those of
    the users or the new one. *)
Lemma login_rows_after s m x ll lu :
  org_inv s ->
  upsertLogin (loginRow s m) (od_now s) (od_logins s) = Ok (x, ll) ->
  emails s ⊆ (us_Email <$> lu) -> ToLower (lg_Email m) ∈ us_Email <$> lu ->
  let s' := ot_set users lu (ot_set logins ll (next_gen s)) in
  Forall (fun l => issued s' (lg_ID l) /\ lg_Email l ∈ us_Email <$> lu) ll.
Proof.
  intros Hs E Hsub Hin s'. apply upsertLogin_ok in E as [_ E].
  pose proof (inv_login_rows _ s Hs) as HF. rewrite Forall_forall in HF |- *.
  assert (forall y, y ∈ od_logins s ->
            issued s' (lg_ID y) /\ lg_Email y ∈ us_Email <$> lu) as Hold.
  { intros y Hy. destruct (HF y Hy) as [Hi He]. split; [|by apply Hsub].
    apply (issued_mono s); [simpl; lia|done]. }
  destruct E as [[Hk _]|(_ & _ & Hi & He & ->)].
  - intros y Hy. assert ((lg_ID y, lg_Email y) ∈
      ((fun y => (lg_ID y, lg_Email y)) <$> od_logins s)) as Hin'.
    { rewrite <-Hk. by apply (list_elem_of_fmap_2 (fun y => (lg_ID y, lg_Email y))). }
    apply list_elem_of_fmap in Hin' as (z & [= -> ->] & Hz). by apply Hold.
  - intros y Hy. elem_snoc Hy; [by apply Hold|]. rewrite Hi, He. split; [|done].
    exists (od_seq s). simpl. split; [lia|done].
Qed.

(** A login fails with the tables as they were, or it registers the user: a
    user that had the email, or a new one with its first login, whose invites
    are then pending. *)
Lemma LoginUser_cases m s :
  org_inv s ->
  (exists e, Provider_LoginUser m s = (Err e, next_gen s)) \/
  exists l u s', Provider_LoginUser m s = (Ok (l, u), s') /\ u ∈ od_users s' /\
    us_Email u = ToLower (lg_Email m) /\
    od_members s' = od_members s /\ od_invites s' = od_invites s /\
    od_orgs s' = od_orgs s /\ od_projects s' = od_projects s /\
    od_keys s' = od_keys s /\ od_now s' = od_now s /\
    (org_inv s' \/
     (lg_Count l = 1%Z /\ lg_ID l = us_ID u /\ (us_Email u ∉ emails s) /\
      org_inv_but (fun e => e = us_Email u) s' /\
      forall y, y ∈ od_members s -> m_UserID y <> us_ID u)).
Proof.
  intros Hs. rewrite LoginUser_bind. destruct (Login_Validate _); [|left; by eexists].
  destruct (upsertLogin _ _ _) as [[l ll]|e] eqn:E; [|left; by eexists]. right.
  pose proof E as [Hll Hl]%upsertLogin_ok.
  set (s1 := ot_set logins ll (next_gen s)).
  assert (us_ID (loginUser s m) ∉ (us_ID <$> od_users s1)) as Hfresh.
  { intros Hin. by apply (issued_fresh s), user_ids_issued. }
  pose proof (inv_user_rows _ s Hs) as HU. rewrite Forall_forall in HU.
  destruct (RegisterUser_run s1 (loginUser s m)) as
    [[He Hr]|(old & lu & Hold & Heq & Hk & Hu & Hx & Hr)]; [apply Hs|done| |].
  - exists l, (loginUser s m). eexists. unfold bind, onot_found, catch. rewrite Hr.
    split; [done|]. split; [simpl; set_solver|]. split_and!; try done. right.
    destruct Hl as [[_ (y & Hy & Hye)]|(_ & Hc & Hli & _)].
    { destruct He. pose proof (inv_login_rows _ s Hs) as HF. rewrite Forall_forall in HF.
      change (lg_Email y = us_Email (loginUser s m)) in Hye. rewrite <-Hye. by apply HF. }
    split_and!; try done.
    + apply org_inv_login; try done.
      * apply insert_hold; [apply Hs|]. by repeat constructor.
      * apply Forall_forall. intros u Hin. elem_snoc Hin.
        -- destruct (HU u Hin). split; [|done]. apply (issued_mono s); [simpl; lia|done].
        -- split; [|apply ToLower_idem]. exists (od_seq s). simpl. split; [lia|done].
      * eapply login_rows_after; try done; rewrite fmap_app; set_solver.
      * rewrite fmap_app. set_solver.
      * intros e. rewrite fmap_app. intros [Hin|Hin]%elem_of_app; [by right|].
        left. by apply list_elem_of_singleton in Hin.
    + intros y Hy E'. apply (issued_fresh s).
      change (flake (od_seq s)) with (us_ID (loginUser s m)). rewrite <-E'.
      by apply member_user_issued.
  - set (u := mkUser _ _ _ _) in Hx, Hr. exists l, u. eexists.
    unfold bind, onot_found, catch. rewrite Hr. split; [done|].
    assert (us_ID <$> lu = us_ID <$> od_users s) as Hids.
    { apply (f_equal (fmap fst)) in Hk. by rewrite <-!list_fmap_compose in Hk. }
    assert (us_Email <$> lu = emails s) as Hems.
    { apply (f_equal (fmap snd)) in Hk. by rewrite <-!list_fmap_compose in Hk. }
    split; [done|]. split_and!; try done. left. apply org_inv_login; try done.
    + apply Forall_forall. intros y Hy.
      assert ((us_ID y, us_Email y) ∈ ((fun y => (us_ID y, us_Email y)) <$> od_users s1))
        as Hin.
      { rewrite <-Hk. by apply (list_elem_of_fmap_2 (fun y => (us_ID y, us_Email y))). }
      apply list_elem_of_fmap in Hin as (z & [= -> ->] & Hz).
      destruct (HU z Hz). split; [|done]. apply (issued_mono s); [simpl; lia|done].
    + eapply login_rows_after; [done|done|by rewrite Hems|]. rewrite Hems.
      simpl in Heq. rewrite <-Heq. by apply list_elem_of_fmap_2.
    + by rewrite Hids.
    + intros e. rewrite Hems. by right.
Qed.

(** ** The invites of a user *)

Lemma user_lower {exempt} s u :
  org_inv_but exempt s -> u ∈ od_users s -> ToLower (us_Email u) = us_Email u.
Proof.
  intros Hs Hu. pose proof (inv_user_rows _ s Hs) as HF. rewrite Forall_forall in HF.
  by apply HF.
Qed.

Lemma AcceptInvites_bind u s :
  Provider_AcceptInvites u s =
  acceptEach u (List.filter (GetUserInvites_where (ToLower (us_Email u)) (od_now s))
                  (od_invites s)) [] s.
Proof. reflexivity. Qed.

Definition pending_invites (u : User) (s : ODb) : list Invite :=
  List.filter (GetUserInvites_where (us_Email u) (od_now s)) (od_invites s).

(** A registered user has no pending invite. *)
Lemma pending_none u s :
  org_inv s -> us_Email u ∈ emails s -> pending_invites u s = [].
Proof.
  intros Hs Hu. pose proof (inv_pending _ s Hs) as HP. rewrite Forall_forall in HP.
  apply elem_of_nil_inv. intros v [Hv Hw]%filter_elem.
  unfold GetUserInvites_where in Hw. apply andb_true_iff in Hw as [He Hx].
  apply bool_decide_eq_true in He.
  destruct (HP v Hv) as [[]|[Hn Hle]]; [by rewrite He|].
  apply orb_true_iff in Hx as [Hx|Hx]; lia.
Qed.
Lemma AcceptInvites_none u s :
  org_inv s -> u ∈ od_users s -> Provider_AcceptInvites u s = (Ok [], s).
Proof.
  intros Hs Hu. rewrite AcceptInvites_bind, (user_lower s u Hs Hu).
  fold (pending_invites u s). rewrite pending_none; [done..|].
  by apply list_elem_of_fmap_2.
Qed.

(** A user without a grant accepts every pending invite of its email. *)
Lemma AcceptInvites_all u s :
  org_inv_but (fun e => e = us_Email u) s -> u ∈ od_users s ->
  (forall y, y ∈ od_members s -> m_UserID y <> us_ID u) ->
  exists rows s', Provider_AcceptInvites u s = (Ok rows, s') /\
    od_members s' = od_members s ++ rows /\
    Forall2 (grants_invite u) (pending_invites u s) rows /\
    od_invites s' = List.filter
      (fun v => negb (GetUserInvites_where (us_Email u) (od_now s) v)) (od_invites s) /\
    org_inv s' /\ od_users s' = od_users s /\ od_now s' = od_now s /\
    od_orgs s' = od_orgs s /\ od_projects s' = od_projects s /\
    od_keys s' = od_keys s.
Proof.
  intros Hs Hu Hno. rewrite AcceptInvites_bind, (user_lower s u Hs Hu).
  fold (pending_invites u s).
  assert (NoDup (v_ID <$> od_invites s)) as Hnd.
  { apply (uniques_elem invite_uniques _ (Unique "invite_pkey" _ _ v_ID));
      [apply Hs|by left]. }
  destruct (acceptEach_run (exempt := fun e => e = us_Email u) u (pending_invites u s) s [])
    as (rows & s' & E & Hm & HR & Hi & Hs' & Hus & Hnow & Ho & Hp & Hl & Hk); try done.
  - apply Forall_forall. intros v [Hv Hw]%filter_elem. unfold GetUserInvites_where in Hw.
    apply andb_true_iff in Hw as [He%bool_decide_eq_true Hx].
    split_and!; [done|done| |].
    + apply orb_true_iff in Hx as [Hx|Hx]; [left|right]; lia.
    + intros y Hy [=]. by apply (Hno y).
  - by apply NoDup_fmap_filter.
  - assert (od_invites s' = List.filter
      (fun v => negb (GetUserInvites_where (us_Email u) (od_now s) v)) (od_invites s))
      as Hi'.
    { rewrite Hi. apply filter_ext_in. intros v Hv%list_elem_of_In. f_equal.
      unfold pending_invites. case_bool_decide as Hd.
      - apply list_elem_of_fmap in Hd as (w & Heq & [Hw Hg]%filter_elem).
        by rewrite (NoDup_key_inj v_ID (od_invites s) v w).
      - destruct (GetUserInvites_where _ _ v) eqn:Eg; [|done]. destruct Hd.
        apply list_elem_of_fmap_2, filter_elem. done. }
    exists rows, s'. split_and!; try done. destruct Hs'. constructor; try done.
    rewrite Forall_forall in inv_pending |- *. intros v Hv Hin.
    destruct (inv_pending v Hv Hin) as [He|Hx]; [|by right]. right.
    rewrite Hi' in Hv. apply filter_elem in Hv as [_ Hw%negb_true_iff].
    unfold GetUserInvites_where in Hw. rewrite bool_decide_true in Hw by done.
    apply orb_false_iff in Hw as [Hw1 Hw2]. split; [lia|]. rewrite Hnow. lia.
Qed.
End login.
