(* ===== verification/ApiKeys.v ===== *)
(** API keys: the operations of the orgs service
    ([server/service/orgs/apikey.go]) and the authentication with a key
    ([server/service/auth/apikey.go]).

    A key is [sk_<OrgID>_<protected ID>]; the caller signs the method and a
    timestamp with the secret.  Data protection, the key derivation, HMAC and
    the signing of tokens are libraries. *)
From Stdlib Require Import ZArith Lia Ascii.
From stdpp Require Import base list gmap strings pretty.
From S2P Require Import Prelude GoStrings Xdb Roles Scopes Tenancy Grants Authorizer Methods Access Model Query Sql Base64 CaDb Pbconv RowPb TenantScope OrgQuery OrgDb OrgsService SignIn.

Definition EventType_APIKeyCreated : Z := 31.
Definition EventType_APIKeyDeleted : Z := 32.
Definition EventType_APIKeyLogin : Z := 33.

(** ** Encodings *)

(** [base64.URLEncoding]: the text of [base64.RawURLEncoding], padded to a
    multiple of four characters. *)
Definition URLEncodeToString (s : string) : string :=
  (EncodeToString s ++
   match String.length s mod 3 with
   | 1 => "=="
   | 2 => "="
   | _ => ""
   end)%string.

(** [strings.SplitN(s, sep, 2)] with a separator of one byte, when it yields
    two parts. *)
Fixpoint SplitN2 (sep : ascii) (s : string) : option (string * string) :=
  match s with
  | EmptyString => None
  | String a s' =>
      if bool_decide (a = sep) then Some (EmptyString, s')
      else match SplitN2 sep s' with
           | Some (w, r) => Some (String a w, r)
           | None => None
           end
  end.

(** [strings.Join(l, ",")] *)
Definition join_comma (l : list string) : string :=
  match l with
  | [] => EmptyString
  | a :: rest => foldl (fun acc s => acc ++ "," ++ s)%string a rest
  end.

(** ** The libraries *)

(** [dataprotection] with the draw of its nonce, [certutil.Random],
    [pbkdf2.Key] with SHA-256, HMAC-SHA256, [xdb.ParseTime] (zero for a text
    that is no time) and [xdb.TryParseID]. *)
Class KeyCrypto := {
  ProtectObject : nat -> string -> result string;
  UnprotectObject : string -> result string;
  certutil_Random : nat -> nat -> string;
  pbkdf2_Key : string -> string -> nat -> nat -> string;
  hmac_sha256 : string -> string -> string;
  xdb_ParseTime : string -> Z;
  xdb_TryParseID : string -> Z }.
(** The claims of the token of a key, without the issuer, the audience and
    the nonce, and its signing. *)
Record KeyClaims := mkKeyClaims {
  kc_Org : string; kc_OrgRole : string; kc_Scope : list string; kc_Project : string;
  kc_Sub : string; kc_Email : string; kc_Provider : string; kc_Expires : Z }.
Class JwtSigner := { Sign : KeyClaims -> result string }.

Section apikeys.
Context `{Xdb, XdbLimits, Unicode, Collation, IdGen, Random, Cache, Porto, ProfileCodec}.
Context `{TimeLib, KeyCrypto, JwtSigner}.

(** ** The keys of an org *)

(** Ninety days, in milliseconds. *)
Definition defaultAPIKeyExpiry : Z := 7776000000.

Definition draw : M ODb nat := fun s =>
  (Ok (od_random s), with_gen (od_seq s) (S (od_random s)) s).

Definition strongRandom (byteLength : nat) : M ODb string :=
  let! p := draw in
  let! t := draw in
  let passphrase := certutil_Random p 64 in
  let salt := certutil_Random t 32 in
  let secret := pbkdf2_Key passphrase salt 10 32 in
  ret (take_str byteLength (EncodeToString secret)).

Definition protect (failure : string) (x : string) : M OrgState string :=
  let! n := in_odb draw in
  os_wrapped failure (lift_result (ProtectObject n x)).

Record CreateAPIKeyRequest := mkCreateKey {
  ck_Label : string; ck_Scopes : list string; ck_ProjectID : string;
  ck_ExpiresAt : string }.

Definition keyExpiry (reqExpiresAt : string) (now : Z) : result Z :=
  if bool_decide (reqExpiresAt = EmptyString) then Ok (now + defaultAPIKeyExpiry)%Z
  else let t := xdb_ParseTime reqExpiresAt in
       if (t =? 0)%Z || (t <? now)%Z
       then Err (Grpc InvalidArgument "invalid expiration time") else Ok t.

Definition checkScopes (scopes : list string) : result unit :=
  match List.find (fun s => negb (IsKnownScope s)) scopes with
  | Some scope => Err (Grpc InvalidArgument ("unknown scope: " ++ scope))
  | None => Ok tt
  end.

Definition set_secret (secret : string) (k : APIKey_pb) : APIKey_pb :=
  mkAPIKeyPb (kb_ID k) (kb_OrgID k) (kb_ProjectID k) (kb_Label k) (kb_Key k) secret
    (kb_Scopes k) (kb_Metadata k) (kb_Status k) (kb_CreatedAt k) (kb_ExpiresAt k)
    (kb_UsedAt k) (kb_UsedCount k).

Definition Orgs_CreateAPIKey (ctx : Context) (req : CreateAPIKeyRequest)
  : M OrgState APIKey_pb :=
  let! orgID := lift_result (tokenOrg ctx) in
  guard (negb (bool_decide (ck_Label req = EmptyString)))
    (Grpc InvalidArgument "label is required") ;;;
  let scopes := if bool_decide (ck_Scopes req = []) then DefaultAPIKeyScopes
                else ck_Scopes req in
  lift_result (checkScopes scopes) ;;;
  let! projectID := lift_result (parseOptionalID (ck_ProjectID req) "project ID") in
  orgs_getProject orgID projectID ;;;
  let! id := in_odb oNextID in
  let! now := in_odb oNow in
  let! expiresAt := lift_result (keyExpiry (ck_ExpiresAt req) now) in
  let! protectedKeyID := protect "failed to protect key" (id_string id) in
  let key := ("sk_" ++ id_string orgID ++ "_" ++ protectedKeyID)%string in
  let! secret := in_odb (strongRandom 32) in
  let! protectedSecret := protect "failed to protect secret" secret in
  let! a := odb "failed to register API key"
    (Provider_RegisterAPIKey (mkAPIKey id orgID projectID key protectedSecret
       (ck_Label req) scopes [("created_by", tc_userEmail (FromContext ctx))]%string
       ItemStatus_Active 0 expiresAt 0 0)) in
  os_emit (events_Description ("API key " ++ k_Label a ++ " created with scopes " ++
                               join_comma (k_Scopes a))
    (events_Reference (k_ID a) (events_Project projectID (events_Org orgID
      (events_New ctx orgs_ServiceName EventType_APIKeyCreated "API key created"))))) ;;;
  ret (set_secret secret (APIKey_Pb a)).

Definition Orgs_ListAPIKeys (ctx : Context) (reqProjectID : string)
    (status : ItemStatus_Enum) : M OrgState (list APIKey_pb * option NextPage_pb) :=
  let! orgID := lift_result (tokenOrg ctx) in
  let! projectID := lift_result (parseOptionalID reqProjectID "project ID") in
  let! res := odb "failed to list API keys"
    (Provider_ListAPIKeys (mkListAPIKeys orgID projectID "" [] status DefaultPageSize 0)) in
  ret (APIKeyResult_Pb res).

Definition Orgs_DeleteAPIKey (ctx : Context) (reqID reqProjectID : string)
  : M OrgState Z :=
  let! orgID := lift_result (tokenOrg ctx) in
  let! id := lift_result (match parse_id reqID with
                          | Some id => Ok id
                          | None => Err (Grpc InvalidArgument "invalid ID")
                          end) in
  let! key := odb "unable to get API key" (Provider_GetAPIKey orgID id) in
  guard (bool_decide (reqProjectID = EmptyString) ||
         bool_decide (id_string (k_ProjectID key) = reqProjectID))
    (Grpc NotFound "API key not found in the project") ;;;
  let! res := odb "unable to delete API key" (Provider_DeleteAPIKey orgID id) in
  os_emit (events_Description ("API key " ++ k_Label key ++ " deleted")
    (events_Reference (k_ID key) (events_Project (k_ProjectID key) (events_Org orgID
      (events_New ctx orgs_ServiceName EventType_APIKeyDeleted "API key deleted"))))) ;;;
  ret res.

(** ** Authentication *)

Definition generateHMACSignature (method timestamp secret : string) : string :=
  URLEncodeToString (hmac_sha256 secret (method ++ timestamp)).

(** The org and the protected ID of a key. *)
Definition splitKey (keyStr : string) : option (string * string) :=
  match SplitN2 "_" keyStr with
  | Some (sk, rest) => if bool_decide (sk = "sk"%string) then SplitN2 "_" rest else None
  | None => None
  end.

Definition invalidKey (cause : error) : error :=
  GrpcCause PermissionDenied "invalid key" cause.

Definition findAPIKey (keyStr : string) : M OrgState APIKey_pb :=
  match splitKey keyStr with
  | None => fail (Grpc InvalidArgument "invalid key")
  | Some (org, protectedID) =>
  match parse_id org with
  | None => fail (Grpc InvalidArgument "invalid key")
  | Some orgID =>
  match UnprotectObject protectedID with
  | Err e => fail (invalidKey e)
  | Ok decryptedKeyID =>
  match parse_id decryptedKeyID with
  | None => fail (Grpc InvalidArgument "invalid key ID")
  | Some kid =>
      let! m := catch (in_odb (Provider_UseAPIKey orgID kid)) (fun r => match r with
        | Ok m => ret m
        | Err e => fail (invalidKey e)
        end) in
      guard (k_OrgID m =? orgID)%Z (Grpc PermissionDenied "invalid key") ;;;
      let! now := in_odb oNow in
      guard (negb (negb (k_ExpiresAt m =? 0)%Z && (k_ExpiresAt m <? now)%Z))
        (Grpc PermissionDenied "key expired") ;;;
      match UnprotectObject (k_Secret m) with
      | Err e => fail (GrpcCause Internal "unexpected error" e)
      | Ok secret => ret (set_secret secret (APIKey_Pb m))
      end
  end
  end
  end
  end.

(** Five minutes, in milliseconds. *)
Definition timestampTolerance : Z := 300000.

Definition checkTimestamp (timestamp : string) (now : Z) : result unit :=
  match ParseRFC3339 timestamp with
  | None => Err (Grpc InvalidArgument "invalid or expired timestamp")
  | Some t =>
      if (timestampTolerance <? now - t)%Z
      then Err (Grpc InvalidArgument "invalid or expired timestamp")
      else if (timestampTolerance <? t - now)%Z
      then Err (Grpc InvalidArgument "timestamp is in the future")
      else Ok tt
  end.

(** The key and the signature of an Authorization header. *)
Definition parseAuthorization (authHeader : string) : result (string * string) :=
  match SplitN2 " " authHeader with
  | None => Err (Grpc InvalidArgument "invalid authorization header")
  | Some (scheme, rest) =>
      if negb (EqualFold scheme "APIKey")
      then Err (Grpc InvalidArgument "invalid authorization scheme")
      else match SplitN2 ":" rest with
           | None => Err (Grpc InvalidArgument "invalid authorization credentials")
           | Some (key, signature) => Ok (TrimSpace key, TrimSpace signature)
           end
  end.

Definition validateHMAC (method authHeader timestamp : string) : M OrgState APIKey_pb :=
  let! now := in_odb oNow in
  lift_result (checkTimestamp timestamp now) ;;;
  let! creds := lift_result (parseAuthorization authHeader) in
  let! key := catch (findAPIKey creds.1) (fun r => match r with
    | Ok k => ret k
    | Err e => fail (GrpcCause PermissionDenied "invalid API key" e)
    end) in
  guard (bool_decide (creds.2 = generateHMACSignature method timestamp (kb_Secret key)))
    (Grpc PermissionDenied "invalid HMAC signature") ;;;
  ret key.

Definition Auth_AuthenticateAPIKey_FullMethodName : string := "/pb.Auth/AuthenticateAPIKey".

(** The project of the key is available: of the org of the key and active. *)
Definition keyProject (key : APIKey_pb) : M OrgState string :=
  if bool_decide (kb_ProjectID key = EmptyString) then ret EmptyString
  else match parse_id (kb_ProjectID key) with
  | None => fail (Grpc Internal "invalid project ID of the key")
  | Some projectID =>
      let! project := odb "failed to get project" (Provider_GetProject projectID) in
      guard (bool_decide (id_string (Tenancy.p_OrgID project) = kb_OrgID key) &&
             bool_decide (Tenancy.p_Status project = ItemStatus_Active))
        (Grpc PermissionDenied "project is not available") ;;;
      ret (kb_ProjectID key)
  end.

(** One hour, in milliseconds. *)
Definition keyTokenValidity : Z := 3600000.

Definition authenticateAPIKey (ctx : Context) (authHeader timestamp : string)
  : M OrgState (string * KeyClaims) :=
  let! key := catch (validateHMAC Auth_AuthenticateAPIKey_FullMethodName authHeader
                       timestamp) (fun r => match r with
    | Ok k => ret k
    | Err e => fail (GrpcCause PermissionDenied "failed to authenticate API key" e)
    end) in
  let email := (kb_ID key ++ "+apikey@trustyca.com")%string in
  let! project := keyProject key in
  let! now := in_odb oNow in
  let claims := mkKeyClaims (kb_OrgID key) (Role_String Role_APIKey) (kb_Scopes key)
                  project (kb_ID key) email "apikey" (now + keyTokenValidity) in
  let! token := os_wrapped "failed to sign JWT" (lift_result (Sign claims)) in
  os_emit (events_Description ("API key " ++ kb_Label key ++ " signed in")
    (events_Email email (events_Reference (xdb_TryParseID (kb_ID key))
      (events_Project (xdb_TryParseID (kb_ProjectID key))
        (events_Org (xdb_TryParseID (kb_OrgID key))
          (events_New ctx auth_ServiceName EventType_APIKeyLogin "API key signed in")))))) ;;;
  ret (token, claims).

(** [AuthenticateAPIKey]: the headers of the metadata of a gRPC call, each a
    list of values. *)
Definition Auth_AuthenticateAPIKey (ctx : Context)
    (authorization timestamp date : list string) : M OrgState (string * KeyClaims) :=
  guard (negb (bool_decide (authorization = [])))
    (Grpc InvalidArgument "missing authorization header") ;;;
  match (match timestamp with [] => date | _ => timestamp end) with
  | [] => fail (Grpc InvalidArgument "missing timestamp")
  | ts :: _ =>
      match foldl (fun acc h => if HasPrefix h "APIKey " then Some h else acc)
              None authorization with
      | None => fail (Grpc InvalidArgument "invalid authorization format")
      | Some authHeader =>
          guard (negb (bool_decide (authHeader = EmptyString)))
            (Grpc InvalidArgument "invalid authorization format") ;;;
          authenticateAPIKey ctx authHeader ts
      end
  end.
End apikeys.
