(* ===== verification/OrgChanges.v ===== *)
(** What a call of the orgs service may do to the database: the handlers are
    followed step by step, with the grants the authorizer answered, to the
    one change each makes.

    The file starts with what the calls read: the memberships a page shows. *)
From Stdlib Require Import ZArith Lia.
From stdpp Require Import base list gmap strings pretty sorting.
From S2P Require Import Prelude GoStrings Xdb Roles Scopes Tenancy Grants Authorizer Methods Access Model Query Sql CaDb Pbconv RowPb TenantScope OrgQuery OrgDb OrgsService OrgInv OrgInvites OrgLogin.

Section pages.
Context `{XL : Xdb, LM : XdbLimits, UC : Unicode, CO : Collation, IG : IdGen, RA : Random}.

Lemma memberInfo_user s y :
  member_refs s y -> mi_UserID (memberInfo s y) = m_UserID y.
Proof.
  intros (_ & Hu & _). unfold user_exists in Hu. apply bool_decide_eq_true in Hu.
  unfold memberInfo. simpl.
  destruct (List.find _ (od_users s)) as [u|] eqn:E; simpl.
  - by apply find_some in E as [_ E%Z.eqb_eq].
  - apply list_elem_of_fmap in Hu as (u & Eu & Hin).
    apply list_elem_of_In, (find_none _ _ E) in Hin. apply Z.eqb_neq in Hin. congruence.
Qed.

(** A page shows rows of the view, each once. *)
Lemma page_sub r rows m :
  m ∈ ListMemberships_page r rows -> m ∈ rows /\ ListMemberships_where r m = true.
Proof.
  unfold ListMemberships_page, pageBy. simpl. intros Hm.
  apply elem_of_take in Hm as (i & Hj & _). rewrite lookup_drop in Hj.
  apply list_elem_of_lookup_2 in Hj.
  unfold orderBy in Hj. rewrite merge_sort_Permutation in Hj. by apply filter_elem in Hj.
Qed.

Lemma page_nodup r rows :
  NoDup (mi_ID <$> rows) -> NoDup (mi_ID <$> ListMemberships_page r rows).
Proof.
  intros Hnd. unfold ListMemberships_page, pageBy. simpl.
  rewrite fmap_take, fmap_drop.
  eapply sublist_NoDup; [|etrans; [apply sublist_take|apply sublist_drop]]. unfold orderBy.
  rewrite merge_sort_Permutation. by apply NoDup_fmap_filter.
Qed.

(** A page as long as the list shows every row. *)
Lemma page_all r rows m :
  lm_Offset r = 0%Z ->
  (Z.of_nat (length (List.filter (ListMemberships_where r) rows)) <= Limit (lm_Limit r))%Z ->
  m ∈ rows -> ListMemberships_where r m = true -> m ∈ ListMemberships_page r rows.
Proof.
  intros Ho Hle Hm Hw. unfold ListMemberships_page, pageBy. simpl. rewrite Ho. simpl.
  rewrite drop_0. unfold orderBy. rewrite take_ge.
  - rewrite merge_sort_Permutation. by apply filter_elem.
  - rewrite (Permutation_length (merge_sort_Permutation _ _)). lia.
Qed.

Lemma view_elem s m :
  m ∈ vw_membership_info s <-> exists y, y ∈ od_members s /\ m = memberInfo s y.
Proof. unfold vw_membership_info. rewrite list_elem_of_fmap. naive_solver. Qed.

Context {exempt : string -> Prop}.

Lemma view_nodup s : org_inv_but exempt s -> NoDup (mi_ID <$> vw_membership_info s).
Proof.
  intros Hs. unfold vw_membership_info. rewrite <-list_fmap_compose.
  apply (uniques_elem member_uniques _ (Unique "membership_pkey" _ _ m_ID));
    [apply Hs|by left].
Qed.

Lemma member_row_refs s y : org_inv_but exempt s -> y ∈ od_members s -> member_refs s y.
Proof.
  intros Hs Hy. pose proof (inv_member_rows _ s Hs) as HF. rewrite Forall_forall in HF.
  by apply HF.
Qed.

Lemma scope_key_inj s x y :
  org_inv_but exempt s -> x ∈ od_members s -> y ∈ od_members s ->
  scope_key x = scope_key y -> x = y.
Proof.
  intros Hs Hx Hy E. apply (NoDup_key_inj (u_key member_scope) (od_members s)); try done.
  apply (uniques_elem member_uniques); [apply Hs|right; by left].
Qed.

(** ** The scope of a grant *)

Lemma atScope_exact projectID row :
  atScope projectID (ScopeOf projectID) row = (row =? projectID)%Z.
Proof.
  unfold atScope, ScopeOf, setProjectScope. destruct (Z.eqb_spec projectID 0) as [->|Hp].
  - simpl. unfold whereProjectScope, IsZero. done.
  - simpl. unfold whereProjectScope, IsZero. simpl.
    destruct (Z.eqb_spec row 0) as [->|Hr]; [|done].
    transitivity false; [done|]. symmetry. apply Z.eqb_neq. lia.
Qed.
Lemma atScope_org projectID row :
  atScope projectID Scope_Org row = (row =? projectID)%Z.
Proof.
  rewrite <-atScope_exact. unfold ScopeOf, atScope, setProjectScope.
  by destruct (Z.eqb_spec projectID 0).
Qed.

Lemma idIs_nonzero filter id : filter <> 0%Z -> idIs filter id = (id =? filter)%Z.
Proof. intros Hf. unfold idIs. by rewrite (proj2 (Z.eqb_neq _ _) Hf). Qed.

(** ** The grants of a user *)

(** No user has more grants in an org than a page shows. *)
Definition grants_fit (s : ODb) : Prop :=
  forall orgID userID,
    (Z.of_nat (length (List.filter (fun m => (m_OrgID m =? orgID)%Z &&
       (m_UserID m =? userID)%Z) (od_members s))) <= DefaultPageSize)%Z.

Lemma filter_ext_elem {A} (p q : A -> bool) l :
  (forall a, a ∈ l -> p a = q a) -> List.filter p l = List.filter q l.
Proof. intros Hpq. apply filter_ext_in. intros a Ha%list_elem_of_In. auto. Qed.

(** The scope search over the grants of a user finds none exactly when there
    is none. *)
Lemma no_grant_found s orgID userID projectID :
  org_inv_but exempt s -> grants_fit s -> orgID <> 0%Z -> userID <> 0%Z ->
  FindMemberByUserID (ListMemberships_page (mkListMemberships orgID userID 0
    Scope_Undefined ItemStatus_Unknown Role_None 0 0) (vw_membership_info s))
    userID projectID = None ->
  forall y, y ∈ od_members s -> scope_key y <> (orgID, projectID, userID).
Proof.
  intros Hs Hfit Ho Hu Hfind y Hy [= Eo Ep Eu].
  set (r := mkListMemberships _ _ _ _ _ _ _ _) in Hfind.
  assert (forall z, z ∈ od_members s -> ListMemberships_where r (memberInfo s z) =
            (m_OrgID z =? orgID)%Z && (m_UserID z =? userID)%Z) as Hw.
  { intros z Hz. unfold ListMemberships_where, r, atScope, setProjectScope. simpl.
    rewrite !idIs_nonzero by done.
    change (default 0%Z (us_ID <$> _)) with (mi_UserID (memberInfo s z)).
    rewrite memberInfo_user by (by apply member_row_refs).
    unfold whereProjectScope, statusIs. simpl. rewrite !andb_true_r. apply andb_comm. }
  assert (memberInfo s y ∈ ListMemberships_page r (vw_membership_info s)) as Hin.
  { apply page_all; [done| |apply view_elem; eauto|].
    - unfold vw_membership_info. rewrite filter_fmap, length_fmap.
      rewrite (filter_ext_elem _ (fun z => (m_OrgID z =? orgID)%Z &&
        (m_UserID z =? userID)%Z)) by done. apply Hfit.
    - rewrite Hw by done. rewrite Eo, Eu, !Z.eqb_refl. done. }
  apply list_elem_of_In, (find_none _ _ Hfind) in Hin.
  rewrite memberInfo_user in Hin by (by apply member_row_refs).
  simpl in Hin. rewrite Eu, Ep, !Z.eqb_refl in Hin. done.
Qed.

(** ** The Owners of an org *)

Lemma two_distinct {A K} (key : A -> K) (l : list A) :
  NoDup (key <$> l) -> (1 < length l)%nat ->
  exists a b, a ∈ l /\ b ∈ l /\ key a <> key b.
Proof.
  destruct l as [|a [|b l]]; simpl; try lia. intros Hnd _.
  apply NoDup_cons in Hnd as [Hn _]. exists a, b. set_solver.
Qed.

Lemma other_owner s orgID r y :
  org_inv_but exempt s ->
  (1 < CountOrgRole (ListMemberships_page r (vw_membership_info s)) orgID Role_Owner)%nat ->
  exists z, z ∈ od_members s /\ owner_of orgID z /\ z <> y.
Proof.
  intros Hs Hc. unfold CountOrgRole in Hc.
  apply (two_distinct mi_ID) in Hc as (a & b & Ha & Hb & Hne).
  - assert (forall x, x ∈ List.filter (fun v => (mi_OrgID v =? orgID)%Z &&
        (mi_ProjectID v =? 0)%Z && bool_decide (mi_Role v = Role_Owner))
        (ListMemberships_page r (vw_membership_info s)) ->
      exists z, z ∈ od_members s /\ owner_of orgID z /\ m_ID z = mi_ID x) as Hrow.
    { intros x [Hx Hp]%filter_elem. apply page_sub in Hx as [Hx _].
      apply view_elem in Hx as (z & Hz & ->). exists z. simpl in Hp.
      rewrite !andb_true_iff, bool_decide_eq_true, !Z.eqb_eq in Hp.
      destruct Hp as [[? ?] ?]. by split_and!. }
    destruct (Hrow a Ha) as (za & Hza & Hoa & Ea), (Hrow b Hb) as (zb & Hzb & Hob & Eb).
    destruct (decide (za = y)) as [->|]; [exists zb|by exists za].
    split_and!; try done. intros ->. congruence.
  - by apply NoDup_fmap_filter, page_nodup, view_nodup.
Qed.

(** A row other than [y] is an Owner of every org [y] owns alone for. *)
Lemma owners_without s y :
  org_inv_but exempt s ->
  (forall orgID, owner_of orgID y -> exists z, z ∈ od_members s /\ owner_of orgID z /\ z <> y) ->
  forall o, o ∈ od_orgs s ->
    Exists (fun z => owner_of (o_ID o) z /\ z <> y) (od_members s).
Proof.
  intros Hs Hy o Ho. rewrite Exists_exists.
  pose proof (inv_owner _ s Hs) as HO. rewrite Forall_forall in HO.
  specialize (HO o Ho). rewrite Exists_exists in HO. destruct HO as (m & Hm & Hmo).
  destruct (decide (m = y)) as [->|Hne].
  - destruct (Hy _ Hmo) as (z & Hz & Hzo & Hne). by exists z.
  - by exists m.
Qed.
End pages.

(** The role may be granted at the scope with the grants. *)
Definition can_grant (g : Grants) (projectID : Z) (role : Role_Enum) : Prop :=
  (if (projectID =? 0)%Z then CanGrantOrgRole (Some g) role
   else CanGrantProjectRole (Some g) projectID role) = true.

Section changes.
Context `{XL : Xdb, LM : XdbLimits, UC : Unicode, CO : Collation, IG : IdGen, RA : Random}.
Context `{CA : Cache, PO : Porto, PC : ProfileCodec}.

(** The call runs over the database [d]; [I] is what the reads keep, [G] what
    is known of the grants the authorizer answers, and [U] what is known of
    the IDs it is asked about. *)
Context (d : ODb) (I : OrgState -> Prop) (G : Z -> Z -> Grants -> Prop) (U : Z -> Prop).
Hypothesis I_db : forall s, I s -> os_db s = d.
Hypothesis U_parsed : forall t n, parse_id t = Some n -> U n.
Hypothesis I_Grants : forall orgID userID, U userID ->
  yields I (in_authorizer (authorizer_Grants orgID userID)) (G orgID userID).
Hypothesis I_Project : forall orgID projectID, U projectID ->
  preserves I (in_authorizer (authorizer_Project orgID projectID)).

Lemma in_odb_read {X} (m : M ODb X) :
  (m d).2 = d -> yields I (in_odb m) (fun x => (m d).1 = Ok x).
Proof.
  intros Hm s Hs. pose proof (I_db s Hs) as Hd. unfold in_odb. rewrite Hd.
  destruct (m d) as [r d'] eqn:E. simpl in *. subst d'. split; [|done].
  by destruct s; simpl in *; subst.
Qed.
Lemma os_wrapped_yields {X} failure (m : M OrgState X) P :
  yields I m P -> yields I (os_wrapped failure m) P.
Proof.
  intros Hm. unfold os_wrapped. eapply yields_catch; [exact Hm| |].
  - intros e. apply yields_fail.
  - intros a Ha. by apply yields_ret.
Qed.
Lemma odb_read {X} failure (m : M ODb X) :
  (m d).2 = d -> yields I (odb failure m) (fun x => (m d).1 = Ok x).
Proof. intros Hm. by apply os_wrapped_yields, in_odb_read. Qed.

Lemma ogetRow_read {R} (t : OTable R) name rid id s : (ogetRow t name rid id s).2 = s.
Proof.
  unfold ogetRow, onot_found, catch, oselect. by destruct (select_row _ _).
Qed.
Lemma GetUserByEmail_read email s : (Provider_GetUserByEmail email s).2 = s.
Proof.
  unfold Provider_GetUserByEmail, onot_found, catch, oselect. by destruct (select_row _ _).
Qed.

(** ** Reads of the service *)

Lemma getActiveOrg_read orgID : yields I (getActiveOrg orgID) (fun _ => True).
Proof.
  unfold getActiveOrg. eapply yields_bind; [apply odb_read, ogetRow_read|]. intros org _.
  eapply yields_bind; [apply yields_guard|]. intros _ _. by apply yields_ret.
Qed.

Definition known_project (projectID : Z) : Prop := projectID = 0%Z \/ U projectID.

Lemma parseOptionalID_known val what p :
  parseOptionalID val what = Ok p -> known_project p.
Proof.
  unfold parseOptionalID, known_project. case_bool_decide; [naive_solver|].
  destruct (parse_id val) eqn:E; [|done]. intros [= <-]. right. by eapply U_parsed.
Qed.

Lemma getProject_read orgID projectID :
  known_project projectID ->
  yields I (orgs_getProject orgID projectID) (fun _ => True).
Proof.
  intros Hk. apply preserves_yields. unfold orgs_getProject.
  destruct (Z.eqb_spec projectID 0); [apply preserves_ret|].
  destruct Hk as [|Hk]; [done|]. preserves_steps. by apply I_Project.
Qed.

Lemma checkGrantable_read ctx orgID projectID role :
  U (tc_userID (FromContext ctx)) ->
  yields I (checkGrantable ctx orgID projectID role) (fun g =>
    G orgID (tc_userID (FromContext ctx)) g /\ can_grant g projectID role).
Proof.
  intros Hu. unfold checkGrantable.
  eapply yields_bind; [by apply os_wrapped_yields, I_Grants|].
  intros g Hg. unfold can_grant. destruct (projectID =? 0)%Z.
  - eapply yields_bind; [apply yields_guard|]. intros u Hc. by apply yields_ret.
  - eapply yields_bind; [apply yields_guard|]. intros u Hc. by apply yields_ret.
Qed.

(** The member found is a row of the scope. *)
Definition row_of (orgID projectID : Z) (member : MembershipInfo) (y : Membership) : Prop :=
  y ∈ od_members d /\ member = memberInfo d y /\ m_OrgID y = orgID /\
  m_ProjectID y = projectID.

Lemma find_row orgID projectID p member :
  orgID <> 0%Z ->
  List.find p (ListMemberships_page (mkListMemberships orgID 0 projectID
    (ScopeOf projectID) ItemStatus_Unknown Role_None 0 0) (vw_membership_info d)) =
    Some member ->
  exists y, row_of orgID projectID member y.
Proof.
  intros Ho Hf. apply find_some in Hf as [Hm%list_elem_of_In _].
  apply page_sub in Hm as [Hm Hw]. apply view_elem in Hm as (y & Hy & ->).
  exists y. unfold ListMemberships_where in Hw. simpl in Hw.
  rewrite !andb_true_iff, idIs_nonzero, atScope_exact, !Z.eqb_eq in Hw by done.
  unfold row_of. naive_solver.
Qed.

Lemma findMember_read orgID projectID userID email :
  orgID <> 0%Z ->
  yields I (findMember orgID projectID userID email) (fun member =>
    exists y, row_of orgID projectID member y).
Proof.
  intros Ho. unfold findMember. eapply yields_bind; [by apply odb_read|].
  intros rows Hrows. injection Hrows as <-.
  eapply yields_bind; [apply yields_lift|]. intros [member|] Hm; [|apply yields_fail].
  apply yields_ret. go_case; by eapply find_row.
Qed.

(** The member is not an Owner of the org, or not the only one. *)
Lemma checkLastOwner_read orgID projectID member y :
  org_inv d -> row_of orgID projectID member y ->
  yields I (checkLastOwner orgID member) (fun _ =>
    forall o, owner_of o y -> exists z, z ∈ od_members d /\ owner_of o z /\ z <> y).
Proof.
  intros Hinv (Hy & -> & Ho & Hp). unfold checkLastOwner.
  destruct (negb _ || negb _) eqn:E.
  - apply yields_ret. intros o (_ & Hp0 & Hr). simpl in E.
    rewrite Hp0, Hr in E. simpl in E. done.
  - eapply yields_bind; [by apply odb_read|]. intros owners [= <-].
    eapply yields_mono; [apply yields_guard|]. intros u Hc o (Ho' & _ & _).
    rewrite <-Ho', Ho. eapply other_owner; [done|].
    apply negb_true_iff, Nat.leb_gt in Hc. exact Hc.
Qed.

(** ** The one change of a call *)

(** [Q] is about the database only. *)
Definition on_db (P : ODb -> Prop) (s : OrgState) : Prop := P (os_db s).

Lemma odb_write {X} failure (m : M ODb X) (P : ODb -> Prop) :
  P (m d).2 -> hoare I (odb failure m) (on_db P).
Proof.
  intros Hm s Hs. pose proof (I_db s Hs) as Hd. unfold odb, os_wrapped, catch, in_odb.
  rewrite Hd. by destruct (m d) as [[x|e] d'].
Qed.
Lemma on_db_authorizer {X} P (m : M AzState X) : preserves (on_db P) (in_authorizer m).
Proof. intros s Hs. unfold in_authorizer. by destruct (m _). Qed.
Lemma on_db_emit P e : preserves (on_db P) (os_emit e).
Proof. by intros s. Qed.
Lemma on_db_start (P : ODb -> Prop) s : P d -> I s -> on_db P s.
Proof. intros HP Hs. unfold on_db. by rewrite (I_db s Hs). Qed.
Lemma read_leads {X} (m : M OrgState X) P Q :
  yields I m P -> Q d -> hoare I m (on_db Q).
Proof. intros Hm HQ s Hs. destruct (Hm s Hs) as [Ha _]. by apply on_db_start. Qed.

Lemma hoare_guard b e (Q : ODb -> Prop) {X} (k : unit -> M OrgState X) :
  Q d -> (b = true -> hoare I (k tt) (on_db Q)) -> hoare I (bind (guard b e) k) (on_db Q).
Proof.
  intros HQ Hk. eapply hoare_bind_yields; [apply yields_guard| |].
  - intros s. by apply on_db_start.
  - by intros [].
Qed.
Lemma hoare_read {X Y} (m : M OrgState X) (k : X -> M OrgState Y) P Q :
  yields I m P -> Q d -> (forall x, P x -> hoare I (k x) (on_db Q)) ->
  hoare I (bind m k) (on_db Q).
Proof.
  intros Hm HQ Hk. eapply hoare_bind_yields; [exact Hm| |done].
  intros s. by apply on_db_start.
Qed.
Lemma hoare_lift {X Y} (r : result X) (k : X -> M OrgState Y) (Q : ODb -> Prop) :
  Q d -> (forall x, r = Ok x -> hoare I (k x) (on_db Q)) ->
  hoare I (bind (lift_result r) k) (on_db Q).
Proof. intros HQ Hk. eapply hoare_read; [apply yields_lift|done|done]. Qed.

Lemma tokenOrg_ok ctx o :
  tokenOrg ctx = Ok o -> o <> 0%Z /\ tc_orgID (FromContext ctx) = o.
Proof. unfold tokenOrg. destruct (Z.eqb_spec (tc_orgID (FromContext ctx)) 0); naive_solver. Qed.

(** The caller's grants allow the role at the scope. *)
Definition granted (ctx : Context) (orgID projectID : Z) (role : Role_Enum) : Prop :=
  exists g, G orgID (tc_userID (FromContext ctx)) g /\ can_grant g projectID role.

Definition adds_member (ctx : Context) (d' : ODb) : Prop :=
  exists m, m_ID m = 0%Z /\ m_OrgID m = tc_orgID (FromContext ctx) /\
    (forall y, y ∈ od_members d -> scope_key y <> scope_key m) /\
    granted ctx (m_OrgID m) (m_ProjectID m) (m_Role m) /\
    d' = (Provider_AddMember m d).2.
Definition adds_invite (ctx : Context) (d' : ODb) : Prop :=
  exists v, v_ID v = 0%Z /\ v_OrgID v = tc_orgID (FromContext ctx) /\
    (ToLower (v_Email v) ∉ emails d) /\
    granted ctx (v_OrgID v) (v_ProjectID v) (v_Role v) /\
    d' = (Provider_CreateInvite v d).2.

(** The user of the email, or nobody has it. *)
Lemma GetUserByEmail_cases email :
  (exists u, (Provider_GetUserByEmail email d).1 = Ok u /\ u ∈ od_users d) \/
  (exists e, (Provider_GetUserByEmail email d).1 = Err e /\ (ToLower email ∉ emails d)).
Proof.
  unfold Provider_GetUserByEmail, onot_found, catch, oselect.
  change (ot_rows users d) with (od_users d).
  destruct (select_row _ _) as [u|e] eqn:E; simpl.
  - left. exists u. by apply select_row_ok in E as [? _].
  - right. eexists. split; [done|]. pose proof (select_row_err _ _ _ E) as ->.
    rewrite select_row_none in E. intros (u & Hu & Hin)%list_elem_of_fmap.
    specialize (E u Hin). apply bool_decide_eq_false in E. congruence.
Qed.

Lemma addExisting_change ctx org project orgID projectID role user :
  org_inv d -> grants_fit d -> orgID <> 0%Z -> us_ID user <> 0%Z ->
  tc_orgID (FromContext ctx) = orgID -> granted ctx orgID projectID role ->
  hoare I (addExisting ctx org project orgID projectID role user)
    (on_db (fun d' => d' = d \/ adds_member ctx d')).
Proof.
  intros Hinv Hfit Ho Hu Htok Hg. unfold addExisting.
  eapply hoare_read; [by apply odb_read|by left|]. intros rows [= <-].
  destruct (FindMemberByUserID _ _ _) as [member|] eqn:Ef.
  - apply hoare_guard; [by left|]. intros _.
    apply (read_leads _ (fun _ => True)); [by apply yields_ret|by left].
  - eapply hoare_bind_after; [apply odb_write|].
    + right. exists (mkMembership 0 orgID projectID (us_ID user) role 0).
      split_and!; try done. eapply no_grant_found; try done.
    + intros m. preserves_steps; auto using on_db_authorizer, on_db_emit.
Qed.

Lemma inviteNew_change ctx orgID projectID role email :
  (ToLower email ∉ emails d) -> tc_orgID (FromContext ctx) = orgID ->
  granted ctx orgID projectID role ->
  hoare I (inviteNew ctx orgID projectID role email)
    (on_db (fun d' => d' = d \/ adds_invite ctx d')).
Proof.
  intros He Htok Hg. unfold inviteNew. eapply hoare_bind_after; [apply odb_write|].
  - right. by exists (mkInvite 0 orgID projectID (tc_userID (FromContext ctx)) email role 0 0).
  - intros v. preserves_steps; auto using on_db_emit.
Qed.

Lemma AddMember_change ctx req :
  U (tc_userID (FromContext ctx)) -> org_inv d -> grants_fit d -> (forall u, u ∈ od_users d -> us_ID u <> 0%Z) ->
  hoare I (Orgs_AddMember ctx req)
    (on_db (fun d' => d' = d \/ adds_member ctx d' \/ adds_invite ctx d')).
Proof.
  intros HU Hinv Hfit Hids. unfold Orgs_AddMember.
  apply hoare_lift; [by left|]. intros orgID [Ho Htok]%tokenOrg_ok.
  apply hoare_lift; [by left|]. intros projectID Hk%parseOptionalID_known.
  apply hoare_guard; [by left|]. intros _. apply hoare_guard; [by left|]. intros _.
  eapply hoare_read; [by apply checkGrantable_read|by left|]. intros g Hg.
  assert (granted ctx orgID projectID (am_Role req)) as Hgr by by exists g.
  eapply hoare_read; [apply getActiveOrg_read|by left|]. intros org _.
  eapply hoare_read; [by apply getProject_read|by left|]. intros project _.
  intros s Hs. pose proof (I_db s Hs) as Hd. unfold catch, in_odb. rewrite Hd.
  pose proof (GetUserByEmail_read (ToLower (TrimSpace (am_Email req))) d) as Hr.
  destruct (GetUserByEmail_cases (ToLower (TrimSpace (am_Email req))))
    as [(u & Eu & Hin)|(e & Eu & Hni)];
    destruct (Provider_GetUserByEmail _ d) as [r d'] eqn:E; simpl in Hr, Eu; subst r d';
    assert (mkOs d (os_cache s) (os_emitted s) = s) as -> by (by destruct s; simpl in *; subst).
  - destruct (addExisting_change ctx org project orgID projectID (am_Role req) u
      Hinv Hfit Ho (Hids u Hin) Htok Hgr s Hs) as [?|?]; [by left|by right; left].
  - destruct (inviteNew_change ctx orgID projectID (am_Role req)
      (ToLower (TrimSpace (am_Email req))) Hni Htok Hgr s Hs) as [?|?];
      [by left|by right; right].
Qed.

(** [y] is a grant of the caller's org with a role the caller may grant, and
    it is not the only Owner. *)
Definition may_replace (ctx : Context) (y : Membership) : Prop :=
  y ∈ od_members d /\ m_OrgID y <> 0%Z /\ m_OrgID y = tc_orgID (FromContext ctx) /\
  granted ctx (m_OrgID y) (m_ProjectID y) (m_Role y) /\
  forall o, owner_of o y -> exists z, z ∈ od_members d /\ owner_of o z /\ z <> y.

Definition changes_role (ctx : Context) (d' : ODb) : Prop :=
  exists y role, may_replace ctx y /\ granted ctx (m_OrgID y) (m_ProjectID y) role /\
    d' = (Provider_UpdateMemberRole (mkUpdateMemberRole (m_OrgID y) (m_ProjectID y)
            (m_UserID y) role) d).2.
Definition removes_member (ctx : Context) (d' : ODb) : Prop :=
  exists y, may_replace ctx y /\
    d' = (Provider_DeleteMember (mkDeleteMember (m_OrgID y) (m_ProjectID y)
            (m_UserID y) (ScopeOf (m_ProjectID y))) d).2.

Lemma ChangeMemberRole_change ctx req :
  U (tc_userID (FromContext ctx)) -> org_inv d ->
  hoare I (Orgs_ChangeMemberRole ctx req)
    (on_db (fun d' => d' = d \/ changes_role ctx d')).
Proof.
  intros HU Hinv. unfold Orgs_ChangeMemberRole.
  apply hoare_lift; [by left|]. intros orgID [Ho Htok]%tokenOrg_ok.
  apply hoare_lift; [by left|]. intros projectID Hk%parseOptionalID_known.
  apply hoare_guard; [by left|]. intros _.
  eapply hoare_read; [by apply checkGrantable_read|by left|]. intros g Hg.
  eapply hoare_read; [by apply findMember_read|by left|]. intros member (y & Hrow).
  case_bool_decide.
  { apply (read_leads _ (fun _ => True)); [by apply yields_ret|by left]. }
  eapply hoare_read; [by apply checkGrantable_read|by left|]. intros g' Hg'.
  eapply hoare_read; [by eapply checkLastOwner_read|by left|]. intros u0 Hown.
  eapply hoare_read; [apply getActiveOrg_read|by left|]. intros org _.
  eapply hoare_read; [by apply getProject_read|by left|]. intros project _.
  eapply hoare_read; [apply odb_read, ogetRow_read|by left|]. intros user _.
  destruct Hrow as (Hy & -> & <- & <-).
  rewrite memberInfo_user in * by (by eapply member_row_refs).
  eapply hoare_bind_after; [apply odb_write|].
  - right. exists y, (cr_Role req). split; [|split; [by exists g|done]].
    split_and!; try done. by exists g'.
  - intros m. preserves_steps; auto using on_db_authorizer, on_db_emit.
Qed.

Lemma DeleteMember_change ctx req :
  U (tc_userID (FromContext ctx)) -> org_inv d ->
  hoare I (Orgs_DeleteMember ctx req)
    (on_db (fun d' => d' = d \/ removes_member ctx d')).
Proof.
  intros HU Hinv. unfold Orgs_DeleteMember.
  apply hoare_lift; [by left|]. intros orgID [Ho Htok]%tokenOrg_ok.
  apply hoare_guard; [by left|]. intros _.
  apply hoare_lift; [by left|]. intros projectID Hk%parseOptionalID_known.
  eapply hoare_read; [by apply findMember_read|by left|]. intros member (y & Hrow).
  eapply hoare_read; [by apply checkGrantable_read|by left|]. intros g Hg.
  eapply hoare_read; [by eapply checkLastOwner_read|by left|]. intros u0 Hown.
  destruct Hrow as (Hy & -> & <- & <-).
  rewrite memberInfo_user in * by (by eapply member_row_refs).
  eapply hoare_bind_after; [apply odb_write|].
  - right. exists y. split; [|done]. split_and!; try done. by exists g.
  - intros m. preserves_steps; auto using on_db_authorizer, on_db_emit.
Qed.
End changes.
