(* ===== verification/OrgHistory.v ===== *)
(** Histories of the orgs service: any sequence of calls by any caller,
    sign-ins, and the passing of time. *)
From Stdlib Require Import ZArith Lia.
From stdpp Require Import base list gmap strings pretty sorting relations.
From S2P Require Import Prelude GoStrings Xdb Roles Scopes Tenancy Grants Authorizer Methods Access Model Query Sql CaDb Pbconv RowPb TenantScope OrgQuery OrgDb OrgsService SignIn ApiKeys OrgInv OrgInvites OrgLogin OrgChanges.

(** The calls of [pb.Orgs] with their requests. *)
Inductive org_call :=
| CRegisterOrg (name description : string) | CGetOrg
| CUpdateOrg (name description : string) | CDeleteOrg
| CRegisterProject (req : RegisterProjectRequest) | CUpdateProject (req : UpdateProject_req)
| CGetProject (projectID alias : string) | CListProjects (req : ListProjects_req)
| CDeleteProject (projectID : string)
| CGetUserOrgs | CGetUserMemberships | CGetMembers (req : GetMembersRequest)
| CAddMember (req : AddMemberRequest) | CChangeMemberRole (req : ChangeMemberRoleRequest)
| CDeleteMember (req : DeleteMember_req) | CDeleteInvite (req : DeleteInvite_req)
| CCreateAPIKey (req : CreateAPIKeyRequest)
| CListAPIKeys (projectID : string) (status : ItemStatus_Enum)
| CDeleteAPIKey (id projectID : string).

Section history.
Context `{XL : Xdb, LM : XdbLimits, UC : Unicode, CO : Collation, IG : IdGen, RA : Random}.
Context `{CA : Cache, PO : Porto, PC : ProfileCodec, TL : TimeLib, KC : KeyCrypto, JS : JwtSigner}.

Definition done_with {X} (m : M OrgState X) : M OrgState unit := let! _ := m in ret tt.

Definition run_call (ctx : Context) (c : org_call) : M OrgState unit :=
  match c with
  | CRegisterOrg n t => done_with (Orgs_RegisterOrg ctx n t)
  | CGetOrg => done_with (Orgs_GetOrg ctx)
  | CUpdateOrg n t => done_with (Orgs_UpdateOrg ctx n t)
  | CDeleteOrg => done_with (Orgs_DeleteOrg ctx)
  | CRegisterProject r => done_with (Orgs_RegisterProject ctx r)
  | CUpdateProject r => done_with (Orgs_UpdateProject ctx r)
  | CGetProject p a => done_with (Orgs_GetProject ctx p a)
  | CListProjects r => done_with (Orgs_ListProjects ctx r)
  | CDeleteProject p => done_with (Orgs_DeleteProject ctx p)
  | CGetUserOrgs => done_with (Orgs_GetUserOrgs ctx)
  | CGetUserMemberships => done_with (Orgs_GetUserMemberships ctx)
  | CGetMembers r => done_with (Orgs_GetMembers ctx r)
  | CAddMember r => done_with (Orgs_AddMember ctx r)
  | CChangeMemberRole r => done_with (Orgs_ChangeMemberRole ctx r)
  | CDeleteMember r => done_with (Orgs_DeleteMember ctx r)
  | CDeleteInvite r => done_with (Orgs_DeleteInvite ctx r)
  | CCreateAPIKey r => done_with (Orgs_CreateAPIKey ctx r)
  | CListAPIKeys p st => done_with (Orgs_ListAPIKeys ctx p st)
  | CDeleteAPIKey i p => done_with (Orgs_DeleteAPIKey ctx i p)
  end.

(** A call is made while no user has more grants in one org than a page. *)
Inductive os_next : OrgState -> OrgState -> Prop :=
| next_org_call ctx c s : grants_fit (os_db s) -> os_next s (run_call ctx c s).2
| next_sign_in cfg ctx ui s : os_next s (signIn cfg ctx ui s).2
| next_key_login ctx header timestamp s :
    os_next s (authenticateAPIKey ctx header timestamp s).2
| next_clock t s : (od_now (os_db s) <= t)%Z ->
    os_next s (mkOs (mkODb t (od_seq (os_db s)) (od_random (os_db s))
      (od_logins (os_db s)) (od_users (os_db s)) (od_orgs (os_db s))
      (od_projects (os_db s)) (od_members (os_db s)) (od_invites (os_db s))
      (od_keys (os_db s))) (os_cache s) (os_emitted s)).

(** ** Calls that keep the invariant *)

Local Notation db_inv := (on_db org_inv).

Lemma inv_in_odb {X} (m : M ODb X) :
  preserves org_inv m -> preserves db_inv (in_odb m).
Proof.
  intros Hm s Hs. unfold in_odb. specialize (Hm (os_db s) Hs). by destruct (m (os_db s)).
Qed.
Lemma inv_os_wrapped {X} f (m : M OrgState X) :
  preserves db_inv m -> preserves db_inv (os_wrapped f m).
Proof. intros Hm. unfold os_wrapped. preserves_steps; done. Qed.
Lemma inv_odb {X} f (m : M ODb X) : preserves org_inv m -> preserves db_inv (odb f m).
Proof. intros Hm. by apply inv_os_wrapped, inv_in_odb. Qed.
Lemma inv_in_authorizer {X} (m : M AzState X) : preserves db_inv (in_authorizer m).
Proof. apply on_db_authorizer. Qed.
Lemma inv_os_emit e : preserves db_inv (os_emit e).
Proof. apply on_db_emit. Qed.
Lemma inv_read {X} (m : M ODb X) : (forall s, (m s).2 = s) -> preserves org_inv m.
Proof. intros Hm s Hs. by rewrite Hm. Qed.
Lemma inv_draw : preserves org_inv draw.
Proof. intros s. by apply org_inv_gen. Qed.

Create HintDb orgs.
Hint Resolve inv_in_odb inv_os_wrapped inv_odb inv_in_authorizer inv_os_emit
  inv_draw inv_UpdateOrg inv_UpdateProject inv_RegisterProject inv_oNextID inv_oNow
  inv_DeleteInvite inv_oselect preserves_lift : orgs.

Lemma inv_ogetRow {R} (t : OTable R) name rid id : preserves org_inv (ogetRow t name rid id).
Proof. apply inv_read. intros s. apply ogetRow_read. Qed.
Lemma inv_ListMemberships r : preserves org_inv (Provider_ListMemberships r).
Proof. by intros s. Qed.
Lemma inv_onot_found_select {R A} t k (tb : OTable R) (f : list R -> result A) :
  preserves org_inv (onot_found t k (oselect tb f)).
Proof. apply inv_onot_found, inv_oselect. Qed.
Hint Resolve inv_ogetRow inv_ListMemberships inv_onot_found_select : orgs.

Lemma inv_getActiveOrg o : preserves db_inv (getActiveOrg o).
Proof. unfold getActiveOrg, Provider_GetOrg. preserves_steps. eauto with orgs. Qed.
Lemma inv_getProject o p : preserves db_inv (orgs_getProject o p).
Proof. unfold orgs_getProject. preserves_steps. eauto with orgs. Qed.
Lemma inv_apikeys {A} f : preserves org_inv (@oexec APIKey A apikeys f).
Proof. apply inv_oexec. intros s a l Hs _. by apply org_inv_keys. Qed.
Hint Resolve inv_getActiveOrg inv_getProject inv_apikeys : orgs.

Lemma inv_RegisterAPIKey m : preserves org_inv (Provider_RegisterAPIKey m).
Proof.
  unfold Provider_RegisterAPIKey.
  preserves_steps; auto using inv_oensureID, inv_oNow, inv_references with orgs.
Qed.
Lemma inv_UseAPIKey o k : preserves org_inv (Provider_UseAPIKey o k).
Proof.
  unfold Provider_UseAPIKey. preserves_steps; auto using inv_onot_found with orgs.
Qed.
Lemma inv_protect f x : preserves db_inv (protect f x).
Proof. unfold protect. preserves_steps; auto with orgs. Qed.
Lemma inv_strongRandom n : preserves org_inv (strongRandom n).
Proof. unfold strongRandom. preserves_steps; auto with orgs. Qed.
Lemma inv_ListProjects r : preserves org_inv (Provider_ListProjects r).
Proof. unfold Provider_ListProjects. preserves_steps. auto with orgs. Qed.
Hint Resolve inv_ListProjects inv_RegisterAPIKey inv_UseAPIKey inv_protect inv_strongRandom : orgs.

Definition changes_members (c : org_call) : bool :=
  match c with
  | CRegisterOrg _ _ | CAddMember _ | CChangeMemberRole _ | CDeleteMember _ => true
  | _ => false
  end.

Lemma inv_other_calls ctx c :
  changes_members c = false -> preserves db_inv (run_call ctx c).
Proof.
  destruct c; intros Hc; try discriminate Hc; unfold run_call, done_with;
    unfold Orgs_GetOrg, Orgs_UpdateOrg, Orgs_DeleteOrg, Orgs_RegisterProject,
      Orgs_UpdateProject, Orgs_GetProject, Orgs_ListProjects, Orgs_DeleteProject,
      Orgs_GetUserOrgs, Orgs_GetUserMemberships, Orgs_GetMembers, Orgs_DeleteInvite,
      Orgs_CreateAPIKey, Orgs_ListAPIKeys, Orgs_DeleteAPIKey, listGrants,
      Provider_GetOrg, Provider_GetAPIKey, Provider_DeleteAPIKey, Provider_FindProject,
      Provider_ListAPIKeys, Provider_GetOrgInvites,
      Provider_GetUserMemberships;
    preserves_steps; eauto with orgs.
Qed.

(** ** Calls that change the members *)

(** Nothing is known of the grants. *)
Lemma at_db_Grants d orgID userID :
  True -> yields (fun s => os_db s = d) (in_authorizer (authorizer_Grants orgID userID))
    (fun _ => True).
Proof. intros _ s Hs. unfold in_authorizer. by destruct (authorizer_Grants _ _ _). Qed.
Lemma at_db_Project d orgID projectID :
  True ->
  preserves (fun s => os_db s = d) (in_authorizer (authorizer_Project orgID projectID)).
Proof. intros _ s Hs. unfold in_authorizer. by destruct (authorizer_Project _ _ _). Qed.

Context {IGL : @IdGenLaws IG} {UL : @UnicodeLaws UC}.

Lemma user_nonzero d u : org_inv d -> u ∈ od_users d -> us_ID u <> 0%Z.
Proof. intros Hd Hu. by destruct (user_row d u Hd Hu). Qed.

Lemma done_with_snd {X} (m : M OrgState X) s : (done_with m s).2 = (m s).2.
Proof. unfold done_with, bind. by destruct (m s) as [[]]. Qed.

Lemma inv_change_member d y d' :
  org_inv d ->
  (forall o, owner_of o y -> exists z, z ∈ od_members d /\ owner_of o z /\ z <> y) ->
  y ∈ od_members d -> m_OrgID y <> 0%Z ->
  (exists role, d' = (Provider_UpdateMemberRole (mkUpdateMemberRole (m_OrgID y)
     (m_ProjectID y) (m_UserID y) role) d).2) \/
  d' = (Provider_DeleteMember (mkDeleteMember (m_OrgID y) (m_ProjectID y) (m_UserID y)
          (ScopeOf (m_ProjectID y))) d).2 ->
  org_inv d'.
Proof.
  intros Hd Hown Hy Ho Hd'.
  pose proof (owners_without d y Hd Hown) as HO.
  assert (m_UserID y <> 0%Z) as Hu.
  { destruct (member_user_issued d y Hd Hy) as (k & _ & ->). pose proof (flake_pos k). lia. }
  destruct Hd' as [[role ->]| ->].
  - apply inv_UpdateMemberRole; [|done]. intros o Hin. specialize (HO o Hin).
    rewrite Exists_exists in *. destruct HO as (z & Hz & Hzo & Hne). exists z.
    split_and!; try done. unfold UpdateMemberRole_where. simpl.
    rewrite atScope_org, !andb_true_iff, !Z.eqb_eq. intros [[E1 E2] E3].
    destruct Hne. eapply scope_key_inj; try done. unfold scope_key. congruence.
  - apply inv_DeleteMember; [|done]. intros o Hin. specialize (HO o Hin).
    rewrite Exists_exists in *. destruct HO as (z & Hz & Hzo & Hne). exists z.
    split_and!; try done. apply not_true_is_false.
    unfold DeleteMember_where. simpl.
    rewrite atScope_exact, !idIs_nonzero, !andb_true_iff, !Z.eqb_eq by done.
    intros [[E1 E2] E3].
    destruct Hne. eapply scope_key_inj; try done. unfold scope_key. congruence.
Qed.

Lemma inv_RegisterOrg_call ctx n t : preserves db_inv (Orgs_RegisterOrg ctx n t).
Proof.
  unfold Orgs_RegisterOrg. apply preserves_bind_guard. intros Hu.
  preserves_steps; eauto with orgs.
  apply inv_odb, inv_RegisterOrg. by apply negb_true_iff, Z.eqb_neq in Hu.
Qed.

Lemma inv_member_calls ctx c s :
  grants_fit (os_db s) -> db_inv s -> db_inv (run_call ctx c s).2.
Proof.
  intros Hfit Hs. destruct (changes_members c) eqn:Hc; [|by apply inv_other_calls].
  pose (d := os_db s). pose proof (at_db_Grants d) as HG. pose proof (at_db_Project d) as HP.
  destruct c; try discriminate Hc; unfold run_call; rewrite done_with_snd.
  - by apply inv_RegisterOrg_call.
  - destruct (AddMember_change d _ _ (fun _ => True) (fun _ H => H) (fun _ _ _ => I)
      HG HP ctx req I Hs Hfit
      (fun u => user_nonzero d u Hs) s eq_refl)
      as [E|[(m & Hid & _ & Hk & _ & E)|(v & Hid & _ & He & _ & E)]];
      unfold on_db; rewrite E; [done| |].
    + apply inv_AddMember; [done|by right|done].
    + by apply inv_CreateInvite.
  - destruct (ChangeMemberRole_change d _ _ (fun _ => True) (fun _ H => H)
      (fun _ _ _ => I) HG HP ctx req I Hs s eq_refl)
      as [E|(y & role & (Hy & Ho & _ & _ & Hown) & _ & E)];
      unfold on_db; rewrite E; [done|].
    eapply inv_change_member; eauto.
  - destruct (DeleteMember_change d _ _ (fun _ => True) (fun _ H => H)
      (fun _ _ _ => I) HG ctx req I Hs s eq_refl)
      as [E|(y & (Hy & Ho & _ & _ & Hown) & E)]; unfold on_db; rewrite E; [done|].
    eapply inv_change_member; eauto.
Qed.

(** ** Sign-in *)

Lemma emitAccepted_db ctx u l s : os_db (emitAccepted ctx u l s).2 = os_db s.
Proof.
  revert s. induction l as [|m l IH]; intros s; [done|]. simpl. unfold bind. simpl.
  by rewrite IH.
Qed.

Lemma firstLogin_db ctx provider l u s :
  os_db (firstLogin ctx provider l u s).2 = (Provider_AcceptInvites u (os_db s)).2.
Proof.
  unfold firstLogin, bind.
  destruct (if (lg_ID l =? us_ID u)%Z then _ else _) as [[[]|e] s1] eqn:E;
    [|by destruct (lg_ID l =? us_ID u)%Z].
  assert (os_db s1 = os_db s) as <-.
  { destruct (lg_ID l =? us_ID u)%Z; by injection E as <-. }
  unfold catch, in_odb. destruct (Provider_AcceptInvites u (os_db s1)) as [[acc|e] d]; [|done].
  case_bool_decide; [done|]. simpl. by rewrite emitAccepted_db.
Qed.

Lemma inv_initialOrg cfg ctx u :
  us_ID u <> 0%Z -> preserves db_inv (initialOrg cfg ctx u).
Proof.
  intros Hu. unfold initialOrg, registerDefault, Provider_GetUserMemberships.
  preserves_steps; eauto using inv_RegisterOrg with orgs.
Qed.

(** A sign-in with the login and the user it registered. *)
Lemma signIn_run cfg ctx ui s :
  let m := mkLogin 0 (ui_ID ui) (ui_Provider ui) (ui_Email ui) false (ui_Name ui)
             "" "" 0 0 0 in
  match Provider_LoginUser m (os_db s) with
  | (Err e, d) => signIn cfg ctx ui s =
      (Err (GrpcCause Internal "failed to login" e), mkOs d (os_cache s) (os_emitted s))
  | (Ok (l, u), d) =>
      let s1 := mkOs d (os_cache s) (os_emitted s) in
      signIn cfg ctx ui s =
      (let! sel := initialOrg cfg ctx u in ret (u, sel))
        (if (lg_Count l =? 1)%Z
         then (firstLogin ctx (ui_ProviderName ui) l u s1).2 else s1)
  end.
Proof.
  simpl. unfold signIn, bind, catch, in_odb.
  destruct (Provider_LoginUser _ (os_db s)) as [[[l u]|e] d]; [|done]. simpl.
  destruct (lg_Count l =? 1)%Z.
  - assert (exists s2, firstLogin ctx (ui_ProviderName ui) l u
      (mkOs d (os_cache s) (os_emitted s)) = (Ok tt, s2)) as [s2 ->].
    { unfold firstLogin, bind, catch, in_odb.
      destruct (lg_ID l =? us_ID u)%Z; simpl;
        destruct (Provider_AcceptInvites u d) as [[acc|e] d']; try (by eexists);
        case_bool_decide; try (by eexists); simpl;
        (enough (forall l s, exists s', emitAccepted ctx u l s = (Ok tt, s')) as He;
         [apply He|]; intros l'; induction l' as [|x l' IH]; intros s'; simpl;
         [by eexists|apply IH]). }
    done.
  - done.
Qed.

Lemma inv_signIn cfg ctx ui : preserves db_inv (signIn cfg ctx ui).
Proof.
  intros s Hs. pose proof (signIn_run cfg ctx ui s) as Hr. cbv zeta in Hr.
  set (m := mkLogin _ _ _ _ _ _ _ _ _ _ _) in Hr.
  destruct (LoginUser_cases m (os_db s) Hs)
    as [(e & E)|(l & u & d & E & Hu & _ & Hm & Hi & _ & _ & _ & Hnow & Hc)];
    rewrite E in Hr; rewrite Hr; clear Hr.
  - apply org_inv_gen; [lia|done].
  - apply preserves_bind; [apply inv_initialOrg|intros; apply preserves_ret|].
    { destruct Hc as [Hd|(_ & _ & _ & Hd & _)]; by destruct (user_row d u Hd Hu). }
    unfold on_db. destruct (lg_Count l =? 1)%Z eqn:Ec.
    + rewrite firstLogin_db. simpl. destruct Hc as [Hd|(_ & _ & _ & Hd & Hno)].
      * by rewrite AcceptInvites_none.
      * rewrite <-Hm in Hno.
        destruct (AcceptInvites_all u d Hd Hu Hno) as (rows & d' & -> & _ & _ & _ & Hd' & _).
        done.
    + destruct Hc as [Hd|(Hc & _)]; [done|]. by rewrite Hc in Ec.
Qed.

Lemma inv_authenticateAPIKey ctx header timestamp :
  preserves db_inv (authenticateAPIKey ctx header timestamp).
Proof.
  unfold authenticateAPIKey, validateHMAC, findAPIKey, keyProject, Provider_GetProject.
  preserves_steps; eauto with orgs.
Qed.

Lemma inv_next s s' : os_next s s' -> db_inv s -> db_inv s'.
Proof.
  intros [ctx c s0 Hf|cfg ctx ui s0|ctx h t s0|t s0 Ht] Hs.
  - by apply inv_member_calls.
  - by apply inv_signIn.
  - by apply inv_authenticateAPIKey.
  - apply (org_inv_frame (os_db s0)); try apply Hs; try done.
Qed.

Lemma inv_history s s' : rtc os_next s s' -> db_inv s -> db_inv s'.
Proof. intros Hr. induction Hr; [done|]. intros Hs. eauto using inv_next. Qed.
End history.
