(* ===== verification/OrgGrants.v ===== *)
(** What the calls of the orgs service do to the rows of the grants and the
    invites, and what the authorizer of the service knows meanwhile. *)
From Stdlib Require Import ZArith Lia.
From stdpp Require Import base list gmap strings pretty sorting relations.
From S2P Require Import Prelude GoStrings Xdb Roles Scopes Tenancy Grants Authorizer Methods Access Model Query Sql CaDb Pbconv RowPb TenantScope OrgQuery OrgDb OrgsService SignIn ApiKeys OrgInv OrgInvites OrgLogin OrgChanges OrgHistory.

(** ** The view of the authorizer *)

Section view.
Context `{XL : Xdb, LM : XdbLimits, UC : Unicode, CO : Collation, IG : IdGen, RA : Random}.
Context `{CA : Cache, PO : Porto, PC : ProfileCodec, TL : TimeLib, KC : KeyCrypto, JS : JwtSigner}.
Context {XLL : @XdbLaws XL} {CL : @CacheLaws CA} {CN : @CacheNoEviction CA}.

(** What the authorizer of the service knows. *)
Definition service_view (s : OrgState) : AzView :=
  state_view (mkAz (od_now (os_db s)) (grants_provider (os_db s)) (os_cache s)).

Definition at_view (d : ODb) (v : AzView) (s : OrgState) : Prop :=
  os_db s = d /\ same_view (service_view s) v.

(** The operation changes the cache only. *)
Definition cache_only {X} (m : M AzState X) : Prop :=
  forall a, az_now (m a).2 = az_now a /\ az_provider (m a).2 = az_provider a.

Lemma getMemberships_cache u : cache_only (getMemberships u).
Proof. intros a. unfold getMemberships. go_case. Qed.
Lemma getProject_cache p : cache_only (getProject p).
Proof. intros a. unfold getProject. go_case. Qed.
Lemma Grants_cache o u : cache_only (authorizer_Grants o u).
Proof.
  intros a. unfold authorizer_Grants. destruct (o =? 0)%Z; [done|]. unfold bind.
  pose proof (getMemberships_cache u a). by destruct (getMemberships u a) as [[]].
Qed.
Lemma Project_cache o p : cache_only (authorizer_Project o p).
Proof.
  intros a. unfold authorizer_Project. destruct (o =? 0)%Z; [done|]. unfold catch.
  pose proof (getProject_cache p a). destruct (getProject p a) as [[] a'].
  - by destruct (_ || _).
  - by destruct (IsNotFoundError _).
Qed.

Lemma in_authorizer_answers {X} d v (m : M AzState X) r :
  answers state_view v m r -> cache_only m ->
  yields (at_view d v) (in_authorizer m) (fun x => r = Ok x).
Proof.
  intros Ha Hc s [Hd Hv]. unfold in_authorizer.
  set (a := mkAz _ _ _). destruct (Ha a Hv) as [E Hv']. destruct (Hc a) as [En Ep].
  destruct (m a) as [r' a'] eqn:Em. simpl in *. subst r'. split; [|done].
  split; [done|]. unfold service_view. simpl.
  by replace (mkAz _ _ _) with a' by (destruct a'; simpl in *; by subst).
Qed.

Lemma at_view_start s : at_view (os_db s) (service_view s) s.
Proof. split; [done|]. reflexivity. Qed.
Lemma at_view_Grants d v orgID userID :
  is_uint64 userID ->
  yields (at_view d v) (in_authorizer (authorizer_Grants orgID userID))
    (fun g => view_Grants v orgID userID = Ok g).
Proof.
  intros Hu. apply in_authorizer_answers; [|apply Grants_cache].
  by apply authorizer_Grants_view.
Qed.
Lemma at_view_Project d v orgID projectID :
  is_uint64 projectID ->
  preserves (at_view d v) (in_authorizer (authorizer_Project orgID projectID)).
Proof.
  intros Hp. eapply yields_preserves, in_authorizer_answers; [|apply Project_cache].
  by apply authorizer_Project_view.
Qed.

(** The grants the authorizer knows of the caller allow the role. *)
Definition may_grant (ctx : Context) (s : OrgState) (projectID : Z) (role : Role_Enum)
  : Prop :=
  exists g, view_Grants (service_view s) (tc_orgID (FromContext ctx))
              (tc_userID (FromContext ctx)) = Ok g /\ can_grant g projectID role.

(** ** Rows a change touches *)

Definition changed {R} (l l' : list R) (x : R) : Prop :=
  (x ∈ l /\ x ∉ l') \/ (x ∈ l' /\ x ∉ l).

Lemma not_changed {R} (l : list R) x : ~ changed l l x.
Proof. unfold changed. naive_solver. Qed.

Lemma AddMember_rows m d y :
  m_ID m = 0%Z -> (forall x, x ∈ od_members d -> scope_key x <> scope_key m) ->
  od_invites (Provider_AddMember m d).2 = od_invites d /\
  (changed (od_members d) (od_members (Provider_AddMember m d).2) y ->
   scope_key y = scope_key m /\ m_Role y = m_Role m).
Proof.
  intros Hid Hk. rewrite AddMember_run by done.
  destruct (Membership_Validate m); [|split; [done|by intros ?%not_changed]].
  destruct (upsertMember _ _) as [[x|e] d'] eqn:E; apply upsertMember_run in E;
    [|subst; split; [done|by intros ?%not_changed]].
  destruct E as (_ & l & -> & E). split; [done|].
  apply upsert_row_ok in E as [(_ & -> & -> & _)|(old & Ho & Hkey & _)];
    [|by destruct (Hk old Ho)].
  simpl. unfold changed. set_solver.
Qed.

Lemma CreateInvite_rows v d x :
  v_ID v = 0%Z ->
  od_members (Provider_CreateInvite v d).2 = od_members d /\
  (x ∈ od_invites (Provider_CreateInvite v d).2 -> x ∉ od_invites d ->
   v_OrgID x = v_OrgID v /\ v_ProjectID x = v_ProjectID v /\ v_Role x = v_Role v) /\
  (x ∈ od_invites d -> x ∉ od_invites (Provider_CreateInvite v d).2 ->
   v_OrgID x = v_OrgID v /\ v_ProjectID x = v_ProjectID v /\
   exists w, w ∈ od_invites (Provider_CreateInvite v d).2 /\
     u_key invite_scope w = u_key invite_scope x /\ v_Role w = v_Role v).
Proof.
  intros Hid. unfold Provider_CreateInvite, bind, oensureID. rewrite Hid. simpl.
  set (inv := mkInvite _ _ _ _ _ _ _ _). unfold lift_result.
  destruct (Invite_Validate inv); [|done].
  destruct (upsertInvite _ _) as [[y|e] d'] eqn:Eu; apply upsertInvite_run in Eu;
    [|by subst].
  destruct Eu as (_ & _ & l & -> & E). split; [done|]. simpl.
  apply upsert_row_ok in E as [(_ & -> & -> & _)|(old & Ho & Hkey & _ & -> & _ & ->)].
  - set_solver.
  - split.
    + intros (z & Hz & ->)%update_all_elem Hni. case_bool_decide as Hd; [|done].
      simpl. injection Hd as ? ? ?. done.
    + intros Hx Hni. rewrite update_all_elem in Hni.
      destruct (decide (u_key invite_scope x = u_key invite_scope inv)) as [Hd|Hd].
      2:{ destruct Hni. exists x. by rewrite bool_decide_false. }
      pose proof Hd as [= ? ? ?]. split_and!; [done..|].
      eexists. split; [apply update_all_elem; exists x; split; [done|]|].
      * by rewrite bool_decide_true.
      * done.
Qed.

Lemma replace_rows d y d' role x :
  org_inv d -> y ∈ od_members d -> m_OrgID y <> 0%Z -> m_UserID y <> 0%Z ->
  d' = (Provider_UpdateMemberRole (mkUpdateMemberRole (m_OrgID y) (m_ProjectID y)
          (m_UserID y) role) d).2 \/
  d' = (Provider_DeleteMember (mkDeleteMember (m_OrgID y) (m_ProjectID y) (m_UserID y)
          (ScopeOf (m_ProjectID y))) d).2 ->
  od_invites d' = od_invites d /\
  (changed (od_members d) (od_members d') x ->
   scope_key x = scope_key y /\ (m_Role x = m_Role y \/ m_Role x = role)).
Proof.
  intros Hd Hy Ho Hu [->| ->].
  - unfold Provider_UpdateMemberRole, bind, guard.
    destruct (negb _ && _ && _); [|split; [done|by intros ?%not_changed]].
    simpl. unfold onot_found, catch, oexec.
    destruct (update_row _ _ _ _) as [[z l]|e] eqn:E;
      [|split; [done|by intros ?%not_changed]]. simpl. split; [done|].
    apply update_row_ok in E as (old & _ & _ & _ & -> & _).
    assert (forall w, w ∈ od_members d -> UpdateMemberRole_where
      (mkUpdateMemberRole (m_OrgID y) (m_ProjectID y) (m_UserID y) role) w = true -> w = y)
      as Hw.
    { intros w Hz Hw. unfold UpdateMemberRole_where in Hw. simpl in Hw.
      rewrite atScope_org, !andb_true_iff, !Z.eqb_eq in Hw.
      eapply scope_key_inj; try done. unfold scope_key. naive_solver congruence. }
    intros [[Hx Hn]|[Hx Hn]].
    + destruct (UpdateMemberRole_where (mkUpdateMemberRole (m_OrgID y) (m_ProjectID y)
        (m_UserID y) role) x) eqn:E; [by rewrite (Hw x Hx E); auto|].
      destruct Hn. apply update_all_elem. exists x. by rewrite E.
    + apply update_all_elem in Hx as (w & Hz & ->).
      destruct (UpdateMemberRole_where _ w) eqn:E; [|done].
      rewrite (Hw w Hz E). split; [done|by right].
  - unfold Provider_DeleteMember, bind, guard.
    destruct (negb _); [|split; [done|by intros ?%not_changed]]. simpl. split; [done|].
    intros [[Hx Hn]|[Hx Hn]]; [|by apply filter_elem in Hx as [? _]].
    destruct (DeleteMember_where (mkDeleteMember (m_OrgID y) (m_ProjectID y) (m_UserID y)
      (ScopeOf (m_ProjectID y))) x) eqn:E; [|by destruct Hn; apply filter_elem; rewrite E].
    unfold DeleteMember_where in E. simpl in E.
    rewrite atScope_exact, !idIs_nonzero, !andb_true_iff, !Z.eqb_eq in E by done.
    unfold scope_key. destruct E as [[E1 E2] E3]. rewrite E1, E2, E3. split; [done|].
    left. f_equal. eapply scope_key_inj; try done. unfold scope_key. congruence.
Qed.

(** ** Calls that keep the grants *)

(** The members and the invites are kept. *)
Definition same_grants (d d' : ODb) : Prop :=
  od_members d' = od_members d /\ od_invites d' = od_invites d.

Context (d : ODb).
Local Notation keeps := (preserves (same_grants d)).
Local Notation os_keeps := (preserves (on_db (same_grants d))).

Lemma keeps_oexec {R A} (t : OTable R) (f : list R -> result (A * list R)) :
  (forall l s, same_grants s (ot_set t l s)) -> keeps (oexec t f).
Proof.
  intros Ht s [Hm Hi]. unfold oexec. destruct (f _) as [[a l]|e]; [|done]. simpl.
  destruct (Ht l s) as [Hm' Hi']. split; congruence.
Qed.
Lemma keeps_read {X} (m : M ODb X) : (forall s, (m s).2 = s) -> keeps m.
Proof. intros Hm s Hs. by rewrite Hm. Qed.
Lemma keeps_oensureID id : keeps (oensureID id).
Proof. intros s Hs. unfold oensureID. by destruct (IsZero id). Qed.
Lemma keeps_RandomString n : keeps (RandomString n).
Proof. by intros s Hs. Qed.
Lemma keeps_references ok name : keeps (references ok name).
Proof. intros s Hs. unfold references, guard. by destruct (ok s). Qed.
Lemma keeps_oNow : keeps oNow.
Proof. by intros s Hs. Qed.
Lemma keeps_draw : keeps draw.
Proof. by intros s Hs. Qed.
Lemma keeps_onot_found {A} n k (m : M ODb A) : keeps m -> keeps (onot_found n k m).
Proof. intros Hm. unfold onot_found. preserves_steps; done. Qed.
Lemma keeps_oselect {R A} (t : OTable R) (f : list R -> result A) : keeps (oselect t f).
Proof. apply keeps_read. intros s. unfold oselect. by destruct (f _). Qed.
Lemma keeps_ogetRow {R} (t : OTable R) name rid id : keeps (ogetRow t name rid id).
Proof. apply keeps_read. intros s. apply ogetRow_read. Qed.
Lemma keeps_ListMemberships r : keeps (Provider_ListMemberships r).
Proof. by intros s Hs. Qed.

Create HintDb keep_grants.
Hint Resolve keeps_oensureID keeps_RandomString keeps_references keeps_oNow keeps_draw
  keeps_onot_found keeps_oselect keeps_ogetRow keeps_ListMemberships
  preserves_lift : keep_grants.
Hint Extern 2 (preserves _ (oexec _ _)) => apply keeps_oexec; by split : keep_grants.

Lemma keeps_in_odb {X} (m : M ODb X) : keeps m -> os_keeps (in_odb m).
Proof.
  intros Hm s Hs. unfold in_odb. specialize (Hm (os_db s) Hs). by destruct (m (os_db s)).
Qed.
Lemma keeps_os_wrapped {X} f (m : M OrgState X) : os_keeps m -> os_keeps (os_wrapped f m).
Proof. intros Hm. unfold os_wrapped. preserves_steps; done. Qed.
Lemma keeps_odb {X} f (m : M ODb X) : keeps m -> os_keeps (odb f m).
Proof. intros Hm. by apply keeps_os_wrapped, keeps_in_odb. Qed.
Lemma keeps_strongRandom n : keeps (strongRandom n).
Proof. unfold strongRandom. preserves_steps; auto with keep_grants. Qed.
Hint Resolve keeps_in_odb keeps_os_wrapped keeps_odb keeps_strongRandom on_db_authorizer
  on_db_emit : keep_grants.

Lemma keeps_providers :
  (forall r, keeps (Provider_UpdateOrg r)) /\ (forall r, keeps (Provider_UpdateProject r)) /\
  (forall m, keeps (Provider_RegisterProject m)) /\
  (forall m, keeps (Provider_RegisterAPIKey m)) /\
  (forall r, keeps (Provider_ListProjects r)).
Proof.
  unfold Provider_UpdateOrg, Provider_UpdateProject, Provider_RegisterProject,
    Provider_RegisterAPIKey, Provider_ListProjects.
  split_and!; intros; preserves_steps; eauto with keep_grants.
Qed.
Lemma keeps_protect f x : os_keeps (protect f x).
Proof. unfold protect. preserves_steps; auto with keep_grants. Qed.

Lemma keeps_other_calls ctx c :
  changes_members c = false -> (forall r, c <> CDeleteInvite r) ->
  os_keeps (run_call ctx c).
Proof.
  destruct keeps_providers as (? & ? & ? & ? & ?).
  destruct c; intros Hc Hi; try discriminate Hc; try (by destruct (Hi req)); unfold run_call, done_with;
    unfold Orgs_GetOrg, Orgs_UpdateOrg, Orgs_DeleteOrg, Orgs_RegisterProject,
      Orgs_UpdateProject, Orgs_GetProject, Orgs_ListProjects, Orgs_DeleteProject,
      Orgs_GetUserOrgs, Orgs_GetUserMemberships, Orgs_GetMembers,
      Orgs_CreateAPIKey, Orgs_ListAPIKeys, Orgs_DeleteAPIKey, listGrants,
      Provider_GetOrg, Provider_GetAPIKey, Provider_DeleteAPIKey, Provider_FindProject,
      Provider_ListAPIKeys, Provider_GetOrgInvites, getActiveOrg, orgs_getProject,
      Provider_GetUserMemberships;
    preserves_steps; eauto using keeps_protect with keep_grants.
Qed.
End view.
