(* ===== verification/OrgSignIn.v ===== *)
(** A sign-in and the rows it leaves: the grants of the accepted invites, the
    default org of a user without a grant, and the org of the session. *)
From Stdlib Require Import ZArith Lia.
From stdpp Require Import base list gmap strings pretty sorting relations.
From S2P Require Import Prelude GoStrings Xdb Roles Scopes Tenancy Grants Authorizer Methods Access Model Query Sql CaDb Pbconv RowPb TenantScope OrgQuery OrgDb OrgsService SignIn ApiKeys OrgInv OrgInvites OrgLogin OrgChanges OrgHistory OrgGrants.

Section sign_in_rows.
Context `{XL : Xdb, LM : XdbLimits, UC : Unicode, CO : Collation, IG : IdGen, RA : Random}.
Context `{CA : Cache, PO : Porto, PC : ProfileCodec, TL : TimeLib, KC : KeyCrypto, JS : JwtSigner}.
Context {IGL : @IdGenLaws IG} {UL : @UnicodeLaws UC}.

(** ** The default org *)

(** The grants after a user became the Owner of a new org, or did not. *)
Definition owns_new_org (u : User) (d : ODb) (extra : list Membership) : Prop :=
  extra = [] \/
  exists m, extra = [m] /\ owner_of (m_OrgID m) m /\ m_UserID m = us_ID u /\
    m_OrgID m ∉ (o_ID <$> od_orgs d).

Definition adds_new_org (u : User) (d d' : ODb) : Prop :=
  od_invites d' = od_invites d /\
  exists extra, od_members d' = od_members d ++ extra /\ owns_new_org u d extra.

Lemma adds_nothing u d d' :
  od_invites d' = od_invites d -> od_members d' = od_members d -> adds_new_org u d d'.
Proof. intros Hi Hm. split; [done|]. exists []. rewrite app_nil_r. by split; [|left]. Qed.

Lemma new_org_member d0 org (u : User) l d' r :
  org_inv d0 -> l = od_orgs d0 ++ [org] -> uniques_hold org_uniques l ->
  with_message "unable to add owner" (Provider_AddMember
    (mkMembership 0 (o_ID org) 0 (us_ID u) Role_Owner 0)) (ot_set orgs l d0) = (Ok r, d') ->
  adds_new_org u d0 d'.
Proof.
  intros Hd -> Hu E. assert (o_ID org ∉ (o_ID <$> od_orgs d0)) as Hf.
  { pose proof (uniques_elem org_uniques _ (Unique "org_pkey" _ _ o_ID) Hu
      ltac:(by left)) as Hn. simpl in Hn. rewrite fmap_app in Hn.
    apply NoDup_app in Hn as (_ & Hn & _). intros Hin. apply (Hn _ Hin). by left. }
  unfold with_message, catch in E. rewrite AddMember_run in E by done.
  destruct (Membership_Validate _); [|done].
  destruct (upsertMember _ _) as [[y|e] s2] eqn:Eu; [|done]. injection E as <- <-.
  apply upsertMember_run in Eu as (Hr & rows & -> & Eu). split; [done|]. simpl.
  apply upsert_row_ok in Eu as [(_ & -> & -> & _)|(old & Ho & Hkey & _)].
  - eexists. split; [done|]. right. by eexists.
  - destruct Hf. injection Hkey as Ho1 _ _.
    pose proof (inv_member_rows _ d0 Hd) as HF. rewrite Forall_forall in HF.
    destruct (HF old Ho) as (_ & Hx & _). unfold org_exists in Hx.
    apply bool_decide_eq_true in Hx. by rewrite <-Ho1.
Qed.

(** The tables of [d]; only the generators moved on. *)
Definition same_tables (d d' : ODb) : Prop :=
  exists n k, (od_seq d <= n)%nat /\ d' = with_gen n k d.

Lemma same_tables_refl d : same_tables d d.
Proof. exists (od_seq d), (od_random d). split; [lia|by destruct d]. Qed.
Lemma tables_oensureID d id : preserves (same_tables d) (oensureID id).
Proof.
  intros s (n & k & Hn & ->). unfold oensureID. destruct (IsZero id); simpl.
  - eexists _, _. split; [|done]. simpl. lia.
  - by eexists _, _.
Qed.
Lemma tables_RandomString d n : preserves (same_tables d) (RandomString n).
Proof. intros s (m & k & Hn & ->). by eexists _, _. Qed.
Lemma tables_oNow d : preserves (same_tables d) oNow.
Proof. by intros s. Qed.

Lemma RegisterOrg_rows m (u : User) d :
  org_inv d -> us_ID u <> 0%Z -> adds_new_org u d (Provider_RegisterOrg m (us_ID u) d).2.
Proof.
  intros Hd Hu.
  assert (hoare (same_tables d) (Provider_RegisterOrg m (us_ID u)) (adds_new_org u d))
    as Hh; [|apply Hh, same_tables_refl].
  unfold Provider_RegisterOrg. rewrite (proj2 (Z.eqb_neq (us_ID u) 0)) by done.
  assert (forall s, same_tables d s -> adds_new_org u d s) as Hq.
  { intros s (n & k & _ & ->). by apply adds_nothing. }
  apply hoare_bind_before; [apply tables_oensureID|done|intros id].
  apply hoare_bind_before; [|done|intros alias].
  { case_bool_decide; [|apply preserves_ret]. preserves_steps. apply tables_RandomString. }
  apply hoare_bind_before; [apply tables_oNow|done|intros now].
  apply hoare_bind_before; [apply preserves_lift|done|intros _].
  intros s (n & k & Hn & ->). set (s := with_gen n k d). unfold otransaction.
  destruct (bind _ _ s) as [[org|e] s'] eqn:E; [|by apply adds_nothing].
  apply bind_ok in E as (r & s1 & E1 & E). unfold oexec in E1.
  destruct (insert_row _ _ _) as [[x l]|] eqn:Ei; [|done].
  apply insert_row_ok in Ei as (-> & -> & Hl). injection E1 as <- <-.
  apply bind_ok in E as (r2 & s2 & E2 & E). injection E as <- <-.
  apply bind_ok in E2 as (r3 & s3 & E3 & E). injection E as <- <-.
  exact (new_org_member s _ u _ _ _ (org_inv_gen d n k Hn Hd) eq_refl Hl E3).
Qed.

Lemma RegisterProject_rows u d p :
  preserves (adds_new_org u d) (Provider_RegisterProject p).
Proof.
  assert (forall id, preserves (adds_new_org u d) (oensureID id)) as Hid.
  { intros id s Hs. unfold oensureID. by destruct (IsZero id). }
  unfold Provider_RegisterProject. preserves_steps; try done; try by intros s.
  - intros s Hs. unfold references, guard. by destruct (org_exists _ _).
  - intros s Hs. unfold oexec. by destruct (insert_row _ _ _) as [[]|].
Qed.

Lemma in_odb_hoare {X} (m : M ODb X) P Q :
  hoare P m Q -> hoare (on_db P) (in_odb m) (on_db Q).
Proof.
  intros Hm s Hs. unfold in_odb. specialize (Hm (os_db s) Hs). by destruct (m (os_db s)).
Qed.

(** The default org adds a grant to none; then the user owns it. *)
Lemma initialOrg_rows cfg ctx u d s :
  os_db s = d -> org_inv d -> us_ID u <> 0%Z ->
  adds_new_org u d (os_db (initialOrg cfg ctx u s).2).
Proof.
  intros Hs Hd Hu. unfold initialOrg, Provider_GetUserMemberships, Provider_ListMemberships.
  unfold catch at 1, in_odb at 1. destruct (_ && _); [|subst; by apply adds_nothing].
  assert (hoare (on_db (fun x => x = d)) (registerDefault cfg ctx u)
            (on_db (adds_new_org u d))) as Hr.
  { unfold registerDefault. apply hoare_catch_after.
    - apply in_odb_hoare. intros x ->. by apply RegisterOrg_rows.
    - intros r. preserves_steps; auto using on_db_emit.
      apply (in_odb_hoare _ (adds_new_org u d)), RegisterProject_rows. }
  unfold bind. match goal with |- context [registerDefault _ _ _ ?x] =>
    specialize (Hr x) end. simpl in Hr. specialize (Hr Hs).
  destruct (registerDefault _ _ _ _) as [[[]|e] s']; try done.
Qed.

Lemma initialOrg_ok cfg ctx u s : exists sel s', initialOrg cfg ctx u s = (Ok sel, s').
Proof.
  unfold initialOrg, Provider_GetUserMemberships, Provider_ListMemberships.
  unfold catch at 1, in_odb at 1. destruct (_ && _); [|by eexists _, _].
  unfold registerDefault, bind at 1, catch at 1.
  destruct (in_odb (Provider_RegisterOrg _ _) _) as [[org|e] s1]; [|by eexists _, _].
  unfold bind at 1. simpl. case_bool_decide; [by eexists _, _|]. unfold catch at 1.
  destruct (in_odb _ _) as [[p|e] s2]; by eexists _, _.
Qed.

(** ** The org of a session *)

(** The role comes from a grant of the user in an active org: the role of an
    org-level grant, or Viewer because of a grant in a project. *)
Definition role_earned (d : ODb) (u : User) (sel : orgSelection) : Prop :=
  exists m o, m ∈ od_members d /\ m_UserID m = us_ID u /\ m_OrgID m = sl_OrgID sel /\
    o ∈ od_orgs d /\ o_ID o = sl_OrgID sel /\ o_Status o = ItemStatus_Active /\
    ((m_ProjectID m = 0%Z /\ sl_Role sel = m_Role m /\ sl_Source sel = RoleSource_Direct) \/
     (m_ProjectID m <> 0%Z /\ sl_Role sel = Role_Viewer /\
      sl_Source sel = RoleSource_Project)).

Lemma grants_from rows orgID userID :
  let g := GrantsFromMemberships rows orgID userID in
  (g_OrgRole g <> Role_None ->
   exists m, m ∈ rows /\ grant_at orgID userID 0 m /\ mi_Role m = g_OrgRole g) /\
  (g_ProjectRoles g <> ∅ ->
   exists m q, q <> 0%Z /\ m ∈ rows /\ grant_at orgID userID q m).
Proof.
  induction rows as [|m rows IH] using rev_ind; [done|]. destruct IH as [IH1 IH2].
  cbv zeta. rewrite GrantsFromMemberships_snoc.
  destruct (grant_cases orgID userID m) as [Ho|[Hm|(q & Hq & Hm)]].
  - rewrite addMembership_other by done. set_solver.
  - rewrite addMembership_org by done. simpl. set_solver.
  - rewrite (addMembership_project _ _ _ _ q) by done. simpl. split; [set_solver|].
    intros _. exists m, q. set_solver.
Qed.

(** A row of the user in an active org is behind every grant listed. *)
Lemma user_rows d (u : User) mi :
  us_ID u <> 0%Z ->
  mi ∈ ListMemberships_page (mkListMemberships 0 (us_ID u) 0 Scope_Undefined
         ItemStatus_Active Role_None 0 0) (vw_membership_info d) ->
  org_inv d ->
  exists m o, m ∈ od_members d /\ m_UserID m = us_ID u /\ mi = memberInfo d m /\
    o ∈ od_orgs d /\ o_ID o = m_OrgID m /\ o_Status o = ItemStatus_Active.
Proof.
  intros Hu Hm Hd. apply page_sub in Hm as [Hm Hw].
  apply view_elem in Hm as (y & Hy & ->). unfold ListMemberships_where in Hw. simpl in Hw.
  rewrite !andb_true_iff, idIs_nonzero, Z.eqb_eq in Hw by done.
  destruct Hw as [[[[Hmu _] _] Hst] _]. simpl in Hmu.
  change (mi_UserID (memberInfo d y) = us_ID u) in Hmu.
  rewrite memberInfo_user in Hmu by (by eapply member_row_refs).
  destruct (List.find _ (od_orgs d)) as [o|] eqn:Eo; [|done]. simpl in Hst.
  apply find_some in Eo as [Hin%list_elem_of_In Hid%Z.eqb_eq].
  unfold statusIs in Hst. simpl in Hst. apply bool_decide_eq_true in Hst.
  exists y, o. by split_and!.
Qed.

Lemma selectOrg_earned d u orgID sel :
  org_inv d -> us_ID u <> 0%Z ->
  selectOrg (ListMemberships_page (mkListMemberships 0 (us_ID u) 0 Scope_Undefined
    ItemStatus_Active Role_None 0 0) (vw_membership_info d)) orgID (us_ID u) = Some sel ->
  sl_OrgID sel = orgID /\ role_earned d u sel.
Proof.
  intros Hd Hu. set (rows := ListMemberships_page _ _). unfold selectOrg.
  destruct (grants_from rows orgID (us_ID u)) as [H1 H2].
  set (g := GrantsFromMemberships rows orgID (us_ID u)) in *. unfold IsMember, ResolvedOrgRole.
  case_bool_decide as Hr; simpl.
  - intros [= <-]. split; [done|].
    destruct (H1 Hr) as (mi & Hmi & (Ho & _ & Hp) & Hrole).
    destruct (user_rows d u mi Hu Hmi Hd) as (m & o & Hm & Hmu & -> & Hin & Hid & Hst).
    simpl in Ho, Hp, Hrole. exists m, o. simpl. rewrite Hid, Ho. split_and!; try done.
    by left.
  - destruct (0 <? size (g_ProjectRoles g))%nat eqn:Es; [|done]. simpl.
    intros [= <-]. split; [done|].
    assert (g_ProjectRoles g <> ∅) as Hne.
    { intros E. by rewrite E, map_size_empty in Es. }
    destruct (H2 Hne) as (mi & q & Hq & Hmi & (Ho & _ & Hp)).
    destruct (user_rows d u mi Hu Hmi Hd) as (m & o & Hm & Hmu & -> & Hin & Hid & Hst).
    simpl in Ho, Hp. exists m, o. simpl. rewrite Hid, Ho. split_and!; try done.
    right. by rewrite Hp.
Qed.

Lemma initialOrg_earned cfg ctx u s sel s' :
  org_inv (os_db s) -> us_ID u <> 0%Z -> initialOrg cfg ctx u s = (Ok (Some sel), s') ->
  role_earned (os_db s') u sel.
Proof.
  intros Hs Hu E. pose proof (inv_initialOrg cfg ctx u Hu s Hs) as Hs'.
  rewrite E in Hs'. unfold on_db in Hs'. simpl in Hs'. revert E.
  unfold initialOrg, Provider_GetUserMemberships, Provider_ListMemberships.
  unfold catch at 1, in_odb at 1. destruct (_ && _).
  - unfold bind at 1. destruct (registerDefault _ _ _ _) as [[[]|e] s1]; [|done..].
    unfold catch, in_odb. simpl. intros [= E <-]. revert E.
    destruct (OrgIDs _) as [|o l]; [done|]. intros E.
    by eapply selectOrg_earned in E as [_ ?].
  - intros [= E <-]. revert E. simpl. destruct (OrgIDs _) as [|o l]; [done|]. intros E.
    by eapply selectOrg_earned in E as [_ ?].
Qed.

(** ** A sign-in *)

(** The rows after the sign-in of [u]: a grant for each of its pending
    invites, which are gone, and perhaps the grant of a new org. *)
Definition invites_accepted (u : User) (d d' : ODb) : Prop :=
  exists rows extra, od_members d' = od_members d ++ rows ++ extra /\
    Forall2 (grants_invite u) (pending_invites u d) rows /\
    od_invites d' = List.filter
      (fun v => negb (GetUserInvites_where (us_Email u) (od_now d) v)) (od_invites d) /\
    owns_new_org u d extra.

Lemma not_pending_all u d :
  pending_invites u d = [] ->
  List.filter (fun v => negb (GetUserInvites_where (us_Email u) (od_now d) v))
    (od_invites d) = od_invites d.
Proof.
  unfold pending_invites. induction (od_invites d) as [|v l IH]; [done|]. simpl.
  destruct (GetUserInvites_where _ _ v); [done|]. simpl. intros ?. f_equal. auto.
Qed.

(** The rows before the org of the session is selected. *)
Lemma login_rows m s l u d :
  org_inv s -> Provider_LoginUser m s = (Ok (l, u), d) ->
  let d' := if (lg_Count l =? 1)%Z then (Provider_AcceptInvites u d).2 else d in
  us_Email u = ToLower (lg_Email m) /\ us_ID u <> 0%Z /\ org_inv d' /\
  od_orgs d' = od_orgs s /\
  exists rows, od_members d' = od_members s ++ rows /\
    Forall2 (grants_invite u) (pending_invites u s) rows /\
    od_invites d' = List.filter
      (fun v => negb (GetUserInvites_where (us_Email u) (od_now s) v)) (od_invites s).
Proof.
  intros Hs E. destruct (LoginUser_cases m s Hs)
    as [(e & E')|(l' & u' & d1 & E' & Hu & He & Hm & Hi & Ho & _ & _ & Hnow & Hc)];
    rewrite E' in E; [done|]. injection E as -> -> ->.
  assert (us_ID u <> 0%Z) as Hid.
  { destruct Hc as [Hd|(_ & _ & _ & Hd & _)]; by destruct (user_row d u Hd Hu). }
  assert (pending_invites u d = pending_invites u s) as Hp.
  { unfold pending_invites. by rewrite Hi, Hnow. }
  destruct Hc as [Hd|(Hc & _ & _ & Hd & Hno)].
  - assert (pending_invites u d = []) as Hn.
    { apply pending_none; [done|]. by apply list_elem_of_fmap_2. }
    assert ((if (lg_Count l =? 1)%Z then (Provider_AcceptInvites u d).2 else d) = d) as ->.
    { rewrite AcceptInvites_none by done. by destruct (lg_Count l =? 1)%Z. }
    split_and!; try done. exists []. rewrite <-Hp, Hn, app_nil_r. split_and!; try done.
    rewrite Hi. symmetry. apply not_pending_all. by rewrite <-Hp.
  - rewrite Hc. simpl. rewrite <-Hm in Hno.
    destruct (AcceptInvites_all u d Hd Hu Hno)
      as (rows & d' & -> & Hm' & HR & Hi' & Hd' & _ & _ & Ho' & _).
    split_and!; try done; [by rewrite <-Ho|]. exists rows.
    rewrite <-Hm, <-Hi, <-Hnow, <-Hp. by split_and!.
Qed.

Lemma signIn_rows cfg ctx ui s :
  org_inv (os_db s) ->
  match signIn cfg ctx ui s with
  | (Err _, s') => od_members (os_db s') = od_members (os_db s) /\
                   od_invites (os_db s') = od_invites (os_db s)
  | (Ok (u, sel), s') => us_Email u = ToLower (ui_Email ui) /\
      invites_accepted u (os_db s) (os_db s') /\
      (forall o, sel = Some o -> role_earned (os_db s') u o)
  end.
Proof.
  intros Hs. pose proof (signIn_run cfg ctx ui s) as Hr. cbv zeta in Hr.
  set (m := mkLogin _ _ _ _ _ _ _ _ _ _ _) in Hr.
  destruct (Provider_LoginUser m (os_db s)) as [[[l u]|e] d] eqn:E; rewrite Hr.
  2:{ destruct (LoginUser_cases m (os_db s) Hs) as [(e' & E')|(? & ? & ? & E' & _)];
        rewrite E' in E; by simplify_eq. }
  pose proof (login_rows m _ l u d Hs E) as (He & Hid & Hd' & Ho & rows & Hm & HR & Hi).
  set (s1 := if (lg_Count l =? 1)%Z then _ else _).
  assert (os_db s1 = if (lg_Count l =? 1)%Z then (Provider_AcceptInvites u d).2 else d)
    as E1 by (unfold s1; destruct (lg_Count l =? 1)%Z; [apply firstLogin_db|done]).
  rewrite <-E1 in *. clearbody s1. clear E1 Hr.
  pose proof (initialOrg_rows cfg ctx u (os_db s1) s1 eq_refl Hd' Hid) as [Hi2 Hm2].
  destruct (initialOrg_ok cfg ctx u s1) as (sel & s2 & E2). unfold bind.
  rewrite E2 in Hi2, Hm2 |- *. simpl in *. destruct Hm2 as (extra & Hm2 & Hx).
  split_and!; [done| |].
  - exists rows, extra. rewrite Hm2, Hm, Hi2, app_assoc. split_and!; try done.
    unfold owns_new_org in *. by rewrite Ho in Hx.
  - intros o ->. by eapply initialOrg_earned.
Qed.

(** The org a session is moved to. *)
Lemma selectOrgFor_earned ctx reqOrgID s u sel s' :
  org_inv (os_db s) -> selectOrgFor ctx reqOrgID s = (Ok (u, sel), s') ->
  os_db s' = os_db s /\ us_ID u = tc_userID (FromContext ctx) /\ u ∈ od_users (os_db s) /\
  parse_id reqOrgID = Some (sl_OrgID sel) /\ role_earned (os_db s) u sel.
Proof.
  intros Hs. unfold selectOrgFor. destruct (parse_id reqOrgID) as [orgID|]; [|done].
  unfold bind, guard. destruct (negb (IsAPIKey _)); [|done]. simpl.
  destruct (Z.eqb_spec (tc_userID (FromContext ctx)) 0) as [|Hu]; [done|]. simpl.
  unfold catch at 1, in_odb at 1, Provider_GetUser.
  pose proof (ogetRow_read users "user" us_ID (tc_userID (FromContext ctx)) (os_db s)) as Hr.
  destruct (ogetRow _ _ _ _ _) as [[x|e] d] eqn:E; [|done]. simpl in Hr. subst d.
  cbn [ret os_db].
  assert (x ∈ od_users (os_db s) /\ us_ID x = tc_userID (FromContext ctx)) as [Hx Hid].
  { unfold ogetRow, onot_found, catch, oselect in E.
    change (ot_rows users (os_db s)) with (od_users (os_db s)) in E.
    destruct (select_row _ _) as [y|] eqn:Ey; [|done]. injection E as ->.
    by apply select_row_ok in Ey as [? ?%Z.eqb_eq]. }
  rewrite <-Hid in Hu |- *.
  destruct (selectOrg _ _ _) as [sl|] eqn:El; [|done]. intros [= <- <- <-].
  apply selectOrg_earned in El as [<- He]; try done.
Qed.
End sign_in_rows.
