(* ===== verification/ApiKeyFacts.v ===== *)
(** What a login with an API key proves of its caller, and that a created key
    logs in. *)
From Stdlib Require Import ZArith NArith Lia Ascii.
From stdpp Require Import base list strings gmap pretty sorting relations.
From S2P Require Import Prelude GoStrings Xdb Roles Scopes Tenancy Grants Authorizer Methods Access Model Base64 Query Sql CaDb Pbconv RowPb TenantScope OrgQuery OrgDb OrgsService OrgInv SignIn ApiKeys OrgChanges.

(** A visible ASCII character. *)
Definition visible (c : ascii) : bool := byte_in c 33 126.
(** A character of a key: visible, and not the colon. *)
Definition key_char (c : ascii) : bool := visible c && negb (bool_decide (c = ":"%char)).

Lemma all_chars_impl (p q : ascii -> bool) s :
  (forall c, p c = true -> q c = true) -> all_chars p s = true -> all_chars q s = true.
Proof.
  intros Hpq. induction s as [|a s IH]; [done|]. simpl.
  rewrite !andb_true_iff. naive_solver.
Qed.
Lemma all_chars_app p s t :
  all_chars p (s ++ t) = all_chars p s && all_chars p t.
Proof.
  induction s as [|a s IH]; [done|]. simpl. by rewrite <-andb_assoc, <-IH.
Qed.

(** ** [TrimSpace] *)

Lemma rev_onto_chars p s acc :
  all_chars p (rev_onto s acc) = all_chars p s && all_chars p acc.
Proof.
  revert acc. induction s as [|a s IH]; intros acc; [done|]. simpl. rewrite IH. simpl.
  by destruct (p a), (all_chars p s).
Qed.
Lemma rev_onto_rev s acc : rev_onto (rev_onto s acc) EmptyString = rev_onto acc s.
Proof.
  revert acc. induction s as [|a s IH]; intros acc; [done|]. simpl. by rewrite IH.
Qed.
Lemma rev_string_rev s : rev_string (rev_string s) = s.
Proof. unfold rev_string. by rewrite rev_onto_rev. Qed.

Lemma visible_trim a b c :
  visible a = true ->
  space1 a = false /\ space2 a b = false /\ space2 b a = false /\ space3 a b c = false /\
  space3 c b a = false.
Proof.
  unfold visible, space1, space2, space3, byte_in, byte_is. intros Ha.
  apply andb_true_iff in Ha as [H1%Nat.leb_le H2%Nat.leb_le].
  repeat split; apply not_true_is_false;
    repeat (rewrite ?orb_true_iff, ?andb_true_iff, ?Nat.eqb_eq, ?Nat.leb_le); lia.
Qed.

Lemma TrimSpace_visible s : all_chars visible s = true -> TrimSpace s = s.
Proof.
  intros Hs. assert (trim_left s = s) as Hl.
  { destruct s as [|a [|b [|c s]]]; [done|..]; simpl in Hs;
      apply andb_true_iff in Hs as [Ha _]; simpl;
      [destruct (visible_trim a a a Ha) as (-> & _)
      |destruct (visible_trim a b a Ha) as (-> & -> & _)
      |destruct (visible_trim a b c Ha) as (-> & -> & _ & -> & _)]; done. }
  assert (all_chars visible (rev_string s) = true) as Hr.
  { unfold rev_string. by rewrite rev_onto_chars, Hs. }
  assert (trim_left_rev (rev_string s) = rev_string s) as Ht.
  { destruct (rev_string s) as [|a [|b [|c r]]]; [done|..]; simpl in Hr;
      apply andb_true_iff in Hr as [Ha _]; simpl;
      [destruct (visible_trim a a a Ha) as (-> & _)
      |destruct (visible_trim a b a Ha) as (-> & _ & -> & _)
      |destruct (visible_trim a b c Ha) as (-> & _ & -> & _ & ->)]; done. }
  unfold TrimSpace, trim_right. by rewrite Hl, Ht, rev_string_rev.
Qed.

(** ** [SplitN] *)

Lemma SplitN2_first sep w r :
  all_chars (fun c => negb (bool_decide (c = sep))) w = true ->
  SplitN2 sep (w ++ String sep r) = Some (w, r).
Proof.
  induction w as [|a w IH]; simpl; intros Hw.
  - by rewrite bool_decide_true.
  - apply andb_true_iff in Hw as [->%negb_true_iff Hw]. by rewrite IH.
Qed.

(** ** Encoded texts *)

Lemma enc6_visible n : visible (enc6 n) = true.
Proof.
  unfold enc6. destruct (nth_in_or_default (N.to_nat n) alphabet "A"%char) as [H| ->];
    [|done].
  assert (forallb visible alphabet = true) as HF by by vm_compute.
  rewrite forallb_forall in HF. by apply HF.
Qed.

Lemma EncodeToString_visible s : all_chars visible (EncodeToString s) = true.
Proof.
  induction s using string_triples; [done|..]; cbn [EncodeToString all_chars];
    by rewrite ?enc6_visible, ?IHs.
Qed.
Lemma URLEncodeToString_visible s : all_chars visible (URLEncodeToString s) = true.
Proof.
  unfold URLEncodeToString. rewrite all_chars_app, EncodeToString_visible.
  by destruct (String.length s mod 3) as [|[|[|]]].
Qed.

(** ** The laws of data protection *)

(** What is protected reads back, and the protected text is URL-safe base64:
    it has no space and no colon. *)
Class KeyCryptoLaws `{KeyCrypto} := {
  Unprotect_ProtectObject n x p : ProtectObject n x = Ok p -> UnprotectObject p = Ok x;
  ProtectObject_text n x p : ProtectObject n x = Ok p -> all_chars key_char p = true }.

Section key_login.
Context `{XL : Xdb, LM : XdbLimits, UC : Unicode, CO : Collation, IG : IdGen, RA : Random}.
Context `{CA : Cache, PO : Porto, PC : ProfileCodec, TL : TimeLib, KC : KeyCrypto, JS : JwtSigner}.

(** ** A login that succeeds *)

(** The credentials of the header are the key and its signature of the
    method and the timestamp. *)
Definition signed_with (secret header timestamp : string) : Prop :=
  exists keyStr, parseAuthorization header = Ok (keyStr,
    generateHMACSignature Auth_AuthenticateAPIKey_FullMethodName timestamp secret).

Definition timely (timestamp : string) (now : Z) : Prop :=
  exists t, ParseRFC3339 timestamp = Some t /\ (Z.abs (now - t) <= timestampTolerance)%Z.

(** The claims of a key that logs in at a time. *)
Definition key_claims (row : APIKey) (now : Z) : KeyClaims :=
  mkKeyClaims (id_string (k_OrgID row)) (Role_String Role_APIKey)
    (k_Scopes row) (id_string (k_ProjectID row)) (id_string (k_ID row))
    (id_string (k_ID row) ++ "+apikey@trustyca.com") "apikey" (now + keyTokenValidity).

(** The project of the token is none, or an active one of the org. *)
Definition project_available (d : ODb) (claims : KeyClaims) : Prop :=
  kc_Project claims = EmptyString \/
  exists p, p ∈ od_projects d /\ parse_id (kc_Project claims) = Some (Tenancy.p_ID p) /\
    id_string (Tenancy.p_OrgID p) = kc_Org claims /\
    Tenancy.p_Status p = ItemStatus_Active.

Definition not_expired (row : APIKey) (now : Z) : Prop :=
  k_ExpiresAt row = 0%Z \/ (now <= k_ExpiresAt row)%Z.

Lemma checkTimestamp_ok timestamp now : checkTimestamp timestamp now = Ok tt <-> timely timestamp now.
Proof.
  unfold checkTimestamp, timely, timestampTolerance.
  destruct (ParseRFC3339 timestamp) as [t|]; [|split; [done|by intros (? & ? & _)]].
  destruct (Z.ltb_spec 300000 (now - t)), (Z.ltb_spec 300000 (t - now));
    split; try done; try (intros (x & [= <-] & ?); lia).
  intros _. exists t. split; [done|lia].
Qed.

Lemma UseAPIKey_ok orgID id d k d' :
  Provider_UseAPIKey orgID id d = (Ok k, d') ->
  exists row, row ∈ od_keys d /\ k_OrgID row = orgID /\ k_ID row = id /\
    k = UseAPIKey_set (od_now d) row /\
    d' = ot_set apikeys (update_all (org_key_is orgID id) (UseAPIKey_set (od_now d))
           (od_keys d)) d.
Proof.
  unfold Provider_UseAPIKey. erewrite (bind_run oNow) by reflexivity.
  unfold onot_found, catch, oexec. change (ot_rows apikeys d) with (od_keys d).
  destruct (select_row _ _) as [r|]; simpl; [|done].
  destruct (increment _); simpl; [|done].
  destruct (update_row _ _ _ _) as [[x l]|] eqn:E; [|done]. intros [= <- <-].
  apply update_row_ok in E as (row & Hin & Hw & -> & -> & _).
  unfold org_key_is in Hw. apply andb_true_iff in Hw as [?%Z.eqb_eq ?%Z.eqb_eq].
  by exists row.
Qed.

Lemma findAPIKey_ok keyStr s k s' :
  findAPIKey keyStr s = (Ok k, s') ->
  exists row secret, row ∈ od_keys (os_db s) /\ not_expired row (od_now (os_db s)) /\
    UnprotectObject (k_Secret row) = Ok secret /\
    k = set_secret secret (APIKey_Pb (UseAPIKey_set (od_now (os_db s)) row)) /\
    exists orgID id, s' = mkOs (ot_set apikeys (update_all (org_key_is orgID id)
      (UseAPIKey_set (od_now (os_db s))) (od_keys (os_db s))) (os_db s))
      (os_cache s) (os_emitted s).
Proof.
  unfold findAPIKey. destruct (splitKey keyStr) as [[org pid]|]; [|done].
  destruct (parse_id org) as [orgID|]; [|done].
  destruct (UnprotectObject pid) as [kid|]; [|done].
  destruct (parse_id kid) as [id|]; [|done].
  unfold bind at 1, catch, in_odb at 1.
  destruct (Provider_UseAPIKey orgID id (os_db s)) as [[m|e] d] eqn:E; [|done].
  apply UseAPIKey_ok in E as (row & Hin & _ & _ & -> & ->). simpl.
  unfold bind, guard. destruct (_ =? orgID)%Z; [|done]. simpl.
  destruct (Z.eqb_spec (k_ExpiresAt row) 0) as [He|He],
    (Z.ltb_spec (k_ExpiresAt row) (od_now (os_db s))) as [Hl|Hl]; simpl; try done;
    destruct (UnprotectObject (k_Secret row)) as [secret|] eqn:Es; try done;
    intros [= <- <-]; exists row, secret; split_and!; try done;
    try (by left); try (by right); by exists orgID, id.
Qed.

Lemma validateHMAC_ok method header timestamp s k s' :
  validateHMAC method header timestamp s = (Ok k, s') ->
  timely timestamp (od_now (os_db s)) /\
  exists keyStr, parseAuthorization header = Ok (keyStr,
      generateHMACSignature method timestamp (kb_Secret k)) /\
    findAPIKey keyStr s = (Ok k, s').
Proof.
  unfold validateHMAC. unfold bind at 1, in_odb at 1. simpl.
  assert (mkOs (os_db s) (os_cache s) (os_emitted s) = s) as -> by by destruct s.
  intros E. apply bind_ok in E as ([] & s1 & E1 & E). injection E1 as E1 <-.
  apply checkTimestamp_ok in E1. split; [done|].
  apply bind_ok in E as ([key sig] & s1 & E2 & E). injection E2 as E2 <-.
  simpl in E. apply bind_ok in E as (k0 & s1 & E3 & E). unfold catch in E3.
  destruct (findAPIKey key s) as [[k1|] s2] eqn:Ef; [|done]. injection E3 as -> ->.
  unfold bind, guard in E. case_bool_decide as Hs; [|done]. injection E as <- <-.
  exists key. by rewrite E2, Hs.
Qed.

Lemma keyProject_ok k s p s' :
  keyProject k s = (Ok p, s') ->
  os_db s' = os_db s /\ p = kb_ProjectID k /\
  (p = EmptyString \/ exists x, x ∈ od_projects (os_db s) /\
     parse_id p = Some (Tenancy.p_ID x) /\ id_string (Tenancy.p_OrgID x) = kb_OrgID k /\
     Tenancy.p_Status x = ItemStatus_Active).
Proof.
  unfold keyProject. case_bool_decide as He.
  { intros [= <- <-]. rewrite He. split_and!; try done. by left. }
  destruct (parse_id (kb_ProjectID k)) as [pid|] eqn:Ep; [|done].
  unfold odb, os_wrapped, bind, catch, in_odb, Provider_GetProject, ogetRow, onot_found,
    catch, oselect. change (ot_rows projects (os_db s)) with (od_projects (os_db s)).
  destruct (select_row _ _) as [x|] eqn:E; [|done]. simpl. unfold guard.
  destruct (_ && _) eqn:Eg; [|done]. simpl. intros [= <- <-].
  apply andb_true_iff in Eg as [?%bool_decide_eq_true ?%bool_decide_eq_true].
  apply select_row_ok in E as [Hx Hi%Z.eqb_eq]. split_and!; try done. right.
  exists x. rewrite Ep, Hi. by split_and!.
Qed.

Lemma authenticateAPIKey_ok ctx header timestamp s token claims s' :
  authenticateAPIKey ctx header timestamp s = (Ok (token, claims), s') ->
  timely timestamp (od_now (os_db s)) /\
  exists row secret, row ∈ od_keys (os_db s) /\ not_expired row (od_now (os_db s)) /\
    UnprotectObject (k_Secret row) = Ok secret /\ signed_with secret header timestamp /\
    claims = key_claims row (od_now (os_db s)) /\ project_available (os_db s) claims /\
    Sign claims = Ok token.
Proof.
  unfold authenticateAPIKey. intros E. apply bind_ok in E as (k & s1 & E1 & E).
  unfold catch in E1. destruct (validateHMAC _ _ _ s) as [[k1|] s2] eqn:Ev; [|done].
  injection E1 as -> ->. apply validateHMAC_ok in Ev as (Ht & keyStr & Ea & Ef).
  apply findAPIKey_ok in Ef as (row & secret & Hin & Hx & Hs & -> & orgID & id & ->).
  split; [done|]. exists row, secret.
  apply bind_ok in E as (p & s2 & E2 & E). apply keyProject_ok in E2 as (Hd & -> & Hp).
  apply bind_ok in E as (now & s3 & E3 & E). injection E3 as E3 _.
  rewrite Hd in E3. simpl in E3, Hp. subst now. apply bind_ok in E as (tk & s4 & E4 & E).
  unfold os_wrapped, catch, lift_result in E4.
  destruct (Sign _) as [t|] eqn:Es; [|done]. injection E4 as -> ->.
  unfold bind in E. simpl in E. injection E as <- <- <-.
  split_and!; try done. by exists keyStr.
Qed.

(** ** A key that was created *)

Context {XLL : @XdbLaws XL} {KCL : @KeyCryptoLaws KC} {IGL : @IdGenLaws IG}.

(** The row carries the key the caller was given, and its secret. *)
Record carries (row : APIKey) (key : APIKey_pb) : Prop := mkCarries {
  ca_org : is_id (k_OrgID row);
  ca_id : is_id (k_ID row);
  ca_project : is_uint64 (k_ProjectID row);
  ca_key : exists p, kb_Key key = ("sk_" ++ id_string (k_OrgID row) ++ "_" ++ p)%string /\
    UnprotectObject p = Ok (id_string (k_ID row)) /\ all_chars key_char p = true;
  ca_secret : UnprotectObject (k_Secret row) = Ok (kb_Secret key) }.

(** The header a client sends. *)
Definition authorization (key : APIKey_pb) (timestamp : string) : string :=
  "APIKey " ++ kb_Key key ++ ":" ++ generateHMACSignature
    Auth_AuthenticateAPIKey_FullMethodName timestamp (kb_Secret key).

Lemma alnum_no_underscore c :
  alnum c = true -> negb (bool_decide (c = "_"%char)) = true.
Proof. intros Hc. case_bool_decide as Hd; [|done]. by subst. Qed.
Lemma alnum_key c : alnum c = true -> key_char c = true.
Proof.
  intros Hc. unfold key_char. case_bool_decide as Hd; [by subst|].
  rewrite andb_true_r. unfold visible, alnum, byte_in in *.
  rewrite ?orb_true_iff, ?andb_true_iff, ?Nat.leb_le in *. lia.
Qed.

Lemma key_text row key : carries row key -> all_chars key_char (kb_Key key) = true.
Proof.
  intros [_ _ _ (p & -> & _ & Hp) _]. rewrite !all_chars_app, Hp, andb_true_r.
  apply andb_true_iff. split; [done|].
  eapply all_chars_impl; [apply alnum_key|apply id_string_alnum].
Qed.

Lemma parse_header row key timestamp :
  carries row key ->
  parseAuthorization (authorization key timestamp) = Ok (kb_Key key,
    generateHMACSignature Auth_AuthenticateAPIKey_FullMethodName timestamp
      (kb_Secret key)).
Proof.
  intros Hc%key_text. unfold parseAuthorization, authorization.
  change ("APIKey " ++ ?x)%string with ("APIKey" ++ String " " x)%string.
  rewrite SplitN2_first by done.
  change (negb (EqualFold "APIKey" "APIKey")) with false. cbv iota.
  change (":" ++ ?x)%string with (String ":" x).
  rewrite SplitN2_first.
  - rewrite !TrimSpace_visible; [done|apply URLEncodeToString_visible|].
    eapply all_chars_impl, Hc. intros c. unfold key_char. rewrite andb_true_iff. tauto.
  - eapply all_chars_impl, Hc. intros c. unfold key_char. rewrite andb_true_iff. tauto.
Qed.

Lemma split_key row key :
  carries row key ->
  exists p, splitKey (kb_Key key) = Some (id_string (k_OrgID row), p) /\
    UnprotectObject p = Ok (id_string (k_ID row)).
Proof.
  intros [_ _ _ (p & -> & Hp & _) _]. exists p. split; [|done]. unfold splitKey.
  change ("sk_" ++ ?x)%string with ("sk" ++ String "_" x)%string.
  rewrite SplitN2_first by done. rewrite bool_decide_true by done.
  change ("_" ++ ?x)%string with (String "_" x). apply SplitN2_first.
  eapply all_chars_impl; [apply alnum_no_underscore|apply id_string_alnum].
Qed.

(** The row is the only one of its ID, and its counter is not full. *)
Record usable (d : ODb) (row : APIKey) : Prop := mkUsable {
  ub_row : row ∈ od_keys d;
  ub_unique : uniques_hold apikey_uniques (od_keys d);
  ub_count : (k_UsedCount row < 2147483647)%Z;
  ub_expiry : not_expired row (od_now d);
  ub_project : k_ProjectID row = 0%Z \/ exists p,
    Provider_GetProject (k_ProjectID row) d = (Ok p, d) /\
    Tenancy.p_OrgID p = k_OrgID row /\ Tenancy.p_Status p = ItemStatus_Active }.

Lemma UseAPIKey_usable d row :
  usable d row ->
  exists d', Provider_UseAPIKey (k_OrgID row) (k_ID row) d =
    (Ok (UseAPIKey_set (od_now d) row), d') /\ od_now d' = od_now d /\
    od_projects d' = od_projects d.
Proof.
  intros [Hin Hu Hc _ _]. unfold Provider_UseAPIKey.
  erewrite (bind_run oNow) by reflexivity. unfold onot_found, catch, oexec.
  change (ot_rows apikeys d) with (od_keys d).
  assert (select_row (org_key_is (k_OrgID row) (k_ID row)) (od_keys d) = Ok row) as Hs.
  { apply select_row_unique; [done|unfold org_key_is; by rewrite !Z.eqb_refl|].
    intros x Hx Hw. unfold org_key_is in Hw. apply andb_true_iff in Hw as [_ Hw%Z.eqb_eq].
    apply (NoDup_key_inj k_ID (od_keys d)); try done.
    apply (uniques_elem apikey_uniques _ (Unique "apikey_pkey" _ _ k_ID) Hu). by left. }
  rewrite Hs. simpl. unfold increment. rewrite (proj2 (Z.ltb_lt _ _) Hc). simpl.
  rewrite (update_row_hold _ _ _ _ row Hs); [by eexists|].
  apply update_all_hold; [done|]. by repeat constructor.
Qed.

Lemma findAPIKey_usable key row s :
  carries row key -> usable (os_db s) row ->
  exists d', findAPIKey (kb_Key key) s =
    (Ok (set_secret (kb_Secret key) (APIKey_Pb (UseAPIKey_set (od_now (os_db s)) row))),
     mkOs d' (os_cache s) (os_emitted s)) /\ od_now d' = od_now (os_db s) /\
    od_projects d' = od_projects (os_db s).
Proof.
  intros Hc Hu. destruct (split_key row key Hc) as (p & Hp & Hid).
  unfold findAPIKey. rewrite Hp, parse_id_string, Hid, parse_id_string by apply Hc.
  destruct (UseAPIKey_usable _ row Hu) as (d' & E & Hn & Hpr). exists d'. split; [|done].
  unfold bind at 1, catch, in_odb at 1. rewrite E. simpl.
  unfold bind, guard. rewrite Z.eqb_refl. simpl. rewrite Hn.
  assert (negb (k_ExpiresAt row =? 0)%Z && (k_ExpiresAt row <? od_now (os_db s))%Z = false)
    as ->.
  { destruct (ub_expiry _ _ Hu) as [->|Hx]; [done|].
    apply andb_false_iff. right. by apply Z.ltb_ge. }
  simpl. by rewrite (ca_secret _ _ Hc).
Qed.

Lemma keyProject_usable key row now s d' :
  carries row key -> usable d' row -> od_projects (os_db s) = od_projects d' ->
  keyProject (set_secret (kb_Secret key) (APIKey_Pb (UseAPIKey_set now row))) s =
  (Ok (id_string (k_ProjectID row)), s).
Proof.
  intros Hc Hu Hp. unfold keyProject. simpl.
  destruct (decide (k_ProjectID row = 0%Z)) as [Hz|Hz].
  { by rewrite Hz, id_string_zero. }
  assert (is_id (k_ProjectID row)) as Hid.
  { destruct (ca_project _ _ Hc). split; [lia|done]. }
  rewrite bool_decide_false by (by apply id_string_nonempty).
  rewrite parse_id_string by done.
  destruct (ub_project _ _ Hu) as [|(p & E & Ho & Hst)]; [done|].
  unfold Provider_GetProject, ogetRow, onot_found, catch, oselect in E |- *.
  unfold bind, odb, os_wrapped, catch, in_odb.
  change (ot_rows projects (os_db s)) with (od_projects (os_db s)).
  change (ot_rows projects d') with (od_projects d') in E. rewrite Hp.
  destruct (select_row _ _) as [x|]; [|done]. injection E as ->. simpl.
  unfold guard. rewrite Ho, Hst, !bool_decide_true by done. simpl. by destruct s.
Qed.

(** A key that is stored and not expired logs in. *)
Lemma key_logs_in key row timestamp ctx s token :
  carries row key -> usable (os_db s) row -> timely timestamp (od_now (os_db s)) ->
  Sign (key_claims row (od_now (os_db s))) = Ok token ->
  exists s', authenticateAPIKey ctx (authorization key timestamp) timestamp s =
    (Ok (token, key_claims row (od_now (os_db s))), s').
Proof.
  intros Hc Hu Ht Hs. destruct (findAPIKey_usable key row s Hc Hu) as (d' & E & Hn & Hp).
  assert (mkOs (os_db s) (os_cache s) (os_emitted s) = s) as Es by by destruct s.
  assert (validateHMAC Auth_AuthenticateAPIKey_FullMethodName (authorization key timestamp)
    timestamp s = (Ok (set_secret (kb_Secret key)
      (APIKey_Pb (UseAPIKey_set (od_now (os_db s)) row))),
      mkOs d' (os_cache s) (os_emitted s))) as Ev.
  { unfold validateHMAC. unfold bind at 1, in_odb at 1. simpl. rewrite Es.
    unfold lift_result. unfold bind at 1. rewrite (proj2 (checkTimestamp_ok _ _) Ht).
    unfold bind at 1. rewrite (parse_header row key timestamp Hc).
    unfold bind at 1, catch. cbn [fst snd]. rewrite E. simpl.
    unfold bind, guard. by rewrite bool_decide_true. }
  unfold authenticateAPIKey. unfold bind at 1, catch. rewrite Ev. cbn [ret].
  unfold bind at 1. erewrite keyProject_usable by (try done; apply Hp).
  unfold bind at 1, in_odb at 1. cbn [oNow]. simpl. rewrite Hn.
  unfold bind at 1, os_wrapped, catch, lift_result. unfold key_claims in *.
  change (Role_String Role_APIKey) with "APIKey"%string in *.
  rewrite Hs. by eexists.
Qed.

(** ** The creation *)

Lemma RegisterAPIKey_ok k d row d' :
  k_ID k <> 0%Z -> Provider_RegisterAPIKey k d = (Ok row, d') ->
  od_keys d' = od_keys d ++ [row] /\ uniques_hold apikey_uniques (od_keys d') /\
  od_now d' = od_now d /\
  k_ID row = k_ID k /\ k_OrgID row = k_OrgID k /\ k_ProjectID row = k_ProjectID k /\
  k_Key row = k_Key k /\ k_Secret row = k_Secret k /\ k_Scopes row = k_Scopes k /\
  k_ExpiresAt row = k_ExpiresAt k /\ k_UsedCount row = 0%Z.
Proof.
  intros Hid. unfold Provider_RegisterAPIKey, oensureID, IsZero.
  rewrite (proj2 (Z.eqb_neq _ _) Hid). unfold bind at 1, bind at 1. simpl.
  unfold bind, lift_result. destruct (APIKey_Validate _); [|done]. unfold references, guard.
  destruct (org_exists _ _); [|done]. simpl. destruct (project_of _ _ _); [|done]. simpl.
  unfold oexec. change (ot_rows apikeys d) with (od_keys d).
  destruct (insert_row _ _ _) as [[x l]|] eqn:E; [|done]. intros [= <- <-].
  apply insert_row_ok in E as (-> & -> & Hu). by split_and!.
Qed.

Lemma protect_ok f x s p s' :
  protect f x s = (Ok p, s') ->
  (exists n, ProtectObject n x = Ok p) /\ od_keys (os_db s') = od_keys (os_db s) /\
  od_now (os_db s') = od_now (os_db s).
Proof.
  unfold protect, os_wrapped, bind, catch, in_odb. simpl. unfold lift_result.
  destruct (ProtectObject _ _) eqn:E; [|done]. intros [= <- <-]. split; [by eexists|done].
Qed.

Lemma orgs_getProject_db orgID projectID s :
  os_db (orgs_getProject orgID projectID s).2 = os_db s.
Proof.
  unfold orgs_getProject. destruct (projectID =? 0)%Z; [done|].
  unfold catch, in_authorizer. destruct (authorizer_Project _ _ _) as [[p|e] a]; [done|].
  by destruct (errors_Is e ErrAccessDenied).
Qed.

(** A created key is stored with its secret, under a new ID. *)
Lemma CreateAPIKey_ok ctx req s key s' :
  is_uint64 (tc_orgID (FromContext ctx)) -> is_uint64 (flake (od_seq (os_db s))) ->
  Orgs_CreateAPIKey ctx req s = (Ok key, s') ->
  exists row, od_keys (os_db s') = od_keys (os_db s) ++ [row] /\
    uniques_hold apikey_uniques (od_keys (os_db s')) /\
    key = set_secret (kb_Secret key) (APIKey_Pb row) /\ carries row key /\
    k_OrgID row = tc_orgID (FromContext ctx) /\ k_UsedCount row = 0%Z /\
    keyExpiry (ck_ExpiresAt req) (od_now (os_db s)) = Ok (k_ExpiresAt row) /\
    k_Scopes row = (if bool_decide (ck_Scopes req = []) then DefaultAPIKeyScopes
                    else ck_Scopes req).
Proof.
  intros Horg Hseq E. unfold Orgs_CreateAPIKey in E.
  apply bind_ok in E as (orgID & s0 & E0 & E). injection E0 as E0 <-.
  apply tokenOrg_ok in E0 as [Ho Htok].
  apply bind_ok in E as ([] & s0 & E1 & E).
  assert (s0 = s) as -> by (unfold guard in E1; destruct (negb _); by inversion E1).
  clear E1.
  apply bind_ok in E as (u1 & s0 & E1 & E). injection E1 as _ <-.
  apply bind_ok in E as (projectID & s0 & E2 & E). injection E2 as Hpid <-.
  apply bind_ok in E as (proj & s1 & E3 & E).
  pose proof (orgs_getProject_db orgID projectID s) as Hs1. rewrite E3 in Hs1. simpl in Hs1.
  apply bind_ok in E as (id & s2 & E4 & E). injection E4 as Hid Hs2.
  apply bind_ok in E as (now & s3 & E5 & E). injection E5 as Hnow Hs3.
  apply bind_ok in E as (exp & s4 & E6 & E). injection E6 as Hexp <-.
  apply bind_ok in E as (p & s4 & E7 & E). apply protect_ok in E7 as ((n & Hp) & Hk4 & Hn4).
  apply bind_ok in E as (secret & s5 & E8 & E).
  apply bind_ok in E as (ps & s6 & E9 & E). apply protect_ok in E9 as ((m & Hps) & Hk6 & Hn6).
  apply bind_ok in E as (row & s7 & E10 & E).
  unfold bind in E. simpl in E. injection E as <- Es'.
  assert (is_id id) as Hidr by (subst id; rewrite Hs1; split; [apply flake_pos|apply Hseq]).
  assert (od_keys (os_db s5) = od_keys (os_db s4)) as Hk5 by (by injection E8 as _ <-).
  assert (od_keys (os_db s3) = od_keys (os_db s)) as Hk3.
  { subst s3 s2. simpl. by rewrite Hs1. }
  unfold odb, os_wrapped, catch, in_odb in E10.
  destruct (Provider_RegisterAPIKey _ (os_db s6)) as [[row0|e] d7] eqn:Er; [|done].
  injection E10 as -> <-. apply RegisterAPIKey_ok in Er
    as (Hks & Hu & _ & Hki & Hko & Hkp & Hkk & Hksec & Hkscope & Hke & Hkc);
    [|simpl; destruct Hidr; lia]. simpl in *.
  exists row. rewrite <-Es'. simpl. rewrite Hks, Hk6, Hk5, Hk4, Hk3 in *.
  split_and!; try done; try congruence.
  - constructor; simpl.
    + rewrite Hko, <-Htok in *. destruct Horg. split; [lia|done].
    + by rewrite Hki.
    + rewrite Hkp. unfold parseOptionalID in Hpid.
      destruct (bool_decide (ck_ProjectID req = EmptyString)).
      * simplify_eq/=. unfold is_uint64, max_uint64. lia.
      * destruct (parse_id _) eqn:Ep; simplify_eq/=. by eapply parse_id_range.
    + exists p. rewrite Hkk, Hko, Hki. split_and!; [done| |].
      * by eapply Unprotect_ProtectObject.
      * by eapply ProtectObject_text.
    + rewrite Hksec. by eapply Unprotect_ProtectObject.
  - rewrite Hke, <-Hexp, <-Hnow. subst s2. simpl. by rewrite Hs1.
Qed.
End key_login.

(** ** The claims *)

Section key_claims_of_orgs.
Context `{XL : Xdb, LM : XdbLimits, UC : Unicode, CO : Collation, IG : IdGen, RA : Random}.
Context `{CA : Cache, PO : Porto, PC : ProfileCodec, TL : TimeLib, KC : KeyCrypto, JS : JwtSigner}.

(** C8: a token is issued to a caller with an API key only when the header
    carries the signature of the method and the timestamp with the secret of
    a stored key that is not expired, the timestamp is at most five minutes
    away, and the project of the key, if it has one, is an active project of
    the org of the key; the token then names the org, the project and the
    scopes of that key and nothing else, and is valid for one hour. *)
Theorem key_token_sound ctx header timestamp s token claims s' :
  authenticateAPIKey ctx header timestamp s = (Ok (token, claims), s') ->
  timely timestamp (od_now (os_db s)) /\
  exists row secret, row ∈ od_keys (os_db s) /\ not_expired row (od_now (os_db s)) /\
    UnprotectObject (k_Secret row) = Ok secret /\ signed_with secret header timestamp /\
    claims = key_claims row (od_now (os_db s)) /\ project_available (os_db s) claims /\
    Sign claims = Ok token.
Proof. apply authenticateAPIKey_ok. Qed.

Context {XLL : @XdbLaws XL} {KCL : @KeyCryptoLaws KC} {IGL : @IdGenLaws IG}.

(** The columns of a key that no operation changes. *)
Definition same_key (a b : APIKey) : Prop :=
  k_ID a = k_ID b /\ k_OrgID a = k_OrgID b /\ k_ProjectID a = k_ProjectID b /\
  k_Secret a = k_Secret b.

Lemma carries_same a b key : same_key a b -> carries a key -> carries b key.
Proof.
  intros (Hi & Ho & Hp & Hs) []. constructor; by rewrite <-?Hi, <-?Ho, <-?Hp, <-?Hs.
Qed.

(** C9: a key that was created is stored once, for the org of the caller's
    token, with the scopes and the expiration the request asked for; and the
    key and the secret the caller was given log in, in every later state of
    the service that still holds the row of the key, until it expires, with
    the claims of the row. *)
Theorem created_key_logs_in ctx req s key s1 :
  is_uint64 (tc_orgID (FromContext ctx)) -> is_uint64 (flake (od_seq (os_db s))) ->
  Orgs_CreateAPIKey ctx req s = (Ok key, s1) ->
  exists row, od_keys (os_db s1) = od_keys (os_db s) ++ [row] /\
    k_OrgID row = tc_orgID (FromContext ctx) /\
    keyExpiry (ck_ExpiresAt req) (od_now (os_db s)) = Ok (k_ExpiresAt row) /\
    k_Scopes row = (if bool_decide (ck_Scopes req = []) then DefaultAPIKeyScopes
                    else ck_Scopes req) /\
    forall caller s2 row2 timestamp token,
      same_key row row2 -> usable (os_db s2) row2 ->
      timely timestamp (od_now (os_db s2)) ->
      Sign (key_claims row2 (od_now (os_db s2))) = Ok token ->
      exists s3, authenticateAPIKey caller (authorization key timestamp) timestamp s2 =
        (Ok (token, key_claims row2 (od_now (os_db s2))), s3).
Proof.
  intros Horg Hseq E. apply CreateAPIKey_ok in E
    as (row & Hk & _ & _ & Hc & Ho & _ & He & Hsc); [|done..].
  exists row. split_and!; try done. intros caller s2 row2 ts token Hsame Hu Ht Hs.
  apply key_logs_in; try done. by eapply carries_same.
Qed.
End key_claims_of_orgs.
