(* ===== verification/OrgClaims.v ===== *)
(** The promises of the orgs service: an org always has an Owner, the grants
    change as the caller may grant, and a first sign-in turns the invites of
    an email into exactly their grants. *)
From Stdlib Require Import ZArith Lia.
From stdpp Require Import base list gmap strings pretty sorting relations.
From S2P Require Import Prelude GoStrings Xdb Roles Scopes Tenancy Grants Authorizer Methods Access Model Query Sql CaDb Pbconv RowPb TenantScope OrgQuery OrgDb OrgsService SignIn ApiKeys OrgInv OrgInvites OrgLogin OrgChanges OrgHistory OrgGrants OrgSignIn.

Section claims.
Context `{XL : Xdb, LM : XdbLimits, UC : Unicode, CO : Collation, IG : IdGen, RA : Random}.
Context `{CA : Cache, PO : Porto, PC : ProfileCodec, TL : TimeLib, KC : KeyCrypto, JS : JwtSigner}.
Context {XLL : @XdbLaws XL} {CL : @CacheLaws CA} {CN : @CacheNoEviction CA}.
Context {IGL : @IdGenLaws IG} {UL : @UnicodeLaws UC}.

(** ** Histories *)

(** The service over an empty database. *)
Definition started (now : Z) : OrgState := mkOs (emptyODb now) NewMemoryProvider [].
Definition os_reachable (s : OrgState) : Prop := exists now, rtc os_next (started now) s.

Lemma reachable_inv s : os_reachable s -> org_inv (os_db s).
Proof. intros [now Hr]. eapply inv_history in Hr; [exact Hr|]. apply org_inv_empty. Qed.

(** C5: in every history of the orgs service (calls of any callers, with a
    database in which no user has more grants in one org than a page of
    memberships holds, sign-ins, logins with API keys and the passing of
    time) every org has a member with the role Owner at org level, who is a
    registered user: neither a change of roles nor a removal leaves an org
    that nobody can administer. *)
Theorem orgs_keep_an_owner s o :
  os_reachable s -> o ∈ od_orgs (os_db s) ->
  exists m, m ∈ od_members (os_db s) /\ owner_of (o_ID o) m /\
    exists u, u ∈ od_users (os_db s) /\ us_ID u = m_UserID m.
Proof.
  intros Hr%reachable_inv Ho. pose proof (inv_owner _ _ Hr) as HF.
  rewrite Forall_forall in HF. apply HF, Exists_exists in Ho as (m & Hm & Hown).
  exists m. split_and!; try done. pose proof (inv_member_rows _ _ Hr) as HR.
  rewrite Forall_forall in HR. destruct (HR m Hm) as (_ & _ & Hu & _).
  unfold user_exists in Hu.
  apply bool_decide_eq_true, list_elem_of_fmap in Hu as (u & -> & Hu). by exists u.
Qed.

(** ** The changes of a call *)

(** The call asks for the removal of the invite. *)
Definition invite_named (c : org_call) (v : Invite) : Prop :=
  match c with
  | CDeleteInvite r => v_Email v = ToLower (TrimSpace (dv_Email r)) /\
      parseOptionalID (dv_ProjectID r) "project ID" = Ok (v_ProjectID v)
  | _ => False
  end.

(** What a call may change.  The membership rows and the invites it writes
    carry roles the caller may grant at their scopes.  An invite goes for no
    check of its role: it is of the caller's org, and named by a
    [DeleteInvite] or replaced by an invite the caller may write to the same
    email and scope. *)
Definition changes_authorized (ctx : Context) (c : org_call) (s s' : OrgState) : Prop :=
  (forall m, changed (od_members (os_db s)) (od_members (os_db s')) m ->
     m_OrgID m = tc_orgID (FromContext ctx) /\
     may_grant ctx s (m_ProjectID m) (m_Role m)) /\
  (forall v, v ∈ od_invites (os_db s') -> v ∉ od_invites (os_db s) ->
     v_OrgID v = tc_orgID (FromContext ctx) /\
     may_grant ctx s (v_ProjectID v) (v_Role v)) /\
  (forall v, v ∈ od_invites (os_db s) -> v ∉ od_invites (os_db s') ->
     v_OrgID v = tc_orgID (FromContext ctx) /\
     (invite_named c v \/
      exists w, w ∈ od_invites (os_db s') /\
        (v_OrgID w, v_ProjectID w, v_Email w) = (v_OrgID v, v_ProjectID v, v_Email v) /\
        may_grant ctx s (v_ProjectID w) (v_Role w))).

Lemma same_invites ctx c s s' :
  (forall m, changed (od_members (os_db s)) (od_members (os_db s')) m ->
     m_OrgID m = tc_orgID (FromContext ctx) /\
     may_grant ctx s (m_ProjectID m) (m_Role m)) ->
  od_invites (os_db s') = od_invites (os_db s) -> changes_authorized ctx c s s'.
Proof. intros Hm E. split; [done|]. rewrite E. by split. Qed.

Lemma no_changes ctx c s s' :
  same_grants (os_db s) (os_db s') -> changes_authorized ctx c s s'.
Proof.
  intros [Hm Hi]. apply same_invites; [|done]. intros m. rewrite Hm. by intros ?%not_changed.
Qed.

(** A removed invite is one the call names, in the org of the token. *)
Lemma DeleteInvite_authorized ctx r s :
  changes_authorized ctx (CDeleteInvite r) s (run_call ctx (CDeleteInvite r) s).2.
Proof.
  unfold run_call. rewrite done_with_snd.
  unfold Orgs_DeleteInvite, bind at 1, lift_result at 1.
  destruct (tokenOrg ctx) as [o|] eqn:Eo; [|by apply no_changes].
  apply tokenOrg_ok in Eo as [Ho Eo]. unfold bind at 1, lift_result.
  destruct (parseOptionalID _ _) as [p|] eqn:Ep; [|by apply no_changes].
  cbv zeta. set (email := ToLower _). unfold bind at 1, guard at 1.
  case_bool_decide as He; [by apply no_changes|].
  cbn [negb]. unfold Provider_DeleteInvite. cbn [di_OrgID di_Email di_ProjectID di_Scope].
  rewrite (bool_decide_false _ He), andb_false_r.
  unfold changes_authorized. simpl.
  split_and!; [by intros m ?%not_changed|by intros v [? _]%filter_elem []|].
  intros v Hv Hn. rewrite filter_elem in Hn.
  destruct (DeleteInvite_where _ v) eqn:E; [|by destruct Hn].
  unfold DeleteInvite_where in E. cbn [di_OrgID di_Email di_ProjectID di_Scope] in E.
  assert (ToLower email = email) as El by apply ToLower_idem.
  rewrite El, idIs_nonzero, atScope_exact, (bool_decide_false _ He) in E by done.
  simpl in E. rewrite !andb_true_iff, !Z.eqb_eq, bool_decide_eq_true in E.
  destruct E as [[E1 E2] ->]. split; [congruence|]. left. by split.
Qed.

Section call.
Context (ctx : Context) (s : OrgState).
Hypothesis caller : is_uint64 (tc_userID (FromContext ctx)).
Hypothesis s_inv : org_inv (os_db s).

Local Notation known := (fun o u g => view_Grants (service_view s) o u = Ok g).

Lemma authorized_member c m s' :
  m_ID m = 0%Z -> m_OrgID m = tc_orgID (FromContext ctx) ->
  (forall y, y ∈ od_members (os_db s) -> scope_key y <> scope_key m) ->
  granted known ctx (m_OrgID m) (m_ProjectID m) (m_Role m) ->
  os_db s' = (Provider_AddMember m (os_db s)).2 -> changes_authorized ctx c s s'.
Proof.
  intros Hid Ho Hk Hg E.
  apply same_invites; rewrite E; [|by apply (AddMember_rows m _ m Hid Hk)].
  intros y Hy. apply (AddMember_rows m _ y Hid Hk) in Hy as [[= -> -> _] ->].
  split; [done|]. by rewrite Ho in Hg.
Qed.

Lemma authorized_invite c w s' :
  v_ID w = 0%Z -> v_OrgID w = tc_orgID (FromContext ctx) ->
  granted known ctx (v_OrgID w) (v_ProjectID w) (v_Role w) ->
  os_db s' = (Provider_CreateInvite w (os_db s)).2 -> changes_authorized ctx c s s'.
Proof.
  intros Hid Ho Hg E. rewrite Ho in Hg. unfold changes_authorized. rewrite E. split_and!.
  - intros y. rewrite (proj1 (CreateInvite_rows w _ w Hid)). by intros ?%not_changed.
  - intros v Hv Hn. destruct (CreateInvite_rows w (os_db s) v Hid) as (_ & Hc & _).
    by destruct (Hc Hv Hn) as (-> & -> & ->).
  - intros v Hv Hn. destruct (CreateInvite_rows w (os_db s) v Hid) as (_ & _ & Hc).
    destruct (Hc Hv Hn) as (Hov & Hp & x & Hx & Hk & Hr). split; [congruence|]. right.
    exists x. split; [done|]. split; [exact Hk|]. injection Hk as _ Hk _.
    by rewrite Hk, Hp, Hr.
Qed.

Lemma authorized_replace c y role s' :
  may_replace (os_db s) known ctx y ->
  granted known ctx (m_OrgID y) (m_ProjectID y) role ->
  os_db s' = (Provider_UpdateMemberRole (mkUpdateMemberRole (m_OrgID y) (m_ProjectID y)
                (m_UserID y) role) (os_db s)).2 \/
  os_db s' = (Provider_DeleteMember (mkDeleteMember (m_OrgID y) (m_ProjectID y)
                (m_UserID y) (ScopeOf (m_ProjectID y))) (os_db s)).2 ->
  changes_authorized ctx c s s'.
Proof.
  intros (Hy & Ho & Htok & Hg & _) Hr E.
  assert (m_UserID y <> 0%Z) as Hu.
  { destruct (member_user_issued _ y s_inv Hy) as (k & _ & ->). pose proof (flake_pos k). lia. }
  pose proof (fun x => replace_rows _ y _ role x s_inv Hy Ho Hu E) as Hx.
  apply same_invites; [|by apply (Hx y)].
  intros m Hm. apply (proj2 (Hx m)) in Hm as [[= -> -> _] Hrole]. split; [done|].
  rewrite Htok in Hg, Hr. by destruct Hrole as [-> | ->].
Qed.

Lemma authorized_call c :
  grants_fit (os_db s) -> (forall n t, c <> CRegisterOrg n t) ->
  changes_authorized ctx c s (run_call ctx c s).2.
Proof.
  intros Hfit Hc. pose proof (at_view_start s) as Hs.
  pose proof (fun o u => at_view_Grants (os_db s) (service_view s) o u) as HG.
  pose proof (fun o p => at_view_Project (os_db s) (service_view s) o p) as HP.
  assert (forall x, at_view (os_db s) (service_view s) x -> os_db x = os_db s) as HI
    by by intros x [].
  destruct (changes_members c) eqn:Hcm.
  2:{ assert ((exists r, c = CDeleteInvite r) \/ (forall r, c <> CDeleteInvite r))
        as [[r ->]|Hr] by (destruct c; naive_solver).
      { apply DeleteInvite_authorized. }
      apply no_changes, keeps_other_calls; [done|naive_solver|]. by split. }
  destruct c; try discriminate Hcm; unfold run_call; rewrite ?done_with_snd.
  - by destruct (Hc name description).
  - destruct (AddMember_change _ _ _ _ HI parse_id_range HG HP ctx req caller s_inv Hfit
      (fun u => user_nonzero _ u s_inv) s Hs)
      as [E|[(m & Hid & Ho & Hk & Hg & E)|(v & Hid & Ho & _ & Hg & E)]].
    + apply no_changes. rewrite E. by split.
    + by eapply authorized_member.
    + by eapply authorized_invite.
  - destruct (ChangeMemberRole_change _ _ _ _ HI parse_id_range HG HP ctx req caller s_inv
      s Hs) as [E|(y & role & Hy & Hg & E)].
    + apply no_changes. rewrite E. by split.
    + eapply authorized_replace; eauto.
  - destruct (DeleteMember_change _ _ _ _ HI parse_id_range HG ctx req caller s_inv
      s Hs) as [E|(y & Hy & E)].
    + apply no_changes. rewrite E. by split.
    + eapply authorized_replace; [done| |by right]. apply Hy.
Qed.
End call.

(** C6: whatever call of the orgs service a caller makes, in any history in
    which no user has more grants in an org than a page of memberships holds
    ([grants_fit]), every membership row it adds, changes or removes belongs
    to the org of the caller's token, and the grants the authorizer knows of
    the caller allow it to grant both the role the row had and the role it
    has, at the scope of the row; every invite it writes likewise.  So nobody
    grants a role above their own, removes a member they could not have
    added, or touches the members of another org.  An invite that goes is of
    the caller's org as well, and either the one a [DeleteInvite] names by
    email and scope or replaced by an invite the caller may write; the role
    it carried is not checked (an Admin may withdraw the invite of an Owner).
    [RegisterOrg], which makes its caller the Owner of a new org, is the
    exception. *)
Theorem member_changes_authorized ctx c s :
  os_reachable s -> grants_fit (os_db s) -> is_uint64 (tc_userID (FromContext ctx)) ->
  (forall n t, c <> CRegisterOrg n t) ->
  changes_authorized ctx c s (run_call ctx c s).2.
Proof. intros Hr%reachable_inv Hfit Hu Hc. by apply authorized_call. Qed.

(** C7: a sign-in registers the user of the email and turns exactly the
    invites pending for the email into grants, each with the org, the project
    and the role of its invite, and removes exactly those invites; an invite
    that expired or that names another email is kept and grants nothing.  A
    user without a grant may get one more, as the Owner of a new org.  The
    org the session starts in is one in which the user has a grant, with the
    role of that grant or the Viewer of a project member. *)
Theorem sign_in_accepts_invites cfg ctx ui s :
  os_reachable s ->
  match signIn cfg ctx ui s with
  | (Err _, s') => od_members (os_db s') = od_members (os_db s) /\
                   od_invites (os_db s') = od_invites (os_db s)
  | (Ok (u, sel), s') => us_Email u = ToLower (ui_Email ui) /\
      invites_accepted u (os_db s) (os_db s') /\
      (forall o, sel = Some o -> role_earned (os_db s') u o)
  end.
Proof. intros Hr%reachable_inv. by apply signIn_rows. Qed.

(** A session is moved only to an org that is active and in which the
    caller, a registered user, has a grant; the role in the token is that of
    the grant at org level, or Viewer when the caller has grants in projects
    of the org only.  Nothing is written. *)
Theorem selected_role_earned ctx reqOrgID s u sel s' :
  os_reachable s -> selectOrgFor ctx reqOrgID s = (Ok (u, sel), s') ->
  os_db s' = os_db s /\ us_ID u = tc_userID (FromContext ctx) /\
  u ∈ od_users (os_db s) /\ parse_id reqOrgID = Some (sl_OrgID sel) /\
  role_earned (os_db s) u sel.
Proof. intros Hr%reachable_inv. by apply selectOrgFor_earned. Qed.
End claims.
