(* ===== verification/OrgExamples.v ===== *)
(** The theorems of the orgs service at a concrete history: a user signs in
    and owns the default org, invites another user, who signs in, and creates
    an API key. *)
From Stdlib Require Import ZArith Lia Ascii.
From stdpp Require Import base list gmap strings pretty relations.
From S2P Require Import Prelude GoStrings Xdb Roles Scopes Tenancy Grants Authorizer Methods Access Model Query Sql Base64 CaDb CaDbClaims Pbconv RowPb TenantScope OrgQuery OrgDb OrgsService SignIn ApiKeys OrgInv OrgInvites OrgLogin OrgChanges OrgHistory OrgGrants OrgSignIn ApiKeyFacts OrgClaims.

(** ** Libraries *)

#[export] Existing Instance example_profile_codec.
#[export] Instance example_limits : XdbLimits :=
  {| xdb_MaxLenForName := 64; xdb_MaxLenForEmail := 160 |}.
#[export] Instance example_collation : Collation := {| text_le := String.leb |}.
#[export] Instance example_random : Random :=
  {| random_string k n := take_str n
       (pos_str (Pos.of_succ_nat k) ++ "aaaaaaaaaaaaaaaaaaaaaaaaaaaaaaaa") |}.
#[export] Instance example_wrap : Porto := {| WrapWithCtx e m := WithMessage e m |}.
#[export] Instance example_clock_text : TimeLib := {| ParseRFC3339 _ := Some 2000%Z |}.
#[export] Instance example_signer : JwtSigner := {| Sign c := Ok (kc_Sub c) |}.

(** The protected text is the text in base64. *)
#[export] Instance example_crypto : KeyCrypto := {|
  ProtectObject n x := Ok (EncodeToString x);
  UnprotectObject p := match DecodeString p with
                       | Some x => Ok x
                       | None => Err (OtherError "unprotect")
                       end;
  certutil_Random k n := pos_str (Pos.of_succ_nat k);
  pbkdf2_Key p salt iter n := (p ++ salt)%string;
  hmac_sha256 k m := (k ++ m)%string;
  xdb_ParseTime _ := 0%Z;
  xdb_TryParseID s := default 0%Z (parse_id s) |}.

Lemma enc6_key n : key_char (enc6 n) = true.
Proof.
  unfold enc6. destruct (nth_in_or_default (N.to_nat n) alphabet "A"%char) as [H| ->];
    [|done].
  assert (forallb key_char alphabet = true) as HF by by vm_compute.
  rewrite forallb_forall in HF. by apply HF.
Qed.

#[export] Instance example_crypto_laws : KeyCryptoLaws.
Proof.
  split; simpl.
  - intros n x p [= <-]. by rewrite DecodeString_EncodeToString.
  - intros n x p [= <-]. clear n. induction x using string_triples; [done|..];
      cbn [EncodeToString all_chars]; by rewrite ?enc6_key, ?IHx.
Qed.

#[export] Instance example_ids_laws : @IdGenLaws example_ids.
Proof. split; simpl; lia. Qed.

(** ** A history *)

Definition example_config : OrgsConfig := mkOrgsConfig "Home" "Main".
Definition example_guest : Context :=
  mkContext (mkIdentity "" "" "" "" None "" [] "" "" "") None [] [].
Definition example_alice : UserInfo := mkUserInfo "a1" "Alice@acme.com" "Alice" 1 "google".
Definition example_bob : UserInfo := mkUserInfo "b1" "bob@acme.com" "Bob" 1 "google".

(** Alice signs in and owns the default org. *)
Definition example_o1 : OrgState :=
  (signIn example_config example_guest example_alice (started 1000)).2.

(** Alice in the default org. *)
Definition example_owner : Context :=
  mkContext (mkIdentity "user" "" "" "jwt" None "" [] "" "" "")
    (Some (mkTrusty 1000 "Alice" "alice@acme.com" 1001 Role_Owner 0 [] "user" "" "" "jwt"))
    [] [].
Definition example_invite : org_call :=
  CAddMember (mkAddMemberReq "bob@acme.com" Role_Admin "").

Definition example_o2 : OrgState := (run_call example_owner example_invite example_o1).2.
Definition example_o3 : OrgState :=
  (signIn example_config example_guest example_bob example_o2).2.

(** Rows that fit a page. *)
Lemma few_members_fit (d : ODb) :
  (Z.of_nat (length (od_members d)) <= DefaultPageSize)%Z -> grants_fit d.
Proof.
  intros Hd o u. etrans; [|exact Hd]. apply inj_le, filter_length_le.
Qed.

Lemma example_o1_reachable : os_reachable example_o1.
Proof. exists 1000%Z. apply rtc_once. apply next_sign_in. Qed.
Lemma example_o2_reachable : os_reachable example_o2.
Proof.
  destruct example_o1_reachable as [now Hr]. exists now. eapply rtc_r; [exact Hr|].
  apply next_org_call, few_members_fit. by vm_compute.
Qed.
Lemma example_o3_reachable : os_reachable example_o3.
Proof.
  destruct example_o2_reachable as [now Hr]. exists now. eapply rtc_r; [exact Hr|].
  apply next_sign_in.
Qed.

(** ** The claims at the history *)

Lemma result_known {S A} (p : result A * S) r : p.1 = r -> p = (r, p.2).
Proof. intros <-. by destruct p. Qed.

Definition example_org : Org :=
  mkOrg 1001 "cp_aaaaaaaaaaaaaaaaaaaaaaaaaaaaa" "Home" "" ItemStatus_Active 1000.

Lemma orgs_keep_an_owner_witness :
  exists m, m ∈ od_members (os_db example_o3) /\ owner_of 1001 m /\
    exists u, u ∈ od_users (os_db example_o3) /\ us_ID u = m_UserID m.
Proof.
  apply (orgs_keep_an_owner example_o3 example_org example_o3_reachable).
  assert (od_orgs (os_db example_o3) = [example_org]) as -> by (by vm_compute).
  by apply list_elem_of_singleton.
Defined.

Lemma member_changes_authorized_witness :
  changes_authorized example_owner example_invite example_o1
    (run_call example_owner example_invite example_o1).2 /\
  od_invites (os_db (run_call example_owner example_invite example_o1).2) <> [].
Proof.
  split; [|by vm_compute].
  apply (member_changes_authorized example_owner example_invite example_o1
    example_o1_reachable).
  - apply few_members_fit. by vm_compute.
  - split; vm_compute; congruence.
  - intros n t. discriminate.
Defined.

Lemma sign_in_accepts_invites_witness :
  match signIn example_config example_guest example_bob example_o2 with
  | (Err _, s') => od_members (os_db s') = od_members (os_db example_o2) /\
                   od_invites (os_db s') = od_invites (os_db example_o2)
  | (Ok (u, sel), s') => us_Email u = ToLower "bob@acme.com" /\
      invites_accepted u (os_db example_o2) (os_db s') /\
      (forall o, sel = Some o -> role_earned (os_db s') u o)
  end /\
  length (od_members (os_db example_o3)) = 2 /\ od_invites (os_db example_o3) = [].
Proof.
  split; [|by vm_compute].
  exact (sign_in_accepts_invites example_config example_guest example_bob example_o2
    example_o2_reachable).
Defined.

Definition example_selection : orgSelection :=
  mkSelection 1001 Role_Owner RoleSource_Direct
    {[ id_string 1001 := "Owner"%string ]}.

Lemma selected_role_earned_witness :
  role_earned (os_db example_o3) (mkUser 1000 "alice@acme.com" false "Alice")
    example_selection.
Proof.
  apply (selected_role_earned example_owner (id_string 1001) example_o3
    (mkUser 1000 "alice@acme.com" false "Alice") example_selection
    (selectOrgFor example_owner (id_string 1001) example_o3).2 example_o3_reachable).
  apply result_known. vm_compute. reflexivity.
Defined.

Definition example_key_request : CreateAPIKeyRequest := mkCreateKey "ci" [] "" "".
Definition example_key : APIKey_pb :=
  match (Orgs_CreateAPIKey example_owner example_key_request example_o3).1 with
  | Ok k => k
  | Err _ => APIKey_Pb (mkAPIKey 0 0 0 "" "" "" [] [] ItemStatus_Unknown 0 0 0 0)
  end.
Definition example_o4 : OrgState :=
  (Orgs_CreateAPIKey example_owner example_key_request example_o3).2.

Lemma created_key_logs_in_witness :
  exists row, od_keys (os_db example_o4) = od_keys (os_db example_o3) ++ [row] /\
    k_OrgID row = 1001%Z /\ k_Scopes row = DefaultAPIKeyScopes /\
    forall caller s2 row2 timestamp token,
      same_key row row2 -> usable (os_db s2) row2 ->
      timely timestamp (od_now (os_db s2)) ->
      Sign (key_claims row2 (od_now (os_db s2))) = Ok token ->
      exists s3, authenticateAPIKey caller (authorization example_key timestamp) timestamp
        s2 = (Ok (token, key_claims row2 (od_now (os_db s2))), s3).
Proof.
  destruct (created_key_logs_in example_owner example_key_request example_o3 example_key
    example_o4) as (row & Hk & Ho & _ & Hs & Hl).
  - split; vm_compute; congruence.
  - split; vm_compute; congruence.
  - unfold example_o4. apply result_known. vm_compute. reflexivity.
  - exists row. by split_and!.
Defined.

(** The key logs in, and what its token was issued for. *)
Lemma key_token_sound_witness :
  exists row secret, row ∈ od_keys (os_db example_o4) /\
    UnprotectObject (k_Secret row) = Ok secret /\
    signed_with secret (authorization example_key "now") "now".
Proof.
  destruct (key_token_sound example_guest (authorization example_key "now") "now"
    example_o4 (id_string 1007)
    (mkKeyClaims (id_string 1001) "APIKey" DefaultAPIKeyScopes "" (id_string 1007)
       (id_string 1007 ++ "+apikey@trustyca.com") "apikey" 3601000)
    (authenticateAPIKey example_guest (authorization example_key "now") "now"
       example_o4).2) as (_ & row & secret & Hin & _ & Hs & Hsig & _).
  - apply result_known. vm_compute. reflexivity.
  - exists row, secret. by split_and!.
Defined.
