(* ===== verification/OrgEvents.v ===== *)
(** The audit events of an org: [server/service/orgs/events.go], the list of
    [internal/db/pgsql/event.go] and [query/event.go], and the messages of
    [internal/db/model/event.go]; and the deletion of an org
    ([internal/db/pgsql/org.go]), which takes its events along.

    The handler reads the projects and the memberships through the authorizer
    of the orgs service and the events of the event table, which the CA
    database has; its state is both. *)
From Stdlib Require Import ZArith Lia.
From stdpp Require Import base list sets gmap strings pretty sorting.
From S2P Require Import Prelude GoStrings Xdb Roles Scopes Tenancy Grants Authorizer Methods Access Model Query Sql CaQuery CaDb CaDbFacts Pbconv RowPb TenantScope OrgQuery OrgDb OrgsService SignIn ApiKeys OrgInv OrgInvites OrgLogin OrgChanges OrgHistory OrgGrants OrgSignIn ApiKeyFacts OrgClaims OrgExamples.

(** ** The query *)

(** [le_ProjectIDs] of [None] is nil; a zero type is [EventType_Unknown]. *)
Record ListEventsRequest := mkListEvents {
  le_OrgID : Z; le_ProjectID : Z; le_ProjectIDs : option (list Z);
  le_After : option Z; le_Before : option Z; le_Type : Z; le_ReferenceID : Z;
  le_Email : string; le_Source : string; le_Limit : Z; le_Offset : Z;
  le_Cursor : Cursor }.

Definition ListEventsRequest_Validate (r : ListEventsRequest) : result unit :=
  Cursor_checkKey (le_Cursor r) keyTime.

Definition eventParams (r : ListEventsRequest) : QueryParams :=
  setVisibleProjects
    (setProjectScope NewQueryParams (le_ProjectID r) Scope_Undefined) (le_ProjectIDs r).

Definition ListEvents_where (r : ListEventsRequest) (e : Event) : bool :=
  idIs (le_OrgID r) (e_OrgID e) &&
  whereProjectScope (eventParams r) (e_ProjectID e) &&
  idIs (le_Type r) (e_Type e) &&
  match le_After r with Some t => (t <=? e_CreatedAt e)%Z | None => true end &&
  match le_Before r with Some t => (e_CreatedAt e <? t)%Z | None => true end &&
  idIs (le_ReferenceID r) (e_ReferenceID e) &&
  textIs (le_Email r) (e_Email e) && textIs (le_Source r) (e_Source e).

Definition timeKey (k : list key_value) : option (Z * Z) :=
  match k with [KTime t; KID id] => Some (t, id) | _ => None end.
Definition eventKey (e : Event) : Z * Z := (e_CreatedAt e, e_ID e).

Section list.
Context `{Xdb}.

(** [eventCursor] *)
Definition eventCursor (k : Z * Z) : string := EncodeTimeCursor k.1 k.2.

Definition listEvents (r : ListEventsRequest) (rows : list Event) : PageResult Event :=
  listRowsBy eventKey newest_le timeKey eventCursor
    (List.filter (ListEvents_where r) rows) (le_Limit r) (le_Offset r) (le_Cursor r).

Definition ListEvents (r : ListEventsRequest) : M Db (PageResult Event) :=
  lift_result (ListEventsRequest_Validate r) ;;;
  select events (fun rows => Ok (listEvents r rows)).
End list.

(** ** Messages *)

Record Event_pb := mkEventPb {
  eb_ID : string; eb_OrgID : string; eb_ProjectID : string; eb_Type : Z;
  eb_Title : string; eb_Description : string; eb_Metadata : Metadata;
  eb_CreatedAt : string; eb_ReferenceID : string; eb_Email : string;
  eb_Source : string }.

Section messages.
Context `{Xdb, ProfileCodec}.

Definition Event_Pb (v : Event) : Event_pb :=
  mkEventPb (id_string (e_ID v)) (id_string (e_OrgID v)) (id_string (e_ProjectID v))
    (e_Type v) (e_Title v) (e_Description v) (FlatMap (e_Metadata v))
    (Time_String (e_CreatedAt v)) (id_string (e_ReferenceID v)) (e_Email v) (e_Source v).

Definition EventResult_Pb (v : PageResult Event) : list Event_pb * option NextPage_pb :=
  (Event_Pb <$> pr_rows v, NextPage v).
End messages.

(** ** The handler *)

(** [pb.ListEventsRequest] *)
Record ListEvents_req := mkListEventsReq {
  ev_ProjectID : string; ev_Type : Z; ev_After : string; ev_Before : string;
  ev_Limit : Z; ev_Cursor : string }.

Section service.
Context `{XL : Xdb, LM : XdbLimits, UC : Unicode, CO : Collation, IG : IdGen, RA : Random}.
Context `{CA : Cache, PO : Porto, PC : ProfileCodec, TL : TimeLib}.

Record EventsState := mkEvents { es_orgs : OrgState; es_db : Db }.

Definition on_orgs {X} (m : M OrgState X) : M EventsState X := fun s =>
  let '(r, o) := m (es_orgs s) in (r, mkEvents o (es_db s)).
(** A call of the database whose failure is wrapped. *)
Definition on_db_events {X} (failure : string) (m : M Db X) : M EventsState X := fun s =>
  let '(r, d) := m (es_db s) in
  (match r with Ok x => Ok x | Err e => Err (WrapWithCtx e failure) end,
   mkEvents (es_orgs s) d).

(** The project of the request, or that of a key restricted to one. *)
Definition keyedProject (tctx : TrustyCtx) (projectID : Z) : result Z :=
  let keyProject := tc_projectID tctx in
  if IsAPIKey tctx && negb (IsZero keyProject) then
    if negb (IsZero projectID) && negb (projectID =? keyProject)%Z
    then Err (Grpc NotFound "project not found") else Ok keyProject
  else Ok projectID.

(** The projects whose events the caller sees with the org-wide ones, nil
    for every project; [None] is a user who sees no event. *)
Definition visibleProjects (ctx : Context) (orgID projectID : Z)
  : M EventsState (option (option (list Z))) :=
  let tctx := FromContext ctx in
  if IsZero projectID && negb (IsAPIKey tctx) then
    let! grants := on_orgs (os_wrapped "failed to resolve access"
      (in_authorizer (authorizer_Grants orgID (tc_userID tctx)))) in
    if CanListAllProjects (Some grants) then ret (Some None)
    else let ids := GrantedProjectIDs (Some grants) in
         ret (if bool_decide (ids = []) then None else Some (Some ids))
  else ret (Some None).

(** [cmp.Or(cursor, query.InitialCursor)]: the list pages by cursor only. *)
Definition orInitial (cursor : string) : string :=
  if bool_decide (cursor = EmptyString) then InitialCursor else cursor.

Definition eventRange (after before : string) : result (option Z * option Z) :=
  match ParseTimeRange after before with
  | Ok range => Ok range
  | Err e => Err (Grpc InvalidArgument (Error e))
  end.

Definition Orgs_ListEvents (ctx : Context) (req : ListEvents_req)
  : M EventsState (list Event_pb * option NextPage_pb) :=
  let! orgID := lift_result (tokenOrg ctx) in
  let! projectID := lift_result (parseOptionalID (ev_ProjectID req) "project ID") in
  let! projectID := lift_result (keyedProject (FromContext ctx) projectID) in
  on_orgs (orgs_getProject orgID projectID) ;;;
  let! range := lift_result (eventRange (ev_After req) (ev_Before req)) in
  let! cursor := lift_result (ListCursor (orInitial (ev_Cursor req)) ParseTimeCursor) in
  let! visible := visibleProjects ctx orgID projectID in
  match visible with
  | None => ret ([], None)
  | Some ids =>
      let! res := on_db_events "failed to list events"
        (ListEvents (mkListEvents orgID projectID ids range.1 range.2 (ev_Type req)
           0 "" "" (Limit (ev_Limit req)) 0 cursor)) in
      ret (EventResult_Pb res)
  end.
End service.

(** ** Deleting an org

    [Provider.DeleteOrg] of [internal/db/pgsql/org.go] deletes from five
    tables; the references of [sql/trustycadb/migrations/1_tables.up.sql]
    delete the rows that lose their org or their project. *)

Section deletion.
Context `{CA : Cache}.

Definition set_od (f : ODb -> ODb) (s : EventsState) : EventsState :=
  mkEvents (mkOs (f (os_db (es_orgs s))) (os_cache (es_orgs s)) (os_emitted (es_orgs s)))
    (es_db s).
Definition keep_events (f : Event -> bool) (s : EventsState) : EventsState :=
  mkEvents (es_orgs s)
    (tab_set events (List.filter f (db_events (es_db s))) (es_db s)).

(** ON DELETE CASCADE of the references to an org. *)
Definition cascadeOrgs (d : ODb) : ODb :=
  let d := ot_set projects
    (List.filter (fun p => org_exists (Tenancy.p_OrgID p) d) (od_projects d)) d in
  let d := ot_set members
    (List.filter (fun m => org_exists (m_OrgID m) d) (od_members d)) d in
  let d := ot_set invites
    (List.filter (fun v => org_exists (v_OrgID v) d) (od_invites d)) d in
  ot_set apikeys (List.filter (fun k => org_exists (k_OrgID k) d) (od_keys d)) d.
(** And of those to a project, [(org_id, project_id)]. *)
Definition cascadeProjects (d : ODb) : ODb :=
  let d := ot_set members
    (List.filter (fun m => project_of (m_OrgID m) (m_ProjectID m) d) (od_members d)) d in
  let d := ot_set invites
    (List.filter (fun v => project_of (v_OrgID v) (v_ProjectID v) d) (od_invites d)) d in
  ot_set apikeys
    (List.filter (fun k => project_of (k_OrgID k) (k_ProjectID k) d) (od_keys d)) d.
(** The events refer to the org and to the project alone. *)
Definition event_refs (d : ODb) (e : Event) : bool :=
  (IsZero (e_OrgID e) || org_exists (e_OrgID e) d) &&
  (IsZero (e_ProjectID e) ||
   bool_decide (e_ProjectID e ∈ (Tenancy.p_ID <$> od_projects d))).
Definition cascadeEvents (s : EventsState) : EventsState :=
  keep_events (event_refs (os_db (es_orgs s))) s.

(** DELETE FROM a table: the count and the state. *)
Definition deleteFrom {R} (t : OTable R) (f : R -> bool) (cascade : ODb -> ODb)
    (s : EventsState) : Z * EventsState :=
  let '(n, l) := delete_rows f (ot_rows t (os_db (es_orgs s))) in
  (n, cascadeEvents (set_od (fun d => cascade (ot_set t l d)) s)).
Definition deleteEvents (id : Z) (s : EventsState) : Z * EventsState :=
  let of_org e := negb (IsZero (e_OrgID e)) && (e_OrgID e =? id)%Z in
  (Z.of_nat (length (List.filter of_org (db_events (es_db s)))),
   keep_events (fun e => negb (of_org e)) s).

(** The keys of the orgs and projects the references of the CA tables see. *)
Definition sync_refs (s : EventsState) : EventsState :=
  let d := os_db (es_orgs s) in let db := es_db s in
  mkEvents (es_orgs s)
    (mkDb (db_now db) (db_seq db) (o_ID <$> od_orgs d) (Tenancy.p_ID <$> od_projects d)
       (db_roots db) (db_issuers db) (db_profiles db) (db_certificates db)
       (db_revoked db) (db_crls db) (db_events db)).

Definition Provider_DeleteOrg (id : Z) : M EventsState (list (string * Z)) := fun s =>
  let '(ne, s) := deleteEvents id s in
  let '(nv, s) := deleteFrom invites (fun v => (v_OrgID v =? id)%Z) (fun d => d) s in
  let '(nm, s) := deleteFrom members (fun m => (m_OrgID m =? id)%Z) (fun d => d) s in
  let '(np, s) := deleteFrom projects (fun p => (Tenancy.p_OrgID p =? id)%Z)
                    cascadeProjects s in
  let '(no, s) := deleteFrom orgs (fun o => (o_ID o =? id)%Z)
                    (fun d => cascadeProjects (cascadeOrgs d)) s in
  (Ok [("trustyca.event", ne); ("trustyca.invite", nv); ("trustyca.membership", nm);
       ("trustyca.project", np); ("org", no)]%string, sync_refs s).
End deletion.

(** ** What a caller sees *)

Section sees.
Context `{XL : Xdb, TL : TimeLib}.

(** The project the request is about: that of a key restricted to one, which
    may name no other, or the one it names. *)
Definition asks_for (ctx : Context) (req : ListEvents_req) (p : Z) : Prop :=
  let t := FromContext ctx in
  exists q, parseOptionalID (ev_ProjectID req) "project ID" = Ok q /\
    if decide (IsAPIKey t = true /\ tc_projectID t <> 0%Z)
    then p = tc_projectID t /\ (q = 0%Z \/ q = p) else p = q.

Lemma keyedProject_asks t q p :
  keyedProject t q = Ok p <->
  if decide (IsAPIKey t = true /\ tc_projectID t <> 0%Z)
  then p = tc_projectID t /\ (q = 0%Z \/ q = p) else p = q.
Proof.
  unfold keyedProject, IsZero. destruct (decide _) as [[-> Hz]|Hn].
  - rewrite (proj2 (Z.eqb_neq _ _) Hz). simpl.
    destruct (Z.eqb_spec q 0), (Z.eqb_spec q (tc_projectID t)); simpl; naive_solver congruence.
  - assert (IsAPIKey t && negb (tc_projectID t =? 0)%Z = false) as ->; [|naive_solver].
    destruct (IsAPIKey t); [|done]. destruct (Z.eqb_spec (tc_projectID t) 0); naive_solver.
Qed.

(** The event is of the selected org, and of the project asked for; without
    one, a key of the org sees every event and a user those at the scopes it
    has a role at. *)
Definition caller_sees (v : AzView) (ctx : Context) (p : Z) (e : Event) : Prop :=
  let t := FromContext ctx in
  e_OrgID e = tc_orgID t /\
  if decide (p = 0%Z) then
    IsAPIKey t = true \/
    exists g, view_Grants v (tc_orgID t) (tc_userID t) = Ok g /\
      HasProjectAccess (Some g) (e_ProjectID e) = true
  else e_ProjectID e = p.

Definition in_bound (val : string) (inside : Z -> Prop) : Prop :=
  val = EmptyString \/ exists t, ParseRFC3339 val = Some t /\ inside t.
(** The event passes the filters of the request. *)
Definition asked_event (req : ListEvents_req) (e : Event) : Prop :=
  (ev_Type req = 0%Z \/ e_Type e = ev_Type req) /\
  in_bound (ev_After req) (fun t => (t <= e_CreatedAt e)%Z) /\
  in_bound (ev_Before req) (fun t => (e_CreatedAt e < t)%Z).

Definition with_cursor (c : string) (req : ListEvents_req) : ListEvents_req :=
  mkListEventsReq (ev_ProjectID req) (ev_Type req) (ev_After req) (ev_Before req)
    (ev_Limit req) c.
End sees.

(** ** Computations settled by an invariant *)

(** In every state of [I] the computation answers [r] and keeps [I]. *)
Definition settles {S A} (I : S -> Prop) (m : M S A) (r : result A) : Prop :=
  forall s, I s -> (m s).1 = r /\ I (m s).2.

Section settles.
Context {S : Type} (I : S -> Prop).

Lemma settles_ret {A} (a : A) : settles I (ret a) (Ok a).
Proof. by intros s Hs. Qed.
Lemma settles_lift {A} (r : result A) : settles I (lift_result r) r.
Proof. by intros s Hs. Qed.
Lemma settles_bind {A B} (m : M S A) (k : A -> M S B) r f :
  settles I m r -> (forall a, settles I (k a) (f a)) ->
  settles I (bind m k) (result_bind r f).
Proof.
  intros Hm Hk s Hs. destruct (Hm s Hs) as [E1 E2]. unfold bind.
  destruct (m s) as [[a|e] s']; simpl in *; subst; simpl; [by apply Hk|done].
Qed.
Lemma settles_catch {A B} (m : M S A) (k : result A -> M S B) r q :
  settles I m r -> settles I (k r) q -> settles I (catch m k) q.
Proof.
  intros Hm Hk s Hs. destruct (Hm s Hs) as [E1 E2]. unfold catch.
  destruct (m s) as [r' s']; simpl in *; subst. by apply Hk.
Qed.
Lemma settles_bind_lift {A B} (r : result A) (k : A -> M S B) f :
  (forall a, r = Ok a -> settles I (k a) (f a)) ->
  settles I (bind (lift_result r) k) (result_bind r f).
Proof.
  intros Hk s Hs. unfold bind, lift_result. destruct r as [a|e]; [by apply Hk|done].
Qed.
Lemma settles_fail {A} e : settles I (@fail S A e) (Err e).
Proof. by intros s Hs. Qed.
End settles.

(** ** The answer of the handler *)

Section answer.
Context `{XL : Xdb, LM : XdbLimits, UC : Unicode, CO : Collation, IG : IdGen, RA : Random}.
Context `{CA : Cache, PO : Porto, PC : ProfileCodec, TL : TimeLib}.
Context {XLL : @XdbLaws XL} {CL : @CacheLaws CA} {CN : @CacheNoEviction CA}.

(** The database of the orgs, the events emitted and the event table are
    those, and the authorizer knows the view. *)
Definition at_events (d : ODb) (out : list Event) (db : Db) (v : AzView)
    (s : EventsState) : Prop :=
  at_view d v (es_orgs s) /\ os_emitted (es_orgs s) = out /\ es_db s = db.

Lemma at_events_start s :
  at_events (os_db (es_orgs s)) (os_emitted (es_orgs s)) (es_db s)
    (service_view (es_orgs s)) s.
Proof. split; [apply at_view_start|done]. Qed.

(** A wrapped result. *)
Definition wrap_result {X} (failure : string) (r : result X) : result X :=
  match r with Ok x => Ok x | Err e => Err (WrapWithCtx e failure) end.

(** What the handler answers when the authorizer knows the view. *)
Definition projectAnswer (v : AzView) (orgID p : Z) : result unit :=
  if (p =? 0)%Z then Ok tt
  else match view_Project v orgID p with
       | Ok _ => Ok tt
       | Err e => if errors_Is e ErrAccessDenied
                  then Err (Grpc NotFound "project not found")
                  else Err (WrapWithCtx e "unable to find project")
       end.
Definition visibleAnswer (v : AzView) (ctx : Context) (orgID p : Z)
  : result (option (option (list Z))) :=
  let t := FromContext ctx in
  if IsZero p && negb (IsAPIKey t) then
    let? g := wrap_result "failed to resolve access" (view_Grants v orgID (tc_userID t)) in
    Ok (if CanListAllProjects (Some g) then Some None
        else let ids := GrantedProjectIDs (Some g) in
             if bool_decide (ids = []) then None else Some (Some ids))
  else Ok (Some None).
Definition pageAnswer (db : Db) (orgID p : Z) (range : option Z * option Z)
    (req : ListEvents_req) (cursor : Cursor) (visible : option (option (list Z)))
  : list Event_pb * option NextPage_pb :=
  match visible with
  | None => ([], None)
  | Some ids => EventResult_Pb (listEvents (mkListEvents orgID p ids range.1 range.2
      (ev_Type req) 0 "" "" (Limit (ev_Limit req)) 0 cursor) (db_events db))
  end.

Definition eventsAnswer (v : AzView) (db : Db) (ctx : Context) (req : ListEvents_req)
  : result (list Event_pb * option NextPage_pb) :=
  let? orgID := tokenOrg ctx in
  let? q := parseOptionalID (ev_ProjectID req) "project ID" in
  let? p := keyedProject (FromContext ctx) q in
  let? _ := projectAnswer v orgID p in
  let? range := eventRange (ev_After req) (ev_Before req) in
  let? cursor := ListCursor (orInitial (ev_Cursor req)) ParseTimeCursor in
  let? visible := visibleAnswer v ctx orgID p in
  Ok (pageAnswer db orgID p range req cursor visible).

Context (d : ODb) (out : list Event) (db : Db) (v : AzView).
Local Notation at_ := (at_events d out db v).
Local Notation osettles m r :=
  (settles (fun o => at_view d v o /\ os_emitted o = out) m r).

Lemma authorizer_settles {X} (m : M AzState X) r :
  answers state_view v m r -> cache_only m -> osettles (in_authorizer m) r.
Proof.
  intros Ha Hc s [Hd Ho].
  destruct (in_authorizer_answers d v m r Ha Hc s Hd) as [Hd' _].
  split; [|split; [done|]]; revert Hd'; unfold in_authorizer; set (a := mkAz _ _ _);
    intros _; destruct Hd as [_ Hv].
  - destruct (Ha a Hv) as [E _]. by destruct (m a).
  - by destruct (m a).
Qed.

Lemma on_orgs_settles {X} (m : M OrgState X) r :
  osettles m r -> settles at_ (on_orgs m) r.
Proof.
  intros Hm s (Hv & Ho & Hd). unfold on_orgs. destruct (Hm _ (conj Hv Ho)) as [E [Hv' Ho']].
  by destruct (m (es_orgs s)).
Qed.

Lemma getProject_settles orgID p :
  is_uint64 p ->
  exists r, osettles (orgs_getProject orgID p) r /\
    (let? _ := r in Ok tt) = projectAnswer v orgID p.
Proof.
  intros Hp. unfold orgs_getProject, projectAnswer.
  destruct (p =? 0)%Z; [exists (Ok None); split; [apply settles_ret|done]|].
  pose proof (authorizer_settles _ _ (authorizer_Project_view v orgID p Hp)
    (Project_cache orgID p)) as Hs.
  destruct (view_Project v orgID p) as [x|e].
  - exists (Ok (Some x)). split; [|done]. eapply settles_catch; [done|apply settles_ret].
  - destruct (errors_Is e ErrAccessDenied) eqn:E; eexists;
      (split; [eapply settles_catch; [done|]; simpl; rewrite E; apply settles_fail|done]).
Qed.

Lemma visible_settles ctx orgID p :
  is_uint64 (tc_userID (FromContext ctx)) ->
  settles at_ (visibleProjects ctx orgID p) (visibleAnswer v ctx orgID p).
Proof.
  intros Hu. unfold visibleProjects, visibleAnswer.
  destruct (_ && _); [|apply settles_ret].
  pose proof (authorizer_settles _ _ (authorizer_Grants_view v orgID _ Hu)
    (Grants_cache orgID _)) as Hs.
  eapply settles_bind.
  - apply on_orgs_settles. unfold os_wrapped. eapply settles_catch; [exact Hs|].
    destruct (view_Grants v orgID _); [apply settles_ret|apply settles_fail].
  - intros g. destruct (CanListAllProjects _); apply settles_ret.
Qed.

Lemma ListCursor_time cursor c :
  ListCursor cursor ParseTimeCursor = Ok c -> Cursor_checkKey c keyTime = Ok tt.
Proof.
  unfold ListCursor, ParseTimeCursor, decodeCursor, keyCursor. intros E.
  repeat case_match; by simplify_eq/=.
Qed.

Lemma keyedProject_id t q p :
  is_uint64 (tc_projectID t) -> is_uint64 q -> keyedProject t q = Ok p -> is_uint64 p.
Proof. unfold keyedProject. intros Ht Hq E. repeat case_match; by simplify_eq. Qed.

Lemma parseOptionalID_id val what q :
  parseOptionalID val what = Ok q -> is_uint64 q.
Proof.
  unfold parseOptionalID. case_bool_decide; [by intros [= <-]|].
  destruct (parse_id val) eqn:E; [|done]. intros [= <-]. by apply parse_id_range in E.
Qed.

Lemma events_settles failure q :
  settles at_ (on_db_events failure (ListEvents q))
    (wrap_result failure (let? _ := ListEventsRequest_Validate q in
                          Ok (listEvents q (db_events db)))).
Proof.
  intros s (Hv & Ho & Hd). unfold on_db_events, ListEvents, bind, lift_result, select.
  destruct (ListEventsRequest_Validate q); simpl; by rewrite Hd.
Qed.

Lemma Orgs_ListEvents_settles ctx req :
  is_uint64 (tc_userID (FromContext ctx)) ->
  is_uint64 (tc_projectID (FromContext ctx)) ->
  settles at_ (Orgs_ListEvents ctx req) (eventsAnswer v db ctx req).
Proof.
  intros Hu Hk. unfold Orgs_ListEvents, eventsAnswer.
  eapply settles_bind; [apply settles_lift|]. intros orgID.
  eapply settles_bind_lift. intros q Eq.
  eapply settles_bind_lift. intros p Ep.
  destruct (getProject_settles orgID p) as (r & Hr & <-);
    [eauto using keyedProject_id, parseOptionalID_id|].
  replace (let? _ := (let? _ := r in Ok tt) in _) with (let? _ := r in
    let? range := eventRange (ev_After req) (ev_Before req) in
    let? cursor := ListCursor (orInitial (ev_Cursor req)) ParseTimeCursor in
    let? visible := visibleAnswer v ctx orgID p in
    Ok (pageAnswer db orgID p range req cursor visible)) by (by destruct r).
  eapply settles_bind; [by apply on_orgs_settles|]. intros _.
  eapply settles_bind; [apply settles_lift|]. intros range.
  eapply settles_bind_lift. intros c Ec.
  eapply settles_bind; [by apply visible_settles|]. intros [ids|]; [|apply settles_ret].
  set (rq := mkListEvents _ _ _ _ _ _ _ _ _ _ _ _).
  change (Ok (pageAnswer db orgID p range req c (Some ids)))
    with (let? res := Ok (listEvents rq (db_events db)) in Ok (EventResult_Pb res)).
  eapply settles_bind; [|intros res; apply settles_ret].
  pose proof (events_settles "failed to list events" rq) as He.
  unfold ListEventsRequest_Validate in He. cbn [le_Cursor rq] in He.
  by rewrite (ListCursor_time _ _ Ec) in He.
Qed.
End answer.

(** ** The rows of the answer *)

Section rows.
Context `{XL : Xdb, LM : XdbLimits, UC : Unicode, CO : Collation, IG : IdGen, RA : Random}.
Context `{CA : Cache, PO : Porto, PC : ProfileCodec, TL : TimeLib}.
Context {XLL : @XdbLaws XL} {CL : @CacheLaws CA} {CN : @CacheNoEviction CA}.

(** A user has a role at a scope when it has one org-wide, or has a grant in
    a project and the scope is the org or such a project. *)
Lemma HasProjectAccess_grants g pid :
  HasProjectAccess (Some g) pid = true <->
  CanListAllProjects (Some g) = true \/
  GrantedProjectIDs (Some g) <> [] /\ (pid = 0%Z \/ pid ∈ GrantedProjectIDs (Some g)).
Proof.
  assert (forall x, x ∈ GrantedProjectIDs (Some g) <-> is_Some (g_ProjectRoles g !! x))
    as Hin.
  { intros x. simpl. rewrite merge_sort_Permutation, list_elem_of_fmap. split.
    - intros ([y r] & -> & Hy%elem_of_map_to_list). by exists r.
    - intros [r Hr]. exists (x, r). by rewrite elem_of_map_to_list. }
  assert (GrantedProjectIDs (Some g) = [] <-> g_ProjectRoles g = ∅) as Hnil.
  { split.
    - intros E. apply map_empty. intros x. apply eq_None_not_Some.
      rewrite <-Hin, E. apply not_elem_of_nil.
    - intros E. simpl. by rewrite E. }
  rewrite Hnil, Hin. unfold HasProjectAccess, CanListAllProjects, Grants_Roles.
  rewrite Z.eqb_sym. simpl ResolvedOrgRole.
  rewrite bool_decide_eq_true, Nat.ltb_lt.
  destruct (Z.eqb_spec 0 pid) as [<-|Hp].
  - case_bool_decide as Ho; [rewrite bool_decide_true by done; simpl; split; [auto|lia]|].
    destruct (Nat.ltb_spec 0 (size (g_ProjectRoles g))) as [Hs|Hs]; simpl.
    + split; [|lia]. intros _. right. split; [|by left].
      intros E. rewrite E, map_size_empty in Hs. lia.
    + split; [lia|]. intros [?|[Hne _]]; [done|]. destruct Hne.
      apply map_size_empty_inv. lia.
  - rewrite length_app. case_bool_decide as Ho; simpl; [split; [auto|lia]|].
    destruct (g_ProjectRoles g !! pid) as [r|] eqn:E; simpl.
    + split; [|lia]. intros _. right. split; [|by right; exists r].
      intros E'. by rewrite E' in E.
    + split; [lia|]. intros [?|[_ [?|[r Hr]]]]; done.
Qed.

Lemma in_bound_spec what val o (inside : Z -> Prop) (t : option Z -> bool) :
  parseBound what val = Ok o -> t None = true ->
  (forall x, t (Some x) = true <-> inside x) ->
  (t o = true <-> in_bound val inside).
Proof.
  unfold parseBound, in_bound. intros E Hn Hs. case_bool_decide as Hv.
  - injection E as <-. rewrite Hn. by split; [left|].
  - destruct (ParseRFC3339 val) as [x|] eqn:Ex; [|done]. injection E as <-.
    rewrite Hs. naive_solver.
Qed.

Lemma ParseTimeRange_bounds after before r :
  eventRange after before = Ok r ->
  parseBound "After" after = Ok r.1 /\ parseBound "Before" before = Ok r.2.
Proof.
  unfold eventRange, ParseTimeRange. intros E.
  destruct (parseBound "After" after) as [x|]; [|done].
  destruct (parseBound "Before" before) as [y|]; [|done]. simpl in E.
  repeat case_match; by simplify_eq/=.
Qed.

(** The request of the handler selects the events the caller sees and asks
    for. *)
Lemma handler_where v ctx req orgID p range limit c ids e :
  tokenOrg ctx = Ok orgID -> eventRange (ev_After req) (ev_Before req) = Ok range ->
  (forall g, view_Grants v orgID (tc_userID (FromContext ctx)) = Ok g ->
     Forall is_row_id (GrantedProjectIDs (Some g))) ->
  visibleAnswer v ctx orgID p = Ok (Some ids) ->
  ListEvents_where (mkListEvents orgID p ids range.1 range.2 (ev_Type req) 0 "" ""
    limit 0 c) e = true
  <-> caller_sees v ctx p e /\ asked_event req e.
Proof.
  unfold tokenOrg. destruct (Z.eqb_spec (tc_orgID (FromContext ctx)) 0) as [|Ho]; [done|].
  intros [= <-] [Ha Hb]%ParseTimeRange_bounds Hg Hv.
  assert (whereProjectScope (eventParams (mkListEvents (tc_orgID (FromContext ctx)) p ids
      range.1 range.2 (ev_Type req) 0 "" "" limit 0 c)) (e_ProjectID e) = true <->
    (if decide (p = 0%Z) then
       IsAPIKey (FromContext ctx) = true \/
       exists g, view_Grants v (tc_orgID (FromContext ctx)) (tc_userID (FromContext ctx))
                 = Ok g /\ HasProjectAccess (Some g) (e_ProjectID e) = true
     else e_ProjectID e = p)) as Hp.
  { change (eventParams _) with (listParams 0 false p Scope_Undefined ids).
    unfold visibleAnswer, wrap_result, IsZero in Hv.
    destruct (Z.eqb_spec p 0) as [->|Hp]; cycle 1.
    { simpl in Hv. injection Hv as <-. rewrite whereProjectScope_list by done.
      unfold project_selected. by rewrite !decide_False by done. }
    rewrite decide_True by done. destruct (IsAPIKey (FromContext ctx)) eqn:Ek; simpl in Hv.
    { injection Hv as <-. rewrite whereProjectScope_list by done.
      unfold project_selected. rewrite decide_True by done. by split; [left|]. }
    destruct (view_Grants v _ _) as [g|] eqn:Eg; [|done]. simpl in Hv.
    specialize (Hg g eq_refl). injection Hv as Hv.
    rewrite whereProjectScope_list; cycle 1.
    { intros l ->. destruct (bool_decide (_ <> Role_None)); [done|].
      case_bool_decide; [done|]. by injection Hv as <-. }
    unfold project_selected. rewrite decide_True by done.
    destruct (bool_decide (g_OrgRole g <> Role_None)) eqn:Er.
    { injection Hv as <-. split; [|done]. intros _. right. exists g.
      rewrite HasProjectAccess_grants. by split; [|left]. }
    case_bool_decide as En; [done|]. injection Hv as <-. split.
    - intros Hs. right. exists g. split; [done|]. apply HasProjectAccess_grants. by right.
    - intros [?|(g' & [= <-] & [Hc|[_ Hs]]%HasProjectAccess_grants)]; [done| |done].
      simpl in Hc. by rewrite Er in Hc. }
  unfold ListEvents_where, caller_sees, asked_event. cbn [le_OrgID le_Type le_After
    le_Before le_ReferenceID le_Email le_Source].
  rewrite !andb_true_iff, Hp, idIs_nonzero, Z.eqb_eq by done.
  rewrite (in_bound_spec "After" (ev_After req) range.1 (fun t => (t <= e_CreatedAt e)%Z)
      (fun o => match o with Some t => (t <=? e_CreatedAt e)%Z | None => true end));
    [|done..|intros x; apply Z.leb_le].
  rewrite (in_bound_spec "Before" (ev_Before req) range.2 (fun t => (e_CreatedAt e < t)%Z)
      (fun o => match o with Some t => (e_CreatedAt e <? t)%Z | None => true end));
    [|done..|intros x; apply Z.ltb_lt].
  unfold idIs, textIs. rewrite orb_true_iff, !Z.eqb_eq. simpl. naive_solver.
Qed.

Lemma visible_none v ctx orgID p pid :
  visibleAnswer v ctx orgID p = Ok None ->
  p = 0%Z /\ IsAPIKey (FromContext ctx) = false /\
  exists g, view_Grants v orgID (tc_userID (FromContext ctx)) = Ok g /\
    HasProjectAccess (Some g) pid = false.
Proof.
  unfold visibleAnswer, wrap_result, IsZero. intros Hv.
  destruct (Z.eqb_spec p 0) as [->|]; [|done]. destruct (IsAPIKey _); [done|].
  cbn [negb andb] in Hv. destruct (view_Grants v _ _) as [g|] eqn:Eg; [|done].
  cbn [result_bind] in Hv. split_and!; [done..|]. exists g. split; [done|].
  apply not_true_iff_false. intros [Hc|[Hn _]]%HasProjectAccess_grants.
  - by rewrite Hc in Hv.
  - cbv zeta in Hv. rewrite (bool_decide_false (_ = [])) in Hv by done. by case_match.
Qed.
End rows.

(** ** Reading the audit trail *)

Lemma newest_le_total a b : newest_le a b = true \/ newest_le b a = true.
Proof.
  unfold newest_le. destruct (Z.eqb_spec a.1 b.1) as [E|E]; [rewrite E, Z.eqb_refl; lia|].
  rewrite (proj2 (Z.eqb_neq b.1 a.1)) by congruence. lia.
Qed.
Lemma newest_le_trans a b c :
  newest_le a b = true -> newest_le b c = true -> newest_le a c = true.
Proof.
  unfold newest_le.
  destruct (Z.eqb_spec a.1 b.1), (Z.eqb_spec b.1 c.1), (Z.eqb_spec a.1 c.1); lia.
Qed.
Lemma newest_le_antisym a b : newest_le a b = true -> newest_le b a = true -> a = b.
Proof.
  unfold newest_le. destruct a as [x i], b as [y j]. simpl.
  destruct (Z.eqb_spec x y), (Z.eqb_spec y x); intros; try lia. f_equal; lia.
Qed.

Section trail.
Context `{XL : Xdb, LM : XdbLimits, UC : Unicode, CO : Collation, IG : IdGen, RA : Random}.
Context `{CA : Cache, PO : Porto, PC : ProfileCodec, TL : TimeLib}.
Context {XLL : @XdbLaws XL} {CL : @CacheLaws CA} {CN : @CacheNoEviction CA}.

Definition eventKeys (k : Z * Z) : list key_value := [KTime k.1; KID k.2].
Definition eventParse (cursor : string) : result Cursor :=
  ListCursor (orInitial cursor) ParseTimeCursor.

Lemma eventParse_cursor e :
  e_ID e <> 0%Z ->
  eventParse (eventCursor (eventKey e)) =
  Ok (mkCursor true keyTime (Some (eventKeys (eventKey e)))).
Proof.
  intros Hid. unfold eventParse, ListCursor, ParseTimeCursor, orInitial, decodeCursor,
    eventCursor, EncodeTimeCursor, eventKeys, eventKey. simpl.
  destruct (cursor_token_reserved [KTime (e_CreatedAt e); KID (e_ID e)]) as [He Hi];
    [done|].
  rewrite !(bool_decide_false (cursor_token _ = EmptyString)) by done.
  rewrite bool_decide_false by done. rewrite cursor_scan_token by done.
  unfold keyCursor. by rewrite (proj2 (Z.eqb_neq _ _) Hid).
Qed.

(** What an answered request went through. *)
Record events_answered (v : AzView) (ctx : Context) (req : ListEvents_req)
    (orgID p : Z) (range : option Z * option Z) (visible : option (option (list Z)))
  : Prop := {
  an_org : tokenOrg ctx = Ok orgID;
  an_asks : asks_for ctx req p;
  an_project : projectAnswer v orgID p = Ok tt;
  an_range : eventRange (ev_After req) (ev_Before req) = Ok range;
  an_visible : visibleAnswer v ctx orgID p = Ok visible }.

Lemma eventsAnswer_inv v db ctx req page :
  eventsAnswer v db ctx req = Ok page ->
  exists orgID p range visible cursor, events_answered v ctx req orgID p range visible /\
    eventParse (ev_Cursor req) = Ok cursor /\
    page = pageAnswer db orgID p range req cursor visible.
Proof.
  unfold eventsAnswer. intros E.
  destruct (tokenOrg ctx) as [orgID|] eqn:E1; [|done].
  destruct (parseOptionalID _ _) as [q|] eqn:E2; [|done].
  simpl in E. destruct (keyedProject _ q) as [p|] eqn:E3; [|done].
  simpl in E. destruct (projectAnswer v orgID p) as [[]|] eqn:E4; [|done].
  simpl in E. destruct (eventRange _ _) as [range|] eqn:E5; [|done].
  simpl in E. destruct (ListCursor _ _) as [c|] eqn:E6; [|done].
  simpl in E. destruct (visibleAnswer v ctx orgID p) as [vis|] eqn:E7; [|done].
  injection E as <-. exists orgID, p, range, vis, c. split; [|done].
  split; try done. exists q. split; [done|]. by apply keyedProject_asks.
Qed.

Lemma eventsAnswer_run v db ctx req orgID p range visible cursor :
  events_answered v ctx req orgID p range visible -> eventParse (ev_Cursor req) = Ok cursor ->
  eventsAnswer v db ctx req = Ok (pageAnswer db orgID p range req cursor visible).
Proof.
  intros [E1 (q & E2 & E3%keyedProject_asks) E4 E5 E6] E7. unfold eventsAnswer, eventParse in *.
  rewrite E1. simpl. rewrite E2. simpl. rewrite E3. simpl. rewrite E4. simpl.
  rewrite E5. simpl. rewrite E7. simpl. by rewrite E6.
Qed.

(** The projects the caller has a grant in, as the authorizer knows, have IDs
    of rows. *)
Definition granted_rows (v : AzView) (ctx : Context) : Prop :=
  forall g, view_Grants v (tc_orgID (FromContext ctx)) (tc_userID (FromContext ctx)) = Ok g ->
    Forall is_row_id (GrantedProjectIDs (Some g)).

Lemma tokenOrg_org ctx orgID : tokenOrg ctx = Ok orgID -> orgID = tc_orgID (FromContext ctx).
Proof. unfold tokenOrg. case_match; by intros [= ->]. Qed.

Lemma projectAnswer_active v ctx orgID p :
  tokenOrg ctx = Ok orgID -> projectAnswer v orgID p = Ok tt -> p <> 0%Z ->
  exists x, view_Project v (tc_orgID (FromContext ctx)) p = Ok x.
Proof.
  intros ->%tokenOrg_org Hp Hz. unfold projectAnswer in Hp.
  rewrite (proj2 (Z.eqb_neq _ _) Hz) in Hp.
  destruct (view_Project _ _ _) as [x|]; [by exists x|by case_match].
Qed.

(** The events of the answer, all pages, and those of a page. *)
Definition answer_rows (db : Db) (orgID p : Z) (range : option Z * option Z)
    (req : ListEvents_req) (visible : option (option (list Z))) : list Event :=
  match visible with
  | None => []
  | Some ids => List.filter (ListEvents_where (mkListEvents orgID p ids range.1 range.2
      (ev_Type req) 0 "" "" (Limit (ev_Limit req)) 0 zeroCursor)) (db_events db)
  end.

Lemma answer_rows_seen v db ctx req orgID p range visible e :
  events_answered v ctx req orgID p range visible -> granted_rows v ctx ->
  e ∈ answer_rows db orgID p range req visible <->
  e ∈ db_events db /\ caller_sees v ctx p e /\ asked_event req e.
Proof.
  intros [Eo Ha Hp Er Ev] Hg. pose proof (tokenOrg_org _ _ Eo) as ->.
  destruct visible as [ids|]; simpl.
  - rewrite filter_elem, (handler_where v ctx) by done. done.
  - destruct (visible_none _ _ _ _ (e_ProjectID e) Ev) as (-> & Hk & g & Eg & Hn).
    split; [by intros ?%not_elem_of_nil|]. unfold caller_sees. rewrite Hk, decide_True by done.
    intros (_ & (_ & [?|(g' & Eg' & Ha')]) & _); [done|]. congruence.
Qed.

Lemma pageAnswer_rows db orgID p range req cursor visible :
  cur_set cursor = true ->
  pageAnswer db orgID p range req cursor visible =
  EventResult_Pb (listRowsBy eventKey newest_le timeKey eventCursor
    (answer_rows db orgID p range req visible) (Limit (ev_Limit req)) 0 cursor).
Proof.
  intros Hc. destruct visible as [ids|]; [done|]. simpl. unfold EventResult_Pb, listRowsBy.
  assert (pageBy eventKey newest_le timeKey [] (Limit (Limit (ev_Limit req))) 0 cursor = [])
    as ->.
  { unfold pageBy. rewrite Hc. change (orderBy eventKey newest_le []) with (@nil Event).
    destruct (cur_key cursor); apply take_nil. }
  rewrite Hc. unfold NextPage. cbn [pr_hasNext pr_rows].
  destruct (has_next _ _) eqn:E; [|done]. by apply has_next_progress in E.
Qed.

Lemma eventParse_set s c : eventParse s = Ok c -> cur_set c = true.
Proof.
  unfold eventParse, ListCursor, ParseTimeCursor, orInitial. intros E.
  assert ((if bool_decide (s = EmptyString) then InitialCursor else s) <> EmptyString) as Hs
    by by case_bool_decide.
  revert E Hs. generalize (if bool_decide (s = EmptyString) then InitialCursor else s).
  intros t E Ht. unfold decodeCursor in E. rewrite bool_decide_false in E by done.
  unfold keyCursor, NewCursor in E. repeat case_match; by simplify_eq/=.
Qed.
End trail.

(** ** The claims *)

Section claims.
Context `{XL : Xdb, LM : XdbLimits, UC : Unicode, CO : Collation, IG : IdGen, RA : Random}.
Context `{CA : Cache, PO : Porto, PC : ProfileCodec, TL : TimeLib}.
Context {XLL : @XdbLaws XL} {CL : @CacheLaws CA} {CN : @CacheNoEviction CA}.

(** The numbers of the context are unsigned and the event rows have IDs. *)
Record events_sound (ctx : Context) (s : EventsState) : Prop := {
  es_user : is_uint64 (tc_userID (FromContext ctx));
  es_project : is_uint64 (tc_projectID (FromContext ctx));
  es_granted : granted_rows (service_view (es_orgs s)) ctx;
  es_unique : uniques_hold event_uniques (db_events (es_db s));
  es_ids e : e ∈ db_events (es_db s) -> e_ID e <> 0%Z }.

Lemma event_keys_unique (f : Event -> bool) rows :
  uniques_hold event_uniques rows -> NoDup (eventKey <$> List.filter f rows).
Proof.
  intros Hu%Forall_inv. apply (NoDup_fmap_1 snd). rewrite <-list_fmap_compose.
  by apply (NoDup_fmap_filter e_ID).
Qed.

Lemma ListEvents_at_state ctx req s :
  events_sound ctx s ->
  (Orgs_ListEvents ctx req s).1 =
    eventsAnswer (service_view (es_orgs s)) (es_db s) ctx req /\
  at_events (os_db (es_orgs s)) (os_emitted (es_orgs s)) (es_db s)
    (service_view (es_orgs s)) (Orgs_ListEvents ctx req s).2.
Proof.
  intros [Hu Hk _ _ _]. by apply Orgs_ListEvents_settles; [..|apply at_events_start].
Qed.

Lemma answered_cursor v ctx req c orgID p range visible :
  events_answered v ctx (with_cursor c req) orgID p range visible <->
  events_answered v ctx req orgID p range visible.
Proof. split; intros []; by split. Qed.

Lemma trail_read ctx req s first :
  events_sound ctx s -> (0 <= ev_Limit req)%Z ->
  (Orgs_ListEvents ctx (with_cursor EmptyString req) s).1 = Ok first ->
  exists p all, asks_for ctx req p /\
    (p <> 0%Z -> exists x,
       view_Project (service_view (es_orgs s)) (tc_orgID (FromContext ctx)) p = Ok x) /\
    readAll (fun c => Orgs_ListEvents ctx (with_cursor c req))
      (S (length (db_events (es_db s)))) InitialCursor s = Some (Ok (Event_Pb <$> all)) /\
    in_key_order eventKey newest_le all /\
    forall e, e ∈ all <-> e ∈ db_events (es_db s) /\
      caller_sees (service_view (es_orgs s)) ctx p e /\ asked_event req e.
Proof.
  intros Hs Hl Hf. destruct (ListEvents_at_state ctx (with_cursor EmptyString req) s Hs)
    as [E _]. rewrite E in Hf. clear E.
  apply eventsAnswer_inv in Hf as (orgID & p & range & visible & c0 & Ha & _ & _).
  rewrite answered_cursor in Ha. destruct Hs as [Hu Hk Hg Huq Hid].
  set (v := service_view (es_orgs s)) in *. set (db := es_db s) in *.
  set (rows := answer_rows db orgID p range req visible).
  assert (NoDup (eventKey <$> rows)) as Hnd.
  { destruct visible; [by apply event_keys_unique|constructor]. }
  assert (forall e, e ∈ rows <-> e ∈ db_events db /\ caller_sees v ctx p e /\
    asked_event req e) as Hrows by (intros e; eapply answer_rows_seen; eassumption).
  exists p, (orderBy eventKey newest_le rows).
  split; [apply Ha|].
  split; [intros Hz; destruct Ha; by apply (projectAnswer_active v ctx orgID p)|].
  split_and!.
  - eapply (readAll_spec eventKey newest_le eventKeys timeKey eventCursor keyTime
      newest_le_total newest_le_trans newest_le_antisym ltac:(by intros [])
      (at_events (os_db (es_orgs s)) (os_emitted (es_orgs s)) db v) _ Event_Pb eventParse
      rows (Limit (ev_Limit req)) Hnd) with (read := []).
    + by apply Z.lt_le_incl, Limit_pos.
    + intros e He%Hrows. apply eventParse_cursor, Hid. apply He.
    + intros cursor c s' Hc Hs'.
      destruct (Orgs_ListEvents_settles _ _ _ _ ctx (with_cursor cursor req) Hu Hk s' Hs')
        as [-> H']. split; [|done].
      rewrite (eventsAnswer_run v db ctx (with_cursor cursor req) orgID p range visible c);
        [|by apply answered_cursor|done].
      rewrite pageAnswer_rows by (by eapply eventParse_set). done.
    + rewrite (Permutation_length (orderBy_perm eventKey newest_le rows)).
      apply le_n_S. unfold rows, answer_rows. destruct visible; [apply filter_length_le|].
      simpl. lia.
    + apply at_events_start.
    + done.
    + done.
  - apply orderBy_sorted; eauto using newest_le_total, newest_le_trans.
  - intros e. by rewrite (orderBy_perm eventKey newest_le rows).
Qed.

(** C32: an answered list of audit events, read with the cursors of its pages,
    ends and returns, newest first and exactly once, the events of the
    selected org the caller sees and asks for, whatever the page size: those
    of the active project of the org it names or its key is restricted to;
    else, for a user, those at the scopes it has a role at (the org-wide ones
    and those of its projects), and all for an API key of the org. *)
Theorem audit_trail_read_once ctx req s first
    (Hs : events_sound ctx s) (Hl : (0 <= ev_Limit req)%Z)
    (Hf : (Orgs_ListEvents ctx (with_cursor EmptyString req) s).1 = Ok first) :
  exists p all, asks_for ctx req p /\
    (p <> 0%Z -> exists x,
       view_Project (service_view (es_orgs s)) (tc_orgID (FromContext ctx)) p = Ok x) /\
    readAll (fun c => Orgs_ListEvents ctx (with_cursor c req))
      (S (length (db_events (es_db s)))) InitialCursor s = Some (Ok (Event_Pb <$> all)) /\
    in_key_order eventKey newest_le all /\
    forall e, e ∈ all <-> e ∈ db_events (es_db s) /\
      caller_sees (service_view (es_orgs s)) ctx p e /\ asked_event req e.
Proof. by eapply trail_read. Qed.

(** C33: no request reads an event its caller does not see: whatever the
    cursor, forged or of an older list, every event of the page is an event
    of the selected org the caller sees at the project it asks for, and the
    call changes neither the tables nor the events emitted. *)
Theorem audit_page_visible ctx req s evs next s'
    (Hs : events_sound ctx s)
    (Ha : Orgs_ListEvents ctx req s = (Ok (evs, next), s')) :
  os_db (es_orgs s') = os_db (es_orgs s) /\ es_db s' = es_db s /\
  os_emitted (es_orgs s') = os_emitted (es_orgs s) /\
  exists p, asks_for ctx req p /\
    forall m, m ∈ evs -> exists e, m = Event_Pb e /\ e ∈ db_events (es_db s) /\
      caller_sees (service_view (es_orgs s)) ctx p e /\ asked_event req e.
Proof.
  destruct (ListEvents_at_state ctx req s Hs) as [E (Hv & Ho & Hd)].
  rewrite Ha in E, Hv, Ho, Hd. simpl in E, Hv, Ho, Hd. split; [apply Hv|].
  split_and!; [done..|]. symmetry in E.
  apply eventsAnswer_inv in E as (orgID & p & range & visible & c & Han & Hc & Ep).
  exists p. split; [apply Han|]. rewrite pageAnswer_rows in Ep by (by eapply eventParse_set).
  injection Ep as -> _. intros m (e & -> & He)%list_elem_of_fmap. exists e. split; [done|].
  apply (answer_rows_seen _ _ ctx req orgID p range visible); [done|apply Hs|].
  by apply listRowsBy_rows in He.
Qed.
End claims.

(** ** Deletion is exact *)

Section deleted.
Context `{CA : Cache}.

(** The references of the tables hold, and an event of a project is of the
    org of the project. *)
Record refs_hold (s : EventsState) : Prop := {
  rf_projects p : p ∈ od_projects (os_db (es_orgs s)) ->
    org_exists (Tenancy.p_OrgID p) (os_db (es_orgs s)) = true;
  rf_members m : m ∈ od_members (os_db (es_orgs s)) ->
    org_exists (m_OrgID m) (os_db (es_orgs s)) = true /\
    project_of (m_OrgID m) (m_ProjectID m) (os_db (es_orgs s)) = true;
  rf_invites v : v ∈ od_invites (os_db (es_orgs s)) ->
    org_exists (v_OrgID v) (os_db (es_orgs s)) = true /\
    project_of (v_OrgID v) (v_ProjectID v) (os_db (es_orgs s)) = true;
  rf_keys k : k ∈ od_keys (os_db (es_orgs s)) ->
    org_exists (k_OrgID k) (os_db (es_orgs s)) = true /\
    project_of (k_OrgID k) (k_ProjectID k) (os_db (es_orgs s)) = true;
  rf_events e : e ∈ db_events (es_db s) ->
    (e_OrgID e <> 0%Z -> org_exists (e_OrgID e) (os_db (es_orgs s)) = true) /\
    project_of (e_OrgID e) (e_ProjectID e) (os_db (es_orgs s)) = true }.

(** The rows of the other orgs. *)
Definition others {R} (id : Z) (org : R -> Z) (rows : list R) : list R :=
  List.filter (fun r => negb (org r =? id)%Z) rows.

Lemma others_elem {R} id (org : R -> Z) rows r :
  r ∈ others id org rows <-> r ∈ rows /\ org r <> id.
Proof. unfold others. by rewrite filter_elem, negb_true_iff, Z.eqb_neq. Qed.

Lemma others_filter {R} id (org : R -> Z) (f : R -> bool) rows :
  (forall r, r ∈ rows -> org r <> id -> f r = true) ->
  List.filter f (others id org rows) = others id org rows.
Proof. intros Hf. apply filter_all. intros r [Hr Hn]%others_elem. auto. Qed.

(** The rows that lose an org keep no row of it and every other one. *)
Lemma filter_others {R} id (org : R -> Z) (f : R -> bool) rows :
  (forall r, r ∈ rows -> f r = negb (org r =? id)%Z) ->
  List.filter f rows = others id org rows.
Proof. intros Hf. apply filter_ext_in. intros r Hr%list_elem_of_In. auto. Qed.

Lemma org_exists_others id d d' org :
  od_orgs d' = others id o_ID (od_orgs d) ->
  org_exists org d = true -> org_exists org d' = negb (org =? id)%Z.
Proof.
  unfold org_exists. intros -> (o & -> & Ho)%bool_decide_eq_true%list_elem_of_fmap.
  destruct (Z.eqb_spec (o_ID o) id) as [E|E]; simpl.
  - apply bool_decide_eq_false. intros (o' & E' & [_ Hn]%others_elem)%list_elem_of_fmap.
    congruence.
  - apply bool_decide_eq_true, list_elem_of_fmap_2. by apply others_elem.
Qed.

Lemma project_of_others id d d' org p :
  od_projects d' = others id Tenancy.p_OrgID (od_projects d) ->
  project_of org p d = true -> org <> id -> project_of org p d' = true.
Proof.
  unfold project_of. intros -> [->|H]%orb_true_iff Hn; [done|]. apply orb_true_iff. right.
  apply bool_decide_eq_true, list_elem_of_fmap in H as (x & E & Hx).
  injection E as -> ->. apply bool_decide_eq_true, list_elem_of_fmap. exists x.
  split; [done|]. by apply others_elem.
Qed.

(** The event keeps what it refers to when it is not of the org. *)
Lemma event_refs_others id d d' e :
  od_projects d' = od_projects d \/ od_projects d' = others id Tenancy.p_OrgID (od_projects d) ->
  od_orgs d' = od_orgs d \/ od_orgs d' = others id o_ID (od_orgs d) ->
  (e_OrgID e <> 0%Z -> org_exists (e_OrgID e) d = true) ->
  project_of (e_OrgID e) (e_ProjectID e) d = true -> e_OrgID e <> id ->
  event_refs d' e = true.
Proof.
  intros Hp Ho He Hj Hn. unfold event_refs. apply andb_true_iff. split.
  - unfold IsZero. destruct (Z.eqb_spec (e_OrgID e) 0) as [|Hz]; [done|]. simpl.
    destruct Ho as [Ho|Ho].
    + unfold org_exists in *. rewrite Ho. by apply He.
    + rewrite (org_exists_others id d) by auto. by rewrite (proj2 (Z.eqb_neq _ _) Hn).
  - assert (project_of (e_OrgID e) (e_ProjectID e) d' = true) as Hj'.
    { destruct Hp as [Hp|Hp]; [unfold project_of in *; by rewrite Hp|].
      by apply (project_of_others id d). }
    unfold project_of in Hj'. apply orb_true_iff in Hj' as [->|Hj']; [done|].
    apply orb_true_iff. right. apply bool_decide_eq_true, list_elem_of_fmap in Hj'
      as (x & E & Hx). injection E as E1 E2. apply bool_decide_eq_true, list_elem_of_fmap.
    exists x. by split.
Qed.

Section run.
Context (c : cache) (out : list Event) (db : Db).
Local Notation st d E := (mkEvents (mkOs d c out) (tab_set events E db)).

Lemma deleteFrom_run {R} (t : OTable R) f cascade d E d' :
  cascade (ot_set t (List.filter (fun r => negb (f r)) (ot_rows t d)) d) = d' ->
  (forall e, e ∈ E -> event_refs d' e = true) ->
  deleteFrom t f cascade (st d E) =
  (Z.of_nat (length (List.filter f (ot_rows t d))), st d' E).
Proof.
  intros <- He. unfold deleteFrom, delete_rows, cascadeEvents, keep_events, set_od. simpl.
  by rewrite (filter_all (event_refs _)) by done.
Qed.

(** A cascade of the projects after the rows of an org are gone. *)
Lemma cascadeProjects_others id d P K :
  (forall m, m ∈ od_members d -> project_of (m_OrgID m) (m_ProjectID m) d = true) ->
  (forall v, v ∈ od_invites d -> project_of (v_OrgID v) (v_ProjectID v) d = true) ->
  P = others id Tenancy.p_OrgID (od_projects d) ->
  forall O,
  let tables K := mkODb (od_now d) (od_seq d) (od_random d) (od_logins d) (od_users d)
    O P (others id m_OrgID (od_members d)) (others id v_OrgID (od_invites d)) K in
  cascadeProjects (tables K) =
  tables (List.filter (fun k => project_of (k_OrgID k) (k_ProjectID k) (tables K)) K).
Proof.
  intros Hm Hv HP O tables. unfold cascadeProjects, tables. simpl. f_equal.
  - apply others_filter. intros m Hin Hn. eapply project_of_others; [exact HP|auto|done].
  - apply others_filter. intros v Hin Hn. eapply project_of_others; [exact HP|auto|done].
Qed.
End run.

Lemma cascadeOrgs_others id d K :
  (forall p, p ∈ od_projects d -> org_exists (Tenancy.p_OrgID p) d = true) ->
  (forall m, m ∈ od_members d -> org_exists (m_OrgID m) d = true) ->
  (forall v, v ∈ od_invites d -> org_exists (v_OrgID v) d = true) ->
  let tables K := mkODb (od_now d) (od_seq d) (od_random d) (od_logins d) (od_users d)
    (others id o_ID (od_orgs d)) (others id Tenancy.p_OrgID (od_projects d))
    (others id m_OrgID (od_members d)) (others id v_OrgID (od_invites d)) K in
  cascadeOrgs (tables K) =
  tables (List.filter (fun k => org_exists (k_OrgID k) (tables K)) K).
Proof.
  intros Hp Hm Hv tables. unfold cascadeOrgs, tables. simpl.
  assert (forall org, org_exists org d = true -> org <> id ->
    bool_decide (org ∈ (o_ID <$> others id o_ID (od_orgs d))) = true) as Ho.
  { intros org He Hn. pose proof (org_exists_others id d (tables K) org eq_refl He) as E.
    rewrite (proj2 (Z.eqb_neq _ _) Hn) in E. exact E. }
  f_equal; apply others_filter; intros r Hin Hn; by apply Ho; auto.
Qed.

(** The rows of every other org are left, with what they refer to. *)
Definition without_org (id : Z) (s : EventsState) : EventsState :=
  let d := os_db (es_orgs s) in
  sync_refs (mkEvents (mkOs
    (mkODb (od_now d) (od_seq d) (od_random d) (od_logins d) (od_users d)
      (others id o_ID (od_orgs d)) (others id Tenancy.p_OrgID (od_projects d))
      (others id m_OrgID (od_members d)) (others id v_OrgID (od_invites d))
      (others id k_OrgID (od_keys d)))
    (os_cache (es_orgs s)) (os_emitted (es_orgs s)))
    (tab_set events (others id e_OrgID (db_events (es_db s))) (es_db s))).

(** The number of rows of the org. *)
Definition rows_of {R} (id : Z) (org : R -> Z) (rows : list R) : Z :=
  Z.of_nat (length (List.filter (fun r => (org r =? id)%Z) rows)).
Definition org_counts (id : Z) (s : EventsState) : list (string * Z) :=
  let d := os_db (es_orgs s) in
  [("trustyca.event", rows_of id e_OrgID (db_events (es_db s)));
   ("trustyca.invite", rows_of id v_OrgID (od_invites d));
   ("trustyca.membership", rows_of id m_OrgID (od_members d));
   ("trustyca.project", rows_of id Tenancy.p_OrgID (od_projects d));
   ("org", rows_of id o_ID (od_orgs d))]%string.

Lemma DeleteOrg_run id s :
  id <> 0%Z -> refs_hold s ->
  Provider_DeleteOrg id s = (Ok (org_counts id s), without_org id s).
Proof.
  intros Hid [Hp Hm Hv Hk He]. destruct s as [[d c out] db]. simpl in *.
  set (E := others id e_OrgID (db_events db)).
  assert (forall d', od_projects d' = od_projects d \/
    od_projects d' = others id Tenancy.p_OrgID (od_projects d) ->
    od_orgs d' = od_orgs d \/ od_orgs d' = others id o_ID (od_orgs d) ->
    forall e, e ∈ E -> event_refs d' e = true) as Hev.
  { intros d' Hp' Ho' e [Hin Hn]%others_elem. destruct (He e Hin).
    by apply (event_refs_others id d). }
  unfold Provider_DeleteOrg.
  assert (deleteEvents id (mkEvents (mkOs d c out) db) =
    (rows_of id e_OrgID (db_events db),
     mkEvents (mkOs d c out) (tab_set events E db))) as ->.
  { unfold deleteEvents, keep_events, rows_of. simpl. f_equal.
    - do 2 f_equal. apply filter_ext. intros e. unfold IsZero.
      destruct (Z.eqb_spec (e_OrgID e) 0); lia.
    - do 2 f_equal. apply filter_others. intros e _. unfold IsZero.
      destruct (Z.eqb_spec (e_OrgID e) 0); lia. }
  erewrite deleteFrom_run; [|reflexivity|by apply Hev; left].
  erewrite deleteFrom_run; [|reflexivity|by apply Hev; left].
  erewrite deleteFrom_run; [|apply (cascadeProjects_others id d); simpl; try done;
    [intros m Hin; by apply Hm|intros v Hin; by apply Hv]|by apply Hev; [right|left]].
  erewrite deleteFrom_run; cycle 1.
  { etrans; [apply (f_equal cascadeProjects), (cascadeOrgs_others id d);
      [done|intros m Hin; by apply Hm|intros v Hin; by apply Hv]|].
    apply (cascadeProjects_others id d); simpl; try done;
      [intros m Hin; by apply Hm|intros v Hin; by apply Hv]. }
  { by apply Hev; right. }
  f_equal. unfold without_org. f_equal. simpl. do 3 f_equal.
  rewrite !filter_filter. apply filter_others. intros k Hin.
  destruct (Hk k Hin) as [Hko Hkp].
  destruct (Z.eqb_spec (k_OrgID k) id) as [Ek|Ek]; simpl.
  - rewrite (org_exists_others id d) by done.
    rewrite (proj2 (Z.eqb_eq _ _) Ek). simpl. by rewrite andb_false_r.
  - rewrite (org_exists_others id d), (proj2 (Z.eqb_neq _ _) Ek) by done. simpl.
    rewrite !(project_of_others id d) by done. done.
Qed.

Lemma without_org_refs id s : refs_hold s -> refs_hold (without_org id s).
Proof.
  intros [Hp Hm Hv Hk He].
  assert (forall org, org_exists org (os_db (es_orgs s)) = true -> org <> id ->
    org_exists org (os_db (es_orgs (without_org id s))) = true) as Ho.
  { intros org H Hn. rewrite (org_exists_others id (os_db (es_orgs s))) by done.
    by rewrite (proj2 (Z.eqb_neq _ _) Hn). }
  assert (forall org p, project_of org p (os_db (es_orgs s)) = true -> org <> id ->
    project_of org p (os_db (es_orgs (without_org id s))) = true) as Hj
    by (intros org p; by apply project_of_others).
  split; simpl; intros x [Hx Hn]%others_elem.
  - apply Ho; [by apply Hp|done].
  - destruct (Hm x Hx). split; [by apply Ho|by apply Hj].
  - destruct (Hv x Hx). split; [by apply Ho|by apply Hj].
  - destruct (Hk x Hx). split; [by apply Ho|by apply Hj].
  - destruct (He x Hx) as [H1 H2]. split; [intros Hz; apply Ho; [by apply H1|done]|by apply Hj].
Qed.

(** The deletion of an org deletes what is of the org, nothing else: its
    events, invites, memberships, projects and API keys and the org are gone,
    the rows of every other org are left as they were, no reference is
    broken, and the answer counts the rows of each table. *)
Theorem org_deletion_exact (id : Z) (s : EventsState)
    (Hid : id <> 0%Z) (Hr : refs_hold s) :
  Provider_DeleteOrg id s = (Ok (org_counts id s), without_org id s) /\
  refs_hold (without_org id s).
Proof. split; [by apply DeleteOrg_run|by apply without_org_refs]. Qed.
End deleted.

(** ** The claims at a member of one project *)

Definition example_viewer_db : ODb :=
  mkODb 2000 10 10 [] [mkUser 7 "bob@acme.com" true "Bob"]
    [mkOrg 5 "cp_a" "Acme" "" ItemStatus_Active 1000;
     mkOrg 6 "cp_b" "Other" "" ItemStatus_Active 1000]
    [mkProject 8 5 "web" "Web" "" ItemStatus_Active 1000 1000;
     mkProject 9 5 "db" "Db" "" ItemStatus_Active 1000 1000]
    [mkMembership 20 5 8 7 Role_Viewer 1000] []
    [mkAPIKey 40 5 8 "sk_5" "s" "web" ["org:read"] [] ItemStatus_Active 1000 0 0 0;
     mkAPIKey 41 6 0 "sk_6" "s" "all" ["org:read"] [] ItemStatus_Active 1000 0 0 0].
Definition example_viewer : Context :=
  mkContext (mkIdentity "user" "" "" "jwt" None "" [] "" "" "")
    (Some (mkTrusty 7 "Bob" "bob@acme.com" 5 Role_Viewer 0 [] "user" "" "" "jwt")) [] [].
Definition example_event (id org project at_ : Z) : Event :=
  mkEvent id org project 10 "Project updated" "" [] project "" "orgs" at_.

(** An event of the org, of each project and of another org. *)
Definition example_events : list Event :=
  [example_event 31 5 0 1500; example_event 32 5 8 1600; example_event 33 5 9 1700;
   example_event 34 6 0 1800].
Definition example_trail : EventsState :=
  mkEvents (mkOs example_viewer_db NewMemoryProvider [])
    (mkDb 2000 10 [5; 6]%Z [8; 9]%Z [] [] [] [] [] [] example_events).
Definition example_page_req : ListEvents_req := mkListEventsReq "" 0 "" "" 1 "".

Lemma example_trail_sound : events_sound example_viewer example_trail.
Proof.
  split.
  - by vm_compute.
  - by vm_compute.
  - intros g E. vm_compute in E. injection E as <-.
    apply (bool_decide_unpack (Forall _ _)). by vm_compute.
  - constructor; [|constructor]. apply (bool_decide_unpack (NoDup _)). by vm_compute.
  - intros e He Hz. assert (e_ID e ∈ (e_ID <$> example_events)) as Hi
      by by apply list_elem_of_fmap_2.
    rewrite Hz in Hi. revert Hi. apply (bool_decide_unpack (~ _)). by vm_compute.
Qed.

(** In pages of one event, the viewer of project 8 reads its event and the
    org-wide one. *)
Lemma audit_trail_read_once_witness :
  (exists p all, asks_for example_viewer example_page_req p /\
    (p <> 0%Z -> exists x,
       view_Project (service_view (es_orgs example_trail))
         (tc_orgID (FromContext example_viewer)) p = Ok x) /\
    readAll (fun c => Orgs_ListEvents example_viewer (with_cursor c example_page_req))
      (S (length (db_events (es_db example_trail)))) InitialCursor example_trail
    = Some (Ok (Event_Pb <$> all)) /\
    in_key_order eventKey newest_le all /\
    forall e, e ∈ all <-> e ∈ db_events (es_db example_trail) /\
      caller_sees (service_view (es_orgs example_trail)) example_viewer p e /\
      asked_event example_page_req e) /\
  readAll (fun c => Orgs_ListEvents example_viewer (with_cursor c example_page_req))
    (S (length (db_events (es_db example_trail)))) InitialCursor example_trail
  = Some (Ok [Event_Pb (example_event 32 5 8 1600); Event_Pb (example_event 31 5 0 1500)]).
Proof.
  split; [|by vm_compute].
  destruct (Orgs_ListEvents example_viewer (with_cursor "" example_page_req)
    example_trail).1 as [first|] eqn:E; [|by vm_compute in E].
  exact (audit_trail_read_once example_viewer example_page_req example_trail first
    example_trail_sound ltac:(done) E).
Defined.

(** A forged cursor, past every event: the page has the newest event the
    viewer sees. *)
Definition example_forged_req : ListEvents_req :=
  with_cursor (eventCursor (9000, 99)%Z) example_page_req.

Lemma audit_page_visible_witness :
  let s := example_trail in
  let s' := (Orgs_ListEvents example_viewer example_forged_req s).2 in
  os_db (es_orgs s') = os_db (es_orgs s) /\ es_db s' = es_db s /\
  os_emitted (es_orgs s') = os_emitted (es_orgs s) /\
  exists p, asks_for example_viewer example_forged_req p /\
    forall m, m ∈ [Event_Pb (example_event 32 5 8 1600)] ->
      exists e, m = Event_Pb e /\ e ∈ db_events (es_db s) /\
        caller_sees (service_view (es_orgs s)) example_viewer p e /\
        asked_event example_forged_req e.
Proof.
  assert ((Orgs_ListEvents example_viewer example_forged_req example_trail).1 =
    Ok ([Event_Pb (example_event 32 5 8 1600)],
        Some (mkNextPage 0 (eventCursor (1600, 32)%Z)))) as E by by vm_compute.
  exact (audit_page_visible example_viewer example_forged_req example_trail _ _ _
    example_trail_sound (result_known _ _ E)).
Defined.

(** ** The deletion of that org *)

Lemma example_trail_refs : refs_hold example_trail.
Proof.
  split; simpl; intros x Hx;
    repeat (apply elem_of_cons in Hx as [->|Hx]; [by vm_compute|]);
    by apply not_elem_of_nil in Hx.
Qed.

(** Org 5 goes with its three events, two projects, its member and its key. *)
Lemma org_deletion_exact_witness :
  (Provider_DeleteOrg 5 example_trail =
     (Ok (org_counts 5 example_trail), without_org 5 example_trail) /\
   refs_hold (without_org 5 example_trail)) /\
  org_counts 5 example_trail =
    [("trustyca.event", 3%Z); ("trustyca.invite", 0%Z); ("trustyca.membership", 1%Z);
     ("trustyca.project", 2%Z); ("org", 1%Z)]%string /\
  db_events (es_db (without_org 5 example_trail)) = [example_event 34 6 0 1800] /\
  k_ID <$> od_keys (os_db (es_orgs (without_org 5 example_trail))) = [41%Z].
Proof.
  split; [|by vm_compute].
  exact (org_deletion_exact 5 example_trail ltac:(discriminate) example_trail_refs).
Defined.
