(* ===== verification/Admin.v ===== *)
(** The admin service: [server/service/admin] ([scope.go], [certificates.go],
    [issuers.go], [orgs.go], [projects.go]), the lists across orgs for support
    staff.

    The service reads the orgs database and the CA tables; its state is both.
    The method table lets the admin roles only call it ([Methods]). *)
From Stdlib Require Import ZArith Lia.
From stdpp Require Import base list sets strings pretty sorting countable.
From S2P Require Import Prelude GoStrings Xdb Roles Tenancy Authorizer Model Query Sql CaQuery CaDb CaDbFacts Pbconv RowPb TenantScope OrgQuery OrgDb CaDbClaims OrgExamples.

(** The error of [xdb.ParseID] on a text that is no ID. *)
Class XdbParse := { ParseID_error : string -> error }.

Definition missingRequest : error := Grpc InvalidArgument "missing request".

(** ** Request fields *)

Record listScope := mkListScope {
  as_orgID : Z; as_projectID : Z; as_platform : bool; as_allOrgs : bool }.

Section fields.
Context `{Xdb, TimeLib}.

Definition parseListScope (orgIDVal projectIDVal : string) (platform : bool)
  : result listScope :=
  let? orgID := (if bool_decide (orgIDVal = EmptyString) then Ok 0%Z
                 else match parse_id orgIDVal with
                      | Some id => Ok id
                      | None => Err (Grpc InvalidArgument "invalid org ID")
                      end) in
  let? projectID := (if bool_decide (projectIDVal = EmptyString) then Ok 0%Z
    else if (orgID =? 0)%Z
    then Err (Grpc InvalidArgument "org ID is required with a project ID")
    else match parse_id projectIDVal with
         | Some id => Ok id
         | None => Err (Grpc InvalidArgument "invalid project ID")
         end) in
  Ok (if (orgID =? 0)%Z then mkListScope orgID projectID platform (negb platform)
      else mkListScope orgID projectID false false).

(** An empty list is no filter. *)
Fixpoint parseIDs (vals : list string) (what : string) : result (list Z) :=
  match vals with
  | [] => Ok []
  | val :: rest =>
      match parse_id val with
      | None => Err (Grpc InvalidArgument ("invalid " ++ what ++ ": " ++ val))
      | Some id => let? ids := parseIDs rest what in Ok (id :: ids)
      end
  end.

Definition parseTime (val what : string) : result (option Z) :=
  if bool_decide (val = EmptyString) then Ok None
  else match ParseRFC3339 val with
       | Some t => Ok (Some t)
       | None => Err (Grpc InvalidArgument
                        ("invalid " ++ what ++ ": RFC3339 time expected"))
       end.
End fields.

(** ** Requests *)

Record ListAllCertificatesRequest := mkAllCertificates {
  ac_OrgID : string; ac_ProjectID : string; ac_Platform : bool; ac_IKID : string;
  ac_Profile : string; ac_Status : CertificateStatus_Enum; ac_ExpiringBefore : string;
  ac_Limit : Z; ac_Offset : Z; ac_Cursor : string }.
Record ListAllIssuersRequest := mkAllIssuers {
  ai_OrgID : string; ai_ProjectID : string; ai_Platform : bool; ai_Label : string;
  ai_Status : IssuerStatus_Enum; ai_Type : AuthorityType_Enum; ai_IDs : list string;
  ai_IKIDs : list string; ai_Limit : Z; ai_Offset : Z; ai_Cursor : string }.
Record ListOrgs_req := mkListOrgsReq {
  ao_Status : ItemStatus_Enum; ao_Limit : Z; ao_Offset : Z; ao_Cursor : string }.
Record ListProjects_req := mkAllProjects {
  aj_OrgID : string; aj_Status : ItemStatus_Enum; aj_Limit : Z; aj_Offset : Z;
  aj_Cursor : string }.

Section messages.
Context `{Xdb, ProfileCodec}.
Definition OrgResult_Pb (v : PageResult Org) : list Org_pb * option NextPage_pb :=
  (Org_Pb <$> pr_rows v, NextPage v).
End messages.

(** ** The service *)

Section service.
Context `{XL : Xdb, LM : XdbLimits, UC : Unicode, CO : Collation, IG : IdGen, RA : Random}.
Context `{CD : Codec, PC : ProfileCodec, PO : Porto, TL : TimeLib, XP : XdbParse}.

Record AdminState := mkAdmin { ad_orgs : ODb; ad_ca : Db }.

Definition ad_call {S X} (get_ : AdminState -> S) (set_ : AdminState -> S -> AdminState)
    (m : M S X) : M AdminState X := fun s =>
  let '(r, x) := m (get_ s) in (r, set_ s x).
Definition on_odb {X} (m : M ODb X) : M AdminState X :=
  ad_call ad_orgs (fun s d => mkAdmin d (ad_ca s)) m.
Definition on_ca {X} (m : M Db X) : M AdminState X :=
  ad_call ad_ca (fun s d => mkAdmin (ad_orgs s) d) m.
(** A call whose failure is wrapped. *)
Definition ad_wrapped {X} (failure : string) (m : M AdminState X) : M AdminState X :=
  catch m (fun r => match r with
    | Ok x => ret x
    | Err e => fail (WrapWithCtx e failure)
    end).

(** The scope narrowed to the org of the issuer the request names. *)
Definition narrowScope (ikid : string) (scope : listScope) : M AdminState listScope :=
  if negb (bool_decide (ikid = EmptyString)) && as_allOrgs scope then
    catch (on_ca (GetIssuerBySKID ikid)) (fun r => match r with
      | Ok issuer => ret (mkListScope (i_OrgID issuer) (as_projectID scope)
                            (IsZero (i_OrgID issuer)) false)
      | Err e => if IsNotFoundError e then ret scope
                 else fail (WrapWithCtx e "unable to find issuer")
      end)
  else ret scope.

(** The list requests name no visible projects. *)
Definition dbScope (scope : listScope) : ListScope :=
  mkScope (as_orgID scope) (as_platform scope) (as_allOrgs scope) (as_projectID scope)
    Scope_Undefined None.

Definition Admin_ListCertificates (req : option ListAllCertificatesRequest)
  : M AdminState (list Certificate_pb * option NextPage_pb) :=
  match req with
  | None => fail missingRequest
  | Some req =>
      let! scope := lift_result
        (parseListScope (ac_OrgID req) (ac_ProjectID req) (ac_Platform req)) in
      let! cursor := lift_result (ListCursor (ac_Cursor req) ParseCursor) in
      let! before := lift_result (parseTime (ac_ExpiringBefore req) "ExpiringBefore") in
      let! scope := narrowScope (ac_IKID req) scope in
      let! res := ad_wrapped "failed to list certificates" (on_ca (ListCertificates
        (mkListCertificates (dbScope scope) (ac_IKID req) "" (ac_Profile req)
           (ac_Status req) before
           (mkPageRequest (ac_Limit req) (ac_Offset req) cursor)))) in
      ret (CertificateResult_Pb res)
  end.

Definition Admin_ListIssuers (req : option ListAllIssuersRequest)
  : M AdminState (list Issuer_pb * option NextPage_pb) :=
  match req with
  | None => fail missingRequest
  | Some req =>
      let! scope := lift_result
        (parseListScope (ai_OrgID req) (ai_ProjectID req) (ai_Platform req)) in
      let! cursor := lift_result (ListCursor (ai_Cursor req) ParseCursor) in
      let! ids := lift_result (parseIDs (ai_IDs req) "issuer IDs") in
      let! res := ad_wrapped "failed to list issuers" (on_ca (ListIssuers
        (mkListIssuers (dbScope scope) 0 (ai_Label req) (ai_Status req) (ai_Type req)
           ids (ai_IKIDs req)
           (mkPageRequest (ai_Limit req) (ai_Offset req) cursor)))) in
      match IssuerResult_Pb res with
      | Ok list => ret list
      | Err _ => fail (Grpc Internal "unable to read issuers")
      end
  end.

Definition Admin_ListOrgs (req : ListOrgs_req)
  : M AdminState (list Org_pb * option NextPage_pb) :=
  let! cursor := lift_result (ListCursor (ao_Cursor req) ParseNameCursor) in
  let! res := ad_wrapped "failed to list orgs" (on_odb (Provider_ListOrgs
    (mkListOrgs (ao_Limit req) (ao_Offset req) cursor (ao_Status req)))) in
  ret (OrgResult_Pb res).

Definition Admin_ListProjects (req : ListProjects_req)
  : M AdminState (list Project_pb * option NextPage_pb) :=
  let! cursor := lift_result (ListCursor (aj_Cursor req) ParseNameCursor) in
  let! orgID := (if bool_decide (aj_OrgID req = EmptyString) then ret 0%Z
    else match parse_id (aj_OrgID req) with
         | Some id => ret id
         | None => fail (WrapWithCtx (ParseID_error (aj_OrgID req)) "invalid org ID")
         end) in
  let! res := ad_wrapped "failed to list projects" (on_odb (Provider_ListProjects
    (mkListProjects orgID (aj_Status req) None (aj_Limit req) (aj_Offset req) cursor))) in
  ret (ProjectResult_Pb res).
End service.

(** ** Certificates of an issuer *)

Section certificates.
Context `{XL : Xdb, CD : Codec, PC : ProfileCodec, PO : Porto, TL : TimeLib}.
Context {XLL : @XdbLaws XL}.

(** The certificate is of the org of the issuer registered with the key
    identifier, or no issuer is. *)
Definition of_issuer_org (d : Db) (ikid : string) (c : Certificate) : bool :=
  forallb (fun i => negb (bool_decide (i_Skid i = ikid)) || (c_OrgID c =? i_OrgID i)%Z)
    (db_issuers d).

(** The certificate passes the filters of the request, whatever its org. *)
Definition asked_certificate (req : ListAllCertificatesRequest) (before : option Z)
    (c : Certificate) : bool :=
  bool_decide (c_Ikid c = ac_IKID req) && textIs (ac_Profile req) (c_Profile c) &&
  (bool_decide (ac_Status req = CertificateStatus_Unknown) ||
   bool_decide (c_Status c = ac_Status req)) &&
  match before with Some t => (c_NotAfter c <? t)%Z | None => true end.

(** The filters in the scope of one org, the platform or every org. *)
Lemma issuer_where orgID platform allOrgs ikid req before page c (shown : bool) :
  ikid = ac_IKID req -> ikid <> EmptyString ->
  (c_Ikid c = ikid -> org_selected orgID platform (c_OrgID c) <-> shown = true) ->
  ListCertificates_where (mkListCertificates
    (mkScope orgID platform allOrgs 0 Scope_Undefined None) ikid ""
    (ac_Profile req) (ac_Status req) before page) c = asked_certificate req before c && shown.
Proof.
  intros -> Hne Ho. unfold ListCertificates_where, asked_certificate, scopeParams,
    whereTenancy. simpl. change (textIs "" (c_Skid c)) with true. rewrite andb_true_r.
  assert (textIs (ac_IKID req) (c_Ikid c) = bool_decide (c_Ikid c = ac_IKID req)) as ->
    by (unfold textIs; by rewrite bool_decide_false).
  case_bool_decide as Hk; [|by rewrite andb_false_r].
  rewrite (proj2 (whereProjectScope_list orgID platform 0 Scope_Undefined None _
    ltac:(done)) ltac:(done)).
  assert (whereOrgScope (setProjectScope (setOrgScope NewQueryParams orgID platform) 0
    Scope_Undefined) (c_OrgID c) = shown) as ->.
  { apply eq_true_iff_eq. etrans; [|by apply Ho].
    exact (whereOrgScope_list orgID platform 0 Scope_Undefined None _). }
  by destruct shown; simpl; rewrite ?andb_true_r, ?andb_false_r.
Qed.

(** The scope the handler lists the certificates of an issuer in. *)
Lemma narrowScope_issuer ikid s :
  ikid <> EmptyString -> uniques_hold issuer_uniques (db_issuers (ad_ca s)) ->
  exists orgID platform allOrgs,
    narrowScope ikid (mkListScope 0 0 false true) s =
      (Ok (mkListScope orgID 0 platform allOrgs), s) /\
    (allOrgs = true \/ orgID <> 0%Z \/ platform = true) /\
    forall c, org_selected orgID platform (c_OrgID c) <-> of_issuer_org (ad_ca s) ikid c = true.
Proof.
  intros Hne Hu. unfold narrowScope. rewrite bool_decide_false by done. simpl.
  unfold catch, on_ca, ad_call, GetIssuerBySKID, check_not_found, catch, select. simpl.
  assert (forall c, of_issuer_org (ad_ca s) ikid c = true <->
    forall i, i ∈ db_issuers (ad_ca s) -> i_Skid i = ikid -> c_OrgID c = i_OrgID i) as Hof.
  { intros c. unfold of_issuer_org. rewrite forallb_forall. split.
    - intros Hall i Hi Hk. specialize (Hall i (proj1 (list_elem_of_In _ _) Hi)).
      rewrite bool_decide_true in Hall by done. by apply Z.eqb_eq.
    - intros Hall i Hi%list_elem_of_In. case_bool_decide as Hk; [|done].
      by apply Z.eqb_eq, Hall. }
  destruct (select_row _ (db_issuers (ad_ca s))) as [i|e] eqn:E; simpl.
  - apply select_row_ok in E as [Hi Hk%bool_decide_eq_true].
    exists (i_OrgID i), (IsZero (i_OrgID i)), false. split_and!; [by destruct s| |].
    + unfold IsZero. destruct (Z.eqb_spec (i_OrgID i) 0); auto.
    + intros c. rewrite Hof. trans (c_OrgID c = i_OrgID i).
      * unfold org_selected, IsZero. destruct (Z.eqb_spec (i_OrgID i) 0) as [->|Hz].
        -- rewrite decide_True by done. naive_solver.
        -- by rewrite decide_False.
      * split; [|by intros Hall; apply Hall]. intros Hc j Hj Hjk.
        by rewrite (issuer_skid_inj _ j i Hu Hj Hi ltac:(congruence)).
  - pose proof (select_row_err _ _ _ E) as ->. pose proof (proj1 (select_row_none _ _) E) as Hn.
    rewrite CheckNotFoundError_not_found. simpl.
    exists 0%Z, false, true. split_and!; [by destruct s|by left|].
    intros c. rewrite Hof. unfold org_selected. rewrite decide_True by done.
    split; [|done]. intros _ i Hi Hk. specialize (Hn i Hi).
    by apply bool_decide_eq_false in Hn.
Qed.

(** C34: what the list of the certificates of an issuer shows support staff
    who name the issuer and no org.  With a cursor and a time that parse, it
    shows, newest first and page by page, exactly the certificates of the key
    identifier that pass the filters of the request and are of the org (or
    the platform) of the issuer registered with the key identifier, or, when
    no issuer is, as for a deleted one, of any org and the platform.  The key
    identifiers of the issuers are unique, as the database keeps them. *)
Theorem issuer_certificates_listed (req : ListAllCertificatesRequest) (s : AdminState)
    (cursor : Cursor) (before : option Z)
    (Ho : ac_OrgID req = EmptyString) (Hj : ac_ProjectID req = EmptyString)
    (Hp : ac_Platform req = false) (Hk : ac_IKID req <> EmptyString)
    (Hc : ListCursor (ac_Cursor req) ParseCursor = Ok cursor)
    (Hb : parseTime (ac_ExpiringBefore req) "ExpiringBefore" = Ok before)
    (Hu : uniques_hold issuer_uniques (db_issuers (ad_ca s))) :
  Admin_ListCertificates (Some req) s =
  (Ok (CertificateResult_Pb (listRows c_ID
         (List.filter (fun c => asked_certificate req before c &&
                                of_issuer_org (ad_ca s) (ac_IKID req) c)
            (db_certificates (ad_ca s)))
         (ac_Limit req) (ac_Offset req) cursor)), s).
Proof.
  destruct (narrowScope_issuer (ac_IKID req) s Hk Hu)
    as (orgID & platform & allOrgs & En & Hs & Hsel).
  unfold Admin_ListCertificates.
  assert (parseListScope (ac_OrgID req) (ac_ProjectID req) (ac_Platform req) =
    Ok (mkListScope 0 0 false true)) as Es by (by rewrite Ho, Hj, Hp).
  erewrite bind_run; [|unfold lift_result; by rewrite Es].
  erewrite bind_run; [|unfold lift_result; by rewrite Hc].
  erewrite bind_run; [|unfold lift_result; by rewrite Hb].
  erewrite bind_run; [|exact En].
  set (page := mkPageRequest _ _ _). set (q := mkListCertificates _ _ _ _ _ _ _).
  assert (ListCertificatesRequest_Validate q = Ok tt) as Hv.
  { unfold ListCertificatesRequest_Validate, listValidate, checkListScope. simpl.
    assert ((orgID =? 0)%Z && negb platform && negb allOrgs = false) as ->.
    { destruct Hs as [->|[Hz| ->]]; [by rewrite andb_false_r| |by rewrite andb_false_r].
      by rewrite (proj2 (Z.eqb_neq _ _) Hz). }
    simpl. apply id_cursor_key. unfold ListCursor in Hc.
    destruct (ParseCursor _) eqn:E; [|done]. injection Hc as <-. by eapply ParseCursor_id. }
  erewrite bind_run; cycle 1.
  { unfold ad_wrapped, catch, on_ca, ad_call, ListCertificates, bind, lift_result.
    rewrite Hv. unfold listTable, select. simpl. reflexivity. }
  unfold ret. f_equal; [|by destruct s]. do 2 f_equal. unfold page. simpl. f_equal.
  apply List.filter_ext_in. intros c Hin%list_elem_of_In. unfold q, dbScope. simpl.
  by apply issuer_where.
Qed.
End certificates.

(** ** Lists by name *)

Section by_name.
Context `{XL : Xdb, CO : Collation}.
Context {XLL : @XdbLaws XL} {COL : @CollationLaws CO}.

Lemma text_id_le_total a b : text_id_le a b = true \/ text_id_le b a = true.
Proof.
  unfold text_id_le. destruct a as [x i], b as [y j]. simpl.
  destruct (decide (x = y)) as [->|Hn]; [rewrite bool_decide_true by done; lia|].
  rewrite !bool_decide_false by congruence. apply text_le_total.
Qed.
Lemma text_id_le_antisym a b : text_id_le a b = true -> text_id_le b a = true -> a = b.
Proof.
  unfold text_id_le. destruct a as [x i], b as [y j]. simpl.
  destruct (decide (x = y)) as [->|Hn].
  - rewrite bool_decide_true by done. intros. f_equal. lia.
  - rewrite !bool_decide_false by congruence. intros H1 H2.
    by destruct Hn; apply text_le_antisym.
Qed.
Lemma text_id_le_trans a b c :
  text_id_le a b = true -> text_id_le b c = true -> text_id_le a c = true.
Proof.
  unfold text_id_le. destruct a as [x i], b as [y j], c as [z k]. simpl.
  repeat case_bool_decide; subst; try done; try lia; eauto using text_le_trans.
  intros H1 H2. exfalso. eauto using text_le_antisym.
Qed.

Definition nameKeys (k : string * Z) : list key_value := [KName k.1; KID k.2].
Definition nameParse (cursor : string) : result Cursor := ListCursor cursor ParseNameCursor.

Lemma nameParse_cursor n id :
  id <> 0%Z ->
  nameParse (EncodeNameCursor n id) = Ok (mkCursor true keyName (Some [KName n; KID id])).
Proof.
  intros Hid. unfold nameParse, ListCursor, ParseNameCursor, decodeCursor, EncodeNameCursor.
  destruct (cursor_token_reserved [KName n; KID id]) as [He Hi]; [done|].
  rewrite !bool_decide_false by done. rewrite cursor_scan_token by done.
  unfold keyCursor. by rewrite (proj2 (Z.eqb_neq _ _) Hid).
Qed.

Lemma nameParse_key cursor c : nameParse cursor = Ok c -> Cursor_checkKey c keyName = Ok tt.
Proof.
  unfold nameParse, ListCursor, ParseNameCursor, decodeCursor, keyCursor. intros E.
  repeat case_match; by simplify_eq/=.
Qed.

(** A handler whose pages are those of the rows, read from the first page of
    cursor pagination, yields every row once, by name. *)
Lemma readAll_by_name {S R P} (page : string -> M S (list P * option NextPage_pb))
    (pb : R -> P) (name : R -> string) (rid : R -> Z) rows limit s :
  NoDup (rid <$> rows) -> (forall r, r ∈ rows -> rid r <> 0%Z) -> (0 <= limit)%Z ->
  (forall cursor c, nameParse cursor = Ok c ->
    let pg := listRowsByName name rid rows limit 0 c in
    page cursor s = (Ok (pb <$> pr_rows pg, NextPage pg), s)) ->
  exists all, readAll page (Datatypes.S (length rows)) InitialCursor s = Some (Ok (pb <$> all)) /\
    all ≡ₚ rows /\ in_key_order (fun r => (name r, rid r)) text_id_le all.
Proof.
  intros Hnd Hz Hl Hp. set (key := fun r => (name r, rid r)).
  assert (NoDup (key <$> rows)) as Hk.
  { apply (NoDup_fmap_1 snd). by rewrite <-list_fmap_compose. }
  exists (orderBy key text_id_le rows). split_and!.
  - eapply (readAll_spec key text_id_le nameKeys nameKey (fun k => EncodeNameCursor k.1 k.2)
      keyName text_id_le_total text_id_le_trans text_id_le_antisym ltac:(by intros [])
      (fun s' => s' = s) page pb nameParse rows limit Hk Hl) with (read := []);
      [|..|done|done].
    + intros r Hr. by apply nameParse_cursor, Hz.
    + intros cursor c s' Hc ->. by rewrite (Hp cursor c Hc).
    + rewrite (Permutation_length (orderBy_perm key text_id_le rows)). lia.
    + done.
  - apply orderBy_perm.
  - apply orderBy_sorted; eauto using text_id_le_total, text_id_le_trans.
Qed.
End by_name.

Section lists.
Context `{XL : Xdb, LM : XdbLimits, UC : Unicode, CO : Collation, IG : IdGen, RA : Random}.
Context `{PC : ProfileCodec, PO : Porto, XP : XdbParse}.
Context {XLL : @XdbLaws XL} {COL : @CollationLaws CO}.

Lemma ListOrgs_run st limit cursor c s :
  nameParse cursor = Ok c ->
  Admin_ListOrgs (mkListOrgsReq st limit 0 cursor) s =
  (Ok (OrgResult_Pb (listRowsByName o_Name o_ID
     (List.filter (fun o => statusIs st (o_Status o)) (od_orgs (ad_orgs s))) limit 0 c)), s).
Proof.
  intros Hc. unfold Admin_ListOrgs. erewrite bind_run; [|exact (f_equal2 pair Hc eq_refl)].
  unfold bind, ad_wrapped, catch, on_odb, ad_call, Provider_ListOrgs, bind, lift_result,
    ListOrgsRequest_Validate, oselect. simpl. rewrite (nameParse_key _ _ Hc). simpl.
  by destruct s.
Qed.

Lemma ListProjects_run org orgID st limit cursor c s :
  parse_id org = Some orgID -> org <> EmptyString -> nameParse cursor = Ok c ->
  Admin_ListProjects (mkAllProjects org st limit 0 cursor) s =
  (Ok (ProjectResult_Pb (listRowsByName Tenancy.p_Name Tenancy.p_ID
     (List.filter (ListProjects_where (mkListProjects orgID st None limit 0 c))
        (od_projects (ad_orgs s))) limit 0 c)), s).
Proof.
  intros Ho Hne Hc. unfold Admin_ListProjects.
  erewrite bind_run; [|exact (f_equal2 pair Hc eq_refl)].
  cbn [aj_OrgID]. rewrite bool_decide_false, Ho by done.
  unfold bind, ret, ad_wrapped, catch, on_odb, ad_call, Provider_ListProjects, bind,
    lift_result, ListProjectsRequest_Validate, oselect. simpl.
  rewrite (nameParse_key _ _ Hc). simpl. by destruct s.
Qed.

(** Support staff read every org and every project: the list of the orgs
    and that of the projects of an org, read with the cursors of their pages,
    end and return each row of the status asked for exactly once, by name,
    whatever the page size, even where names repeat. *)
Theorem admin_reads_every_row (s : AdminState) (st : ItemStatus_Enum) (limit : Z)
    (org : string) (orgID : Z)
    (Hl : (0 <= limit)%Z) (Ho : parse_id org = Some orgID) (Hne : org <> EmptyString)
    (Huo : uniques_hold org_uniques (od_orgs (ad_orgs s)))
    (Huj : uniques_hold project_uniques (od_projects (ad_orgs s)))
    (Hzo : forall o, o ∈ od_orgs (ad_orgs s) -> o_ID o <> 0%Z)
    (Hzj : forall p, p ∈ od_projects (ad_orgs s) -> Tenancy.p_ID p <> 0%Z) :
  (exists all rows,
     readAll (fun c => Admin_ListOrgs (mkListOrgsReq st limit 0 c))
       (S (length rows)) InitialCursor s = Some (Ok (Org_Pb <$> all)) /\
     all ≡ₚ rows /\ in_key_order (fun o => (o_Name o, o_ID o)) text_id_le all /\
     forall o, o ∈ rows <-> o ∈ od_orgs (ad_orgs s) /\ statusIs st (o_Status o) = true) /\
  (exists all rows,
     readAll (fun c => Admin_ListProjects (mkAllProjects org st limit 0 c))
       (S (length rows)) InitialCursor s = Some (Ok (Project_Pb <$> all)) /\
     all ≡ₚ rows /\
     in_key_order (fun p => (Tenancy.p_Name p, Tenancy.p_ID p)) text_id_le all /\
     forall p, p ∈ rows <-> p ∈ od_projects (ad_orgs s) /\
       (orgID <> 0%Z -> Tenancy.p_OrgID p = orgID) /\
       statusIs st (Tenancy.p_Status p) = true).
Proof.
  apply Forall_inv in Huo, Huj.
  change (NoDup (o_ID <$> od_orgs (ad_orgs s))) in Huo.
  change (NoDup (Tenancy.p_ID <$> od_projects (ad_orgs s))) in Huj. split.
  - set (rows := List.filter (fun o => statusIs st (o_Status o)) (od_orgs (ad_orgs s))).
    destruct (readAll_by_name (fun c => Admin_ListOrgs (mkListOrgsReq st limit 0 c)) Org_Pb
      o_Name o_ID rows limit s) as (all & Hr & Hp & Hs);
      [by apply NoDup_fmap_filter|by intros o [Hx _]%filter_elem; apply Hzo|done| |].
    { intros cursor c Hc. exact (ListOrgs_run st limit cursor c s Hc). }
    exists all, rows. split_and!; [done..|]. intros o. exact (filter_elem _ _ _).
  - set (rows := List.filter (fun p => idIs orgID (Tenancy.p_OrgID p) &&
      statusIs st (Tenancy.p_Status p) && true) (od_projects (ad_orgs s))).
    destruct (readAll_by_name (fun c => Admin_ListProjects (mkAllProjects org st limit 0 c))
      Project_Pb Tenancy.p_Name Tenancy.p_ID rows limit s) as (all & Hr & Hp & Hs);
      [by apply NoDup_fmap_filter|by intros p [Hx _]%filter_elem; apply Hzj|done| |].
    { intros cursor c Hc. exact (ListProjects_run org orgID st limit cursor c s Ho Hne Hc). }
    exists all, rows. split_and!; [done..|]. intros p. unfold rows.
    rewrite filter_elem, andb_true_r, andb_true_iff. unfold idIs.
    rewrite orb_true_iff, !Z.eqb_eq. destruct (decide (orgID = 0%Z)); naive_solver.
Qed.
End lists.

(** ** The claims at small databases *)

(** Text ordered by its code. *)
#[local] Instance example_order : Collation :=
  {| text_le s t := (encode s <=? encode t)%positive |}.
#[local] Instance example_order_laws : @CollationLaws example_order.
Proof.
  split; simpl; intros *; rewrite ?Pos.leb_le; [lia|lia|].
  intros H1 H2. apply (encode_inj (A := string)). lia.
Qed.
#[local] Instance example_parse : XdbParse :=
  {| ParseID_error s := OtherError ("invalid ID: " ++ s) |}.

(** A certificate of the issuer of org 7, and one of a deleted issuer. *)
Definition example_issued : list Certificate :=
  [set_c_ID 21 example_certificate;
   mkCertificate 22 8 0 "skid-2" "skid-gone" "7" 100 900000 "CN=old" "CN=gone"
     example_sha "server" "" [] [] "pem-old" "pem-gone" CertificateStatus_Active 0].
Definition example_admin : AdminState :=
  mkAdmin (mkODb 2000 10 10 [] []
      [mkOrg 7 "cp_b" "Same" "" ItemStatus_Active 1000;
       mkOrg 5 "cp_a" "Same" "" ItemStatus_Active 1000]
      [mkProject 9 5 "db" "Db" "" ItemStatus_Active 1000 1000;
       mkProject 8 5 "web" "Web" "" ItemStatus_Inactive 1000 1000;
       mkProject 6 7 "api" "Api" "" ItemStatus_Active 1000 1000] [] [] [])
    (mkDb 2000 10 [5; 7]%Z [] [] [example_issuer] [] example_issued [] [] []).
Definition example_by_issuer (ikid : string) : ListAllCertificatesRequest :=
  mkAllCertificates "" "" false ikid "" CertificateStatus_Unknown "" 10 0 "".

Lemma issuer_certificates_listed_witness :
  Admin_ListCertificates (Some (example_by_issuer "skid-gone")) example_admin =
  (Ok (CertificateResult_Pb (listRows c_ID
         (List.filter (fun c => asked_certificate (example_by_issuer "skid-gone") None c &&
                                of_issuer_org (ad_ca example_admin) "skid-gone" c)
            example_issued) 10 0 zeroCursor)), example_admin) /\
  List.filter (fun c => asked_certificate (example_by_issuer "skid-gone") None c &&
    of_issuer_org (ad_ca example_admin) "skid-gone" c) example_issued =
    drop 1 example_issued.
Proof.
  split; [|by vm_compute].
  apply (issuer_certificates_listed (example_by_issuer "skid-gone") example_admin
    zeroCursor None); try done.
  repeat apply Forall_cons_2; [apply NoDup_singleton..|]. apply Forall_nil_2.
Defined.

(** Two orgs of one name, in pages of one. *)
Lemma admin_reads_every_row_witness :
  (exists all rows,
     readAll (fun c => Admin_ListOrgs (mkListOrgsReq ItemStatus_Unknown 1 0 c))
       (S (length rows)) InitialCursor example_admin = Some (Ok (Org_Pb <$> all)) /\
     all ≡ₚ rows /\ in_key_order (fun o => (o_Name o, o_ID o)) text_id_le all /\
     forall o, o ∈ rows <-> o ∈ od_orgs (ad_orgs example_admin) /\
       statusIs ItemStatus_Unknown (o_Status o) = true) /\
  readAll (fun c => Admin_ListProjects
      (mkAllProjects (id_string 5) ItemStatus_Active 1 0 c)) 4 InitialCursor example_admin
  = Some (Ok [Project_Pb (mkProject 9 5 "db" "Db" "" ItemStatus_Active 1000 1000)]).
Proof.
  split; [|by vm_compute].
  apply (admin_reads_every_row example_admin ItemStatus_Unknown 1 (id_string 5) 5);
    [done|by vm_compute|by vm_compute| | | |].
  - repeat apply Forall_cons_2; [apply (bool_decide_unpack (NoDup _)); by vm_compute..|].
    apply Forall_nil_2.
  - repeat apply Forall_cons_2; [apply (bool_decide_unpack (NoDup _)); by vm_compute..|].
    apply Forall_nil_2.
  - intros o Ho Hz. apply (list_elem_of_fmap_2 o_ID) in Ho. rewrite Hz in Ho. revert Ho.
    apply (bool_decide_unpack (~ _)). by vm_compute.
  - intros p Hp Hz. apply (list_elem_of_fmap_2 Tenancy.p_ID) in Hp. rewrite Hz in Hp.
    revert Hp. apply (bool_decide_unpack (~ _)). by vm_compute.
Defined.
