(* ===== verification/Cis.v ===== *)
(** The Certificate Information Service ([server/service/cis/cis.go]): the
    read-only view of the CA tables for authenticated callers.

    A lookup names an issuer, a certificate or a CRL; the views carry no
    tenancy and none of the fields a client owns. *)
From Stdlib Require Import ZArith Lia Ascii.
From stdpp Require Import base list gmap strings pretty.
From S2P Require Import Prelude GoStrings Xdb Roles Scopes Tenancy Grants Authorizer Methods Access Model Query Sql CaQuery CaDb PathLength Base64 Keys Pbconv Lru Registry Crl RowPb IssuerBuild TenantScope BackendIssuers BackendCerts.

(** [strings.ReplaceAll] with a nonempty [old]: [skipped] bytes of an
    occurrence are left. *)
Fixpoint replace_from (old new s : string) (skipped : nat) : string :=
  match s with
  | EmptyString => EmptyString
  | String a s' =>
      match skipped with
      | S k => replace_from old new s' k
      | O => if HasPrefix s old
             then (new ++ replace_from old new s' (String.length old - 1))%string
             else String a (replace_from old new s' 0)
      end
  end.
Definition ReplaceAll (s old new : string) : string := replace_from old new s 0.

Definition IssuerIDVariable : string := "${ISSUER_ID}".
Definition IssuerIDPlaceholder : string := ":ISSUER_ID".
Definition ExpandIssuerURL (template skid : string) : string :=
  ReplaceAll (ReplaceAll template IssuerIDVariable skid) IssuerIDPlaceholder skid.

(** ** Messages *)

Record GetRootsRequest := mkGetRoots {
  gt_OrgID : string; gt_Limit : Z; gt_Offset : Z; gt_Cursor : string }.
Record GetCertificateInfoRequest := mkGetCertificateInfo {
  gf_ID : string; gf_SKID : string; gf_Sha256 : string;
  gf_IssuerSerial : option IssuerSerial }.

Record IssuerInfo := mkIssuerInfo {
  nf_Label : string; nf_Type : AuthorityType_Enum; nf_Status : IssuerStatus_Enum;
  nf_SKID : string; nf_Subject : string; nf_NotBefore : string; nf_NotAfter : string;
  nf_Certificate : string; nf_Intermediates : string; nf_Root : string;
  nf_CrlURL : string; nf_OcspURL : string; nf_AiaURL : string }.

Record CertificateStatusResponse := mkCertificateStatus {
  cr_IKID : string; cr_SerialNumber : string; cr_Status : CertificateStatus_Enum;
  cr_NotAfter : string; cr_RevokedAt : string; cr_Reason : Z }.

Section cis.
Context `{Xdb, Codec, ProfileCodec, Porto}.

(** A read whose missing row has its own answer. *)
Definition cis_found {X} (missing failure : string) (m : M Db X) : M Db X :=
  catch m (fun r => match r with
    | Ok x => ret x
    | Err e => if IsNotFoundError e then fail (Grpc NotFound missing)
               else fail (WrapWithCtx e failure)
    end).
(** A present request. *)
Definition cis_required {R} (req : option R) : M Db R :=
  match req with
  | Some r => ret r
  | None => fail (invalidArgument "missing request")
  end.

(** ** Trust anchors and issuers *)

Definition CIS_GetRoots (req : option GetRootsRequest)
  : M Db (list RootCertificate_pb * option NextPage_pb) :=
  let! req := cis_required req in
  let! cursor := lift_result (ListCursor (gt_Cursor req) ParseCursor) in
  let page := mkPageRequest (Limit (gt_Limit req)) (gt_Offset req) cursor in
  let! scope :=
    (if bool_decide (gt_OrgID req = EmptyString)
     then ret (mkScope 0 true false 0 Scope_Undefined None)
     else match parse_id (gt_OrgID req) with
          | None => fail (invalidArgument "invalid org ID")
          | Some orgID => ret (mkScope orgID false false 0 Scope_Undefined None)
          end) in
  let! res := catch (ListRoots (mkListRoots scope page)) (fun r => match r with
    | Ok x => ret x
    | Err e => fail (WrapWithCtx e "failed to list roots")
    end) in
  ret (RootCertificateResult_Pb res).

Definition issuedIssuer (ikid : string) : M Db Issuer :=
  let! row := cis_found "issuer not found" "unable to find issuer"
                (GetIssuerBySKID ikid) in
  guard (negb (bool_decide (i_Status row = IssuerStatus_Pending) ||
               bool_decide (i_Pem row = EmptyString)))
    (Grpc NotFound "issuer not found") ;;;
  ret row.

(** The view of an issuer with its settings. *)
Definition issuerInfo (row : Issuer) (cfg : IssuerConfig) : IssuerInfo :=
  mkIssuerInfo (i_Label row) (i_Type row) (i_Status row) (i_Skid row) (i_Subject row)
    (Time_String (i_NotBefore row)) (Time_String (i_NotAfter row)) (i_Pem row)
    (i_ChainPem row) (i_RootPem row) (ExpandIssuerURL (ic_CrlURL cfg) (i_Skid row))
    (ExpandIssuerURL (ic_OcspURL cfg) (i_Skid row))
    (ExpandIssuerURL (ic_AiaURL cfg) (i_Skid row)).

(** [req] is the IKID of the request. *)
Definition CIS_GetIssuer (req : option string) : M Db IssuerInfo :=
  let! ikid := cis_required req in
  guard (negb (bool_decide (ikid = EmptyString))) (invalidArgument "missing IKID") ;;;
  let! row := issuedIssuer ikid in
  match GetConfig (id_string (i_ID row)) (i_Config row) with
  | Err _ => fail (Grpc Internal "unable to read issuer")
  | Ok cfg => ret (issuerInfo row cfg)
  end.

(** ** Certificates *)

Definition cis_certificateBySKID (skid : string) : M Db Certificate :=
  let! res := ListCertificates (mkListCertificates
    (mkScope 0 false true 0 Scope_Undefined None) "" skid ""
    CertificateStatus_Unknown None (mkPageRequest 1 0 zeroCursor)) in
  match pr_rows res with
  | [] => fail (CheckNotFoundError NoRows "certificate" skid)
  | row :: _ => ret row
  end.

Definition cis_findCertificate (req : GetCertificateInfoRequest) : M Db Certificate :=
  let row := cis_found "certificate not found" "unable to find certificate" in
  if negb (bool_decide (gf_ID req = EmptyString)) then
    match parse_id (gf_ID req) with
    | None => fail (invalidArgument "invalid certificate ID")
    | Some id => row (GetCertificate id)
    end
  else match serialNamed (gf_IssuerSerial req) with
  | Some x =>
      guard (negb (bool_decide (is_IKID x = EmptyString) ||
                   bool_decide (is_Serial x = EmptyString)))
        (invalidArgument "issuer key ID and serial number are required") ;;;
      row (GetCertificateByIssuerSerial (is_IKID x) (is_Serial x))
  | None =>
      if negb (bool_decide (gf_Sha256 req = EmptyString))
      then row (GetCertificateBySha256 (gf_Sha256 req))
      else if negb (bool_decide (gf_SKID req = EmptyString))
      then row (cis_certificateBySKID (gf_SKID req))
      else fail (invalidArgument
        "certificate ID, SKID, SHA-256 or issuer serial is required")
  end.

(** The certificate without the tenancy and the client-owned fields. *)
Definition publicCertificate (m : Certificate) : Certificate_pb :=
  let res := Certificate_Pb m in
  mkCertificatePb (xp_ID res) "" "" (xp_SKID res) (xp_IKID res) (xp_SerialNumber res)
    (xp_NotBefore res) (xp_NotAfter res) (xp_Subject res) (xp_Issuer res)
    (xp_Sha256 res) "" (xp_Pem res) (xp_IssuersPem res) (xp_Locations res) "" []
    (xp_Status res) (xp_CreatedAt res).

Definition CIS_GetCertificate (req : option GetCertificateInfoRequest)
  : M Db Certificate_pb :=
  let! req := cis_required req in
  let! row := cis_findCertificate req in
  ret (publicCertificate row).

Definition CIS_GetCertificateStatus (req : option GetCertificateInfoRequest)
  : M Db CertificateStatusResponse :=
  let! req := cis_required req in
  let! row := cis_findCertificate req in
  let res status revokedAt reason :=
    mkCertificateStatus (c_Ikid row) (c_SerialNumber row) status
      (Time_String (c_NotAfter row)) revokedAt reason in
  let! now := Now in
  match c_Status row with
  | CertificateStatus_Revoked =>
      catch (GetRevoked (mkGetRevoked (c_ID row) "" "")) (fun r => match r with
      | Err e => if IsNotFoundError e
                 then fail (Grpc Internal "revocation record is missing")
                 else fail (WrapWithCtx e "unable to get revoked certificate")
      | Ok revoked => ret (res CertificateStatus_Revoked
                             (Time_String (r_RevokedAt revoked)) (r_Reason revoked))
      end)
  | CertificateStatus_Active =>
      ret (res (if Certificate_IsExpired row now then CertificateStatus_Expired
                else CertificateStatus_Active) EmptyString 0%Z)
  | status => ret (res status EmptyString 0%Z)
  end.

(** ** CRLs *)

Definition publicCrl (m : Crl) : Crl_pb :=
  let res := Crl_Pb m in
  mkCrlPb (kp_ID res) "" (kp_IssuerID res) (kp_IKID res) (kp_Number res)
    (kp_ThisUpdate res) (kp_NextUpdate res) (kp_Issuer res) (kp_Pem res)
    (kp_Locations res).

(** [req] is the IKID of the request. *)
Definition CIS_GetCRL (req : option string) : M Db Crl_pb :=
  let! ikid := cis_required req in
  guard (negb (bool_decide (ikid = EmptyString))) (invalidArgument "missing IKID") ;;;
  let! row := cis_found "CRL not found" "unable to find CRL" (GetCrl ikid) in
  ret (publicCrl row).
End cis.
