(* ===== verification/CisFacts.v ===== *)
(** What the Certificate Information Service answers: its status of a
    certificate is the status an OCSP response states, and its answers do not
    depend on what belongs to the orgs. *)
From Stdlib Require Import ZArith Lia Ascii.
From stdpp Require Import base list gmap sets strings pretty sorting.
From S2P Require Import Prelude GoStrings Xdb Roles Scopes Tenancy Grants Authorizer Methods Access Model Query Sql CaQuery CaDb CaDbFacts PathLength Base64 Keys Pbconv Lru Registry RegistryFacts RegistryDb Crl RowPb IssuerBuild TenantScope TenantScopeFacts BackendIssuers BackendCerts BackendSteps BackendAnswers Cis.

(** ** Lists under a projection *)

Section projected.
Context {A B : Type} (f : A -> B).

Context (R : relation A) `{RD : !RelDecision R} (S : relation B) `{SD : !RelDecision S}.
Hypothesis same : forall a a', R a a' <-> S (f a) (f a').

Lemma list_merge_fmap l1 l2 :
  list_merge S (f <$> l1) (f <$> l2) = f <$> list_merge R l1 l2.
Proof.
  revert l2. induction l1 as [|a l1 IH]; intros l2.
  { by rewrite fmap_nil, !list_merge_nil_l. }
  induction l2 as [|b l2 IH2]; [by rewrite fmap_nil, !list_merge_nil_r|].
  rewrite !fmap_cons, !list_merge_cons.
  destruct (decide (R a b)) as [HR|HR], (decide (S (f a) (f b))) as [HS|HS];
    rewrite ?fmap_cons; f_equal.
  - rewrite <-fmap_cons. apply IH.
  - by destruct HS; apply same.
  - by destruct HS; apply same.
  - by destruct HR; apply same.
  - by destruct HR; apply same.
  - exact IH2.
Qed.

(** The stack of the sort: sorted runs, by the power of two of their length. *)
Let smap : list (option (list A)) -> list (option (list B)) :=
  fmap (M:=list) (fmap (M:=option) (fmap (M:=list) f)).

Lemma merge_list_to_stack_fmap st (l : list A) :
  merge_list_to_stack S (smap st) (f <$> l) = smap (merge_list_to_stack R st l).
Proof.
  revert l. induction st as [|[l'|] st IH]; intros l; [done| |done].
  cbn. f_equal. rewrite <-IH. by rewrite <-list_merge_fmap.
Qed.

Lemma merge_stack_fmap st : merge_stack S (smap st) = f <$> merge_stack R st.
Proof.
  induction st as [|[l|] st IH]; [done| |done].
  cbn. rewrite <-list_merge_fmap. by rewrite <-IH.
Qed.

Lemma merge_sort_fmap l : merge_sort S (f <$> l) = f <$> merge_sort R l.
Proof.
  unfold merge_sort. change (@nil (option (list B))) with (smap []).
  generalize (@nil (option (list A))) as st. induction l as [|a l IH]; intros st.
  - apply merge_stack_fmap.
  - rewrite fmap_cons. cbn [merge_sort_aux]. rewrite <-IH. f_equal.
    by rewrite <-merge_list_to_stack_fmap.
Qed.
End projected.

Lemma pageRows_fmap {A B} (f : A -> B) (ra : A -> Z) (rb : B -> Z) rows limit offset c :
  (forall a, rb (f a) = ra a) ->
  pageRows rb (f <$> rows) limit offset c = f <$> pageRows ra rows limit offset c.
Proof.
  intros Hid. unfold pageRows, pageByIDDesc.
  rewrite (merge_sort_fmap f (newer_first ra) (newer_first rb))
    by (intros a a'; unfold newer_first; by rewrite !Hid).
  destruct (cur_key c) as [key|].
  - rewrite filter_fmap, fmap_take. do 2 f_equal. apply List.filter_ext. intros a.
    destruct key as [|[] []]; rewrite ?Hid; done.
  - destruct (cur_set c); by rewrite fmap_take, ?fmap_drop.
Qed.

(** ** What the service sees *)

(** A certificate without its tenancy and the fields of its org. *)
Definition public_certificate (c : Certificate) : Certificate :=
  mkCertificate (c_ID c) 0 0 (c_Skid c) (c_Ikid c) (c_SerialNumber c) (c_NotBefore c)
    (c_NotAfter c) (c_Subject c) (c_Issuer c) (c_Sha256 c) "" "" (c_Locations c) []
    (c_Pem c) (c_IssuersPem c) (c_Status c) (c_CreatedAt c).
(** A revocation without its tenancy and the text of its reason. *)
Definition public_revoked (r : Revoked) : Revoked :=
  mkRevoked (r_ID r) 0 0 (r_CertificateID r) (r_Ikid r) (r_SerialNumber r)
    (r_NotAfter r) (r_RevokedAt r) (r_Reason r) "".
(** An issuer without its tenancy and its key material. *)
Definition public_issuer (i : Issuer) : Issuer :=
  mkIssuer (i_ID i) 0 0 (i_Label i) (i_Type i) (i_Status i) 0 (i_Skid i) (i_Ikid i)
    (i_SerialNumber i) (i_Subject i) (i_Issuer i) (i_Sha256 i) (i_NotBefore i)
    (i_NotAfter i) (i_Pem i) (i_ChainPem i) (i_RootPem i) "" "" "" "" (i_Config i)
    (i_CrlNumber i) 0 0.
Definition public_crl (l : Crl) : Crl :=
  mkCrl (l_ID l) 0 0 (l_IssuerID l) (l_Ikid l) (l_CrlNumber l) (l_ThisUpdate l)
    (l_NextUpdate l) (l_Issuer l) (l_Pem l) (l_Locations l) (l_CreatedAt l).

(** Two databases that differ in what belongs to the orgs only: tenancy,
    labels, profiles, metadata, the text of a revocation, key material, the
    tables of orgs, projects, profiles, roots and events. *)
Record same_public (d d' : Db) : Prop := mkSamePublic {
  sp_now : db_now d = db_now d';
  sp_issuers : public_issuer <$> db_issuers d = public_issuer <$> db_issuers d';
  sp_certificates :
    public_certificate <$> db_certificates d = public_certificate <$> db_certificates d';
  sp_revoked : public_revoked <$> db_revoked d = public_revoked <$> db_revoked d';
  sp_crls : public_crl <$> db_crls d = public_crl <$> db_crls d' }.

Definition result_map {A B} (f : A -> B) (r : result A) : result B :=
  match r with Ok a => Ok (f a) | Err e => Err e end.

(** The two computations read, and answer alike up to [f] on databases of the
    same public content. *)
Definition alike {A B} (f : A -> B) (m m' : M Db A) : Prop := forall d d',
  same_public d d' ->
  result_map f (m d).1 = result_map f (m' d').1 /\ (m d).2 = d /\ (m' d').2 = d'.

Section alike.
Context {A B C : Type} (f : A -> B).

Lemma alike_ret a a' : f a = f a' -> alike f (ret a) (ret a').
Proof. intros E d d' _. by simpl; rewrite E. Qed.
Lemma alike_fail e : alike f (fail e) (fail e).
Proof. by intros d d' _. Qed.
Lemma alike_lift r r' : result_map f r = result_map f r' ->
  alike f (lift_result r) (lift_result r').
Proof. by intros E d d' _. Qed.

Lemma alike_catch {X} (g : X -> C) m m' (k k' : result A -> M Db X) :
  alike f m m' ->
  (forall r r', result_map f r = result_map f r' -> alike g (k r) (k' r')) ->
  alike g (catch m k) (catch m' k').
Proof.
  intros Hm Hk d d' Hd. unfold catch. destruct (Hm d d' Hd) as (E & Es & Es').
  destruct (m d) as [r s], (m' d') as [r' s']. simpl in *. subst s s'. by apply Hk.
Qed.

Lemma alike_bind {X} (g : X -> C) m m' (k k' : A -> M Db X) :
  alike f m m' -> (forall a a', f a = f a' -> alike g (k a) (k' a')) ->
  alike g (bind m k) (bind m' k').
Proof.
  intros Hm Hk d d' Hd. unfold bind. destruct (Hm d d' Hd) as (E & Es & Es').
  destruct (m d) as [[a|e] s], (m' d') as [[a'|e'] s']; simpl in *; subst s s'; try done.
  - injection E as E. by apply Hk.
  - by injection E as ->.
Qed.

End alike.

Lemma alike_read {A X C} (g : X -> C) (m : M Db A) (k k' : A -> M Db X) :
  alike id m m -> (forall a, alike g (k a) (k' a)) -> alike g (bind m k) (bind m k').
Proof.
  intros Hm Hk. apply (alike_bind id); [done|]. intros a a' E. unfold id in E. by subst.
Qed.

(** A row selected by its public part. *)
Lemma alike_row `{Xdb} {R} (f : R -> R) (t : Table R) (p : R -> bool) name key :
  (forall a, p a = p (f a)) ->
  (forall d d', same_public d d' -> f <$> tab_rows t d = f <$> tab_rows t d') ->
  alike f (check_not_found name key (select t (select_row p)))
    (check_not_found name key (select t (select_row p))).
Proof.
  intros Hp Ht d d' Hd. apply Ht in Hd.
  assert (forall l, f <$> List.find p l = List.find p (f <$> l)) as Hf.
  { intros l. rewrite find_fmap. f_equal. induction l as [|a l IH]; [done|].
    simpl. by rewrite <-Hp, IH. }
  assert (f <$> List.find p (tab_rows t d) = f <$> List.find p (tab_rows t d')) as E
    by (by rewrite !Hf, Hd).
  unfold check_not_found, catch, select, select_row.
  destruct (List.find p (tab_rows t d)), (List.find p (tab_rows t d'));
    simpl in *; try done. by injection E as ->.
Qed.

Ltac cis_agree :=
  repeat match goal with
  | |- alike _ (ret _) (ret _) => apply alike_ret
  | |- alike _ (fail _) (fail _) => apply alike_fail
  | |- alike _ (if ?b then _ else _) (if ?b then _ else _) => destruct b
  end; try done.

Section answers.
Context `{XL : XdbLaws, Codec, ProfileCodec, Porto}.

Lemma alike_required {R} (req : option R) : alike id (cis_required req) (cis_required req).
Proof. destruct req; cbn [cis_required]; cis_agree. Qed.

Lemma alike_guard b e : alike id (guard (S:=Db) b e) (guard b e).
Proof. unfold guard. cis_agree. Qed.

Lemma alike_found {A B} (f : A -> B) missing failure m :
  alike f m m -> alike f (cis_found missing failure m) (cis_found missing failure m).
Proof.
  intros Hm. unfold cis_found. eapply alike_catch; [exact Hm|].
  intros [a|e] [a'|e'] [= E]; cis_agree. subst. cis_agree.
Qed.

Lemma same_certificates d d' : same_public d d' ->
  public_certificate <$> tab_rows certificates d =
  public_certificate <$> tab_rows certificates d'.
Proof. apply sp_certificates. Qed.

Lemma alike_certificateBySKID skid :
  alike public_certificate (cis_certificateBySKID skid) (cis_certificateBySKID skid).
Proof.
  unfold cis_certificateBySKID.
  eapply (alike_bind (fun r => public_certificate <$> pr_rows r)).
  - unfold ListCertificates. apply alike_read; [by apply alike_lift|].
    intros _ d d' Hd. unfold listTable, select. simpl. split; [|done].
    set (q := mkListCertificates _ _ _ _ _ _ _). f_equal.
    assert (forall l, public_certificate <$> List.filter (ListCertificates_where q) l =
      List.filter (ListCertificates_where q) (public_certificate <$> l)) as Hw.
    by (intros l; by rewrite filter_fmap).
    rewrite <-!(pageRows_fmap public_certificate c_ID c_ID), !Hw by done.
    by rewrite (sp_certificates _ _ Hd).
  - intros r r' E. destruct (pr_rows r) as [|c l], (pr_rows r') as [|c' l'];
      [apply alike_fail|discriminate E|discriminate E|].
    apply alike_ret. exact (f_equal (hd (public_certificate c)) E).
Qed.

Lemma alike_findCertificate req :
  alike public_certificate (cis_findCertificate req) (cis_findCertificate req).
Proof.
  unfold cis_findCertificate. destruct (negb _).
  { destruct (parse_id _); cis_agree. apply alike_found.
    by apply alike_row; [|apply same_certificates]. }
  destruct (serialNamed _).
  { apply alike_read; [apply alike_guard|]. intros _. apply alike_found.
    by apply alike_row; [|apply same_certificates]. }
  destruct (negb _); [|destruct (negb _)]; cis_agree; apply alike_found.
  - by apply alike_row; [|apply same_certificates].
  - apply alike_certificateBySKID.
Qed.

Lemma alike_issuedIssuer ikid :
  alike public_issuer (issuedIssuer ikid) (issuedIssuer ikid).
Proof.
  unfold issuedIssuer. eapply (alike_bind public_issuer).
  - apply alike_found. apply alike_row; [done|]. intros d d'. apply sp_issuers.
  - intros row row' E.
    rewrite (f_equal i_Status E : i_Status row = i_Status row').
    rewrite (f_equal i_Pem E : i_Pem row = i_Pem row').
    apply alike_read; [apply alike_guard|]. intros _. by apply alike_ret.
Qed.

Lemma alike_GetIssuer req : alike id (CIS_GetIssuer req) (CIS_GetIssuer req).
Proof.
  unfold CIS_GetIssuer. apply alike_read; [apply alike_required|].
  intros ikid. apply alike_read; [apply alike_guard|]. intros _.
  eapply alike_bind; [apply alike_issuedIssuer|]. intros row row' E.
  rewrite (f_equal i_ID E : i_ID row = i_ID row').
  rewrite (f_equal i_Config E : i_Config row = i_Config row').
  destruct (GetConfig _ _) as [cfg|]; cis_agree.
  exact (f_equal (fun i => issuerInfo i cfg) E).
Qed.

Lemma alike_GetCertificate req :
  alike id (CIS_GetCertificate req) (CIS_GetCertificate req).
Proof.
  unfold CIS_GetCertificate. apply alike_read; [apply alike_required|].
  intros q. eapply alike_bind; [apply alike_findCertificate|].
  intros row row' E. apply alike_ret. exact (f_equal publicCertificate E).
Qed.

Lemma alike_Now : alike id Now Now.
Proof. intros d d' Hd. unfold Now. simpl. by rewrite (sp_now _ _ Hd). Qed.

Lemma alike_GetRevoked id' :
  alike public_revoked (GetRevoked (mkGetRevoked id' "" ""))
    (GetRevoked (mkGetRevoked id' "" "")).
Proof.
  unfold GetRevoked. apply alike_read; [by apply alike_lift|]. intros _.
  apply alike_row; [done|]. intros d d'. apply sp_revoked.
Qed.

Lemma alike_GetCertificateStatus req :
  alike id (CIS_GetCertificateStatus req) (CIS_GetCertificateStatus req).
Proof.
  unfold CIS_GetCertificateStatus. apply alike_read; [apply alike_required|].
  intros q. eapply alike_bind; [apply alike_findCertificate|].
  intros row row' E.
  rewrite <-(f_equal c_Status E : c_Status row = c_Status row').
  rewrite <-(f_equal c_ID E : c_ID row = c_ID row').
  rewrite <-(f_equal c_Ikid E : c_Ikid row = c_Ikid row').
  rewrite <-(f_equal c_SerialNumber E : c_SerialNumber row = c_SerialNumber row').
  pose proof (f_equal c_NotAfter E : c_NotAfter row = c_NotAfter row') as Hn.
  apply alike_read; [apply alike_Now|]. intros now.
  unfold Certificate_IsExpired. rewrite Hn.
  destruct (c_Status row); cis_agree.
  eapply alike_catch; [apply alike_GetRevoked|].
  intros [r|e] [r'|e'] Er; try discriminate Er; [|injection Er as ->; cis_agree].
  injection Er as Eid Ec Ek Es Ena Eat Er. apply alike_ret. by rewrite Eat, Er.
Qed.

Lemma alike_GetCRL req : alike id (CIS_GetCRL req) (CIS_GetCRL req).
Proof.
  unfold CIS_GetCRL. apply alike_read; [apply alike_required|].
  intros ikid. apply alike_read; [apply alike_guard|]. intros _.
  eapply (alike_bind public_crl).
  - apply alike_found. apply alike_row; [done|].
    intros d d'. apply sp_crls.
  - intros l l' E. apply alike_ret. exact (f_equal publicCrl E).
Qed.

(** The answers of the service do not depend on what belongs to the orgs.
    On two databases of the same public content, which may differ in the
    tenancy of the rows, the labels, profiles and metadata of certificates,
    the texts of revocations and the keys of issuers, every lookup has the
    same answer or the same error, and no lookup changes a row. *)
Theorem cis_hides_tenancy (d d' : Db) (Hd : same_public d d') :
  (forall req, (CIS_GetIssuer req d).1 = (CIS_GetIssuer req d').1 /\
     (CIS_GetIssuer req d).2 = d) /\
  (forall req, (CIS_GetCertificate req d).1 = (CIS_GetCertificate req d').1 /\
     (CIS_GetCertificate req d).2 = d) /\
  (forall req,
     (CIS_GetCertificateStatus req d).1 = (CIS_GetCertificateStatus req d').1 /\
     (CIS_GetCertificateStatus req d).2 = d) /\
  (forall req, (CIS_GetCRL req d).1 = (CIS_GetCRL req d').1 /\
     (CIS_GetCRL req d).2 = d).
Proof.
  assert (forall X (m : M Db X), alike id m m -> (m d).1 = (m d').1 /\ (m d).2 = d) as Hm.
  { intros X m Hm. destruct (Hm d d' Hd) as (E & Es & _). split; [|done].
    by destruct (m d).1, (m d').1. }
  split_and!; intros req; apply Hm.
  - apply alike_GetIssuer.
  - apply alike_GetCertificate.
  - apply alike_GetCertificateStatus.
  - apply alike_GetCRL.
Qed.
End answers.

(** ** The status agrees with OCSP *)

Section status.
Context `{XL : XdbLaws, Codec, IdGen, ChainLib, ProfileCodec, AuthorityLaws, !IssuerLib, !CrlLib, !SignLib, LRULaws, Porto, TimeLib}.
Context {A : Type} `{!Authorizer A}.
Notation St := (BkState (A:=A)).
Notation db s := (rg_db (bk_rg s)).

(** The request of a certificate by its issuer and serial number. *)
Definition by_serial (ikid : string) (serial : Z) : GetCertificateInfoRequest :=
  mkGetCertificateInfo "" "" "" (Some (mkIssuerSerial ikid (pretty serial))).

(** The status of a certificate that is not revoked, at the time. *)
Definition unrevoked_status (now : Z) (c : Certificate) : CertificateStatus_Enum :=
  if bool_decide (c_Status c = CertificateStatus_Active) && Certificate_IsExpired c now
  then CertificateStatus_Expired else c_Status c.

(** The status answer that says what an OCSP response says. *)
Definition same_status (d : Db) (ikid : string) (serial : Z) (r : OCSPSignRequest)
    (answer : result CertificateStatusResponse) : Prop :=
  match os_Status r with
  | OCSPStatusUnknown => answer = Err (Grpc NotFound "certificate not found")
  | OCSPStatusGood => exists c, issued d ikid serial c /\
      c_Status c <> CertificateStatus_Revoked /\
      answer = Ok (mkCertificateStatus ikid (pretty serial)
        (unrevoked_status (db_now d) c) (Time_String (c_NotAfter c)) "" 0)
  | OCSPStatusRevoked => exists c, issued d ikid serial c /\
      answer = Ok (mkCertificateStatus ikid (pretty serial) CertificateStatus_Revoked
        (Time_String (c_NotAfter c)) (Time_String (os_RevokedAt r)) (os_Reason r))
  end.

Lemma pretty_N_go_nonempty x s : s <> ""%string -> pretty_N_go x s <> ""%string.
Proof.
  revert s. induction (N.lt_wf_0 x) as [x _ IH]; intros s Hs.
  destruct (decide (x = 0)%N) as [->|]; [by rewrite pretty_N_go_0|].
  rewrite pretty_N_go_step by lia. apply IH; [apply N.div_lt; lia|done].
Qed.

Lemma pretty_nonempty (z : Z) : pretty z <> ""%string.
Proof.
  destruct z as [|p|p]; [done| |done].
  change (pretty_N_go (N.pos p) "" <> ""%string).
  rewrite pretty_N_go_step by lia. by apply pretty_N_go_nonempty.
Qed.

Lemma find_by_serial ikid serial (d : Db) :
  ikid <> ""%string ->
  cis_findCertificate (by_serial ikid serial) d =
  cis_found "certificate not found" "unable to find certificate"
    (GetCertificateByIssuerSerial ikid (pretty serial)) d.
Proof.
  intros Hk. pose proof (pretty_nonempty serial) as Hs.
  unfold cis_findCertificate, serialNamed, by_serial. simpl.
  rewrite (bool_decide_false (ikid = _)), (bool_decide_false (pretty serial = _)) by done.
  cbn [andb is_IKID is_Serial].
  by rewrite (bool_decide_false (ikid = _)), (bool_decide_false (pretty serial = _)).
Qed.

(** C38: the status lookup and an OCSP response never disagree.  For every
    issuer key and serial number of a well-formed database, the lookup of the
    certificate is not found exactly when the OCSP status is Unknown, it is
    Revoked with the time and the reason the response carries exactly when
    the status is Revoked, and otherwise it is the recorded status of a
    certificate of the issuer, or Expired once its validity has ended. *)
Theorem cis_agrees_with_ocsp (s : St) (ikid : string) (serial alg : Z)
    (Hwf : db_wf (db s)) (Hk : ikid <> ""%string) :
  exists r, (ocspStatus ikid serial alg s).1 = Ok r /\
    same_status (db s) ikid serial r
      (CIS_GetCertificateStatus (Some (by_serial ikid serial)) (db s)).1.
Proof.
  unfold CIS_GetCertificateStatus, cis_required, bind at 1, ret at 1.
  unfold bind at 1. rewrite find_by_serial by done.
  unfold ocspStatus, cis_found, catch at 1 3, GetCertificateByIssuerSerial.
  destruct (List.find (fun c => bool_decide (c_Ikid c = ikid) &&
    bool_decide (c_SerialNumber c = pretty serial)) (db_certificates (db s))) as [c|] eqn:E.
  - pose proof (checked_select_ok certificates "certificate"
      (ikid ++ "/" ++ pretty serial) _ _ _ E) as Eg.
    rewrite (bk_db_read _ s _ Eg), Eg.
    apply find_elem in E as [Hin Hw].
    rewrite andb_true_iff, !bool_decide_eq_true in Hw. destruct Hw as [Hkc Hsc].
    unfold bind, Now, ret. rewrite Hkc, Hsc.
    case_bool_decide as Hst.
    + destruct (GetRevoked_finds _ _ Hwf Hin Hst) as (rev & Er & Hr & Hof).
      unfold catch. rewrite (bk_db_read _ s _ Er), Hst, Er. eexists. split; [done|].
      exists c. by split; [|done].
    + eexists. split; [done|]. exists c. split; [done|]. split; [done|].
      unfold unrevoked_status. by destruct (c_Status c), (Certificate_IsExpired c _).
  - destruct (checked_select_none certificates "certificate"
      (ikid ++ "/" ++ pretty serial) _ _ E) as (e & Ee & Hn).
    rewrite (bk_db_read _ s _ Ee), Ee, Hn. eexists. by split.
Qed.
End status.
