(* ===== verification/OcspText.v ===== *)
(** The text of an OCSP request in a path (RFC 6960 A.1): [url.QueryUnescape]
    and [base64.StdEncoding] of the Go standard library, and the reading of
    the path segment in [server/service/aia/aia.go].

    A client sends the base64 of the request with any of its characters
    escaped, after a stray slash or not; the segment reads back as the
    request. *)
From Stdlib Require Import NArith Lia Ascii.
From stdpp Require Import base list strings.
From S2P Require Import Prelude GoStrings Base64.
Local Open Scope N_scope.

(** ** [url.QueryUnescape] *)

Definition plus_char : ascii := "+".
Definition space_char : ascii := " ".
Definition slash_char : ascii := "/".
Definition percent_char : ascii := "%".
Definition pad_char : ascii := "=".

(** The value of a hexadecimal digit. *)
Definition unhex (c : ascii) : option N :=
  if byte_in c 48 57 then Some (N_of_ascii c - 48)
  else if byte_in c 97 102 then Some (N_of_ascii c - 87)
  else if byte_in c 65 70 then Some (N_of_ascii c - 55)
  else None.

Fixpoint QueryUnescape (s : string) : option string :=
  match s with
  | EmptyString => Some EmptyString
  | String c r =>
      if Ascii.eqb c percent_char then
        match r with
        | String h (String l r') =>
            x ← unhex h; y ← unhex l; t ← QueryUnescape r';
            Some (String (ascii_of_N (x * 16 + y)) t)
        | _ => None
        end
      else
        t ← QueryUnescape r;
        Some (String (if Ascii.eqb c plus_char then space_char else c) t)
  end.

(** ** [base64.StdEncoding] *)

Definition stdenc6 (n : N) : ascii :=
  if n =? 62 then plus_char else if n =? 63 then slash_char else enc6 n.
Definition stddec6 (c : ascii) : option N :=
  if Ascii.eqb c plus_char then Some 62
  else if Ascii.eqb c slash_char then Some 63
  else if Ascii.eqb c "-" || Ascii.eqb c "_" then None
  else dec6 c.

Fixpoint StdEncode (s : string) : string :=
  match s with
  | EmptyString => EmptyString
  | String a EmptyString =>
      let a := N_of_ascii a in
      String (stdenc6 (a / 4)) (String (stdenc6 (a mod 4 * 16))
        (String pad_char (String pad_char EmptyString)))
  | String a (String b EmptyString) =>
      let a := N_of_ascii a in
      let b := N_of_ascii b in
      String (stdenc6 (a / 4)) (String (stdenc6 (a mod 4 * 16 + b / 16))
        (String (stdenc6 (b mod 16 * 4)) (String pad_char EmptyString)))
  | String a (String b (String c r)) =>
      let a := N_of_ascii a in
      let b := N_of_ascii b in
      let c := N_of_ascii c in
      String (stdenc6 (a / 4)) (String (stdenc6 (a mod 4 * 16 + b / 16))
        (String (stdenc6 (b mod 16 * 4 + c / 64)) (String (stdenc6 (c mod 64))
          (StdEncode r))))
  end.

(** Groups of four; padding ends the text. *)
Fixpoint stdGroups (s : string) : option string :=
  match s with
  | EmptyString => Some EmptyString
  | String a (String b (String c (String d r))) =>
      a ← stddec6 a; b ← stddec6 b;
      if Ascii.eqb c pad_char then
        if Ascii.eqb d pad_char && bool_decide (r = EmptyString)
        then Some (String (byte1 a b) EmptyString) else None
      else
        c ← stddec6 c;
        if Ascii.eqb d pad_char then
          if bool_decide (r = EmptyString)
          then Some (String (byte1 a b) (String (byte2 b c) EmptyString)) else None
        else
          d ← stddec6 d; r ← stdGroups r;
          Some (String (byte1 a b) (String (byte2 b c) (String (byte3 c d) r)))
  | _ => None
  end.

(** [base64.StdEncoding.DecodeString]: line ends are skipped. *)
Definition StdDecode (s : string) : option string := stdGroups (skipNewlines s).

(** ** The segment *)

(** The space an unescaped plus became is a plus again. *)
Fixpoint restorePlus (s : string) : string :=
  match s with
  | EmptyString => EmptyString
  | String c r => String (if Ascii.eqb c space_char then plus_char else c) (restorePlus r)
  end.

Definition dropSlash (s : string) : string :=
  match s with
  | String c r => if Ascii.eqb c slash_char then r else s
  | EmptyString => s
  end.

Inductive segmentError := ErrUnescape | ErrBase64.

(** The DER request of the path segment. *)
Definition requestOfSegment (query : string) : segmentError + string :=
  match QueryUnescape query with
  | None => inl ErrUnescape
  | Some base64Request =>
      match StdDecode (dropSlash (restorePlus base64Request)) with
      | None => inl ErrBase64
      | Some der => inr der
      end
  end.

(** ** Reading back *)

(** [sent text query]: the query sends the text, each character as it is or
    escaped. *)
Inductive sent : string -> string -> Prop :=
| sent_end : sent EmptyString EmptyString
| sent_plain c s q : sent s q -> sent (String c s) (String c q)
| sent_escaped c h l x y s q :
    unhex h = Some x -> unhex l = Some y -> N_of_ascii c = x * 16 + y ->
    sent s q ->
    sent (String c s) (String percent_char (String h (String l q))).

Definition sendable (c : ascii) : bool :=
  negb (Ascii.eqb c percent_char) && negb (Ascii.eqb c space_char).

Lemma sent_read s q : sent s q -> all_chars sendable s = true ->
  restorePlus <$> QueryUnescape q = Some s.
Proof.
  induction 1 as [|c s q _ IH|c h l x y s q Hh Hl Hc _ IH]; [done|..];
    cbn [all_chars]; intros [Hs Hr]%andb_true_iff; specialize (IH Hr);
    apply andb_true_iff in Hs as [Hp Hsp];
    apply negb_true_iff in Hp, Hsp; cbn [QueryUnescape].
  - rewrite Hp. destruct (QueryUnescape q) as [t|]; [|done]. simpl in *.
    injection IH as IH. rewrite IH. destruct (Ascii.eqb c plus_char) eqn:E.
    + by apply Ascii.eqb_eq in E as ->.
    + by rewrite Hsp.
  - rewrite Ascii.eqb_refl, Hh, Hl. destruct (QueryUnescape q) as [t|]; [|done].
    simpl in *. injection IH as IH.
    by rewrite IH, <-Hc, ascii_N_embedding, Hsp.
Qed.

Lemma stddec6_stdenc6 n : n < 64 -> stddec6 (stdenc6 n) = Some n.
Proof.
  intros Hn. apply (bool_decide_eq_true_1 _).
  by apply (sextets n (fun n => bool_decide (stddec6 (stdenc6 n) = Some n))).
Qed.

(** A character of the encoding is sendable, ends no line and is no padding. *)
Definition text_char (c : ascii) : bool :=
  sendable c && negb (is_newline c) && negb (Ascii.eqb c pad_char).
Lemma stdenc6_text n : n < 64 -> text_char (stdenc6 n) = true.
Proof. by apply (sextets n (fun n => text_char (stdenc6 n))). Qed.

Lemma stdenc6_facts n : n < 64 ->
  sendable (stdenc6 n) = true /\ is_newline (stdenc6 n) = false /\
  Ascii.eqb (stdenc6 n) pad_char = false.
Proof.
  intros Hn%stdenc6_text. unfold text_char in Hn.
  rewrite !andb_true_iff, !negb_true_iff in Hn. tauto.
Qed.

Ltac stdsextet :=
  match goal with
  | |- context [stdenc6 ?n] =>
      let Hs := fresh in let Hn := fresh in let Hp := fresh in let Hd := fresh in
      assert (n < 64) as Hd by (zify; Z.to_euclidean_division_equations; lia);
      destruct (stdenc6_facts n Hd) as (Hs & Hn & Hp);
      apply stddec6_stdenc6 in Hd; revert Hs Hn Hp Hd;
      generalize (stdenc6 n); intros ? Hs Hn Hp Hd
  end.

Lemma StdEncode_sendable d : all_chars sendable (StdEncode d) = true.
Proof.
  induction d as [|a|a b|a b c r IH] using string_triples; [done|..];
    pose proof (N_ascii_bounded a); try pose proof (N_ascii_bounded b);
    try pose proof (N_ascii_bounded c);
    cbn [StdEncode all_chars]; repeat stdsextet;
    repeat match goal with H : sendable _ = true |- _ => rewrite H end; done.
Qed.

Lemma StdDecode_StdEncode d : StdDecode (StdEncode d) = Some d.
Proof.
  unfold StdDecode.
  induction d as [|a|a b|a b c r IH] using string_triples; [done|..];
    pose proof (N_ascii_bounded a); try pose proof (N_ascii_bounded b);
    try pose proof (N_ascii_bounded c);
    cbn [StdEncode]; repeat stdsextet; cbn [skipNewlines];
    repeat match goal with H : is_newline _ = false |- _ => rewrite H end;
    cbn [skipNewlines stdGroups];
    repeat match goal with H : stddec6 _ = _ |- _ => rewrite H end; simpl;
    repeat match goal with H : Ascii.eqb _ pad_char = false |- _ => rewrite H; simpl end;
    repeat match goal with H : stddec6 _ = _ |- _ => rewrite H; simpl end;
    rewrite ?IH; simpl;
    repeat f_equal; apply byte_eq; zify; Z.to_euclidean_division_equations; lia.
Qed.

(** The first character is a slash only when the first byte is at least
    [0xFC]; the encoding of a DER sequence begins with [0x30]. *)
Definition sequence_first (d : string) : bool :=
  match d with
  | EmptyString => true
  | String a _ => N_of_ascii a <? 252
  end.

Lemma stdenc6_slash n : n < 63 -> Ascii.eqb (stdenc6 n) slash_char = false.
Proof.
  intros Hn. assert (implb (n <? 63) (negb (Ascii.eqb (stdenc6 n) slash_char)) = true) as E.
  { apply (sextets n (fun n => implb (n <? 63) (negb (Ascii.eqb (stdenc6 n) slash_char))));
      [done|lia]. }
  apply N.ltb_lt in Hn. rewrite Hn in E. by apply negb_true_iff in E.
Qed.

Lemma dropSlash_StdEncode d :
  sequence_first d = true -> dropSlash (StdEncode d) = StdEncode d.
Proof.
  destruct d as [|a r]; [done|]. cbn [sequence_first]. intros Ha%N.ltb_lt.
  assert (exists t, StdEncode (String a r) = String (stdenc6 (N_of_ascii a / 4)) t)
    as [t ->] by (destruct r as [|b [|c r]]; by eexists).
  cbn [dropSlash]. rewrite stdenc6_slash; [done|].
  zify. Z.to_euclidean_division_equations. lia.
Qed.

(** A request sent in the path reads back.  However the client escapes
    the base64 of the request, and with or without a second slash before it,
    the handler decodes the very bytes of the request, provided its first
    byte is below [0xFC], as that of a DER sequence is. *)
Theorem ocsp_segment_roundtrip (der query : string)
    (Hf : sequence_first der = true) (Hq : sent (StdEncode der) query) :
  requestOfSegment query = inr der /\
  requestOfSegment (String slash_char query) = inr der.
Proof.
  apply (sent_read _ _) in Hq as Hr; [|apply StdEncode_sendable].
  unfold requestOfSegment. cbn [QueryUnescape]. simpl (Ascii.eqb slash_char _).
  destruct (QueryUnescape query) as [t|]; [|done]. simpl in *.
  injection Hr as ->. by rewrite dropSlash_StdEncode, StdDecode_StdEncode.
Qed.

(** The request of two bytes [0x30 0x0f], escaped in part. *)
Lemma ocsp_segment_roundtrip_witness :
  requestOfSegment "MA8%3d" = inr (String "0" (String (ascii_of_N 15) EmptyString)) /\
  requestOfSegment "/MA8%3d" = inr (String "0" (String (ascii_of_N 15) EmptyString)).
Proof.
  apply (ocsp_segment_roundtrip (String "0" (String (ascii_of_N 15) EmptyString)) "MA8%3d");
    [reflexivity|].
  change (StdEncode _) with "MA8="%string.
  do 3 apply sent_plain. eapply (sent_escaped _ _ _ 3 13); try reflexivity. apply sent_end.
Defined.
