(* ===== verification/UrlText.v ===== *)
(** The query of a URL: [url.Values], [Encode] and [ParseQuery] of the Go
    standard library, which the sign-in answers its clients with, and their
    round trip. *)
From Stdlib Require Import NArith Lia Ascii.
From stdpp Require Import base list gmap strings sorting.
From S2P Require Import Prelude GoStrings Access OcspText.

(** ** The library *)

(** [url.Values]: the values of every name, in order. *)
Notation Values := (gmap string (list string)).

(** The digits of [%X]. *)
Definition upper_hex (n : N) : ascii :=
  ascii_of_N (if (n <? 10)%N then 48 + n else 55 + n)%N.

Definition unreserved (c : ascii) : bool :=
  alnum c || byte_is c 45 || byte_is c 46 || byte_is c 95 || byte_is c 126.

Fixpoint QueryEscape (s : string) : string :=
  match s with
  | EmptyString => EmptyString
  | String c r =>
      if unreserved c then String c (QueryEscape r)
      else if Ascii.eqb c space_char then String plus_char (QueryEscape r)
      else String percent_char
             (String (upper_hex (N_of_ascii c / 16))
                (String (upper_hex (N_of_ascii c mod 16)) (QueryEscape r)))
  end.

(** [strings.Join(l, sep)] with a separator of one byte. *)
Fixpoint Join (sep : ascii) (l : list string) : string :=
  match l with
  | [] => EmptyString
  | [s] => s
  | s :: rest => (s ++ String sep (Join sep rest))%string
  end.

Definition encodePair (p : string * string) : string :=
  (QueryEscape p.1 ++ String "=" (QueryEscape p.2))%string.

Definition value_pairs (v : Values) (k : string) : list (string * string) :=
  (fun x => (k, x)) <$> default [] (v !! k).

Definition sortedKeys (v : Values) : list string :=
  merge_sort str_le (map_to_list v).*1.

Definition Values_Encode (v : Values) : string :=
  Join "&" (encodePair <$> (sortedKeys v ≫= value_pairs v)).

(** One part of a query: a part with a semicolon, without a name or that does
    not unescape is dropped. *)
Definition parsePart (part : string) : option (string * string) :=
  if negb (all_chars (fun c => negb (Ascii.eqb c ";")) part) then None
  else if bool_decide (part = EmptyString) then None
  else let '(key, value) := Cut "=" part in
       key ← QueryUnescape key; value ← QueryUnescape value; Some (key, value).

Definition Values_Add (v : Values) (p : string * string) : Values :=
  <[p.1 := default [] (v !! p.1) ++ [p.2]]> v.

Definition ParseQuery (query : string) : Values :=
  foldl Values_Add ∅ (omap parsePart (Split "&" query)).

(** ** Escaping and unescaping *)

(** A test of the sixteen digits. *)
Lemma every_digit (p : N -> bool) n :
  forallb p (N.of_nat <$> seq 0 16) = true -> (n < 16)%N -> p n = true.
Proof.
  intros Hp Hn. apply (proj1 (forallb_forall _ _) Hp), list_elem_of_In.
  rewrite <-(N2Nat.id n). apply list_elem_of_fmap_2, elem_of_seq. lia.
Qed.

Lemma unhex_upper_hex n : (n < 16)%N -> unhex (upper_hex n) = Some n.
Proof.
  intros Hn. assert (match unhex (upper_hex n) with Some m => N.eqb m n | None => false end
    = true) as H by by apply (every_digit (fun n => match unhex (upper_hex n) with
                                                  Some m => N.eqb m n | None => false end)).
  destruct (unhex _) as [m|]; [|done]. by apply N.eqb_eq in H as ->.
Qed.

Lemma QueryUnescape_QueryEscape s : QueryUnescape (QueryEscape s) = Some s.
Proof.
  induction s as [|c r IH]; [done|]. cbn [QueryEscape].
  destruct (unreserved c) eqn:Hu; [|destruct (Ascii.eqb c space_char) eqn:Hs].
  - cbn [QueryUnescape]. rewrite IH.
    destruct (Ascii.eqb_spec c percent_char) as [->|_]; [done|].
    by destruct (Ascii.eqb_spec c plus_char) as [->|_].
  - apply Ascii.eqb_eq in Hs as ->. cbn [QueryUnescape]. by rewrite IH.
  - cbn [QueryUnescape]. rewrite Ascii.eqb_refl, IH.
    pose proof (N_ascii_bounded c) as Hc.
    rewrite !unhex_upper_hex by (first [apply N.mod_lt|apply N.Div0.div_lt_upper_bound]; lia).
    simpl. do 2 f_equal. rewrite N.mul_comm, <-N.div_mod by done. apply ascii_N_embedding.
Qed.

(** A character of an escaped text is none of the separators of a query. *)
Definition query_char (c : ascii) : bool :=
  unreserved c || Ascii.eqb c plus_char || Ascii.eqb c percent_char.

Lemma upper_hex_char n : (n < 16)%N -> query_char (upper_hex n) = true.
Proof. by apply (every_digit (fun n => query_char (upper_hex n))). Qed.

Lemma QueryEscape_chars s : all_chars query_char (QueryEscape s) = true.
Proof.
  induction s as [|c r IH]; [done|]. cbn [QueryEscape].
  destruct (unreserved c) eqn:Hu; [|destruct (Ascii.eqb c space_char)];
    cbn [all_chars]; rewrite IH, ?andb_true_r; [by unfold query_char; rewrite Hu|done|].
  pose proof (N_ascii_bounded c) as Hc.
  rewrite !upper_hex_char by (first [apply N.mod_lt|apply N.Div0.div_lt_upper_bound]; lia).
  done.
Qed.

(** ** Splitting *)

Definition no_char (sep : ascii) (s : string) : Prop :=
  all_chars (fun c => negb (Ascii.eqb c sep)) s = true.

Lemma no_char_cons sep c s : no_char sep (String c s) <-> c <> sep /\ no_char sep s.
Proof.
  unfold no_char. cbn [all_chars]. rewrite andb_true_iff, negb_true_iff.
  by rewrite Ascii.eqb_neq.
Qed.

Lemma no_char_mono (p : ascii -> bool) sep s :
  (forall c, p c = true -> c <> sep) -> all_chars p s = true -> no_char sep s.
Proof.
  intros Hp. induction s as [|c s IH]; [done|]. cbn [all_chars].
  intros [Hc Hs]%andb_true_iff. apply no_char_cons. auto.
Qed.

Lemma no_char_app sep s t : no_char sep s -> no_char sep t -> no_char sep (s ++ t)%string.
Proof.
  induction s as [|c s IH]; [done|]. rewrite no_char_cons, app_String, no_char_cons.
  naive_solver.
Qed.

Lemma Split_single sep s : no_char sep s -> Split sep s = [s].
Proof.
  induction s as [|c s IH]; [done|]. rewrite no_char_cons. intros [Hc Hs].
  cbn [Split]. rewrite bool_decide_false by done. by rewrite IH.
Qed.

Lemma Split_app sep s t : no_char sep s ->
  Split sep (s ++ String sep t)%string = s :: Split sep t.
Proof.
  induction s as [|c s IH]; [intros _; simpl; by rewrite bool_decide_true|].
  rewrite no_char_cons, app_String. intros [Hc Hs].
  cbn [Split]. rewrite bool_decide_false by done. by rewrite IH.
Qed.

Lemma Split_Join sep l : l <> [] -> Forall (no_char sep) l -> Split sep (Join sep l) = l.
Proof.
  intros Hne HF. induction HF as [|s rest Hs HF IH]; [done|].
  destruct rest as [|s2 rest]; [by apply Split_single|].
  change (Join sep (s :: s2 :: rest)) with (s ++ String sep (Join sep (s2 :: rest)))%string.
  rewrite Split_app by done. by rewrite IH.
Qed.

Lemma Cut_app sep s t : no_char sep s -> Cut sep (s ++ String sep t)%string = (s, t).
Proof.
  induction s as [|c s IH]; [intros _; simpl; by rewrite bool_decide_true|].
  rewrite no_char_cons, app_String. intros [Hc Hs].
  cbn [Cut]. rewrite bool_decide_false by done. by rewrite IH.
Qed.

Lemma Cut_spec sep s : exists rest, s = ((Cut sep s).1 ++ rest)%string /\
  no_char sep (Cut sep s).1 /\
  (rest = EmptyString \/ exists after, rest = String sep after).
Proof.
  induction s as [|c s (rest & Hs & Hn & Hr)].
  { exists EmptyString. by split_and!; [..|left]. }
  cbn [Cut]. case_bool_decide as Hc.
  - exists (String c s). split_and!; [done..|right; subst; by eexists].
  - exists rest. destruct (Cut sep s) as [b a]. simpl in *. rewrite no_char_cons.
    split_and!; [by rewrite app_String, <-Hs|done..].
Qed.

(** ** One pair *)

Lemma query_char_not c sep : query_char sep = false -> query_char c = true -> c <> sep.
Proof. by intros H1 H2 ->; rewrite H1 in H2. Qed.

Lemma QueryEscape_no_char sep s : query_char sep = false -> no_char sep (QueryEscape s).
Proof.
  intros Hs. eapply no_char_mono; [intros c; by apply query_char_not|].
  apply QueryEscape_chars.
Qed.

Lemma encodePair_no_char sep p :
  query_char sep = false -> sep <> "="%char -> no_char sep (encodePair p).
Proof.
  intros Hs Hne. unfold encodePair. apply no_char_app; [by apply QueryEscape_no_char|].
  apply no_char_cons. split; [done|by apply QueryEscape_no_char].
Qed.

Lemma parsePart_encodePair p : parsePart (encodePair p) = Some p.
Proof.
  unfold parsePart. rewrite (encodePair_no_char ";") by done. cbn [negb].
  rewrite bool_decide_false.
  2:{ unfold encodePair. by destruct (QueryEscape p.1). }
  unfold encodePair. rewrite Cut_app by by apply QueryEscape_no_char.
  rewrite !QueryUnescape_QueryEscape. simpl. by destruct p.
Qed.

(** ** A map of values *)

Lemma Values_Add_fold ps v k :
  foldl Values_Add v ps !! k =
  (if decide ((snd <$> List.filter (fun p => bool_decide (p.1 = k)) ps) = []) then v !! k
   else Some (default [] (v !! k) ++
              (snd <$> List.filter (fun p => bool_decide (p.1 = k)) ps))).
Proof.
  revert v. induction ps as [|[k' x] ps IH]; intros v; [done|].
  cbn [foldl List.filter fst]. rewrite IH.
  assert (Values_Add v (k', x) !! k =
    if decide (k' = k) then Some (default [] (v !! k) ++ [x]) else v !! k) as ->.
  { unfold Values_Add. cbn [fst snd].
    destruct (decide (k' = k)) as [->|]; [apply lookup_insert_eq|by apply lookup_insert_ne]. }
  destruct (decide (k' = k)) as [->|Hne].
  - rewrite (bool_decide_true (k = k)) by done. cbn [fmap list_fmap snd].
    rewrite (decide_False (P := _ :: _ = [])) by done.
    destruct (decide (_ = [])) as [->|_]; [done|]. simpl. f_equal. by rewrite <-app_assoc.
  - by rewrite (bool_decide_false (k' = k)).
Qed.

Lemma value_pairs_filter v k k' :
  List.filter (fun p => bool_decide (p.1 = k)) (value_pairs v k') =
  if decide (k' = k) then value_pairs v k else [].
Proof.
  unfold value_pairs. destruct (decide (k' = k)) as [->|Hne].
  - generalize (default [] (v !! k)). intros l. induction l as [|x l IH]; [done|].
    cbn. rewrite bool_decide_true by done. by rewrite IH.
  - generalize (default [] (v !! k')). intros l. induction l as [|x l IH]; [done|].
    cbn. rewrite bool_decide_false by done. by rewrite IH.
Qed.

Lemma pairs_filter v k l : NoDup l ->
  List.filter (fun p => bool_decide (p.1 = k)) (l ≫= value_pairs v) =
  if decide (k ∈ l) then value_pairs v k else [].
Proof.
  induction 1 as [|x l Hx _ IH]; [by rewrite decide_False by apply not_elem_of_nil|].
  cbn [mbind list_bind]. rewrite List.filter_app, value_pairs_filter, IH.
  destruct (decide (x = k)) as [->|Hne].
  - rewrite (decide_False (P:=k ∈ l)) by done.
    rewrite decide_True by by left. by rewrite app_nil_r.
  - destruct (decide (k ∈ l)) as [Hk|Hk].
    + by rewrite decide_True by by right.
    + rewrite decide_False; [done|]. rewrite elem_of_cons. naive_solver.
Qed.

Lemma sortedKeys_perm v : sortedKeys v ≡ₚ (map_to_list v).*1.
Proof. apply merge_sort_Permutation. Qed.

Lemma sortedKeys_NoDup v : NoDup (sortedKeys v).
Proof. rewrite sortedKeys_perm. apply NoDup_fst_map_to_list. Qed.

Lemma elem_of_sortedKeys v k : k ∈ sortedKeys v <-> is_Some (v !! k).
Proof.
  rewrite sortedKeys_perm. unfold is_Some. split.
  - intros ([k' x] & -> & Hx)%list_elem_of_fmap. exists x.
    by apply elem_of_map_to_list.
  - intros [x Hx]. apply list_elem_of_fmap. exists (k, x).
    by rewrite elem_of_map_to_list.
Qed.

(** The pairs of [v] add up to [v], when each of its names has a value. *)
Definition has_values (v : Values) : Prop := forall k, v !! k <> Some [].

Lemma fold_pairs v : has_values v ->
  foldl Values_Add ∅ (sortedKeys v ≫= value_pairs v) = v.
Proof.
  intros Hv. apply map_eq. intros k. rewrite Values_Add_fold, lookup_empty.
  rewrite pairs_filter by apply sortedKeys_NoDup.
  assert (snd <$> value_pairs v k = default [] (v !! k)) as Hs.
  { unfold value_pairs. by rewrite <-list_fmap_compose, list_fmap_id. }
  destruct (decide (k ∈ _)) as [Hk|Hk]; rewrite elem_of_sortedKeys in Hk.
  - destruct Hk as [l Hl]. rewrite Hs, Hl. simpl. rewrite decide_False; [done|].
    intros ->. by destruct (Hv k).
  - rewrite decide_True by done. by apply eq_None_not_Some in Hk as ->.
Qed.

Lemma omap_parse (ps : list (string * string)) : omap parsePart (encodePair <$> ps) = ps.
Proof.
  induction ps as [|p ps IH]; [done|]. cbn. by rewrite parsePart_encodePair, IH.
Qed.

Lemma ParseQuery_Encode v : has_values v -> ParseQuery (Values_Encode v) = v.
Proof.
  intros Hv. unfold ParseQuery, Values_Encode.
  pose proof (fold_pairs v Hv) as Hf. set (ps := sortedKeys v ≫= value_pairs v) in *.
  destruct (decide (ps = [])) as [->|Hne].
  - exact Hf.
  - rewrite Split_Join.
    + by rewrite omap_parse.
    + by destruct ps.
    + apply Forall_fmap, Forall_true. intros p. by apply encodePair_no_char.
Qed.

Lemma ParseQuery_has_values q : has_values (ParseQuery q).
Proof.
  intros k. unfold ParseQuery. rewrite Values_Add_fold, lookup_empty.
  destruct (decide _) as [|Hne]; [done|]. intros [= H]. by apply Hne.
Qed.

Lemma has_values_union v w : has_values v -> has_values w -> has_values (v ∪ w).
Proof.
  intros Hv Hw k [H|[_ H]]%lookup_union_Some_raw; [by apply (Hv k)|by apply (Hw k)].
Qed.
