(* ===== verification/Aia.v ===== *)
(** The Authority Information Access service: [server/service/aia/aia.go],
    [cache.go] and [aia_service.go].

    The service answers over plain HTTP: the certificate and the CRL of an
    issuer, and OCSP requests, which it forwards to the backend and caches
    until the response expires.  It runs over the state of the backend it
    forwards to, whose database it reads. *)
From Stdlib Require Import ZArith Lia Ascii.
From stdpp Require Import base list gmap strings pretty.
From S2P Require Import Prelude GoStrings Xdb Tenancy Model Query Sql CaQuery CaDb PathLength Base64 Keys Pbconv Lru Registry TenantScope BackendIssuers BackendCerts OcspText.

(** ** [hashicorp/golang-lru]: the cache without expiration *)

Class SLRU := {
  slru : Type -> Type -> Type;
  slru_New {K V} : Z -> result (slru K V);
  slru_Get {K V} `{EqDecision K} : slru K V -> K -> option V;
  slru_touch {K V} `{EqDecision K} : slru K V -> K -> slru K V;
  slru_Add {K V} `{EqDecision K} : slru K V -> K -> V -> slru K V;
  slru_Remove {K V} `{EqDecision K} : slru K V -> K -> slru K V;
  slru_Len {K V} : slru K V -> Z;
  slru_Cap {K V} : slru K V -> Z }.

(** An entry may be evicted by an addition, never changed. *)
Class SLRULaws `{SLRU} := {
  slru_new_positive {K V} size : (0 < size)%Z <-> exists c, @slru_New _ K V size = Ok c;
  slru_new_empty {K V} `{EqDecision K} size c k :
    @slru_New _ K V size = Ok c -> slru_Get c k = None;
  slru_new_len {K V} size c : @slru_New _ K V size = Ok c -> slru_Len c = 0%Z;
  slru_new_cap {K V} size c : @slru_New _ K V size = Ok c -> slru_Cap c = size;
  slru_get_touch {K V} `{EqDecision K} (c : slru K V) k k' :
    slru_Get (slru_touch c k) k' = slru_Get c k';
  slru_get_add {K V} `{EqDecision K} (c : slru K V) k v k' w :
    slru_Get (slru_Add c k v) k' = Some w ->
    k = k' /\ w = v \/ k <> k' /\ slru_Get c k' = Some w;
  slru_get_remove {K V} `{EqDecision K} (c : slru K V) k k' w :
    slru_Get (slru_Remove c k) k' = Some w -> k <> k' /\ slru_Get c k' = Some w;
  slru_len_touch {K V} `{EqDecision K} (c : slru K V) k :
    (slru_Len (slru_touch c k) <= slru_Len c)%Z;
  slru_len_add {K V} `{EqDecision K} (c : slru K V) k v :
    (0 <= slru_Cap c)%Z -> (slru_Len (slru_Add c k v) <= slru_Cap c)%Z;
  slru_len_remove {K V} `{EqDecision K} (c : slru K V) k :
    (slru_Len (slru_Remove c k) <= slru_Len c)%Z;
  slru_cap_touch {K V} `{EqDecision K} (c : slru K V) k :
    slru_Cap (slru_touch c k) = slru_Cap c;
  slru_cap_add {K V} `{EqDecision K} (c : slru K V) k v :
    slru_Cap (slru_Add c k v) = slru_Cap c;
  slru_cap_remove {K V} `{EqDecision K} (c : slru K V) k :
    slru_Cap (slru_Remove c k) = slru_Cap c }.

(** ** The libraries *)

(** [httperror] values of the handlers. *)
Inductive http_error :=
| HttpNotFound (msg : string)
| HttpInvalidRequest (msg : string)
| HttpRequestTooLarge (msg : string)
| HttpUnexpected (msg : string) (cause : option error).

(** [http.ResponseWriter]: the headers, the status and the body written. *)
Record Writer := mkWriter {
  w_Header : gmap string string; w_Status : option Z; w_Body : string }.

Class AiaLib := {
  sha256_Sum256 : string -> string;
  (** the first PEM block *)
  pem_Decode : string -> option string;
  (** [ocsp.ParseResponse]: ThisUpdate and NextUpdate, in milliseconds *)
  ParseOcspResponse : string -> option (Z * Z);
  MalformedRequestErrorResponse : string; UnauthorizedErrorResponse : string;
  TryLaterErrorResponse : string; InternalErrorErrorResponse : string;
  (** [Format(http.TimeFormat)] of a time in UTC *)
  FormatHttpTime : Z -> string;
  (** [httperror.Status] *)
  http_Status : error -> Z;
  (** [marshal.WriteJSON] of an error *)
  WriteJSON : http_error -> Writer -> Writer }.

(** ** The cache of OCSP responses *)

Record ocspEntry := mkOcspEntry {
  oe_der : string; oe_thisUpdate : Z; oe_nextUpdate : Z; oe_etag : string }.

Section cache.
Context `{SLRU, AiaLib}.

Definition ocspCache : Type := slru string ocspEntry.

Definition newOcspCache (size : Z) : result ocspCache :=
  match slru_New size with
  | Ok c => Ok c
  | Err e => Err (WithMessage e "unable to create the OCSP cache")
  end.

Definition keyOf (der : string) : string := sha256_Sum256 der.

Definition cache_get (key : string) (now : Z) (c : ocspCache)
  : option ocspEntry * ocspCache :=
  match slru_Get c key with
  | None => (None, slru_touch c key)
  | Some e =>
      let c := slru_touch c key in
      if negb (now <? oe_nextUpdate e)%Z then (None, slru_Remove c key)
      else (Some e, c)
  end.

Definition cache_add (key : string) (e : ocspEntry) (c : ocspCache) : ocspCache :=
  slru_Add c key e.

Definition cache_len (c : ocspCache) : Z := slru_Len c.

Definition quote_char : ascii := ascii_of_N 34.
Definition etagOf (body : string) : string :=
  (String quote_char (hexString (sha256_Sum256 body)) ++ String quote_char "")%string.
End cache.

(** ** Requests and responses *)

(** A request: its If-None-Match header, the body the client sends and
    whether reading it ends with a failure. *)
Record HttpRequest := mkHttpRequest {
  hr_IfNoneMatch : string; hr_Body : string; hr_BodyFails : bool }.

(** The clock when the handler looks at it and when it writes the answer, in
    milliseconds. *)
Record Clock := mkClock { ck_now : Z; ck_write : Z }.

Definition emptyWriter : Writer := mkWriter ∅ None "".
Definition setHeader (k v : string) (w : Writer) : Writer :=
  mkWriter (<[k := v]> (w_Header w)) (w_Status w) (w_Body w).
(** The first status counts. *)
Definition WriteHeader (status : Z) (w : Writer) : Writer :=
  mkWriter (w_Header w) (Some (default status (w_Status w))) (w_Body w).
Definition StatusOK : Z := 200.
Definition StatusNotModified : Z := 304.
Definition StatusBadRequest : Z := 400.
Definition StatusNotFound : Z := 404.
Definition StatusRequestTimeout : Z := 408.
Definition StatusTooManyRequests : Z := 429.
Definition StatusInternalServerError : Z := 500.
Definition StatusServiceUnavailable : Z := 503.
Definition StatusGatewayTimeout : Z := 504.
Definition WriteBody (body : string) (w : Writer) : Writer :=
  let w := WriteHeader StatusOK w in
  mkWriter (w_Header w) (w_Status w) (w_Body w ++ body).

Definition contentTypeCert : string := "application/pkix-cert".
Definition contentTypeCRL : string := "application/pkix-crl".
Definition contentTypeOCSPResponse : string := "application/ocsp-response".
Definition headerContentType : string := "Content-Type".
Definition headerCacheControl : string := "Cache-Control".
Definition headerETag : string := "ETag".
Definition headerExpires : string := "Expires".
Definition headerLastModified : string := "Last-Modified".
Definition headerPragma : string := "Pragma".
Definition cacheControlPublic : string :=
  "public, no-transform, must-revalidate, max-age=".
Definition cacheControlNoStore : string := "no-store".
Definition pragmaNoCache : string := "no-cache".
Definition time_Second : Z := 1000.
Definition certMaxAge : Z := 24 * 3600 * time_Second.
Definition maxOCSPRequestSize : Z := 8 * 1024.
Definition defaultOcspCacheSize : Z := 10000.

Section aia.
Context `{XdbC : Xdb, Cod : Codec, ProfileCodec, Authority, !SignLib, SLRU, AiaLib}.

(** The state of the backend behind the service, its database, the lookup of
    the backend ([signer]) and its OCSP method. *)
Context {B : Type} (be_db : B -> Db) (signer : M B unit) (be_SignOCSP : string -> M B string).

Record AiaState := mkAia { aia_cache : ocspCache; aia_be : B }.

(** [New], on a configuration and a database that are set or not. *)
Definition New (configured : bool) (OcspCacheSize : Z) : result ocspCache :=
  if negb configured then Err (OtherError "aia.New: invalid parameter")
  else newOcspCache (if (OcspCacheSize =? 0)%Z then defaultOcspCacheSize
                     else OcspCacheSize).

(** A read of the database. *)
Definition be_read {X} (m : M Db X) (s : AiaState) : result X :=
  (m (be_db (aia_be s))).1.

Definition writeOCSPError (status : Z) (response : string) (w : Writer) : Writer :=
  let w := setHeader headerContentType contentTypeOCSPResponse w in
  let w := setHeader headerCacheControl cacheControlNoStore w in
  let w := setHeader headerPragma pragmaNoCache w in
  WriteBody response (WriteHeader status w).

Definition writeCacheable (r : HttpRequest) (now : Z) (contentType body : string)
    (lastModified expires : Z) (w : Writer) : Writer :=
  let etag := etagOf body in
  let w := setHeader headerContentType contentType w in
  let w := setHeader headerETag etag w in
  let w := setHeader headerLastModified (FormatHttpTime lastModified) w in
  let w := setHeader headerExpires (FormatHttpTime expires) w in
  let maxAge := (expires - now)%Z in
  let w := if (0 <? maxAge)%Z
           then setHeader headerCacheControl
                  (cacheControlPublic ++ pretty (maxAge `quot` time_Second)%Z) w
           else setHeader headerPragma pragmaNoCache
                  (setHeader headerCacheControl cacheControlNoStore w) in
  if bool_decide (hr_IfNoneMatch r = etag) then WriteHeader StatusNotModified w
  else WriteBody body w.

Definition derOf (pemText : string) : result string :=
  match pem_Decode pemText with
  | None => Err (OtherError "no PEM block")
  | Some der => Ok der
  end.

(** ** Issuers and CRLs *)

Definition aia_issuedIssuer (ikid : string) (s : AiaState) : Issuer + http_error :=
  match be_read (GetIssuerBySKID ikid) s with
  | Err e => inr (if IsNotFoundError e then HttpNotFound "issuer not found"
                  else HttpUnexpected "unable to find issuer" (Some e))
  | Ok row =>
      if bool_decide (i_Status row = IssuerStatus_Pending) ||
         bool_decide (i_Pem row = EmptyString)
      then inr (HttpNotFound "issuer not found") else inl row
  end.

Definition IssuerHandler (ikid : string) (r : HttpRequest) (ck : Clock)
    (s : AiaState) : Writer :=
  match aia_issuedIssuer ikid s with
  | inr err => WriteJSON err emptyWriter
  | inl row =>
      match derOf (i_Pem row) with
      | Err _ => WriteJSON (HttpUnexpected "unable to decode certificate" None) emptyWriter
      | Ok der => writeCacheable r (ck_write ck) contentTypeCert der (i_NotBefore row)
                    (ck_now ck + certMaxAge) emptyWriter
      end
  end.

Definition CRLHandler (ikid : string) (r : HttpRequest) (ck : Clock)
    (s : AiaState) : Writer :=
  match be_read (GetCrl ikid) s with
  | Err e =>
      WriteJSON (if IsNotFoundError e then HttpNotFound "CRL not found"
                 else HttpUnexpected "unable to find CRL" (Some e)) emptyWriter
  | Ok row =>
      match derOf (l_Pem row) with
      | Err _ => WriteJSON (HttpUnexpected "unable to decode CRL" None) emptyWriter
      | Ok der => writeCacheable r (ck_write ck) contentTypeCRL der (l_ThisUpdate row)
                    (l_NextUpdate row) emptyWriter
      end
  end.

(** ** OCSP *)

(** The error response for the status of a failed forward. *)
Definition ocspFailure (status : Z) (w : Writer) : Writer :=
  if (status =? StatusBadRequest)%Z
  then writeOCSPError StatusBadRequest MalformedRequestErrorResponse w
  else if (status =? StatusNotFound)%Z
  then writeOCSPError StatusNotFound UnauthorizedErrorResponse w
  else if (status =? StatusServiceUnavailable)%Z || (status =? StatusRequestTimeout)%Z ||
          (status =? StatusGatewayTimeout)%Z || (status =? StatusTooManyRequests)%Z
  then writeOCSPError StatusServiceUnavailable TryLaterErrorResponse w
  else writeOCSPError StatusInternalServerError InternalErrorErrorResponse w.

(** The serial number of a request that parses. *)
Definition requestSerial (requestBody : string) : option Z :=
  q ← ParseOcspRequest requestBody; oq_SerialNumber q.

Definition ocspResponse (r : HttpRequest) (ck : Clock) (requestBody : string)
    (s : AiaState) : Writer * AiaState :=
  let w := setHeader headerContentType contentTypeOCSPResponse emptyWriter in
  match requestSerial requestBody with
  | None => (writeOCSPError StatusBadRequest MalformedRequestErrorResponse w, s)
  | Some _ =>
  let key := keyOf requestBody in
  let '(hit, cache) := cache_get key (ck_now ck) (aia_cache s) in
  match hit with
  | Some e =>
      (writeCacheable r (ck_write ck) contentTypeOCSPResponse (oe_der e)
         (oe_thisUpdate e) (oe_nextUpdate e) w, mkAia cache (aia_be s))
  | None =>
  match signer (aia_be s) with
  | (Err _, b) =>
      (writeOCSPError StatusServiceUnavailable TryLaterErrorResponse w, mkAia cache b)
  | (Ok _, b) =>
  match be_SignOCSP requestBody b with
  | (Err e, b) => (ocspFailure (http_Status e) w, mkAia cache b)
  | (Ok der, b) =>
  match ParseOcspResponse der with
  | None =>
      (WriteBody der (setHeader headerPragma pragmaNoCache
         (setHeader headerCacheControl cacheControlNoStore w)), mkAia cache b)
  | Some (thisUpdate, nextUpdate) =>
      let e := mkOcspEntry der thisUpdate nextUpdate (etagOf der) in
      let cache := if (ck_now ck <? oe_nextUpdate e)%Z then cache_add key e cache
                   else cache in
      (writeCacheable r (ck_write ck) contentTypeOCSPResponse (oe_der e)
         (oe_thisUpdate e) (oe_nextUpdate e) w, mkAia cache b)
  end
  end
  end
  end
  end.

Definition GetOcspHandler (query : string) (r : HttpRequest) (ck : Clock)
    (s : AiaState) : Writer * AiaState :=
  match requestOfSegment query with
  | inl ErrUnescape => (WriteJSON (HttpInvalidRequest "unable to parse query") emptyWriter, s)
  | inl ErrBase64 => (WriteJSON (HttpInvalidRequest "unable to parse request") emptyWriter, s)
  | inr requestBody => ocspResponse r ck requestBody s
  end.

(** A body longer than the limit is cut before its end is seen. *)
Definition OCSPHandler (r : HttpRequest) (ck : Clock) (s : AiaState)
  : Writer * AiaState :=
  if (maxOCSPRequestSize <? Z.of_nat (String.length (hr_Body r)))%Z then
    (WriteJSON (HttpRequestTooLarge
       ("request exceeds " ++ pretty maxOCSPRequestSize ++ " bytes")) emptyWriter, s)
  else if hr_BodyFails r then
    (WriteJSON (HttpUnexpected "unable to read request" None) emptyWriter, s)
  else ocspResponse r ck (hr_Body r) s.
End aia.
