(* ===== verification/AiaFacts.v ===== *)
(** What the responder of the Authority Information Access service answers
    in a history of requests: responses the CA signed for a request of the
    same hash, while they are valid, and errors that nobody caches.

    Over the backend of the process, such a response states what the database
    holds. *)
From Stdlib Require Import ZArith Lia Ascii.
From stdpp Require Import base list gmap strings pretty sets relations.
From S2P Require Import Prelude GoStrings Xdb Roles Scopes Tenancy Grants Authorizer Methods Access Model PathLength Base64 Query Sql CaQuery CaDb CaDbFacts CaDbSteps Keys Pbconv Lru Registry RegistryFacts RegistryDb Crl CrlFacts CrlRun RowPb IssuerBuild TenantScope BackendIssuers BackendCerts IssuerBuildFacts BackendSteps BackendFacts BackendAnswers OcspText Aia.

Section responses.
Context `{SLRU, AiaLib}.

(** ** Responses *)

(** What a response is: an error that is not to be stored, or an answer. *)
Definition is_ocsp_error (w : Writer) : Prop :=
  w_Header w !! headerCacheControl = Some cacheControlNoStore /\
  w_Header w !! headerPragma = Some pragmaNoCache /\
  ((w_Status w = Some StatusBadRequest /\ w_Body w = MalformedRequestErrorResponse) \/
   (w_Status w = Some StatusNotFound /\ w_Body w = UnauthorizedErrorResponse) \/
   (w_Status w = Some StatusServiceUnavailable /\ w_Body w = TryLaterErrorResponse) \/
   (w_Status w = Some StatusInternalServerError /\ w_Body w = InternalErrorErrorResponse)).

(** The response carries the body, or tells the client it has it. *)
Definition answers_with (r : HttpRequest) (res : string) (w : Writer) : Prop :=
  (w_Status w = Some StatusOK /\ w_Body w = res) \/
  (w_Status w = Some StatusNotModified /\ w_Body w = EmptyString /\
   hr_IfNoneMatch r = etagOf res).

Definition ocsp_writer (w : Writer) : Prop :=
  w_Header w !! headerContentType = Some contentTypeOCSPResponse /\
  w_Status w = None /\ w_Body w = EmptyString.

Lemma writeOCSPError_error status response w :
  ocsp_writer w ->
  let w' := writeOCSPError status response w in
  w_Header w' !! headerContentType = Some contentTypeOCSPResponse /\
  w_Header w' !! headerCacheControl = Some cacheControlNoStore /\
  w_Header w' !! headerPragma = Some pragmaNoCache /\
  w_Status w' = Some status /\ w_Body w' = response.
Proof.
  intros (Hc & Hs & Hb). cbn. rewrite Hs, Hb. split_and!; by simplify_map_eq.
Qed.

Lemma ocspFailure_error status w :
  ocsp_writer w ->
  w_Header (ocspFailure status w) !! headerContentType = Some contentTypeOCSPResponse /\
  is_ocsp_error (ocspFailure status w).
Proof.
  intros Hw. unfold ocspFailure, is_ocsp_error.
  repeat case_match;
    match goal with |- context [writeOCSPError ?st ?b w] =>
      destruct (writeOCSPError_error st b w Hw) as (? & ? & ? & ? & ?) end;
    split_and!; try done; auto 10.
Qed.

(** The [max-age] of a response never reaches past the time it expires. *)
Definition fresh_until (now expires : Z) (w : Writer) : Prop :=
  w_Header w !! headerCacheControl = Some cacheControlNoStore \/
  exists n, w_Header w !! headerCacheControl = Some (cacheControlPublic ++ pretty n)%string /\
    (0 <= n)%Z /\ (now + n * time_Second <= expires)%Z.

Lemma writeCacheable_answers r now ct body this next w :
  w_Status w = None -> w_Body w = EmptyString ->
  let w' := writeCacheable r now ct body this next w in
  w_Header w' !! headerContentType = Some ct /\
  answers_with r body w' /\ fresh_until now next w'.
Proof.
  intros Hs Hb. unfold writeCacheable. cbn zeta.
  set (w1 := setHeader headerExpires _ _).
  assert (w_Header w1 !! headerContentType = Some ct) as Hct by (by simplify_map_eq).
  assert (w_Status w1 = None /\ w_Body w1 = EmptyString) as [Hs1 Hb1] by done.
  set (w2 := if (0 <? next - now)%Z then _ else _).
  assert (w_Header w2 !! headerContentType = Some ct /\ w_Status w2 = None /\
    w_Body w2 = EmptyString /\ fresh_until now next w2) as (Hct2 & Hs2 & Hb2 & Hf2).
  { unfold w2, fresh_until. destruct (Z.ltb_spec 0 (next - now)); cbn.
    - split_and!; [by simplify_map_eq|done|done|]. right.
      exists ((next - now) `quot` time_Second)%Z. split; [by simplify_map_eq|].
      unfold time_Second in *. Z.to_euclidean_division_equations. lia.
    - split_and!; [by simplify_map_eq|done|done|]. left. by simplify_map_eq. }
  case_bool_decide as He; unfold answers_with, fresh_until in *; cbn; rewrite Hs2, Hb2;
    split_and!; auto.
Qed.

Lemma ocsp_writer_start :
  ocsp_writer (setHeader headerContentType contentTypeOCSPResponse emptyWriter).
Proof. split_and!; by simplify_map_eq. Qed.

End responses.

Section responder.
Context `{XdbC : Xdb, Cod : Codec, ProfileCodec, Authority, !SignLib, SLRULaws, AiaLib}.
Context {B : Type} (signer : M B unit) (be_SignOCSP : string -> M B string).

(** ** A backend that keeps a log of what it signed *)

(** The state of the backend, and the requests it answered with the
    responses. *)
Definition Logged : Type := B * list (string * string).

Definition logged_signer : M Logged unit := fun b =>
  let '(r, b') := signer b.1 in (r, (b', b.2)).
Definition logged_SignOCSP (der : string) : M Logged string := fun b =>
  match be_SignOCSP der b.1 with
  | (Ok res, b') => (Ok res, (b', b.2 ++ [(der, res)]))
  | (Err e, b') => (Err e, (b', b.2))
  end.

Notation answer := (ocspResponse logged_signer logged_SignOCSP).
Notation St := (AiaState (B:=Logged)).
Notation log s := (aia_be s).2.

(** What happens to the service: a request in the path or in the body, and a
    change of the backend, by its other callers, which signs nothing for the
    service. *)
Inductive aia_event :=
| EvGetOcsp (query : string) (r : HttpRequest) (ck : Clock)
| EvPostOcsp (r : HttpRequest) (ck : Clock)
| EvBackend (f : B -> B).

Definition aia_step (s : St) (ev : aia_event) : St :=
  match ev with
  | EvGetOcsp query r ck => (GetOcspHandler logged_signer logged_SignOCSP query r ck s).2
  | EvPostOcsp r ck => (OCSPHandler logged_signer logged_SignOCSP r ck s).2
  | EvBackend f => mkAia (aia_cache s) (f (aia_be s).1, (aia_be s).2)
  end.

Definition aia_run (evs : list aia_event) (s : St) : St := foldl aia_step s evs.

(** ** The cache *)

(** An entry holds a response the log has for a request of its key. *)
Definition entry_signed (l : list (string * string)) (key : string) (e : ocspEntry) : Prop :=
  (exists der, keyOf der = key /\ (der, oe_der e) ∈ l) /\
  ParseOcspResponse (oe_der e) = Some (oe_thisUpdate e, oe_nextUpdate e).

Definition cache_signed (l : list (string * string)) (c : ocspCache) : Prop :=
  forall key e, slru_Get c key = Some e -> entry_signed l key e.

Lemma entry_signed_mono l l' key e :
  entry_signed l key e -> entry_signed (l ++ l') key e.
Proof.
  intros [(der & Hk & Hin) Hp]. split; [|done]. exists der. set_solver.
Qed.

Lemma cache_get_spec key now c hit c' :
  cache_get key now c = (hit, c') ->
  (forall k e, slru_Get c' k = Some e -> slru_Get c k = Some e) /\
  slru_Cap c' = slru_Cap c /\ (slru_Len c' <= slru_Len c)%Z /\
  (forall e, hit = Some e -> slru_Get c key = Some e /\ (now < oe_nextUpdate e)%Z).
Proof.
  unfold cache_get. intros E.
  destruct (slru_Get c key) as [e|] eqn:Eg;
    [destruct (Z.ltb_spec now (oe_nextUpdate e))|]; injection E as <- <-.
  - split_and!; try done.
    + intros k x. by rewrite slru_get_touch.
    + apply slru_cap_touch.
    + apply slru_len_touch.
    + by intros x [= <-].
  - split_and!; try done.
    + intros k x Hx. apply slru_get_remove in Hx as [_ Hx]. by rewrite slru_get_touch in Hx.
    + by rewrite slru_cap_remove, slru_cap_touch.
    + etrans; [apply slru_len_remove|apply slru_len_touch].
  - split_and!; try done.
    + intros k x. by rewrite slru_get_touch.
    + apply slru_cap_touch.
    + apply slru_len_touch.
Qed.

(** ** The answer to a request *)

(** The entries of the cache are old ones. *)
Definition keeps_entries (c c' : ocspCache) : Prop :=
  forall key e, slru_Get c' key = Some e -> slru_Get c key = Some e.

(** An answer from the cache, one the CA signed, and an error. *)
Inductive answered (r : HttpRequest) (ck : Clock) (body : string) (s : St) (w : Writer)
    (s' : St) : Prop :=
| from_cache e :
    slru_Get (aia_cache s) (keyOf body) = Some e -> (ck_now ck < oe_nextUpdate e)%Z ->
    answers_with r (oe_der e) w -> fresh_until (ck_write ck) (oe_nextUpdate e) w ->
    log s' = log s -> keeps_entries (aia_cache s) (aia_cache s') ->
    answered r ck body s w s'
| from_ca res :
    log s' = log s ++ [(body, res)] -> answers_with r res w ->
    (forall this next, ParseOcspResponse res = Some (this, next) ->
       fresh_until (ck_write ck) next w) ->
    (ParseOcspResponse res = None ->
       w_Header w !! headerCacheControl = Some cacheControlNoStore) ->
    (forall key e, slru_Get (aia_cache s') key = Some e ->
       slru_Get (aia_cache s) key = Some e \/
       key = keyOf body /\ oe_der e = res /\
       ParseOcspResponse res = Some (oe_thisUpdate e, oe_nextUpdate e)) ->
    answered r ck body s w s'
| as_error :
    is_ocsp_error w -> log s' = log s ->
    keeps_entries (aia_cache s) (aia_cache s') ->
    answered r ck body s w s'.

Lemma error_answered r ck body s s' status response w :
  ocsp_writer w ->
  (status = StatusBadRequest /\ response = MalformedRequestErrorResponse) \/
  (status = StatusServiceUnavailable /\ response = TryLaterErrorResponse) ->
  log s' = log s -> keeps_entries (aia_cache s) (aia_cache s') ->
  answered r ck body s (writeOCSPError status response w) s'.
Proof.
  intros Hw Hin Hl Hk.
  destruct (writeOCSPError_error status response w Hw) as (? & ? & ? & ? & ?).
  apply as_error; [|done|done]. split_and!; [done..|].
  destruct Hin as [[-> ->]|[-> ->]]; tauto.
Qed.

Lemma ocspResponse_answered r ck body (s s' : St) w :
  answer r ck body s = (w, s') -> answered r ck body s w s'.
Proof.
  unfold ocspResponse. cbv zeta. pose proof ocsp_writer_start as Hw.
  set (w0 := setHeader headerContentType contentTypeOCSPResponse emptyWriter) in *.
  intros E.
  destruct (requestSerial body); [|injection E as <- <-; apply error_answered; auto; by intros ? ?].
  destruct (cache_get (keyOf body) (ck_now ck) (aia_cache s)) as [hit c] eqn:Ec.
  apply cache_get_spec in Ec as (Hk & _ & _ & Hhit).
  destruct hit as [e|].
  { injection E as <- <-. destruct (Hhit e eq_refl) as [He Hn].
    destruct (writeCacheable_answers r (ck_write ck) contentTypeOCSPResponse (oe_der e)
      (oe_thisUpdate e) (oe_nextUpdate e) w0) as (_ & Ha & Hf); [apply Hw..|].
    by eapply from_cache. }
  unfold logged_signer in E.
  destruct (signer (aia_be s).1) as [[[]|e] b];
    [|injection E as <- <-; apply error_answered; auto].
  unfold logged_SignOCSP in E. simpl in E.
  destruct (be_SignOCSP body b) as [[der|e] b'].
  2:{ injection E as <- <-. apply as_error; [|done|done]. by apply ocspFailure_error. }
  destruct (ParseOcspResponse der) as [[this next]|] eqn:Ep; injection E as <- <-.
  - destruct (writeCacheable_answers r (ck_write ck) contentTypeOCSPResponse der this next w0)
      as (_ & Ha & Hf); [apply Hw..|].
    eapply from_ca; [done|done| |congruence|].
    + intros this' next' E'. rewrite Ep in E'. by injection E' as <- <-.
    + intros key e. simpl. destruct (ck_now ck <? next)%Z; [|by eauto].
      intros He. apply slru_get_add in He as [[<- ->]|[Hne He]]; [|by eauto].
      right. by rewrite Ep.
  - eapply from_ca; [done| |congruence| |by eauto].
    + by left.
    + intros _. cbn. by simplify_map_eq.
Qed.

(** The log does not change an answer. *)
Lemma answer_unlogged r ck body (s : St) :
  (answer r ck body s).1 =
  (ocspResponse signer be_SignOCSP r ck body (mkAia (aia_cache s) (aia_be s).1)).1.
Proof.
  unfold ocspResponse. destruct (requestSerial body); [|done].
  simpl. destruct (cache_get _ _ _) as [[e|] c]; [done|].
  unfold logged_signer. destruct (signer _) as [[[]|e] b]; [|done].
  unfold logged_SignOCSP. simpl. destruct (be_SignOCSP body b) as [[der|e] b']; [|done].
  by destruct (ParseOcspResponse der) as [[this next]|].
Qed.

(** ** Histories *)

(** The cache of a state holds what the CA signed, within its size. *)
Definition cache_ok (size : Z) (s : St) : Prop :=
  cache_signed (log s) (aia_cache s) /\ slru_Cap (aia_cache s) = size /\
  (0 <= size)%Z /\ (slru_Len (aia_cache s) <= size)%Z.

Lemma cache_ok_kept size (s s' : St) l :
  cache_ok size s -> log s' = log s ++ l ->
  keeps_entries (aia_cache s) (aia_cache s') ->
  cache_signed (log s') (aia_cache s').
Proof.
  intros (Hs & _) Hl Hk key e He. rewrite Hl. by apply entry_signed_mono, Hs, Hk.
Qed.

Lemma ocspResponse_signed size r ck body (s s' : St) w :
  cache_ok size s -> answer r ck body s = (w, s') ->
  cache_signed (log s') (aia_cache s').
Proof.
  intros Hok E. apply ocspResponse_answered in E as
    [e _ _ _ _ Hl Hk|res Hl _ _ _ Hk|_ Hl Hk].
  - apply (cache_ok_kept size s s' []); [done| |done]. by rewrite app_nil_r.
  - intros key e He. rewrite Hl. destruct (Hk key e He) as [Ho|(-> & Hr & Hp)].
    + apply entry_signed_mono. by apply Hok.
    + split; [|by rewrite Hr]. exists body. rewrite Hr. set_solver.
  - apply (cache_ok_kept size s s' []); [done| |done]. by rewrite app_nil_r.
Qed.

Lemma ocspResponse_size r ck body (s : St) :
  (0 <= slru_Cap (aia_cache s))%Z ->
  slru_Cap (aia_cache (answer r ck body s).2) = slru_Cap (aia_cache s) /\
  (slru_Len (aia_cache (answer r ck body s).2) <=
     Z.max (slru_Len (aia_cache s)) (slru_Cap (aia_cache s)))%Z.
Proof.
  intros Hpos. unfold ocspResponse. cbv zeta. destruct (requestSerial body); [|simpl; lia].
  destruct (cache_get (keyOf body) (ck_now ck) (aia_cache s)) as [hit c] eqn:Ec.
  apply cache_get_spec in Ec as (_ & Hc & Hn & _).
  destruct hit; [simpl; lia|]. unfold logged_signer.
  destruct (signer (aia_be s).1) as [[[]|e] b]; [|simpl; lia].
  unfold logged_SignOCSP. simpl.
  destruct (be_SignOCSP body b) as [[der|e] b']; [|simpl; lia].
  destruct (ParseOcspResponse der) as [[this next]|]; [|simpl; lia].
  simpl. destruct (ck_now ck <? next)%Z; [|simpl; lia].
  unfold cache_add. pose proof (slru_len_add c (keyOf body)
    (mkOcspEntry der this next (etagOf der)) ltac:(lia)).
  rewrite slru_cap_add. lia.
Qed.

Lemma ocspResponse_ok size r ck body (s : St) :
  cache_ok size s -> cache_ok size (answer r ck body s).2.
Proof.
  intros Hok. pose proof Hok as (_ & Hcap & Hpos & Hlen).
  destruct (ocspResponse_size r ck body s) as [Hc Hn]; [lia|].
  destruct (answer r ck body s) as [w s'] eqn:E. split.
  - by apply (ocspResponse_signed size r ck body s s' w).
  - simpl in *. lia.
Qed.

Lemma aia_step_ok size (s : St) ev : cache_ok size s -> cache_ok size (aia_step s ev).
Proof.
  intros Hok. destruct ev as [query r ck|r ck|f]; [| |exact Hok]; cbn [aia_step].
  - unfold GetOcspHandler. destruct (requestOfSegment query) as [[]|]; [done..|].
    by apply ocspResponse_ok.
  - unfold OCSPHandler. repeat case_match; try done. by apply ocspResponse_ok.
Qed.

Lemma aia_run_ok size evs (s : St) : cache_ok size s -> cache_ok size (aia_run evs s).
Proof.
  revert s. induction evs as [|ev evs IH]; intros s Hok; [done|].
  by apply IH, aia_step_ok.
Qed.

Lemma newOcspCache_ok size c0 (b : B) :
  newOcspCache size = Ok c0 -> cache_ok size (mkAia c0 (b, [])).
Proof.
  unfold newOcspCache. destruct (slru_New size) as [c|] eqn:E; [|done].
  intros [= <-]. split_and!; simpl.
  - intros key e He. by rewrite (slru_new_empty _ _ _ E) in He.
  - by apply slru_new_cap.
  - apply Z.lt_le_incl, (slru_new_positive (K:=string) (V:=ocspEntry)). eauto.
  - rewrite (slru_new_len _ _ E).
    apply Z.lt_le_incl, (slru_new_positive (K:=string) (V:=ocspEntry)). eauto.
Qed.

(** C36: the responder answers what the CA signed.  The log of the backend is
    what it signed for the service, and changes no answer.  After any history
    of requests and of changes of the backend, an answer that is not an error
    carries a response that the CA signed for a request of the same hash, and
    when the CA was not asked for it the response is still before its
    NextUpdate; an answer lets nobody keep the response past that time, an
    error lets nobody keep it at all; and the cache never holds more responses
    than its size. *)
Theorem ocsp_answers_signed (size : Z) (c0 : ocspCache) (b0 : B)
    (evs : list aia_event) (r : HttpRequest) (ck : Clock) (body : string)
    (Hnew : newOcspCache size = Ok c0) :
  let s := aia_run evs (mkAia c0 (b0, [])) in
  let w := (answer r ck body s).1 in let s' := (answer r ck body s).2 in
  w = (ocspResponse signer be_SignOCSP r ck body (mkAia (aia_cache s) (aia_be s).1)).1 /\
  (slru_Len (aia_cache s') <= size)%Z /\
  (is_ocsp_error w \/
   exists der res, (der, res) ∈ log s' /\ keyOf der = keyOf body /\
     answers_with r res w /\
     (log s' = log s -> exists this next,
        ParseOcspResponse res = Some (this, next) /\ (ck_now ck < next)%Z) /\
     (forall this next, ParseOcspResponse res = Some (this, next) ->
        fresh_until (ck_write ck) next w)).
Proof.
  intros s w s'.
  assert (cache_ok size s) as Hok by (by apply aia_run_ok, newOcspCache_ok).
  split; [apply answer_unlogged|].
  split; [by destruct (ocspResponse_ok size r ck body s Hok) as (_ & _ & _ & ?)|].
  destruct (ocspResponse_answered r ck body s s' w (surjective_pairing _))
    as [e He Hn Ha Hf Hl _|res Hl Ha Hf _ _|He _ _]; [right|right|by left].
  - destruct Hok as (Hs & _). destruct (Hs _ _ He) as [(der & Hk & Hin) Hp].
    exists der, (oe_der e). rewrite Hl, Hp. split_and!; eauto. by intros this next [= _ <-].
  - exists body, res. rewrite Hl. split_and!; [set_solver|done..| |done].
    intros E. exfalso. apply (f_equal length) in E. rewrite length_app in E. simpl in E. lia.
Qed.
End responder.

Section over_backend.
Context `{XL : XdbLaws, Codec, IdGen, ChainLib, ProfileCodec, AuthorityLaws, !IssuerLib, !CrlLib, !SignLib, LRULaws, Porto, TimeLib, SL : SLRULaws, AL : AiaLib}.
Context {A : Type} `{!Authorizer A}.
Notation St := (BkState (A:=A)).
Notation db s := (rg_db (bk_rg s)).

(** The issuer a request names: by the hash of its key, or, when the hash is
    SHA-1, by the key identifier of its row; without a key hash, by the hash
    of its name. *)
Inductive names_issuer (d : Db) (q : OcspRequest) (row : Issuer) (i : auth_Issuer) : Prop :=
| by_key_hash : oq_IssuerKeyHash q <> EmptyString ->
    Issuer_KeyHash i (oq_HashAlgorithm q) = oq_IssuerKeyHash q -> names_issuer d q row i
| by_key_id : oq_IssuerKeyHash q <> EmptyString -> oq_HashAlgorithm q = SHA1 ->
    skid_names d (hexString (oq_IssuerKeyHash q)) row -> names_issuer d q row i
| by_name_hash : oq_IssuerKeyHash q = EmptyString -> oq_IssuerNameHash q <> EmptyString ->
    Issuer_NameHash i (oq_HashAlgorithm q) = oq_IssuerNameHash q -> names_issuer d q row i.

(** The signed response of a request: an issuer built of a row, with its
    certificate and its key, which the request names; what the response must
    say of the serial number by the database [d]; and the signature of the
    issuer. *)
Definition signed_for (d : Db) (der res : string) : Prop :=
  exists q serial row issuer oreq w,
    ParseOcspRequest der = Some q /\ oq_SerialNumber q = Some serial /\
    built_of row issuer /\ names_issuer d q row issuer /\
    ocsp_correct d (Issuer_SubjectKID issuer) serial (oq_HashAlgorithm q) oreq /\
    (Issuer_SignOCSP issuer oreq w).1 = Ok res.

Lemma deref_ok a (s s' : St) i :
  in_rg (deref a) s = (Ok i, s') -> rg_heap (bk_rg s) !! a = Some i /\ s' = s.
Proof.
  unfold in_rg, deref. destruct (_ !! a) as [x|] eqn:E; [|by intros [= ]].
  intros [= -> <-]. split; [done|]. by destruct s.
Qed.

Lemma ocspIssuer_names ttl sv q a (b b1 : St) :
  (0 <= ttl)%Z -> coherent ttl (bk_rg b) -> ocspIssuer sv q b = (Ok a, b1) ->
  exists row i, rg_heap (bk_rg b1) !! a = Some i /\ built_of row i /\
    names_issuer (db b) q row i.
Proof.
  intros Ht Hc E. unfold ocspIssuer in E. cbv zeta in E.
  destruct (bool_decide (oq_IssuerKeyHash q <> _)) eqn:Ek;
    [|destruct (bool_decide (oq_IssuerNameHash q <> _)) eqn:En; [|done]].
  - apply bool_decide_eq_true in Ek. unfold catch, in_rg in E.
    destruct (IssuerByKeyHash _ _ _ (bk_rg b)) as [[[x row]|e] g] eqn:Eg; simpl in E;
      [|by destruct (_ || _)].
    injection E as <- <-.
    destruct (IssuerByKeyHash_names (db b) ttl _ _ (current_profile_here (db b) ttl) Ht
      (current_profile_label (db b)) _ _ _ _ _ _ _ Hc Eg) as (i & Hi & Hb & [Hh|[Ha Hn]]); exists row, i.
    + split_and!; [done..|]. by apply by_key_hash.
    + split_and!; [done..|]. by apply by_key_id.
  - apply bool_decide_eq_false in Ek. apply bool_decide_eq_true in En.
    unfold catch, in_rg in E.
    destruct (IssuerByNameHash _ _ (bk_rg b)) as [[[x row]|e] g] eqn:Eg; simpl in E;
      [|by destruct (_ || _)].
    injection E as <- <-.
    destruct (IssuerByNameHash_names (db b) ttl _ _ _ _ _ _ _ _ Hc Eg) as (i & Hi & Hb & Hh).
    exists row, i. split_and!; [done..|]. apply by_name_hash; [|done..].
    by destruct (decide (oq_IssuerKeyHash q = EmptyString)).
Qed.

Lemma Service_SignOCSP_signs ttl sv der res (b b' : St) :
  (0 <= ttl)%Z -> coherent ttl (bk_rg b) -> bk_wf (db b) ->
  Service_SignOCSP sv (Some der) b = (Ok res, b') -> signed_for (db b) der res.
Proof.
  intros Ht Hc Hw E. unfold Service_SignOCSP, requireCA in E.
  apply bind_ok in E as (u1 & s1 & E1 & E). apply guard_ok in E1 as [_ ->].
  apply bind_ok in E as (u2 & s2 & E2 & E). apply guard_ok in E2 as [_ ->].
  destruct (ParseOcspRequest der) as [q|] eqn:Eq; [|done].
  destruct (oq_SerialNumber q) as [serial|] eqn:Es; [|done].
  apply bind_ok in E as (a & b1 & Ea & E).
  destruct (keeps_ocspIssuer ttl (fun _ => True) (db b) Ht (fun d => d = db b) sv q b)
    as [(_ & _ & _) Hd]; [by split_and!|done|].
  destruct (ocspIssuer_names ttl sv q a b b1 Ht Hc Ea) as (row & i0 & Hi0 & Hb & Hn).
  rewrite Ea in Hd. specialize (Hd a eq_refl). simpl in Hd.
  apply bind_ok in E as (i & b2 & Ei & E). apply deref_ok in Ei as [Hi ->].
  rewrite Hi0 in Hi. injection Hi as ->.
  apply bind_ok in E as (oreq & b3 & Eo & E).
  destruct (ocspStatus_decides b1 (Issuer_SubjectKID i) serial (oq_HashAlgorithm q))
    as (r & Er & Hr); [rewrite Hd; exact (proj1 Hw)|].
  rewrite Er in Eo. injection Eo as <- <-. rewrite Hd in Hr.
  exists q, serial, row, i, r, (rg_world (bk_rg b1)). split_and!; [done..|].
  unfold wrapped, catch, in_rg, in_world in E.
  by destruct (Issuer_SignOCSP i r (rg_world (bk_rg b1))) as [[x|e] w]; [|done];
    injection E as <- _.
Qed.

(** C37: a response that the responder does not have states what the database
    holds.  The backend of the process is asked, with coherent caches and a
    well-formed database, as in every history of it, and the answer is an OCSP
    error, or a response signed by an issuer the request names: one whose key
    has the hash of the request, or, for SHA-1, whose row has the hash as its
    key identifier, or, for a request without a key hash, whose name has the
    hash of the request.  That issuer has the certificate and the key of its
    row, and its response says of the serial number what the database of the
    CA says: Unknown, Good, or Revoked with the time and the reason of the
    revocation. *)
Theorem responder_states_database (ttl : Z) (sv : Service) (r : HttpRequest)
    (ck : Clock) (body : string) (s : AiaState (B:=St))
    (Ht : (0 <= ttl)%Z) (Hc : coherent ttl (bk_rg (aia_be s)))
    (Hw : bk_wf (db (aia_be s)))
    (Hmiss : slru_Get (aia_cache s) (keyOf body) = None) :
  let w := (ocspResponse (ret tt) (fun der => Service_SignOCSP sv (Some der)) r ck body s).1 in
  is_ocsp_error w \/
  exists res, signed_for (db (aia_be s)) body res /\ answers_with r res w.
Proof.
  intros w. subst w. set (sign := fun der => Service_SignOCSP sv (Some der)).
  unfold ocspResponse. pose proof ocsp_writer_start as Hw0.
  set (w0 := setHeader headerContentType contentTypeOCSPResponse emptyWriter) in *.
  destruct (requestSerial body); [|left].
  2:{ simpl. destruct (writeOCSPError_error StatusBadRequest MalformedRequestErrorResponse
        w0 Hw0) as (? & ? & ? & ? & ?). unfold is_ocsp_error. tauto. }
  unfold cache_get. rewrite Hmiss. cbn [ret].
  destruct (sign body (aia_be s)) as [[res|e] b'] eqn:E.
  - right. exists res. split; [by eapply Service_SignOCSP_signs|].
    destruct (ParseOcspResponse res) as [[this next]|]; [|by left].
    by destruct (writeCacheable_answers r (ck_write ck) contentTypeOCSPResponse res
      this next w0) as (_ & Ha & _); [apply Hw0..|].
  - left. by apply ocspFailure_error.
Qed.
End over_backend.
