(* ===== verification/Locator.v ===== *)
(** The lookup of the backend ([server/service/shared/backend.go]): the
    backend of the process when discovery has one, else a client of the
    backend listener, dialed on the first call and kept until it is closed.
    The connections are part of the state: [dial] opens one, and [hang_up]
    closes one. *)
From Stdlib Require Import ZArith Lia.
From stdpp Require Import base list sets strings.
From S2P Require Import Prelude.

(** ** The connections *)

(** The connections dialed are numbered from zero; a closed one is logged,
    each time it is closed. *)
Record Net := mkNet { nw_dials : nat; nw_closed : list nat }.
Definition no_net : Net := mkNet 0 [].

(** The connections that were dialed and not closed. *)
Definition open_conn (w : Net) (c : nat) : Prop := c < nw_dials w /\ c ∉ nw_closed w.

(** Connections are opened in order, and each is closed once at most. *)
Definition tidy (w : Net) : Prop :=
  NoDup (nw_closed w) /\ forall c, c ∈ nw_closed w -> c < nw_dials w.

Section locator.
Context {Srv : Type}.

(** What the process offers when the locator looks: [ev_disco] is [None]
    without a discovery function, [Some None] when it returns none, and else
    what [Find] leaves in its argument; [ev_clients] is [None] without a
    client factory, and else the client of the listener, if it is reached. *)
Record LocatorEnv := mkEnv {
  ev_disco : option (option (result (option Srv)));
  ev_clients : option (result Srv) }.

(** [BackendLocator]: the backend found and the connection to close. *)
Record BackendLocator := mkLocator {
  bl_srv : option Srv; bl_closer : option nat }.

Definition NewBackendLocator : BackendLocator := mkLocator None None.
Definition NewStaticBackendLocator (srv : Srv) : BackendLocator :=
  mkLocator (Some srv) None.

(** A locator and the connections of the process. *)
Record Located := mkLocated { lo_locator : BackendLocator; lo_net : Net }.

Definition findLocal (env : LocatorEnv) : option Srv :=
  match ev_disco env with
  | None => None
  | Some None => None
  | Some (Some (Err _)) => None
  | Some (Some (Ok local)) => local
  end.

(** [BackendClient] of the client factory: the client, over a new connection. *)
Definition dial (client : result Srv) : M Located (Srv * nat) := fun s =>
  match client with
  | Err e => (Err e, s)
  | Ok srv =>
      let w := lo_net s in
      (Ok (srv, nw_dials w),
       mkLocated (lo_locator s) (mkNet (S (nw_dials w)) (nw_closed w)))
  end.

(** [Close] of a client: the connection is closed, whatever it returns. *)
Definition hang_up (closing : result unit) (c : nat) : M Located unit := fun s =>
  let w := lo_net s in
  (closing, mkLocated (lo_locator s) (mkNet (nw_dials w) (c :: nw_closed w))).

Definition set_locator (l : BackendLocator) : M Located unit :=
  modify (fun s => mkLocated l (lo_net s)).

Definition Backend (env : LocatorEnv) : M Located Srv :=
  let! s := get in
  let l := lo_locator s in
  match bl_srv l with
  | Some srv => ret srv
  | None =>
  match findLocal env with
  | Some local => set_locator (mkLocator (Some local) (bl_closer l)) ;;; ret local
  | None =>
  match ev_clients env with
  | None => fail (OtherError "backend is not configured")
  | Some listener =>
      let! client := catch (dial listener) (fun r => match r with
        | Ok x => ret x
        | Err e => fail (WithMessage e "unable to create the backend client")
        end) in
      set_locator (mkLocator (Some client.1) (Some client.2)) ;;; ret client.1
  end
  end
  end.

(** [closing] is what closing the client returns. *)
Definition Close (closing : result unit) : M Located unit :=
  let! s := get in
  match bl_closer (lo_locator s) with
  | None => ret tt
  | Some c =>
      catch (hang_up closing c) (fun err =>
        set_locator (mkLocator None None) ;;; lift_result err)
  end.

(** ** Histories *)

Inductive locator_event :=
| EvBackend (env : LocatorEnv)
| EvClose (closing : result unit).

Definition locator_step (s : Located) (ev : locator_event) : Located :=
  match ev with
  | EvBackend env => (Backend env s).2
  | EvClose closing => (Close closing s).2
  end.
Definition locator_run (evs : list locator_event) (s : Located) : Located :=
  foldl locator_step s evs.

(** The connection to close is the only open one, and belongs to a backend
    that was found. *)
Record locator_ok (s : Located) : Prop := {
  ok_srv : bl_srv (lo_locator s) = None -> bl_closer (lo_locator s) = None;
  ok_tidy : tidy (lo_net s);
  ok_open c : open_conn (lo_net s) c <-> bl_closer (lo_locator s) = Some c }.

Lemma locator_ok_no_net l : bl_closer l = None -> locator_ok (mkLocated l no_net).
Proof.
  intros Hl. constructor; simpl; [done|by split; [constructor|set_solver]|].
  rewrite Hl. intros c. split; [|done]. intros [Hc _]. simpl in Hc. lia.
Qed.

Lemma dial_ok s srv : locator_ok s -> bl_srv (lo_locator s) = None ->
  locator_ok (mkLocated (mkLocator (Some srv) (Some (nw_dials (lo_net s))))
    (mkNet (S (nw_dials (lo_net s))) (nw_closed (lo_net s)))).
Proof.
  intros [Hs [Hn Hlt] Ho] E. specialize (Hs E). rewrite Hs in Ho.
  constructor; [done|split; simpl; [done|]|].
  - intros c Hc%Hlt. lia.
  - intros c. unfold open_conn in *. simpl. split.
    + intros [Hc Hni]. destruct (decide (c = nw_dials (lo_net s))) as [->|Hne]; [done|].
      assert (c < nw_dials (lo_net s) /\ c ∉ nw_closed (lo_net s)) as Hc'%Ho; [|done].
      split; [lia|done].
    + intros [= <-]. split; [lia|]. intros Hc%Hlt. lia.
Qed.

Lemma hang_up_ok s c : locator_ok s -> bl_closer (lo_locator s) = Some c ->
  locator_ok (mkLocated (mkLocator None None)
    (mkNet (nw_dials (lo_net s)) (c :: nw_closed (lo_net s)))).
Proof.
  intros [Hs [Hn Hlt] Ho] E. pose proof (proj2 (Ho c) E) as [Hc Hni].
  constructor; [done|split; simpl|].
  - by constructor.
  - intros x [->|Hx]%elem_of_cons; [done|by apply Hlt].
  - intros x. unfold open_conn in *. simpl. split; [|done]. intros [Hx Hnx].
    apply not_elem_of_cons in Hnx as [Hne Hnx]. destruct Hne.
    assert (bl_closer (lo_locator s) = Some x) as Hcx by by apply Ho. congruence.
Qed.

Lemma locator_step_ok s ev : locator_ok s -> locator_ok (locator_step s ev).
Proof.
  intros Hok. destruct ev as [env|closing]; simpl.
  - unfold Backend, bind at 1, get. simpl.
    destruct (bl_srv (lo_locator s)) eqn:Es; [done|].
    destruct (findLocal env).
    { simpl. destruct Hok as [Hs Ht Ho]. constructor; [done..|]. exact Ho. }
    destruct (ev_clients env) as [[srv|e]|]; [|done..]. by apply dial_ok.
  - unfold Close, bind at 1, get. simpl.
    destruct (bl_closer (lo_locator s)) eqn:Ec; [|done].
    unfold catch. simpl. destruct closing; by apply hang_up_ok.
Qed.

Lemma locator_run_ok evs s : locator_ok s -> locator_ok (locator_run evs s).
Proof.
  revert s. induction evs as [|ev evs IH]; intros s Hok; [done|].
  by apply IH, locator_step_ok.
Qed.

(** The backends a lookup may find anew. *)
Definition offers (env : LocatorEnv) (srv : Srv) : Prop :=
  findLocal env = Some srv \/ findLocal env = None /\ ev_clients env = Some (Ok srv).

(** A lookup answers the backend that is kept, or else one the process
    offers, and keeps it; it fails without a change. *)
Lemma Backend_decides env s :
  match Backend env s with
  | (Ok srv, s') => bl_srv (lo_locator s') = Some srv /\
      (bl_srv (lo_locator s) = Some srv \/ bl_srv (lo_locator s) = None /\ offers env srv)
  | (Err _, s') => s' = s /\ bl_srv (lo_locator s) = None /\ forall srv, ~ offers env srv
  end.
Proof.
  unfold Backend, bind at 1, get. simpl.
  destruct (bl_srv (lo_locator s)) eqn:Es; [naive_solver|]. unfold offers.
  destruct (findLocal env) as [local|]; [simpl; naive_solver|].
  destruct (ev_clients env) as [[srv|e]|]; simpl; naive_solver.
Qed.

Lemma Backend_kept env s srv : bl_srv (lo_locator s) = Some srv -> Backend env s = (Ok srv, s).
Proof. intros E. unfold Backend, bind at 1, get. by rewrite E. Qed.

Lemma Close_drops closing s :
  bl_closer (lo_locator s) <> None ->
  (Close closing s).1 = closing /\ bl_srv (lo_locator (Close closing s).2) = None.
Proof.
  intros Hc. unfold Close, bind, get. destruct (bl_closer _); [|done].
  by destruct closing as [[]|].
Qed.

(** C39: the locator leaks no connection and gives up on no backend.  In every
    history of lookups and closes of a new locator the connections that were
    dialed and not closed are the one the locator still has to close, if any,
    and no connection is closed twice; a lookup answers the backend it found
    before, or else one the process offers now (the backend of the process
    before a client of the listener), and answers it from then on; a lookup
    fails only when the process offers none, and changes nothing, so that
    the next one tries again; and a close returns what closing the client
    returned and forgets the backend, so that the next lookup answers one the
    process offers then. *)
Theorem locator_keeps_and_retries (l0 : BackendLocator) (evs : list locator_event)
    (env : LocatorEnv) (closing : result unit) :
  l0 = NewBackendLocator \/ (exists srv, l0 = NewStaticBackendLocator srv) ->
  let s := locator_run evs (mkLocated l0 no_net) in
  (forall c, open_conn (lo_net s) c <-> bl_closer (lo_locator s) = Some c) /\
  NoDup (nw_closed (lo_net s)) /\
  match Backend env s with
  | (Ok srv, s') =>
      (bl_srv (lo_locator s) = Some srv \/
       bl_srv (lo_locator s) = None /\ offers env srv) /\
      forall env', (Backend env' s').1 = Ok srv
  | (Err _, s') => s' = s /\ forall srv, ~ offers env srv
  end /\
  (bl_closer (lo_locator s) <> None -> (Close closing s).1 = closing /\
     forall srv, (Backend env (Close closing s).2).1 = Ok srv -> offers env srv).
Proof.
  intros Hl s. assert (locator_ok s) as [_ [Hn _] Ho].
  { apply locator_run_ok, locator_ok_no_net. by destruct Hl as [->|[srv ->]]. }
  split_and!; [done..| |].
  - pose proof (Backend_decides env s) as Hd. destruct (Backend env s) as [[srv|e] s'].
    + destruct Hd as [Hk Hd]. split; [done|]. intros env'. by rewrite (Backend_kept env' s' srv).
    + by destruct Hd as (-> & _ & Hd).
  - intros [Hc Hs]%(Close_drops closing). split; [done|]. intros srv E.
    pose proof (Backend_decides env (Close closing s).2) as Hd.
    destruct (Backend env _) as [[x|e] s']; [|done]. injection E as ->.
    rewrite Hs in Hd. by destruct Hd as [_ [|[]]].
Qed.
End locator.
Arguments BackendLocator : clear implicits.
Arguments Located : clear implicits.
Arguments LocatorEnv : clear implicits.
Arguments locator_event : clear implicits.

(** A backend that is dialed once the listener is up, kept, closed, and found
    in the process afterwards. *)
Definition example_events : list (locator_event nat) :=
  [EvBackend (mkEnv None (Some (Err (OtherError "connection refused"))));
   EvBackend (mkEnv None (Some (Ok 7)));
   EvClose (Ok tt);
   EvBackend (mkEnv None (Some (Ok 8)))].

Lemma locator_keeps_and_retries_witness :
  open_conn (lo_net (locator_run example_events (mkLocated NewBackendLocator no_net))) 1 /\
  ~ open_conn (lo_net (locator_run example_events (mkLocated NewBackendLocator no_net))) 0 /\
  offers (mkEnv (Some (Some (Ok (Some 9)))) None) 9.
Proof.
  pose proof (locator_keeps_and_retries NewBackendLocator example_events
    (mkEnv (Some (Some (Ok (Some 9)))) None) (Err (OtherError "closed twice"))
    (or_introl eq_refl)) as (Ho & _ & _ & Hc).
  split_and!; [by apply Ho|intros H%Ho; discriminate H|].
  by apply Hc; [vm_compute|vm_compute].
Defined.
