(* ===== verification/CaForward.v ===== *)
(** The CA service of the tenants: [server/service/ca/forward.go] and
    [ca_service.go].

    Every method copies its public request into the privpb counterpart, with
    the org of the caller's token, and forwards it to the backend the locator
    finds, in the context of the caller. *)
From Stdlib Require Import ZArith Lia.
From stdpp Require Import base list gmap strings pretty.
From S2P Require Import Prelude GoStrings Xdb Roles Scopes Tenancy Grants Authorizer Methods Access Model Query Sql CaQuery CaDb PathLength Base64 Keys Pbconv Lru Registry Crl RowPb IssuerBuild TenantScope BackendIssuers BackendCerts Locator.

(** ** The counterpart of a request *)

(** A public request by its encoding: the error of [proto.Marshal], or what
    [proto.Unmarshal] reads from it as the privpb counterpart, whose org is
    what the caller encoded in field 1, if anything. *)
Record PublicRequest (R : Type) := mkPublic { pm_decoded : result (result R) }.
Arguments mkPublic {R}.
Arguments pm_decoded {R}.

(** The [OrgID] field of a privpb request: [m.Set] of [orgIDField]. *)
Class HasOrgID (R : Type) := set_OrgID : string -> R -> R.
#[export] Instance RegisterIssuerRequest_org : HasOrgID RegisterIssuerRequest := fun org r =>
  mkRegisterIssuer org (ri_ProjectID r) (ri_Label r) (ri_Type r) (ri_ParentID r)
    (ri_Profile r) (ri_Subject r) (ri_SAN r) (ri_Extensions r) (ri_KeySpec r)
    (ri_KeyProvider r) (ri_Config r).
#[export] Instance ImportIssuerRequest_org : HasOrgID ImportIssuerRequest := fun org r =>
  mkImportIssuer org (ii_ProjectID r) (ii_Label r) (ii_Type r) (ii_Certificate r)
    (ii_Intermediates r) (ii_Root r) (ii_KeyURI r) (ii_KeyPem r) (ii_Config r).
#[export] Instance ActivateIssuerRequest_org : HasOrgID ActivateIssuerRequest := fun org r =>
  mkActivateIssuer org (ai_ProjectID r) (ai_ID r) (ai_Certificate r)
    (ai_Intermediates r) (ai_Root r).
#[export] Instance UpdateIssuer_Request_org : HasOrgID UpdateIssuer_Request := fun org r =>
  mkUpdateIssuerRequest org (up_ProjectID r) (up_ID r) (up_Config r) (up_Status
    r).
#[export] Instance GetIssuerRequest_org : HasOrgID GetIssuerRequest := fun org r =>
  mkGetIssuer org (gi_ProjectID r) (gi_ID r) (gi_Label r) (gi_IKID r).
#[export] Instance ListIssuers_Request_org : HasOrgID ListIssuers_Request := fun org r =>
  mkListIssuersReq org (ls_Project r) (ls_Status r) (ls_Type r) (ls_IDs r)
    (ls_IKIDs r) (ls_Limit r) (ls_Offset r) (ls_Cursor r).
#[export] Instance RegisterRootRequest_org : HasOrgID RegisterRootRequest := fun org r =>
  mkRegisterRoot org (rr_Pem r) (rr_Trust r).
#[export] Instance ListRoots_Request_org : HasOrgID ListRoots_Request := fun org r =>
  mkListRootsReq org (rt_Limit r) (rt_Offset r) (rt_Cursor r).
#[export] Instance RegisterProfileRequest_org : HasOrgID RegisterProfileRequest := fun org r =>
  mkRegisterProfile org (rp_ProjectID r) (rp_Profile r).
#[export] Instance GetProfileRequest_org : HasOrgID GetProfileRequest := fun org r =>
  mkGetProfile org (gp_ProjectID r) (gp_ID r) (gp_Label r).
#[export] Instance ListProfiles_Request_org : HasOrgID ListProfiles_Request := fun org r =>
  mkListProfilesReq org (lq_ProjectID r) (lq_IssuerLabel r) (lq_IDs r) (lq_Labels
    r) (lq_Limit r) (lq_Offset r) (lq_Cursor r).
#[export] Instance DeleteProfileRequest_org : HasOrgID DeleteProfileRequest := fun org r =>
  mkDeleteProfile org (dp_ProjectID r) (dp_ID r).
#[export] Instance SignCertificateRequest_org : HasOrgID SignCertificateRequest := fun org r =>
  mkSignCertificate org (sc_ProjectID r) (sc_Request r) (sc_RequestFormat r)
    (sc_Profile r) (sc_IssuerLabel r) (sc_Label r) (sc_SAN r) (sc_Subject r)
    (sc_Extensions r) (sc_NotBefore r) (sc_NotAfter r) (sc_Metadata r).
#[export] Instance GetCertificateRequest_org : HasOrgID GetCertificateRequest := fun org r =>
  mkGetCertificate org (gc_ID r) (gc_SKID r) (gc_Sha256 r) (gc_IssuerSerial r).
#[export] Instance ListCertificates_Request_org : HasOrgID ListCertificates_Request := fun org r =>
  mkListCertificatesReq org (cl_Project r) (cl_IKID r) (cl_Profile r) (cl_Status
    r) (cl_ExpiringBefore r) (cl_Limit r) (cl_Offset r) (cl_Cursor r).
#[export] Instance UpdateCertificateLabelRequest_org : HasOrgID UpdateCertificateLabelRequest := fun org r =>
  mkUpdateLabel org (ul_ProjectID r) (ul_ID r) (ul_Label r) (ul_Metadata r).
#[export] Instance RevokeCertificate_Request_org : HasOrgID RevokeCertificate_Request := fun org r =>
  mkRevokeReq org (rv_ProjectID r) (rv_ID r) (rv_SKID r) (rv_IssuerSerial r)
    (rv_Reason r) (rv_ReasonText r).
#[export] Instance ListRevokedCertificates_Request_org : HasOrgID ListRevokedCertificates_Request := fun org r =>
  mkListRevokedReq org (lr_ProjectID r) (lr_IKID r) (lr_Limit r) (lr_Offset r)
    (lr_Cursor r).
#[export] Instance GetCrlRequest_org : HasOrgID GetCrlRequest := fun org r =>
  mkGetCrl org (gk_IKID r).
#[export] Instance PublishCrls_Request_org : HasOrgID PublishCrls_Request := fun org r =>
  mkPublishCrlsReq org (pb_ProjectID r) (pb_IKID r) (pb_Force r).
#[export] Instance GetSummaryRequest_org : HasOrgID GetSummaryRequest := fun org r =>
  mkGetSummary org (gs_ProjectID r).

Definition counterpart {R} `{HasOrgID R} (req : PublicRequest R) (orgID : string)
  : result R :=
  match pm_decoded req with
  | Err e => Err (WithMessage e "unable to encode the request")
  | Ok (Err e) => Err (WithMessage e "unable to decode the request")
  | Ok (Ok preq) => Ok (set_OrgID orgID preq)
  end.

(** ** Failures *)

(** An error with the HTTP status and code set on it, if any. *)
Record CaFailure := mkCaFailure {
  cf_error : error; cf_http : option (Z * string) }.

(** [errors.As] with an [httperror.Error]: its gRPC status. *)
Fixpoint RPCStatus (e : error) : option code :=
  match e with
  | Grpc c _ | GrpcCause c _ _ => Some c
  | WithMessage e _ => RPCStatus e
  | _ => None
  end.

Definition StatusConflict : Z := 409.
Definition CodeConflict : string := "conflict".
Definition forwardedError (e : error) : CaFailure :=
  if bool_decide (RPCStatus e = Some FailedPrecondition)
  then mkCaFailure e (Some (StatusConflict, CodeConflict))
  else mkCaFailure e None.

Section ca.
Context `{Xdb, Codec, IdGen, ChainLib, ProfileCodec, Authority, !IssuerLib, !CrlLib, !SignLib, LRU, Porto, TimeLib}.
Context {A : Type} `{!Authorizer A}.
Local Notation B X := (M (BkState (A := A)) X).

(** ** The backend *)

(** [privpb.BackendServer]: the methods of a backend, of the process or of a
    client of its listener. *)
Record BackendServer := mkBackendServer {
  be_RegisterIssuer : Context -> option RegisterIssuerRequest -> B Issuer_pb;
  be_ImportIssuer : Context -> option ImportIssuerRequest -> B Issuer_pb;
  be_ActivateIssuer : Context -> option ActivateIssuerRequest -> B Issuer_pb;
  be_UpdateIssuer : Context -> option UpdateIssuer_Request -> B Issuer_pb;
  be_GetIssuer : Context -> option GetIssuerRequest -> B Issuer_pb;
  be_ListIssuers : Context -> option ListIssuers_Request -> B (list Issuer_pb * option NextPage_pb);
  be_RegisterRoot : Context -> option RegisterRootRequest -> B RootCertificate_pb;
  be_ListRoots : Context -> option ListRoots_Request -> B (list RootCertificate_pb * option NextPage_pb);
  be_RegisterProfile : Context -> option RegisterProfileRequest -> B CertProfile_pb;
  be_GetProfile : Context -> option GetProfileRequest -> B CertProfile_pb;
  be_ListProfiles : Context -> option ListProfiles_Request -> B (list CertProfile_pb * option NextPage_pb);
  be_DeleteProfile : Context -> option DeleteProfileRequest -> B unit;
  be_SignCertificate : Context -> option SignCertificateRequest -> B Certificate_pb;
  be_GetCertificate : Context -> option GetCertificateRequest -> B Certificate_pb;
  be_ListCertificates : Context -> option ListCertificates_Request -> B (list Certificate_pb * option NextPage_pb);
  be_UpdateCertificateLabel : Context -> option UpdateCertificateLabelRequest -> B Certificate_pb;
  be_RevokeCertificate : Context -> option RevokeCertificate_Request -> B RevokedCertificate_pb;
  be_ListRevokedCertificates : Context -> option ListRevokedCertificates_Request -> B (list RevokedCertificate_pb * option NextPage_pb);
  be_GetCRL : Context -> option GetCrlRequest -> B Crl_pb;
  be_PublishCrls : Context -> option PublishCrls_Request -> B (list Crl_pb);
  be_GetSummary : Context -> option GetSummaryRequest -> B SummaryResponse;
  be_SignOCSP : option string -> B string }.

(** The backend service of the process, called with the caller's context. *)
Definition backend_of (sv : Service) : BackendServer := {|
  be_RegisterIssuer := Service_RegisterIssuer sv;
  be_ImportIssuer := Service_ImportIssuer sv;
  be_ActivateIssuer := Service_ActivateIssuer sv;
  be_UpdateIssuer := Service_UpdateIssuer sv;
  be_GetIssuer := Service_GetIssuer;
  be_ListIssuers := Service_ListIssuers;
  be_RegisterRoot := Service_RegisterRoot;
  be_ListRoots := Service_ListRoots;
  be_RegisterProfile := Service_RegisterProfile sv;
  be_GetProfile := Service_GetProfile;
  be_ListProfiles := Service_ListProfiles;
  be_DeleteProfile := Service_DeleteProfile sv;
  be_SignCertificate := Service_SignCertificate sv;
  be_GetCertificate := Service_GetCertificate;
  be_ListCertificates := Service_ListCertificates;
  be_UpdateCertificateLabel := Service_UpdateCertificateLabel;
  be_RevokeCertificate := Service_RevokeCertificate;
  be_ListRevokedCertificates := Service_ListRevokedCertificates;
  be_GetCRL := Service_GetCRL;
  be_PublishCrls := Service_PublishCrls sv;
  be_GetSummary := Service_GetSummary;
  be_SignOCSP := Service_SignOCSP sv |}.

(** ** The service *)

Definition Env : Type := LocatorEnv BackendServer.
Record CaState := mkCa {
  ca_backend : option (Located BackendServer); ca_bk : BkState (A := A) }.

(** A method answers or fails. *)
Definition C (X : Type) : Type := CaState -> (X + CaFailure) * CaState.

Definition backendServer (env : Env) (s : CaState) : result BackendServer * CaState :=
  match ca_backend s with
  | None => (Err (Grpc Unavailable "CA is not configured"), s)
  | Some l =>
      let '(r, l) := Backend env l in
      (match r with
       | Ok be => Ok be
       | Err _ => Err (Grpc Unavailable "CA is not available")
       end, mkCa (Some l) (ca_bk s))
  end.

(** The call of a method of the backend. *)
Definition call_backend {X} (m : B X) : C X := fun s =>
  let '(r, b) := m (ca_bk s) in
  (match r with Ok x => inl x | Err e => inr (forwardedError e) end,
   mkCa (ca_backend s) b).

Definition forward {R X} `{HasOrgID R} (env : Env) (ctx : Context)
    (req : option (PublicRequest R))
    (method : BackendServer -> Context -> option R -> B X) : C X := fun s =>
  match backendServer env s with
  | (Err e, s) => (inr (mkCaFailure e None), s)
  | (Ok be, s) =>
      match req with
      | None => call_backend (method be ctx None) s
      | Some p =>
          match counterpart p (id_string (tc_orgID (FromContext ctx))) with
          | Err e =>
              (inr (mkCaFailure (WrapWithCtx e "unable to forward the request") None), s)
          | Ok preq => call_backend (method be ctx (Some preq)) s
          end
      end
  end.

Definition CaService_RegisterIssuer (env : Env) (ctx : Context) (req : option (PublicRequest RegisterIssuerRequest))
  : C (Issuer_pb) := forward env ctx req be_RegisterIssuer.
Definition CaService_ImportIssuer (env : Env) (ctx : Context) (req : option (PublicRequest ImportIssuerRequest))
  : C (Issuer_pb) := forward env ctx req be_ImportIssuer.
Definition CaService_ActivateIssuer (env : Env) (ctx : Context) (req : option (PublicRequest ActivateIssuerRequest))
  : C (Issuer_pb) := forward env ctx req be_ActivateIssuer.
Definition CaService_UpdateIssuer (env : Env) (ctx : Context) (req : option (PublicRequest UpdateIssuer_Request))
  : C (Issuer_pb) := forward env ctx req be_UpdateIssuer.
Definition CaService_GetIssuer (env : Env) (ctx : Context) (req : option (PublicRequest GetIssuerRequest))
  : C (Issuer_pb) := forward env ctx req be_GetIssuer.
Definition CaService_ListIssuers (env : Env) (ctx : Context) (req : option (PublicRequest ListIssuers_Request))
  : C (list Issuer_pb * option NextPage_pb) := forward env ctx req be_ListIssuers.
Definition CaService_RegisterRoot (env : Env) (ctx : Context) (req : option (PublicRequest RegisterRootRequest))
  : C (RootCertificate_pb) := forward env ctx req be_RegisterRoot.
Definition CaService_ListRoots (env : Env) (ctx : Context) (req : option (PublicRequest ListRoots_Request))
  : C (list RootCertificate_pb * option NextPage_pb) := forward env ctx req be_ListRoots.
Definition CaService_RegisterProfile (env : Env) (ctx : Context) (req : option (PublicRequest RegisterProfileRequest))
  : C (CertProfile_pb) := forward env ctx req be_RegisterProfile.
Definition CaService_GetProfile (env : Env) (ctx : Context) (req : option (PublicRequest GetProfileRequest))
  : C (CertProfile_pb) := forward env ctx req be_GetProfile.
Definition CaService_ListProfiles (env : Env) (ctx : Context) (req : option (PublicRequest ListProfiles_Request))
  : C (list CertProfile_pb * option NextPage_pb) := forward env ctx req be_ListProfiles.
Definition CaService_DeleteProfile (env : Env) (ctx : Context) (req : option (PublicRequest DeleteProfileRequest))
  : C (unit) := forward env ctx req be_DeleteProfile.
Definition CaService_SignCertificate (env : Env) (ctx : Context) (req : option (PublicRequest SignCertificateRequest))
  : C (Certificate_pb) := forward env ctx req be_SignCertificate.
Definition CaService_GetCertificate (env : Env) (ctx : Context) (req : option (PublicRequest GetCertificateRequest))
  : C (Certificate_pb) := forward env ctx req be_GetCertificate.
Definition CaService_ListCertificates (env : Env) (ctx : Context) (req : option (PublicRequest ListCertificates_Request))
  : C (list Certificate_pb * option NextPage_pb) := forward env ctx req be_ListCertificates.
Definition CaService_UpdateCertificateLabel (env : Env) (ctx : Context) (req : option (PublicRequest UpdateCertificateLabelRequest))
  : C (Certificate_pb) := forward env ctx req be_UpdateCertificateLabel.
Definition CaService_RevokeCertificate (env : Env) (ctx : Context) (req : option (PublicRequest RevokeCertificate_Request))
  : C (RevokedCertificate_pb) := forward env ctx req be_RevokeCertificate.
Definition CaService_ListRevokedCertificates (env : Env) (ctx : Context) (req : option (PublicRequest ListRevokedCertificates_Request))
  : C (list RevokedCertificate_pb * option NextPage_pb) := forward env ctx req be_ListRevokedCertificates.
Definition CaService_GetCRL (env : Env) (ctx : Context) (req : option (PublicRequest GetCrlRequest))
  : C (Crl_pb) := forward env ctx req be_GetCRL.
Definition CaService_PublishCrls (env : Env) (ctx : Context) (req : option (PublicRequest PublishCrls_Request))
  : C (list Crl_pb) := forward env ctx req be_PublishCrls.
Definition CaService_GetSummary (env : Env) (ctx : Context) (req : option (PublicRequest GetSummaryRequest))
  : C (SummaryResponse) := forward env ctx req be_GetSummary.
Definition CaService_SignOCSP (env : Env) (req : option string) : C string := fun s =>
  match backendServer env s with
  | (Err e, s) => (inr (mkCaFailure e None), s)
  | (Ok be, s) => call_backend (be_SignOCSP be req) s
  end.

(** [Close] of the service; the error of the client is logged. *)
Definition CaService_Close (closing : result unit) (s : CaState) : CaState :=
  match ca_backend s with
  | None => s
  | Some l => mkCa (Some (Close closing l).2) (ca_bk s)
  end.
End ca.

(** ** Calls *)

(** A call of a method; a missing request is [None]. *)
Inductive ca_call :=
| CaRegisterIssuer (q : option (PublicRequest RegisterIssuerRequest))
| CaImportIssuer (q : option (PublicRequest ImportIssuerRequest))
| CaActivateIssuer (q : option (PublicRequest ActivateIssuerRequest))
| CaUpdateIssuer (q : option (PublicRequest UpdateIssuer_Request))
| CaGetIssuer (q : option (PublicRequest GetIssuerRequest))
| CaListIssuers (q : option (PublicRequest ListIssuers_Request))
| CaRegisterRoot (q : option (PublicRequest RegisterRootRequest))
| CaListRoots (q : option (PublicRequest ListRoots_Request))
| CaRegisterProfile (q : option (PublicRequest RegisterProfileRequest))
| CaGetProfile (q : option (PublicRequest GetProfileRequest))
| CaListProfiles (q : option (PublicRequest ListProfiles_Request))
| CaDeleteProfile (q : option (PublicRequest DeleteProfileRequest))
| CaSignCertificate (q : option (PublicRequest SignCertificateRequest))
| CaGetCertificate (q : option (PublicRequest GetCertificateRequest))
| CaListCertificates (q : option (PublicRequest ListCertificates_Request))
| CaUpdateCertificateLabel (q : option (PublicRequest UpdateCertificateLabelRequest))
| CaRevokeCertificate (q : option (PublicRequest RevokeCertificate_Request))
| CaListRevokedCertificates (q : option (PublicRequest ListRevokedCertificates_Request))
| CaGetCRL (q : option (PublicRequest GetCrlRequest))
| CaPublishCrls (q : option (PublicRequest PublishCrls_Request))
| CaGetSummary (q : option (PublicRequest GetSummaryRequest))
| CaSignOCSP (q : option string).
