(* ===== verification/CaForwardFacts.v ===== *)
(** What the CA service of the tenants does: the call of the backend with the
    org of the caller's token, whatever org the request encodes. *)
From Stdlib Require Import ZArith Lia.
From stdpp Require Import base list gmap strings pretty relations.
From S2P Require Import Prelude GoStrings Xdb Roles Scopes Tenancy Grants Authorizer Methods Access Model Query Sql CaQuery CaDb CaDbFacts CaDbSteps PathLength Base64 Keys Pbconv Lru Registry RegistryFacts RegistryDb Crl CrlFacts CrlRun RowPb IssuerBuild IssuerBuildFacts TenantScope BackendIssuers BackendCerts BackendSteps CrlSteps BackendFacts BackendClaims Locator CaForward.

Section facts.
Context `{XL : XdbLaws, Codec, IdGen, ChainLib, ProfileCodec, AuthorityLaws, !IssuerLib, !CrlLib, !SignLib, LRULaws, Porto, TimeLib}.
Context {A : Type} `{!Authorizer A}.
Local Notation Env := (Env (A := A)).
Local Notation CaState := (CaState (A := A)).
Local Notation db s := (rg_db (bk_rg (ca_bk s))).

Definition run_ca_call (env : Env) (ctx : Context) (c : ca_call) (s : CaState) : CaState :=
  match c with
  | CaRegisterIssuer q => (CaService_RegisterIssuer env ctx q s).2
  | CaImportIssuer q => (CaService_ImportIssuer env ctx q s).2
  | CaActivateIssuer q => (CaService_ActivateIssuer env ctx q s).2
  | CaUpdateIssuer q => (CaService_UpdateIssuer env ctx q s).2
  | CaGetIssuer q => (CaService_GetIssuer env ctx q s).2
  | CaListIssuers q => (CaService_ListIssuers env ctx q s).2
  | CaRegisterRoot q => (CaService_RegisterRoot env ctx q s).2
  | CaListRoots q => (CaService_ListRoots env ctx q s).2
  | CaRegisterProfile q => (CaService_RegisterProfile env ctx q s).2
  | CaGetProfile q => (CaService_GetProfile env ctx q s).2
  | CaListProfiles q => (CaService_ListProfiles env ctx q s).2
  | CaDeleteProfile q => (CaService_DeleteProfile env ctx q s).2
  | CaSignCertificate q => (CaService_SignCertificate env ctx q s).2
  | CaGetCertificate q => (CaService_GetCertificate env ctx q s).2
  | CaListCertificates q => (CaService_ListCertificates env ctx q s).2
  | CaUpdateCertificateLabel q => (CaService_UpdateCertificateLabel env ctx q s).2
  | CaRevokeCertificate q => (CaService_RevokeCertificate env ctx q s).2
  | CaListRevokedCertificates q => (CaService_ListRevokedCertificates env ctx q s).2
  | CaGetCRL q => (CaService_GetCRL env ctx q s).2
  | CaPublishCrls q => (CaService_PublishCrls env ctx q s).2
  | CaGetSummary q => (CaService_GetSummary env ctx q s).2
  | CaSignOCSP q => (CaService_SignOCSP env q s).2
  end.

(** The request the backend gets, when the public one encodes and decodes. *)
Definition forwarded_request {R} `{HasOrgID R} (org : string)
    (q : option (PublicRequest R)) : option (option R) :=
  match q with
  | None => Some None
  | Some p => match counterpart p org with Ok r => Some (Some r) | Err _ => None end
  end.

(** The call of the backend a call of the service is. *)
Definition backend_call (org : string) (c : ca_call) : option bk_call :=
  match c with
  | CaRegisterIssuer q => CallRegisterIssuer <$> forwarded_request org q
  | CaImportIssuer q => CallImportIssuer <$> forwarded_request org q
  | CaActivateIssuer q => CallActivateIssuer <$> forwarded_request org q
  | CaUpdateIssuer q => CallUpdateIssuer <$> forwarded_request org q
  | CaGetIssuer q => CallGetIssuer <$> forwarded_request org q
  | CaListIssuers q => CallListIssuers <$> forwarded_request org q
  | CaRegisterRoot q => CallRegisterRoot <$> forwarded_request org q
  | CaListRoots q => CallListRoots <$> forwarded_request org q
  | CaRegisterProfile q => CallRegisterProfile <$> forwarded_request org q
  | CaGetProfile q => CallGetProfile <$> forwarded_request org q
  | CaListProfiles q => CallListProfiles <$> forwarded_request org q
  | CaDeleteProfile q => CallDeleteProfile <$> forwarded_request org q
  | CaSignCertificate q => CallSignCertificate <$> forwarded_request org q
  | CaGetCertificate q => CallGetCertificate <$> forwarded_request org q
  | CaListCertificates q => CallListCertificates <$> forwarded_request org q
  | CaUpdateCertificateLabel q => CallUpdateCertificateLabel <$> forwarded_request org q
  | CaRevokeCertificate q => CallRevokeCertificate <$> forwarded_request org q
  | CaListRevokedCertificates q => CallListRevokedCertificates <$> forwarded_request org q
  | CaGetCRL q => CallGetCRL <$> forwarded_request org q
  | CaPublishCrls q => CallPublishCrls <$> forwarded_request org q
  | CaGetSummary q => CallGetSummary <$> forwarded_request org q
  | CaSignOCSP q => Some (CallSignOCSP q)
  end.

(** The call whose request encodes the org. *)
Definition with_org {R} `{HasOrgID R} (org : string) (q : option (PublicRequest R))
  : option (PublicRequest R) :=
  (fun p => mkPublic match pm_decoded p with
                     | Ok (Ok r) => Ok (Ok (set_OrgID org r))
                     | e => e
                     end) <$> q.
Definition call_with_org (org : string) (c : ca_call) : ca_call :=
  match c with
  | CaRegisterIssuer q => CaRegisterIssuer (with_org org q)
  | CaImportIssuer q => CaImportIssuer (with_org org q)
  | CaActivateIssuer q => CaActivateIssuer (with_org org q)
  | CaUpdateIssuer q => CaUpdateIssuer (with_org org q)
  | CaGetIssuer q => CaGetIssuer (with_org org q)
  | CaListIssuers q => CaListIssuers (with_org org q)
  | CaRegisterRoot q => CaRegisterRoot (with_org org q)
  | CaListRoots q => CaListRoots (with_org org q)
  | CaRegisterProfile q => CaRegisterProfile (with_org org q)
  | CaGetProfile q => CaGetProfile (with_org org q)
  | CaListProfiles q => CaListProfiles (with_org org q)
  | CaDeleteProfile q => CaDeleteProfile (with_org org q)
  | CaSignCertificate q => CaSignCertificate (with_org org q)
  | CaGetCertificate q => CaGetCertificate (with_org org q)
  | CaListCertificates q => CaListCertificates (with_org org q)
  | CaUpdateCertificateLabel q => CaUpdateCertificateLabel (with_org org q)
  | CaRevokeCertificate q => CaRevokeCertificate (with_org org q)
  | CaListRevokedCertificates q => CaListRevokedCertificates (with_org org q)
  | CaGetCRL q => CaGetCRL (with_org org q)
  | CaPublishCrls q => CaPublishCrls (with_org org q)
  | CaGetSummary q => CaGetSummary (with_org org q)
  | CaSignOCSP q => CaSignOCSP q
  end.

(** ** One method *)

(** The backend the locator finds is the one of the process. *)
Definition finds_local (sv : Service) (env : Env) (s : CaState) : Prop :=
  exists l, ca_backend s = Some l /\ (Backend env l).1 = Ok (backend_of sv).

Lemma backendServer_local sv env (s : CaState) :
  finds_local sv env s ->
  exists s', backendServer env s = (Ok (backend_of sv), s') /\ ca_bk s' = ca_bk s.
Proof.
  intros (l & El & Eb). unfold backendServer. rewrite El.
  destruct (Backend env l) as [r l']. simpl in Eb. subst r. by eexists.
Qed.

Lemma call_backend_bk {X} (m : M (BkState (A := A)) X) (s : CaState) :
  ca_bk (call_backend m s).2 = (m (ca_bk s)).2.
Proof. unfold call_backend. by destruct (m (ca_bk s)) as [[x|e] b]. Qed.

Lemma forward_bk {R X} `{HasOrgID R} sv env ctx (q : option (PublicRequest R))
    (method : BackendServer -> Context -> option R -> M (BkState (A := A)) X) s :
  finds_local sv env s ->
  ca_bk (forward env ctx q method s).2 =
  match forwarded_request (id_string (tc_orgID (FromContext ctx))) q with
  | Some r => (method (backend_of sv) ctx r (ca_bk s)).2
  | None => ca_bk s
  end.
Proof.
  intros (s' & Es & Eb)%backendServer_local. unfold forward, forwarded_request.
  rewrite Es. destruct q as [p|]; [|by rewrite call_backend_bk, Eb].
  destruct (counterpart p _); [|done]. by rewrite call_backend_bk, Eb.
Qed.

(** A method runs the call of the backend. *)
Lemma run_ca_call_bk sv env ctx c (s : CaState) :
  finds_local sv env s ->
  ca_bk (run_ca_call env ctx c s) =
  match backend_call (id_string (tc_orgID (FromContext ctx))) c with
  | Some bc => run_call sv ctx bc (ca_bk s)
  | None => ca_bk s
  end.
Proof.
  intros Hf. destruct c as [q|q|q|q|q|q|q|q|q|q|q|q|q|q|q|q|q|q|q|q|q|q];
    cbn [run_ca_call backend_call];
    try (etrans; [by apply (forward_bk sv)|by destruct (forwarded_request _ q)]).
  destruct (backendServer_local sv env s Hf) as (s' & Es & Eb).
  unfold CaService_SignOCSP. rewrite Es, call_backend_bk. by rewrite Eb.
Qed.

(** Without a backend nothing is called. *)
Lemma run_ca_call_unavailable env ctx c (s : CaState) e :
  (backendServer env s).1 = Err e -> ca_bk (run_ca_call env ctx c s) = ca_bk s.
Proof.
  intros Eb. assert (ca_bk (backendServer env s).2 = ca_bk s) as Es.
  { unfold backendServer. destruct (ca_backend s) as [l|]; [|done].
    by destruct (Backend env l). }
  destruct (backendServer env s) as [r s'] eqn:E. simpl in *. subst r.
  assert (forall R X `{HasOrgID R} (q : option (PublicRequest R))
    (method : BackendServer -> Context -> option R -> M (BkState (A := A)) X),
    ca_bk (forward env ctx q method s).2 = ca_bk s) as Hf
    by (intros; unfold forward; by rewrite E).
  destruct c; cbn [run_ca_call]; try apply Hf.
  unfold CaService_SignOCSP. by rewrite E.
Qed.

(** ** The org of the token *)

Lemma counterpart_with_org {R} `{HasOrgID R} (org org' : string) (q : option (PublicRequest R)) :
  (forall r, set_OrgID org (set_OrgID org' r) = set_OrgID org r) ->
  forwarded_request org (with_org org' q) = forwarded_request org q.
Proof.
  intros Hs. destruct q as [[[[r|e]|e]]|]; try done.
  unfold forwarded_request, counterpart. simpl. by rewrite Hs.
Qed.

Lemma backend_call_with_org org org' c :
  backend_call org (call_with_org org' c) = backend_call org c.
Proof.
  destruct c; cbn [backend_call call_with_org]; [..|done];
    by rewrite counterpart_with_org.
Qed.

(** A caller that is not a service, or whose token names an org. *)
Definition token_caller (t : TrustyCtx) : Prop :=
  isServiceCaller t = false \/ is_id (tc_orgID t).

Lemma requestOrg_token ctx o :
  token_caller (FromContext ctx) ->
  requestOrg ctx (id_string (tc_orgID (FromContext ctx))) = Some o ->
  o = tc_orgID (FromContext ctx).
Proof.
  unfold requestOrg. intros [Hs|Hi].
  - rewrite Hs. by intros [= ->].
  - rewrite parse_id_string by done. destruct (isServiceCaller _); by intros [= ->].
Qed.

Lemma token_publishes_one ctx q :
  token_caller (FromContext ctx) ->
  pb_OrgID q = id_string (tc_orgID (FromContext ctx)) -> publishAll ctx q = false.
Proof.
  unfold publishAll. intros [Hs|Hi] ->; [by rewrite Hs, andb_false_r|].
  by rewrite bool_decide_false by (by apply id_string_nonempty).
Qed.

(** The backend is called for the org of the token. *)
Lemma backend_call_org ctx c bc o :
  token_caller (FromContext ctx) ->
  backend_call (id_string (tc_orgID (FromContext ctx))) c = Some bc ->
  call_orgs ctx bc o -> o = tc_orgID (FromContext ctx).
Proof.
  intros Ht Hb Ho.
  destruct c as [q|q|q|q|q|q|q|q|q|q|q|q|q|q|q|q|q|q|q|q|q|q]; cbn [backend_call] in Hb;
    unfold forwarded_request, counterpart in Hb;
    try (destruct q as [[[[r|e]|e]]|]); simpl in Hb; try discriminate Hb;
    injection Hb as <-; simpl in Ho; try done; try by apply requestOrg_token.
  destruct Ho as [Ho|Ho]; [|by apply requestOrg_token].
  by rewrite (token_publishes_one ctx) in Ho.
Qed.
End facts.

(** ** Histories *)

Section claims.
Context `{XL : XdbLaws, Codec, IdGen, ChainLib, ProfileCodec, AuthorityLaws, !IssuerLib, !CrlLib, !SignLib, LRULaws, Porto, TimeLib}.
Context {A : Type} `{!Authorizer A}.
Context (sv : Service) (ttl : Z) (Httl : (0 <= ttl)%Z) (Hreg : sv_registry sv = true).
Local Notation Env := (Env (A := A)).
Local Notation CaState := (CaState (A := A)).
Local Notation db s := (rg_db (bk_rg (ca_bk s))).

(** C35: a call of the CA service works for the org of the token of its caller
    only.  In every history of the backend, a call of any of the 22 methods by
    a caller that is not a service, or is one whose token names an org, leaves
    the certificates, issuers, trust anchors and profiles of every other org
    exactly as they were, whether the backend is found or not; and an org that
    the caller encodes in the request, which has no such field, changes
    nothing of what the call does. *)
Theorem ca_stays_in_token_org (now : Z) (w : world) (size : Z) (az : A)
    (orgs : list Org) (env : Env) (ctx : Context) (c : ca_call) (s : CaState) (o : Z)
    (Hist : rtc (bk_next sv) (bk_start now w ttl size az orgs) (ca_bk s))
    (Hf : finds_local sv env s \/ exists e, (backendServer env s).1 = Err e)
    (Ht : token_caller (FromContext ctx)) (Ho : o <> tc_orgID (FromContext ctx)) :
  others_same o (db s) (rg_db (bk_rg (ca_bk (run_ca_call env ctx c s)))) /\
  (forall org, ca_bk (run_ca_call env ctx (call_with_org org c) s) =
               ca_bk (run_ca_call env ctx c s)).
Proof.
  destruct Hf as [Hf|[e He]].
  - rewrite (run_ca_call_bk sv) by done. split.
    + destruct (backend_call _ c) as [bc|] eqn:Eb; [|done].
      apply (call_stays_in_org sv ttl Httl Hreg now w size az orgs); [done|left].
      intros Hco. by apply Ho, (backend_call_org ctx c bc).
    + intros org. by rewrite !(run_ca_call_bk sv), backend_call_with_org.
  - split; [by rewrite (run_ca_call_unavailable _ _ _ _ e)|].
    intros org. by rewrite !(run_ca_call_unavailable _ _ _ _ e).
Qed.
End claims.
