(* ===== verification/ServiceExamples.v ===== *)
(** The theorems of the public services at concrete histories: the lookups at
    the database of the example responder, the responder with its cache over
    the example backend, and the CA service for a member of org 7 whose
    request encodes org 8. *)
From Stdlib Require Import ZArith Lia Ascii.
From stdpp Require Import base list gmap strings pretty sets relations.
From S2P Require Import Prelude GoStrings Xdb Roles Scopes Tenancy Grants Authorizer Methods Access Model PathLength Base64 Query Sql CaQuery CaDb CaDbFacts CaDbSteps CaDbClaims Keys Pbconv Lru Registry RegistryFacts RegistryDb CrlExamples Crl CrlFacts CrlRun RowPb IssuerBuild TenantScope BackendIssuers BackendCerts IssuerBuildFacts TenantScopeFacts BackendSteps BackendFacts BackendClaims BackendAnswers BackendExamples Cis CisFacts OcspText Aia AiaFacts Locator CaForward CaForwardFacts.

(** The certificates in another org, under another label and profile. *)
Definition moved_certificate (c : Certificate) : Certificate :=
  mkCertificate (c_ID c) 77 78 (c_Skid c) (c_Ikid c) (c_SerialNumber c) (c_NotBefore c)
    (c_NotAfter c) (c_Subject c) (c_Issuer c) (c_Sha256 c) "secret-profile" "secret"
    (c_Locations c) [("owner", "o")%string] (c_Pem c) (c_IssuersPem c) (c_Status c)
    (c_CreatedAt c).
Definition example_moved_db : Db :=
  tab_set certificates (moved_certificate <$> db_certificates example_crl_db) example_crl_db.

Lemma cis_hides_tenancy_witness :
  db_certificates example_moved_db <> db_certificates example_crl_db /\
  (CIS_GetCertificateStatus (Some (by_serial "skid-ca" 42)) example_moved_db).1 =
  (CIS_GetCertificateStatus (Some (by_serial "skid-ca" 42)) example_crl_db).1.
Proof.
  split; [vm_compute; discriminate|].
  assert (same_public example_moved_db example_crl_db) as Hs
    by (split; vm_compute; reflexivity).
  apply (cis_hides_tenancy example_moved_db example_crl_db Hs).
Defined.

Lemma cis_agrees_with_ocsp_witness :
  (ocspStatus "skid-ca" 42 5 example_responder).1 =
    Ok (mkOcspSign 42 OCSPStatusRevoked 1 5000 5) /\
  same_status (rg_db (bk_rg example_responder)) "skid-ca" 42
    (mkOcspSign 42 OCSPStatusRevoked 1 5000 5)
    (CIS_GetCertificateStatus (Some (by_serial "skid-ca" 42))
       (rg_db (bk_rg example_responder))).1.
Proof.
  assert ((ocspStatus "skid-ca" 42 5 example_responder).1 =
    Ok (mkOcspSign 42 OCSPStatusRevoked 1 5000 5)) as Ev by (vm_compute; reflexivity).
  split; [exact Ev|].
  destruct (cis_agrees_with_ocsp example_responder "skid-ca" 42 5 example_crl_db_wf
    ltac:(discriminate)) as (r & E & Hr).
  rewrite E in Ev. injection Ev as ->. exact Hr.
Defined.

(** ** The cache: entries, most recently used first *)

Record lru_entries (K V : Type) := mkEntries { se_cap : Z; se_list : list (K * V) }.
Arguments mkEntries {K V}.
Arguments se_cap {K V}.
Arguments se_list {K V}.

Section entries.
Context {K V : Type} `{EqDecision K}.
Implicit Types l : list (K * V).

Definition entry_of (k : K) l : option (K * V) :=
  List.find (fun e => bool_decide (e.1 = k)) l.
Definition without (k : K) l : list (K * V) :=
  List.filter (fun e => negb (bool_decide (e.1 = k))) l.
(** The used entry comes first. *)
Definition use (k : K) l : list (K * V) :=
  match entry_of k l with Some e => e :: without k l | None => l end.

Lemma entry_of_cons k e l :
  entry_of k (e :: l) = if decide (e.1 = k) then Some e else entry_of k l.
Proof. unfold entry_of. simpl. case_bool_decide; by case_decide. Qed.
Lemma entry_of_without k k' l :
  entry_of k' (without k l) = if decide (k = k') then None else entry_of k' l.
Proof.
  induction l as [|e l IH]; [by case_decide|]. unfold without. cbn [List.filter].
  rewrite entry_of_cons. case_bool_decide as E; cbn [negb].
  - fold (without k l). rewrite IH. case_decide; [done|]. by rewrite decide_False by congruence.
  - rewrite entry_of_cons. fold (without k l). rewrite IH. repeat case_decide; congruence.
Qed.
Lemma entry_of_take k n l e : entry_of k (take n l) = Some e -> entry_of k l = Some e.
Proof.
  revert n. induction l as [|x l IH]; intros [|n]; try done.
  rewrite firstn_cons, !entry_of_cons. case_decide; [done|apply IH].
Qed.
Lemma entry_of_key k l e : entry_of k l = Some e -> e.1 = k.
Proof. intros [_ E]%List.find_some. by apply bool_decide_eq_true in E. Qed.
Lemma entry_of_use k k' l : entry_of k' (use k l) = entry_of k' l.
Proof.
  unfold use. destruct (entry_of k l) as [e|] eqn:E; [|done].
  apply entry_of_key in E as Hk. rewrite entry_of_cons, entry_of_without.
  repeat case_decide; congruence.
Qed.
Lemma without_length k l : length (without k l) <= length l.
Proof. apply List.filter_length_le. Qed.
Lemma without_shorter k l e : entry_of k l = Some e -> length (without k l) < length l.
Proof.
  induction l as [|x l IH]; [done|]. rewrite entry_of_cons. unfold without. cbn [List.filter].
  pose proof (without_length k l) as Hl. unfold without in Hl.
  case_decide; case_bool_decide; try done; simpl; [lia|]. intros E%IH.
  unfold without in E. lia.
Qed.
Lemma use_length k l : length (use k l) <= length l.
Proof.
  unfold use. destruct (entry_of k l) as [e|] eqn:E; [|done].
  apply without_shorter in E. simpl. lia.
Qed.
End entries.

#[export] Instance slru_list : SLRU := {|
  slru := lru_entries;
  slru_New K V size :=
    if (0 <? size)%Z then Ok (mkEntries size [])
    else Err (OtherError "must provide a positive size");
  slru_Get K V _ c k := snd <$> entry_of k (se_list c);
  slru_touch K V _ c k := mkEntries (se_cap c) (use k (se_list c));
  slru_Add K V _ c k v :=
    mkEntries (se_cap c) (take (Z.to_nat (se_cap c)) ((k, v) :: without k (se_list c)));
  slru_Remove K V _ c k := mkEntries (se_cap c) (without k (se_list c));
  slru_Len K V c := Z.of_nat (length (se_list c));
  slru_Cap K V c := se_cap c |}.

#[export] Instance slru_list_laws : @SLRULaws slru_list.
Proof.
  split; simpl.
  - intros K V size. destruct (Z.ltb_spec 0 size); [split; eauto|].
    split; [lia|by intros [c [= ]]].
  - intros K V ? size c k. destruct (0 <? size)%Z; [|done]. by intros [= <-].
  - intros K V size c. destruct (0 <? size)%Z; [|done]. by intros [= <-].
  - intros K V size c. destruct (0 <? size)%Z; [|done]. by intros [= <-].
  - intros K V ? c k k'. by rewrite entry_of_use.
  - intros K V ? c k v k' w E.
    destruct (entry_of k' (take _ _)) as [e|] eqn:Et; [|done]. apply entry_of_take in Et.
    rewrite entry_of_cons, entry_of_without in Et. simpl in *.
    destruct (decide (k = k')) as [->|]; [left|right]; split; try done.
    + by injection Et as <-; injection E as <-.
    + by rewrite Et.
  - intros K V ? c k k' w. rewrite entry_of_without. by case_decide.
  - intros K V ? c k. pose proof (use_length k (se_list c)). lia.
  - intros K V ? c k v Hc. rewrite length_take. lia.
  - intros K V ? c k. pose proof (without_length k (se_list c)). lia.
  - done.
  - done.
  - done.
Qed.

(** ** Libraries *)

(** Every request names the key of the example issuer and the serial 42, and
    every response is valid from 1000 until 9000. *)
#[export] Instance example_ocsp_lib : @SignLib example_pblib example_keylib example_authority := {|
  Issuer_Label _ := "ca"%string; Issuer_SubjectKID _ := "skid-ca"%string;
  Issuer_SignOCSP _ r := ret ("signed " ++ pretty (os_SerialNumber r))%string;
  ParseOcspRequest _ := Some (mkOcspRequest 3 "key3" "" (Some 42%Z));
  csr_EncodeToMemory s := s |}.
#[export] Instance example_aia_lib : AiaLib := {|
  sha256_Sum256 s := s; pem_Decode s := Some s;
  ParseOcspResponse _ := Some (1000, 9000)%Z;
  MalformedRequestErrorResponse := "malformed"; UnauthorizedErrorResponse := "unauthorized";
  TryLaterErrorResponse := "later"; InternalErrorErrorResponse := "internal";
  FormatHttpTime t := pretty t; http_Status _ := 500%Z;
  WriteJSON _ w := WriteHeader 500 w |}.

Definition example_get : HttpRequest := mkHttpRequest "" "" false.
Definition at_time (t : Z) : Clock := mkClock t t.

(** ** The cache *)

(** The second request, at 2000, is answered from the cache; a third one, at
    9000, is not. *)
Definition example_sign (der : string) : M nat string := fun n =>
  (Ok ("res " ++ pretty n)%string, S n).
Definition example_cache : ocspCache := mkEntries 2 [].
Definition example_requests : list (aia_event (B:=nat)) :=
  [EvPostOcsp (mkHttpRequest "" "req" false) (at_time 1500)].

Lemma ocsp_answers_signed_witness :
  let s := aia_run (ret tt) example_sign example_requests (mkAia example_cache (0, [])) in
  let w := (ocspResponse (logged_signer (ret tt)) (logged_SignOCSP example_sign)
              example_get (at_time 2000) "req" s).1 in
  w_Body w = "res 0"%string /\
  (is_ocsp_error w \/
   exists der res, (der, res) ∈ [("req"%string, "res 0"%string)] /\
     keyOf der = "req"%string /\ answers_with example_get res w /\
     exists this next, ParseOcspResponse res = Some (this, next) /\ (2000 < next)%Z).
Proof.
  intros s w. split; [vm_compute; reflexivity|].
  destruct (ocsp_answers_signed (ret tt) example_sign 2 example_cache 0 example_requests
    example_get (at_time 2000) "req" eq_refl) as (_ & _ & Hw).
  destruct Hw as [Hw|(der & res & Hin & Hk & Ha & Hn & _)]; [left; exact Hw|right].
  exists der, res. split; [exact Hin|]. split; [exact Hk|]. split; [exact Ha|].
  apply Hn. vm_compute. reflexivity.
Defined.

(** ** Over the backend *)

(** The responder after its registry loaded the issuer. *)
Definition example_loaded : BkState :=
  mkBk (IssuerBySKID (example_keys true) "skid-ca" example_publisher).2 example_az
    example_orgs [].

Lemma calm_IssuerBySKID ttl keys skid :
  (0 <= ttl)%Z -> calm ttl (IssuerBySKID keys skid).
Proof.
  intros Ht d. apply IssuerBySKID_keeps; [|done|apply current_profile_label].
  by apply current_profile_here.
Qed.

Lemma example_publisher_db : rg_db example_publisher = example_crl_db.
Proof. reflexivity. Qed.

Lemma example_crls_none : db_crls example_crl_db = [].
Proof. vm_compute. reflexivity. Qed.

Lemma example_publisher_bk :
  rg_bk 300000 (fun _ => True) example_crl_db example_publisher.
Proof.
  unfold rg_bk. rewrite example_publisher_db.
  split; [|split; [split; [exact example_crl_db_wf|]|apply relations.rtc_refl]].
  - exact (coherent_new example_crl_db ["pkcs11:k"%string] 0 2 ltac:(lia)).
  - intros l i Hl. rewrite example_crls_none in Hl. set_solver.
Qed.

Lemma example_loaded_bk :
  rg_bk 300000 (fun _ => True) example_crl_db (bk_rg example_loaded).
Proof.
  exact (proj1 (calm_bk 300000 _ _ _ _
    (calm_IssuerBySKID 300000 (example_keys true) "skid-ca" ltac:(lia))
    example_publisher_bk)).
Qed.

Definition example_aia : AiaState (B:=BkState) := mkAia example_cache example_loaded.
Local Notation example_answer :=
  (ocspResponse (ret tt) (fun der => Service_SignOCSP example_service (Some der))
     example_get (at_time 5000) "req" example_aia).1.

Lemma example_answer_status : w_Status example_answer = Some StatusOK.
Proof. vm_compute. reflexivity. Qed.

Lemma responder_states_database_witness :
  exists res, signed_for (rg_db (bk_rg example_loaded)) "req" res /\
    answers_with example_get res example_answer.
Proof.
  destruct example_loaded_bk as (Hc & Hw & _).
  destruct (responder_states_database 300000 example_service example_get (at_time 5000) "req"
    example_aia ltac:(lia) Hc Hw eq_refl) as [He|Ha]; [exfalso|exact Ha].
  destruct He as (_ & _ & He). rewrite example_answer_status in He.
  destruct He as [[E _]|[[E _]|[[E _]|[E _]]]]; discriminate E.
Defined.

Definition example_locator : Located (BackendServer (A := AzState)) :=
  mkLocated NewBackendLocator no_net.
Definition example_env : Env (A := AzState) := mkEnv (Some (Some (Ok (Some (backend_of example_service))))) None.

(** An import of an issuer into org 8. *)
Definition example_ca_import (org : string) : ca_call :=
  CaImportIssuer (Some (mkPublic (Ok (Ok (mkImportIssuer org "" "ca" AuthorityType_Root
    "pem-ca" "" "" "pkcs11:k" "" None))))).

Definition example_ca : CaState := mkCa (Some example_locator) example_start.

Lemma example_ca_imports :
  i_OrgID <$> db_issuers (rg_db (bk_rg (ca_bk
    (run_ca_call example_env example_ctx (example_ca_import (id_string 8)) example_ca)))) =
  [7%Z].
Proof. vm_compute. reflexivity. Qed.

Lemma ca_stays_in_token_org_witness :
  i_OrgID <$> db_issuers (rg_db (bk_rg (ca_bk
    (run_ca_call example_env example_ctx (example_ca_import (id_string 8)) example_ca)))) =
    [7%Z] /\
  others_same 8 (rg_db (bk_rg (ca_bk example_ca)))
    (rg_db (bk_rg (ca_bk (run_ca_call example_env example_ctx
       (example_ca_import (id_string 8)) example_ca)))).
Proof.
  split; [exact example_ca_imports|].
  apply (ca_stays_in_token_org example_service 0 ltac:(lia) eq_refl 1000
    ["pkcs11:k"%string] 2 example_az example_orgs example_env example_ctx
    (example_ca_import (id_string 8)) example_ca 8).
  - apply rtc_refl.
  - left. exists example_locator. split; reflexivity.
  - left. reflexivity.
  - discriminate.
Defined.
