(* ===== verification/OAuth.v ===== *)
(** OAuth sign-in, the start of a flow: [server/service/auth/authorize.go],
    [auth_service.go] and [cookies.go].

    The HTTP, OAuth, JWT and DPoP libraries are a class; an identity provider
    is what it answers.  A handler returns the response it writes. *)
From Stdlib Require Import ZArith Lia Ascii.
From stdpp Require Import base list gmap strings pretty.
From S2P Require Import Prelude GoStrings Xdb Roles Scopes Tenancy Grants Authorizer Methods Access Model Query Sql CaDb Pbconv RowPb TenantScope OrgQuery OrgDb OrgsService SignIn Lru OcspText UrlText.

(** ** Identity providers ([api/pb]) *)

Inductive IDP_Enum := IDP_Undefined | IDP_Google | IDP_Github | IDP_Gitlab | IDP_Local.

#[global] Instance IDP_eq_dec : EqDecision IDP_Enum.
Proof. solve_decision. Defined.

Definition IDP_number (p : IDP_Enum) : Z :=
  match p with
  | IDP_Undefined => 0 | IDP_Google => 1 | IDP_Github => 2 | IDP_Gitlab => 3
  | IDP_Local => 1000
  end.
Definition IDP_String (p : IDP_Enum) : string :=
  match p with
  | IDP_Undefined => "Undefined" | IDP_Google => "Google" | IDP_Github => "Github"
  | IDP_Gitlab => "Gitlab" | IDP_Local => "Local"
  end.
Definition IDP_Enum_Value (s : string) : option IDP_Enum :=
  List.find (fun p => bool_decide (IDP_String p = s))
    [IDP_Undefined; IDP_Google; IDP_Github; IDP_Gitlab; IDP_Local].

Definition IDPFromString `{Unicode} (s : string) : IDP_Enum :=
  if bool_decide (s = EmptyString) then IDP_Undefined
  else match IDP_Enum_Value s with
  | Some p => p
  | None =>
      let named names := bool_decide (ToLower s ∈ (names : list string)) in
      if named ["google"; "1"]%string then IDP_Google
      else if named ["github"; "2"]%string then IDP_Github
      else if named ["gitlab"; "3"]%string then IDP_Gitlab
      else if named ["local"; "1000"]%string then IDP_Local
      else IDP_Undefined
  end.
Definition IDPFromSlice `{Unicode} (s : list string) : list IDP_Enum :=
  IDPFromString <$> s.

Definition OAuthResponseTypeCode : string := "code".
Definition OAuthResponseTypeToken : string := "token".
Definition OAuthResponseTypeCookie : string := "cookie".

(** ** Errors

    The errors of [porto/xhttp/httperror]; the library gives each its OAuth
    code, its HTTP status and its message. *)

Inductive http_error :=
| InvalidRequest (msg : string) (cause : option error)
| Forbidden (msg : string)
| Unexpected (msg : string) (cause : option error)
| FromOAuth (oauth_code msg : string)
| FromGrpc (e : error).

(** A handler step that answers an HTTP error. *)
Definition H (S A : Type) : Type := M S (http_error + A).
Definition hret {S A} (a : A) : H S A := ret (inr a).
Definition hfail {S A} (e : http_error) : H S A := ret (inl e).
Definition hguard {S} (b : bool) (e : http_error) : H S unit :=
  if b then hret tt else hfail e.
Definition hlift {S A} (r : http_error + A) : H S A := ret r.
Definition hbind {S A B} (m : H S A) (k : A -> H S B) : H S B :=
  let! r := m in match r with inl e => hfail e | inr a => k a end.
Notation "'let^' x ':=' m 'in' k" := (hbind m (fun x => k))
  (at level 10, x pattern, m at level 100, k at level 200,
   format "'[v' 'let^'  x  ':='  m  'in' '/' k ']'") : go_scope.
Notation "m ';^' k" := (hbind m (fun _ => k))
  (at level 199, right associativity) : go_scope.

(** ** Data *)

Record ClientConfig := mkClient {
  cc_ProviderID : string; cc_ClientID : string; cc_ClientSecret : string;
  cc_AuthURL : string; cc_TokenURL : string; cc_UserinfoURL : string;
  cc_Scopes : list string; cc_IDPParam : option (string * string) }.

(** The registry of the OAuth clients. *)
Record ProviderRegistry := mkRegistry {
  ClientForProvider : string -> option ClientConfig;
  ClientForEmail : string -> option ClientConfig;
  ClientNames : list string }.

(** [oauth2.Config] *)
Record oauth2_Config := mkOauth2 {
  oc_ClientID : string; oc_ClientSecret : string; oc_RedirectURL : string;
  oc_Scopes : list string; oc_AuthURL : string; oc_TokenURL : string }.

Record CookiesConfig := mkCookies {
  ck_Auth : string; ck_CSRF : string; ck_Domain : string }.

(** The configuration the service reads; [ac_Audiences] are those of JWT and
    of DPoP, when there is an identity map. *)
Record AuthConfig := mkAuthConfig {
  ac_Environment : string; ac_ClusterName : string; ac_AuthURL : string;
  ac_AllowedRedirectDomains : list string; ac_AllowedDomains : list string;
  ac_Audiences : option (string * string); ac_Cookies : CookiesConfig;
  ac_Orgs : OrgsConfig; ac_Providers : ProviderRegistry }.

Record Request := mkOAuthRequest {
  rq_ClientID : string; rq_DeviceID : string; rq_ResponseMode : string;
  rq_ResponseType : string; rq_Scope : string; rq_RedirectURI : string;
  rq_Provider : IDP_Enum; rq_Nonce : string }.

(** [State]; times are Unix seconds. *)
Record State := mkState {
  st_RedirectURL : string; st_Provider : IDP_Enum; st_Email : string;
  st_IssuedAt : Z; st_ClientID : string; st_DeviceID : string; st_Scope : string;
  st_Nonce : string; st_ResponseType : string; st_ResponseMode : string;
  st_DPoPJwk : string; st_Audience : list string; st_CodeChallenge : string;
  st_CodeChallengeMethod : string; st_RememberMe : bool }.

Record OTCState := mkOTC {
  ot_Token : string; ot_ExpiresIn : Z; ot_CodeChallenge : string;
  ot_CodeChallengeMethod : string }.

(** [http.Cookie], of path [/] and [SameSite=None]; a negative [MaxAge]
    deletes the cookie and zero keeps it for the browser session. *)
Record Cookie := mkCookie {
  co_Name : string; co_Value : string; co_HttpOnly : bool; co_Secure : bool;
  co_MaxAge : Z; co_Domain : string }.

Inductive reply :=
| ReplyError (e : http_error)
| ReplyRedirect (location : string)
| ReplyForm (action : string) (vals : Values).
Record response := mkResponse { rp_cookies : list Cookie; rp_reply : reply }.

(** A token of an identity provider; a zero expiry is none. *)
Record idp_Token := mkIdpToken { tk_AccessToken : string; tk_Expiry : Z }.
Record GithubEmail := mkGithubEmail {
  ge_Email : string; ge_Primary : bool; ge_Verified : bool }.

(** ** The libraries *)

(** [net/url], [x/urlutil], [x/values], [oauth2], [dpop], [xpki/jwt], data
    protection with the draw of its nonce, JSON and the title casing of
    [x/text]. *)
Class OAuthLib := {
  URL : Type;
  url_Parse : string -> option URL;
  url_String : URL -> string;
  url_Hostname : URL -> string;
  url_RawQuery : URL -> string;
  url_set_RawQuery : string -> URL -> URL;
  url_set_base : URL -> URL -> URL;
  GetValue : Values -> string -> string;
  StringsCoalesce : list string -> string;
  NumbersCoalesce : list Z -> Z;
  AuthCodeURL : oauth2_Config -> string -> list (string * string) -> string;
  Token_Valid : Z -> idp_Token -> bool;
  SetCnfClaim : string -> MapClaims -> MapClaims;
  SetClaimsExpiration : Z -> Z -> MapClaims -> MapClaims;
  claim_String : MapClaims -> string -> string;
  claim_Bool : MapClaims -> string -> bool;
  JwtIssuer : string;
  TokenExpiry : Z;
  SignClaims : MapClaims -> result string;
  ProtectState : nat -> State -> result string;
  UnprotectState : string -> result State;
  ProtectOTC : nat -> OTCState -> result string;
  UnprotectOTC : string -> result OTCState;
  SHA256Base64 : string -> string;
  json_Claims : string -> option MapClaims;
  json_Emails : string -> option (list GithubEmail);
  Title : string -> string;
  he_Code : http_error -> string;
  he_HTTPStatus : http_error -> Z;
  he_Message : http_error -> string }.

(** The cache of the one-time codes: [porto/pkg/cache]; a call may fail. *)
Class CodeCache := {
  codes : Type;
  codes_Get : Z -> codes -> string -> option string;
  codes_Set : Z -> codes -> string -> string -> Z -> result unit * codes;
  codes_Delete : codes -> string -> result unit * codes }.

(** A value read back was set under the key and not deleted since, and is not
    past its TTL; a call that fails may have done its work or not. *)
Class CodeCacheLaws `{CodeCache} := {
  codes_get_set_same now t c k v ttl w :
    codes_Get t (codes_Set now c k v ttl).2 k = Some w ->
    (w = v /\ (t <= now + ttl)%Z) \/ codes_Get t c k = Some w;
  codes_get_expiry now t c k w : (now <= t)%Z ->
    codes_Get t c k = Some w -> codes_Get now c k = Some w;
  codes_get_set_other now t c k k' v ttl w : k <> k' ->
    codes_Get t (codes_Set now c k v ttl).2 k' = Some w ->
    codes_Get t c k' = Some w;
  codes_get_delete_same now c k :
    (codes_Delete c k).1 = Ok tt -> codes_Get now (codes_Delete c k).2 k = None;
  codes_get_delete now c k k' w :
    codes_Get now (codes_Delete c k).2 k' = Some w -> codes_Get now c k' = Some w }.

(** Unix seconds of a time in milliseconds since the zero time, and back. *)
Definition Unix (t : Z) : Z := (t / 1000 - 62135596800)%Z.
Definition time_Unix (s : Z) : Z := ((s + 62135596800) * 1000)%Z.

Section oauth.
Context `{Xdb, XdbLimits, Unicode, Collation, IdGen, Random, Cache, Porto, ProfileCodec}.
Context `{LRU, OAuthLib, CodeCache}.

(** ** State

    The database and the authorizer, the one-time codes, the providers of the
    emails that may sign in ([None]: may not), and the random text drawn. *)
Record AuthState := mkAuth {
  as_os : OrgState; as_codes : codes; as_emails : lru string (option ClientConfig);
  as_draws : nat }.

Definition on_os {X} (m : M OrgState X) : M AuthState X := fun s =>
  let '(r, o) := m (as_os s) in (r, mkAuth o (as_codes s) (as_emails s) (as_draws s)).
Definition as_now (s : AuthState) : Z := od_now (os_db (as_os s)).
Definition now : M AuthState Z := fun s => (Ok (as_now s), s).
Definition auth_draw : M AuthState nat := fun s =>
  (Ok (as_draws s), mkAuth (as_os s) (as_codes s) (as_emails s) (S (as_draws s))).
Definition auth_RandomString (n : nat) : M AuthState string :=
  let! k := auth_draw in ret (random_string k n).
Definition cached_provider (email : string) : M AuthState (option (option ClientConfig)) :=
  fun s =>
  (Ok (lru_Get (as_now s) (as_emails s) email),
   mkAuth (as_os s) (as_codes s) (lru_touch (as_now s) (as_emails s) email) (as_draws s)).
Definition cache_provider (email : string) (cl : option ClientConfig) : M AuthState unit :=
  fun s =>
  (Ok tt, mkAuth (as_os s) (as_codes s) (lru_Add (as_now s) (as_emails s) email cl)
            (as_draws s)).
Definition codes_call (f : codes -> result unit * codes) : M AuthState unit := fun s =>
  let '(r, c) := f (as_codes s) in
  (r, mkAuth (as_os s) c (as_emails s) (as_draws s)).

Variable cfg : AuthConfig.

(** ** Providers *)

Definition EnvironmentLocal : string := "local".
Definition ClusterLocal : string := "local".
Definition IsLocal : bool :=
  bool_decide (ac_Environment cfg = EnvironmentLocal) &&
  bool_decide (ac_ClusterName cfg = ClusterLocal).

Definition localEmailPrefix : string := "local+".
Definition localAuthCode : string := "local".
Definition allowedClientID : string := "trustyca".
Definition errRestrictedUsers : http_error :=
  Forbidden "login is restricted to invited users only. Please contact support@tbilicode.com".

Definition AuthProvider (provider : IDP_Enum) : http_error + ClientConfig :=
  match ClientForProvider (ac_Providers cfg) (ToLower (IDP_String provider)) with
  | Some p => inr p
  | None => inl (InvalidRequest ("unsupported provider: " ++ IDP_String provider) None)
  end.

Definition email_domain (email : string) : string := List.last (Split "@" email) EmptyString.

Definition isEmailAllowedLogin (email : string) : H AuthState unit :=
  if bool_decide (email_domain email ∈ ac_AllowedDomains cfg) then hret tt
  else catch (on_os (in_odb (Provider_GetUserByEmail email))) (fun user =>
    match user with
    | Ok _ => hret tt
    | Err _ => catch (on_os (in_odb (Provider_GetUserInvites email))) (fun invites =>
        match invites with
        | Ok (_ :: _) => hret tt
        | _ => hfail errRestrictedUsers
        end)
    end).

(** Whatever it answers is cached: [None] for an email that may not sign in
    or has no provider. *)
Definition AuthProviderForEmail (email : string) : H AuthState ClientConfig :=
  if HasPrefix email localEmailPrefix && IsLocal then hlift (AuthProvider IDP_Local)
  else
  let! found := cached_provider email in
  match found with
  | Some None => hfail errRestrictedUsers
  | Some (Some cl) => hret cl
  | None =>
      let! allowed := isEmailAllowedLogin email in
      match allowed with
      | inl e => cache_provider email None ;;; hfail e
      | inr _ =>
          let cl := ClientForEmail (ac_Providers cfg) email in
          cache_provider email cl ;;;
          match cl with
          | Some cl => hret cl
          | None => hfail (Forbidden ("no provider for email: " ++ email))
          end
      end
  end.

Record AuthProvidersResponse := mkProviders {
  pr_AuthURL : string; pr_ProviderNames : list string; pr_Providers : list IDP_Enum }.

Definition providersFor (email : string) : H AuthState (list string) :=
  let email := ToLower (TrimSpace email) in
  if bool_decide (email = EmptyString) then hret (ClientNames (ac_Providers cfg))
  else let^ cl := AuthProviderForEmail email in hret [cc_ProviderID cl].

Definition GetProviders (reqEmail : string) : H AuthState AuthProvidersResponse :=
  let^ names := providersFor reqEmail in
  hret (mkProviders (ac_AuthURL cfg) names (IDPFromSlice names)).

(** [authorizeURL] is the public URL of the authorize endpoint; the email of
    a GET is empty. *)
Definition AuthProvidersHandler (authorizeURL email : string)
  : H AuthState AuthProvidersResponse :=
  let^ res := GetProviders email in
  hret (mkProviders (if bool_decide (pr_AuthURL res = EmptyString) then authorizeURL
                     else pr_AuthURL res)
          (pr_ProviderNames res) (pr_Providers res)).

Definition isAllowedRedirect (redirect : string) : http_error + unit :=
  if bool_decide (ac_AllowedRedirectDomains cfg = []) then inr tt
  else match url_Parse redirect with
  | None => inl (Forbidden "invalid redirect_url")
  | Some u =>
      if bool_decide (url_Hostname u ∈ ac_AllowedRedirectDomains cfg) then inr tt
      else inl (Forbidden "redirect_url not_allowed")
  end.

Definition getAudience (dpop : bool) : string :=
  match ac_Audiences cfg with
  | None => EmptyString
  | Some (jwt, dpopAudience) => if dpop then dpopAudience else jwt
  end.

(** ** Cookies *)

Definition cookie_of (value : string) (httpOnly : bool) (maxAge : Z) (name : string)
  : Cookie :=
  mkCookie name value httpOnly true maxAge (ck_Domain (ac_Cookies cfg)).

(** The auth cookie, and a CSRF cookie with a new random text; each only when
    it has a name. *)
Definition cookies_for (token : string) (maxAge : Z) : M AuthState (list Cookie) :=
  let cookies := ac_Cookies cfg in
  let auth := if bool_decide (ck_Auth cookies = EmptyString) then []
              else [cookie_of token true maxAge (ck_Auth cookies)] in
  if bool_decide (ck_CSRF cookies = EmptyString) then ret auth
  else let! csrf := auth_RandomString 32 in
       ret (auth ++ [cookie_of csrf false maxAge (ck_CSRF cookies)]).

(** Durations are milliseconds, a cookie lives seconds. *)
Definition setAuthCookie (token : string) (validFor : Z) : M AuthState (list Cookie) :=
  cookies_for token (if (0 <? validFor)%Z then validFor / 1000 else 0)%Z.
Definition resetAuthCookie : M AuthState (list Cookie) := cookies_for EmptyString (-1).

(** ** The start of a flow *)

(** A request of the authorize endpoint: its query, the public URL of the
    callback and the thumbprint of its DPoP proof. *)
Record AuthorizeRequest := mkAuthorize {
  ar_query : Values; ar_callbackURL : string; ar_dpop : result string }.

Definition Request_Validate (c : Request) : http_error + unit :=
  if negb (bool_decide (rq_ResponseType c = OAuthResponseTypeToken)) &&
     negb (bool_decide (rq_ResponseType c = OAuthResponseTypeCode)) &&
     negb (bool_decide (rq_ResponseType c = OAuthResponseTypeCookie))
  then inl (InvalidRequest ("unsupported response_type: '" ++ rq_ResponseType c ++ "'") None)
  else if bool_decide (rq_RedirectURI c = EmptyString)
  then inl (InvalidRequest "missing parameter: redirect_uri" None)
  else if bool_decide (rq_Scope c = EmptyString)
  then inl (InvalidRequest "missing parameter: scope" None)
  else inr tt.

Definition request_of (qs : Values) (clientID : string) : Request :=
  mkOAuthRequest clientID (GetValue qs "device_id")
    (StringsCoalesce [GetValue qs "response_mode"; "query"%string])
    (StringsCoalesce [GetValue qs "response_type"; OAuthResponseTypeCode])
    (StringsCoalesce [GetValue qs "scope"; "openid email profile"%string])
    (GetValue qs "redirect_uri")
    (IDPFromString (StringsCoalesce [GetValue qs "provider"; GetValue qs "idp"]))
    (GetValue qs "nonce").

Definition set_Provider (p : IDP_Enum) (c : Request) : Request :=
  mkOAuthRequest (rq_ClientID c) (rq_DeviceID c) (rq_ResponseMode c) (rq_ResponseType c)
    (rq_Scope c) (rq_RedirectURI c) p (rq_Nonce c).

(** The provider of the email, for a request that names none. *)
Definition discoverProvider (email : string) (req : Request) : M AuthState Request :=
  if bool_decide (rq_Provider req = IDP_Undefined) &&
     negb (bool_decide (email = EmptyString)) then
    let! prov := AuthProviderForEmail email in
    match prov with
    | inr prov => ret (set_Provider (IDPFromString (cc_ProviderID prov)) req)
    | inl _ => ret req
    end
  else ret req.

(** The provider is known, and the local one is for local instances. *)
Definition supportedIDP (p : IDP_Enum) : bool :=
  match p with IDP_Undefined => false | IDP_Local => IsLocal | _ => true end.

(** The challenge and its method. *)
Definition codeChallenge (qs : Values) (responseType : string)
  : http_error + (string * string) :=
  if bool_decide (responseType = OAuthResponseTypeCode) then
    let challenge := GetValue qs "code_challenge" in
    let method := StringsCoalesce [GetValue qs "code_challenge_method"; "S256"%string] in
    if negb (bool_decide (challenge = EmptyString)) &&
       negb (bool_decide (method = "S256"%string))
    then inl (InvalidRequest ("unsupported code_challenge_method: " ++ method) None)
    else inr (challenge, method)
  else inr (EmptyString, EmptyString).

Definition dpopThumbprint (dpopScope : bool) (proof : result string)
  : http_error + string :=
  if negb dpopScope then inr EmptyString
  else match proof with
  | Err e => inl (InvalidRequest "invalid DPoP proof" (Some e))
  | Ok t => if bool_decide (t = EmptyString)
            then inl (InvalidRequest "missing dpop for requested scope" None) else inr t
  end.

(** The parameters of the request to the provider. *)
Definition authOptions (req : Request) (prov : ClientConfig) (loginHint email : string)
  : list (string * string) :=
  [("response_mode", "form_post"); ("response_type", "code"); ("nonce", rq_Nonce req)]%string
  ++ (if bool_decide (loginHint = EmptyString) then [] else [("login_hint"%string, loginHint)])
  ++ match cc_IDPParam prov with
     | None => []
     | Some (name, val) =>
         [(name, if bool_decide (val = "email"%string) then email
                 else if bool_decide (val = "domain"%string) then email_domain email
                 else val)]
     end.

Definition authConfig (req : Request) (prov : ClientConfig) (callbackURL : string)
  : oauth2_Config :=
  mkOauth2 (cc_ClientID prov) (cc_ClientSecret prov) callbackURL (cc_Scopes prov)
    (if bool_decide (rq_Provider req = IDP_Local)
     then callbackURL ++ "?code=" ++ localAuthCode else cc_AuthURL prov) EmptyString.

(** What a valid request starts: the request with its provider, the client of
    the provider, the hint of the login and the state of the flow. *)
Record flow := mkFlow {
  fw_request : Request; fw_client : ClientConfig; fw_hint : string; fw_state : State }.

Definition startFlow (r : AuthorizeRequest) : H AuthState flow :=
  let qs := ar_query r in
  let clientID := StringsCoalesce [GetValue qs "client_id"; allowedClientID] in
  hguard (bool_decide (clientID = allowedClientID))
    (InvalidRequest ("unsupported client ID: " ++ clientID) None) ;^
  let email := ToLower (GetValue qs "idpuser.email") in
  let loginHint := StringsCoalesce [GetValue qs "login_hint"; email] in
  let! req := discoverProvider email (request_of qs clientID) in
  hguard (supportedIDP (rq_Provider req)) (InvalidRequest "unsupported IDP" None) ;^
  let email := if bool_decide (rq_Provider req = IDP_Local)
               then TrimPrefix email localEmailPrefix else email in
  hguard (negb (bool_decide (rq_ResponseType req = OAuthResponseTypeCookie) &&
                bool_decide (ck_Auth (ac_Cookies cfg) = EmptyString)))
    (InvalidRequest "cookie response_type is not supported" None) ;^
  let^ (challenge, method) := hlift (codeChallenge qs (rq_ResponseType req)) in
  hlift (Request_Validate req) ;^
  hlift (isAllowedRedirect (rq_RedirectURI req)) ;^
  let^ prov := hlift (AuthProvider (rq_Provider req)) in
  let dpopScope := bool_decide ("dpop"%string ∈ Split " " (rq_Scope req)) in
  let^ thumbprint := hlift (dpopThumbprint dpopScope (ar_dpop r)) in
  let aud := StringsCoalesce [GetValue qs "audience"; getAudience dpopScope] in
  let! t := now in
  hret (mkFlow req prov loginHint
    (mkState (rq_RedirectURI req) (IDPFromString (cc_ProviderID prov)) email (Unix t)
       (rq_ClientID req) (rq_DeviceID req) (rq_Scope req) (rq_Nonce req)
       (rq_ResponseType req) (rq_ResponseMode req) thumbprint
       (if bool_decide (aud = EmptyString) then [] else [aud]) challenge method
       (bool_decide (GetValue qs "remember_me" = "true"%string)))).

(** The URL of the provider to go to, with the protected state. *)
Definition authorizeURL (r : AuthorizeRequest) : H AuthState string :=
  let^ f := startFlow r in
  let! nonce := auth_draw in
  match ProtectState nonce (fw_state f) with
  | Err e => hfail (Unexpected "failed to encrypt state" (Some e))
  | Ok state =>
      hret (AuthCodeURL (authConfig (fw_request f) (fw_client f) (ar_callbackURL r)) state
              (authOptions (fw_request f) (fw_client f) (fw_hint f)
                 (st_Email (fw_state f))))
  end.

Definition AuthorizeHandler (r : AuthorizeRequest) : M AuthState response :=
  let! cookies := resetAuthCookie in
  let! url := authorizeURL r in
  ret (mkResponse cookies match url with
                          | inl e => ReplyError e
                          | inr url => ReplyRedirect url
                          end).
End oauth.
