(* ===== verification/OAuthCallback.v ===== *)
(** OAuth sign-in, the end of a flow: [server/service/auth/callback.go].

    The callback of the provider is checked against the state of the flow,
    the user of the provider signs in, and the client gets the answer on its
    redirect URI: a token, a cookie session or a one-time code, which it
    exchanges for the token with the verifier of its challenge. *)
From Stdlib Require Import ZArith Lia Ascii.
From stdpp Require Import base list gmap strings pretty.
From S2P Require Import Prelude GoStrings Xdb Roles Scopes Tenancy Grants Authorizer Methods Access Model Query Sql CaDb Pbconv RowPb TenantScope OrgQuery OrgDb OrgsService SignIn Lru OcspText UrlText OAuth.

(** ** The answer to the client *)

Definition OAuthParamError : string := "error".
Definition OAuthParamErrorDescription : string := "error_description".
Definition OAuthErrorInvalidRequest : string := "invalid_request".
Definition OAuthErrorUnauthorizedClient : string := "unauthorized_client".
Definition OAuthErrorAccessDenied : string := "access_denied".
Definition OAuthErrorUnsupportedResponseType : string := "unsupported_response_type".
Definition OAuthErrorInvalidScope : string := "invalid_scope".
Definition OAuthErrorServerError : string := "server_error".
Definition OAuthErrorTemporarilyUnavailable : string := "temporarily_unavailable".

Definition oauthErrorCodes : list string :=
  [OAuthErrorInvalidRequest; OAuthErrorUnauthorizedClient; OAuthErrorAccessDenied;
   OAuthErrorUnsupportedResponseType; OAuthErrorInvalidScope; OAuthErrorServerError;
   OAuthErrorTemporarilyUnavailable].

(** [http.StatusText] of the statuses of server-side failures. *)
Definition StatusText (status : Z) : string :=
  match status with
  | 500 => "Internal Server Error" | 501 => "Not Implemented" | 502 => "Bad Gateway"
  | 503 => "Service Unavailable" | 504 => "Gateway Timeout"
  | 505 => "HTTP Version Not Supported" | 506 => "Variant Also Negotiates"
  | 507 => "Insufficient Storage" | 508 => "Loop Detected" | 510 => "Not Extended"
  | 511 => "Network Authentication Required" | _ => ""
  end%Z.

(** [url.Values.Get] *)
Definition Values_Get (v : Values) (k : string) : string :=
  match v !! k with Some (x :: _) => x | _ => EmptyString end.

Section answers.
Context `{OAuthLib}.

Definition oauthErrorCode (e : http_error) : string :=
  if bool_decide (he_Code e ∈ oauthErrorCodes) then he_Code e
  else if (he_HTTPStatus e =? 503)%Z then OAuthErrorTemporarilyUnavailable
  else if (500 <=? he_HTTPStatus e)%Z then OAuthErrorServerError
  else if (he_HTTPStatus e =? 401)%Z || (he_HTTPStatus e =? 403)%Z
  then OAuthErrorAccessDenied
  else OAuthErrorInvalidRequest.

Definition writeOauthResponse (st : State) (vals : Values) : reply :=
  if bool_decide (st_ResponseMode st = EmptyString) ||
     bool_decide (st_ResponseMode st = "query"%string) then
    match url_Parse (st_RedirectURL st) with
    | None => ReplyError (InvalidRequest "invalid redirect_uri" None)
    | Some u =>
        let q := vals ∪ ParseQuery (url_RawQuery u) in
        ReplyRedirect (url_String (url_set_RawQuery (Values_Encode q) u))
    end
  else if bool_decide (st_ResponseMode st = "fragment"%string) then
    ReplyRedirect ((Cut "#" (st_RedirectURL st)).1 ++ "#" ++ Values_Encode vals)
  else ReplyForm (st_RedirectURL st) vals.

Definition oauthErrorValues (e : http_error) : Values :=
  let descr := if (500 <=? he_HTTPStatus e)%Z then StatusText (he_HTTPStatus e)
               else he_Message e in
  <[OAuthParamError := [oauthErrorCode e]]> {[OAuthParamErrorDescription := [descr]]}.

Definition writeOauthError (st : State) (e : http_error) : reply :=
  writeOauthResponse st (oauthErrorValues e).
End answers.

(** ** The user of the provider *)

(** A call of the provider: the request cannot be made, the call fails, or it
    answers with a status and a body, unless reading the body fails. *)
Inductive http_answer :=
| NoRequest (e : error)
| NoAnswer (e : error)
| Answer (status : Z) (body : result string).

(** The provider: the exchange of a code and a GET with an access token. *)
Record Idp := mkIdp {
  idp_Exchange : oauth2_Config -> string -> result idp_Token;
  idp_Get : string -> string -> http_answer }.

Record idp_UserInfo := mkIdpUser {
  iu_ID : string; iu_Email : string; iu_EmailVerified : bool; iu_Name : string }.

Definition localUser : idp_UserInfo :=
  mkIdpUser "testuser" "test@trustyca.io" false "Trusty Test".
Definition localUserInfo (email : string) : idp_UserInfo :=
  mkIdpUser email email true (Cut "@" email).1.

Definition githubNoReplyDomain : string := "@users.noreply.github.com".

(** [strings.Join(names, " ")] *)
Definition join_space (names : list string) : string := Join " " names.

Section user_info.
Context `{Unicode, OAuthLib}.
(** [BaseURL] replaces the scheme and the host of the URLs of the providers
    in tests. *)
Variable BaseURL : option URL.

Definition retarget (target : string) : option string :=
  match BaseURL with
  | None => Some target
  | Some base => (fun u => url_String (url_set_base base u)) <$> url_Parse target
  end.

Definition usable_email (e : GithubEmail) : bool :=
  ge_Verified e && negb (HasSuffix (ToLower (ge_Email e)) githubNoReplyDomain).

(** The walk over the addresses, with the fallback found so far. *)
Fixpoint pickEmail (fallback : string) (emails : list GithubEmail) : string :=
  match emails with
  | [] => fallback
  | e :: rest =>
      let addr := ToLower (ge_Email e) in
      if negb (usable_email e) then pickEmail fallback rest
      else if ge_Primary e then addr
      else pickEmail (if bool_decide (fallback = EmptyString) then addr else fallback) rest
  end.

Definition getGithubEmail (idp : Idp) (token : idp_Token) : result string :=
  match retarget "https://api.github.com/user/emails" with
  | None => Err (OtherError "unable to parse user emails URL")
  | Some url =>
  match idp_Get idp url (tk_AccessToken token) with
  | NoRequest e => Err (WithMessage e "unable to create user emails request")
  | NoAnswer e => Err (WithMessage e "unable to get user emails")
  | Answer _ (Err e) => Err (WithMessage e "unable to read user emails")
  | Answer status (Ok body) =>
      if negb (status =? 200)%Z then Err (OtherError "unable to get user emails")
      else match json_Emails body with
      | None => Err (OtherError "unable to decode user emails")
      | Some emails => Ok (pickEmail EmptyString emails)
      end
  end
  end.

(** The name of a user who has none: of the local part of the email. *)
Definition nameOfEmail (email : string) : string :=
  match Split "@" email with
  | local :: _ :: _ => join_space (Title <$> Split "." local)
  | _ => email
  end.

(** The claims of the provider: with its user, or none for the local one. *)
Definition idpClaims (cl : ClientConfig) (idp : Idp) (token : idp_Token)
  : http_error + MapClaims :=
  match retarget (cc_UserinfoURL cl) with
  | None => inl (FromGrpc (Grpc Internal "invalid user info URL"))
  | Some url =>
  match idp_Get idp url (tk_AccessToken token) with
  | NoRequest e => inl (FromGrpc (GrpcCause Internal "invalid user info URL" e))
  | NoAnswer e => inl (FromGrpc (GrpcCause Unavailable "unable to get user info" e))
  | Answer _ (Err e) =>
      inl (FromGrpc (GrpcCause Unavailable "unable to decode user info" e))
  | Answer status (Ok body) =>
      if negb (status =? 200)%Z
      then inl (FromGrpc (GrpcCause Unavailable "unable to get user info"
                            (OtherError ("unable to get user info from " ++ url ++ ": " ++ body))))
      else match json_Claims body with
      | None => inl (FromGrpc (Grpc Unavailable "unable to decode user info"))
      | Some res => inr res
      end
  end
  end.

Definition userOf (res : MapClaims) : idp_UserInfo :=
  mkIdpUser (StringsCoalesce [claim_String res "login"; claim_String res "sub";
                              claim_String res "id"])
    (ToLower (claim_String res "email")) (claim_Bool res "email_verified")
    (StringsCoalesce [claim_String res "name"; claim_String res "given_name";
                      claim_String res "login"]).

(** GitHub tells the address of a private profile in a call of its own. *)
Definition withGithubEmail (idp : Idp) (token : idp_Token) (u : idp_UserInfo)
  : idp_UserInfo :=
  match getGithubEmail idp token with
  | Ok email =>
      if bool_decide (email = EmptyString) then u
      else mkIdpUser (iu_ID u) email true (iu_Name u)
  | Err _ => u
  end.

Definition GetUserInfo (idpType : IDP_Enum) (cl : ClientConfig) (idp : Idp)
    (token : idp_Token) : http_error + (idp_UserInfo * option MapClaims) :=
  if bool_decide (idpType = IDP_Local) then inr (localUser, None)
  else match idpClaims cl idp token with
  | inl e => inl e
  | inr res =>
      let u := userOf res in
      let github := bool_decide (idpType = IDP_Github) in
      let u := if github && bool_decide (iu_Email u = EmptyString)
               then withGithubEmail idp token u else u in
      if bool_decide (iu_Email u = EmptyString) then
        inl (FromGrpc (Grpc PermissionDenied
          (if github then "no verified email address: verify an email address in your GitHub account settings, then sign in again"
           else "email is required")))
      else
        let name := if bool_decide (iu_Name u = EmptyString) then nameOfEmail (iu_Email u)
                    else iu_Name u in
        if bool_decide (name = EmptyString)
        then inl (FromGrpc (Grpc PermissionDenied "name is required"))
        else inr (mkIdpUser (iu_ID u) (iu_Email u) (iu_EmailVerified u) name, Some res)
  end.
End user_info.

(** ** The sign-in *)

Section callback.
Context `{Xdb, XdbLimits, Unicode, Collation, IdGen, Random, Cache, Porto, ProfileCodec}.
Context `{LRU, OAuthLib, CodeCache}.
Variable cfg : AuthConfig.
Variable BaseURL : option URL.

(** Milliseconds. *)
Definition DefaultTokenTTL : Z := 172800000.
Definition dpopTokenTTL : Z := 604800000.
Definition DefaultOTCSeconds : Z := 30.
Definition claimProvider : string := "provider".

Definition tokenProvider (claims : MapClaims) : IDP_Enum :=
  IDPFromString (claim_String claims claimProvider).

Definition text_claim (name val : string) (claims : MapClaims) : MapClaims :=
  if bool_decide (val = EmptyString) then claims else <[name := ClaimText val]> claims.

Definition claimsFromUserInfo (ui : idp_UserInfo) (claims : MapClaims) : MapClaims :=
  let claims := text_claim "email" (iu_Email ui) (text_claim "name" (iu_Name ui)
                  (text_claim "sub" (iu_ID ui) claims)) in
  if iu_EmailVerified ui then <["email_verified"%string := ClaimFlag true]> claims else claims.

Definition tokenValidity (st : State) : Z :=
  if bool_decide (st_DPoPJwk st = EmptyString)
  then NumbersCoalesce [TokenExpiry; DefaultTokenTTL] else dpopTokenTTL.

(** The claims of the token, up to its subject and its org. *)
Definition loginClaims (st : State) (jti : string) (t : Z) (token : idp_Token)
    (idpClaims : option MapClaims) (ui : idp_UserInfo) : MapClaims :=
  let dpop := negb (bool_decide (st_DPoPJwk st = EmptyString)) in
  let claims : MapClaims :=
    <["jti" := ClaimText jti]> (<[claimProvider := ClaimText (IDP_String (st_Provider st))]>
      {["iss" := ClaimText JwtIssuer]})%string in
  let claims := match idpClaims with
                | Some c => text_claim "idp_login" (claim_String c "login") claims
                | None => claims
                end in
  let claims := if (tk_Expiry token =? 0)%Z then claims
                else <["idp_exp"%string := ClaimNum (Unix (tk_Expiry token))]> claims in
  let claims := SetClaimsExpiration t (tokenValidity st) (claimsFromUserInfo ui claims) in
  let claims := text_claim "aud" (getAudience cfg dpop) claims in
  let claims := text_claim "nonce" (st_Nonce st) claims in
  if dpop then SetCnfClaim (st_DPoPJwk st) claims else claims.

Definition providerOf (st : State) : H AuthState ClientConfig :=
  let unsupported :=
    InvalidRequest ("unsupported provider: " ++ IDP_String (st_Provider st)) None in
  match AuthProvider cfg (st_Provider st) with
  | inr prov => hret prov
  | inl _ =>
      if bool_decide (st_Email st = EmptyString) then hfail unsupported
      else let! prov := AuthProviderForEmail cfg (st_Email st) in
           match prov with
           | inr prov => hret prov
           | inl _ => hfail unsupported
           end
  end.

(** The token of the provider for the code; the local provider issues none. *)
Definition exchangeToken (idp : Idp) (st : State) (prov : ClientConfig)
    (callbackURL code : string) (t : Z) : http_error + idp_Token :=
  if bool_decide (st_Provider st = IDP_Local) then
    if IsLocal cfg then inr (mkIdpToken "" (t + DefaultTokenTTL)%Z)
    else inl (InvalidRequest ("unsupported provider: " ++ IDP_String (st_Provider st)) None)
  else
    match idp_Exchange idp (mkOauth2 (cc_ClientID prov) (cc_ClientSecret prov) callbackURL
                              (cc_Scopes prov) (cc_AuthURL prov) (cc_TokenURL prov)) code with
    | Err _ => inl (Forbidden "authorization failed: unable to exchange token")
    | Ok token => if Token_Valid t token then inr token
                  else inl (Forbidden "retrieved invalid token")
    end.

(** The user who signs in: of the provider, with the email the flow started
    with, if any. *)
Definition signedInUser (idp : Idp) (st : State) (prov : ClientConfig) (token : idp_Token)
  : http_error + (idp_UserInfo * option MapClaims) :=
  match GetUserInfo BaseURL (st_Provider st) prov idp token with
  | inl e => inl e
  | inr (ui, claims) =>
      let named := negb (bool_decide (st_Email st = EmptyString)) in
      let ui := if bool_decide (st_Provider st = IDP_Local) && named
                then localUserInfo (st_Email st) else ui in
      if named && negb (EqualFoldText (iu_Email ui) (st_Email st))
      then inl (Forbidden ("email mismatch: provider: " ++ IDP_String (st_Provider st)))
      else inr (ui, claims)
  end.

Definition otcKey (code : string) : string := "/auth/otc/" ++ code.

(** The answer of a sign-in: cookies and the parameters for the client. *)
Definition answerToken (st : State) (tokenStr idToken : string) (validFor : Z)
  : H AuthState (list Cookie * Values) :=
  let seconds := (validFor / 1000)%Z in
  if bool_decide (st_ResponseType st = OAuthResponseTypeCookie) then
    let vals : Values := (<["expires_in" := [pretty seconds]]> {["cookie_set" := ["true"]]})%string in
    let csrf := ck_CSRF (ac_Cookies cfg) in
    let! cookies := setAuthCookie cfg tokenStr (if st_RememberMe st then validFor else 0)%Z in
    hret (cookies, if bool_decide (csrf = EmptyString) then vals
                   else <["csrf"%string := [csrf]]> vals)
  else if bool_decide (st_ResponseType st = OAuthResponseTypeCode) then
    let! otc := auth_RandomString 32 in
    let! nonce := auth_draw in
    match ProtectOTC nonce (mkOTC tokenStr (seconds mod 2 ^ 32)%Z (st_CodeChallenge st)
                              (st_CodeChallengeMethod st)) with
    | Err e => hfail (Unexpected "failed to protect Access Token" (Some e))
    | Ok data =>
        let! t := now in
        catch (codes_call (fun c => codes_Set t c (otcKey otc) data (DefaultOTCSeconds * 1000)%Z))
          (fun r => match r with
           | Err e => hfail (Unexpected "failed to set otc" (Some e))
           | Ok _ => hret ([], <[OAuthResponseTypeCode := [otc]]>
                                 {["expires_in"%string := [pretty DefaultOTCSeconds]]})
           end)
    end
  else
    let vals : Values := <[OAuthResponseTypeToken := [tokenStr]]>
                           {["expires_in"%string := [pretty seconds]]} in
    hret ([], if bool_decide (idToken = EmptyString) then vals
              else <["id_token"%string := [idToken]]> vals).

Definition signedInEvent (ctx : Context) (provider : string) (u : User)
    (sel : option orgSelection) : Event :=
  let e := events_Email (us_Email u) (events_Reference (us_ID u)
             (events_New ctx auth_ServiceName EventType_UserSignedIn "User signed in")) in
  match sel with
  | Some sel => events_Description (us_Email u ++ " signed in with " ++ provider ++ " as " ++
                                    DisplayName (sl_Role sel)) (events_Org (sl_OrgID sel) e)
  | None => events_Description (us_Email u ++ " signed in with " ++ provider ++
                                " without an org") e
  end.

(** The token of the user who signs in, with the user and the org of the
    session. *)
Definition signInToken (ctx : Context) (idp : Idp) (callbackURL code : string)
    (st : State) : H AuthState (string * User * option orgSelection) :=
  let^ prov := providerOf st in
  let! t := now in
  let^ token := hlift (exchangeToken idp st prov callbackURL code t) in
  let^ (ui, claims) := hlift (signedInUser idp st prov token) in
  let! jti := on_os (in_odb oNextID) in
  let claims := loginClaims st (id_string jti) t token claims ui in
  catch (on_os (signIn (ac_Orgs cfg) ctx (mkUserInfo (iu_ID ui) (iu_Email ui) (iu_Name ui)
                  (IDP_number (st_Provider st)) (IDP_String (st_Provider st))))) (fun r =>
  match r with
  | Err e => hfail (Unexpected "failed to login" (Some e))
  | Ok (u, sel) =>
      match SignClaims (setOrgClaims sel (<["sub"%string := ClaimText (id_string (us_ID u))]>
                                            claims)) with
      | Err e => hfail (Unexpected "failed to protect Access Token" (Some e))
      | Ok tokenStr => hret (tokenStr, u, sel)
      end
  end).

Definition handleToken (ctx : Context) (idp : Idp) (callbackURL code idToken : string)
    (st : State) : H AuthState (list Cookie * Values) :=
  let^ (tokenStr, u, sel) := signInToken ctx idp callbackURL code st in
  let^ answer := answerToken st tokenStr idToken (tokenValidity st) in
  on_os (os_emit (signedInEvent ctx (IDP_String (st_Provider st)) u sel)) ;;;
  hret answer.

(** ** The callback *)

(** A request of the callback: the form of a POST ([None] when it does not
    parse), the query of a GET and the public URL of the callback. *)
Record CallbackRequest := mkCallback {
  cb_form : option (option Values); cb_query : Values; cb_callbackURL : string }.

(** The parameters by name, or the form does not parse. *)
Definition callbackParams (r : CallbackRequest) : option (string -> string) :=
  match cb_form r with
  | None => Some (GetValue (cb_query r))
  | Some None => None
  | Some (Some form) => Some (Values_Get form)
  end.

Definition callbackState (state : string) : http_error + State :=
  if bool_decide (state = EmptyString) then inl (InvalidRequest "missing state parameter" None)
  else match UnprotectState state with
  | Err e => inl (InvalidRequest "failed to decrypt state" (Some e))
  | Ok st => inr st
  end.

Definition knownResponseType (t : string) : bool :=
  bool_decide (t ∈ [OAuthResponseTypeToken; OAuthResponseTypeCode; OAuthResponseTypeCookie]).

(** Five minutes, in milliseconds. *)
Definition stateMaxAge : Z := 300000.

(** The provider answered a code, and the state is timely and complete. *)
Definition checkCallback (code errCode errDescr : string) (st : State) : H AuthState unit :=
  let! t := now in
  hguard (bool_decide (errCode = EmptyString))
    (FromOAuth errCode ("OAuth provider error: " ++
       (if bool_decide (errDescr = EmptyString) then errCode else errDescr))) ;^
  hguard (t - time_Unix (st_IssuedAt st) <=? stateMaxAge)%Z
    (InvalidRequest "invalid state" None) ;^
  hguard (knownResponseType (st_ResponseType st))
    (FromOAuth OAuthErrorUnsupportedResponseType
       ("unsupported response_type: '" ++ st_ResponseType st ++ "'")) ;^
  hguard (negb (bool_decide (code = EmptyString)))
    (InvalidRequest "missing code parameter" None).

Definition CallbackHandler (ctx : Context) (idp : Idp) (r : CallbackRequest)
  : M AuthState response :=
  match callbackParams r with
  | None => ret (mkResponse [] (ReplyError (InvalidRequest "unable to parse response body" None)))
  | Some param =>
      let errCode := param OAuthParamError in
      let errDescr := param OAuthParamErrorDescription in
      match callbackState (param "state"%string) with
      | inl stErr =>
          ret (mkResponse [] (ReplyError
            (if bool_decide (errCode = EmptyString) then stErr
             else FromOAuth errCode ("OAuth provider error: " ++
                    (if bool_decide (errDescr = EmptyString) then errCode else errDescr)))))
      | inr st =>
          let code := param "code"%string in
          let! answer := (checkCallback code errCode errDescr st ;^
                          handleToken ctx idp (cb_callbackURL r) code EmptyString st) in
          ret match answer with
              | inl e => mkResponse [] (writeOauthError st e)
              | inr (cookies, vals) => mkResponse cookies (writeOauthResponse st vals)
              end
      end
  end.

(** ** The exchange of a one-time code *)

Record Token := mkToken { to_AccessToken : string; to_ExpiresIn : Z }.

Definition ExchangeCode (code verifier : string) : M AuthState Token :=
  guard (negb (bool_decide (code = EmptyString)) && negb (bool_decide (verifier = EmptyString)))
    (Grpc PermissionDenied "invalid code or verifier") ;;;
  let! t := now in
  let! data := (fun s => (Ok (codes_Get t (as_codes s) (otcKey code)), s)) in
  match data with
  | None => fail (Grpc PermissionDenied "invalid otc")
  | Some data =>
      guard (negb (bool_decide (data = EmptyString))) (Grpc PermissionDenied "invalid otc") ;;;
      catch (codes_call (fun c => codes_Delete c (otcKey code))) (fun r =>
      match r with
      | Err e => fail (GrpcCause Internal "unable to use otc" e)
      | Ok _ =>
          match UnprotectOTC data with
          | Err _ => fail (Grpc PermissionDenied "invalid otc")
          | Ok otc =>
              let challenge := if bool_decide (ot_CodeChallengeMethod otc = "S256"%string)
                               then SHA256Base64 verifier else verifier in
              guard (bool_decide (ot_CodeChallenge otc = challenge))
                (Grpc PermissionDenied "invalid code verifier") ;;;
              ret (mkToken (ot_Token otc) (ot_ExpiresIn otc))
          end
      end)
  end.
End callback.
