(* ===== verification/OAuthSession.v ===== *)
(** Sessions: the token of a caller, the switch of its org and its sign-out
    ([server/service/auth/userinfo.go], [tenant.go] and [cookies.go]).

    A cookie session carries its token in a cookie no script reads, so no
    answer shows it the token. *)
From Stdlib Require Import ZArith Lia Ascii.
From stdpp Require Import base list gmap strings pretty.
From S2P Require Import Prelude GoStrings Xdb Roles Scopes Tenancy Grants Authorizer Methods Access Model Query Sql CaDb Pbconv RowPb TenantScope OrgQuery OrgDb OrgsService SignIn Lru OcspText UrlText OAuth OAuthCallback.

Definition EventType_UserSignedOut : Z := 21.
Definition EventType_TokenRevoked : Z := 25.

(** The claims [jwt.MapClaims.To] reads; [jc_Cnf] is the thumbprint of the key
    the token is bound to. *)
Record JwtClaims := mkJwtClaims {
  jc_Subject : string; jc_Name : string; jc_Email : string; jc_EmailVerified : bool;
  jc_Cnf : option string }.

(** [porto/xhttp/identity] and [xpki/jwt]: the name of the cookie method, the
    time of a claim as RFC 3339 text, and the revocation of tokens, if any. *)
Class SessionLib := {
  MethodJWTCookie : string;
  claim_TimeText : MapClaims -> string -> string;
  claims_To : MapClaims -> result JwtClaims;
  claims_CNF : MapClaims -> option string;
  Revocation : option (string -> MapClaims -> result unit) }.

(** The caller of a request: its context and its token. *)
Record Caller := mkCaller {
  ca_ctx : Context; ca_claims : MapClaims; ca_TokenType : string; ca_AccessToken : string }.
Definition ca_AuthMethod (c : Caller) : string := id_AuthMethod (ctx_identity (ca_ctx c)).
Definition ca_Role (c : Caller) : string := id_Role (ctx_identity (ca_ctx c)).
Definition ca_Subject (c : Caller) : string := id_Subject (ctx_identity (ca_ctx c)).

(** [pb.Token], [pb.UserInfo] and [pb.UserTokenResponse] *)
Record Token_pb := mkTokenPb {
  tb_TokenType : string; tb_AccessToken : string; tb_ExpiresAt : string;
  tb_IssuedAt : string; tb_Issuer : string; tb_Audience : string;
  tb_Provider : IDP_Enum; tb_Jkt : string }.
Record UserInfo_pb := mkUserInfoPb {
  ub_ID : string; ub_Name : string; ub_Email : string; ub_EmailVerified : bool;
  ub_Role : string; ub_Orgs : gmap string string; ub_OrgID : string;
  ub_OrgRole : string; ub_OrgRoleSource : string }.
Record UserTokenResponse := mkUserToken { ut_Token : Token_pb; ut_UserInfo : UserInfo_pb }.

Section session.
Context `{Xdb, XdbLimits, Unicode, Collation, IdGen, Random, Cache, Porto, ProfileCodec}.
Context `{LRU, OAuthLib, CodeCache, TimeLib, SessionLib}.
Variable cfg : AuthConfig.

(** ** The token of the caller *)

Definition token_of (c : Caller) (claims : MapClaims) (accessToken jkt : string) : Token_pb :=
  mkTokenPb (ca_TokenType c) accessToken (claim_TimeText claims "exp")
    (claim_TimeText claims "iat") (claim_String claims "iss") (claim_String claims "aud")
    (tokenProvider claims) jkt.

Definition GetUserToken (c : Caller) : M AuthState UserTokenResponse :=
  match claims_To (ca_claims c) with
  | Err e => fail (WrapWithCtx e "request failed")
  | Ok claims =>
      ret (mkUserToken
        (token_of c (ca_claims c)
           (if bool_decide (ca_AuthMethod c = MethodJWTCookie) then EmptyString
            else ca_AccessToken c)
           (default EmptyString (jc_Cnf claims)))
        (mkUserInfoPb (jc_Subject claims) (jc_Name claims) (jc_Email claims)
           (jc_EmailVerified claims) (ca_Role c) ∅ (claim_String (ca_claims c) ClaimOrg)
           (claim_String (ca_claims c) ClaimOrgRole)
           (claim_String (ca_claims c) ClaimOrgRoleSource)))
  end.

(** [Caller] and [callerStatus]; the claims are in no particular order. *)
Record CallerStatusResponse := mkCallerStatus {
  cr_Subject : string; cr_Role : string; cr_Claims : list (string * string) }.
Definition CallerStatus (c : Caller) : CallerStatusResponse :=
  mkCallerStatus (ca_Subject c) (ca_Role c)
    ((fun k => (k, claim_String (ca_claims c) k)) <$> (map_to_list (ca_claims c)).*1).

(** ** The switch of the org *)

Definition switchClaims (user : User) (sel : orgSelection) (role : string)
    (claims : MapClaims) : MapClaims :=
  <["role" := ClaimText role]> (<["sub" := ClaimText (id_string (us_ID user))]>
    (<["name" := ClaimText (us_Name user)]>
      (<["email_verified" := ClaimFlag (us_EmailVerified user)]>
        (<["email" := ClaimText (us_Email user)]> (setOrgClaims (Some sel) claims)))))%string.

Definition switchedEvent (ctx : Context) (user : User) (sel : orgSelection) : Event :=
  events_Description (us_Email user ++ " signed in as " ++ DisplayName (sl_Role sel))
    (events_Email (us_Email user) (events_Reference (us_ID user)
      (events_Org (sl_OrgID sel)
        (events_New ctx auth_ServiceName EventType_UserSignedIn "User signed in")))).

Definition selectOrgToken (c : Caller) (reqOrgID : string) : M AuthState UserTokenResponse :=
  let! (user, sel) := on_os (selectOrgFor (ca_ctx c) reqOrgID) in
  let claims := switchClaims user sel (ca_Role c) (ca_claims c) in
  match SignClaims claims with
  | Err e => fail (WrapWithCtx e "failed to sign JWT")
  | Ok tokenStr =>
      on_os (os_emit (switchedEvent (ca_ctx c) user sel)) ;;;
      ret (mkUserToken
        (token_of c claims tokenStr (default EmptyString (claims_CNF claims)))
        (mkUserInfoPb (id_string (us_ID user)) (us_Name user) (us_Email user)
           (us_EmailVerified user) (ca_Role c) (sl_Orgs sel) (id_string (sl_OrgID sel))
           (Role_String (sl_Role sel)) (RoleSourceClaim (sl_Source sel))))
  end.

Definition cookie_session (ctx : Context) : bool :=
  bool_decide (tc_authMethod (FromContext ctx) = MethodJWTCookie).

Definition set_AccessToken (t : string) (r : UserTokenResponse) : UserTokenResponse :=
  let k := ut_Token r in
  mkUserToken (mkTokenPb (tb_TokenType k) t (tb_ExpiresAt k) (tb_IssuedAt k) (tb_Issuer k)
    (tb_Audience k) (tb_Provider k) (tb_Jkt k)) (ut_UserInfo r).

Definition omitCookieAccessToken (ctx : Context) (authorization : string)
    (res : UserTokenResponse) : UserTokenResponse :=
  if negb (bool_decide (authorization = EmptyString)) then res
  else if cookie_session ctx then set_AccessToken EmptyString res else res.

Definition SelectOrg (c : Caller) (reqOrgID : string) : M AuthState UserTokenResponse :=
  let! res := selectOrgToken c reqOrgID in
  ret (omitCookieAccessToken (ca_ctx c) EmptyString res).

(** The cookies and the body of the answer. *)
Definition AuthOrgHandler (c : Caller) (reqOrgID : string) (rememberMe : bool)
    (authorization : string) : M AuthState (list Cookie * UserTokenResponse) :=
  let! res := selectOrgToken c reqOrgID in
  let! t := now in
  let! cookies :=
    (if bool_decide (authorization = EmptyString) && cookie_session (ca_ctx c) then
       let validFor := if rememberMe
                       then match ParseRFC3339 (tb_ExpiresAt (ut_Token res)) with
                            | Some exp => (exp - t)%Z
                            | None => 0%Z
                            end
                       else 0%Z in
       setAuthCookie cfg (tb_AccessToken (ut_Token res)) validFor
     else ret []) in
  ret (cookies, omitCookieAccessToken (ca_ctx c) authorization res).

(** ** Sign-out *)

(** The service and the tokens that are revoked. *)
Definition SessionState : Type := AuthState * list string.
Definition in_auth {X} (m : M AuthState X) : M SessionState X := fun s =>
  let '(r, a) := m s.1 in (r, (a, s.2)).

Definition signedOutEvent (c : Caller) : Event :=
  let tctx := FromContext (ca_ctx c) in
  let jti := claim_String (ca_claims c) "jti" in
  if IsAPIKey tctx then
    events_Description ("API key token " ++ jti ++ " revoked")
      (events_Reference (tc_userID tctx) (events_Project (tc_projectID tctx)
        (events_Org (tc_orgID tctx)
          (events_New (ca_ctx c) auth_ServiceName EventType_TokenRevoked "Token revoked"))))
  else
    events_Description (tc_userEmail tctx ++ " signed out and revoked token " ++ jti)
      (events_Reference (tc_userID tctx) (events_Org (tc_orgID tctx)
        (events_New (ca_ctx c) auth_ServiceName EventType_UserSignedOut "User signed out"))).

Definition revoke (c : Caller) : M SessionState unit :=
  guard (negb (bool_decide (ca_AccessToken c = EmptyString)))
    (Grpc Unauthenticated "no token to revoke") ;;;
  match Revocation with
  | None => fail (Grpc Unimplemented "revocation not supported")
  | Some f =>
      match f (ca_AccessToken c) (ca_claims c) with
      | Err e => fail (WrapWithCtx e "request failed")
      | Ok _ =>
          modify (fun s => (s.1, s.2 ++ [ca_AccessToken c])) ;;;
          in_auth (on_os (os_emit (signedOutEvent c)))
      end
  end.

Definition RevokeToken (c : Caller) : M SessionState unit := revoke c.

(** The cookies of the answer, and its error. *)
Definition RevokeTokenHandler (c : Caller) : M SessionState (list Cookie * result unit) :=
  let! cookies := in_auth (resetAuthCookie cfg) in
  catch (revoke c) (fun r => ret (cookies, r)).

Definition RemoveCookieHandler : M AuthState (list Cookie) := resetAuthCookie cfg.
End session.
