(* ===== verification/OAuthTrace.v ===== *)
(** Histories of OAuth sign-ins: flows that start, callbacks that end them,
    one-time codes that are exchanged, and whatever else happens to the
    database meanwhile.

    A handler always answers, the clock stands still during a request, and
    only the answer of a code flow touches the one-time codes. *)
From Stdlib Require Import ZArith Lia Ascii.
From stdpp Require Import base list gmap strings pretty.
From S2P Require Import Prelude GoStrings Xdb Roles Scopes Tenancy Grants Authorizer Methods Access Model Query Sql CaDb Pbconv Lru RowPb TenantScope OrgQuery OrgDb OrgsService SignIn OrgSignIn OcspText UrlText OAuth OAuthCallback.

(** ** Steps that answer HTTP errors *)

Section hsteps.
Context {S : Type}.

Lemma hbind_ok {A B} (m : H S A) (k : A -> H S B) s b s' :
  hbind m k s = (Ok (inr b), s') <->
  exists a s1, m s = (Ok (inr a), s1) /\ k a s1 = (Ok (inr b), s').
Proof.
  unfold hbind. rewrite bind_ok. split.
  - intros (r & s1 & Hm & Hk). destruct r as [e|a]; [by unfold hfail, ret in Hk|].
    by exists a, s1.
  - intros (a & s1 & Hm & Hk). by exists (inr a), s1.
Qed.
Lemma hret_ok {A} (a b : A) (s s' : S) : hret a s = (Ok (inr b), s') <-> a = b /\ s' = s.
Proof. unfold hret, ret. naive_solver. Qed.
Lemma hlift_ok {A} (r : http_error + A) (b : A) (s s' : S) :
  hlift r s = (Ok (inr b), s') <-> r = inr b /\ s' = s.
Proof. unfold hlift, ret. naive_solver. Qed.
Lemma hguard_ok b e u (s s' : S) : hguard b e s = (Ok (inr u), s') <-> b = true /\ s' = s.
Proof. destruct u. unfold hguard. destruct b; unfold hret, hfail, ret; naive_solver. Qed.

(** ** Computations that always answer *)

Definition responds {A} (m : M S A) : Prop := forall s, exists a s', m s = (Ok a, s').

Lemma responds_ret {A} (a : A) : responds (ret a).
Proof. intros s. by exists a, s. Qed.
Lemma responds_hret {A} (a : A) : responds (hret a).
Proof. apply responds_ret. Qed.
Lemma responds_hfail {A} e : responds (@hfail S A e).
Proof. apply responds_ret. Qed.
Lemma responds_hlift {A} (r : http_error + A) : responds (hlift r).
Proof. apply responds_ret. Qed.
Lemma responds_hguard b e : responds (hguard b e).
Proof. destruct b; apply responds_ret. Qed.
Lemma responds_bind {A B} (m : M S A) (k : A -> M S B) :
  responds m -> (forall a, responds (k a)) -> responds (bind m k).
Proof.
  intros Hm Hk s. destruct (Hm s) as (a & s1 & E). unfold bind. rewrite E. apply Hk.
Qed.
Lemma responds_catch {A B} (m : M S A) (k : result A -> M S B) :
  (forall r, responds (k r)) -> responds (catch m k).
Proof. intros Hk s. unfold catch. destruct (m s) as [r s1]. apply Hk. Qed.
Lemma responds_hbind {A B} (m : H S A) (k : A -> H S B) :
  responds m -> (forall a, responds (k a)) -> responds (hbind m k).
Proof.
  intros Hm Hk. apply responds_bind; [done|]. intros [e|a]; [apply responds_hfail|apply Hk].
Qed.

Lemma preserves_hbind (I : S -> Prop) {A B} (m : H S A) (k : A -> H S B) :
  preserves I m -> (forall a, preserves I (k a)) -> preserves I (hbind m k).
Proof.
  intros Hm Hk. apply preserves_bind; [done|]. intros [e|a]; [by intros s|apply Hk].
Qed.
Lemma preserves_hguard (I : S -> Prop) b e : preserves I (hguard b e).
Proof. by destruct b; intros s. Qed.
Lemma preserves_hret (I : S -> Prop) {A} (a : A) : preserves I (hret a).
Proof. by intros s. Qed.
Lemma preserves_hfail (I : S -> Prop) {A} e : preserves I (@hfail S A e).
Proof. by intros s. Qed.
Lemma preserves_hlift (I : S -> Prop) {A} (r : http_error + A) : preserves I (hlift r).
Proof. by intros s. Qed.
End hsteps.

(** Takes a successful step apart. *)
Ltac h_step HH :=
  lazymatch type of HH with
  | hbind _ _ _ = (Ok (inr _), _) =>
      let a := fresh "a" in let s := fresh "s" in let H' := fresh "H" in
      apply hbind_ok in HH as (a & s & H' & HH); h_step H'; h_step HH
  | bind _ _ _ = (Ok _, _) =>
      let a := fresh "a" in let s := fresh "s" in let H' := fresh "H" in
      apply bind_ok in HH as (a & s & H' & HH); h_step H'; h_step HH
  | hguard _ _ _ = (Ok (inr _), _) => apply hguard_ok in HH as [HH ->]
  | hlift _ _ = (Ok (inr _), _) => apply hlift_ok in HH as [HH ->]
  | hret _ _ = (Ok (inr _), _) => apply hret_ok in HH as [HH ->]
  | _ => idtac
  end.

Ltac answers_step :=
  lazymatch goal with
  | |- responds (hbind _ _) => apply responds_hbind; [|intros ?]
  | |- responds (bind _ _) => apply responds_bind; [|intros ?]
  | |- responds (catch _ _) => apply responds_catch; intros ?
  | |- responds (ret _) => apply responds_ret
  | |- responds (hret _) => apply responds_hret
  | |- responds (hfail _) => apply responds_hfail
  | |- responds (hlift _) => apply responds_hlift
  | |- responds (hguard _ _) => apply responds_hguard
  | |- responds (match ?x with _ => _ end) => destruct x
  end.

Ltac h_preserves :=
  repeat first
    [ lazymatch goal with
      | |- preserves _ (hbind _ _) => apply preserves_hbind; [|intros ?]
      | |- preserves _ (hguard _ _) => apply preserves_hguard
      | |- preserves _ (hret _) => apply preserves_hret
      | |- preserves _ (hfail _) => apply preserves_hfail
      | |- preserves _ (hlift _) => apply preserves_hlift
      end
    | preserves_step ].

(** ** The clock of the database *)

Section clock.
Context `{XL : Xdb, LM : XdbLimits, UC : Unicode, CO : Collation, IG : IdGen, RA : Random}.
Context `{CA : Cache, PO : Porto, PC : ProfileCodec}.
Variable t : Z.

Definition at_time (d : ODb) : Prop := od_now d = t.

Lemma time_oexec {R A} (tb : OTable R) (f : list R -> result (A * list R)) :
  (forall l s, od_now (ot_set tb l s) = od_now s) -> preserves at_time (oexec tb f).
Proof.
  intros Hs s Ht. unfold oexec. destruct (f _) as [[a l]|e]; [|done].
  unfold at_time. simpl. by rewrite Hs.
Qed.
Lemma time_otransaction {A} (m : M ODb A) :
  preserves at_time m -> preserves at_time (otransaction m).
Proof.
  intros Hm s Ht. specialize (Hm s Ht). unfold otransaction. by destruct (m s) as [[a|e] s'].
Qed.
Lemma time_onot_found {A} tn k (m : M ODb A) :
  preserves at_time m -> preserves at_time (onot_found tn k m).
Proof. intros Hm. unfold onot_found. preserves_steps; done. Qed.
Lemma time_with_message {A} msg (m : M ODb A) :
  preserves at_time m -> preserves at_time (with_message msg m).
Proof. intros Hm. unfold with_message. preserves_steps; done. Qed.
Lemma time_oensureID id : preserves at_time (oensureID id).
Proof. intros s Hs. unfold oensureID. by destruct (IsZero id). Qed.
Lemma time_references ok name : preserves at_time (references ok name).
Proof. intros s Ht. unfold references, guard. by destruct (ok s). Qed.
Lemma time_RandomString n : preserves at_time (RandomString n).
Proof. by intros s. Qed.
Lemma time_oNow : preserves at_time oNow.
Proof. by intros s. Qed.
Lemma time_oNextID : preserves at_time oNextID.
Proof. by intros s. Qed.
Lemma time_oselect {R A} (tb : OTable R) (f : list R -> result A) :
  preserves at_time (oselect tb f).
Proof. by intros s. Qed.

Create HintDb clock.
Hint Resolve time_otransaction time_onot_found time_with_message time_oensureID
  time_references time_RandomString time_oNow time_oNextID time_oselect : clock.

Lemma time_AddMember m : preserves at_time (Provider_AddMember m).
Proof.
  unfold Provider_AddMember, upsertMember. preserves_steps; auto with clock.
  by apply time_oexec.
Qed.
Lemma time_LoginUser m : preserves at_time (Provider_LoginUser m).
Proof.
  unfold Provider_LoginUser, RegisterUser. preserves_steps; auto with clock.
  - by apply time_oexec.
  - apply time_onot_found. by apply time_oexec.
Qed.
Lemma time_RegisterOrg m u : preserves at_time (Provider_RegisterOrg m u).
Proof.
  unfold Provider_RegisterOrg. preserves_steps; auto with clock.
  apply time_otransaction. preserves_steps; [by apply time_oexec|].
  auto using time_AddMember with clock.
Qed.
Lemma time_RegisterProject p : preserves at_time (Provider_RegisterProject p).
Proof.
  unfold Provider_RegisterProject. preserves_steps; auto with clock. by apply time_oexec.
Qed.
Lemma time_acceptInvite id u : preserves at_time (acceptInvite id u).
Proof.
  unfold acceptInvite, takeInvite. apply time_otransaction.
  preserves_steps; auto using time_AddMember with clock.
  try apply time_onot_found; by apply time_oexec.
Qed.
Lemma time_AcceptInvites u : preserves at_time (Provider_AcceptInvites u).
Proof.
  unfold Provider_AcceptInvites. preserves_steps; [by intros s|].
  match goal with |- preserves _ (acceptEach _ ?l _) => generalize l end.
  intros l. generalize (@nil Membership). induction l as [|i l IH]; intros acc; simpl;
    preserves_steps; auto using time_acceptInvite.
Qed.

(** The same of the state of the orgs service. *)
Definition os_at_time (s : OrgState) : Prop := at_time (os_db s).

Lemma os_time_odb {X} (m : M ODb X) :
  preserves at_time m -> preserves os_at_time (in_odb m).
Proof.
  intros Hm s Hs. specialize (Hm _ Hs). unfold in_odb. by destruct (m (os_db s)).
Qed.
Lemma os_time_authorizer {X} (m : M AzState X) : preserves os_at_time (in_authorizer m).
Proof. intros s Hs. unfold in_authorizer. by destruct (m _). Qed.
Lemma os_time_emit e : preserves os_at_time (os_emit e).
Proof. by intros s. Qed.
Hint Resolve os_time_odb os_time_authorizer os_time_emit time_LoginUser time_AcceptInvites
  time_RegisterOrg time_RegisterProject : clock.

Lemma os_time_initialOrg cfg ctx u : preserves os_at_time (initialOrg cfg ctx u).
Proof.
  unfold initialOrg, registerDefault. preserves_steps; auto with clock;
    by apply os_time_odb; intros s.
Qed.
Lemma os_time_signIn cfg ctx ui : preserves os_at_time (signIn cfg ctx ui).
Proof.
  unfold signIn, firstLogin. preserves_steps; auto using os_time_initialOrg with clock.
  match goal with |- preserves _ (emitAccepted _ _ ?l) => generalize l end.
  intros invs. induction invs as [|m invs IH]; simpl; preserves_steps; auto with clock.
Qed.
End clock.

(** The random texts never repeat. *)
Class RandomLaws `{Random} :=
  random_string_inj j k : random_string j 32 = random_string k 32 -> j = k.

(** A protected code reads back, no hash is empty, and the libraries write the
    claims of their own only. *)
Class OAuthLaws `{OAuthLib} := {
  UnprotectOTC_ProtectOTC n x p : ProtectOTC n x = Ok p -> UnprotectOTC p = Ok x;
  SHA256Base64_nonempty v : SHA256Base64 v <> EmptyString;
  SetClaimsExpiration_other t v c k :
    k ∉ ["iat"; "exp"; "nbf"]%string -> SetClaimsExpiration t v c !! k = c !! k;
  SetCnfClaim_other j c k : k <> "cnf"%string -> SetCnfClaim j c !! k = c !! k }.

Section trace.
Context `{XL : Xdb, LM : XdbLimits, UC : Unicode, CO : Collation, IG : IdGen, RA : Random}.
Context `{CA : Cache, PO : Porto, PC : ProfileCodec, LR : LRU, OL : OAuthLib, CC : CodeCache}.
Context {RL : @RandomLaws RA} {OLL : @OAuthLaws OL} {CCL : @CodeCacheLaws CC}.
Variable cfg : AuthConfig.
Variable BaseURL : option URL.

(** ** What a request leaves alone *)

Definition steady (c : codes) (n : nat) (t : Z) (s : AuthState) : Prop :=
  as_codes s = c /\ as_draws s = n /\ as_now s = t.

Section steady.
Variables (c : codes) (n : nat) (t : Z).

Lemma steady_on_os {X} (m : M OrgState X) :
  preserves (os_at_time t) m -> preserves (steady c n t) (on_os m).
Proof.
  intros Hm s (Hc & Hn & Ht). specialize (Hm (as_os s) Ht). unfold on_os.
  destruct (m (as_os s)) as [r o]. by split_and!.
Qed.
Lemma steady_now : preserves (steady c n t) now.
Proof. by intros s. Qed.
Lemma steady_cached email : preserves (steady c n t) (cached_provider email).
Proof. by intros s. Qed.
Lemma steady_cache email cl : preserves (steady c n t) (cache_provider email cl).
Proof. by intros s. Qed.
Lemma steady_odb {X} (m : M ODb X) :
  (forall d, (m d).2 = d) -> preserves (steady c n t) (on_os (in_odb m)).
Proof.
  intros Hm. apply steady_on_os, os_time_odb. intros d Hd. by rewrite Hm.
Qed.

Lemma steady_AuthProviderForEmail email :
  preserves (steady c n t) (AuthProviderForEmail cfg email).
Proof.
  unfold AuthProviderForEmail, isEmailAllowedLogin. h_preserves;
    auto using steady_cached, steady_cache; apply steady_odb; intros d; [|done].
  unfold Provider_GetUserByEmail, onot_found, catch, oselect. by case_match.
Qed.
Lemma steady_providerOf st : preserves (steady c n t) (providerOf cfg st).
Proof. unfold providerOf. h_preserves. apply steady_AuthProviderForEmail. Qed.
Lemma steady_signInToken ctx idp cb code st :
  preserves (steady c n t) (signInToken cfg BaseURL ctx idp cb code st).
Proof.
  unfold signInToken. h_preserves; auto using steady_providerOf, steady_now.
  all: apply steady_on_os; first [apply os_time_signIn|by apply os_time_odb; intros s].
Qed.
Lemma steady_checkCallback code e d st : preserves (steady c n t) (checkCallback code e d st).
Proof. unfold checkCallback. h_preserves. apply steady_now. Qed.
Lemma steady_startFlow r : preserves (steady c n t) (startFlow cfg r).
Proof.
  unfold startFlow, discoverProvider.
  h_preserves; auto using steady_now, steady_AuthProviderForEmail.
Qed.
End steady.

Lemma steady_run {X} (m : M AuthState X) s :
  (forall c n t, preserves (steady c n t) m) ->
  steady (as_codes s) (as_draws s) (as_now s) (m s).2.
Proof. intros Hm. by apply Hm. Qed.

(** ** Histories *)

(** A one-time code that was drawn for a sign-in. *)
Record Issued := mkIssued {
  is_code : string; is_token : string; is_state : State; is_time : Z }.
(** An exchange that succeeded. *)
Record Used := mkUsed {
  ue_code : string; ue_verifier : string; ue_token : Token; ue_time : Z }.

(** The state a request of the authorize endpoint protects. *)
Definition protected (r : AuthorizeRequest) (s : AuthState) : list (string * State) :=
  match startFlow cfg r (resetAuthCookie cfg s).2 with
  | (Ok (inr f), s1) => match ProtectState (as_draws s1) (fw_state f) with
                        | Ok p => [(p, fw_state f)]
                        | Err _ => []
                        end
  | _ => []
  end.

(** The sign-in a request of the callback completes: the state and the token. *)
Definition signedIn (ctx : Context) (idp : Idp) (r : CallbackRequest)
  : M AuthState (option (State * string)) :=
  match callbackParams r with
  | None => ret None
  | Some param =>
      match callbackState (param "state"%string) with
      | inl _ => ret None
      | inr st =>
          let code := param "code"%string in
          let! res := (checkCallback code (param OAuthParamError)
                         (param OAuthParamErrorDescription) st ;^
                       signInToken cfg BaseURL ctx idp (cb_callbackURL r) code st) in
          ret match res with inr (tok, _, _) => Some (st, tok) | inl _ => None end
      end
  end.

Definition drawn (ctx : Context) (idp : Idp) (r : CallbackRequest) (s : AuthState)
  : list Issued :=
  match signedIn ctx idp r s with
  | (Ok (Some (st, tok)), s1) =>
      if bool_decide (st_ResponseType st = OAuthResponseTypeCode)
      then [mkIssued (random_string (as_draws s1) 32) tok st (as_now s)] else []
  | _ => []
  end.

Definition exchanged (code verifier : string) (s : AuthState) : list Used :=
  match ExchangeCode code verifier s with
  | (Ok tok, _) => [mkUsed code verifier tok (as_now s)]
  | _ => []
  end.

(** Nobody forges a state: what decrypts was protected in [L]. *)
Definition unforged (L : list (string * State)) (r : CallbackRequest) : Prop :=
  forall param st, callbackParams r = Some param ->
    UnprotectState (param "state"%string) = Ok st -> (param "state"%string, st) ∈ L.

(** [auth_trace L I U s]: a history that protected the states [L], drew the
    codes [I] and exchanged [U]. *)
Inductive auth_trace : list (string * State) -> list Issued -> list Used -> AuthState -> Prop :=
| trace_start o c emails k :
    (forall t key, codes_Get t c key = None) -> auth_trace [] [] [] (mkAuth o c emails k)
| trace_authorize L I U s r :
    auth_trace L I U s -> auth_trace (L ++ protected r s) I U (AuthorizeHandler cfg r s).2
| trace_callback L I U s ctx idp r :
    auth_trace L I U s -> unforged L r ->
    auth_trace L (I ++ drawn ctx idp r s) U (CallbackHandler cfg BaseURL ctx idp r s).2
| trace_exchange L I U s code verifier :
    auth_trace L I U s ->
    auth_trace L I (U ++ exchanged code verifier s) (ExchangeCode code verifier s).2
| trace_providers L I U s email :
    auth_trace L I U s -> auth_trace L I U (GetProviders cfg email s).2
| trace_rest L I U s o :
    auth_trace L I U s -> (as_now s <= od_now (os_db o))%Z ->
    auth_trace L I U (mkAuth o (as_codes s) (as_emails s) (as_draws s)).

(** ** What holds in them *)

Definition flow_ok (st : State) : Prop :=
  isAllowedRedirect cfg (st_RedirectURL st) = inr tt /\ st_ClientID st = allowedClientID /\
  knownResponseType (st_ResponseType st) = true /\
  (st_CodeChallenge st = EmptyString \/ st_CodeChallengeMethod st = "S256"%string).

Definition otc_of (i : Issued) : OTCState :=
  mkOTC (is_token i) (tokenValidity (is_state i) / 1000 mod 2 ^ 32)%Z
    (st_CodeChallenge (is_state i)) (st_CodeChallengeMethod (is_state i)).

(** The code was drawn for a flow that started at most five minutes ago. *)
Definition issued_ok (L : list (string * State)) (s : AuthState) (i : Issued) : Prop :=
  (exists k, k < as_draws s /\ is_code i = random_string k 32) /\
  (is_time i <= as_now s)%Z /\
  (is_time i - time_Unix (st_IssuedAt (is_state i)) <= stateMaxAge)%Z /\
  st_ResponseType (is_state i) = OAuthResponseTypeCode /\
  exists p, (p, is_state i) ∈ L.

(** The exchange was of the code of [i], by who started the flow, in time. *)
Definition used_for (u : Used) (i : Issued) : Prop :=
  is_code i = ue_code u /\ to_AccessToken (ue_token u) = is_token i /\
  (is_time i <= ue_time u <= is_time i + DefaultOTCSeconds * 1000)%Z /\
  st_CodeChallenge (is_state i) <> EmptyString /\
  SHA256Base64 (ue_verifier u) = st_CodeChallenge (is_state i).

(** A code in the cache was drawn for a sign-in and not exchanged yet. *)
Definition cached_ok (I : list Issued) (U : list Used) (s : AuthState) : Prop :=
  forall code data t, (as_now s <= t)%Z ->
    codes_Get t (as_codes s) (otcKey code) = Some data ->
    exists i, i ∈ I /\ is_code i = code /\ UnprotectOTC data = Ok (otc_of i) /\
      (t <= is_time i + DefaultOTCSeconds * 1000)%Z /\ code ∉ (ue_code <$> U).

Definition trace_ok (L : list (string * State)) (I : list Issued) (U : list Used)
    (s : AuthState) : Prop :=
  Forall (fun f => flow_ok f.2) L /\ Forall (issued_ok L s) I /\ NoDup (is_code <$> I) /\
  NoDup (ue_code <$> U) /\ Forall (fun u => exists i, i ∈ I /\ used_for u i) U /\
  cached_ok I U s.

(** ** Flows *)

Lemma codeChallenge_ok qs t c m : codeChallenge qs t = inr (c, m) ->
  c = EmptyString \/ m = "S256"%string.
Proof.
  unfold codeChallenge. case_bool_decide; [|by intros [= <- _]; left].
  case_bool_decide as H1; cbn [negb andb]; [by intros [= <- _]; left|].
  case_bool_decide as H2; cbn [negb]; [by intros [= _ <-]; right|done].
Qed.

Lemma discoverProvider_ok email req s req' s1 :
  discoverProvider cfg email req s = (Ok req', s1) ->
  rq_ClientID req' = rq_ClientID req /\ rq_RedirectURI req' = rq_RedirectURI req.
Proof.
  unfold discoverProvider. destruct (_ && _); [|by intros [= <- _]].
  intros ([e|prov] & s2 & _ & E)%bind_ok; by injection E as <- _.
Qed.

Lemma Request_Validate_ok c u : Request_Validate c = inr u ->
  knownResponseType (rq_ResponseType c) = true /\ rq_RedirectURI c <> EmptyString.
Proof.
  unfold Request_Validate, knownResponseType. rewrite <-!bool_decide_not.
  destruct (_ && _) eqn:E1; [done|].
  destruct (bool_decide (rq_RedirectURI c = _)) eqn:E2; [done|]. intros _.
  apply bool_decide_eq_false in E2. split; [|done].
  apply bool_decide_eq_true. rewrite !elem_of_cons.
  rewrite !andb_false_iff, !bool_decide_eq_false in E1.
  destruct (decide (rq_ResponseType c = OAuthResponseTypeToken)); [by left|].
  destruct (decide (rq_ResponseType c = OAuthResponseTypeCode)); [by right; left|].
  destruct (decide (rq_ResponseType c = OAuthResponseTypeCookie)); [by right; right; left|].
  naive_solver.
Qed.

Lemma startFlow_ok r s f s1 : startFlow cfg r s = (Ok (inr f), s1) -> flow_ok (fw_state f).
Proof.
  unfold startFlow. intros E.
  apply hbind_ok in E as (u1 & s2 & E1 & E). apply hguard_ok in E1 as [Hid ->].
  apply bind_ok in E as (req & s3 & E3 & E). apply discoverProvider_ok in E3 as [Hc _].
  apply hbind_ok in E as (u2 & s4 & _ & E). apply hbind_ok in E as (u3 & s5 & _ & E).
  apply hbind_ok in E as ([ch me] & s6 & E6 & E). apply hlift_ok in E6 as [Hch ->].
  apply hbind_ok in E as (u4 & s7 & E7 & E). apply hlift_ok in E7 as [Hv ->].
  apply hbind_ok in E as (u5 & s8 & E8 & E). apply hlift_ok in E8 as [Hr ->].
  apply hbind_ok in E as (prov & s9 & _ & E). apply hbind_ok in E as (th & s10 & _ & E).
  apply bind_ok in E as (t & s11 & _ & E). apply hret_ok in E as [<- _].
  apply bool_decide_eq_true in Hid. destruct u5. unfold flow_ok. simpl.
  apply Request_Validate_ok in Hv as [Hk _]. apply codeChallenge_ok in Hch.
  rewrite Hc. by split_and!.
Qed.

(** ** Callbacks *)

(** The request drew random texts and left the codes alone. *)
Definition draws_only (s s' : AuthState) : Prop :=
  as_codes s' = as_codes s /\ as_draws s <= as_draws s' /\ as_now s' = as_now s.

Lemma draws_only_trans s s1 s2 : draws_only s s1 -> draws_only s1 s2 -> draws_only s s2.
Proof. unfold draws_only. intros (-> & ? & ->) (-> & ? & ->). split_and!; [done|lia|done]. Qed.

Lemma draws_only_steady {X} (m : M AuthState X) s :
  (forall c n t, preserves (steady c n t) m) -> draws_only s (m s).2.
Proof.
  intros Hm. destruct (steady_run m s Hm) as (? & Hd & ?). split_and!; [done|by rewrite Hd|done].
Qed.

Lemma cookies_for_draws token age s : draws_only s (cookies_for cfg token age s).2.
Proof.
  unfold cookies_for. case_bool_decide; [done|]. unfold draws_only. simpl.
  split_and!; [done|lia|done].
Qed.

(** The answer of a code flow stores the state of its code, or fails. *)
Definition stores_code (st : State) (tok : string) (s s' : AuthState) : Prop :=
  as_draws s < as_draws s' /\ as_now s' = as_now s /\
  let i := mkIssued (random_string (as_draws s) 32) tok st (as_now s) in
  (as_codes s' = as_codes s \/
   exists n data, ProtectOTC n (otc_of i) = Ok data /\
     as_codes s' = (codes_Set (as_now s) (as_codes s) (otcKey (is_code i)) data
                      (DefaultOTCSeconds * 1000)%Z).2).

Lemma answerToken_effect st tok idToken s :
  let s' := (answerToken cfg st tok idToken (tokenValidity st) s).2 in
  if bool_decide (st_ResponseType st = OAuthResponseTypeCode)
  then stores_code st tok s s' else draws_only s s'.
Proof.
  unfold answerToken. destruct (decide (st_ResponseType st = OAuthResponseTypeCookie)) as [Hc|Hc].
  - rewrite (bool_decide_true (_ = OAuthResponseTypeCookie)), Hc by done.
    rewrite bool_decide_false by done. unfold bind, setAuthCookie.
    pose proof (cookies_for_draws tok
      (if (0 <? (if st_RememberMe st then tokenValidity st else 0))%Z
       then (if st_RememberMe st then tokenValidity st else 0) / 1000 else 0)%Z s) as Hd.
    by destruct (cookies_for _ _ _ _) as [[c|e] s'].
  - rewrite (bool_decide_false (_ = OAuthResponseTypeCookie)) by done.
    case_bool_decide as H2; [|done]. unfold stores_code.
    unfold bind, auth_RandomString, bind, auth_draw, ret. simpl.
    destruct (ProtectOTC _ _) as [data|e] eqn:E; [|simpl; split_and!; [lia|done|by left]].
    unfold now, as_now, catch, codes_call. simpl.
    destruct (codes_Set _ _ _ _ _) as [[u|e] c] eqn:Ec; simpl;
      (split_and!; [lia|done|]; right; eexists _, _; split; [exact E|];
       unfold as_now; by rewrite Ec).
Qed.

Lemma handleToken_split (m : H AuthState unit) ctx idp cb code st s :
  let r := (m ;^ signInToken cfg BaseURL ctx idp cb code st) s in
  let r' := (m ;^ handleToken cfg BaseURL ctx idp cb code EmptyString st) s in
  match r with
  | (Ok (inr (tok, u, sel)), s1) =>
      exists s2, s2 = (answerToken cfg st tok EmptyString (tokenValidity st) s1).2 /\
        as_codes r'.2 = as_codes s2 /\ as_draws r'.2 = as_draws s2 /\
        as_now r'.2 = as_now s2
  | (_, s1) => r'.2 = s1
  end.
Proof.
  unfold hbind, bind. destruct (m s) as [[[e|u]|e] s0]; [done| |done].
  unfold handleToken, hbind, bind.
  destruct (signInToken _ _ _ _ _ _ _ s0) as [[[e|[[tok usr] sel]]|e] s1]; [done| |done].
  eexists. split; [done|].
  by destruct (answerToken _ _ _ _ _ s1) as [[[e|a]|e] s2].
Qed.

Lemma steady_guarded ctx idp cb code e d st c n t :
  preserves (steady c n t) (checkCallback code e d st ;^
                            signInToken cfg BaseURL ctx idp cb code st).
Proof.
  apply preserves_hbind; [apply steady_checkCallback|intros _; apply steady_signInToken].
Qed.

Lemma checkCallback_ok code e d st s u s1 :
  checkCallback code e d st s = (Ok (inr u), s1) ->
  s1 = s /\ (as_now s - time_Unix (st_IssuedAt st) <= stateMaxAge)%Z /\
  knownResponseType (st_ResponseType st) = true.
Proof.
  unfold checkCallback. intros (t & s2 & [= <- <-] & E)%bind_ok.
  apply hbind_ok in E as (u1 & s3 & E1 & E). apply hguard_ok in E1 as [_ ->].
  apply hbind_ok in E as (u2 & s4 & E2 & E). apply hguard_ok in E2 as [Ht%Z.leb_le ->].
  apply hbind_ok in E as (u3 & s5 & E3 & E). apply hguard_ok in E3 as [Hk ->].
  apply hguard_ok in E as [_ ->]. done.
Qed.

(** The effect of a callback: a code is drawn and stored for a timely flow
    whose response is a code, or nothing happens to the codes. *)
Definition callback_effect (r : CallbackRequest) (s s' : AuthState) (I : list Issued)
  : Prop :=
  draws_only s s' /\ I = [] \/
  exists param st tok s1, callbackParams r = Some param /\
    UnprotectState (param "state"%string) = Ok st /\
    (as_now s - time_Unix (st_IssuedAt st) <= stateMaxAge)%Z /\
    st_ResponseType st = OAuthResponseTypeCode /\
    draws_only s s1 /\ stores_code st tok s1 s' /\
    I = [mkIssued (random_string (as_draws s1) 32) tok st (as_now s)].

Lemma CallbackHandler_effect ctx idp r s :
  callback_effect r s (CallbackHandler cfg BaseURL ctx idp r s).2 (drawn ctx idp r s).
Proof.
  unfold CallbackHandler, drawn, signedIn.
  destruct (callbackParams r) as [param|] eqn:Ep; [|by left].
  unfold callbackState. case_bool_decide; [by left|].
  destruct (UnprotectState _) as [st|e] eqn:Eu; [|by left].
  set (m := checkCallback _ _ _ st). unfold bind.
  pose proof (handleToken_split m ctx idp (cb_callbackURL r) (param "code"%string) st s) as Hs.
  pose proof (draws_only_steady _ s (steady_guarded ctx idp (cb_callbackURL r)
    (param "code"%string) (param OAuthParamError) (param OAuthParamErrorDescription) st))
    as Hd. fold m in Hd. cbv zeta in Hs.
  assert (forall X (f : X -> _) (x : result X * AuthState),
    ((let (y, s') := x in match y with Ok a => ret (f a) s' | Err e => (Err e, s') end)
      : result response * AuthState).2 = x.2) as Hsnd.
  { intros X f [[a|e] x]; done. }
  rewrite Hsnd. clear Hsnd.
  destruct ((m ;^ signInToken _ _ _ _ _ _ _) s) as [[[e|[[tok u] sel]]|e] s1] eqn:E;
    simpl in Hs, Hd |- *; [rewrite Hs; by left| |rewrite Hs; by left].
  destruct Hs as (s2 & -> & Hc & Hn & Ht).
  pose proof (answerToken_effect st tok EmptyString s1) as Ha. cbv zeta in Ha.
  apply hbind_ok in E as (u0 & s0 & E0 & _). apply checkCallback_ok in E0 as (-> & Hage & _).
  case_bool_decide as Hr.
  - right. exists param, st, tok, s1. split_and!; try done; unfold stores_code in *.
    rewrite Hc, Hn, Ht. done.
  - left. split; [|done]. eapply draws_only_trans; [exact Hd|].
    unfold draws_only in *. by rewrite Hc, Hn, Ht.
Qed.

(** ** Exchanges *)

Lemma ExchangeCode_state code v s :
  let s' := (ExchangeCode code v s).2 in
  as_now s' = as_now s /\ as_draws s' = as_draws s /\
  (as_codes s' = as_codes s \/
   as_codes s' = (codes_Delete (as_codes s) (otcKey code)).2).
Proof.
  unfold ExchangeCode, guard, bind, now, catch, codes_call, ret, fail.
  destruct (_ && _); [|by split_and!; [..|left]]. cbn [fst snd].
  destruct (codes_Get _ _ _) as [data|]; [|by split_and!; [..|left]].
  case_bool_decide; cbn [negb]; [by split_and!; [..|left]|].
  destruct (codes_Delete _ _) as [[u|e] c] eqn:E; cbn [fst snd];
    [|by split_and!; [..|right]].
  destruct (UnprotectOTC data) as [otc|e]; [|by split_and!; [..|right]].
  case_bool_decide; by split_and!; [..|right].
Qed.

Lemma ExchangeCode_attempt code v s : code <> EmptyString -> v <> EmptyString ->
  (ExchangeCode code v s).2 = s /\
    (forall data, codes_Get (as_now s) (as_codes s) (otcKey code) = Some data ->
                  data = EmptyString) \/
  as_codes (ExchangeCode code v s).2 = (codes_Delete (as_codes s) (otcKey code)).2.
Proof.
  intros Hc Hv. unfold ExchangeCode, guard, bind, now, catch, codes_call, ret, fail.
  rewrite !bool_decide_false by done. cbn [negb andb fst snd].
  destruct (codes_Get _ _ _) as [data|]; [|by left].
  case_bool_decide; cbn [negb]; [left; split; [done|]; by intros ? [= <-]|right].
  destruct (codes_Delete _ _) as [[u|e] c] eqn:E; cbn [fst snd]; [|done].
  destruct (UnprotectOTC data) as [otc|e]; [|done].
  by case_bool_decide.
Qed.

Lemma ExchangeCode_ok code v s tok s' : ExchangeCode code v s = (Ok tok, s') ->
  exists data otc, codes_Get (as_now s) (as_codes s) (otcKey code) = Some data /\
    data <> EmptyString /\ code <> EmptyString /\
    UnprotectOTC data = Ok otc /\ v <> EmptyString /\
    ot_CodeChallenge otc = (if bool_decide (ot_CodeChallengeMethod otc = "S256"%string)
                            then SHA256Base64 v else v) /\
    tok = mkToken (ot_Token otc) (ot_ExpiresIn otc) /\
    (codes_Delete (as_codes s) (otcKey code)).1 = Ok tt /\
    as_codes s' = (codes_Delete (as_codes s) (otcKey code)).2.
Proof.
  unfold ExchangeCode. intros (u & s1 & Hg & E)%bind_ok. apply guard_ok in Hg as [Hg ->].
  rewrite <-!bool_decide_not in Hg.
  apply andb_true_iff in Hg as [Hne%bool_decide_eq_true Hv%bool_decide_eq_true].
  apply bind_ok in E as (t & s2 & [= <- <-] & E).
  apply bind_ok in E as (d & s3 & [= <- <-] & E).
  destruct (codes_Get _ _ _) as [data|] eqn:Ed; [|done]. exists data.
  apply bind_ok in E as (u2 & s4 & Hg & E). apply guard_ok in Hg as [Hd ->].
  rewrite <-bool_decide_not in Hd. apply bool_decide_eq_true in Hd.
  unfold catch, codes_call in E. destruct (codes_Delete _ _) as [[[]|e] c] eqn:Ec; [|done].
  destruct (UnprotectOTC data) as [otc|e] eqn:Eu; [|done]. exists otc.
  apply bind_ok in E as (u3 & s5 & Hg & E). apply guard_ok in Hg as [Hc%bool_decide_eq_true ->].
  injection E as <- <-. done.
Qed.

(** ** The invariant *)

Lemma otcKey_inj c d : otcKey c = otcKey d -> c = d.
Proof. unfold otcKey. apply (inj (String.app _)). Qed.

Lemma trace_ok_later L L' I U s s' :
  trace_ok L I U s -> (forall x, x ∈ L -> x ∈ L') -> Forall (fun f => flow_ok f.2) L' ->
  as_codes s' = as_codes s -> as_draws s <= as_draws s' -> (as_now s <= as_now s')%Z ->
  trace_ok L' I U s'.
Proof.
  intros (_ & HI & HN & HNU & HU & HC) HL HF Hc Hd Ht. split_and!; try done.
  - eapply Forall_impl; [exact HI|]. intros i ((k & Hk & ?) & ? & ? & ? & p & Hp).
    split_and!; [exists k; split; [lia|done]|lia|done..|]. exists p. by apply HL.
  - intros code data t Hle. rewrite Hc. apply HC. lia.
Qed.

Lemma fresh_code L I U s k : trace_ok L I U s -> as_draws s <= k ->
  random_string k 32 ∉ (is_code <$> I).
Proof.
  intros (_ & HI & _) Hk (i & Hi & Hin)%list_elem_of_fmap.
  rewrite Forall_forall in HI. destruct (HI i Hin) as ((j & Hj & Hr) & _).
  rewrite Hr in Hi. apply random_string_inj in Hi. lia.
Qed.

Lemma used_issued L I U s : trace_ok L I U s -> forall c, c ∈ (ue_code <$> U) -> c ∈ (is_code <$> I).
Proof.
  intros (_ & _ & _ & _ & HU & _) c (u & -> & Hu)%list_elem_of_fmap.
  rewrite Forall_forall in HU. destruct (HU u Hu) as (i & Hi & <- & _).
  by apply list_elem_of_fmap_2.
Qed.

(** A code was drawn and stored. *)
Lemma trace_ok_issue L I U s s1 s' st tok p :
  trace_ok L I U s -> draws_only s s1 -> stores_code st tok s1 s' -> (p, st) ∈ L ->
  (as_now s - time_Unix (st_IssuedAt st) <= stateMaxAge)%Z ->
  st_ResponseType st = OAuthResponseTypeCode ->
  trace_ok L (I ++ [mkIssued (random_string (as_draws s1) 32) tok st (as_now s)]) U s'.
Proof.
  intros Hok (Hc1 & Hd1 & Ht1) (Hd & Ht & Hs) Hp Hage Hr. rewrite Ht1 in Ht, Hs.
  set (i := mkIssued _ tok st _) in *. rewrite Hc1 in Hs.
  pose proof (fresh_code _ _ _ _ (as_draws s1) Hok Hd1) as Hf.
  pose proof (used_issued _ _ _ _ Hok) as Hused.
  destruct Hok as (HL & HI & HN & HNU & HU & HC). split_and!; try done.
  - apply Forall_app. split.
    + eapply Forall_impl; [exact HI|]. intros j ((k & Hk & ?) & ? & ? & ? & ?).
      split_and!; [exists k; split; [lia|done]|lia|done..].
    + apply Forall_singleton. split_and!; [by exists (as_draws s1)|by rewrite Ht|done..|].
      by exists p.
  - rewrite fmap_app. apply NoDup_app. split_and!; [done| |by apply NoDup_singleton].
    intros c Hc ->%list_elem_of_singleton. by apply Hf.
  - eapply Forall_impl; [exact HU|]. intros u (j & Hj & ?). exists j.
    split; [|done]. apply elem_of_app. by left.
  - assert (forall code data t, (as_now s' <= t)%Z ->
      codes_Get t (as_codes s) (otcKey code) = Some data -> exists j, j ∈ I ++ [i] /\
      is_code j = code /\ UnprotectOTC data = Ok (otc_of j) /\
      (t <= is_time j + DefaultOTCSeconds * 1000)%Z /\ code ∉ (ue_code <$> U)) as Hold.
    { intros code data t Hle Hg. rewrite Ht in Hle.
      destruct (HC code data t Hle Hg) as (j & Hj & ?). exists j.
      split; [|done]. apply elem_of_app. by left. }
    intros code data t Hle Hg. destruct Hs as [Hs|(n & x & Hx & Hs)]; rewrite Hs in Hg; [by eapply Hold|].
    destruct (decide (code = is_code i)) as [->|Hne].
    2:{ apply codes_get_set_other in Hg; [by eapply Hold|]. intros Heq%otcKey_inj. congruence. }
    apply codes_get_set_same in Hg as [[-> Hle2]|Hg].
    + exists i. split_and!; [apply elem_of_app; right; by left|done|
        by eapply UnprotectOTC_ProtectOTC|done|]. intros Hin. by apply Hf, Hused.
    + destruct (HC (is_code i) data t) as (j & Hj & Hji & _); [by rewrite <-Ht|done|].
      destruct Hf. simpl in Hji. rewrite <-Hji.
      by apply list_elem_of_fmap_2.
Qed.

(** A code was exchanged, or its exchange failed. *)
Lemma trace_ok_exchange L I U s code v :
  trace_ok L I U s -> trace_ok L I (U ++ exchanged code v s) (ExchangeCode code v s).2.
Proof.
  intros Hok. pose proof (ExchangeCode_state code v s) as (Ht & Hd & Hc). cbv zeta in *.
  unfold exchanged. destruct (ExchangeCode code v s) as [[tok|e] s'] eqn:E; simpl in *.
  - pose proof (ExchangeCode_ok _ _ _ _ _ E)
      as (data & otc & Hg & _ & _ & Hu & Hv & Hch & -> & Hdel & Hc').
    destruct Hok as (HL & HI & HN & HNU & HU & HC).
    destruct (HC code data _ (Z.le_refl _) Hg) as (i & Hi & <- & Hu2 & Hle & Hn).
    rewrite Hu2 in Hu. injection Hu as <-. simpl in Hch.
    pose proof (proj1 (Forall_forall _ _) HI i Hi) as (_ & Hti & _ & _ & p & Hp).
    pose proof (proj1 (Forall_forall _ _) HL _ Hp) as (_ & _ & _ & Hm). simpl in Hm.
    split_and!; try done.
    + eapply Forall_impl; [exact HI|]. intros j. unfold issued_ok. by rewrite Ht, Hd.
    + rewrite fmap_app. apply NoDup_app. split_and!; [done| |by apply NoDup_singleton].
      by intros c Hc0 ->%list_elem_of_singleton.
    + apply Forall_app. split; [done|]. apply Forall_singleton. exists i. split; [done|].
      assert (st_CodeChallenge (is_state i) = SHA256Base64 v) as Hs.
      { case_bool_decide as Hb; [done|]. destruct Hm as [Hm|Hm]; congruence. }
      split_and!; simpl; try done. rewrite Hs. apply SHA256Base64_nonempty.
    + intros c data' t' Hle' Hg'. rewrite Hc' in Hg'. rewrite Ht in Hle'.
      destruct (decide (c = is_code i)) as [->|Hne].
      { by rewrite codes_get_delete_same in Hg'. }
      apply codes_get_delete in Hg'.
      destruct (HC c data' t' Hle' Hg') as (j & Hj & Hjc & Hju & Hjt & Hjn).
      exists j. split_and!; try done. rewrite fmap_app. intros [Hin|Hin]%elem_of_app; [done|].
      by apply list_elem_of_singleton in Hin.
  - rewrite app_nil_r. destruct Hok as (HL & HI & HN & HNU & HU & HC). split_and!; try done.
    + eapply Forall_impl; [exact HI|]. intros j. unfold issued_ok. by rewrite Ht, Hd.
    + intros c data t Hle Hg. rewrite Ht in Hle. destruct Hc as [Hc|Hc]; rewrite Hc in Hg;
        [|apply codes_get_delete in Hg]; by apply HC.
Qed.
End trace.
