(* ===== verification/OAuthClaims.v ===== *)
(** The promises of OAuth sign-in: a one-time code gives its token once, in
    time, to who started the flow; the answers go to redirect URIs the flow
    was allowed to name; and who signs in is who the provider says. *)
From Stdlib Require Import ZArith Lia Ascii.
From stdpp Require Import base list gmap strings pretty.
From S2P Require Import Prelude GoStrings Xdb Roles Scopes Tenancy Grants Authorizer Methods Access Model Query Sql CaDb Pbconv RowPb TenantScope OrgQuery OrgDb OrgsService SignIn ApiKeys OrgInv OrgInvites OrgLogin OrgSignIn Lru OcspText UrlText OAuth OAuthCallback OAuthSession OAuthTrace.

Section claims.
Context `{XL : Xdb, LM : XdbLimits, UC : Unicode, CO : Collation, IG : IdGen, RA : Random}.
Context `{CA : Cache, PO : Porto, PC : ProfileCodec, LR : LRU, OL : OAuthLib, CC : CodeCache}.
Context {RL : @RandomLaws RA} {OLL : @OAuthLaws OL} {CCL : @CodeCacheLaws CC}.
Variable cfg : AuthConfig.
Variable BaseURL : option URL.

(** ** Histories keep the invariant *)

Lemma AuthorizeHandler_effect r s : draws_only s (AuthorizeHandler cfg r s).2.
Proof.
  unfold AuthorizeHandler, resetAuthCookie, authorizeURL, bind, hbind, bind.
  pose proof (cookies_for_draws cfg EmptyString (-1)%Z s) as H1.
  destruct (cookies_for _ _ _ s) as [[c|e] s1]; [|done]. simpl in H1.
  pose proof (draws_only_steady _ s1 (fun c n t => steady_startFlow cfg c n t r)) as H2.
  destruct (startFlow _ _ s1) as [[[e|f]|e] s2]; simpl in H2 |- *;
    [by eapply draws_only_trans| |by eapply draws_only_trans].
  assert (draws_only s2 (auth_draw s2).2) as H3.
  { unfold draws_only. simpl. split_and!; [done|lia|done]. }
  unfold auth_draw. simpl in *.
  destruct (ProtectState _ _); simpl; (eapply draws_only_trans; [exact H1|]);
    by eapply draws_only_trans.
Qed.

Lemma protected_ok r s : Forall (fun f => flow_ok cfg f.2) (protected cfg r s).
Proof.
  unfold protected. destruct (startFlow _ _ _) as [[[e|f]|e] s1] eqn:E; [constructor| |constructor].
  destruct (ProtectState _ _); [|constructor]. apply Forall_singleton. simpl.
  by eapply startFlow_ok.
Qed.

Lemma trace_inv L I U s : auth_trace cfg BaseURL L I U s -> trace_ok cfg L I U s.
Proof.
  induction 1 as [o c emails k Hc|L I U s r _ IH|L I U s ctx idp r _ IH Huf
    |L I U s code v _ IH|L I U s email _ IH|L I U s o _ IH Ht].
  - split_and!; try constructor. intros code data t _ Hg. simpl in Hg. by rewrite Hc in Hg.
  - pose proof (AuthorizeHandler_effect r s) as (Hc & Hd & Ht).
    eapply trace_ok_later; [exact IH|..]; try done; [|  |lia].
    + intros x Hx. apply elem_of_app. by left.
    + apply Forall_app. split; [apply IH|apply protected_ok].
  - destruct (CallbackHandler_effect cfg BaseURL ctx idp r s)
      as [[(Hc & Hd & Ht) ->]|(param & st & tok & s1 & Hp & Hu & Hage & Hr & Hd & Hs & ->)].
    + rewrite app_nil_r. eapply trace_ok_later; [exact IH|..]; try done; [apply IH|lia].
    + eapply trace_ok_issue; [exact IH|exact Hd|exact Hs|by apply Huf|done|done].
  - by apply trace_ok_exchange.
  - assert (draws_only s (GetProviders cfg email s).2) as (Hc & Hd & Ht).
    { apply draws_only_steady. intros c n t. unfold GetProviders, providersFor.
      h_preserves. apply steady_AuthProviderForEmail. }
    eapply trace_ok_later; [exact IH|..]; try done; [apply IH|lia].
  - eapply trace_ok_later; [exact IH|..]; try done. apply IH.
Qed.

(** The exchange was of a code drawn for a sign-in that completed, in time, a
    flow of this service with a code response. *)
Definition code_earned (L : list (string * State)) (I : list Issued) (u : Used) : Prop :=
  exists i p, i ∈ I /\ used_for u i /\ (p, is_state i) ∈ L /\ flow_ok cfg (is_state i) /\
    (is_time i - time_Unix (st_IssuedAt (is_state i)) <= stateMaxAge)%Z /\
    st_ResponseType (is_state i) = OAuthResponseTypeCode.

(** C10: in any history of the service, in which nobody forges the protected
    state of a flow, every exchange of a one-time code that succeeds gives the
    token that was signed for the sign-in the code was drawn for; the sign-in
    completed a flow of this service, at most five minutes after the flow
    started, whose redirect URI was allowed and whose client is [trustyca];
    the exchange is at most 30 seconds after the sign-in; and the verifier is
    the one whose S256 hash the flow was started with: a flow without a
    challenge, or with a plain one, never gives a token for its code. *)
Theorem code_flow_sound L I U s u :
  auth_trace cfg BaseURL L I U s -> u ∈ U -> code_earned L I u.
Proof.
  intros (HL & HI & _ & _ & HU & _)%trace_inv Hu.
  destruct (proj1 (Forall_forall _ _) HU u Hu) as (i & Hi & Hui).
  destruct (proj1 (Forall_forall _ _) HI i Hi) as (_ & _ & Hage & Hr & p & Hp).
  exists i, p. split_and!; try done. exact (proj1 (Forall_forall _ _) HL _ Hp).
Qed.

(** An attempt that removes the code leaves nothing to exchange. *)
Lemma attempt_burns code v w s :
  (codes_Delete (as_codes s) (otcKey code)).1 = Ok tt -> v <> EmptyString ->
  exists e, (ExchangeCode code w (ExchangeCode code v s).2).1 = Err e.
Proof.
  intros Hdel Hv. destruct (ExchangeCode code w _) as [[tok|e] s'] eqn:E; [|by exists e].
  exfalso. apply ExchangeCode_ok in E as (data & otc & Hg & Hd & Hc & _).
  destruct (ExchangeCode_state code v s) as (Ht & _). rewrite Ht in Hg.
  destruct (ExchangeCode_attempt code v s Hc Hv) as [[Hs Hn]|Hs]; rewrite Hs in Hg.
  - by apply Hd, Hn.
  - by rewrite codes_get_delete_same in Hg.
Qed.

(** After an attempt with the verifier [v] no attempt succeeds. *)
Definition used_up (s : AuthState) (code v : string) : Prop :=
  forall w, exists e, (ExchangeCode code w (ExchangeCode code v s).2).1 = Err e.

(** C11: a one-time code is exchanged at most once in any history; and an
    attempt with a verifier, right or wrong, uses the code up: no attempt
    after it succeeds, unless the cache failed to remove the code. *)
Theorem codes_used_once L I U s :
  auth_trace cfg BaseURL L I U s -> NoDup (ue_code <$> U) /\
  forall code v, v <> EmptyString -> (codes_Delete (as_codes s) (otcKey code)).1 = Ok tt ->
    used_up s code v.
Proof.
  intros Ht%trace_inv. split; [apply Ht|]. intros code v Hv Hdel w. by apply attempt_burns.
Qed.

(** ** The answer of a callback *)

(** What a client learns of a failure: an error code of RFC 6749, and the
    message of the error, or the text of its status when the server failed. *)
Definition failure_answer (vals : Values) : Prop :=
  exists e c d, vals = <[OAuthParamError := [c]]> {[OAuthParamErrorDescription := [d]]} /\
    c ∈ oauthErrorCodes /\
    d = if (500 <=? he_HTTPStatus e)%Z then StatusText (he_HTTPStatus e) else he_Message e.

Lemma oauthErrorValues_answer e : failure_answer (oauthErrorValues e).
Proof.
  exists e, (oauthErrorCode e). eexists. split_and!; [done| |done]. unfold oauthErrorCode.
  repeat case_match; try (by repeat constructor).
  match goal with HH : bool_decide _ = true |- _ => by apply bool_decide_eq_true in HH end.
Qed.

(** A cookie of a session: the token, which no script of the browser reads,
    or a random text against forged requests. *)
Definition session_cookie (tok : string) (c : Cookie) : Prop :=
  co_Secure c = true /\
  (co_HttpOnly c = true /\ co_Value c = tok /\ co_Name c = ck_Auth (ac_Cookies cfg) \/
   co_Name c = ck_CSRF (ac_Cookies cfg) /\ exists k, co_Value c = random_string k 32).

(** What a client learns of a sign-in, by the response type of its flow: the
    token; a cookie it cannot read, and the name of the CSRF cookie; or a
    one-time code. *)
Definition session_answer (st : State) (tok : string) (cookies : list Cookie) (vals : Values)
  : Prop :=
  let seconds := pretty (tokenValidity st / 1000)%Z in
  (st_ResponseType st = OAuthResponseTypeToken /\ cookies = [] /\
   vals = <[OAuthResponseTypeToken := [tok]]> {["expires_in"%string := [seconds]]}) \/
  (st_ResponseType st = OAuthResponseTypeCookie /\
   dom vals ⊆ {["expires_in"; "cookie_set"; "csrf"]}%string /\
   (forall l, vals !! "csrf"%string = Some l -> l = [ck_CSRF (ac_Cookies cfg)]) /\
   vals !! "expires_in"%string = Some [seconds] /\
   Forall (session_cookie tok) cookies) \/
  (st_ResponseType st = OAuthResponseTypeCode /\ cookies = [] /\
   exists otc, vals = <[OAuthResponseTypeCode := [otc]]>
                        {["expires_in"%string := [pretty DefaultOTCSeconds]]}).

Lemma cookies_for_spec tok age s cookies s' : cookies_for cfg tok age s = (Ok cookies, s') ->
  Forall (session_cookie tok) cookies.
Proof.
  unfold cookies_for. set (auth := if bool_decide (ck_Auth _ = _) then _ else _). intros E.
  assert (Forall (session_cookie tok) auth) as Ha.
  { unfold auth. clear E. case_bool_decide; [constructor|]. apply Forall_singleton.
    split; [done|by left]. }
  destruct (bool_decide (ck_CSRF _ = _)); [by injection E as <- _|].
  apply bind_ok in E as (csrf & s1 & E1 & E). injection E as <- _.
  apply Forall_app. split; [done|]. apply Forall_singleton. split; [done|right].
  split; [done|]. unfold auth_RandomString, bind, auth_draw, ret in E1.
  injection E1 as <- _. by exists (as_draws s).
Qed.

Lemma answerToken_spec st tok s cookies vals s' :
  knownResponseType (st_ResponseType st) = true ->
  answerToken cfg st tok EmptyString (tokenValidity st) s = (Ok (inr (cookies, vals)), s') ->
  session_answer st tok cookies vals.
Proof.
  unfold knownResponseType. rewrite bool_decide_eq_true, !elem_of_cons.
  intros Hk E. unfold answerToken in E. cbv zeta in E.
  destruct (decide (st_ResponseType st = OAuthResponseTypeCookie)) as [Hc|Hc].
  { rewrite bool_decide_true in E by done. apply bind_ok in E as (ck & s1 & E1 & E).
    apply hret_ok in E as [[= <- <-] _]. apply cookies_for_spec in E1.
    right. left. case_bool_decide as Hcsrf; split_and!; try done;
      rewrite ?dom_insert_L, ?dom_singleton_L; try set_solver;
      intros l; rewrite lookup_insert_eq; by intros [= <-]. }
  rewrite (bool_decide_false (_ = OAuthResponseTypeCookie)) in E by done.
  destruct (decide (st_ResponseType st = OAuthResponseTypeCode)) as [Hd|Hd].
  - rewrite bool_decide_true in E by done. apply bind_ok in E as (otc & s1 & _ & E).
    apply bind_ok in E as (n & s2 & _ & E). destruct (ProtectOTC _ _) as [data|]; [|done].
    apply bind_ok in E as (t & s3 & _ & E). unfold catch in E.
    destruct (codes_call _ s3) as [[u|e] s4]; [|done]. apply hret_ok in E as [[= <- <-] _].
    right. right. split_and!; [done..|]. by exists otc.
  - rewrite bool_decide_false in E by done. simpl in E. apply hret_ok in E as [[= <- <-] _].
    left. rewrite elem_of_nil in Hk. naive_solver.
Qed.

Ltac answering := repeat answers_step; try (by intros ?; eexists _, _).

Lemma responds_AuthProviderForEmail email : responds (AuthProviderForEmail cfg email).
Proof. unfold AuthProviderForEmail, isEmailAllowedLogin. answering. Qed.

Lemma responds_flow ctx idp cb code e d st :
  responds (checkCallback code e d st ;^ handleToken cfg BaseURL ctx idp cb code EmptyString st).
Proof.
  unfold checkCallback, handleToken, signInToken, providerOf, answerToken, setAuthCookie,
    cookies_for, auth_RandomString.
  answering; apply responds_AuthProviderForEmail.
Qed.

(** An error on the callback page without a cookie, or an answer on the
    redirect URI of a flow that was allowed to name it. *)
Definition callback_answer (L : list (string * State)) (s : AuthState) (ctx : Context)
    (idp : Idp) (r : CallbackRequest) (resp : response) : Prop :=
  (exists e, resp = mkResponse [] (ReplyError e)) \/
  exists p st vals, (p, st) ∈ L /\ flow_ok cfg st /\
    rp_reply resp = writeOauthResponse st vals /\
    (rp_cookies resp = [] /\ failure_answer vals \/
     exists tok s1, signedIn cfg BaseURL ctx idp r s = (Ok (Some (st, tok)), s1) /\
       session_answer st tok (rp_cookies resp) vals).

(** C12: a callback is always answered; and in any history in which nobody
    forges the state of a flow, it either gets an error on the callback page,
    without a cookie, or is answered on the redirect URI that a flow of this
    service was started with and was allowed to name, in the response mode of
    the flow.  The answer is an error of RFC 6749, described by its status
    alone when the server failed, or that of a sign-in the callback
    completed: the token goes to the client only in a flow that asked for it,
    and into secure cookies no script reads in a cookie flow. *)
Theorem callback_answers_on_redirect L I U s ctx idp r :
  auth_trace cfg BaseURL L I U s -> unforged L r ->
  exists resp s', CallbackHandler cfg BaseURL ctx idp r s = (Ok resp, s') /\
    callback_answer L s ctx idp r resp.
Proof.
  intros (HL & _)%trace_inv Huf. unfold callback_answer, CallbackHandler, signedIn.
  destruct (callbackParams r) as [param|] eqn:Ep; [|eexists _, s; split; [done|left; by eexists]].
  unfold callbackState. case_bool_decide; [eexists _, s; split; [done|left; by eexists]|].
  destruct (UnprotectState _) as [st|e] eqn:Eu; [|eexists _, s; split; [done|left; by eexists]].
  pose proof (Huf param st Ep Eu) as Hin.
  pose proof (proj1 (Forall_forall _ _) HL _ Hin) as Hf. simpl in Hf.
  set (m := checkCallback _ _ _ st) in *. set (code := param "code"%string) in *.
  destruct (responds_flow ctx idp (cb_callbackURL r) code (param OAuthParamError)
    (param OAuthParamErrorDescription) st s) as (answer & s' & E). fold m in E.
  unfold bind. rewrite E.
  destruct answer as [e|[cookies vals]]; eexists _, s'; (split; [done|right]);
    exists (param "state"%string), st; eexists; (split_and!; [done|done|done|]); simpl.
  - left. split; [done|apply oauthErrorValues_answer].
  - right. apply hbind_ok in E as (u & s0 & Em & E).
    pose proof (checkCallback_ok _ _ _ _ _ _ _ Em) as (_ & _ & Hk).
    unfold handleToken in E. apply hbind_ok in E as ([[tok usr] sel] & s1 & E1 & E).
    apply hbind_ok in E as ([ck vs] & s2 & E2 & E).
    apply bind_ok in E as (u3 & s3 & _ & E). apply hret_ok in E as [[= -> ->] _].
    exists tok, s1. split; [|by eapply answerToken_spec].
    unfold hbind, bind. by rewrite Em, E1.
Qed.

(** What a client reads of the values from the answer. *)
Definition reads_back (st : State) (vals : Values) (answer : reply) : Prop :=
  match answer with
  | ReplyRedirect location =>
      (exists u raw, url_Parse (st_RedirectURL st) = Some u /\
         location = url_String (url_set_RawQuery raw u) /\
         ParseQuery raw = vals ∪ ParseQuery (url_RawQuery u)) \/
      (exists base raw rest, st_RedirectURL st = (base ++ rest)%string /\ no_char "#" base /\
         (rest = EmptyString \/ exists frag, rest = String "#" frag) /\
         location = (base ++ "#" ++ raw)%string /\ ParseQuery raw = vals)
  | ReplyForm action posted => action = st_RedirectURL st /\ posted = vals
  | ReplyError _ => url_Parse (st_RedirectURL st) = None
  end.

(** A client reads from its redirect URI exactly the parameters of the
    answer: in the query, over the parameters the redirect URI has of its
    own; in the fragment, which replaces the fragment of the redirect URI; or
    in the form posted to it. *)
Theorem redirect_answer_read_back st vals :
  has_values vals -> reads_back st vals (writeOauthResponse st vals).
Proof.
  intros Hv. unfold reads_back, writeOauthResponse.
  destruct (_ || _); [|destruct (bool_decide _); [|done]].
  - destruct (url_Parse _) as [u|]; [left|done]. eexists u, _. split_and!; [done..|].
    apply ParseQuery_Encode, has_values_union; [done|apply ParseQuery_has_values].
  - right. destruct (Cut_spec "#" (st_RedirectURL st)) as (rest & Hr & Hn & Hc).
    eexists _, _, rest. split_and!; try done. by apply ParseQuery_Encode.
Qed.

(** ** Who signs in *)

(** GitHub vouches for the address of the token. *)
Definition github_verified (idp : Idp) (token : idp_Token) (email : string) : Prop :=
  exists url body emails e,
    retarget BaseURL "https://api.github.com/user/emails" = Some url /\
    idp_Get idp url (tk_AccessToken token) = Answer 200 (Ok body) /\
    json_Emails body = Some emails /\ e ∈ emails /\ ge_Verified e = true /\
    HasSuffix (ToLower (ge_Email e)) githubNoReplyDomain = false /\
    email = ToLower (ge_Email e).

(** The userinfo the provider answers for the token names the address.  Its
    [email_verified] is not read, as the code does not read it: the address
    may be one the provider never verified.  Without an address in the
    userinfo, GitHub's list of verified ones names it. *)
Definition provider_names (idp : Idp) (p : IDP_Enum) (cl : ClientConfig) (token : idp_Token)
    (email : string) : Prop :=
  exists url body claims,
    retarget BaseURL (cc_UserinfoURL cl) = Some url /\
    idp_Get idp url (tk_AccessToken token) = Answer 200 (Ok body) /\
    json_Claims body = Some claims /\
    (email = ToLower (claim_String claims "email") \/
     p = IDP_Github /\ ToLower (claim_String claims "email") = EmptyString /\
     github_verified idp token email).

(** The address is the one the provider names for the valid token it
    exchanged for the code; on a local instance the flow names it. *)
Definition flow_email (idp : Idp) (callbackURL code : string) (st : State) (t : Z)
    (email : string) : Prop :=
  email <> EmptyString /\
  (st_Email st <> EmptyString -> EqualFoldText email (st_Email st) = true) /\
  if bool_decide (st_Provider st = IDP_Local) then
    IsLocal cfg = true /\
    email = if bool_decide (st_Email st = EmptyString) then iu_Email localUser else st_Email st
  else exists prov token,
    (AuthProvider cfg (st_Provider st) = inr prov \/
     (exists e, AuthProvider cfg (st_Provider st) = inl e) /\ st_Email st <> EmptyString) /\
    idp_Exchange idp (mkOauth2 (cc_ClientID prov) (cc_ClientSecret prov) callbackURL
      (cc_Scopes prov) (cc_AuthURL prov) (cc_TokenURL prov)) code = Ok token /\
    Token_Valid t token = true /\ provider_names idp (st_Provider st) prov token email.

Lemma pickEmail_verified emails fallback email :
  pickEmail fallback emails = email -> email <> EmptyString ->
  email = fallback \/ exists e, e ∈ emails /\ usable_email e = true /\ email = ToLower (ge_Email e).
Proof.
  revert fallback. induction emails as [|e emails IH]; intros fallback; simpl;
    [by intros <-; left|].
  assert (forall f, pickEmail f emails = email -> email <> EmptyString ->
    (f = fallback \/ usable_email e = true /\ f = ToLower (ge_Email e)) ->
    email = fallback \/ exists x, x ∈ e :: emails /\ usable_email x = true /\
                                  email = ToLower (ge_Email x)) as Hrest.
  { intros f Hp Hne Hf. destruct (IH f Hp Hne) as [->|(x & Hx & ?)].
    - destruct Hf as [->|[Hu ->]]; [by left|right; exists e; by split_and!; [left|..]].
    - right. exists x. by split; [right|]. }
  destruct (usable_email e) eqn:Hu; simpl; [|intros; eapply Hrest; eauto].
  destruct (ge_Primary e).
  - intros <- Hne. right. exists e. by split_and!; [left|..].
  - intros Hp Hne. eapply Hrest; [exact Hp|done|]. case_bool_decide; [by right|by left].
Qed.

Lemma getGithubEmail_ok idp token email :
  getGithubEmail BaseURL idp token = Ok email -> email <> EmptyString ->
  github_verified idp token email.
Proof.
  unfold getGithubEmail. destruct (retarget _ _) as [url|] eqn:Er; [|done].
  destruct (idp_Get _ _ _) as [|  |status [body|]] eqn:Eg; [done..| |done].
  destruct (status =? 200)%Z eqn:Es; [|done]. apply Z.eqb_eq in Es as ->.
  simpl. destruct (json_Emails body) as [emails|] eqn:Ej; [|done].
  intros [= Hp] Hne. apply pickEmail_verified in Hp as [|(e & He & Hu & ->)]; [done| |done].
  apply andb_true_iff in Hu as [Hv Hn%negb_true_iff].
  by exists url, body, emails, e.
Qed.

Lemma GetUserInfo_ok p cl idp token ui claims :
  p <> IDP_Local -> GetUserInfo BaseURL p cl idp token = inr (ui, claims) ->
  iu_Email ui <> EmptyString /\ provider_names idp p cl token (iu_Email ui).
Proof.
  intros Hp. unfold GetUserInfo. rewrite bool_decide_false by done.
  destruct (idpClaims BaseURL cl idp token) as [e|res] eqn:Ec; [done|].
  unfold idpClaims in Ec. destruct (retarget _ _) as [url|] eqn:Er; [|done].
  destruct (idp_Get _ _ _) as [| |status [body|]] eqn:Eg; [done..| |done].
  destruct (status =? 200)%Z eqn:Es; [|done]. apply Z.eqb_eq in Es as ->. simpl in Ec.
  destruct (json_Claims body) as [cs|] eqn:Ej; [|done]. injection Ec as ->.
  set (u := if bool_decide (p = IDP_Github) && _ then _ else _). intros E.
  assert (iu_Email ui = iu_Email u /\ iu_Email ui <> EmptyString) as [-> Hne].
  { destruct (bool_decide (iu_Email u = _)) eqn:Hb; [done|].
    apply bool_decide_eq_false in Hb.
    destruct (bool_decide (_ = EmptyString)) in E; [done|]. by injection E as <- _. }
  split; [done|]. exists url, body, res. split_and!; try done. clear E.
  subst u. destruct (bool_decide (p = IDP_Github) && _) eqn:Hg; [|by left].
  apply andb_true_iff in Hg as [Hg%bool_decide_eq_true Hem%bool_decide_eq_true].
  unfold withGithubEmail in *. destruct (getGithubEmail _ _ _) as [email|e] eqn:Eg2; [|by left].
  case_bool_decide as Hb; [by left|]. right. split_and!; [done..|].
  by apply getGithubEmail_ok.
Qed.

(** A userinfo whose [email_verified] is false is accepted, where the doc of
    [GetUserInfo] refuses a user without a verified email. *)
Theorem unverified_address_accepted p cl idp token res :
  p <> IDP_Local -> idpClaims BaseURL cl idp token = inr res ->
  claim_Bool res "email_verified" = false ->
  iu_Email (userOf res) <> EmptyString -> iu_Name (userOf res) <> EmptyString ->
  GetUserInfo BaseURL p cl idp token = inr (userOf res, Some res) /\
  iu_EmailVerified (userOf res) = false.
Proof.
  intros Hp Hc Hv He Hn. unfold GetUserInfo. rewrite bool_decide_false, Hc by done.
  rewrite (bool_decide_false (iu_Email (userOf res) = _)), andb_false_r by done.
  cbv zeta beta iota. by rewrite (bool_decide_false _ He), !(bool_decide_false _ Hn).
Qed.

Lemma db_AuthProviderForEmail d email :
  preserves (fun s => os_db (as_os s) = d) (AuthProviderForEmail cfg email).
Proof.
  assert (forall X (m : M ODb X), (forall d, (m d).2 = d) ->
    preserves (fun s => os_db (as_os s) = d) (on_os (in_odb m))) as Hread.
  { intros X m Hm s Hs. unfold on_os, in_odb. specialize (Hm (os_db (as_os s))).
    destruct (m (os_db (as_os s))) as [r d']. simpl in *. congruence. }
  unfold AuthProviderForEmail, isEmailAllowedLogin. h_preserves; try (by intros s);
    apply Hread; intros x; try done.
  unfold Provider_GetUserByEmail, onot_found, catch, oselect. by case_match.
Qed.

Lemma providerOf_ok st s prov s' : providerOf cfg st s = (Ok (inr prov), s') ->
  os_db (as_os s') = os_db (as_os s) /\
  (AuthProvider cfg (st_Provider st) = inr prov \/
   (exists e, AuthProvider cfg (st_Provider st) = inl e) /\ st_Email st <> EmptyString).
Proof.
  unfold providerOf. destruct (AuthProvider _ _) as [e|p].
  2:{ intros [[= ->] ->]%hret_ok. by split; [|left]. }
  case_bool_decide as Hb; [done|]. intros E. split; [|right; by split; [exists e|]].
  apply bind_ok in E as ([e2|p2] & s1 & E1 & E); [done|]. apply hret_ok in E as [_ ->].
  pose proof (db_AuthProviderForEmail _ (st_Email st) s eq_refl) as Hd.
  by rewrite E1 in Hd.
Qed.

Lemma signedInUser_ok idp st prov token t cb code ui claims :
  (AuthProvider cfg (st_Provider st) = inr prov \/
   (exists e, AuthProvider cfg (st_Provider st) = inl e) /\ st_Email st <> EmptyString) ->
  exchangeToken cfg idp st prov cb code t = inr token ->
  signedInUser BaseURL idp st prov token = inr (ui, claims) ->
  flow_email idp cb code st t (iu_Email ui).
Proof.
  intros Hprov Hx E. unfold exchangeToken in Hx. unfold signedInUser in E.
  destruct (GetUserInfo _ _ _ _ _) as [e|[ui0 c0]] eqn:Eg; [done|].
  set (ui1 := if bool_decide (st_Provider st = IDP_Local) && _ then _ else _) in E.
  destruct (negb _ && negb _) eqn:Em; [done|]. injection E as <- <-.
  assert (st_Email st <> EmptyString -> EqualFoldText (iu_Email ui1) (st_Email st) = true)
    as Hfold.
  { intros Hne. rewrite bool_decide_false in Em by done. cbn [negb andb] in Em.
    by apply negb_false_iff in Em. }
  unfold flow_email. destruct (decide (st_Provider st = IDP_Local)) as [Hl|Hl].
  - rewrite bool_decide_true in Hx by done. destruct (IsLocal cfg) eqn:Hloc; [|done].
    subst ui1. rewrite Hl in *. unfold GetUserInfo in Eg. simpl in Eg.
    injection Eg as <- <-. rewrite bool_decide_true in * by done. cbn [andb] in *.
    destruct (decide (st_Email st = EmptyString)) as [Hm|Hm].
    + rewrite bool_decide_true in * by done. cbn [negb] in *. by split_and!.
    + rewrite bool_decide_false in * by done. cbn [negb] in *. by split_and!.
  - rewrite bool_decide_false in Hx by done. subst ui1.
    rewrite (bool_decide_false (st_Provider st = IDP_Local)) in * by done. cbn [andb] in *.
    destruct (GetUserInfo_ok _ _ _ _ _ _ Hl Eg) as [Hne Hs]. split_and!; [done..|].
    destruct (idp_Exchange _ _ _) as [tk|e] eqn:Ex; [|done].
    destruct (Token_Valid t tk) eqn:Ev; [|done]. injection Hx as ->.
    by exists prov, token.
Qed.

(** ** The claims of the token *)

Lemma text_claim_other n v c k : n <> k -> text_claim n v c !! k = c !! k.
Proof. intros Hne. unfold text_claim. case_bool_decide; [done|]. by rewrite lookup_insert_ne. Qed.

Lemma claimsFromUserInfo_other ui c k : k ∉ ["sub"; "name"; "email"; "email_verified"]%string ->
  claimsFromUserInfo ui c !! k = c !! k.
Proof.
  intros Hk. rewrite !not_elem_of_cons in Hk. destruct Hk as (? & ? & ? & ? & _).
  unfold claimsFromUserInfo. destruct (iu_EmailVerified ui);
    rewrite ?lookup_insert_ne, !text_claim_other by congruence; done.
Qed.

Lemma loginClaims_email st jti t token ic ui : iu_Email ui <> EmptyString ->
  let c := loginClaims cfg st jti t token ic ui in
  c !! "email"%string = Some (ClaimText (iu_Email ui)) /\
  c !! claimProvider = Some (ClaimText (IDP_String (st_Provider st))).
Proof.
  intros Hne c. subst c. unfold loginClaims. cbv zeta.
  set (base := if (tk_Expiry token =? 0)%Z then _ else _).
  assert (base !! claimProvider = Some (ClaimText (IDP_String (st_Provider st)))) as Hb.
  { subst base. destruct (tk_Expiry token =? 0)%Z, ic as [ic|];
      repeat first [rewrite lookup_insert_eq|rewrite lookup_insert_ne by done
                   |rewrite text_claim_other by done]; done. }
  assert (forall k, k ∉ ["aud"; "nonce"; "cnf"; "iat"; "exp"; "nbf"]%string ->
    forall c : MapClaims, (let c := text_claim "nonce" (st_Nonce st)
      (text_claim "aud" (getAudience cfg (negb (bool_decide (st_DPoPJwk st = EmptyString))))
        (SetClaimsExpiration t (tokenValidity st) c)) in
      if negb (bool_decide (st_DPoPJwk st = EmptyString))
      then SetCnfClaim (st_DPoPJwk st) c else c) !! k = c !! k) as Hout.
  { intros k Hk c. rewrite !not_elem_of_cons in Hk. destruct Hk as (? & ? & ? & ? & ? & ? & _).
    cbv zeta. destruct (negb _); rewrite ?SetCnfClaim_other, !text_claim_other by congruence;
      (apply SetClaimsExpiration_other; set_solver). }
  cbv zeta in Hout. split; rewrite Hout by set_solver.
  - assert (forall c, text_claim "email" (iu_Email ui) c !! "email"%string =
      Some (ClaimText (iu_Email ui))) as Ht.
    { intros c. unfold text_claim. rewrite bool_decide_false by done. apply lookup_insert_eq. }
    unfold claimsFromUserInfo. cbv zeta.
    destruct (iu_EmailVerified ui); [rewrite lookup_insert_ne by done|]; apply Ht.
  - by rewrite claimsFromUserInfo_other by (vm_compute; set_solver).
Qed.

Lemma setOrgClaims_other sel c k : k ∉ ["orgs"; ClaimOrg; ClaimOrgRole; ClaimOrgRoleSource]%string ->
  setOrgClaims sel c !! k = c !! k.
Proof.
  intros Hk. rewrite !not_elem_of_cons in Hk. destruct Hk as (? & ? & ? & ? & _).
  unfold setOrgClaims. destruct sel as [o|]; [destruct (sl_OrgID o =? 0)%Z|];
    by rewrite ?lookup_insert_ne, !lookup_delete_ne by congruence.
Qed.

Lemma setOrgClaims_org sel c v : setOrgClaims sel c !! ClaimOrg = Some v ->
  exists o, sel = Some o /\ v = ClaimText (id_string (sl_OrgID o)) /\
    setOrgClaims sel c !! ClaimOrgRole = Some (ClaimText (Role_String (sl_Role o))).
Proof.
  unfold setOrgClaims. destruct sel as [o|]; [destruct (sl_OrgID o =? 0)%Z|];
    rewrite ?lookup_delete_eq; [done| |done].
  rewrite !lookup_insert_ne, lookup_insert_eq by done. intros [= <-]. exists o.
  split_and!; [done..|]. by rewrite lookup_insert_ne, lookup_insert_eq.
Qed.

Context `{TL : TimeLib, KC : KeyCrypto, JS : JwtSigner}.
Context {IGL : @IdGenLaws IG} {UL : @UnicodeLaws UC}.

(** C13: a sign-in that gives a token signs in the user of the address the
    flow yields: the one the userinfo of the provider of the flow names for
    the access token the provider exchanged for the code of the callback (or,
    when it names none, an address of GitHub's list that GitHub verified),
    and the one the flow was started with, if any; on a local instance the
    address the flow names.  Whether the provider verified the address its
    userinfo names is not asked ([unverified_address_accepted]).  The token
    names that user, the address and the provider, and no org but one in
    which the user has a grant, with the role of the grant. *)
Theorem sign_in_email_from_provider ctx idp cb code st s tok u sel s' :
  org_inv (os_db (as_os s)) ->
  signInToken cfg BaseURL ctx idp cb code st s = (Ok (inr (tok, u, sel)), s') ->
  exists email claims, flow_email idp cb code st (as_now s) email /\
    us_Email u = ToLower email /\ SignClaims claims = Ok tok /\
    claims !! "sub"%string = Some (ClaimText (id_string (us_ID u))) /\
    claims !! "email"%string = Some (ClaimText email) /\
    claims !! claimProvider = Some (ClaimText (IDP_String (st_Provider st))) /\
    forall v, claims !! ClaimOrg = Some v -> exists o,
      v = ClaimText (id_string (sl_OrgID o)) /\
      claims !! ClaimOrgRole = Some (ClaimText (Role_String (sl_Role o))) /\
      role_earned (os_db (as_os s')) u o.
Proof.
  intros Hs E. unfold signInToken in E.
  apply hbind_ok in E as (prov & s1 & E1 & E).
  pose proof (steady_providerOf cfg _ _ _ st s (conj eq_refl (conj eq_refl eq_refl)))
    as (_ & _ & Ht). rewrite E1 in Ht. simpl in Ht.
  apply providerOf_ok in E1 as [Hd Hp].
  apply bind_ok in E as (t & s2 & [= <- <-] & E).
  apply hbind_ok in E as (token & s3 & [Hx ->]%hlift_ok & E).
  apply hbind_ok in E as ([ui ic] & s4 & [Hu ->]%hlift_ok & E).
  pose proof (signedInUser_ok _ _ _ _ _ _ _ _ _ Hp Hx Hu) as Hem. rewrite Ht in Hem.
  apply bind_ok in E as (jti & s5 & E5 & E). unfold on_os, in_odb in E5. simpl in E5.
  injection E5 as <- <-. unfold catch, on_os in E. simpl in E.
  set (o5 := mkOs _ _ _) in E. set (info := mkUserInfo _ _ _ _ _) in E.
  assert (org_inv (os_db o5)) as Ho.
  { apply org_inv_gen; [lia|]. by rewrite Hd. }
  pose proof (signIn_rows (ac_Orgs cfg) ctx info o5 Ho) as Hr.
  destruct (signIn _ _ info o5) as [[[u0 sel0]|e] o6]; [|done].
  destruct Hr as (Hue & _ & Hrole). destruct (SignClaims _) as [tk|e] eqn:Es; [|done].
  apply hret_ok in E as [[= -> -> ->] ->].
  pose proof (loginClaims_email st (id_string (flake (od_seq (os_db (as_os s1)))))
    (as_now s1) token ic ui (proj1 Hem)) as [Hc1 Hc2].
  eexists _, _. split_and!; [exact Hem|exact Hue|exact Es|..].
  - rewrite setOrgClaims_other by (vm_compute; set_solver). by rewrite lookup_insert_eq.
  - rewrite setOrgClaims_other by (vm_compute; set_solver). by rewrite lookup_insert_ne.
  - rewrite setOrgClaims_other by (vm_compute; set_solver). by rewrite lookup_insert_ne.
  - intros v (o & -> & -> & Hro)%setOrgClaims_org. exists o. split_and!; [done|exact Hro|].
    simpl. by apply Hrole.
Qed.

(** ** The switch of the org *)

Context `{SL : SessionLib}.

(** The claims the switch of the org writes. *)
Definition session_claims : list string :=
  ["orgs"; ClaimOrg; ClaimOrgRole; ClaimOrgRoleSource; "email"; "email_verified"; "name";
   "sub"; "role"]%string.

Lemma switchClaims_other u sel role c k :
  k ∉ session_claims -> switchClaims u sel role c !! k = c !! k.
Proof.
  intros Hk. unfold session_claims in Hk. rewrite !not_elem_of_cons in Hk.
  destruct Hk as (? & ? & ? & ? & ? & ? & ? & ? & ? & _). unfold switchClaims.
  rewrite !lookup_insert_ne by congruence. apply setOrgClaims_other.
  rewrite !not_elem_of_cons. by split_and!; [..|apply not_elem_of_nil].
Qed.

Lemma selectOrgToken_ok c org s res s' :
  org_inv (os_db (as_os s)) -> selectOrgToken c org s = (Ok res, s') ->
  exists u sel, let claims := switchClaims u sel (ca_Role c) (ca_claims c) in
    SignClaims claims = Ok (tb_AccessToken (ut_Token res)) /\
    us_ID u = tc_userID (FromContext (ca_ctx c)) /\ parse_id org = Some (sl_OrgID sel) /\
    role_earned (os_db (as_os s)) u sel /\ os_db (as_os s') = os_db (as_os s).
Proof.
  intros Hs. unfold selectOrgToken. intros ([u sel] & s1 & E1 & E)%bind_ok.
  unfold on_os in E1. destruct (selectOrgFor _ _ (as_os s)) as [[[u0 sel0]|e] o] eqn:Eo; [|done].
  injection E1 as <- <- <-.
  apply selectOrgFor_earned in Eo as (Hd & Hu & _ & Hp & Hr); [|done].
  destruct (SignClaims _) as [tok|e] eqn:Es; [|done].
  apply bind_ok in E as (u1 & s2 & E2 & E). injection E2 as _ <-. injection E as <- <-.
  exists u0, sel0. by split_and!.
Qed.

(** C14: a cookie session moves to another org only when its user has a grant
    there, with the role of the grant, and never sees a token: the answers of
    [SelectOrg], of the org switch over REST and of [GetUserToken] carry none,
    and the switch puts the new token into a secure cookie that no script
    reads, next to a new CSRF cookie.  The new token keeps every claim of the
    old one but those of the user and the org, so it expires when the old one
    does.  Nothing is written to the database. *)
Theorem cookie_session_switches_org c org remember s cookies res s' :
  org_inv (os_db (as_os s)) ->
  tc_authMethod (FromContext (ca_ctx c)) = MethodJWTCookie ->
  AuthOrgHandler cfg c org remember EmptyString s = (Ok (cookies, res), s') ->
  tb_AccessToken (ut_Token res) = EmptyString /\ os_db (as_os s') = os_db (as_os s) /\
  (forall r s1, SelectOrg c org s = (Ok r, s1) -> tb_AccessToken (ut_Token r) = EmptyString) /\
  (forall r s1, ca_AuthMethod c = MethodJWTCookie -> GetUserToken c s = (Ok r, s1) ->
                tb_AccessToken (ut_Token r) = EmptyString) /\
  exists u sel tok claims, SignClaims claims = Ok tok /\ Forall (session_cookie tok) cookies /\
    us_ID u = tc_userID (FromContext (ca_ctx c)) /\ parse_id org = Some (sl_OrgID sel) /\
    role_earned (os_db (as_os s)) u sel /\
    forall k, k ∉ session_claims -> claims !! k = ca_claims c !! k.
Proof.
  intros Hs Hm E. unfold AuthOrgHandler in E.
  apply bind_ok in E as (res0 & s1 & E1 & E).
  destruct (selectOrgToken_ok _ _ _ _ _ Hs E1) as (u & sel & Hsig & Hu & Hp & Hr & Hd).
  assert (cookie_session (ca_ctx c) = true) as Hc by by apply bool_decide_eq_true.
  apply bind_ok in E as (t & s2 & [= <- <-] & E).
  rewrite bool_decide_true, Hc in E by done. cbn [andb] in E.
  apply bind_ok in E as (ck & s3 & E3 & E). injection E as <- <- <-.
  unfold omitCookieAccessToken. rewrite Hc. cbn [bool_decide negb]. split_and!; [done| | | |].
  - rewrite <-Hd. unfold setAuthCookie, cookies_for in E3.
    destruct (bool_decide (ck_CSRF _ = _)); [by injection E3 as _ <-|].
    by injection E3 as _ <-.
  - intros r s4 E4. unfold SelectOrg in E4. apply bind_ok in E4 as (r1 & s5 & _ & E4).
    injection E4 as <- _. unfold omitCookieAccessToken. by rewrite Hc.
  - intros r s4 Hid E4. unfold GetUserToken in E4. destruct (claims_To _); [|done].
    injection E4 as <- _. simpl. by rewrite bool_decide_true.
  - exists u, sel, (tb_AccessToken (ut_Token res0)). eexists.
    split_and!; [exact Hsig|by eapply cookies_for_spec|done..|].
    intros k Hk. by apply switchClaims_other.
Qed.
End claims.
