(* ===== verification/OAuthExamples.v ===== *)
(** The theorems of OAuth sign-in at a concrete flow: a user of Google signs
    in with a one-time code, and a member of an org switches to it. *)
From Stdlib Require Import ZArith Lia Ascii.
From stdpp Require Import base list gmap strings pretty relations.
From S2P Require Import Prelude GoStrings Xdb Roles Scopes Tenancy Grants Authorizer Methods Access Model Query Sql CaDb CaDbClaims Pbconv RowPb TenantScope OrgQuery OrgDb OrgsService SignIn ApiKeys OrgInv OrgInvites OrgLogin OrgHistory OrgSignIn OrgClaims OrgExamples Lru OcspText UrlText OAuth OAuthCallback OAuthSession OAuthTrace OAuthClaims.

(** ** Libraries *)

#[export] Instance fresh_random : Random := {| random_string k n := pos_str (Pos.of_succ_nat k) |}.
#[export] Instance fresh_random_laws : RandomLaws.
Proof.
  intros j k E. apply (f_equal str_pos) in E. simpl in E. rewrite !str_pos_str in E.
  injection E. lia.
Qed.

#[export] Instance code_map : CodeCache := {|
  codes := gmap string (string * Z);
  codes_Get t c k := match c !! k with
                     | Some (v, e) => if (t <=? e)%Z then Some v else None
                     | None => None
                     end;
  codes_Set t c k v ttl := (Ok tt, <[k := (v, (t + ttl)%Z)]> c);
  codes_Delete c k := (Ok tt, delete k c) |}.
#[export] Instance code_map_laws : CodeCacheLaws.
Proof.
  constructor; simpl.
  - intros now t c k v ttl w. rewrite lookup_insert_eq.
    destruct (Z.leb_spec t (now + ttl)); [|done]. intros [= ->]. by left.
  - intros now t c k w Hle. destruct (c !! k) as [[v e]|]; [|done].
    destruct (Z.leb_spec t e), (Z.leb_spec now e); try done; lia.
  - intros now t c k k' v ttl w Hne. by rewrite lookup_insert_ne.
  - intros now c k _. by rewrite lookup_delete_eq.
  - intros now c k k' w. destruct (decide (k = k')) as [->|Hne];
      [by rewrite lookup_delete_eq|by rewrite lookup_delete_ne].
Qed.

Definition first_text (l : list string) : string :=
  default EmptyString (List.find (fun s => negb (bool_decide (s = EmptyString))) l).
Definition claim_text (c : MapClaims) (k : string) : string :=
  match c !! k with Some (ClaimText s) => s | _ => EmptyString end.

(** The state of the flow below, which its protected text stands for. *)
Definition example_state : State :=
  mkState "https://client" IDP_Google "" (Unix 1000) "trustyca" "" "openid email profile" ""
    "code" "query" "" [] "hverifier" "S256" false.

Definition otc_columns (x : OTCState) : string * Z * string * string :=
  (ot_Token x, ot_ExpiresIn x, ot_CodeChallenge x, ot_CodeChallengeMethod x).

#[export] Instance example_oauth : OAuthLib := {|
  URL := string * string;
  url_Parse s := Some (Cut "?" s);
  url_String u := (u.1 ++ "?" ++ u.2)%string;
  url_Hostname u := u.1;
  url_RawQuery u := u.2;
  url_set_RawQuery q u := (u.1, q);
  url_set_base base u := (base.1, u.2);
  GetValue := Values_Get;
  StringsCoalesce := first_text;
  NumbersCoalesce l := default 0%Z (List.find (fun n => negb (n =? 0)%Z) l);
  AuthCodeURL conf state opts := (oc_AuthURL conf ++ "?state=" ++ state)%string;
  Token_Valid t token := negb (bool_decide (tk_AccessToken token = EmptyString));
  SetCnfClaim j c := <["cnf"%string := ClaimJson j]> c;
  SetClaimsExpiration t v c := <["exp"%string := ClaimNum (t + v)]> c;
  claim_String := claim_text;
  claim_Bool c k := match c !! k with Some (ClaimFlag b) => b | _ => false end;
  JwtIssuer := "issuer";
  TokenExpiry := 0%Z;
  SignClaims c := Ok ("jwt:" ++ claim_text c "sub" ++ ":" ++ claim_text c "email")%string;
  ProtectState n st := Ok "s"%string;
  UnprotectState p := if bool_decide (p = "s"%string) then Ok example_state
                      else Err (OtherError "unprotect");
  ProtectOTC n x := Ok (pos_str (encode (otc_columns x)));
  UnprotectOTC p := match str_pos p ≫= decode with
                    | Some (t, e, c, m) => Ok (mkOTC t e c m)
                    | None => Err (OtherError "unprotect")
                    end;
  SHA256Base64 v := ("h" ++ v)%string;
  json_Claims body := Some (<["sub" := ClaimText "g1"]> (<["name" := ClaimText "Ann"]>
                      {["email" := ClaimText body]}))%string;
  json_Emails _ := None;
  Title s := s;
  he_Code _ := EmptyString;
  he_HTTPStatus e := match e with
                     | InvalidRequest _ _ | FromOAuth _ _ => 400
                     | Forbidden _ => 403
                     | _ => 500
                     end%Z;
  he_Message e := match e with
                  | InvalidRequest m _ | Forbidden m | Unexpected m _ | FromOAuth _ m => m
                  | FromGrpc e => Error e
                  end |}.
#[export] Instance example_oauth_laws : OAuthLaws.
Proof.
  constructor; simpl.
  - intros n [t e c m] p [= <-]. rewrite str_pos_str. simpl.
    by rewrite decode_encode.
  - done.
  - intros t v c k Hk. rewrite lookup_insert_ne; [done|]. set_solver.
  - intros j c k Hk. by rewrite lookup_insert_ne.
Qed.

(** ** A flow *)

Definition example_client : ClientConfig :=
  mkClient "google" "id" "secret" "https://idp/auth" "https://idp/token"
    "https://idp/userinfo" ["openid"%string] None.
Definition example_auth_config : AuthConfig :=
  mkAuthConfig "prod" "main" "" ["https://client"%string] [] None (mkCookies "at" "" "")
    (mkOrgsConfig "" "")
    (mkRegistry (fun p => if bool_decide (p = "google"%string) then Some example_client else None)
       (fun _ => None) ["google"%string]).

Definition example_authorize : AuthorizeRequest :=
  mkAuthorize
    (<["provider" := ["google"]]> (<["redirect_uri" := ["https://client"]]>
       {["code_challenge" := ["hverifier"]]}))%string "https://ca/callback" (Ok "").
Definition example_callback : CallbackRequest :=
  mkCallback None (<["code" := ["c"]]> {["state" := ["s"]]})%string "https://ca/callback".
(** Google knows the user of the token it exchanges for the code. *)
Definition example_idp : Idp :=
  mkIdp (fun _ code => if bool_decide (code = "c"%string) then Ok (mkIdpToken "at" 0)
                       else Err (OtherError "bad code"))
    (fun url token => Answer 200 (Ok "ann@acme.com"%string)).

Definition example_a0 : AuthState := mkAuth (started 1000) ∅ (NewLRU 100 300000) 0.
Definition example_a1 : AuthState :=
  (AuthorizeHandler example_auth_config example_authorize example_a0).2.
Definition example_a2 : AuthState :=
  (CallbackHandler example_auth_config None example_guest example_idp example_callback
     example_a1).2.
Definition example_code : string := random_string 1 32.
Definition example_a3 : AuthState := (ExchangeCode example_code "verifier" example_a2).2.

Definition example_used : Used :=
  mkUsed example_code "verifier" (mkToken ("jwt:" ++ id_string 1001 ++ ":ann@acme.com") 172800) 1000.

Lemma example_flow_protected :
  protected example_auth_config example_authorize example_a0 = [("s"%string, example_state)].
Proof. vm_compute. reflexivity. Qed.
Lemma example_flow_drawn :
  drawn example_auth_config None example_guest example_idp example_callback example_a1 =
  [mkIssued example_code ("jwt:" ++ id_string 1001 ++ ":ann@acme.com") example_state 1000].
Proof. vm_compute. reflexivity. Qed.
Lemma example_flow_exchanged :
  exchanged example_code "verifier" example_a2 = [example_used].
Proof. vm_compute. reflexivity. Qed.

(** Only the state of the flow decrypts. *)
Lemma example_unforged : unforged [("s"%string, example_state)] example_callback.
Proof.
  intros param st [= <-] E. simpl in E. unfold Values_Get in *.
  vm_compute in E. injection E as <-. vm_compute. by left.
Qed.

Lemma example_trace_1 :
  auth_trace example_auth_config None [("s"%string, example_state)] [] [] example_a1.
Proof.
  pose proof (trace_authorize example_auth_config None [] [] [] example_a0 example_authorize)
    as H. rewrite example_flow_protected in H. apply H. by constructor.
Qed.
Lemma example_trace_3 :
  auth_trace example_auth_config None [("s"%string, example_state)]
    [mkIssued example_code ("jwt:" ++ id_string 1001 ++ ":ann@acme.com") example_state 1000]
    [example_used] example_a3.
Proof.
  pose proof (trace_callback _ _ _ _ _ _ example_guest example_idp example_callback
    example_trace_1 example_unforged) as H. rewrite example_flow_drawn in H.
  apply (trace_exchange _ _ _ _ _ _ example_code "verifier") in H.
  fold example_a2 in H. rewrite example_flow_exchanged in H. exact H.
Qed.

Lemma code_flow_sound_witness :
  exists i p, used_for example_used i /\ (p, is_state i) ∈ [("s"%string, example_state)].
Proof.
  destruct (code_flow_sound example_auth_config None _ _ _ _ example_used example_trace_3)
    as (i & p & _ & Hu & Hp & _); [by left|]. by exists i, p.
Defined.

Lemma codes_used_once_witness :
  exists e, (ExchangeCode example_code "verifier"
               (ExchangeCode example_code "other" example_a3).2).1 = Err e.
Proof.
  destruct (codes_used_once example_auth_config None _ _ _ _ example_trace_3) as [_ H].
  by apply H.
Defined.

Lemma callback_answers_on_redirect_witness :
  exists resp s', CallbackHandler example_auth_config None example_guest example_idp
      example_callback example_a1 = (Ok resp, s') /\
    callback_answer example_auth_config None [("s"%string, example_state)] example_a1
      example_guest example_idp example_callback resp.
Proof.
  exact (callback_answers_on_redirect example_auth_config None _ _ _ _ example_guest
    example_idp example_callback example_trace_1 example_unforged).
Defined.

Definition example_failure : Values := {["error"%string := ["access_denied"%string]]}.
Lemma example_location :
  writeOauthResponse example_state example_failure =
  ReplyRedirect "https://client?error=access_denied".
Proof. vm_compute. reflexivity. Qed.

Lemma redirect_answer_read_back_witness :
  exists u raw, url_Parse "https://client" = Some u /\
    "https://client?error=access_denied"%string = url_String (url_set_RawQuery raw u) /\
    ParseQuery raw = example_failure ∪ ParseQuery (url_RawQuery u).
Proof.
  pose proof (redirect_answer_read_back example_state example_failure) as H.
  rewrite example_location in H. unfold reads_back in H.
  destruct H as [(u & raw & Hu & Hl & Hp)|(b & raw & rest & _ & Hn & _ & Hl & _)].
  - intros k Hk. unfold example_failure in Hk. destruct (decide (k = "error"%string)) as [->|Hne].
    + by rewrite lookup_singleton_eq in Hk.
    + by rewrite lookup_singleton_ne in Hk.
  - by exists u, raw.
  - exfalso. assert (no_char "#" (b ++ "#" ++ raw)%string) as Hx by (rewrite <-Hl; by vm_compute).
    clear Hl Hn. induction b as [|c b IH].
    + by apply no_char_cons in Hx as [[] _].
    + rewrite app_String in Hx. apply IH. by apply no_char_cons in Hx as [_ Hx].
Defined.

Lemma sign_in_email_from_provider_witness :
  exists email claims, flow_email example_auth_config None example_idp "https://ca/callback"
      "c" example_state 1000 email /\
    SignClaims claims = Ok ("jwt:" ++ id_string 1001 ++ ":ann@acme.com")%string /\
    claims !! "email"%string = Some (ClaimText email).
Proof.
  destruct (sign_in_email_from_provider example_auth_config None example_guest example_idp
    "https://ca/callback" "c" example_state example_a0
    ("jwt:" ++ id_string 1001 ++ ":ann@acme.com")
    (mkUser 1001 "ann@acme.com" false "Ann") None
    (signInToken example_auth_config None example_guest example_idp "https://ca/callback"
       "c" example_state example_a0).2) as (email & claims & Hp & _ & Hs & _ & He & _).
  - apply org_inv_empty.
  - apply result_known. vm_compute. reflexivity.
  - by exists email, claims.
Defined.

(** Alice, in a cookie session without an org. *)
#[export] Instance example_sessions : SessionLib := {|
  MethodJWTCookie := "cookie";
  claim_TimeText c k := "2026-01-01T00:00:00Z";
  claims_To c := Ok (mkJwtClaims (claim_text c "sub") "" (claim_text c "email") false None);
  claims_CNF _ := None;
  Revocation := None |}.
Definition example_session : Caller :=
  mkCaller (mkContext (mkIdentity "user" "" "" "cookie" None "" [] "" "" "")
      (Some (mkTrusty 1000 "Alice" "alice@acme.com" 0 Role_None 0 [] "user" "" "" "cookie"))
      [] []) {["exp"%string := ClaimNum 9000]} "jwt" "old".
Definition example_a4 : AuthState := mkAuth example_o3 ∅ (NewLRU 100 300000) 0.

Lemma ok_run {S A} (p : result A * S) : is_ok p.1 = true -> exists a s', p = (Ok a, s').
Proof. destruct p as [[a|e] s']; [|done]. by exists a, s'. Qed.
Lemma example_switch_ok :
  is_ok (AuthOrgHandler example_auth_config example_session (id_string 1001) true ""
           example_a4).1 = true.
Proof. vm_compute. reflexivity. Qed.

Lemma cookie_session_switches_org_witness :
  exists cookies res s', AuthOrgHandler example_auth_config example_session (id_string 1001)
      true "" example_a4 = (Ok (cookies, res), s') /\
    tb_AccessToken (ut_Token res) = EmptyString /\
    exists u sel tok claims, SignClaims claims = Ok tok /\
      Forall (session_cookie example_auth_config tok) cookies /\
      role_earned (os_db example_o3) u sel /\
      claims !! "exp"%string = Some (ClaimNum 9000).
Proof.
  destruct (ok_run _ example_switch_ok) as ([cookies res] & s' & E).
  destruct (cookie_session_switches_org (SL := example_sessions) example_auth_config example_session (id_string 1001)
    true example_a4 cookies res s' (reachable_inv _ example_o3_reachable) eq_refl E)
    as (Ht & _ & _ & _ & u & sel & tok & claims & Hs & Hc & _ & _ & Hr & Hk).
  exists cookies, res, s'. split; [done|]. split; [exact Ht|].
  exists u, sel, tok, claims. split_and!; [exact Hs|exact Hc|exact Hr|].
  rewrite Hk; [done|]. unfold session_claims. rewrite !not_elem_of_cons.
  by split_and!; [..|apply not_elem_of_nil].
Defined.
